(* ===== verification/_CoqProject ===== *)
-Q . S2P
Prelude.v
Bytes.v
Bpf.v
Helper.v
CString.v
Printf.v
Inet.v
Pack.v
Hook.v
Hookopts.v
Matcher.v
Payload.v
PayloadSpec.v
BfSet.v
Sys.v
Lists.v
Io.v
Map.v
Rule.v
Chain.v
Printer.v
Serial.v
Dump.v
RawSetSpec.v
Log.v
ToolOpts.v
Wire.v
Btf.v
Program.v
Elf.v
Block.v
BlockExec.v
Fixups.v
Context.v
Symbolic.v
Match.v
Stubs.v
KernelSpec.v
GenIp4.v
GenIp6.v
GenL4.v
Swich.v
Flavors.v
GenMeta.v
Stub.v
GenSet.v
Prologue.v
Ipv6.v
Load.v
Fds.v
Generate.v
Cgen.v
Frame.v
Account.v
CgenSpec.v
Request.v
Client.v
Tool.v
ToolSpec.v
Ctx.v
Save.v
Cli.v
Ipt.v
IptSpec.v
Daemon.v
Traffic.v
Ruleset.v
CliSpec.v
DaemonSpec.v
SaveSpec.v
LiveSpec.v
ClientSpec.v
Typed.v
Correct.v
Demo.v
GenProps.v
LifeProps.v
LibProps.v
TextProps.v
DaemonProps.v
