(* ===== verification/Prelude.v ===== *)
(** bpfilter: a verification library.

    bpfilter turns packet filtering rules into BPF programs.  A client (the
    command line tool [bfcli], through the library, or [iptables]) sends a
    ruleset to a daemon; the daemon generates, loads, attaches and pins one
    program for each chain, answers the clients, and saves its context on disk
    to find it again when it restarts.  Paths below are relative to
    [src/src/].

    ** The parts, from the bottom up

    - _Values_: [Prelude] (results, machine integers, bytes, tables of names),
      [Bytes], [Helper] ([libbpfilter/helper.c], [dynbuf.c]), [Lists] (the
      nodes of [list.c] in memory; the other files use lists of values),
      [CString], [Printf] and [Inet] (the functions of the C library the
      parsers and the printers call), [Hook] ([verdict.c], [flavor.c],
      [front.c], [hook.c]), [Hookopts] ([hook.c]), [Matcher] and [Payload]
      ([matcher.c], [if.c]: the tables, then the text of payloads), [BfSet]
      ([set.c]), [Rule] ([rule.c]), [Chain]
      ([chain.c]), [Printer] ([bpfilter/cgen/printer.c]).
    - _Documents_: [Pack] ([pack.c]: a document is a tree), [Serial] (the pack
      and the unpack functions of each type), [Wire] (a concrete byte format for
      the examples).
    - _The kernel_: [Sys] ([bpf.c] and the other calls), [Io] ([io.c],
      [helper.c], [ns.c], the lock), [Map] (maps, then links:
      [bpfilter/cgen/prog]), [Btf] ([btf.c]).
    - _Code generation_: [Bpf] (instructions and an interpreter), [Program]
      ([program.c]: image, emission, fixups), [Swich], [Stub], [Flavors],
      [Prologue], [GenIp4], [GenIp6], [GenL4], [GenMeta], [GenSet] (the files
      of [bpfilter/cgen] of the same names), [Generate]
      ([bf_program_generate]), [Stubs] (the stubs in C,
      [bpfilter/bpf]), [Elf] (their objects, [elfstub.c]), [Load] (creation, loading, attachment and
      pinning of a program), [Cgen] ([cgen.c]).
    - _The daemon_: [Request] ([request.c], [response.c] and their transport),
      [Ctx] ([ctx.c]), [Save] (the context on disk), [Cli] ([xlate/cli.c]),
      [Ipt] ([xlate/ipt], and its client, [libbpfilter/ipt.c]), [Daemon]
      ([opts.c], [main.c], [xlate/front.c]).
    - _The client_: [Client] ([libbpfilter/cli.c], [generic.c], [nft.c]).
    - _The tool_: [ToolOpts] ([bfcli/opts.c]), [Tool] ([bfcli/chain.c],
      [ruleset.c], [helper.c], [main.c]), [Dump] and [Log] ([bfcli/print.c]:
      chains, then logged packets; [logger.c]).

    A definition has the name of the function it translates.  A function that
    may fail returns [res]: [Ok] or the negative [errno] of C.  A function that
    changes an object or calls the kernel is in the monad [st] of [Sys]: the
    state is the object (a program, a cgen, the daemon's context) and the
    kernel.  [bf_program *] under construction is a [bf_program] passed along
    ([gen]).

    ** The specifications

    - [Block], [BlockExec], [Fixups], [Symbolic]: what a generator appends is a
      _block_; blocks have a big-step semantics of their own, which composes,
      and which the interpreter of [Bpf] on the final image simulates.
    - [Match]: packet matching, independent of code; [Context]: the run-time
      context of a program; [KernelSpec]: what programs expect of helpers, and
      what the stubs that rules call do; [Stubs]: chains of extension headers,
      which the parsers follow; [Ipv6]: which headers call them; [Correct]: from
      the block of a chain to the image that is loaded, and what the counters
      count.
    - [Btf]: where the field of a structure is; [Elf]: how a stub is linked.
    - [Fds], [Frame], [Account], [CgenSpec]: which descriptors each object owns,
      and what each operation does to those that are open.
    - [Traffic]: the messages that go through the daemon's sockets, and which
      operations send or receive; [Ruleset]: the daemon as an abstract ruleset
      and the steps requests make on it; [CliSpec]: the handlers refine it;
      [DaemonSpec]: so does the loop of the daemon, for the requests it
      receives; [SaveSpec]: what is saved is what is loaded; [LiveSpec]:
      clients are answered; [ClientSpec]: the two ends together; [Ipt]: the
      loop over the entries of iptables; [IptSpec]: what is generated for
      iptables is read back; [Typed]: what is read is well typed.
    - [Lists]: the list a chain of nodes represents; [PayloadSpec]: what is
      printed of a payload is parsed back, what is parsed is a payload;
      [RawSetSpec]: the same of sets, and when their parser ends; [ToolSpec]:
      what a command finds in its options, and what it shows of a chain.

    ** The theorems

    [GenProps] shows that the code loaded for a chain computes the verdict that
    the chain gives the packet, and the same for a rule, for every matcher, for
    switches, for the parsing of IPv6 headers down to the stubs, for the counters
    and the logs, and for the stubs as they are read; where a generator departs
    from what its matcher promises, it says for which packets.  [LifeProps] is
    about the life of a program: its creation, its descriptors, its pins, the
    replacement of a link.  [LibProps] is about the library: buffers,
    linked lists, strings, rules, chains, options, messages and names.
    [TextProps] is about texts: matchers and sets are read back from what is
    printed of them, and reading a set ends but for one kind of text.
    The last claim of [TextProps] is about the command line.  [DaemonProps] is about
    the daemon: commands refine the specification of a ruleset, whatever fails;
    requests and responses are received as they were sent; the invariant of the
    loop; liveness; restarts; a client gets the chain it set, and a user is
    shown it; the loop over the
    entries of iptables ends, and a ruleset that iptables is given is set again
    as it was; the context is always well typed.  [Demo] holds
    the chain, the packet, the ELF object and the kernels that the theorems are
    applied to, next to each of them.

    ** Bounds

    Integers are in [Z], reduced where C reduces them ([u8] to [u64], [s32]);
    a buffer is the list of its bytes.  Recursion is structural but for:
    opening a directory that is created when it is missing ([OPENDIR_FUEL]: one
    attempt before it is created and one after); the loop of the daemon ([_bf_run] takes a
    number of turns, theorems hold for every number); sending and receiving in
    pieces (the fuel is the length, and each piece has a byte at least); the
    entries of iptables (the fuel is the distance to the last entry, which
    [entries_terminate] shows is enough); the tokens of a string (the fuel is
    its length, and each token takes a byte at least; [raw_set_ends] says when
    a set is not read in that many turns); the interpreter (the number of steps,
    which [block_simulated] bounds by the slots of the block); the anonymous
    members of a type of the kernel (the fuel is the number of types, which
    [offset_in_compound_ends] shows is enough); a string of an ELF object (the
    fuel is the length of the object).

    ** Parameters

    Code that is not in the repository is a parameter: the kernel (class [Sys],
    and the classes [FdSys], [PinSys], [DirSys], [CounterSys], [FileSys],
    [PeerSys], [RecordSys], [TrafficSys], [SavedSys], [LiveSys] and [CounterLive]
    that state the documented behaviour a group of theorems relies on: a
    descriptor that is returned is new, a pin is found again, a directory exists
    once created, a call that sends says how much it sent); the mpack
    library ([Mpack], [MpackSpec]: a document is parsed from the bytes it is
    written to); libbpf's access to the types of the kernel ([Btf]); the bytes of
    the ELF stubs, which are compiled by clang when the daemon is built
    ([CgenEnv], and [_bf_rawstubs] of [Daemon]: that the code that is loaded does
    what the C of [Stubs] does is the hypothesis [k_stubs]); the helpers that a
    program and its stubs call when they run ([KernelSpec], [StubHelpers],
    [AccountSpec]); the names of interfaces ([Ifaces]); argp
    ([Argp], [ArgpSpec]), the parser that bison generates ([Parser]) and the
    files ([Source]) of the tool.  Each class has an instance in
    [Demo], [Wire] or next to the theorem that uses it.

    ** Conventions

    [- BF_CRASH] is the result where C has none: reads outside of a buffer,
    uses of freed or of uninitialised memory, shifts by the width and more,
    calls of a null pointer; and for [bf_abort], which ends the process.  A
    payload has the length its creator gave it: a generator or a printer reads
    in it what its type says ([payload_read], [payload_has]).
    Memory allocation succeeds.  [bf_assert] is taken as
    compiled out.
    A message that is sent is received by one [recvmsg].

    ** Not modelled

    The functions that only write logs ([bf_*_dump], [bf_err], ...); the
    compilation of the stubs; two CPUs that run a program at once; signal
    handlers; libbpf and argp; the lexer and the parser of [bfcli],
    which flex and bison generate; the Netlink messages of [nft], that
    the front of nftables, which refuses every request, does not use. *)

From stdpp Require Export prelude gmap strings list.
From Stdlib Require Export ZArith Lia.

#[global] Open Scope Z_scope.

(** * Results: a value or a negative errno, as the C functions return them *)

Inductive res (A : Type) : Type :=
| Ok (a : A)
| Err (e : Z).
Arguments Ok {A} a.
Arguments Err {A} e.

Definition rbind {A B : Type} (x : res A) (k : A -> res B) : res B :=
  match x with Ok a => k a | Err e => Err e end.

Declare Scope bf_scope.
Delimit Scope bf_scope with bf.
Notation "'let!' x ':=' e 'in' k" := (rbind e (fun x => k))
  (at level 10, x binder, e at level 100, k at level 200) : bf_scope.
#[global] Open Scope bf_scope.

Definition res_ok {A : Type} (x : res A) : bool :=
  match x with Ok _ => true | Err _ => false end.

Definition of_option {A : Type} (e : Z) (x : option A) : res A :=
  match x with Some a => Ok a | None => Err e end.

(** errno values (Linux, asm-generic) *)
Definition ENOENT : Z := 2.
Definition E2BIG : Z := 7.
Definition ENOMEM : Z := 12.
Definition EIO : Z := 5.
Definition EBUSY : Z := 16.
Definition EEXIST : Z := 17.
Definition ENODEV : Z := 19.
Definition EINVAL : Z := 22.
Definition EMSGSIZE : Z := 90.
Definition EDOM : Z := 33.
Definition ERANGE : Z := 34.
Definition EPERM : Z := 1.
Definition ENOTSUP : Z := 95.

(** The end of the process, told apart from the errors of the kernel, which are
    below 4096. *)
Definition BF_CRASH : Z := 4096.

(** [bf_err_r] and [bf_warn_r]: the code of an error, of either sign, is returned
    as a negative one. *)
Definition bf_err_r (code : Z) : Z := - Z.abs code.

(** * Machine integers: Z kept at the width of the C type *)

Definition uw (w : Z) (z : Z) : Z := z mod 2 ^ w.
Definition u8 (z : Z) : Z := z mod 2 ^ 8.
Definition u16 (z : Z) : Z := z mod 2 ^ 16.
Definition u32 (z : Z) : Z := z mod 2 ^ 32.
Definition u64 (z : Z) : Z := z mod 2 ^ 64.

(** Two's complement reading of the low [w] bits. *)
Definition sw (w : Z) (z : Z) : Z :=
  let m := z mod 2 ^ w in if decide (m < 2 ^ (w - 1)) then m else m - 2 ^ w.
Definition s16 (z : Z) : Z := sw 16 z.
Definition s32 (z : Z) : Z := sw 32 z.

Definition UINT8_MAX : Z := 255.
Definition UINT16_MAX : Z := 65535.
Definition UINT32_MAX : Z := 4294967295.
Definition INT_MAX : Z := 2147483647.
Definition SHRT_MAX : Z := 32767.

(** Swap the two bytes of a 16-bit value; the host is little-endian, so this
    is [htobe16]/[be16toh]/[htons]/[bpf_ntohs]. *)
Definition bswap16 (z : Z) : Z := (z mod 256) * 256 + (z / 256) mod 256.
Definition htobe16 : Z -> Z := bswap16.

Create HintDb bf discriminated.
Create Rewrite HintDb bf_len.

(** Arithmetic goals with the widths spelled out. *)
Ltac width_lia :=
  unfold u8, u16, u32, u64, uw, UINT8_MAX, UINT16_MAX, UINT32_MAX, INT_MAX, SHRT_MAX in *;
  Z.to_euclidean_division_equations; lia.

(** Case analysis on the first [match]/[if]/[decide] of the goal. *)
Ltac case_goal :=
  match goal with
  | |- context [decide ?P] => destruct (decide P)
  | |- context [match ?x with _ => _ end] =>
      lazymatch x with context [match _ with _ => _ end] => fail | _ => destruct x eqn:? end
  end.

(** Split a successful [let!] hypothesis into its steps. *)
Ltac inv_res H :=
  repeat (match type of H with
          | rbind ?e _ = Ok _ => destruct e eqn:?; cbn [rbind] in H; [| discriminate H]
          end).

Section Widths.
Lemma u8_range z : 0 <= u8 z < 256.
Proof. unfold u8. apply Z.mod_pos_bound. lia. Qed.
Lemma u16_range z : 0 <= u16 z < 2 ^ 16.
Proof. apply Z.mod_pos_bound. lia. Qed.
Lemma u32_range z : 0 <= u32 z < 2 ^ 32.
Proof. apply Z.mod_pos_bound. lia. Qed.
Lemma u64_range z : 0 <= u64 z < 2 ^ 64.
Proof. apply Z.mod_pos_bound. lia. Qed.

Lemma u64_small z : 0 <= z < 2 ^ 64 -> u64 z = z.
Proof. apply Z.mod_small. Qed.
Lemma u32_small z : 0 <= z < 2 ^ 32 -> u32 z = z.
Proof. apply Z.mod_small. Qed.
Lemma u16_small z : 0 <= z < 2 ^ 16 -> u16 z = z.
Proof. apply Z.mod_small. Qed.

Lemma u64_add_l a b : u64 (u64 a + b) = u64 (a + b).
Proof. unfold u64. apply Z.add_mod_idemp_l. lia. Qed.

Lemma sw_range w z : 0 < w -> - 2 ^ (w - 1) <= sw w z < 2 ^ (w - 1).
Proof.
  intros Hw. unfold sw.
  assert (2 ^ w = 2 * 2 ^ (w - 1)) as E
    by (rewrite <- (Z.pow_succ_r 2 (w - 1)) by lia; f_equal; lia).
  pose proof (Z.mod_pos_bound z (2 ^ w) ltac:(apply Z.pow_pos_nonneg; lia)).
  case_decide; lia.
Qed.

Lemma sw_small w z : 0 < w -> 0 <= z < 2 ^ (w - 1) -> sw w z = z.
Proof.
  intros Hw Hz. unfold sw.
  assert (2 ^ w = 2 * 2 ^ (w - 1)) as E
    by (rewrite <- (Z.pow_succ_r 2 (w - 1)) by lia; f_equal; lia).
  rewrite Z.mod_small by lia. rewrite decide_True by lia. done.
Qed.

Lemma sw_mod w z : 0 < w -> sw w z mod 2 ^ w = z mod 2 ^ w.
Proof.
  intros Hw. unfold sw. case_decide.
  - apply Z.mod_mod. apply Z.pow_nonzero; lia.
  - rewrite <- (Z.mul_1_l (2 ^ w)) at 2. rewrite <- Zminus_mod_idemp_r.
    rewrite Z.mod_mul by (apply Z.pow_nonzero; lia).
    rewrite Z.sub_0_r. apply Z.mod_mod. apply Z.pow_nonzero; lia.
Qed.

Lemma u32_s32 z : u32 (s32 z) = u32 z.
Proof. apply (sw_mod 32). lia. Qed.

(** A 32-bit immediate sign-extended to 64 bits is the value itself only
    below 2^31. *)
Lemma u64_s32_small z : 0 <= z < 2 ^ 31 -> u64 (s32 z) = z.
Proof. intros H. unfold s32. rewrite (sw_small 32) by lia. apply u64_small. lia. Qed.

Lemma u64_s32_large z : 2 ^ 31 <= z < 2 ^ 32 -> u64 (s32 z) = z + (2 ^ 64 - 2 ^ 32).
Proof.
  intros H. unfold s32, sw. rewrite (Z.mod_small z) by lia.
  rewrite decide_False by lia. unfold u64.
  rewrite <- (Z.mod_small (z + (2 ^ 64 - 2 ^ 32)) (2 ^ 64)) by lia.
  replace (z + (2 ^ 64 - 2 ^ 32)) with ((z - 2 ^ 32) + 1 * 2 ^ 64) by lia.
  by rewrite Z_mod_plus_full.
Qed.

Lemma u64_s32_large_ge z : 2 ^ 31 <= z < 2 ^ 32 -> 2 ^ 32 <= u64 (s32 z).
Proof. intros H. rewrite u64_s32_large by done. lia. Qed.

Lemma s16_small z : 0 <= z < 2 ^ 15 -> s16 z = z.
Proof. intros. apply (sw_small 16); lia. Qed.

Lemma s16_neg z : - 2 ^ 15 <= z < 0 -> s16 z = z.
Proof.
  intros Hz. unfold s16, sw.
  assert (z mod 2 ^ 16 = z + 2 ^ 16) as ->.
  { rewrite <- (Z_mod_plus_full z 1), Z.mul_1_l. apply Z.mod_small. lia. }
  rewrite decide_False by lia. lia.
Qed.

Lemma bswap16_range z : 0 <= bswap16 z < 2 ^ 16.
Proof. unfold bswap16. width_lia. Qed.

Lemma bswap16_involutive z : 0 <= z < 2 ^ 16 -> bswap16 (bswap16 z) = z.
Proof. unfold bswap16. intros. width_lia. Qed.

Lemma bswap16_inj a b : 0 <= a < 2 ^ 16 -> 0 <= b < 2 ^ 16 ->
  bswap16 a = bswap16 b -> a = b.
Proof.
  intros Ha Hb E. rewrite <- (bswap16_involutive a), <- (bswap16_involutive b) by done.
  by rewrite E.
Qed.

(** A bitwise or of disjoint parts is a sum. *)
Lemma lor_shiftl_add x y n : 0 <= n -> 0 <= x < 2 ^ n ->
  Z.lor (Z.shiftl y n) x = x + y * 2 ^ n.
Proof.
  intros Hn Hx.
  assert (Z.land (Z.shiftl y n) x = 0) as Hd.
  { apply Z.bits_inj'. intros i Hi. rewrite Z.land_spec, Z.bits_0.
    destruct (Z.ltb_spec i n) as [Hlt|Hge].
    - by rewrite Z.shiftl_spec_low.
    - rewrite <- (Z.mod_small x (2 ^ n)) by done.
      rewrite Z.mod_pow2_bits_high by lia. apply andb_false_r. }
  rewrite <- Z.lxor_lor, <- Z.add_nocarry_lxor by done.
  rewrite Z.shiftl_mul_pow2 by lia. lia.
Qed.
End Widths.

#[export] Hint Resolve u8_range u16_range u32_range u64_range bswap16_range : bf.

(** * Byte strings: lists of Z in [0, 256), little-endian *)

Fixpoint le_combine (bs : list Z) : Z :=
  match bs with [] => 0 | b :: bs => b + 256 * le_combine bs end.

Fixpoint le_split (n : nat) (z : Z) : list Z :=
  match n with O => [] | S n => z mod 256 :: le_split n (z / 256) end.

Definition is_byte (b : Z) : Prop := 0 <= b < 256.
Definition is_bytes : list Z -> Prop := Forall is_byte.
#[global] Instance is_byte_dec b : Decision (is_byte b).
Proof. unfold is_byte. apply _. Defined.
#[global] Instance is_bytes_dec bs : Decision (is_bytes bs).
Proof. unfold is_bytes. apply _. Defined.

(** [n] bytes of [bs] from offset [o]. *)
Definition sub_bytes (o n : nat) (bs : list Z) : list Z := take n (drop o bs).

Section Bytes.
Lemma length_le_split n z : length (le_split n z) = n.
Proof. revert z. induction n; intros; simpl; [done|]. by rewrite IHn. Qed.

Lemma le_split_bytes n z : is_bytes (le_split n z).
Proof.
  revert z. induction n; intros; simpl; constructor; [|apply IHn].
  unfold is_byte. apply Z.mod_pos_bound. lia.
Qed.

Lemma le_combine_bound bs : is_bytes bs -> 0 <= le_combine bs < 256 ^ Z.of_nat (length bs).
Proof.
  induction 1 as [|b bs Hb _ IH]; cbn [le_combine length]; [done|].
  rewrite Nat2Z.inj_succ, Z.pow_succ_r by lia. unfold is_byte in Hb. nia.
Qed.

Lemma le_combine_split n z : le_combine (le_split n z) = z mod 256 ^ Z.of_nat n.
Proof.
  revert z. induction n as [|n IH]; intros z; cbn [le_split le_combine].
  - by rewrite Z.pow_0_r, Z.mod_1_r.
  - rewrite IH, Nat2Z.inj_succ, Z.pow_succ_r by lia.
    rewrite Z.rem_mul_r by lia. lia.
Qed.

(** Only the low [n] bytes matter. *)
Lemma le_split_ext n z z' : z mod 256 ^ Z.of_nat n = z' mod 256 ^ Z.of_nat n ->
  le_split n z = le_split n z'.
Proof.
  revert z z'. induction n as [|n IH]; intros z z' E; [done|]. cbn [le_split].
  rewrite Nat2Z.inj_succ, Z.pow_succ_r in E by lia.
  assert (0 < 256 ^ Z.of_nat n) by (apply Z.pow_pos_nonneg; lia).
  rewrite !Z.rem_mul_r in E by lia.
  pose proof (Z.mod_pos_bound z 256 ltac:(lia)). pose proof (Z.mod_pos_bound z' 256 ltac:(lia)).
  f_equal; [lia|]. apply IH. lia.
Qed.

Lemma le_split_combine bs : is_bytes bs -> le_split (length bs) (le_combine bs) = bs.
Proof.
  induction 1 as [|b bs Hb _ IH]; cbn [le_split le_combine length]; [done|].
  unfold is_byte in Hb. f_equal.
  - rewrite Z.mul_comm, Z_mod_plus_full. apply Z.mod_small. lia.
  - rewrite Z.mul_comm, Z.div_add by lia. rewrite Z.div_small by lia. apply IH.
Qed.

Lemma le_combine_inj a b : is_bytes a -> is_bytes b -> length a = length b ->
  le_combine a = le_combine b -> a = b.
Proof.
  intros Ha Hb Hl E. rewrite <- (le_split_combine a), <- (le_split_combine b) by done.
  by rewrite Hl, E.
Qed.

Lemma le_combine_app a b :
  le_combine (a ++ b) = le_combine a + 256 ^ Z.of_nat (length a) * le_combine b.
Proof.
  induction a as [|x a IH]; cbn [app le_combine length].
  - rewrite Z.pow_0_r. lia.
  - rewrite IH, Nat2Z.inj_succ, Z.pow_succ_r by lia. lia.
Qed.

Lemma is_bytes_take n bs : is_bytes bs -> is_bytes (take n bs).
Proof. apply Forall_take. Qed.
Lemma is_bytes_drop n bs : is_bytes bs -> is_bytes (drop n bs).
Proof. apply Forall_drop. Qed.
Lemma is_bytes_sub o n bs : is_bytes bs -> is_bytes (sub_bytes o n bs).
Proof. intros. by apply is_bytes_take, is_bytes_drop. Qed.

Lemma length_sub_bytes o n bs : (o + n <= length bs)%nat -> length (sub_bytes o n bs) = n.
Proof. intros. unfold sub_bytes. rewrite length_take, length_drop. lia. Qed.

Lemma sub_bytes_eqb_combine a b : is_bytes a -> is_bytes b -> length a = length b ->
  (le_combine a =? le_combine b) = bool_decide (a = b).
Proof.
  intros Ha Hb Hl. case_bool_decide as E.
  - subst. apply Z.eqb_refl.
  - apply Z.eqb_neq. intros E'. apply E. by apply le_combine_inj.
Qed.
End Bytes.

#[export] Hint Resolve is_bytes_take is_bytes_drop is_bytes_sub le_split_bytes : bf.
#[export] Hint Rewrite length_le_split : bf_len.

(** * Tables of names

    The C code searches arrays of strings indexed by an enumeration, in order;
    the comparison is [strcmp] or [strcasecmp]. *)

Fixpoint table_find {A : Type} (eq : option string -> option string -> bool)
    (name : A -> option string) (vals : list A) (s : string) : option A :=
  match vals with
  | [] => None
  | a :: vals => if eq (name a) (Some s) then Some a else table_find eq name vals s
  end.

Section Tables.
Context {A : Type} (eq : option string -> option string -> bool) (name : A -> option string).

Lemma table_find_some vals s a : table_find eq name vals s = Some a ->
  a ∈ vals /\ eq (name a) (Some s) = true.
Proof.
  induction vals as [|b vals IH]; cbn; [done|].
  destruct (eq (name b) (Some s)) eqn:E.
  - intros [= ->]. split; [left|done].
  - intros H. destruct (IH H). split; [by right|done].
Qed.

(** A name that no other entry answers to is found. *)
Lemma table_find_roundtrip vals a s : a ∈ vals -> eq (name a) (Some s) = true ->
  (forall b, b ∈ vals -> eq (name b) (Some s) = true -> b = a) ->
  table_find eq name vals s = Some a.
Proof.
  induction vals as [|b vals IH]; cbn; [by intros ?%elem_of_nil|].
  intros Ha Hs Hu. destruct (eq (name b) (Some s)) eqn:E.
  - f_equal. apply Hu; [left|done].
  - apply elem_of_cons in Ha as [->|Ha]; [congruence|].
    apply IH; [done..|]. intros c Hc. apply Hu. by right.
Qed.

Lemma table_find_none vals s : table_find eq name vals s = None <->
  forall a, a ∈ vals -> eq (name a) (Some s) = false.
Proof.
  split.
  - induction vals as [|b vals IH]; cbn; [by intros _ a ?%elem_of_nil|].
    destruct (eq (name b) (Some s)) eqn:E; [done|].
    intros H a [->|Ha]%elem_of_cons; [done|]. by apply IH.
  - induction vals as [|b vals IH]; cbn; [done|]. intros H.
    rewrite (H b) by left. apply IH. intros a Ha. apply H. by right.
Qed.
End Tables.
