(* ===== verification/Bytes.v ===== *)
(** Addresses as bit strings: network prefixes, masks, and bitwise operations
    on little-endian words read as operations on their bytes. *)

From S2P Require Import Prelude.

(** * Bits of a byte string, most significant bit of the first byte first *)

Definition byte_bits (b : Z) : list bool := Z.testbit b <$> [7; 6; 5; 4; 3; 2; 1; 0].
Definition bytes_bits (bs : list Z) : list bool := bs ≫= byte_bits.

(** [a] and [b] agree on their first [p] bits. *)
Definition same_prefix (p : nat) (a b : list Z) : bool :=
  bool_decide (take p (bytes_bits a) = take p (bytes_bits b)).

(** The byte whose [p] high bits are set. *)
Definition byte_mask (p : nat) : Z := Z.land (Z.shiftl 255 (8 - Z.of_nat p)) 255.

Fixpoint mask_bytes (n p : nat) : list Z :=
  match n with
  | O => []
  | S n => byte_mask (Nat.min p 8) :: mask_bytes n (p - 8)
  end.

Lemma length_mask_bytes n p : length (mask_bytes n p) = n.
Proof. revert p. induction n; intros; cbn; auto. Qed.

Lemma byte_mask_testbit p i : (p <= 8)%nat -> 0 <= i ->
  Z.testbit (byte_mask p) i = (8 - Z.of_nat p <=? i) && (i <? 8).
Proof.
  intros Hp Hi. unfold byte_mask. change 255 with (Z.ones 8).
  rewrite Z.land_spec, Z.shiftl_spec, !Z.testbit_ones by lia.
  destruct (Z.leb_spec (8 - Z.of_nat p) i), (Z.ltb_spec i 8), (Z.leb_spec 0 i),
    (Z.leb_spec 0 (i - (8 - Z.of_nat p))), (Z.ltb_spec (i - (8 - Z.of_nat p)) 8); try done; lia.
Qed.

Lemma byte_mask_is_byte p : is_byte (byte_mask p).
Proof.
  unfold byte_mask, is_byte. rewrite (Z.land_ones _ 8) by lia.
  apply Z.mod_pos_bound. lia.
Qed.

Lemma mask_bytes_bytes n p : is_bytes (mask_bytes n p).
Proof. revert p. induction n; intros p; constructor; [apply byte_mask_is_byte|apply IHn]. Qed.

Lemma byte_mask_eq p a b : (p <= 8)%nat ->
  Z.land a (byte_mask p) = Z.land b (byte_mask p) <-> take p (byte_bits a) = take p (byte_bits b).
Proof.
  intros Hp. unfold byte_bits. rewrite <- !fmap_take. split.
  - intros E. apply list_fmap_ext. intros k i Hk.
    apply lookup_take_Some in Hk as [Hk Hlt].
    assert (i = 7 - Z.of_nat k /\ (k < 8)%nat) as [-> Hk8]
      by (do 8 (destruct k as [|k]; [cbn in Hk; simplify_eq; lia|]); done).
    pose proof (f_equal (fun z => Z.testbit z (7 - Z.of_nat k)) E) as Eb. cbv beta in Eb.
    rewrite !Z.land_spec, byte_mask_testbit in Eb by lia.
    replace (8 - Z.of_nat p <=? 7 - Z.of_nat k) with true in Eb by lia.
    replace (7 - Z.of_nat k <? 8) with true in Eb by lia. by rewrite !andb_true_r in Eb.
  - intros E. apply Z.bits_inj'. intros i Hi. rewrite !Z.land_spec, byte_mask_testbit by lia.
    destruct (Z.leb_spec (8 - Z.of_nat p) i); [|by rewrite !andb_false_r].
    destruct (Z.ltb_spec i 8); [|by rewrite !andb_false_r].
    rewrite !andb_true_r.
    assert (take p [7; 6; 5; 4; 3; 2; 1; 0] !! Z.to_nat (7 - i) = Some i) as Hl.
    { rewrite lookup_take_lt by lia.
      assert (i = 0 \/ i = 1 \/ i = 2 \/ i = 3 \/ i = 4 \/ i = 5 \/ i = 6 \/ i = 7) as Hc by lia.
      by destruct Hc as [->|[->|[->|[->|[->|[->|[->| ->]]]]]]]. }
    pose proof (f_equal (fun l => l !! Z.to_nat (7 - i)) E) as El. cbv beta in El.
    rewrite !list_lookup_fmap, Hl in El. by injection El.
Qed.

Lemma length_byte_bits b : length (byte_bits b) = 8%nat.
Proof. done. Qed.

(** Masking bytewise compares exactly the first [p] bits. *)
Lemma mask_bytes_eq n p a b : length a = n -> length b = n ->
  zip_with Z.land a (mask_bytes n p) = zip_with Z.land b (mask_bytes n p) <->
  take p (bytes_bits a) = take p (bytes_bits b).
Proof.
  revert p a b. induction n as [|n IH]; intros p a b Ha Hb.
  - destruct a, b; done.
  - destruct a as [|x a]; [done|]. destruct b as [|y b]; [done|].
    injection Ha as Ha. injection Hb as Hb. cbn [mask_bytes zip_with].
    change (bytes_bits (x :: a)) with (byte_bits x ++ bytes_bits a).
    change (bytes_bits (y :: b)) with (byte_bits y ++ bytes_bits b).
    rewrite !firstn_app, !length_byte_bits.
    transitivity (Z.land x (byte_mask (p `min` 8)) = Z.land y (byte_mask (p `min` 8)) /\
                  zip_with Z.land a (mask_bytes n (p - 8)) = zip_with Z.land b (mask_bytes n (p - 8))).
    { split; [by intros [= -> ->]|by intros [-> ->]]. }
    rewrite byte_mask_eq by lia. rewrite IH by done.
    split.
    + intros [E1 E2]. f_equal; [|done].
      destruct (Nat.le_gt_cases p 8); [by rewrite Nat.min_l in E1 by lia|].
      rewrite Nat.min_r in E1 by lia. rewrite !firstn_all2 in E1 by done.
      rewrite !firstn_all2 by (rewrite length_byte_bits; lia). done.
    + intros E. apply app_inj_1 in E as [E1 E2]; [|by rewrite !length_take, !length_byte_bits].
      split; [|done].
      destruct (Nat.le_gt_cases p 8); [by rewrite Nat.min_l by lia|].
      rewrite Nat.min_r by lia. rewrite !firstn_all2 in E1 by (rewrite length_byte_bits; lia).
      by rewrite !firstn_all2 by done.
Qed.

(** * Words *)

Lemma testbit_cons b z i : is_byte b -> 0 <= i ->
  Z.testbit (b + 256 * z) i = if i <? 8 then Z.testbit b i else Z.testbit z (i - 8).
Proof.
  intros Hb Hi. unfold is_byte in Hb.
  replace (b + 256 * z) with (Z.lor (Z.shiftl z 8) b) by (rewrite lor_shiftl_add by lia; lia).
  rewrite Z.lor_spec. destruct (Z.ltb_spec i 8).
  - by rewrite Z.shiftl_spec_low.
  - rewrite Z.shiftl_spec by lia.
    rewrite <- (Z.mod_small b (2 ^ 8)) by lia. rewrite Z.mod_pow2_bits_high by lia.
    apply orb_false_r.
Qed.

Lemma is_byte_land a b : is_byte a -> is_byte b -> is_byte (Z.land a b).
Proof.
  intros [Ha Ha'] [Hb Hb']. unfold is_byte. split; [apply Z.land_nonneg; lia|].
  destruct (decide (Z.land a b = 0)) as [->|]; [lia|].
  apply Z.log2_lt_cancel. change (Z.log2 256) with 8.
  pose proof (Z.log2_land a b Ha Hb) as Hl.
  assert (Z.log2 a < 8).
  { destruct (decide (a = 0)) as [->|]; [done|]. apply Z.log2_lt_pow2; lia. }
  lia.
Qed.

Lemma zip_land_bytes a b : is_bytes a -> is_bytes b -> is_bytes (zip_with Z.land a b).
Proof.
  intros Ha. revert b. induction Ha; intros b0 Hb; [constructor|].
  destruct Hb; constructor; [by apply is_byte_land|]. by apply IHHa.
Qed.

Lemma le_combine_land a m : is_bytes a -> is_bytes m -> length a = length m ->
  Z.land (le_combine a) (le_combine m) = le_combine (zip_with Z.land a m).
Proof.
  intros Ha. revert m. induction Ha as [|x a Hx Ha IH]; intros m Hm Hl; [done|].
  destruct Hm as [|y m Hy Hm]; [done|]. cbn [le_combine zip_with].
  injection Hl as Hl. rewrite <- IH by done.
  apply Z.bits_inj'. intros i Hi. rewrite Z.land_spec, !testbit_cons by (done || by apply is_byte_land).
  destruct (i <? 8); by rewrite Z.land_spec.
Qed.

(** Comparing masked words compares network prefixes. *)
Lemma masked_eq n p a b : is_bytes a -> is_bytes b -> length a = n -> length b = n ->
  (Z.land (le_combine a) (le_combine (mask_bytes n p)) =?
   Z.land (le_combine b) (le_combine (mask_bytes n p))) = same_prefix p a b.
Proof.
  intros Ha Hb Hla Hlb. pose proof (mask_bytes_bytes n p) as Hm.
  rewrite !le_combine_land by (rewrite ?length_mask_bytes; done).
  rewrite sub_bytes_eqb_combine by
    (rewrite ?length_zip_with, ?length_mask_bytes, ?Hla, ?Hlb; auto using zip_land_bytes).
  unfold same_prefix. apply bool_decide_ext. by apply mask_bytes_eq.
Qed.

(** Two halves of a 16-byte string. *)
Lemma le_combine_split_at k bs : (k <= length bs)%nat ->
  le_combine bs = le_combine (take k bs) + 256 ^ Z.of_nat k * le_combine (drop k bs).
Proof.
  intros Hk. rewrite <- (take_drop k bs) at 1. rewrite le_combine_app, length_take_le by done. done.
Qed.

Lemma sub_bytes_sub o n o' n' bs : (o' + n' <= n)%nat ->
  sub_bytes o' n' (sub_bytes o n bs) = sub_bytes (o + o') n' bs.
Proof.
  intros H. unfold sub_bytes. rewrite skipn_firstn_comm, drop_drop, take_take.
  f_equal. lia.
Qed.

Lemma le_combine_u32 bs : is_bytes bs -> (length bs <= 4)%nat -> 0 <= le_combine bs < 2 ^ 32.
Proof.
  intros Hb Hl. pose proof (le_combine_bound bs Hb).
  assert (256 ^ Z.of_nat (length bs) <= 256 ^ 4) by (apply Z.pow_le_mono_r; lia). lia.
Qed.

Lemma le_combine_u16 bs : is_bytes bs -> (length bs <= 2)%nat -> 0 <= le_combine bs < 2 ^ 16.
Proof.
  intros Hb Hl. pose proof (le_combine_bound bs Hb).
  assert (256 ^ Z.of_nat (length bs) <= 256 ^ 2) by (apply Z.pow_le_mono_r; lia). lia.
Qed.

Lemma le_combine_u8 bs : is_bytes bs -> (length bs <= 1)%nat -> 0 <= le_combine bs < 2 ^ 8.
Proof.
  intros Hb Hl. pose proof (le_combine_bound bs Hb).
  assert (256 ^ Z.of_nat (length bs) <= 256 ^ 1) by (apply Z.pow_le_mono_r; lia). lia.
Qed.

(** A port in a header, in network order, as a number. *)
Definition be16 (bs : list Z) : Z :=
  match bs with [hi; lo] => 256 * hi + lo | _ => 0 end.

Lemma bswap16_le bs : is_bytes bs -> length bs = 2%nat -> bswap16 (le_combine bs) = be16 bs.
Proof.
  intros Hb Hl. destruct bs as [|h [|l []]]; try done.
  apply Forall_cons in Hb as [Hh Hb]. apply Forall_cons in Hb as [Hlo _].
  unfold is_byte in *. cbn [le_combine be16]. unfold bswap16.
  replace (h + 256 * (l + 256 * 0)) with (h + l * 256) by lia.
  rewrite Z_mod_plus_full, (Z.mod_small h) by lia.
  rewrite Z.div_add, (Z.div_small h) by lia. rewrite Z.add_0_l, (Z.mod_small l) by lia. lia.
Qed.
