(* ===== verification/Bpf.v ===== *)
(** The BPF instruction set the code generator targets: the instruction record
    and the [BPF_*] macros of [src/external/include/filter.h], a decoder of the
    opcodes, and an executable interpreter.

    Registers and memory are partial maps: reading a register no instruction
    has written (a call leaves R1-R5 undefined), or a byte no region maps,
    faults.  What runs outside the program (helpers, kfuncs, the compiled ELF
    stubs) is a parameter of the interpreter, over an abstract kernel state
    [W]. *)

From S2P Require Import Prelude.

(** * Instructions *)

(** [struct bpf_insn]; [off] is the signed 16-bit and [imm] the signed 32-bit
    field. *)
Record bpf_insn : Type := mk_insn {
  insn_code : Z;
  insn_dst : Z;
  insn_src : Z;
  insn_off : Z;
  insn_imm : Z
}.

#[global] Instance bpf_insn_eq_dec : EqDecision bpf_insn.
Proof. solve_decision. Defined.

(** Opcode parts (linux/bpf_common.h, linux/bpf.h). *)
Definition BPF_LD := 0x00.
Definition BPF_LDX := 0x01.
Definition BPF_ST := 0x02.
Definition BPF_STX := 0x03.
Definition BPF_ALU := 0x04.
Definition BPF_JMP := 0x05.
Definition BPF_ALU64 := 0x07.
Definition BPF_W := 0x00.
Definition BPF_H := 0x08.
Definition BPF_B := 0x10.
Definition BPF_DW := 0x18.
Definition BPF_IMM := 0x00.
Definition BPF_MEM := 0x60.
Definition BPF_K := 0x00.
Definition BPF_X := 0x08.
Definition BPF_ADD := 0x00.
Definition BPF_SUB := 0x10.
Definition BPF_OR := 0x40.
Definition BPF_AND := 0x50.
Definition BPF_LSH := 0x60.
Definition BPF_RSH := 0x70.
Definition BPF_MOV := 0xb0.
Definition BPF_END := 0xd0.
Definition BPF_JA := 0x00.
Definition BPF_JEQ := 0x10.
Definition BPF_JGT := 0x20.
Definition BPF_JGE := 0x30.
Definition BPF_JNE := 0x50.
Definition BPF_CALL := 0x80.
Definition BPF_EXIT := 0x90.
Definition BPF_JLT := 0xa0.
Definition BPF_PSEUDO_MAP_FD := 1.
Definition BPF_PSEUDO_MAP_VALUE := 2.
Definition BPF_PSEUDO_CALL := 1.
Definition BPF_PSEUDO_KFUNC_CALL := 2.
Definition BPF_FUNC_map_lookup_elem := 1.
Definition BPF_FUNC_trace_printk := 6.
Definition BPF_FUNC_get_prandom_u32 := 7.
Definition BPF_REG_0 := 0.
Definition BPF_REG_1 := 1.
Definition BPF_REG_2 := 2.
Definition BPF_REG_3 := 3.
Definition BPF_REG_4 := 4.
Definition BPF_REG_5 := 5.
Definition BPF_REG_6 := 6.
Definition BPF_REG_7 := 7.
Definition BPF_REG_8 := 8.
Definition BPF_REG_10 := 10.

Definition or3 (a b c : Z) : Z := Z.lor (Z.lor a b) c.

(** The macros convert their operands to the fields' C types. *)
Definition BPF_ALU64_REG (op dst src : Z) : bpf_insn :=
  mk_insn (or3 BPF_ALU64 op BPF_X) dst src 0 0.
Definition BPF_ALU32_REG (op dst src : Z) : bpf_insn :=
  mk_insn (or3 BPF_ALU op BPF_X) dst src 0 0.
Definition BPF_ALU64_IMM (op dst imm : Z) : bpf_insn :=
  mk_insn (or3 BPF_ALU64 op BPF_K) dst 0 0 (s32 imm).
Definition BPF_ALU32_IMM (op dst imm : Z) : bpf_insn :=
  mk_insn (or3 BPF_ALU op BPF_K) dst 0 0 (s32 imm).
Definition BPF_BSWAP (dst len : Z) : bpf_insn :=
  mk_insn (or3 BPF_ALU64 BPF_END BPF_K) dst 0 0 (s32 len).
Definition BPF_MOV64_REG (dst src : Z) : bpf_insn :=
  mk_insn (or3 BPF_ALU64 BPF_MOV BPF_X) dst src 0 0.
Definition BPF_MOV64_IMM (dst imm : Z) : bpf_insn :=
  mk_insn (or3 BPF_ALU64 BPF_MOV BPF_K) dst 0 0 (s32 imm).
Definition BPF_MOV32_IMM (dst imm : Z) : bpf_insn :=
  mk_insn (or3 BPF_ALU BPF_MOV BPF_K) dst 0 0 (s32 imm).
(** Two slots: the second carries the high half and a reserved opcode. *)
Definition BPF_LD_IMM64_RAW (dst src imm : Z) : list bpf_insn :=
  [mk_insn (or3 BPF_LD BPF_DW BPF_IMM) dst src 0 (s32 imm);
   mk_insn 0 0 0 0 (s32 (u64 imm / 2 ^ 32))].
Definition BPF_LD_IMM64 (dst imm : Z) : list bpf_insn := BPF_LD_IMM64_RAW dst 0 imm.
Definition BPF_LD_MAP_FD (dst fd : Z) : list bpf_insn :=
  BPF_LD_IMM64_RAW dst BPF_PSEUDO_MAP_FD fd.
Definition BPF_LDX_MEM (size dst src off : Z) : bpf_insn :=
  mk_insn (or3 BPF_LDX size BPF_MEM) dst src (s16 off) 0.
Definition BPF_STX_MEM (size dst src off : Z) : bpf_insn :=
  mk_insn (or3 BPF_STX size BPF_MEM) dst src (s16 off) 0.
Definition BPF_ST_MEM (size dst off imm : Z) : bpf_insn :=
  mk_insn (or3 BPF_ST size BPF_MEM) dst 0 (s16 off) (s32 imm).
Definition BPF_JMP_REG (op dst src off : Z) : bpf_insn :=
  mk_insn (or3 BPF_JMP op BPF_X) dst src (s16 off) 0.
Definition BPF_JMP_IMM (op dst imm off : Z) : bpf_insn :=
  mk_insn (or3 BPF_JMP op BPF_K) dst 0 (s16 off) (s32 imm).
Definition BPF_JMP_A (off : Z) : bpf_insn :=
  mk_insn (Z.lor BPF_JMP BPF_JA) 0 0 (s16 off) 0.
Definition BPF_CALL_REL (tgt : Z) : bpf_insn :=
  mk_insn (Z.lor BPF_JMP BPF_CALL) 0 BPF_PSEUDO_CALL 0 (s32 tgt).
Definition BPF_EMIT_CALL (func : Z) : bpf_insn :=
  mk_insn (Z.lor BPF_JMP BPF_CALL) 0 0 0 (s32 func).
Definition BPF_EXIT_INSN : bpf_insn :=
  mk_insn (Z.lor BPF_JMP BPF_EXIT) 0 0 0 0.

Definition set_insn_off (o : Z) (i : bpf_insn) : bpf_insn :=
  mk_insn (insn_code i) (insn_dst i) (insn_src i) o (insn_imm i).
Definition set_insn_imm (m : Z) (i : bpf_insn) : bpf_insn :=
  mk_insn (insn_code i) (insn_dst i) (insn_src i) (insn_off i) m.

(** * Decoding *)

Inductive operand : Type := OReg (r : Z) | OImm (i : Z).

Inductive insn_kind : Type :=
| KAlu (w64 : bool) (op dst : Z) (src : operand)
| KBswap (dst len : Z)
| KLdx (size : Z) (dst src off : Z)
| KStx (size : Z) (dst src off : Z)
| KSt (size : Z) (dst off imm : Z)
| KJcc (op dst : Z) (src : operand) (off : Z)
| KJa (off : Z)
| KCall (src imm : Z)
| KExit
| KLd64 (dst src imm : Z).

Definition insn_operand (i : bpf_insn) : operand :=
  if Z.land (insn_code i) 8 =? 0 then OImm (insn_imm i) else OReg (insn_src i).

Definition decode (i : bpf_insn) : option insn_kind :=
  let c := insn_code i in
  let op := Z.land c 0xf0 in
  let size := Z.land c 0x18 in
  match Z.land c 7 with
  | 0 => if c =? 0x18 then Some (KLd64 (insn_dst i) (insn_src i) (insn_imm i)) else None
  | 1 => if Z.land c 0xe0 =? BPF_MEM
         then Some (KLdx size (insn_dst i) (insn_src i) (insn_off i)) else None
  | 2 => if Z.land c 0xe0 =? BPF_MEM
         then Some (KSt size (insn_dst i) (insn_off i) (insn_imm i)) else None
  | 3 => if Z.land c 0xe0 =? BPF_MEM
         then Some (KStx size (insn_dst i) (insn_src i) (insn_off i)) else None
  | 4 => if op =? BPF_END then None
         else Some (KAlu false op (insn_dst i) (insn_operand i))
  | 5 => if op =? BPF_JA then Some (KJa (insn_off i))
         else if op =? BPF_CALL then Some (KCall (insn_src i) (insn_imm i))
         else if op =? BPF_EXIT then Some KExit
         else Some (KJcc op (insn_dst i) (insn_operand i) (insn_off i))
  | 7 => if op =? BPF_END then Some (KBswap (insn_dst i) (insn_imm i))
         else Some (KAlu true op (insn_dst i) (insn_operand i))
  | _ => None
  end.

Definition size_bytes (size : Z) : nat :=
  if size =? BPF_B then 1%nat else if size =? BPF_H then 2%nat
  else if size =? BPF_W then 4%nat else 8%nat.

(** * Memory *)

Abbreviation memory := (gmap Z Z).

Fixpoint load_bytes (m : memory) (a : Z) (n : nat) : option (list Z) :=
  match n with
  | O => Some []
  | S n => match m !! u64 a, load_bytes m (a + 1) n with
           | Some b, Some bs => Some (b :: bs)
           | _, _ => None
           end
  end.

Definition load (m : memory) (n : nat) (a : Z) : option Z :=
  le_combine <$> load_bytes m a n.

(** Only mapped bytes can be written. *)
Fixpoint store_bytes (m : memory) (a : Z) (bs : list Z) : option memory :=
  match bs with
  | [] => Some m
  | b :: bs => match m !! u64 a with
               | Some _ => store_bytes (<[u64 a := b]> m) (a + 1) bs
               | None => None
               end
  end.

Definition store (m : memory) (n : nat) (a v : Z) : option memory :=
  store_bytes m a (le_split n v).

(** * Machine states *)

Record vm (W : Type) : Type := mk_vm { regs : gmap Z Z; mem : memory; world : W }.
Arguments mk_vm {W} regs mem world.
Arguments regs {W} v.
Arguments mem {W} v.
Arguments world {W} v.

Definition set_reg {W} (r v : Z) (s : vm W) : vm W := mk_vm (<[r := v]> (regs s)) (mem s) (world s).
Definition set_mem {W} (m : memory) (s : vm W) : vm W := mk_vm (regs s) m (world s).

Definition operand_val {W} (s : vm W) (o : operand) : option Z :=
  match o with OReg r => regs s !! r | OImm i => Some (u64 i) end.

Definition alu_op (op a b width : Z) : option Z :=
  if op =? BPF_ADD then Some (uw width (a + b))
  else if op =? BPF_SUB then Some (uw width (a - b))
  else if op =? BPF_OR then Some (Z.lor a b)
  else if op =? BPF_AND then Some (Z.land a b)
  else if op =? BPF_LSH then Some (uw width (Z.shiftl a (b mod width)))
  else if op =? BPF_RSH then Some (Z.shiftr a (b mod width))
  else if op =? BPF_MOV then Some b
  else None.

Definition bswap (len v : Z) : option Z :=
  if len =? 16 then Some (bswap16 v)
  else None.

(** Instructions that fall through. *)
Definition exec_plain {W} (k : insn_kind) (s : vm W) : option (vm W) :=
  match k with
  | KAlu w64 op d src =>
      match (if op =? BPF_MOV then Some 0 else regs s !! d), operand_val s src with
      | Some a, Some b =>
          (fun v => set_reg d v s) <$>
            (if w64 then alu_op op a b 64 else alu_op op (u32 a) (u32 b) 32)
      | _, _ => None
      end
  | KBswap d len =>
      match regs s !! d with
      | Some a => (fun v => set_reg d v s) <$> bswap len a
      | None => None
      end
  | KLdx size d src o =>
      match regs s !! src with
      | Some a => (fun v => set_reg d v s) <$> load (mem s) (size_bytes size) (a + o)
      | None => None
      end
  | KStx size d src o =>
      match regs s !! d, regs s !! src with
      | Some a, Some v => (fun m => set_mem m s) <$> store (mem s) (size_bytes size) (a + o) v
      | _, _ => None
      end
  | KSt size d o imm =>
      match regs s !! d with
      | Some a => (fun m => set_mem m s) <$> store (mem s) (size_bytes size) (a + o) (u64 imm)
      | None => None
      end
  | _ => None
  end.

(** Conditions are 64-bit unsigned comparisons. *)
Definition jcc (op a b : Z) : option bool :=
  if op =? BPF_JEQ then Some (a =? b)
  else if op =? BPF_JNE then Some (negb (a =? b))
  else if op =? BPF_JGT then Some (b <? a)
  else if op =? BPF_JGE then Some (b <=? a)
  else if op =? BPF_JLT then Some (a <? b)
  else None.

Definition exec_jcc {W} (op d : Z) (src : operand) (s : vm W) : option bool :=
  match regs s !! d, operand_val s src with
  | Some a, Some b => jcc op a b
  | _, _ => None
  end.

(** * Calls *)

Inductive callee : Type :=
| Helper (id : Z)
| Kfunc (btf_id : Z)
| Subprog (pc : nat).

(** What a call does: the value of R0, the new memory and kernel state. *)
Abbreviation call_sem W := (gmap Z Z -> memory -> W -> option (Z * memory * W)).

(** R1-R5 are unreadable after a call; R6-R10 are preserved. *)
Definition clobber (rs : gmap Z Z) (r0 : Z) : gmap Z Z :=
  <[0 := r0]> (delete 1 (delete 2 (delete 3 (delete 4 (delete 5 rs))))).

Definition do_call {W} (sem : call_sem W) (s : vm W) : option (vm W) :=
  match sem (regs s) (mem s) (world s) with
  | Some (r0, m, w) => Some (mk_vm (clobber (regs s) r0) m w)
  | None => None
  end.

(** * The interpreter *)

Inductive outcome (W : Type) : Type :=
| Next (pc : nat) (s : vm W)
| Exited (r0 : Z) (s : vm W)
| Fault.
Arguments Next {W} pc s.
Arguments Exited {W} r0 s.
Arguments Fault {W}.

Section Interpreter.
Context {W : Type} (ext : callee -> call_sem W) (map_ptr map_value_ptr : Z -> Z).

Definition jump_target (pc : nat) (o : Z) : nat := Z.to_nat (Z.of_nat pc + 1 + o).

(** The callee a call instruction at [pc] names. *)
Definition insn_callee (pc : nat) (src imm : Z) : option callee :=
  if src =? 0 then Some (Helper imm)
  else if src =? BPF_PSEUDO_CALL then Some (Subprog (jump_target pc imm))
  else if src =? BPF_PSEUDO_KFUNC_CALL then Some (Kfunc imm)
  else None.

Definition ld64_val (src imm0 imm1 : Z) : option Z :=
  if src =? 0 then Some (u32 imm0 + 2 ^ 32 * u32 imm1)
  else if src =? BPF_PSEUDO_MAP_FD then Some (map_ptr imm0)
  else if src =? BPF_PSEUDO_MAP_VALUE then Some (map_value_ptr imm0 + u32 imm1)
  else None.

Definition step (code : list bpf_insn) (pc : nat) (s : vm W) : outcome W :=
  match code !! pc with
  | None => Fault
  | Some i =>
      match decode i with
      | None => Fault
      | Some (KJcc op d src o) =>
          match exec_jcc op d src s with
          | Some true => Next (jump_target pc o) s
          | Some false => Next (S pc) s
          | None => Fault
          end
      | Some (KJa o) => Next (jump_target pc o) s
      | Some (KCall src imm) =>
          match insn_callee pc src imm with
          | Some c => match do_call (ext c) s with
                      | Some s' => Next (S pc) s'
                      | None => Fault
                      end
          | None => Fault
          end
      | Some KExit =>
          match regs s !! 0 with Some r0 => Exited r0 s | None => Fault end
      | Some (KLd64 d src imm) =>
          match code !! S pc with
          | Some j => match ld64_val src imm (insn_imm j) with
                      | Some v => Next (S (S pc)) (set_reg d v s)
                      | None => Fault
                      end
          | None => Fault
          end
      | Some k => match exec_plain k s with Some s' => Next (S pc) s' | None => Fault end
      end
  end.

Fixpoint run (fuel : nat) (code : list bpf_insn) (pc : nat) (s : vm W) : outcome W :=
  match fuel with
  | O => Next pc s
  | S fuel => match step code pc s with
              | Next pc' s' => run fuel code pc' s'
              | o => o
              end
  end.

Lemma run_add n n' code pc s :
  run (n + n') code pc s =
    match run n code pc s with Next pc' s' => run n' code pc' s' | o => o end.
Proof.
  revert pc s. induction n as [|n IH]; intros pc s; [done|].
  cbn [Nat.add run]. destruct (step code pc s); done.
Qed.

(** More fuel does not change a finished run. *)
Lemma run_exited_mono n n' code pc s r0 s' : (n <= n')%nat ->
  run n code pc s = Exited r0 s' -> run n' code pc s = Exited r0 s'.
Proof.
  intros Hle H. replace n' with (n + (n' - n))%nat by lia. by rewrite run_add, H.
Qed.
End Interpreter.
