(* ===== verification/Helper.v ===== *)
(** String and buffer helpers: [src/libbpfilter/helper.c], the inline functions
    of [helper.h] and the growable byte buffer of [dynbuf.c].

    A C string is a [string] without a NUL character; a [char *] that may be
    NULL is an [option string].  Allocation is assumed to succeed. *)

From S2P Require Import Prelude.
From Stdlib Require Import Ascii.

#[global] Open Scope Z_scope.

(** * Characters (C locale) *)

Definition isspace (c : ascii) : bool :=
  let n := nat_of_ascii c in ((9 <=? n)%nat && (n <=? 13)%nat) || (n =? 32)%nat.
Definition isdigit (c : ascii) : bool :=
  let n := nat_of_ascii c in (48 <=? n)%nat && (n <=? 57)%nat.
Definition isupper (c : ascii) : bool :=
  let n := nat_of_ascii c in (65 <=? n)%nat && (n <=? 90)%nat.
Definition islower (c : ascii) : bool :=
  let n := nat_of_ascii c in (97 <=? n)%nat && (n <=? 122)%nat.
Definition isalpha (c : ascii) : bool := isupper c || islower c.
Definition tolower (c : ascii) : ascii :=
  if isupper c then ascii_of_nat (nat_of_ascii c + 32) else c.

Fixpoint str_lower (s : string) : string :=
  match s with
  | EmptyString => EmptyString
  | String c s => String (tolower c) (str_lower s)
  end.

(** * Comparison *)

Definition bf_streq (lhs rhs : option string) : bool :=
  match lhs, rhs with
  | Some l, Some r => String.eqb l r
  | _, _ => false
  end.

(** [strncmp(lhs, rhs, n) == 0]: equal up to [n] characters or a common end. *)
Fixpoint strncmp_eq (n : nat) (l r : string) : bool :=
  match n, l, r with
  | O, _, _ => true
  | S _, EmptyString, EmptyString => true
  | S n, String a l, String b r => Ascii.eqb a b && strncmp_eq n l r
  | S _, _, _ => false
  end.

(** Returns [strncmp()] itself, so true when the prefixes differ. *)
Definition bf_strneq (lhs rhs : option string) (n : nat) : bool :=
  match lhs, rhs with
  | Some l, Some r => negb (strncmp_eq n l r)
  | _, _ => false
  end.

Definition bf_streq_i (lhs rhs : option string) : bool :=
  match lhs, rhs with
  | Some l, Some r => String.eqb (str_lower l) (str_lower r)
  | _, _ => false
  end.

(** * Copy *)

(** Copy into a buffer of [len] bytes: the string the buffer holds, and the
    value returned. *)
Definition bf_strncpy (len : nat) (src : string) : string * Z :=
  let src_len := String.length src in
  let copy_len := Nat.min src_len (len - 1) in
  (String.substring 0 copy_len src, if (copy_len =? src_len)%nat then 0 else - E2BIG).

(** * Trimming *)

Fixpoint bf_ltrim (str : string) : string :=
  match str with
  | String c s => if isspace c then bf_ltrim s else str
  | EmptyString => EmptyString
  end.

(** [end_] is [back + 1] before the decrement of the [do] loop; the result is
    the index the NUL is written at. *)
Fixpoint rtrim_end (str : string) (end_ : nat) : nat :=
  match end_ with
  | O => O
  | S back =>
      if (0 <? back)%nat &&
         match String.get back str with Some c => isspace c | None => false end
      then rtrim_end str back
      else S back
  end.

Definition bf_rtrim (str : string) : string :=
  String.substring 0 (rtrim_end str (String.length str)) str.

Definition bf_trim (str : string) : string := bf_rtrim (bf_ltrim str).

(** * Flags *)

Definition BF_FLAG (n : Z) : Z := Z.shiftl 1 n.
Definition BF_FLAGS (ns : list Z) : Z := foldr (fun n f => Z.lor (BF_FLAG n) f) 0 ns.

(** * Memory *)

Definition bf_memdup (src : option (list Z)) : option (list Z) := src.

(** [dst] is overwritten by [src] from its start. *)
Definition bf_memcpy (dst : list Z) (src : option (list Z)) (len : nat) : list Z :=
  match src with
  | None => dst
  | Some s => if (len =? 0)%nat then dst else take len s ++ drop len dst
  end.

(** * Growable buffer *)

(** 64-bit [size_t]; the shifts stop at 16. *)
Definition _bf_round_next_power_of_2 (value : Z) : Z :=
  let v := u64 (value - 1) in
  let v := Z.lor v (Z.shiftr v 1) in
  let v := Z.lor v (Z.shiftr v 2) in
  let v := Z.lor v (Z.shiftr v 4) in
  let v := Z.lor v (Z.shiftr v 8) in
  let v := Z.lor v (Z.shiftr v 16) in
  u64 (v + 1).

(** [buf_data] holds the [len] bytes written; [buf_cap] is the size of the
    allocation. *)
Record bf_dynbuf : Type := mk_dynbuf {
  buf_len : Z;
  buf_rem : Z;
  buf_data : list Z;
  buf_cap : Z
}.

Definition bf_dynbuf_default : bf_dynbuf := mk_dynbuf 0 0 [] 0.

Definition bf_dynbuf_clean (buf : bf_dynbuf) : bf_dynbuf := bf_dynbuf_default.

Definition _bf_dynbuf_grow (buf : bf_dynbuf) (req_cap : Z) : bf_dynbuf :=
  if req_cap =? 0 then buf
  else
    let new_cap := _bf_round_next_power_of_2 (buf_len buf + buf_rem buf + req_cap) in
    mk_dynbuf (buf_len buf) (new_cap - buf_len buf) (buf_data buf) new_cap.

Definition bf_dynbuf_write (buf : bf_dynbuf) (data : list Z) : bf_dynbuf :=
  let data_len := Z.of_nat (length data) in
  let buf := if buf_rem buf <? data_len then _bf_dynbuf_grow buf data_len else buf in
  mk_dynbuf (buf_len buf + data_len) (buf_rem buf - data_len)
            (buf_data buf ++ data) (buf_cap buf).

Definition bf_dynbuf_take (buf : bf_dynbuf) : list Z * bf_dynbuf :=
  (buf_data buf, mk_dynbuf 0 0 [] 0).

(** * Theorems *)

(** ** Powers of two *)

Section RoundPow2.
(** The bits of [v] are the bits of [m] spread [k] places down. *)
Definition smeared (k m v : Z) : Prop :=
  forall i, 0 <= i -> Z.testbit v i = true <-> exists j, 0 <= j < k /\ Z.testbit m (i + j) = true.

Lemma smeared_1 m : smeared 1 m m.
Proof.
  intros i Hi. split.
  - intros H. exists 0. rewrite Z.add_0_r. split; [lia|done].
  - intros (j & Hj & H). by replace (i + j) with i in H by lia.
Qed.

Lemma smeared_step k m v : 0 < k -> smeared k m v ->
  smeared (2 * k) m (Z.lor v (Z.shiftr v k)).
Proof.
  intros Hk Hv i Hi. rewrite Z.lor_spec, Z.shiftr_spec by done. rewrite orb_true_iff.
  rewrite (Hv i Hi), (Hv (i + k)) by lia. split.
  - intros [(j & Hj & H)|(j & Hj & H)]; [exists j|exists (k + j)].
    + split; [lia|done].
    + rewrite Z.add_assoc. split; [lia|done].
  - intros (j & Hj & H). destruct (Z.lt_ge_cases j k); [left; exists j|right; exists (j - k)].
    + split; [lia|done].
    + replace (i + k + (j - k)) with (i + j) by lia. split; [lia|done].
Qed.

Lemma smeared_ones k m v : 0 < m -> 0 <= v -> Z.log2 m < k -> smeared k m v ->
  v = Z.ones (Z.log2 m + 1).
Proof.
  intros Hm Hv Hk Hs. pose proof (Z.log2_nonneg m).
  apply Z.bits_inj'. intros i Hi.
  destruct (Z.le_gt_cases i (Z.log2 m)) as [Hle|Hgt].
  - rewrite Z.ones_spec_low by lia. apply Hs; [done|].
    exists (Z.log2 m - i). split; [lia|].
    replace (i + (Z.log2 m - i)) with (Z.log2 m) by lia. by apply Z.bit_log2.
  - rewrite Z.ones_spec_high by lia. apply not_true_iff_false. intros H'.
    apply Hs in H' as (j & Hj & H'); [|done].
    rewrite Z.bits_above_log2 in H'; [done|lia|lia].
Qed.
End RoundPow2.

(** The least power of two not below [value], for the sizes a buffer has. *)
Lemma round_next_power_of_2_spec value : 2 <= value <= 2 ^ 32 ->
  _bf_round_next_power_of_2 value = 2 ^ (Z.log2_up value).
Proof.
  intros Hv. unfold _bf_round_next_power_of_2. rewrite (u64_small (value - 1)) by lia.
  pose (m := value - 1). fold m.
  assert (Z.log2 m < 32) as Hl by (apply Z.log2_lt_pow2; unfold m; lia).
  pose proof (smeared_1 m) as S.
  apply (smeared_step 1) in S; [change (2 * 1) with 2 in S|lia].
  apply (smeared_step 2) in S; [change (2 * 2) with 4 in S|lia].
  apply (smeared_step 4) in S; [change (2 * 4) with 8 in S|lia].
  apply (smeared_step 8) in S; [change (2 * 8) with 16 in S|lia].
  apply (smeared_step 16) in S; [change (2 * 16) with 32 in S|lia].
  apply smeared_ones in S; [|unfold m; lia| |lia].
  2: { assert (0 <= m) by (unfold m; lia). repeat first [apply Z.lor_nonneg; split | apply Z.shiftr_nonneg]; done. }
  rewrite S, Z.ones_equiv. unfold Z.log2_up.
  replace (1 ?= value) with Lt by (symmetry; apply Z.compare_lt_iff; lia).
  replace (Z.pred value) with m by (unfold m; lia).
  replace (Z.pred (2 ^ (Z.log2 m + 1)) + 1) with (2 ^ (Z.log2 m + 1)) by lia.
  apply u64_small. split; [apply Z.pow_nonneg; lia|].
  apply Z.pow_lt_mono_r; lia.
Qed.

Lemma round_next_power_of_2_ge value : 1 <= value <= 2 ^ 32 ->
  value <= _bf_round_next_power_of_2 value <= 2 ^ 32.
Proof.
  intros Hv. destruct (decide (value = 1)) as [->|]; [vm_compute; split; discriminate|].
  rewrite round_next_power_of_2_spec by lia. split.
  - apply Z.log2_up_spec. lia.
  - apply Z.pow_le_mono_r; [lia|]. apply Z.log2_up_le_pow2; lia.
Qed.

(** ** The growable buffer *)

(** The bytes held are the bytes written, and they fit the allocation. *)
Definition dynbuf_wf (buf : bf_dynbuf) : Prop :=
  buf_len buf = Z.of_nat (length (buf_data buf)) /\ 0 <= buf_rem buf /\
  buf_len buf + buf_rem buf = buf_cap buf.

Lemma dynbuf_default_wf : dynbuf_wf bf_dynbuf_default.
Proof. unfold dynbuf_wf. cbn. lia. Qed.

Lemma dynbuf_grow_wf buf req : dynbuf_wf buf -> 0 <= req -> buf_cap buf + req <= 2 ^ 32 ->
  dynbuf_wf (_bf_dynbuf_grow buf req) /\
  (buf_rem (_bf_dynbuf_grow buf req) >= req) /\
  buf_len (_bf_dynbuf_grow buf req) = buf_len buf /\
  buf_data (_bf_dynbuf_grow buf req) = buf_data buf.
Proof.
  intros (Hl & Hr & Hc) Hreq Hmax. unfold _bf_dynbuf_grow.
  destruct (Z.eqb_spec req 0); cbv match; [unfold dynbuf_wf; split_and!; done || lia|].
  pose proof (round_next_power_of_2_ge (buf_len buf + buf_rem buf + req) ltac:(lia)).
  unfold dynbuf_wf. cbn [buf_len buf_rem buf_data buf_cap]. split_and!; done || lia.
Qed.

(** A write appends its bytes and stays inside the allocation. *)
Lemma dynbuf_write_spec buf data : dynbuf_wf buf ->
  buf_cap buf + Z.of_nat (length data) <= 2 ^ 32 ->
  dynbuf_wf (bf_dynbuf_write buf data) /\
  buf_data (bf_dynbuf_write buf data) = buf_data buf ++ data.
Proof.
  intros Hwf Hmax. unfold bf_dynbuf_write.
  destruct (Z.ltb_spec (buf_rem buf) (Z.of_nat (length data))) as [Hlt|Hge].
  - pose proof (dynbuf_grow_wf buf (Z.of_nat (length data)) Hwf ltac:(lia) Hmax)
      as ((Hl & Hr & Hc) & Hrem & Hlen & Hdata).
    rewrite Hdata. split; [|done].
    unfold dynbuf_wf. cbn [buf_len buf_rem buf_data buf_cap].
    rewrite length_app. rewrite Hdata in Hl. lia.
  - destruct Hwf as (Hl & Hr & Hc). split; [|done].
    unfold dynbuf_wf. cbn [buf_len buf_rem buf_data buf_cap]. rewrite length_app. lia.
Qed.

(** The allocation never exceeds four times what was written. *)
Definition dynbuf_tight (buf : bf_dynbuf) : Prop := dynbuf_wf buf /\ buf_cap buf <= 4 * buf_len buf.

Lemma round_next_power_of_2_lt value : 2 <= value <= 2 ^ 32 -> _bf_round_next_power_of_2 value < 2 * value.
Proof.
  intros Hv. rewrite round_next_power_of_2_spec by done.
  pose proof (Z.log2_up_spec value ltac:(lia)). pose proof (Z.log2_up_pos value ltac:(lia)).
  replace (Z.log2_up value) with (Z.pred (Z.log2_up value) + 1) by lia.
  rewrite Z.pow_add_r by lia. lia.
Qed.

Lemma dynbuf_write_tight buf data : dynbuf_tight buf -> buf_len buf + Z.of_nat (length data) <= 2 ^ 29 ->
  dynbuf_tight (bf_dynbuf_write buf data) /\ buf_data (bf_dynbuf_write buf data) = buf_data buf ++ data /\
  buf_len (bf_dynbuf_write buf data) = buf_len buf + Z.of_nat (length data).
Proof.
  intros [Hwf Hc] Hl. pose proof Hwf as (H1 & H2 & H3).
  destruct (dynbuf_write_spec buf data Hwf ltac:(lia)) as [Hwf' Hd].
  assert (buf_len (bf_dynbuf_write buf data) = buf_len buf + Z.of_nat (length data)) as El.
  { destruct Hwf' as [E _]. rewrite E, Hd, length_app. lia. }
  split_and!; [|done|done]. split; [done|]. rewrite El. unfold bf_dynbuf_write.
  destruct (Z.ltb_spec (buf_rem buf) (Z.of_nat (length data))) as [Hlt|]; cbn [buf_cap]; [|lia].
  unfold _bf_dynbuf_grow. rewrite (proj2 (Z.eqb_neq _ 0)) by lia. cbn [buf_cap].
  set (v := buf_len buf + buf_rem buf + Z.of_nat (length data)).
  destruct (decide (v = 1)) as [->|]; [change (_bf_round_next_power_of_2 1) with 1; lia|].
  pose proof (round_next_power_of_2_lt v ltac:(lia)). lia.
Qed.

(** ** Strings *)

Lemma bf_streq_some l r : bf_streq (Some l) (Some r) = true <-> l = r.
Proof. apply String.eqb_eq. Qed.

Lemma bf_streq_i_refl s : bf_streq_i (Some s) (Some s) = true.
Proof. apply String.eqb_refl. Qed.
