(* ===== verification/CString.v ===== *)
(** The functions of the C library on strings that the parsers use: [strchr],
    [strtoul] and [strtok_r], in the C locale. *)

From S2P Require Import Prelude Helper.
From Stdlib Require Import Ascii.

(** * [strchr] *)

(** The string before the first [c], and the string after it. *)
Fixpoint strchr (s : string) (c : ascii) : option (string * string) :=
  match s with
  | EmptyString => None
  | String a s => if Ascii.eqb a c then Some (EmptyString, s)
                  else match strchr s c with
                       | Some (l, r) => Some (String a l, r)
                       | None => None
                       end
  end.

Lemma strchr_app s c l r : strchr s c = Some (l, r) -> s = String.append l (String c r).
Proof.
  revert l. induction s as [|a s IH]; intros l; cbn [strchr]; [done|].
  destruct (Ascii.eqb_spec a c) as [->|].
  - by intros [= <- <-].
  - destruct (strchr s c) as [[l' r']|]; [|done]. intros [= <- <-].
    cbn [String.append]. by rewrite (IH l').
Qed.

(** * [strtoul] *)

Definition digit_value (c : ascii) : option Z :=
  let n := Z.of_nat (nat_of_ascii c) in
  if isdigit c then Some (n - 48)
  else if islower c then Some (n - 87)
  else if isupper c then Some (n - 55)
  else None.

Definition is_digit_in (base : Z) (c : ascii) : option Z :=
  match digit_value c with Some d => if d <? base then Some d else None | None => None end.

(** The digits at the start: how many, their value, what follows. *)
Fixpoint digits (base : Z) (s : string) (n : nat) (acc : Z) : nat * Z * string :=
  match s with
  | String c s' =>
      match is_digit_in base c with
      | Some d => digits base s' (S n) (acc * base + d)
      | None => (n, acc, s)
      end
  | EmptyString => (n, acc, s)
  end.

Record strtoul_res : Type := mk_strtoul { su_value : Z; su_rest : string; su_erange : bool }.

Definition ULONG_MAX : Z := 2 ^ 64 - 1.

(** The sign, and what follows it. *)
Definition strtoul_sign (s : string) : bool * string :=
  match s with
  | String c s' => if Ascii.eqb c "-" then (true, s')
                   else if Ascii.eqb c "+" then (false, s') else (false, s)
  | EmptyString => (false, s)
  end.

(** A prefix [0x] counts when a hexadecimal digit follows it. *)
Definition strtoul_prefix (base : Z) (s : string) : Z * string :=
  match s with
  | String "0" (String x (String c s')) =>
      if ((base =? 0) || (base =? 16)) && (Ascii.eqb x "x" || Ascii.eqb x "X") &&
         match is_digit_in 16 c with Some _ => true | None => false end
      then (16, String c s')
      else (if base =? 0 then 8 else base, s)
  | String "0" _ => (if base =? 0 then 8 else base, s)
  | _ => (if base =? 0 then 10 else base, s)
  end.

(** [su_rest] is the string [endptr] points to. *)
Definition strtoul (s : string) (base : Z) : strtoul_res :=
  let '(neg, s1) := strtoul_sign (bf_ltrim s) in
  let '(b, s2) := strtoul_prefix base s1 in
  let '(n, v, rest) := digits b s2 O 0 in
  if (n =? 0)%nat then mk_strtoul 0 s false
  else if ULONG_MAX <? v then mk_strtoul ULONG_MAX rest true
  else mk_strtoul (if neg then u64 (- v) else v) rest false.

Lemma digits_nonneg base s n acc : 0 <= base -> 0 <= acc -> 0 <= snd (fst (digits base s n acc)).
Proof.
  intros Hb. revert n acc. induction s as [|c s IH]; intros n acc Ha; cbn [digits]; [done|].
  unfold is_digit_in. destruct (digit_value c) as [d|] eqn:E; [|done].
  destruct (d <? base); [|done]. apply IH.
  assert (0 <= d).
  { unfold digit_value, isdigit, islower, isupper in E.
    repeat case_match; simplify_eq;
      repeat match goal with H : _ && _ = true |- _ => apply andb_prop in H as [?%Nat.leb_le ?%Nat.leb_le] end; lia. }
  nia.
Qed.

Lemma strtoul_range s base : 0 <= base -> 0 <= su_value (strtoul s base) <= ULONG_MAX.
Proof.
  intros Hb. unfold strtoul. destruct (strtoul_sign _) as [neg s1].
  destruct (strtoul_prefix base s1) as [b s2] eqn:Ep.
  assert (0 <= b) as Hb'.
  { unfold strtoul_prefix in Ep. repeat case_match; simplify_eq; lia. }
  pose proof (digits_nonneg b s2 0 0 Hb' ltac:(lia)) as Hd.
  destruct (digits b s2 0 0) as [[n v] rest]. cbn [fst snd] in Hd.
  unfold ULONG_MAX in *. case_match; cbn [su_value]; [lia|].
  destruct (Z.ltb_spec (2 ^ 64 - 1) v); cbn [su_value]; [lia|].
  destruct neg; [|lia]. pose proof (u64_range (- v)). lia.
Qed.

(** * [strtok_r] *)

Fixpoint str_mem (c : ascii) (delim : string) : bool :=
  match delim with EmptyString => false | String d delim => Ascii.eqb c d || str_mem c delim end.

(** Skip the delimiters, then take the token; what follows the delimiter that
    ends it is saved for the next call. *)
Fixpoint tok_skip (delim s : string) : string :=
  match s with
  | String c s' => if str_mem c delim then tok_skip delim s' else s
  | EmptyString => s
  end.

Fixpoint tok_take (delim s : string) : string * string :=
  match s with
  | EmptyString => (EmptyString, EmptyString)
  | String c s => if str_mem c delim then (EmptyString, s)
                  else let '(t, rest) := tok_take delim s in (String c t, rest)
  end.

Definition strtok_r (s delim : string) : option (string * string) :=
  match tok_skip delim s with
  | EmptyString => None
  | s => Some (tok_take delim s)
  end.
