(* ===== verification/Printf.v ===== *)
(** More of the C library: numbers as [printf] writes them, [strtoll], and the
    loops over the tokens of a string. *)

From S2P Require Import Prelude Helper CString.
From Stdlib Require Import Ascii.

(** * Numbers as text *)

(** The digit of a value below 16, in lower case. *)
Definition digit_char (d : Z) : ascii :=
  ascii_of_nat (Z.to_nat (if d <? 10 then 48 + d else 87 + d)).

Fixpoint to_base (fuel : nat) (base z : Z) (acc : string) : string :=
  match fuel with
  | O => acc
  | S fuel =>
      let acc := String (digit_char (z mod base)) acc in
      if z / base =? 0 then acc else to_base fuel base (z / base) acc
  end.

(** As many digits as there are bits is enough in any base. *)
Definition number (base z : Z) : string := to_base (S (Z.to_nat (Z.log2 z))) base z EmptyString.

(** ["%u"], ["%x"] and ["%04x"]. *)
Definition fmt_u (z : Z) : string := number 10 z.
Definition fmt_x (z : Z) : string := number 16 z.
Definition fmt_04x (z : Z) : string :=
  let s := fmt_x z in String.append (String.substring 0 (4 - String.length s) "0000") s.

(** * [strtoll] *)

Definition LLONG_MAX : Z := 2 ^ 63 - 1.

Definition clamp_ll (z : Z) : Z := Z.min LLONG_MAX (Z.max (- LLONG_MAX - 1) z).

(** The value, and the string [endptr] points to. *)
Definition strtoll (s : string) (base : Z) : Z * string :=
  let '(neg, s1) := strtoul_sign (bf_ltrim s) in
  let '(b, s2) := strtoul_prefix base s1 in
  let '(n, v, rest) := digits b s2 O 0 in
  if (n =? 0)%nat then (0, s) else (clamp_ll (if neg then - v else v), rest).

(** * Tokens *)

(** [while ((token = strtok_r(tmp, delim, &saveptr)))], with a body that may
    fail.  Each token shortens what is left. *)
Fixpoint strtok_loop {A} (fuel : nat) (delim : string) (body : A -> string -> res A) (s : string) (acc : A) : res A :=
  match strtok_r s delim with
  | None => Ok acc
  | Some (token, rest) =>
      match fuel with
      | O => Err (- BF_CRASH)
      | S fuel => let! acc := body acc token in strtok_loop fuel delim body rest acc
      end
  end.

Definition strtok_each {A} (delim : string) (body : A -> string -> res A) (s : string) (acc : A) : res A :=
  strtok_loop (String.length s) delim body s acc.

(** * Lemmas *)

Lemma digit_char_value d : 0 <= d < 16 -> digit_value (digit_char d) = Some d.
Proof.
  intros Hd. assert (In d (seqZ 0 16)) as Hin by (apply list_elem_of_In, elem_of_seqZ; lia).
  cbn in Hin. repeat (destruct Hin as [<-|Hin]; [reflexivity|]). destruct Hin.
Qed.

Lemma digit_char_in base d : base <= 16 -> 0 <= d < base -> is_digit_in base (digit_char d) = Some d.
Proof. intros Hb Hd. unfold is_digit_in. rewrite digit_char_value by lia. by rewrite (proj2 (Z.ltb_lt d base)) by lia. Qed.

(** What reads the digits of a number, whatever follows. *)
Lemma digits_to_base base fuel z rest n acc : 2 <= base <= 16 -> 0 <= z < base ^ Z.of_nat fuel -> (0 < fuel)%nat ->
  exists k, (1 <= k <= fuel)%nat /\
    digits base (to_base fuel base z rest) n acc = digits base rest (n + k) (acc * base ^ Z.of_nat k + z) /\ z < base ^ Z.of_nat k.
Proof.
  intros Hb. revert z rest. induction fuel as [|fuel IH]; intros z rest Hz Hf; [lia|]. cbn [to_base].
  assert (0 <= z mod base < base) as Hm by (apply Z.mod_pos_bound; lia).
  assert (z = base * (z / base) + z mod base) as Hdm by (apply Z_div_mod_eq_full).
  rewrite Nat2Z.inj_succ, Z.pow_succ_r in Hz by lia.
  destruct (Z.eqb_spec (z / base) 0) as [E|E].
  - exists 1%nat. split; [lia|]. cbn [digits]. rewrite digit_char_in by lia. change (Z.of_nat 1) with 1. rewrite Z.pow_1_r.
    split; [|nia]. f_equal; lia.
  - assert (0 <= z / base) by (apply Z.div_pos; lia).
    assert (z / base < base ^ Z.of_nat fuel) by (apply Z.div_lt_upper_bound; lia).
    destruct fuel as [|fuel']; [change (Z.of_nat 0) with 0 in *; rewrite Z.pow_0_r in *; lia|].
    destruct (IH (z / base) (String (digit_char (z mod base)) rest)) as (k & Hk & -> & Hlt); [lia..|].
    exists (S k). split; [lia|]. cbn [digits]. rewrite digit_char_in by lia.
    rewrite !Nat2Z.inj_succ, Z.pow_succ_r by lia. split; [|nia]. f_equal; [lia|]. nia.
Qed.

Lemma number_fuel base z : 2 <= base -> 0 <= z -> z < base ^ Z.of_nat (S (Z.to_nat (Z.log2 z))).
Proof.
  intros Hb Hz. rewrite Nat2Z.inj_succ, Z2Nat.id by apply Z.log2_nonneg.
  destruct (Z.eq_dec z 0) as [->|Hn]; [by apply Z.pow_pos_nonneg; [lia|]|].
  eapply Z.lt_le_trans; [apply Z.log2_spec; lia|]. apply Z.pow_le_mono_l. lia.
Qed.

Lemma to_base_app fuel base z acc : to_base fuel base z acc = String.append (to_base fuel base z EmptyString) acc.
Proof.
  revert z acc. induction fuel as [|fuel IH]; intros z acc; [done|]. cbn [to_base].
  destruct (z / base =? 0); [done|]. rewrite IH, (IH _ (String _ EmptyString)). clear IH.
  generalize (to_base fuel base (z / base) EmptyString) as s. induction s as [|c s IH]; [done|].
  exact (f_equal (String c) IH).
Qed.

(** A number, then what does not continue it, is read back. *)
Definition not_digit (base : Z) (s : string) : Prop :=
  match s with EmptyString => True | String c _ => is_digit_in base c = None end.

Lemma digits_number base z rest : 2 <= base <= 16 -> 0 <= z -> not_digit base rest ->
  exists k, (0 < k)%nat /\ digits base (String.append (number base z) rest) 0 0 = (k, z, rest) /\ z < base ^ Z.of_nat k.
Proof.
  intros Hb Hz Hr. unfold number. rewrite <- to_base_app.
  destruct (digits_to_base base (S (Z.to_nat (Z.log2 z))) z rest 0 0 Hb) as (k & Hk & -> & Hlt).
  - split; [done|]. apply number_fuel; lia.
  - lia.
  - exists k. split; [lia|]. split; [|done]. rewrite Nat.add_0_l, Z.mul_0_l, Z.add_0_l.
    destruct rest as [|c rest]; [done|]. cbn in Hr |- *. by rewrite Hr.
Qed.

(** A number starts with one of its digits: no space, no sign. *)
Lemma number_head base z : 2 <= base <= 16 -> 0 <= z -> exists d s, 0 <= d < base /\ number base z = String (digit_char d) s.
Proof.
  intros Hb Hz. unfold number. generalize EmptyString as acc.
  pose proof (number_fuel base z ltac:(lia) Hz) as Hlt. revert Hlt.
  generalize (Z.to_nat (Z.log2 z)) as f. intros f Hlt acc. revert z Hz Hlt acc. induction f as [|f IH]; intros z Hz Hlt acc; cbn [to_base].
  - rewrite Nat2Z.inj_succ, Z.pow_succ_r, Z.pow_0_r in Hlt by lia.
    rewrite (Z.div_small z base) by lia. exists (z mod base), acc. split; [apply Z.mod_pos_bound; lia|done].
  - destruct (z / base =? 0).
    + exists (z mod base), acc. split; [apply Z.mod_pos_bound; lia|done].
    + apply IH; [apply Z.div_pos; lia|]. rewrite Nat2Z.inj_succ, Z.pow_succ_r in Hlt by lia.
      apply Z.div_lt_upper_bound; lia.
Qed.

Lemma digit_char_plain d : 0 <= d < 16 ->
  isspace (digit_char d) = false /\ Ascii.eqb (digit_char d) "-" = false /\ Ascii.eqb (digit_char d) "+" = false.
Proof.
  intros Hd. assert (In d (seqZ 0 16)) as Hin by (apply list_elem_of_In, elem_of_seqZ; lia).
  cbn in Hin. repeat (destruct Hin as [<-|Hin]; [done|]). destruct Hin.
Qed.

Lemma ltrim_number base z rest : 2 <= base <= 16 -> 0 <= z ->
  bf_ltrim (String.append (number base z) rest) = String.append (number base z) rest /\
  strtoul_sign (String.append (number base z) rest) = (false, String.append (number base z) rest).
Proof.
  intros Hb Hz. destruct (number_head base z Hb Hz) as (d & s & Hd & ->).
  destruct (digit_char_plain d ltac:(lia)) as (Hs & Hm & Hp). change (String.append (String (digit_char d) s) rest) with (String (digit_char d) (String.append s rest)).
  split; cbn [bf_ltrim]; unfold strtoul_sign; by rewrite ?Hs, ?Hm, ?Hp.
Qed.

Lemma strtoul_prefix_10 s : strtoul_prefix 10 s = (10, s).
Proof. unfold strtoul_prefix. repeat case_match; subst; try done; by simplify_eq. Qed.

(** [strtoul] reads back what ["%u"] writes, up to what does not continue it. *)
Lemma strtoul_u z rest : 0 <= z <= ULONG_MAX -> not_digit 10 rest ->
  strtoul (String.append (fmt_u z) rest) 10 = mk_strtoul z rest false.
Proof.
  intros Hz Hr. unfold strtoul, fmt_u. destruct (ltrim_number 10 z rest) as [-> ->]; [lia..|].
  rewrite strtoul_prefix_10. destruct (digits_number 10 z rest) as (k & Hk & -> & _); [lia|lia|done|].
  rewrite (proj2 (Nat.eqb_neq k 0)) by lia. by rewrite (proj2 (Z.ltb_ge ULONG_MAX z)) by lia.
Qed.

(** The digits of a string of hexadecimal digits, after ["0x"]. *)
Lemma strtoul_prefix_0x base c s : base = 0 \/ base = 16 -> is_digit_in 16 c <> None ->
  strtoul_prefix base (String "0" (String "x" (String c s))) = (16, String c s).
Proof. intros Hb Hc. unfold strtoul_prefix. destruct (is_digit_in 16 c); [|done]. by destruct Hb as [-> | ->]. Qed.

Lemma strtoul_0x s base k z rest : base = 0 \/ base = 16 -> (0 < k)%nat -> digits 16 s 0 0 = (k, z, rest) -> 0 <= z <= ULONG_MAX ->
  strtoul (String "0" (String "x" s)) base = mk_strtoul z rest false.
Proof.
  intros Hb Hk Hd Hz. unfold strtoul. change (bf_ltrim (String "0" (String "x" s))) with (String "0" (String "x" s)).
  change (strtoul_sign (String "0" (String "x" s))) with (false, String "0" (String "x" s)).
  destruct s as [|c s]; [cbn in Hd; simplify_eq; lia|]. cbv iota beta. rewrite strtoul_prefix_0x; [|done|].
  - rewrite Hd. rewrite (proj2 (Nat.eqb_neq k 0)) by lia. by rewrite (proj2 (Z.ltb_ge ULONG_MAX z)) by lia.
  - cbn in Hd. destruct (is_digit_in 16 c); [done|]. simplify_eq. lia.
Qed.

Lemma strtoll_0x s k z rest : (0 < k)%nat -> digits 16 s 0 0 = (k, z, rest) -> 0 <= z <= LLONG_MAX ->
  strtoll (String "0" (String "x" s)) 0 = (z, rest).
Proof.
  intros Hk Hd Hz. unfold strtoll. change (bf_ltrim (String "0" (String "x" s))) with (String "0" (String "x" s)).
  change (strtoul_sign (String "0" (String "x" s))) with (false, String "0" (String "x" s)).
  destruct s as [|c s]; [cbn in Hd; simplify_eq; lia|]. cbv iota beta. rewrite strtoul_prefix_0x; [|by left|].
  - rewrite Hd. rewrite (proj2 (Nat.eqb_neq k 0)) by lia. unfold clamp_ll. f_equal. unfold LLONG_MAX in *. lia.
  - cbn in Hd. destruct (is_digit_in 16 c); [done|]. simplify_eq. lia.
Qed.

Lemma append_nil s : String.append s EmptyString = s.
Proof. induction s as [|c s IH]; [done|]. exact (f_equal (String c) IH). Qed.

Lemma append_assoc a b c : String.append (String.append a b) c = String.append a (String.append b c).
Proof. induction a as [|x a IH]; [done|]. exact (f_equal (String x) IH). Qed.

Lemma fmt_x_digits z rest : 0 <= z -> not_digit 16 rest -> exists k, (0 < k)%nat /\ digits 16 (String.append (fmt_x z) rest) 0 0 = (k, z, rest).
Proof. intros Hz Hr. destruct (digits_number 16 z rest) as (k & Hk & E & _); [lia|lia|done|]. by exists k. Qed.

(** ** Characters of a string *)

Fixpoint str_all (P : ascii -> bool) (s : string) : bool :=
  match s with EmptyString => true | String c s => P c && str_all P s end.

Lemma str_all_app P a b : str_all P (String.append a b) = str_all P a && str_all P b.
Proof. induction a as [|c a IH]; [done|]. change (String.append (String c a) b) with (String c (String.append a b)). cbn [str_all]. by rewrite IH, andb_assoc. Qed.

Lemma str_all_impl (P Q : ascii -> bool) s : (forall c, P c = true -> Q c = true) -> str_all P s = true -> str_all Q s = true.
Proof.
  intros HPQ. induction s as [|c s IH]; [done|]. cbn [str_all]. intros [Hc Hs]%andb_true_iff. by rewrite (HPQ c Hc), (IH Hs).
Qed.

Lemma length_append a b : String.length (String.append a b) = (String.length a + String.length b)%nat.
Proof. induction a as [|c a IH]; [done|]. exact (f_equal S IH). Qed.

(** The digits of a number. *)
Definition is_digit_of (base : Z) (c : ascii) : bool := match is_digit_in base c with Some _ => true | None => false end.

Lemma to_base_chars f base z acc : 2 <= base <= 16 -> 0 <= z -> str_all (is_digit_of base) acc = true ->
  str_all (is_digit_of base) (to_base f base z acc) = true.
Proof.
  intros Hb. revert z acc. induction f as [|f IH]; intros z acc Hz Ha; [done|]. cbn [to_base].
  assert (str_all (is_digit_of base) (String (digit_char (z mod base)) acc) = true) as Ha'.
  { cbn [str_all]. rewrite Ha, andb_true_r. unfold is_digit_of. rewrite digit_char_in; [done|lia|apply Z.mod_pos_bound; lia]. }
  destruct (z / base =? 0); [done|]. apply IH; [apply Z.div_pos; lia|done].
Qed.

Lemma number_chars base z : 2 <= base <= 16 -> 0 <= z -> str_all (is_digit_of base) (number base z) = true.
Proof. intros Hb Hz. by apply to_base_chars. Qed.

Lemma to_base_length f base z acc : (String.length (to_base f base z acc) <= f + String.length acc)%nat.
Proof.
  revert z acc. induction f as [|f IH]; intros z acc; [done|]. cbn [to_base]. destruct (z / base =? 0); [cbn; lia|].
  etransitivity; [apply IH|]. cbn. lia.
Qed.

(** ** A string that fits is copied *)

Lemma substring_all s : String.substring 0 (String.length s) s = s.
Proof. induction s as [|c s IH]; [done|]. cbn [String.length String.substring]. by rewrite IH. Qed.

Lemma strncpy_fits len s : (String.length s < len)%nat -> bf_strncpy len s = (s, 0).
Proof.
  intros Hl. unfold bf_strncpy. rewrite Nat.min_l by lia. by rewrite substring_all, Nat.eqb_refl.
Qed.

(** ** A token without delimiters *)

Lemma tok_take_app delim t d rest : str_all (fun c => negb (str_mem c delim)) t = true -> str_mem d delim = true ->
  tok_take delim (String.append t (String d rest)) = (t, rest).
Proof.
  intros Ht Hd. induction t as [|c t IH].
  - change (String.append EmptyString (String d rest)) with (String d rest). cbn [tok_take]. by rewrite Hd.
  - cbn [str_all] in Ht. apply andb_true_iff in Ht as [Hc%negb_true_iff Ht].
    change (String.append (String c t) (String d rest)) with (String c (String.append t (String d rest))).
    cbn [tok_take]. by rewrite Hc, IH.
Qed.

Lemma strtok_token delim t d rest : t <> EmptyString -> str_all (fun c => negb (str_mem c delim)) t = true -> str_mem d delim = true ->
  strtok_r (String.append t (String d rest)) delim = Some (t, rest).
Proof.
  intros Hn Ht Hd. destruct t as [|c t]; [done|]. pose proof Ht as Ht'. cbn [str_all] in Ht'. apply andb_true_iff in Ht' as [Hc%negb_true_iff _].
  unfold strtok_r. change (String.append (String c t) (String d rest)) with (String c (String.append t (String d rest))).
  cbn [tok_skip]. rewrite Hc.
  change (String c (String.append t (String d rest))) with (String.append (String c t) (String d rest)). by rewrite tok_take_app.
Qed.
