(* ===== verification/Inet.v ===== *)
(** [inet_pton] and [inet_ntop]: addresses as text, as the C library reads and
    writes them.

    An IPv4 address is four decimal numbers, without leading zeros; an IPv6
    address eight hexadecimal ones, of which the first longest run of two zeros
    or more is written as two colons, and whose last two are written as an IPv4
    address when it is embedded. *)

From S2P Require Import Prelude Helper CString Printf.
From Stdlib Require Import Ascii.

Infix "+s+" := String.append (at level 60, right associativity).

Definition str1 (c : ascii) : string := String c EmptyString.

(** * IPv4 *)

(** [tmp] has the bytes before the current one, which is [cur]. *)
Fixpoint pton4 (s : string) (tmp : list Z) (cur : Z) (saw_digit : bool) (octets : nat) : option (list Z) :=
  match s with
  | EmptyString => if (octets <? 4)%nat then None else Some (tmp ++ [cur])
  | String ch s =>
      match is_digit_in 10 ch with
      | Some d =>
          let new := cur * 10 + d in
          if saw_digit && (cur =? 0) then None
          else if 255 <? new then None
          else if saw_digit then pton4 s tmp new true octets
          else if (4 <? S octets)%nat then None else pton4 s tmp new true (S octets)
      | None =>
          if Ascii.eqb ch "." && saw_digit then
            if (octets =? 4)%nat then None else pton4 s (tmp ++ [cur]) 0 false octets
          else None
      end
  end.

Definition inet_pton4 (s : string) : option (list Z) := pton4 s [] 0 false 0.

Definition byte_at (addr : list Z) (i : nat) : Z := default 0 (addr !! i).

Definition inet_ntop4 (addr : list Z) : string :=
  fmt_u (byte_at addr 0) +s+ str1 "." +s+ fmt_u (byte_at addr 1) +s+ str1 "." +s+
  fmt_u (byte_at addr 2) +s+ str1 "." +s+ fmt_u (byte_at addr 3).

(** * IPv6 *)

Definition word_bytes (w : Z) : list Z := [Z.land (Z.shiftr w 8) 255; Z.land w 255].

(** [tp] has the bytes written, [colonp] is where the two colons were seen,
    [curtok] starts the current number, of which [xdigits_seen] digits have
    been read. *)
Fixpoint pton6_loop (s curtok : string) (tp : list Z) (colonp : option nat) (xdigits_seen : nat) (val : Z) :
    option (list Z * option nat * nat * Z) :=
  match s with
  | EmptyString => Some (tp, colonp, xdigits_seen, val)
  | String ch s =>
      match is_digit_in 16 ch with
      | Some d =>
          if (xdigits_seen =? 4)%nat then None
          else
            let val := Z.lor (Z.shiftl val 4) d in
            if 0xffff <? val then None else pton6_loop s curtok tp colonp (S xdigits_seen) val
      | None =>
          if Ascii.eqb ch ":" then
            if (xdigits_seen =? 0)%nat then
              match colonp with Some _ => None | None => pton6_loop s s tp (Some (length tp)) 0 val end
            else
              match s with
              | EmptyString => None
              | _ => if (16 <? length tp + 2)%nat then None else pton6_loop s s (tp ++ word_bytes val) colonp 0 0
              end
          else if Ascii.eqb ch "." && (length tp + 4 <=? 16)%nat then
            match inet_pton4 curtok with Some a => Some (tp ++ a, colonp, 0%nat, val) | None => None end
          else None
      end
  end.

(** The last number, then the zeros that the two colons stand for. *)
Definition pton6_end (x : list Z * option nat * nat * Z) : option (list Z) :=
  let '(tp, colonp, xdigits_seen, val) := x in
  if (0 <? xdigits_seen)%nat && (16 <? length tp + 2)%nat then None
  else
    let tp := if (0 <? xdigits_seen)%nat then tp ++ word_bytes val else tp in
    match colonp with
    | None => if (length tp =? 16)%nat then Some tp else None
    | Some n =>
        if (length tp =? 16)%nat then None else Some (take n tp ++ replicate (16 - length tp) 0 ++ drop n tp)
    end.

Definition inet_pton6 (s : string) : option (list Z) :=
  let start := match s with
               | EmptyString => None
               | String ":" s => match s with String ":" _ => Some s | _ => None end
               | _ => Some s
               end in
  match start with
  | None => None
  | Some s => match pton6_loop s s [] None 0 0 with None => None | Some x => pton6_end x end
  end.

Definition word_at (addr : list Z) (i : nat) : Z := Z.lor (Z.shiftl (byte_at addr (2 * i)) 8) (byte_at addr (2 * i + 1)).

(** The first longest run of zeros, as its start and its length: [cur] is the
    current run, [best] the longest of those that ended. *)
Definition longer (best cur : option (nat * nat)) : option (nat * nat) :=
  match cur, best with
  | None, _ => best
  | Some _, None => cur
  | Some (_, n), Some (_, m) => if (m <? n)%nat then cur else best
  end.

Fixpoint zero_run (i : nat) (zeros : list bool) (best cur : option (nat * nat)) : option (nat * nat) :=
  match zeros with
  | [] => longer best cur
  | true :: zeros => zero_run (S i) zeros best (match cur with None => Some (i, 1%nat) | Some (b, n) => Some (b, S n) end)
  | false :: zeros => zero_run (S i) zeros (longer best cur) None
  end.

Definition best_run (zeros : list bool) : option (nat * nat) :=
  match zero_run 0 zeros None None with
  | Some (b, n) => if (n <? 2)%nat then None else Some (b, n)
  | None => None
  end.

Definition in_run (best : option (nat * nat)) (i : nat) : bool :=
  match best with Some (b, n) => (b <=? i)%nat && (i <? b + n)%nat | None => false end.

Definition starts_run (best : option (nat * nat)) (i : nat) : bool :=
  match best with Some (b, _) => (i =? b)%nat | None => false end.

Definition ends_run (best : option (nat * nat)) : bool := match best with Some (b, n) => (b + n =? 8)%nat | None => false end.

Definition embeds_ipv4 (best : option (nat * nat)) (word5 : Z) : bool :=
  match best with
  | Some (O, n) => (n =? 6)%nat || ((n =? 5)%nat && (word5 =? 0xffff))
  | _ => false
  end.

Fixpoint ntop6_loop (best : option (nat * nat)) (word5 : Z) (v4 : string) (i : nat) (words : list Z) : string :=
  match words with
  | [] => EmptyString
  | w :: words =>
      if in_run best i then
        (if starts_run best i then str1 ":" else EmptyString) +s+ ntop6_loop best word5 v4 (S i) words
      else
        (if (i =? 0)%nat then EmptyString else str1 ":") +s+
        (if (i =? 6)%nat && embeds_ipv4 best word5 then v4
         else fmt_x w +s+ ntop6_loop best word5 v4 (S i) words)
  end.

Definition inet_ntop6 (addr : list Z) : string :=
  let words := word_at addr <$> seq 0 8 in
  let best := best_run ((fun w => w =? 0) <$> words) in
  ntop6_loop best (word_at addr 5) (inet_ntop4 (drop 12 addr)) 0 words +s+
  (if ends_run best then str1 ":" else EmptyString).

(** * IPv4 addresses are read back *)

Lemma nil_app s : EmptyString +s+ s = s.
Proof. done. Qed.

Lemma str1_app c s : str1 c +s+ s = String c s.
Proof. done. Qed.

Lemma fmt_u_octet b rest tmp n : is_byte b -> (n < 4)%nat ->
  pton4 (fmt_u b +s+ rest) tmp 0 false n = pton4 rest tmp b true (S n).
Proof.
  intros Hb Hn. unfold is_byte in Hb. assert (In b (seqZ 0 256)) as Hin by (apply list_elem_of_In, elem_of_seqZ; lia).
  clear Hb. vm_compute in Hin.
  destruct n as [|[|[|[|n]]]]; [..|lia]; repeat (destruct Hin as [<-|Hin]; [reflexivity|]); destruct Hin.
Qed.

Lemma pton4_dot rest tmp b n : (n <> 4)%nat -> pton4 (String "." rest) tmp b true n = pton4 rest (tmp ++ [b]) 0 false n.
Proof. intros Hn. cbn. by rewrite (proj2 (Nat.eqb_neq n 4)). Qed.

(** What follows the address is read on. *)
Lemma pton4_addr a b c d rest : is_bytes [a; b; c; d] ->
  pton4 (inet_ntop4 [a; b; c; d] +s+ rest) [] 0 false 0 = pton4 rest [a; b; c] d true 4.
Proof.
  intros Hb. repeat (apply Forall_cons in Hb as [? Hb]). unfold inet_ntop4, byte_at. cbn [lookup list_lookup default from_option id].
  rewrite !append_assoc, !str1_app. rewrite fmt_u_octet by (done || lia). rewrite pton4_dot by lia.
  rewrite fmt_u_octet by (done || lia). rewrite pton4_dot by lia.
  rewrite fmt_u_octet by (done || lia). rewrite pton4_dot by lia.
  by rewrite fmt_u_octet by (done || lia).
Qed.

Lemma inet4_roundtrip addr : is_bytes addr -> length addr = 4%nat -> inet_pton4 (inet_ntop4 addr) = Some addr.
Proof.
  intros Hb Hl. destruct addr as [|a [|b [|c [|d []]]]]; try done.
  unfold inet_pton4. rewrite <- (append_nil (inet_ntop4 _)). by rewrite pton4_addr.
Qed.

(** * IPv6 addresses are read back *)

Definition is_word (w : Z) : Prop := 0 <= w < 65536.

(** More fuel than digits makes no difference. *)
Lemma to_base_fuel base f g z acc : 2 <= base -> 0 <= z < base ^ Z.of_nat f -> z < base ^ Z.of_nat g -> (0 < f)%nat -> (0 < g)%nat ->
  to_base f base z acc = to_base g base z acc.
Proof.
  intros Hb. revert g z acc. induction f as [|f IH]; intros g z acc Hf Hg H0 H1; [lia|]. destruct g as [|g]; [lia|].
  cbn [to_base]. destruct (Z.eqb_spec (z / base) 0) as [E|E]; [done|].
  rewrite Nat2Z.inj_succ, Z.pow_succ_r in Hf, Hg by lia.
  assert (0 <= z / base) by (apply Z.div_pos; lia).
  assert (z / base < base ^ Z.of_nat f) by (apply Z.div_lt_upper_bound; lia).
  assert (z / base < base ^ Z.of_nat g) by (apply Z.div_lt_upper_bound; lia).
  destruct f as [|f']; [rewrite Z.pow_0_r in *; lia|]. destruct g as [|g']; [rewrite Z.pow_0_r in *; lia|].
  apply IH; lia.
Qed.

Lemma fmt_x_word w rest : is_word w -> fmt_x w +s+ rest = to_base 4 16 w rest.
Proof.
  intros Hw. unfold is_word in Hw. unfold fmt_x, number. rewrite <- to_base_app. apply to_base_fuel; try lia.
  split; [lia|]. apply number_fuel; lia.
Qed.

Lemma lor_digit acc d : 0 <= acc -> 0 <= d < 16 -> Z.lor (Z.shiftl acc 4) d = acc * 16 + d.
Proof.
  intros Ha Hd. rewrite Z.shiftl_mul_pow2 by lia. change (2 ^ 4) with 16. symmetry. apply Z.add_nocarry_lor.
  replace d with (d mod 2 ^ 4) by (apply Z.mod_small; lia). rewrite <- Z.land_ones by lia.
  change 16 with (2 ^ 4). rewrite <- Z.shiftl_mul_pow2 by lia. apply Z.bits_inj'. intros i Hi.
  rewrite !Z.land_spec, Z.bits_0, Z.testbit_ones_nonneg by lia.
  destruct (Z.ltb_spec i 4); [by rewrite Z.shiftl_spec_low|]. by rewrite andb_false_r, andb_false_r.
Qed.

(** The digits of a number are read one after the other. *)
Lemma pton6_digits f z rest ct tp cp n acc : 0 <= z < 16 ^ Z.of_nat f -> (0 < f)%nat -> (n + f <= 4)%nat -> 0 <= acc < 16 ^ Z.of_nat n ->
  exists k, (1 <= k <= f)%nat /\ z < 16 ^ Z.of_nat k /\
    pton6_loop (to_base f 16 z rest) ct tp cp n acc = pton6_loop rest ct tp cp (n + k) (acc * 16 ^ Z.of_nat k + z).
Proof.
  revert z rest. induction f as [|f IH]; intros z rest Hz H0 Hn Ha; [lia|]. cbn [to_base].
  assert (0 <= z mod 16 < 16) as Hm by (apply Z.mod_pos_bound; lia).
  assert (z = 16 * (z / 16) + z mod 16) as Hdm by (apply Z_div_mod_eq_full).
  rewrite Nat2Z.inj_succ, Z.pow_succ_r in Hz by lia.
  assert (forall m v, (m < 4)%nat -> 0 <= v < 16 ^ Z.of_nat m ->
    pton6_loop (String (digit_char (z mod 16)) rest) ct tp cp m v = pton6_loop rest ct tp cp (S m) (v * 16 + z mod 16)) as Hstep.
  { intros m v Hm4 Hv. cbn [pton6_loop]. rewrite digit_char_in by lia. rewrite (proj2 (Nat.eqb_neq m 4)) by lia.
    rewrite lor_digit by lia. rewrite (proj2 (Z.ltb_ge 65535 _)); [done|].
    assert (16 ^ Z.of_nat m <= 16 ^ 3) by (apply Z.pow_le_mono_r; lia). change (16 ^ 3) with 4096 in *. lia. }
  destruct (Z.eqb_spec (z / 16) 0) as [E|E].
  - exists 1%nat. split; [lia|]. change (Z.of_nat 1) with 1. rewrite Z.pow_1_r. split; [lia|].
    rewrite Hstep by lia. f_equal; lia.
  - assert (0 <= z / 16) by (apply Z.div_pos; lia).
    assert (z / 16 < 16 ^ Z.of_nat f) by (apply Z.div_lt_upper_bound; lia).
    destruct f as [|f']; [rewrite Z.pow_0_r in *; lia|].
    destruct (IH (z / 16) (String (digit_char (z mod 16)) rest)) as (k & Hk & Hlt & ->); [lia..|].
    exists (S k). split; [lia|]. rewrite Nat2Z.inj_succ, Z.pow_succ_r by lia. split; [lia|].
    rewrite Hstep; [|lia|].
    + f_equal; [lia|]. lia.
    + rewrite Nat2Z.inj_add, Z.pow_add_r by lia. nia.
Qed.

Lemma pton6_number w rest ct tp cp : is_word w ->
  exists k, (1 <= k)%nat /\ pton6_loop (fmt_x w +s+ rest) ct tp cp 0 0 = pton6_loop rest ct tp cp k w.
Proof.
  intros Hw. rewrite fmt_x_word by done. destruct (pton6_digits 4 w rest ct tp cp 0 0) as (k & Hk & _ & ->); [done|lia..|].
  exists k. split; [lia|]. f_equal; lia.
Qed.

(** ** The pieces of an address *)

Definition pton6_run (s ct : string) (tp : list Z) (cp : option nat) : option (list Z) :=
  match pton6_loop s ct tp cp 0 0 with None => None | Some x => pton6_end x end.

Lemma run_word_colon w rest ct tp cp : is_word w -> rest <> EmptyString -> (length tp + 2 <= 16)%nat ->
  pton6_run (fmt_x w +s+ String ":" rest) ct tp cp = pton6_run rest rest (tp ++ word_bytes w) cp.
Proof.
  intros Hw Hr Ht. unfold pton6_run. destruct (pton6_number w (String ":" rest) ct tp cp Hw) as (k & Hk & ->).
  cbn [pton6_loop]. change (is_digit_in 16 ":") with (@None Z). change (Ascii.eqb ":" ":") with true. cbv iota.
  rewrite (proj2 (Nat.eqb_neq k 0)), (proj2 (Nat.ltb_ge 16 _)) by lia. by destruct rest.
Qed.

Lemma run_word_end w ct tp cp : is_word w -> pton6_run (fmt_x w) ct tp cp = pton6_end (tp, cp, 1%nat, w).
Proof.
  intros Hw. unfold pton6_run. rewrite <- (append_nil (fmt_x w)). destruct (pton6_number w EmptyString ct tp cp Hw) as (k & Hk & ->).
  cbn [pton6_loop]. unfold pton6_end. by rewrite !(proj2 (Nat.ltb_lt 0 _)) by lia.
Qed.

Lemma run_colon rest ct tp : pton6_run (String ":" rest) ct tp None = pton6_run rest rest tp (Some (length tp)).
Proof. done. Qed.

Lemma run_nil ct tp cp : pton6_run EmptyString ct tp cp = pton6_end (tp, cp, 0%nat, 0).
Proof. done. Qed.

Lemma run_ipv4 addr tp cp : is_bytes addr -> length addr = 4%nat -> (length tp + 4 <= 16)%nat ->
  pton6_run (inet_ntop4 addr) (inet_ntop4 addr) tp cp = pton6_end (tp ++ addr, cp, 0%nat, 0).
Proof.
  intros Hb Hl Ht. pose proof (inet4_roundtrip addr Hb Hl) as Hr. revert Hr. generalize (inet_ntop4 addr) at 1 3. intros ct Hct.
  destruct addr as [|a [|b [|c [|d []]]]]; try done. unfold inet_ntop4, byte_at. cbn [lookup list_lookup default from_option id].
  rewrite str1_app. generalize (fmt_u b +s+ str1 "." +s+ fmt_u c +s+ str1 "." +s+ fmt_u d) as rest. intros rest.
  apply Forall_cons in Hb as [Ha _]. unfold is_byte in Ha.
  assert (exists k v, pton6_loop (fmt_u a +s+ String "." rest) ct tp cp 0 0 = pton6_loop (String "." rest) ct tp cp k v) as (k & v & E).
  { assert (In a (seqZ 0 256)) as Hin by (apply list_elem_of_In, elem_of_seqZ; lia). clear Ha. vm_compute in Hin.
    exists (String.length (fmt_u a)), (snd (fst (digits 16 (fmt_u a) 0 0))).
    repeat (destruct Hin as [<-|Hin]; [reflexivity|]). destruct Hin. }
  unfold pton6_run. rewrite E. cbn [pton6_loop]. change (is_digit_in 16 ".") with (@None Z). change (Ascii.eqb "." ":") with false.
  change (Ascii.eqb "." ".") with true. cbv iota. rewrite (proj2 (Nat.leb_le _ 16)) by lia. cbn [andb]. by rewrite Hct.
Qed.

(** ** Whole addresses *)

(** The run has two zeros at least, and is in the address. *)
Definition run_ok (zeros : list bool) : bool :=
  match best_run zeros with
  | None => true
  | Some (b, n) => (2 <=? n)%nat && (b + n <=? 8)%nat && forallb (fun i => default false (zeros !! i)) (seq b n)
  end.

Lemma best_run_ok a b c d e f g h : run_ok [a; b; c; d; e; f; g; h] = true.
Proof. destruct a, b, c, d, e, f, g, h; reflexivity. Qed.

Lemma word_bytes_word a b : is_byte a -> is_byte b ->
  word_bytes (Z.lor (Z.shiftl a 8) b) = [a; b] /\ is_word (Z.lor (Z.shiftl a 8) b).
Proof.
  unfold is_byte. intros Ha Hb. assert (Z.lor (Z.shiftl a 8) b = 256 * a + b) as ->.
  { rewrite Z.shiftl_mul_pow2 by lia. change (2 ^ 8) with 256. rewrite (Z.mul_comm 256). symmetry. apply Z.add_nocarry_lor.
    replace b with (b mod 2 ^ 8) by (apply Z.mod_small; lia). rewrite <- Z.land_ones by lia.
    change 256 with (2 ^ 8). rewrite <- Z.shiftl_mul_pow2 by lia. apply Z.bits_inj'. intros i Hi.
    rewrite !Z.land_spec, Z.bits_0, Z.testbit_ones_nonneg by lia.
    destruct (Z.ltb_spec i 8); [by rewrite Z.shiftl_spec_low|]. by rewrite andb_false_r, andb_false_r. }
  split; [|unfold is_word; lia]. unfold word_bytes. rewrite Z.shiftr_div_pow2 by lia. change (2 ^ 8) with 256.
  change 255 with (Z.ones 8). rewrite !Z.land_ones by lia. change (2 ^ 8) with 256.
  f_equal; [|f_equal]; Z.to_euclidean_division_equations; lia.
Qed.

Lemma fmt_x_not_nil w s : is_word w -> fmt_x w +s+ s <> EmptyString.
Proof. intros Hw. unfold is_word in Hw. unfold fmt_x. by destruct (number_head 16 w ltac:(lia) ltac:(lia)) as (d & t & _ & ->). Qed.

Lemma ipv4_not_nil addr s : is_bytes addr -> length addr = 4%nat -> inet_ntop4 addr +s+ s <> EmptyString.
Proof.
  intros Hb Hl. destruct addr as [|a [|b [|c [|d []]]]]; try done. apply Forall_cons in Hb as [Ha _]. unfold is_byte in Ha.
  unfold inet_ntop4, byte_at. cbn [lookup list_lookup default from_option id].
  unfold fmt_u. by destruct (number_head 10 a ltac:(lia) ltac:(lia)) as (e & t & _ & ->).
Qed.

(** An address that starts with a number is read from its start. *)
Lemma start_number w s : is_word w -> inet_pton6 (fmt_x w +s+ s) = pton6_run (fmt_x w +s+ s) (fmt_x w +s+ s) [] None.
Proof.
  intros Hw. unfold is_word in Hw. unfold inet_pton6, fmt_x. destruct (number_head 16 w ltac:(lia) ltac:(lia)) as (d & t & Hd & ->).
  assert (In d (seqZ 0 16)) as Hin by (apply list_elem_of_In, elem_of_seqZ; lia). vm_compute in Hin.
  repeat (destruct Hin as [<-|Hin]; [reflexivity|]). destruct Hin.
Qed.

Lemma start_colons s : inet_pton6 (String ":" (String ":" s)) = pton6_run s s [] (Some 0%nat).
Proof. reflexivity. Qed.

Lemma fmt_x_not_empty w : is_word w -> fmt_x w <> EmptyString.
Proof. rewrite <- (append_nil (fmt_x w)). apply fmt_x_not_nil. Qed.

Lemma ipv4_not_empty addr : is_bytes addr -> length addr = 4%nat -> inet_ntop4 addr <> EmptyString.
Proof. rewrite <- (append_nil (inet_ntop4 addr)). apply ipv4_not_nil. Qed.

Lemma word_bytes_bytes w : is_bytes (word_bytes w).
Proof.
  repeat constructor; change 255 with (Z.ones 8); rewrite Z.land_ones by lia; apply Z.mod_pos_bound; lia.
Qed.

(** Read an address, number by number. *)
Ltac not_empty :=
  first [ assumption | by apply fmt_x_not_empty | by apply fmt_x_not_nil | (apply ipv4_not_empty; [apply Forall_app; split; apply word_bytes_bytes|done]) | discriminate | cbn; lia ].

Ltac read_pieces :=
  rewrite ?append_assoc, ?str1_app, ?append_nil;
  repeat first
    [ rewrite run_word_colon by not_empty
    | rewrite run_colon | rewrite run_word_end by assumption | rewrite run_nil ].

Section Words.
Context (w0 w1 w2 w3 w4 w5 w6 w7 : Z).
Context (H0 : is_word w0) (H1 : is_word w1) (H2 : is_word w2) (H3 : is_word w3).
Context (H4 : is_word w4) (H5 : is_word w5) (H6 : is_word w6) (H7 : is_word w7).

Definition words_text (best : option (nat * nat)) : string :=
  ntop6_loop best w5 (inet_ntop4 (word_bytes w6 ++ word_bytes w7)) 0 [w0; w1; w2; w3; w4; w5; w6; w7] +s+
  (if ends_run best then str1 ":" else EmptyString).

Definition all_bytes : list Z := flat_map word_bytes [w0; w1; w2; w3; w4; w5; w6; w7].

Lemma no_run : inet_pton6 (words_text None) = Some all_bytes.
Proof.
  unfold words_text. cbn [ntop6_loop in_run ends_run embeds_ipv4 Nat.eqb andb].
  rewrite ?append_nil, ?append_assoc, ?str1_app. change (EmptyString +s+ ?x) with x.
  rewrite start_number by done. read_pieces. reflexivity.
Qed.

(** The words in the run are zeros; the others can be anything. *)
Lemma with_run b n : run_ok ((fun w => w =? 0) <$> [w0; w1; w2; w3; w4; w5; w6; w7]) = true ->
  best_run ((fun w => w =? 0) <$> [w0; w1; w2; w3; w4; w5; w6; w7]) = Some (b, n) ->
  inet_pton6 (words_text (Some (b, n))) = Some all_bytes.
Proof.
  unfold run_ok. intros Hok E. rewrite E in Hok. clear E. apply andb_true_iff in Hok as [[Hn Hbn]%andb_true_iff Hz].
  apply Nat.leb_le in Hn, Hbn. unfold words_text, all_bytes.
  destruct b as [|[|[|[|[|[|[|b]]]]]]]; [..|lia];
    (destruct n as [|[|[|[|[|[|[|[|[|n]]]]]]]]]; try (exfalso; lia));
    cbn [seq forallb lookup list_lookup fmap list_fmap default from_option id] in Hz;
    repeat (apply andb_true_iff in Hz as [?%Z.eqb_eq Hz]); clear Hz Hn Hbn; subst;
    cbn [ntop6_loop in_run ends_run starts_run embeds_ipv4 Nat.eqb Nat.leb Nat.ltb Nat.add andb orb];
    repeat (case_match; [|]); rewrite ?append_nil, ?append_assoc, ?str1_app, ?nil_app;
    change (str1 ":") with (String ":" EmptyString);
    first [rewrite start_colons | rewrite start_number by assumption]; read_pieces;
    try (rewrite run_ipv4 by first [done | apply Forall_app; split; apply word_bytes_bytes | cbn; lia]); reflexivity.
Qed.
End Words.

Lemma inet6_roundtrip addr : is_bytes addr -> length addr = 16%nat -> inet_pton6 (inet_ntop6 addr) = Some addr.
Proof.
  intros Hb Hl. destruct addr as [|a0 [|b0 [|a1 [|b1 [|a2 [|b2 [|a3 [|b3 [|a4 [|b4 [|a5 [|b5 [|a6 [|b6 [|a7 [|b7 []]]]]]]]]]]]]]]]]; try done.
  repeat (apply Forall_cons in Hb as [? Hb]). unfold inet_ntop6. change (seq 0 8) with [0; 1; 2; 3; 4; 5; 6; 7]%nat.
  cbn [fmap list_fmap]. unfold word_at, byte_at. cbn [Nat.mul Nat.add lookup list_lookup default from_option id drop].
  destruct (word_bytes_word a0 b0) as [E0 W0]; [done..|]. destruct (word_bytes_word a1 b1) as [E1 W1]; [done..|].
  destruct (word_bytes_word a2 b2) as [E2 W2]; [done..|]. destruct (word_bytes_word a3 b3) as [E3 W3]; [done..|].
  destruct (word_bytes_word a4 b4) as [E4 W4]; [done..|]. destruct (word_bytes_word a5 b5) as [E5 W5]; [done..|].
  destruct (word_bytes_word a6 b6) as [E6 W6]; [done..|]. destruct (word_bytes_word a7 b7) as [E7 W7]; [done..|].
  set (w0 := Z.lor (Z.shiftl a0 8) b0) in *. set (w1 := Z.lor (Z.shiftl a1 8) b1) in *.
  set (w2 := Z.lor (Z.shiftl a2 8) b2) in *. set (w3 := Z.lor (Z.shiftl a3 8) b3) in *.
  set (w4 := Z.lor (Z.shiftl a4 8) b4) in *. set (w5 := Z.lor (Z.shiftl a5 8) b5) in *.
  set (w6 := Z.lor (Z.shiftl a6 8) b6) in *. set (w7 := Z.lor (Z.shiftl a7 8) b7) in *.
  assert (all_bytes w0 w1 w2 w3 w4 w5 w6 w7 = [a0; b0; a1; b1; a2; b2; a3; b3; a4; b4; a5; b5; a6; b6; a7; b7]) as Ea.
  { unfold all_bytes. cbn [flat_map]. by rewrite E0, E1, E2, E3, E4, E5, E6, E7. }
  rewrite <- Ea. change [a6; b6; a7; b7] with ([a6; b6] ++ [a7; b7]). rewrite <- E6, <- E7.
  pose proof (best_run_ok (w0 =? 0) (w1 =? 0) (w2 =? 0) (w3 =? 0) (w4 =? 0) (w5 =? 0) (w6 =? 0) (w7 =? 0)) as Hok.
  destruct (best_run _) as [[b n]|] eqn:Eb.
  - exact (with_run w0 w1 w2 w3 w4 w5 w6 w7 W0 W1 W2 W3 W4 W5 W6 W7 b n Hok Eb).
  - exact (no_run w0 w1 w2 w3 w4 w5 w6 w7 W0 W1 W2 W3 W4 W5 W6 W7).
Qed.

(** * What is read is an address *)

Lemma is_digit_range base c d : is_digit_in base c = Some d -> 0 <= d < base.
Proof.
  unfold is_digit_in. destruct (digit_value c) as [v|] eqn:E; [|done]. destruct (Z.ltb_spec v base); [|done]. intros [= <-].
  split; [|done]. unfold digit_value, isdigit, islower, isupper in E.
  repeat case_match; simplify_eq;
    repeat match goal with Hc : _ && _ = true |- _ => apply andb_prop in Hc as [?%Nat.leb_le ?%Nat.leb_le] end; lia.
Qed.

Lemma pton4_addr_ok s tmp cur saw n r : pton4 s tmp cur saw n = Some r -> is_bytes tmp -> is_byte cur -> (n <= 4)%nat ->
  (if saw then S (length tmp) = n else length tmp = n /\ (n < 4)%nat) -> is_bytes r /\ length r = 4%nat.
Proof.
  revert tmp cur saw n. induction s as [|c s IH]; intros tmp cur saw n; cbn [pton4].
  - destruct (Nat.ltb_spec n 4); [done|]. intros [= <-] Ht Hc Hn Hl. rewrite length_app. cbn [length].
    split; [by apply Forall_app; split; [|by constructor]|]. destruct saw; lia.
  - destruct (is_digit_in 10 c) as [d|] eqn:Ed.
    + apply is_digit_range in Ed. destruct (saw && (cur =? 0)); [done|]. destruct (Z.ltb_spec 255 (cur * 10 + d)); [done|].
      intros E Ht Hc Hn Hl. unfold is_byte in Hc. destruct saw.
      * apply (IH _ _ _ _ E Ht); [unfold is_byte; lia|done..].
      * destruct (4 <? S n)%nat eqn:E4; [done|]. apply Nat.ltb_ge in E4. apply (IH _ _ _ _ E Ht); [unfold is_byte; lia|done|]. lia.
    + destruct (Ascii.eqb c "." && saw) eqn:Es; [|done]. apply andb_true_iff in Es as [_ ->].
      destruct (Nat.eqb_spec n 4); [done|]. intros E Ht Hc Hn Hl.
      apply (IH _ _ _ _ E); [by apply Forall_app; split; [|by constructor]|done|done|]. rewrite length_app. cbn [length]. lia.
Qed.

Lemma inet_pton4_ok s r : inet_pton4 s = Some r -> is_bytes r /\ length r = 4%nat.
Proof. intros E. apply (pton4_addr_ok _ _ _ _ _ _ E); [constructor|done|lia|cbn; lia]. Qed.

Definition addr_part (tp : list Z) : Prop := is_bytes tp /\ (length tp <= 16)%nat.

Lemma addr_part_app tp bs : addr_part tp -> is_bytes bs -> (length tp + length bs <= 16)%nat -> addr_part (tp ++ bs).
Proof. intros [Hb _] Hbs Hl. split; [by apply Forall_app|]. by rewrite length_app. Qed.

Lemma pton6_loop_part s ct tp cp xd val r : pton6_loop s ct tp cp xd val = Some r -> addr_part tp -> addr_part (fst (fst (fst r))).
Proof.
  revert ct tp cp xd val. induction s as [|c s IH]; intros ct tp cp xd val; cbn [pton6_loop]; [by intros [= <-]|].
  destruct (is_digit_in 16 c) as [d|].
  - destruct (xd =? 4)%nat; [done|]. destruct (_ <? _); [done|]. apply IH.
  - destruct (Ascii.eqb c ":").
    + destruct (xd =? 0)%nat; [destruct cp; [done|apply IH]|]. destruct s as [|c' s']; [done|].
      destruct (Nat.ltb_spec 16 (length tp + 2)); [done|]. intros E Ht. apply (IH _ _ _ _ _ E).
      apply addr_part_app; [done|apply word_bytes_bytes|cbn; lia].
    + destruct (Ascii.eqb c "." && _) eqn:Ec; [|done]. apply andb_true_iff in Ec as [_ Hl%Nat.leb_le].
      destruct (inet_pton4 ct) as [a|] eqn:Ea; [|done]. intros [= <-] Ht. apply inet_pton4_ok in Ea as [Hb Hla].
      apply addr_part_app; [done|done|lia].
Qed.

Lemma inet_pton6_ok s r : inet_pton6 s = Some r -> is_bytes r /\ length r = 16%nat.
Proof.
  unfold inet_pton6. destruct (match s with EmptyString => None | _ => _ end) as [s'|]; [|done].
  destruct (pton6_loop s' s' [] None 0 0) as [[[[tp cp] xd] val]|] eqn:E; [|done].
  apply pton6_loop_part in E; [|by split; [constructor|cbn; lia]]. cbn [fst] in E. unfold pton6_end.
  destruct ((0 <? xd)%nat && _) eqn:Ex; [done|]. set (tp' := if (0 <? xd)%nat then _ else _).
  assert (addr_part tp') as [Ht Hl].
  { unfold tp'. destruct (0 <? xd)%nat; [|done]. apply Nat.ltb_ge in Ex. apply addr_part_app; [done|apply word_bytes_bytes|cbn; lia]. }
  clearbody tp'. destruct cp as [n|].
  - destruct (Nat.eqb_spec (length tp') 16); [done|]. intros [= <-]. split.
    + apply Forall_app; split; [by apply is_bytes_take|]. apply Forall_app; split; [|by apply is_bytes_drop].
      by apply Forall_replicate.
    + rewrite !length_app, length_take, length_replicate, length_drop. lia.
  - destruct (Nat.eqb_spec (length tp') 16); [|done]. by intros [= <-].
Qed.

(** * The text of an address: its characters and its length *)

Definition addr_char (c : ascii) : bool := is_digit_of 16 c || Ascii.eqb c ":" || Ascii.eqb c ".".

Lemma digit_of_le base c : base <= 16 -> is_digit_of base c = true -> is_digit_of 16 c = true.
Proof.
  unfold is_digit_of, is_digit_in. intros Hb. destruct (digit_value c) as [d|]; [|done].
  destruct (Z.ltb_spec d base); [|done]. intros _. by rewrite (proj2 (Z.ltb_lt d 16)) by lia.
Qed.

Lemma digit_of_alnum c : is_digit_of 16 c = true -> isalpha c || isdigit c = true.
Proof.
  unfold is_digit_of, is_digit_in, digit_value, isalpha. destruct (isdigit c); [by rewrite orb_true_r|].
  destruct (islower c); [by rewrite orb_true_r|]. by destruct (isupper c).
Qed.

Lemma number_addr_chars base z : 2 <= base <= 16 -> 0 <= z -> str_all addr_char (number base z) = true.
Proof.
  intros Hb Hz. eapply str_all_impl; [|by apply number_chars]. intros c Hc. unfold addr_char.
  by rewrite (digit_of_le base c) by (done || lia).
Qed.

Lemma fmt_u_length b : is_byte b -> (String.length (fmt_u b) <= 3)%nat.
Proof.
  unfold is_byte. intros Hb. unfold fmt_u, number. rewrite (to_base_fuel 10 _ 3); [apply to_base_length|lia| | |lia..].
  - split; [lia|]. apply number_fuel; lia.
  - change (10 ^ Z.of_nat 3) with 1000. lia.
Qed.

Lemma fmt_x_length w : is_word w -> (String.length (fmt_x w) <= 4)%nat.
Proof. intros Hw. rewrite <- (append_nil (fmt_x w)), fmt_x_word by done. apply to_base_length. Qed.

Lemma ntop4_text addr : is_bytes addr -> length addr = 4%nat ->
  str_all addr_char (inet_ntop4 addr) = true /\ (String.length (inet_ntop4 addr) <= 15)%nat /\
  exists c s, inet_ntop4 addr = String c s /\ isdigit c = true.
Proof.
  intros Hb Hl. destruct addr as [|a [|b [|c [|d []]]]]; try done.
  repeat (apply Forall_cons in Hb as [? Hb]). unfold inet_ntop4, byte_at. cbn [lookup list_lookup default from_option id].
  unfold is_byte in *. split; [|split].
  - unfold fmt_u. rewrite !str_all_app. rewrite !number_addr_chars by lia. done.
  - rewrite !length_append. cbn [str1 String.length].
    pose proof (fmt_u_length a). pose proof (fmt_u_length b). pose proof (fmt_u_length c). pose proof (fmt_u_length d).
    unfold is_byte in *. lia.
  - unfold fmt_u at 1. destruct (number_head 10 a) as (e & t & He & ->); [lia..|]. do 2 eexists. split; [reflexivity|].
    assert (In e (seqZ 0 10)) as Hin by (apply list_elem_of_In, elem_of_seqZ; lia). vm_compute in Hin.
    repeat (destruct Hin as [<-|Hin]; [done|]). destruct Hin.
Qed.

Section Text6.
Context (best : option (nat * nat)) (word5 : Z) (v4 : string).
Context (Hv : str_all addr_char v4 = true) (Hl : (String.length v4 <= 15)%nat).

Lemma ntop6_loop_chars i ws : Forall is_word ws -> str_all addr_char (ntop6_loop best word5 v4 i ws) = true.
Proof.
  intros Hw. revert i. induction Hw as [|w ws Hw _ IH]; intros i; [done|]. cbn [ntop6_loop].
  destruct (in_run best i); rewrite str_all_app.
  - rewrite IH. by destruct (starts_run best i).
  - assert (str_all addr_char (if (i =? 0)%nat then EmptyString else str1 ":") = true) as -> by (by destruct (i =? 0)%nat).
    destruct ((i =? 6)%nat && embeds_ipv4 best word5); [done|]. unfold is_word, fmt_x in *. by rewrite str_all_app, IH, number_addr_chars by lia.
Qed.

Lemma ntop6_loop_length i ws : Forall is_word ws -> (i + length ws = 8)%nat ->
  (String.length (ntop6_loop best word5 v4 i ws) <=
   5 * length ws - (if (i =? 0)%nat then 1 else 0) + (if (i <=? 6)%nat && embeds_ipv4 best word5 then 6 else 0))%nat.
Proof.
  intros Hw. revert i. induction Hw as [|w ws Hw _ IH]; intros i Hi; cbn [length] in *; [cbn [ntop6_loop String.length]; lia|].
  pose proof (IH (S i) ltac:(lia)) as IHi. cbn [Nat.eqb] in IHi. pose proof (fmt_x_length w Hw). cbn [ntop6_loop].
  destruct (in_run best i); rewrite length_append.
  - destruct (starts_run best i), (Nat.eqb_spec i 0), (embeds_ipv4 best word5); cbn [str1 String.length] in *;
      rewrite ?andb_true_r, ?andb_false_r in *; destruct (Nat.leb_spec i 6), (Nat.leb_spec (S i) 6); lia.
  - destruct (Nat.eqb_spec i 6), (embeds_ipv4 best word5) eqn:Ee; cbn [andb] in *; [subst i; cbn [Nat.eqb Nat.leb str1 String.length andb]; lia|..];
      rewrite length_append; destruct (Nat.eqb_spec i 0); cbn [str1 String.length] in *; rewrite ?andb_true_r, ?andb_false_r in *;
      destruct (Nat.leb_spec i 6), (Nat.leb_spec (S i) 6); lia.
Qed.
End Text6.

Lemma words_are_words addr : is_bytes addr -> length addr = 16%nat -> Forall is_word (word_at addr <$> seq 0 8).
Proof.
  intros Hb Hl. apply Forall_fmap, Forall_forall. intros i _. cbn. unfold word_at, byte_at.
  assert (forall j, is_byte (default 0 (addr !! j))) as Hbyte.
  { intros j. destruct (addr !! j) as [x|] eqn:E; [|done]. cbn. by eapply Forall_lookup_1. }
  by apply word_bytes_word.
Qed.

Lemma ntop6_text addr : is_bytes addr -> length addr = 16%nat ->
  str_all addr_char (inet_ntop6 addr) = true /\ (String.length (inet_ntop6 addr) <= 45)%nat /\
  exists c s, inet_ntop6 addr = String c s /\ isalpha c || isdigit c || Ascii.eqb c ":" = true.
Proof.
  intros Hb Hl. pose proof (words_are_words addr Hb Hl) as Hw. destruct (ntop4_text (drop 12 addr)) as (Hv & Hvl & _).
  { by apply is_bytes_drop. } { rewrite length_drop. lia. }
  unfold inet_ntop6. set (ws := word_at addr <$> seq 0 8) in *. set (best := best_run _).
  split; [|split].
  - rewrite str_all_app, ntop6_loop_chars by done. by destruct (ends_run best).
  - rewrite length_append. pose proof (ntop6_loop_length best (word_at addr 5) _ Hvl 0 ws Hw eq_refl) as Hlen.
    change (length ws) with 8%nat in Hlen. cbn [Nat.eqb Nat.leb andb] in Hlen.
    assert (embeds_ipv4 best (word_at addr 5) = true -> ends_run best = false) as He.
    { clearbody best. destruct best as [[[|b] n]|]; try done. cbn. intros [->%Nat.eqb_eq|[->%Nat.eqb_eq _]%andb_true_iff]%orb_true_iff; done. }
    destruct (embeds_ipv4 best (word_at addr 5)); [rewrite (He eq_refl)|]; cbn [String.length] in *; [lia|]. destruct (ends_run best); cbn [str1 String.length]; lia.
  - assert (length ws = 8%nat) as Hws by done. clearbody best. clearbody ws. destruct ws as [|w rest]; [done|]. apply Forall_cons in Hw as [Hw _]. cbn [ntop6_loop]. destruct (in_run best 0) eqn:Er.
    + assert (starts_run best 0 = true) as ->.
      { destruct best as [[b n]|]; [|done]. cbn in Er |- *. apply andb_true_iff in Er as [Er _]. by destruct b. }
      do 2 eexists. split; [reflexivity|]. done.
    + cbn [Nat.eqb andb]. rewrite nil_app. unfold is_word in Hw. unfold fmt_x. destruct (number_head 16 w) as (d & t & Hd & ->); [lia..|].
      do 2 eexists. split; [reflexivity|]. rewrite digit_of_alnum; [done|]. unfold is_digit_of. by rewrite digit_char_in by lia.
Qed.
