(* ===== verification/Pack.v ===== *)
(** Serialisation: [src/libbpfilter/pack.c] and [pack.h].

    A MessagePack document is a tree of nodes.  [bf_wpack_*] builds one,
    container by container, and [bf_rpack_*] reads one.  The mpack library
    turns trees into bytes and back; here a pack is the tree itself. *)

From S2P Require Import Prelude.
From Stdlib Require Import Ascii.

#[local] Set Warnings "-register-all".

(** A node: [MUint] for the integers of [mpack_type_uint], [MInt] for those of
    [mpack_type_int]; the children of a map are its keys and values, in
    pairs. *)
Inductive mnode : Type :=
| MNil
| MBool (b : bool)
| MInt (z : Z)
| MUint (z : Z)
| MStr (s : string)
| MBin (data : list Z)
| MArray (l : list mnode)
| MMap (l : list (mnode * mnode)).

(** The mpack library: a document parsed from bytes, and written to bytes. *)
Class Mpack : Type := {
  mpack_parse : list Z -> option mnode;
  mpack_write : mnode -> list Z
}.

(** What is written is read back. *)
Class MpackSpec `{Mpack} : Prop := { mpack_roundtrip n : mpack_parse (mpack_write n) = Some n }.

(** * Writing *)

(** A container being built: a map or an array, with its elements so far. *)
Record wframe : Type := mk_wframe { wf_map : bool; wf_elems : list mnode }.

(** The containers being built, innermost first; whether an error was flagged;
    the document once its outermost container has been completed. *)
Record bf_wpack : Type := mk_wpack {
  wp_frames : list wframe;
  wp_error : bool;
  wp_root : option mnode
}.

Definition bf_wpack_new : bf_wpack := mk_wpack [mk_wframe true []] false None.

Definition bf_wpack_is_valid (pack : bf_wpack) : bool := negb (wp_error pack).

Definition flag_error (pack : bf_wpack) : bf_wpack := mk_wpack (wp_frames pack) true (wp_root pack).

(** Add an element to the container being built. *)
Definition wpack_add (v : mnode) (pack : bf_wpack) : bf_wpack :=
  match wp_frames pack with
  | f :: fs => mk_wpack (mk_wframe (wf_map f) (wf_elems f ++ [v]) :: fs) (wp_error pack) (wp_root pack)
  | [] => flag_error pack
  end.

(** Keys and values alternate; an odd number of elements is an error. *)
Fixpoint pairs (l : list mnode) : option (list (mnode * mnode)) :=
  match l with
  | [] => Some []
  | [_] => None
  | k :: v :: l => match pairs l with Some ps => Some ((k, v) :: ps) | None => None end
  end.

(** [mpack_complete_map] and [mpack_complete_array]. *)
Definition wpack_complete (map : bool) (pack : bf_wpack) : bf_wpack :=
  match wp_frames pack with
  | f :: fs =>
      let node := if map then MMap <$> pairs (wf_elems f) else Some (MArray (wf_elems f)) in
      if negb (Bool.eqb map (wf_map f)) then flag_error pack
      else match node with
           | None => flag_error pack
           | Some n =>
               match fs with
               | [] => mk_wpack [] (wp_error pack) (Some n)
               | _ => wpack_add n (mk_wpack fs (wp_error pack) (wp_root pack))
               end
           end
  | [] => flag_error pack
  end.

Definition bf_wpack_get_data (pack : bf_wpack) : res mnode :=
  let pack := wpack_complete true pack in
  if negb (bf_wpack_is_valid pack) then Err (- EINVAL) else of_option (- EINVAL) (wp_root pack).

(** Signed integers that are not negative are written as unsigned ones. *)
Definition int_node (value : Z) : mnode := if value <? 0 then MInt value else MUint value.

Definition bf_wpack_nil : bf_wpack -> bf_wpack := wpack_add MNil.
Definition bf_wpack_int (value : Z) : bf_wpack -> bf_wpack := wpack_add (int_node value).
Definition bf_wpack_uint (value : Z) : bf_wpack -> bf_wpack := wpack_add (MUint value).
Definition bf_wpack_u8 (value : Z) : bf_wpack -> bf_wpack := wpack_add (MUint value).
Definition bf_wpack_u16 (value : Z) : bf_wpack -> bf_wpack := wpack_add (MUint value).
Definition bf_wpack_u32 (value : Z) : bf_wpack -> bf_wpack := wpack_add (MUint value).
Definition bf_wpack_u64 (value : Z) : bf_wpack -> bf_wpack := wpack_add (MUint value).
Definition bf_wpack_bool (value : bool) : bf_wpack -> bf_wpack := wpack_add (MBool value).
Definition bf_wpack_str (value : string) : bf_wpack -> bf_wpack := wpack_add (MStr value).
Definition bf_wpack_bin (value : list Z) : bf_wpack -> bf_wpack := wpack_add (MBin value).
Definition bf_wpack_enum : Z -> bf_wpack -> bf_wpack := bf_wpack_int.

Definition bf_wpack_kv_nil (key : string) (pack : bf_wpack) : bf_wpack := bf_wpack_nil (bf_wpack_str key pack).
Definition bf_wpack_kv_int (key : string) (v : Z) (pack : bf_wpack) : bf_wpack :=
  bf_wpack_int v (bf_wpack_str key pack).
Definition bf_wpack_kv_uint (key : string) (v : Z) (pack : bf_wpack) : bf_wpack :=
  bf_wpack_uint v (bf_wpack_str key pack).
Definition bf_wpack_kv_u8 (key : string) (v : Z) (pack : bf_wpack) : bf_wpack :=
  bf_wpack_u8 v (bf_wpack_str key pack).
Definition bf_wpack_kv_u32 (key : string) (v : Z) (pack : bf_wpack) : bf_wpack :=
  bf_wpack_u32 v (bf_wpack_str key pack).
Definition bf_wpack_kv_u64 (key : string) (v : Z) (pack : bf_wpack) : bf_wpack :=
  bf_wpack_u64 v (bf_wpack_str key pack).
Definition bf_wpack_kv_bool (key : string) (v : bool) (pack : bf_wpack) : bf_wpack :=
  bf_wpack_bool v (bf_wpack_str key pack).
Definition bf_wpack_kv_str (key : string) (v : string) (pack : bf_wpack) : bf_wpack :=
  bf_wpack_str v (bf_wpack_str key pack).
Definition bf_wpack_kv_bin (key : string) (v : list Z) (pack : bf_wpack) : bf_wpack :=
  bf_wpack_bin v (bf_wpack_str key pack).
Definition bf_wpack_kv_enum (key : string) (v : Z) (pack : bf_wpack) : bf_wpack :=
  bf_wpack_enum v (bf_wpack_str key pack).

(** [key] may be NULL. *)
Definition wpack_open (map : bool) (key : option string) (pack : bf_wpack) : bf_wpack :=
  let pack := match key with Some key => bf_wpack_str key pack | None => pack end in
  mk_wpack (mk_wframe map [] :: wp_frames pack) (wp_error pack) (wp_root pack).

Definition bf_wpack_open_object : option string -> bf_wpack -> bf_wpack := wpack_open true.
Definition bf_wpack_close_object : bf_wpack -> bf_wpack := wpack_complete true.
Definition bf_wpack_open_array : option string -> bf_wpack -> bf_wpack := wpack_open false.
Definition bf_wpack_close_array : bf_wpack -> bf_wpack := wpack_complete false.

(** The elements of a list, each in an object of its own; a NULL element is a
    nil.  A list of lists is packed as arrays in [bf_wpack_list_list]. *)
Definition bf_list_pack {A} (ops_pack : A -> bf_wpack -> bf_wpack) (list : list (option A)) (pack : bf_wpack) :
    bf_wpack :=
  foldl (fun pack x => match x with
                       | None => bf_wpack_nil pack
                       | Some x => bf_wpack_close_object (ops_pack x (bf_wpack_open_object None pack))
                       end) pack list.

Definition bf_wpack_list {A} (ops_pack : A -> bf_wpack -> bf_wpack) (value : list (option A)) (pack : bf_wpack) :
    bf_wpack :=
  bf_wpack_close_array (bf_list_pack ops_pack value (bf_wpack_open_array None pack)).

Definition bf_wpack_kv_list {A} (key : string) (ops_pack : A -> bf_wpack -> bf_wpack) (value : list (option A))
    (pack : bf_wpack) : bf_wpack :=
  bf_wpack_list ops_pack value (bf_wpack_str key pack).

(** [bf_wpack_kv_list] when the list's callback is [bf_list_pack] itself. *)
Definition bf_wpack_kv_list_list {A} (key : string) (ops_pack : A -> bf_wpack -> bf_wpack)
    (value : list (list (option A))) (pack : bf_wpack) : bf_wpack :=
  bf_wpack_close_array
    (foldl (fun pack l => bf_wpack_list ops_pack l pack)
           (bf_wpack_open_array None (bf_wpack_str key pack)) value).

(** * Reading *)

Definition bf_rpack_new `{Mpack} (data : list Z) : res mnode := of_option (- EINVAL) (mpack_parse data).

Definition bf_rpack_is_nil (node : mnode) : bool := match node with MNil => true | _ => false end.
Definition bf_rpack_is_array (node : mnode) : bool := match node with MArray _ => true | _ => false end.

Definition is_key (key : string) (kv : mnode * mnode) : bool :=
  match fst kv with MStr s => (s =? key)%string | _ => false end.

(** A key that occurs twice is an error of the whole document, reported here as
    a key that is not there. *)
Definition map_lookup (key : string) (l : list (mnode * mnode)) : option mnode :=
  match List.filter (is_key key) l with [(_, v)] => Some v | _ => None end.

Definition bf_rpack_kv_contains (node : mnode) (key : string) : bool :=
  match node with MMap l => match map_lookup key l with Some _ => true | None => false end | _ => false end.

Definition bf_rpack_kv_node (node : mnode) (key : string) : res mnode :=
  match node with
  | MMap l => of_option (- ENOENT) (map_lookup key l)
  | _ => Err (- EDOM)
  end.

(** Read an integer that fits between [lo] and [hi]. *)
Definition ranged (lo hi value : Z) : res Z :=
  if (lo <=? value) && (value <=? hi) then Ok value else Err (- EINVAL).

Definition bf_rpack_int (node : mnode) : res Z :=
  match node with
  | MInt z | MUint z => ranged (-2147483648) INT_MAX z
  | _ => Err (- EDOM)
  end.

Definition rpack_unsigned (hi : Z) (node : mnode) : res Z :=
  match node with MUint z => ranged 0 hi z | _ => Err (- EDOM) end.

Definition bf_rpack_uint : mnode -> res Z := rpack_unsigned UINT32_MAX.
Definition bf_rpack_u8 : mnode -> res Z := rpack_unsigned UINT8_MAX.
Definition bf_rpack_u16 : mnode -> res Z := rpack_unsigned UINT16_MAX.
Definition bf_rpack_u32 : mnode -> res Z := rpack_unsigned UINT32_MAX.
Definition bf_rpack_u64 : mnode -> res Z := rpack_unsigned (2 ^ 64 - 1).

Fixpoint has_nul (s : string) : bool :=
  match s with EmptyString => false | String c s => Ascii.eqb c "000"%char || has_nul s end.

(** A string with a NUL character in it is refused. *)
Definition bf_rpack_str (node : mnode) : res string :=
  match node with
  | MStr s => if has_nul s then Err (- EINVAL) else Ok s
  | _ => Err (- EDOM)
  end.

Definition bf_rpack_bool (node : mnode) : res bool := match node with MBool b => Ok b | _ => Err (- EDOM) end.
Definition bf_rpack_bin (node : mnode) : res (list Z) := match node with MBin l => Ok l | _ => Err (- EDOM) end.
Definition bf_rpack_enum : mnode -> res Z := bf_rpack_int.

(** [bf_rpack_kv_<type>]: the child of a key, then its value. *)
Definition rpack_kv {A} (read : mnode -> res A) (node : mnode) (key : string) : res A :=
  let! child := bf_rpack_kv_node node key in read child.

Definition bf_rpack_kv_int : mnode -> string -> res Z := rpack_kv bf_rpack_int.
Definition bf_rpack_kv_uint : mnode -> string -> res Z := rpack_kv bf_rpack_uint.
Definition bf_rpack_kv_u8 : mnode -> string -> res Z := rpack_kv bf_rpack_u8.
Definition bf_rpack_kv_u16 : mnode -> string -> res Z := rpack_kv bf_rpack_u16.
Definition bf_rpack_kv_u32 : mnode -> string -> res Z := rpack_kv bf_rpack_u32.
Definition bf_rpack_kv_u64 : mnode -> string -> res Z := rpack_kv bf_rpack_u64.
Definition bf_rpack_kv_str : mnode -> string -> res string := rpack_kv bf_rpack_str.
Definition bf_rpack_kv_bool : mnode -> string -> res bool := rpack_kv bf_rpack_bool.
Definition bf_rpack_kv_bin : mnode -> string -> res (list Z) := rpack_kv bf_rpack_bin.
Definition bf_rpack_kv_enum : mnode -> string -> res Z := bf_rpack_kv_int.

Definition bf_rpack_kv_obj : mnode -> string -> res mnode :=
  rpack_kv (fun n => match n with MMap _ => Ok n | _ => Err (- EDOM) end).

(** The children of an array: [bf_rpack_array_foreach] walks them in order. *)
Definition bf_rpack_kv_array : mnode -> string -> res (list mnode) :=
  rpack_kv (fun n => match n with MArray l => Ok l | _ => Err (- EDOM) end).

(** A loop over an array that stops at the first error. *)
Fixpoint rpack_each {A} (read : mnode -> res A) (l : list mnode) : res (list A) :=
  match l with
  | [] => Ok []
  | n :: l => let! x := read n in let! xs := rpack_each read l in Ok (x :: xs)
  end.

(** * What writing does *)

(** A container is being built. *)
Definition wopen (pack : bf_wpack) : Prop := wp_frames pack <> [].

(** Several elements at once. *)
Definition wpack_adds (vs : list mnode) (pack : bf_wpack) : bf_wpack := foldl (fun pack v => wpack_add v pack) pack vs.

Lemma wpack_add_open v pack : wopen pack -> wopen (wpack_add v pack).
Proof. unfold wopen, wpack_add. by destruct (wp_frames pack). Qed.

Lemma wpack_adds_open vs pack : wopen pack -> wopen (wpack_adds vs pack).
Proof. revert pack. induction vs as [|v vs IH]; intros pack Ho; [done|]. by apply IH, wpack_add_open. Qed.

Lemma wpack_adds_app vs ws pack : wpack_adds (vs ++ ws) pack = wpack_adds ws (wpack_adds vs pack).
Proof. apply foldl_app. Qed.

Lemma wpack_adds_frame vs f fs e r :
  wpack_adds vs (mk_wpack (f :: fs) e r) = mk_wpack (mk_wframe (wf_map f) (wf_elems f ++ vs) :: fs) e r.
Proof.
  revert f. induction vs as [|v vs IH]; intros f; cbn.
  - rewrite app_nil_r. by destruct f.
  - change (wpack_adds vs (wpack_add v (mk_wpack (f :: fs) e r)) = mk_wpack (mk_wframe (wf_map f) (wf_elems f ++ v :: vs) :: fs) e r).
    unfold wpack_add. cbn. rewrite IH. cbn. by rewrite <- app_assoc.
Qed.

Lemma wopen_open map key pack : wopen (wpack_open map key pack).
Proof. done. Qed.

(** A container that is opened, filled and closed is one more element. *)
Lemma wpack_close (is_map : bool) (key : option string) vs n pack : wopen pack ->
  (if is_map then MMap <$> pairs vs else Some (MArray vs)) = Some n ->
  wpack_complete is_map (wpack_adds vs (wpack_open is_map key pack)) =
  wpack_adds (match key with Some k => [MStr k; n] | None => [n] end) pack.
Proof.
  intros Ho Hn. unfold wpack_open. rewrite wpack_adds_frame. unfold wpack_complete. cbn [wp_frames wf_map wf_elems app].
  rewrite eqb_reflx. cbn [negb]. rewrite Hn.
  destruct pack as [[|f fs] e r]; [done|]. by destruct key.
Qed.

(** The elements of an object, key after key. *)
Fixpoint kvs (l : list (string * mnode)) : list mnode :=
  match l with [] => [] | (k, v) :: l => MStr k :: v :: kvs l end.

Definition obj (l : list (string * mnode)) : mnode := MMap ((fun '(k, v) => (MStr k, v)) <$> l).

Lemma pairs_kvs l : pairs (kvs l) = Some ((fun '(k, v) => (MStr k, v)) <$> l).
Proof. induction l as [|[k v] l IH]; cbn; [done|]. by rewrite IH. Qed.

Lemma kvs_app l l' : kvs (l ++ l') = kvs l ++ kvs l'.
Proof. induction l as [|[k v] l IH]; cbn; [done|]. by rewrite IH. Qed.

Lemma wpack_object key l pack : wopen pack ->
  bf_wpack_close_object (wpack_adds (kvs l) (bf_wpack_open_object key pack)) =
  wpack_adds (match key with Some k => [MStr k; obj l] | None => [obj l] end) pack.
Proof. intros Ho. apply wpack_close; [done|]. by rewrite pairs_kvs. Qed.

Lemma wpack_array key l pack : wopen pack ->
  bf_wpack_close_array (wpack_adds l (bf_wpack_open_array key pack)) =
  wpack_adds (match key with Some k => [MStr k; MArray l] | None => [MArray l] end) pack.
Proof. intros Ho. by apply wpack_close. Qed.

(** A callback adds the key and values [f] gives. *)
Definition packs {A} (ops_pack : A -> bf_wpack -> bf_wpack) (f : A -> list (string * mnode)) : Prop :=
  forall (x : A) (pack : bf_wpack), wopen pack -> ops_pack x pack = wpack_adds (kvs (f x)) pack.

Definition opt_obj {A} (f : A -> list (string * mnode)) (x : option A) : mnode :=
  match x with Some x => obj (f x) | None => MNil end.

Lemma list_pack_adds {A} (ops_pack : A -> bf_wpack -> bf_wpack) f l pack : packs ops_pack f -> wopen pack ->
  bf_list_pack ops_pack l pack = wpack_adds (opt_obj f <$> l) pack.
Proof.
  intros Hf. revert pack. induction l as [|x l IH]; intros pack Ho; [done|].
  destruct x as [x|].
  - change (bf_list_pack ops_pack l (bf_wpack_close_object (ops_pack x (bf_wpack_open_object None pack))) =
      wpack_adds (opt_obj f <$> l) (wpack_adds [obj (f x)] pack)).
    rewrite Hf, wpack_object by done. by apply IH, wpack_adds_open.
  - change (bf_list_pack ops_pack l (wpack_add MNil pack) =
      wpack_adds (opt_obj f <$> l) (wpack_add MNil pack)). by apply IH, wpack_add_open.
Qed.

Lemma wpack_list_adds {A} (ops_pack : A -> bf_wpack -> bf_wpack) f l pack : packs ops_pack f -> wopen pack ->
  bf_wpack_list ops_pack l pack = wpack_adds [MArray (opt_obj f <$> l)] pack.
Proof.
  intros Hf Ho. unfold bf_wpack_list. erewrite list_pack_adds by done. by rewrite wpack_array.
Qed.

Lemma wpack_kv_list_adds {A} key (ops_pack : A -> bf_wpack -> bf_wpack) f l pack : packs ops_pack f -> wopen pack ->
  bf_wpack_kv_list key ops_pack l pack = wpack_adds (kvs [(key, MArray (opt_obj f <$> l))]) pack.
Proof.
  intros Hf Ho. unfold bf_wpack_kv_list. by erewrite wpack_list_adds by (done || by apply wpack_add_open).
Qed.

Lemma wpack_kv_list_list_adds {A} key (ops_pack : A -> bf_wpack -> bf_wpack) f ls pack : packs ops_pack f -> wopen pack ->
  bf_wpack_kv_list_list key ops_pack ls pack =
  wpack_adds (kvs [(key, MArray ((fun l => MArray (opt_obj f <$> l)) <$> ls))]) pack.
Proof.
  intros Hf Ho. unfold bf_wpack_kv_list_list.
  assert (forall ls pack, wopen pack -> foldl (fun pack l => bf_wpack_list ops_pack l pack) pack ls =
    wpack_adds ((fun l => MArray (opt_obj f <$> l)) <$> ls) pack) as Hl.
  { clear -Hf. intros ls. induction ls as [|l ls IH]; intros pack Ho; [done|]. cbn [foldl fmap list_fmap].
    erewrite wpack_list_adds by done. by rewrite IH by (by apply wpack_add_open). }
  rewrite Hl by done. by rewrite wpack_array by (by apply wpack_add_open).
Qed.

(** The document a callback writes in a new pack. *)
Lemma get_data_packs {A} (ops_pack : A -> bf_wpack -> bf_wpack) f x : packs ops_pack f ->
  bf_wpack_is_valid (ops_pack x bf_wpack_new) = true /\
  bf_wpack_get_data (ops_pack x bf_wpack_new) = Ok (obj (f x)).
Proof.
  intros Hf. rewrite Hf by done. unfold bf_wpack_new. rewrite wpack_adds_frame. split; [done|].
  unfold bf_wpack_get_data, wpack_complete. cbn [wp_frames wf_map wf_elems app Bool.eqb negb].
  by rewrite pairs_kvs.
Qed.

(** * Reading back *)

Lemma read_int z : - 2 ^ 31 <= z < 2 ^ 31 -> bf_rpack_int (int_node z) = Ok z.
Proof.
  intros Hz. unfold int_node, bf_rpack_int, ranged, INT_MAX.
  destruct (z <? 0); rewrite (proj2 (Z.leb_le (-2147483648) z)), (proj2 (Z.leb_le z _)) by lia; done.
Qed.

Lemma read_unsigned hi z : 0 <= z <= hi -> rpack_unsigned hi (MUint z) = Ok z.
Proof.
  intros Hz. unfold rpack_unsigned, ranged.
  by rewrite (proj2 (Z.leb_le 0 z)), (proj2 (Z.leb_le z _)) by lia.
Qed.

Lemma read_str s : has_nul s = false -> bf_rpack_str (MStr s) = Ok s.
Proof. intros Hs. unfold bf_rpack_str. by rewrite Hs. Qed.

Lemma read_each {A B} (read : mnode -> res A) (node : B -> mnode) (val : B -> A) l :
  Forall (fun x => read (node x) = Ok (val x)) l -> rpack_each read (node <$> l) = Ok (val <$> l).
Proof.
  induction 1 as [|x l Hx _ IH]; [done|]. cbn [rpack_each fmap list_fmap]. rewrite Hx. cbn [rbind].
  by rewrite IH.
Qed.

Lemma read_each_id {A} (read : mnode -> res A) (node : A -> mnode) l :
  Forall (fun x => read (node x) = Ok x) l -> rpack_each read (node <$> l) = Ok l.
Proof. intros Hl. rewrite (read_each read node id) by done. by rewrite list_fmap_id. Qed.

Lemma rpack_kv_at {A} (read : mnode -> res A) l key v :
  map_lookup key ((fun '(k, v) => (MStr k, v)) <$> l) = Some v -> rpack_kv read (obj l) key = read v.
Proof. intros E. unfold rpack_kv, obj. cbn [bf_rpack_kv_node]. by rewrite E. Qed.

Lemma rpack_node_at l key v :
  map_lookup key ((fun '(k, v) => (MStr k, v)) <$> l) = Some v -> bf_rpack_kv_node (obj l) key = Ok v.
Proof. intros E. unfold obj. cbn [bf_rpack_kv_node]. by rewrite E. Qed.
