(* ===== verification/Hook.v ===== *)
(** Verdicts, BPF flavors, fronts and hooks: [src/libbpfilter/verdict.c],
    [flavor.c], [front.c] and the enumeration part of [hook.c].

    An enumeration read from a message has the source's constructors and a last
    one for the integers that are not enumerators: unpacking stores any [int]
    without checking it. *)

From S2P Require Import Prelude Helper.

(** * Verdicts *)

Inductive bf_verdict : Type :=
| BF_VERDICT_ACCEPT
| BF_VERDICT_DROP
| BF_VERDICT_CONTINUE
| bf_verdict_other (n : Z).

#[global] Instance bf_verdict_eq_dec : EqDecision bf_verdict.
Proof. solve_decision. Defined.

Definition bf_verdict_vals : list bf_verdict :=
  [BF_VERDICT_ACCEPT; BF_VERDICT_DROP; BF_VERDICT_CONTINUE].

Definition bf_verdict_to_Z (v : bf_verdict) : Z :=
  match v with
  | BF_VERDICT_ACCEPT => 0 | BF_VERDICT_DROP => 1 | BF_VERDICT_CONTINUE => 2
  | bf_verdict_other n => n
  end.

Definition bf_verdict_of_Z (z : Z) : bf_verdict :=
  match z with
  | 0 => BF_VERDICT_ACCEPT | 1 => BF_VERDICT_DROP | 2 => BF_VERDICT_CONTINUE
  | _ => bf_verdict_other z
  end.

(** [policy < _BF_TERMINAL_VERDICT_MAX] *)
Definition bf_verdict_is_terminal (v : bf_verdict) : bool := bf_verdict_to_Z v <? 2.

Definition bf_verdict_to_str (verdict : bf_verdict) : option string :=
  match verdict with
  | BF_VERDICT_ACCEPT => Some "ACCEPT"%string
  | BF_VERDICT_DROP => Some "DROP"%string
  | BF_VERDICT_CONTINUE => Some "CONTINUE"%string
  | bf_verdict_other _ => None
  end.

Definition bf_verdict_from_str (str : string) : res bf_verdict :=
  of_option (- EINVAL) (table_find bf_streq bf_verdict_to_str bf_verdict_vals str).

(** * Flavors *)

Inductive bf_flavor : Type :=
| BF_FLAVOR_TC
| BF_FLAVOR_NF
| BF_FLAVOR_XDP
| BF_FLAVOR_CGROUP.

#[global] Instance bf_flavor_eq_dec : EqDecision bf_flavor.
Proof. solve_decision. Defined.

Definition bf_flavor_to_Z (f : bf_flavor) : Z :=
  match f with BF_FLAVOR_TC => 0 | BF_FLAVOR_NF => 1 | BF_FLAVOR_XDP => 2 | BF_FLAVOR_CGROUP => 3 end.

Definition bf_flavor_to_str (flavor : bf_flavor) : string :=
  match flavor with
  | BF_FLAVOR_TC => "BF_FLAVOR_TC"
  | BF_FLAVOR_NF => "BF_FLAVOR_NF"
  | BF_FLAVOR_XDP => "BF_FLAVOR_XDP"
  | BF_FLAVOR_CGROUP => "BF_FLAVOR_CGROUP"
  end.

(** * Fronts *)

Inductive bf_front : Type :=
| BF_FRONT_IPT
| BF_FRONT_NFT
| BF_FRONT_CLI
| bf_front_other (n : Z).

#[global] Instance bf_front_eq_dec : EqDecision bf_front.
Proof. solve_decision. Defined.

Definition bf_front_to_str (front : bf_front) : option string :=
  match front with
  | BF_FRONT_IPT => Some "BF_FRONT_IPT"%string
  | BF_FRONT_NFT => Some "BF_FRONT_NFT"%string
  | BF_FRONT_CLI => Some "BF_FRONT_CLI"%string
  | bf_front_other _ => None
  end.

(** * Hooks *)

Inductive bf_hook : Type :=
| BF_HOOK_XDP
| BF_HOOK_TC_INGRESS
| BF_HOOK_NF_PRE_ROUTING
| BF_HOOK_NF_LOCAL_IN
| BF_HOOK_NF_FORWARD
| BF_HOOK_CGROUP_INGRESS
| BF_HOOK_CGROUP_EGRESS
| BF_HOOK_NF_LOCAL_OUT
| BF_HOOK_NF_POST_ROUTING
| BF_HOOK_TC_EGRESS
| bf_hook_other (n : Z).

#[global] Instance bf_hook_eq_dec : EqDecision bf_hook.
Proof. solve_decision. Defined.

Definition bf_hook_vals : list bf_hook :=
  [BF_HOOK_XDP; BF_HOOK_TC_INGRESS; BF_HOOK_NF_PRE_ROUTING; BF_HOOK_NF_LOCAL_IN;
   BF_HOOK_NF_FORWARD; BF_HOOK_CGROUP_INGRESS; BF_HOOK_CGROUP_EGRESS;
   BF_HOOK_NF_LOCAL_OUT; BF_HOOK_NF_POST_ROUTING; BF_HOOK_TC_EGRESS].

Definition bf_hook_to_Z (h : bf_hook) : Z :=
  match h with
  | BF_HOOK_XDP => 0 | BF_HOOK_TC_INGRESS => 1 | BF_HOOK_NF_PRE_ROUTING => 2
  | BF_HOOK_NF_LOCAL_IN => 3 | BF_HOOK_NF_FORWARD => 4 | BF_HOOK_CGROUP_INGRESS => 5
  | BF_HOOK_CGROUP_EGRESS => 6 | BF_HOOK_NF_LOCAL_OUT => 7 | BF_HOOK_NF_POST_ROUTING => 8
  | BF_HOOK_TC_EGRESS => 9 | bf_hook_other n => n
  end.

Definition bf_hook_of_Z (z : Z) : bf_hook :=
  match z with
  | 0 => BF_HOOK_XDP | 1 => BF_HOOK_TC_INGRESS | 2 => BF_HOOK_NF_PRE_ROUTING
  | 3 => BF_HOOK_NF_LOCAL_IN | 4 => BF_HOOK_NF_FORWARD | 5 => BF_HOOK_CGROUP_INGRESS
  | 6 => BF_HOOK_CGROUP_EGRESS | 7 => BF_HOOK_NF_LOCAL_OUT | 8 => BF_HOOK_NF_POST_ROUTING
  | 9 => BF_HOOK_TC_EGRESS | _ => bf_hook_other z
  end.

(** Reading an entry past the end of a table has no result. *)
Definition bf_hook_to_str (hook : bf_hook) : option string :=
  match hook with
  | BF_HOOK_XDP => Some "BF_HOOK_XDP"%string
  | BF_HOOK_TC_INGRESS => Some "BF_HOOK_TC_INGRESS"%string
  | BF_HOOK_NF_PRE_ROUTING => Some "BF_HOOK_NF_PRE_ROUTING"%string
  | BF_HOOK_NF_LOCAL_IN => Some "BF_HOOK_NF_LOCAL_IN"%string
  | BF_HOOK_CGROUP_INGRESS => Some "BF_HOOK_CGROUP_INGRESS"%string
  | BF_HOOK_CGROUP_EGRESS => Some "BF_HOOK_CGROUP_EGRESS"%string
  | BF_HOOK_NF_FORWARD => Some "BF_HOOK_NF_FORWARD"%string
  | BF_HOOK_NF_LOCAL_OUT => Some "BF_HOOK_NF_LOCAL_OUT"%string
  | BF_HOOK_NF_POST_ROUTING => Some "BF_HOOK_NF_POST_ROUTING"%string
  | BF_HOOK_TC_EGRESS => Some "BF_HOOK_TC_EGRESS"%string
  | bf_hook_other _ => None
  end.

(** Returns [-EINVAL] as a hook value when the name is unknown. *)
Definition bf_hook_from_str (str : string) : bf_hook :=
  match table_find bf_streq bf_hook_to_str bf_hook_vals str with
  | Some hook => hook
  | None => bf_hook_other (- EINVAL)
  end.

Definition bf_hook_to_flavor (hook : bf_hook) : option bf_flavor :=
  match hook with
  | BF_HOOK_XDP => Some BF_FLAVOR_XDP
  | BF_HOOK_TC_INGRESS => Some BF_FLAVOR_TC
  | BF_HOOK_NF_PRE_ROUTING => Some BF_FLAVOR_NF
  | BF_HOOK_NF_LOCAL_IN => Some BF_FLAVOR_NF
  | BF_HOOK_CGROUP_INGRESS => Some BF_FLAVOR_CGROUP
  | BF_HOOK_CGROUP_EGRESS => Some BF_FLAVOR_CGROUP
  | BF_HOOK_NF_FORWARD => Some BF_FLAVOR_NF
  | BF_HOOK_NF_LOCAL_OUT => Some BF_FLAVOR_NF
  | BF_HOOK_NF_POST_ROUTING => Some BF_FLAVOR_NF
  | BF_HOOK_TC_EGRESS => Some BF_FLAVOR_TC
  | bf_hook_other _ => None
  end.

Inductive bf_bpf_attach_type : Type :=
| BF_BPF_XDP
| BF_BPF_TCX_INGRESS
| BF_BPF_TCX_ENGRESS
| BF_BPF_NETFILTER
| BF_BPF_CGROUP_INET_INGRESS
| BF_BPF_CGROUP_INET_EGRESS.

Definition bf_hook_to_bpf_attach_type (hook : bf_hook) : option bf_bpf_attach_type :=
  match hook with
  | BF_HOOK_XDP => Some BF_BPF_XDP
  | BF_HOOK_TC_INGRESS => Some BF_BPF_TCX_INGRESS
  | BF_HOOK_NF_PRE_ROUTING => Some BF_BPF_NETFILTER
  | BF_HOOK_NF_LOCAL_IN => Some BF_BPF_NETFILTER
  | BF_HOOK_CGROUP_INGRESS => Some BF_BPF_CGROUP_INET_INGRESS
  | BF_HOOK_CGROUP_EGRESS => Some BF_BPF_CGROUP_INET_EGRESS
  | BF_HOOK_NF_FORWARD => Some BF_BPF_NETFILTER
  | BF_HOOK_NF_LOCAL_OUT => Some BF_BPF_NETFILTER
  | BF_HOOK_NF_POST_ROUTING => Some BF_BPF_NETFILTER
  | BF_HOOK_TC_EGRESS => Some BF_BPF_TCX_ENGRESS
  | bf_hook_other _ => None
  end.

Inductive bf_bpf_prog_type : Type :=
| BF_BPF_PROG_TYPE_XDP
| BF_BPF_PROG_TYPE_SCHED_CLS
| BF_BPF_PROG_TYPE_NETFILTER
| BF_BPF_PROG_TYPE_CGROUP_SKB.

Definition bf_hook_to_bpf_prog_type (hook : bf_hook) : option bf_bpf_prog_type :=
  match hook with
  | BF_HOOK_XDP => Some BF_BPF_PROG_TYPE_XDP
  | BF_HOOK_TC_INGRESS => Some BF_BPF_PROG_TYPE_SCHED_CLS
  | BF_HOOK_NF_PRE_ROUTING => Some BF_BPF_PROG_TYPE_NETFILTER
  | BF_HOOK_NF_LOCAL_IN => Some BF_BPF_PROG_TYPE_NETFILTER
  | BF_HOOK_CGROUP_INGRESS => Some BF_BPF_PROG_TYPE_CGROUP_SKB
  | BF_HOOK_CGROUP_EGRESS => Some BF_BPF_PROG_TYPE_CGROUP_SKB
  | BF_HOOK_NF_FORWARD => Some BF_BPF_PROG_TYPE_NETFILTER
  | BF_HOOK_NF_LOCAL_OUT => Some BF_BPF_PROG_TYPE_NETFILTER
  | BF_HOOK_NF_POST_ROUTING => Some BF_BPF_PROG_TYPE_NETFILTER
  | BF_HOOK_TC_EGRESS => Some BF_BPF_PROG_TYPE_SCHED_CLS
  | bf_hook_other _ => None
  end.

Inductive bf_nf_inet_hooks : Type :=
| BF_NF_INET_PRE_ROUTING
| BF_NF_INET_LOCAL_IN
| BF_NF_INET_FORWARD
| BF_NF_INET_LOCAL_OUT
| BF_NF_INET_POST_ROUTING
| bf_nf_inet_hooks_other (n : Z).

Definition bf_hook_to_nf_hook (hook : bf_hook) : bf_nf_inet_hooks :=
  match hook with
  | BF_HOOK_NF_PRE_ROUTING => BF_NF_INET_PRE_ROUTING
  | BF_HOOK_NF_LOCAL_IN => BF_NF_INET_LOCAL_IN
  | BF_HOOK_NF_FORWARD => BF_NF_INET_FORWARD
  | BF_HOOK_NF_LOCAL_OUT => BF_NF_INET_LOCAL_OUT
  | BF_HOOK_NF_POST_ROUTING => BF_NF_INET_POST_ROUTING
  | _ => bf_nf_inet_hooks_other (- EINVAL)
  end.

Definition bf_hook_from_nf_hook (hook : bf_nf_inet_hooks) : bf_hook :=
  match hook with
  | BF_NF_INET_PRE_ROUTING => BF_HOOK_NF_PRE_ROUTING
  | BF_NF_INET_LOCAL_IN => BF_HOOK_NF_LOCAL_IN
  | BF_NF_INET_FORWARD => BF_HOOK_NF_FORWARD
  | BF_NF_INET_LOCAL_OUT => BF_HOOK_NF_LOCAL_OUT
  | BF_NF_INET_POST_ROUTING => BF_HOOK_NF_POST_ROUTING
  | bf_nf_inet_hooks_other _ => bf_hook_other (- EINVAL)
  end.

Definition bf_nf_hook_to_str (hook : bf_nf_inet_hooks) : option string :=
  match hook with
  | BF_NF_INET_PRE_ROUTING => Some "nf_prerouting"%string
  | BF_NF_INET_LOCAL_IN => Some "nf_input"%string
  | BF_NF_INET_FORWARD => Some "nf_forward"%string
  | BF_NF_INET_LOCAL_OUT => Some "nf_output"%string
  | BF_NF_INET_POST_ROUTING => Some "nf_postrouting"%string
  | bf_nf_inet_hooks_other _ => None
  end.

(** * Lemmas *)

Lemma bf_verdict_of_to_Z v : (forall n, v <> bf_verdict_other n) ->
  bf_verdict_of_Z (bf_verdict_to_Z v) = v.
Proof. destruct v; try done. intros H. by destruct (H n). Qed.

Lemma bf_verdict_to_of_Z z : bf_verdict_to_Z (bf_verdict_of_Z z) = z.
Proof. destruct z as [|[[]|[]|]|]; done. Qed.

Lemma bf_hook_to_of_Z z : bf_hook_to_Z (bf_hook_of_Z z) = z.
Proof. destruct z as [|[[[[]|[]|]|[[]|[]|]|]|[[[]|[]|]|[[]|[]|]|]|]|]; done. Qed.

Lemma bf_hook_of_to_Z h : (forall n, h <> bf_hook_other n) -> bf_hook_of_Z (bf_hook_to_Z h) = h.
Proof. destruct h; try done. intros H. by destruct (H n). Qed.
