(* ===== verification/Hookopts.v ===== *)
(** Hook options: [struct bf_hookopts] of [src/libbpfilter/hook.c], their
    parsing and their validation against a hook. *)

From S2P Require Import Prelude Helper CString Hook.
From Stdlib Require Import Ascii.

Inductive bf_hookopts_type : Type :=
| BF_HOOKOPTS_IFINDEX
| BF_HOOKOPTS_CGPATH
| BF_HOOKOPTS_FAMILY
| BF_HOOKOPTS_PRIORITIES.

#[global] Instance bf_hookopts_type_eq_dec : EqDecision bf_hookopts_type.
Proof. solve_decision. Defined.

Definition bf_hookopts_type_vals : list bf_hookopts_type :=
  [BF_HOOKOPTS_IFINDEX; BF_HOOKOPTS_CGPATH; BF_HOOKOPTS_FAMILY; BF_HOOKOPTS_PRIORITIES].

Definition hookopts_type_to_Z (t : bf_hookopts_type) : Z :=
  match t with
  | BF_HOOKOPTS_IFINDEX => 0 | BF_HOOKOPTS_CGPATH => 1
  | BF_HOOKOPTS_FAMILY => 2 | BF_HOOKOPTS_PRIORITIES => 3
  end.

Record bf_hookopts : Type := mk_hookopts {
  ho_used_opts : Z;
  ho_ifindex : Z;
  ho_cgpath : option string;
  ho_family : Z;
  ho_priority0 : Z;
  ho_priority1 : Z
}.

Definition PF_INET : Z := 2.
Definition PF_INET6 : Z := 10.

Definition bf_hookopts_new : bf_hookopts := mk_hookopts 0 0 None 0 0 0.

Definition hookopts_flag (t : bf_hookopts_type) : Z := BF_FLAG (hookopts_type_to_Z t).

Definition bf_hookopts_is_used (ho : bf_hookopts) (t : bf_hookopts_type) : bool :=
  negb (Z.land (ho_used_opts ho) (hookopts_flag t) =? 0).

Definition hookopts_use (t : bf_hookopts_type) (ho : bf_hookopts) : bf_hookopts :=
  mk_hookopts (Z.lor (ho_used_opts ho) (hookopts_flag t)) (ho_ifindex ho) (ho_cgpath ho)
              (ho_family ho) (ho_priority0 ho) (ho_priority1 ho).
Definition with_ifindex (v : Z) (ho : bf_hookopts) : bf_hookopts :=
  mk_hookopts (ho_used_opts ho) v (ho_cgpath ho) (ho_family ho) (ho_priority0 ho) (ho_priority1 ho).
Definition with_cgpath (v : option string) (ho : bf_hookopts) : bf_hookopts :=
  mk_hookopts (ho_used_opts ho) (ho_ifindex ho) v (ho_family ho) (ho_priority0 ho) (ho_priority1 ho).
Definition with_family (v : Z) (ho : bf_hookopts) : bf_hookopts :=
  mk_hookopts (ho_used_opts ho) (ho_ifindex ho) (ho_cgpath ho) v (ho_priority0 ho) (ho_priority1 ho).
Definition with_priorities (v0 v1 : Z) (ho : bf_hookopts) : bf_hookopts :=
  mk_hookopts (ho_used_opts ho) (ho_ifindex ho) (ho_cgpath ho) (ho_family ho) v0 v1.

(** * Parsing *)

Definition _bf_hookopts_ifindex_parse (ho : bf_hookopts) (raw_opt : string) : res bf_hookopts :=
  let ifindex := strtoul raw_opt 0 in
  if su_erange ifindex then Err (- ERANGE)
  else if INT_MAX <? su_value ifindex then Err (- E2BIG)
  else Ok (hookopts_use BF_HOOKOPTS_IFINDEX (with_ifindex (su_value ifindex) ho)).

Definition _bf_hookopts_cgpath_parse (ho : bf_hookopts) (raw_opt : string) : res bf_hookopts :=
  Ok (hookopts_use BF_HOOKOPTS_CGPATH (with_cgpath (Some raw_opt) ho)).

Definition _bf_hookopts_family_parse (ho : bf_hookopts) (raw_opt : string) : res bf_hookopts :=
  let! family := (if bf_streq (Some "inet4"%string) (Some raw_opt) then Ok PF_INET
                  else if bf_streq (Some "inet6"%string) (Some raw_opt) then Ok PF_INET6
                  else Err (- ENOTSUP)) in
  Ok (hookopts_use BF_HOOKOPTS_FAMILY (with_family family ho)).

(** The part before the first [c] and the part after it. *)
Definition _bf_hookopts_priorities_parse (ho : bf_hookopts) (raw_opt : string) : res bf_hookopts :=
  match strchr raw_opt "-"%char with
  | None => Err (- EINVAL)
  | Some (copy, rest) =>
      if bool_decide (rest = EmptyString) then Err (- EINVAL)
      else
        let p0 := strtoul copy 0 in
        if su_erange p0 then Err (- EINVAL)
        else
          let p1 := strtoul rest 0 in
          if su_erange p1 then Err (- EINVAL)
          else if (INT_MAX <? su_value p0) || (INT_MAX <? su_value p1) then Err (- EINVAL)
          else if su_value p0 =? su_value p1 then Err (- EINVAL)
          else if (su_value p0 =? 0) || (su_value p1 =? 0) then Err (- EINVAL)
          else Ok (hookopts_use BF_HOOKOPTS_PRIORITIES (with_priorities (su_value p0) (su_value p1) ho))
  end.

(** * The table of options *)

Record bf_hookopts_ops : Type := mk_hookopts_ops {
  hop_name : string;
  hop_type : bf_hookopts_type;
  hop_supported_by : Z;
  hop_required_by : Z;
  hop_parse : bf_hookopts -> string -> res bf_hookopts
}.

Definition flavor_flag (f : bf_flavor) : Z := BF_FLAG (bf_flavor_to_Z f).

Definition _bf_hookopts_ops (t : bf_hookopts_type) : bf_hookopts_ops :=
  match t with
  | BF_HOOKOPTS_IFINDEX =>
      mk_hookopts_ops "ifindex" BF_HOOKOPTS_IFINDEX 0
        (Z.lor (flavor_flag BF_FLAVOR_XDP) (flavor_flag BF_FLAVOR_TC)) _bf_hookopts_ifindex_parse
  | BF_HOOKOPTS_CGPATH =>
      mk_hookopts_ops "cgpath" BF_HOOKOPTS_CGPATH 0 (flavor_flag BF_FLAVOR_CGROUP) _bf_hookopts_cgpath_parse
  | BF_HOOKOPTS_FAMILY =>
      mk_hookopts_ops "family" BF_HOOKOPTS_FAMILY 0 (flavor_flag BF_FLAVOR_NF) _bf_hookopts_family_parse
  | BF_HOOKOPTS_PRIORITIES =>
      mk_hookopts_ops "priorities" BF_HOOKOPTS_PRIORITIES 0 (flavor_flag BF_FLAVOR_NF)
        _bf_hookopts_priorities_parse
  end.

Definition _bf_hookopts_is_required (t : bf_hookopts_type) (f : bf_flavor) : bool :=
  negb (Z.land (hop_required_by (_bf_hookopts_ops t)) (flavor_flag f) =? 0).
Definition _bf_hookopts_is_supported (t : bf_hookopts_type) (f : bf_flavor) : bool :=
  negb (Z.land (hop_supported_by (_bf_hookopts_ops t)) (flavor_flag f) =? 0) ||
  _bf_hookopts_is_required t f.

Definition _bf_hookopts_get_ops (key : string) : option bf_hookopts_ops :=
  _bf_hookopts_ops <$>
  find (fun t => bf_streq (Some (hop_name (_bf_hookopts_ops t))) (Some key)) bf_hookopts_type_vals.

Definition bf_hookopts_parse_opt (ho : bf_hookopts) (raw_opt : string) : res bf_hookopts :=
  match strchr raw_opt "="%char with
  | None => Err (- ENOENT)
  | Some (key, value) =>
      match _bf_hookopts_get_ops key with
      | None => Err (- ENOTSUP)
      | Some ops => hop_parse ops ho value
      end
  end.

Fixpoint bf_hookopts_parse_opts (ho : bf_hookopts) (raw_opts : list string) : res bf_hookopts :=
  match raw_opts with
  | [] => Ok ho
  | o :: raw_opts => let! ho := bf_hookopts_parse_opt ho o in bf_hookopts_parse_opts ho raw_opts
  end.

(** * Validation *)

Fixpoint hookopts_validate_types (ho : bf_hookopts) (f : bf_flavor) (types : list bf_hookopts_type) :
    res unit :=
  match types with
  | [] => Ok tt
  | t :: types =>
      let used := bf_hookopts_is_used ho t in
      let is_required := _bf_hookopts_is_required t f in
      let is_supported := _bf_hookopts_is_supported t f in
      if is_required && negb used then Err (- EINVAL)
      else if used && negb (is_supported || is_required) then Err (- ENOTSUP)
      else hookopts_validate_types ho f types
  end.

(** The flavor of a hook is read out of a table. *)
Definition bf_hookopts_validate (ho : bf_hookopts) (hook : bf_hook) : res unit :=
  match bf_hook_to_flavor hook with
  | Some f => hookopts_validate_types ho f bf_hookopts_type_vals
  | None => Err (- BF_CRASH)
  end.

(** * Properties *)

(** The options a flavor needs. *)
Definition flavor_needs (f : bf_flavor) (t : bf_hookopts_type) : bool :=
  match f, t with
  | (BF_FLAVOR_XDP | BF_FLAVOR_TC), BF_HOOKOPTS_IFINDEX => true
  | BF_FLAVOR_CGROUP, BF_HOOKOPTS_CGPATH => true
  | BF_FLAVOR_NF, (BF_HOOKOPTS_FAMILY | BF_HOOKOPTS_PRIORITIES) => true
  | _, _ => false
  end.

Lemma hookopts_is_required t f : _bf_hookopts_is_required t f = flavor_needs f t.
Proof. by destruct t, f. Qed.
Lemma hookopts_is_supported t f : _bf_hookopts_is_supported t f = flavor_needs f t.
Proof. by destruct t, f. Qed.

Lemma hookopts_validate_types_ok ho f types :
  hookopts_validate_types ho f types = Ok tt <->
  Forall (fun t => bf_hookopts_is_used ho t = flavor_needs f t) types.
Proof.
  induction types as [|t types IH]; [done|]. cbn [hookopts_validate_types].
  rewrite hookopts_is_required, hookopts_is_supported, Forall_cons, <- IH.
  destruct (flavor_needs f t), (bf_hookopts_is_used ho t); cbn; naive_solver.
Qed.

Lemma hookopts_use_used t t' ho :
  bf_hookopts_is_used (hookopts_use t ho) t' = bf_hookopts_is_used ho t' || bool_decide (t = t').
Proof.
  unfold bf_hookopts_is_used, hookopts_use. cbn [ho_used_opts]. rewrite Z.land_lor_distr_l.
  assert (Z.land (hookopts_flag t) (hookopts_flag t') = if bool_decide (t = t') then hookopts_flag t else 0)
    as -> by (by destruct t, t').
  case_bool_decide; [|by rewrite Z.lor_0_r, orb_false_r].
  rewrite orb_true_r. apply negb_true_iff, Z.eqb_neq. intros [_ E]%Z.lor_eq_0_iff. by destruct t.
Qed.
