(* ===== verification/Matcher.v ===== *)
(** Matchers: the data, the table of matcher metadata and the constructors of
    [src/libbpfilter/matcher.c] and [matcher.h].

    A matcher's payload is the list of its bytes.  The entries of
    [_bf_matcher_metas] name their parse callback with a constructor of
    [matcher_parser]; the callbacks themselves are in [Payload]. *)

From S2P Require Import Prelude Helper.

(** * Types *)

Inductive bf_matcher_type : Type :=
| BF_MATCHER_META_IFACE
| BF_MATCHER_META_L3_PROTO
| BF_MATCHER_META_L4_PROTO
| BF_MATCHER_META_PROBABILITY
| BF_MATCHER_META_SPORT
| BF_MATCHER_META_DPORT
| BF_MATCHER_META_MARK
| BF_MATCHER_IP4_SADDR
| BF_MATCHER_IP4_SNET
| BF_MATCHER_IP4_DADDR
| BF_MATCHER_IP4_DNET
| BF_MATCHER_IP4_PROTO
| BF_MATCHER_IP6_SADDR
| BF_MATCHER_IP6_SNET
| BF_MATCHER_IP6_DADDR
| BF_MATCHER_IP6_DNET
| BF_MATCHER_IP6_NEXTHDR
| BF_MATCHER_TCP_SPORT
| BF_MATCHER_TCP_DPORT
| BF_MATCHER_TCP_FLAGS
| BF_MATCHER_UDP_SPORT
| BF_MATCHER_UDP_DPORT
| BF_MATCHER_ICMP_TYPE
| BF_MATCHER_ICMP_CODE
| BF_MATCHER_ICMPV6_TYPE
| BF_MATCHER_ICMPV6_CODE
| BF_MATCHER_SET
| bf_matcher_type_other (n : Z).

#[global] Instance bf_matcher_type_eq_dec : EqDecision bf_matcher_type.
Proof. solve_decision. Defined.

Definition bf_matcher_type_vals : list bf_matcher_type :=
  [BF_MATCHER_META_IFACE; BF_MATCHER_META_L3_PROTO; BF_MATCHER_META_L4_PROTO; BF_MATCHER_META_PROBABILITY;
   BF_MATCHER_META_SPORT; BF_MATCHER_META_DPORT; BF_MATCHER_META_MARK; BF_MATCHER_IP4_SADDR;
   BF_MATCHER_IP4_SNET; BF_MATCHER_IP4_DADDR; BF_MATCHER_IP4_DNET; BF_MATCHER_IP4_PROTO;
   BF_MATCHER_IP6_SADDR; BF_MATCHER_IP6_SNET; BF_MATCHER_IP6_DADDR; BF_MATCHER_IP6_DNET;
   BF_MATCHER_IP6_NEXTHDR; BF_MATCHER_TCP_SPORT; BF_MATCHER_TCP_DPORT; BF_MATCHER_TCP_FLAGS;
   BF_MATCHER_UDP_SPORT; BF_MATCHER_UDP_DPORT; BF_MATCHER_ICMP_TYPE; BF_MATCHER_ICMP_CODE;
   BF_MATCHER_ICMPV6_TYPE; BF_MATCHER_ICMPV6_CODE; BF_MATCHER_SET].

Definition _BF_MATCHER_TYPE_MAX : Z := 27.

Definition bf_matcher_type_to_Z (t : bf_matcher_type) : Z :=
  match t with
  | BF_MATCHER_META_IFACE => 0
  | BF_MATCHER_META_L3_PROTO => 1
  | BF_MATCHER_META_L4_PROTO => 2
  | BF_MATCHER_META_PROBABILITY => 3
  | BF_MATCHER_META_SPORT => 4
  | BF_MATCHER_META_DPORT => 5
  | BF_MATCHER_META_MARK => 6
  | BF_MATCHER_IP4_SADDR => 7
  | BF_MATCHER_IP4_SNET => 8
  | BF_MATCHER_IP4_DADDR => 9
  | BF_MATCHER_IP4_DNET => 10
  | BF_MATCHER_IP4_PROTO => 11
  | BF_MATCHER_IP6_SADDR => 12
  | BF_MATCHER_IP6_SNET => 13
  | BF_MATCHER_IP6_DADDR => 14
  | BF_MATCHER_IP6_DNET => 15
  | BF_MATCHER_IP6_NEXTHDR => 16
  | BF_MATCHER_TCP_SPORT => 17
  | BF_MATCHER_TCP_DPORT => 18
  | BF_MATCHER_TCP_FLAGS => 19
  | BF_MATCHER_UDP_SPORT => 20
  | BF_MATCHER_UDP_DPORT => 21
  | BF_MATCHER_ICMP_TYPE => 22
  | BF_MATCHER_ICMP_CODE => 23
  | BF_MATCHER_ICMPV6_TYPE => 24
  | BF_MATCHER_ICMPV6_CODE => 25
  | BF_MATCHER_SET => 26
  | bf_matcher_type_other n => n
  end.

Definition bf_matcher_type_of_Z (z : Z) : bf_matcher_type :=
  match z with
  | 0 => BF_MATCHER_META_IFACE
  | 1 => BF_MATCHER_META_L3_PROTO
  | 2 => BF_MATCHER_META_L4_PROTO
  | 3 => BF_MATCHER_META_PROBABILITY
  | 4 => BF_MATCHER_META_SPORT
  | 5 => BF_MATCHER_META_DPORT
  | 6 => BF_MATCHER_META_MARK
  | 7 => BF_MATCHER_IP4_SADDR
  | 8 => BF_MATCHER_IP4_SNET
  | 9 => BF_MATCHER_IP4_DADDR
  | 10 => BF_MATCHER_IP4_DNET
  | 11 => BF_MATCHER_IP4_PROTO
  | 12 => BF_MATCHER_IP6_SADDR
  | 13 => BF_MATCHER_IP6_SNET
  | 14 => BF_MATCHER_IP6_DADDR
  | 15 => BF_MATCHER_IP6_DNET
  | 16 => BF_MATCHER_IP6_NEXTHDR
  | 17 => BF_MATCHER_TCP_SPORT
  | 18 => BF_MATCHER_TCP_DPORT
  | 19 => BF_MATCHER_TCP_FLAGS
  | 20 => BF_MATCHER_UDP_SPORT
  | 21 => BF_MATCHER_UDP_DPORT
  | 22 => BF_MATCHER_ICMP_TYPE
  | 23 => BF_MATCHER_ICMP_CODE
  | 24 => BF_MATCHER_ICMPV6_TYPE
  | 25 => BF_MATCHER_ICMPV6_CODE
  | 26 => BF_MATCHER_SET
  | _ => bf_matcher_type_other z
  end.

Inductive bf_matcher_op : Type :=
| BF_MATCHER_EQ
| BF_MATCHER_NE
| BF_MATCHER_ANY
| BF_MATCHER_ALL
| BF_MATCHER_IN
| BF_MATCHER_RANGE
| bf_matcher_op_other (n : Z).

#[global] Instance bf_matcher_op_eq_dec : EqDecision bf_matcher_op.
Proof. solve_decision. Defined.

Definition bf_matcher_op_vals : list bf_matcher_op :=
  [BF_MATCHER_EQ; BF_MATCHER_NE; BF_MATCHER_ANY; BF_MATCHER_ALL; BF_MATCHER_IN; BF_MATCHER_RANGE].

Definition bf_matcher_op_to_Z (o : bf_matcher_op) : Z :=
  match o with
  | BF_MATCHER_EQ => 0
  | BF_MATCHER_NE => 1
  | BF_MATCHER_ANY => 2
  | BF_MATCHER_ALL => 3
  | BF_MATCHER_IN => 4
  | BF_MATCHER_RANGE => 5
  | bf_matcher_op_other n => n
  end.

Definition bf_matcher_op_of_Z (z : Z) : bf_matcher_op :=
  match z with
  | 0 => BF_MATCHER_EQ
  | 1 => BF_MATCHER_NE
  | 2 => BF_MATCHER_ANY
  | 3 => BF_MATCHER_ALL
  | 4 => BF_MATCHER_IN
  | 5 => BF_MATCHER_RANGE
  | _ => bf_matcher_op_other z
  end.

Inductive bf_matcher_layer : Type :=
| BF_MATCHER_NO_LAYER
| BF_MATCHER_LAYER_2
| BF_MATCHER_LAYER_3
| BF_MATCHER_LAYER_4.

#[global] Instance bf_matcher_layer_eq_dec : EqDecision bf_matcher_layer.
Proof. solve_decision. Defined.

(** [len] is [sizeof(struct bf_matcher)] plus the payload's length. *)
Record bf_matcher : Type := mk_matcher {
  matcher_type : bf_matcher_type;
  matcher_op : bf_matcher_op;
  matcher_payload : list Z
}.

Definition sizeof_bf_matcher : Z := 16.

(** * Constants of the protocol headers *)

Definition ETH_P_IP : Z := 0x0800.
Definition ETH_P_IPV6 : Z := 0x86DD.
Definition IPPROTO_HOPOPTS : Z := 0.
Definition IPPROTO_ICMP : Z := 1.
Definition IPPROTO_IGMP : Z := 2.
Definition IPPROTO_TCP : Z := 6.
Definition IPPROTO_UDP : Z := 17.
Definition IPPROTO_ROUTING : Z := 43.
Definition IPPROTO_FRAGMENT : Z := 44.
Definition IPPROTO_AH : Z := 51.
Definition IPPROTO_ICMPV6 : Z := 58.
Definition IPPROTO_DSTOPTS : Z := 60.
Definition IPPROTO_MH : Z := 135.

Definition offsetof_iphdr_protocol : Z := 9.
Definition offsetof_iphdr_saddr : Z := 12.
Definition offsetof_iphdr_daddr : Z := 16.
Definition offsetof_ipv6hdr_nexthdr : Z := 6.
Definition offsetof_ipv6hdr_saddr : Z := 8.
Definition offsetof_ipv6hdr_daddr : Z := 24.
Definition offsetof_l4_source : Z := 0.
Definition offsetof_l4_dest : Z := 2.
Definition offsetof_icmp_type : Z := 0.
Definition offsetof_icmp_code : Z := 1.
Definition _BF_TCP_FLAGS_OFFSET : Z := 13.

Definition sizeof_bf_ip4_lpm_key : Z := 8.
(** [prefixlen], 16 bytes of address and 4 of padding. *)
Definition sizeof_bf_ip6_lpm_key : Z := 24.

(** * Metadata *)

(** The parse callbacks. *)
Inductive matcher_parser : Type :=
| PARSE_iface | PARSE_l3_proto | PARSE_l4_proto | PARSE_l4_port | PARSE_l4_port_range
| PARSE_probability | PARSE_mark | PARSE_ipv4_addr | PARSE_ipv4_net | PARSE_ipv6_addr
| PARSE_ipv6_net | PARSE_tcp_flags | PARSE_icmp_type | PARSE_icmp_code | PARSE_icmpv6_type.

Record bf_matcher_ops : Type := mk_ops {
  ref_payload_size : Z;
  ops_parse : matcher_parser
}.

(** Operators without an entry are not supported. *)
Record bf_matcher_meta : Type := mk_meta {
  meta_layer : bf_matcher_layer;
  meta_hdr_id : Z;
  meta_hdr_payload_size : Z;
  meta_hdr_payload_offset : Z;
  meta_ops : list (bf_matcher_op * bf_matcher_ops)
}.

Definition meta_META_IFACE : bf_matcher_meta :=
  mk_meta BF_MATCHER_NO_LAYER 0 0 0
    [(BF_MATCHER_EQ, mk_ops 4 PARSE_iface)].

Definition meta_META_L3_PROTO : bf_matcher_meta :=
  mk_meta BF_MATCHER_NO_LAYER 0 0 0
    [(BF_MATCHER_EQ, mk_ops 2 PARSE_l3_proto)].

Definition meta_META_L4_PROTO : bf_matcher_meta :=
  mk_meta BF_MATCHER_NO_LAYER 0 0 0
    [(BF_MATCHER_EQ, mk_ops 2 PARSE_l4_proto);
     (BF_MATCHER_NE, mk_ops 2 PARSE_l4_proto)].

Definition meta_META_SPORT : bf_matcher_meta :=
  mk_meta BF_MATCHER_NO_LAYER 0 0 0
    [(BF_MATCHER_EQ, mk_ops 2 PARSE_l4_port);
     (BF_MATCHER_NE, mk_ops 2 PARSE_l4_port);
     (BF_MATCHER_RANGE, mk_ops 4 PARSE_l4_port_range)].

Definition meta_META_DPORT : bf_matcher_meta :=
  mk_meta BF_MATCHER_NO_LAYER 0 0 0
    [(BF_MATCHER_EQ, mk_ops 2 PARSE_l4_port);
     (BF_MATCHER_NE, mk_ops 2 PARSE_l4_port);
     (BF_MATCHER_RANGE, mk_ops 4 PARSE_l4_port_range)].

Definition meta_META_PROBABILITY : bf_matcher_meta :=
  mk_meta BF_MATCHER_NO_LAYER 0 0 0
    [(BF_MATCHER_EQ, mk_ops 1 PARSE_probability)].

Definition meta_META_MARK : bf_matcher_meta :=
  mk_meta BF_MATCHER_NO_LAYER 0 0 0
    [(BF_MATCHER_EQ, mk_ops 4 PARSE_mark);
     (BF_MATCHER_NE, mk_ops 4 PARSE_mark)].

Definition meta_IP4_SADDR : bf_matcher_meta :=
  mk_meta BF_MATCHER_LAYER_3 ETH_P_IP 4 offsetof_iphdr_saddr
    [(BF_MATCHER_EQ, mk_ops 4 PARSE_ipv4_addr);
     (BF_MATCHER_NE, mk_ops 4 PARSE_ipv4_addr);
     (BF_MATCHER_IN, mk_ops 4 PARSE_ipv4_addr)].

Definition meta_IP4_DADDR : bf_matcher_meta :=
  mk_meta BF_MATCHER_LAYER_3 ETH_P_IP 4 offsetof_iphdr_daddr
    [(BF_MATCHER_EQ, mk_ops 4 PARSE_ipv4_addr);
     (BF_MATCHER_NE, mk_ops 4 PARSE_ipv4_addr);
     (BF_MATCHER_IN, mk_ops 4 PARSE_ipv4_addr)].

Definition meta_IP4_SNET : bf_matcher_meta :=
  mk_meta BF_MATCHER_LAYER_3 ETH_P_IP 4 offsetof_iphdr_saddr
    [(BF_MATCHER_EQ, mk_ops sizeof_bf_ip4_lpm_key PARSE_ipv4_net);
     (BF_MATCHER_NE, mk_ops sizeof_bf_ip4_lpm_key PARSE_ipv4_net);
     (BF_MATCHER_IN, mk_ops sizeof_bf_ip4_lpm_key PARSE_ipv4_net)].

Definition meta_IP4_DNET : bf_matcher_meta :=
  mk_meta BF_MATCHER_LAYER_3 ETH_P_IP 4 offsetof_iphdr_daddr
    [(BF_MATCHER_EQ, mk_ops sizeof_bf_ip4_lpm_key PARSE_ipv4_net);
     (BF_MATCHER_NE, mk_ops sizeof_bf_ip4_lpm_key PARSE_ipv4_net);
     (BF_MATCHER_IN, mk_ops sizeof_bf_ip4_lpm_key PARSE_ipv4_net)].

Definition meta_IP4_PROTO : bf_matcher_meta :=
  mk_meta BF_MATCHER_LAYER_3 ETH_P_IP 1 offsetof_iphdr_protocol
    [(BF_MATCHER_EQ, mk_ops 1 PARSE_l4_proto);
     (BF_MATCHER_NE, mk_ops 1 PARSE_l4_proto);
     (BF_MATCHER_IN, mk_ops 1 PARSE_l4_proto)].

Definition meta_IP6_SADDR : bf_matcher_meta :=
  mk_meta BF_MATCHER_LAYER_3 ETH_P_IPV6 16 offsetof_ipv6hdr_saddr
    [(BF_MATCHER_EQ, mk_ops 16 PARSE_ipv6_addr);
     (BF_MATCHER_NE, mk_ops 16 PARSE_ipv6_addr);
     (BF_MATCHER_IN, mk_ops 16 PARSE_ipv6_addr)].

Definition meta_IP6_DADDR : bf_matcher_meta :=
  mk_meta BF_MATCHER_LAYER_3 ETH_P_IPV6 16 offsetof_ipv6hdr_daddr
    [(BF_MATCHER_EQ, mk_ops 16 PARSE_ipv6_addr);
     (BF_MATCHER_NE, mk_ops 16 PARSE_ipv6_addr);
     (BF_MATCHER_IN, mk_ops 16 PARSE_ipv6_addr)].

Definition meta_IP6_SNET : bf_matcher_meta :=
  mk_meta BF_MATCHER_LAYER_3 ETH_P_IPV6 16 offsetof_ipv6hdr_saddr
    [(BF_MATCHER_EQ, mk_ops sizeof_bf_ip6_lpm_key PARSE_ipv6_net);
     (BF_MATCHER_NE, mk_ops sizeof_bf_ip6_lpm_key PARSE_ipv6_net);
     (BF_MATCHER_IN, mk_ops sizeof_bf_ip6_lpm_key PARSE_ipv6_net)].

Definition meta_IP6_DNET : bf_matcher_meta :=
  mk_meta BF_MATCHER_LAYER_3 ETH_P_IPV6 16 offsetof_ipv6hdr_daddr
    [(BF_MATCHER_EQ, mk_ops sizeof_bf_ip6_lpm_key PARSE_ipv6_net);
     (BF_MATCHER_NE, mk_ops sizeof_bf_ip6_lpm_key PARSE_ipv6_net);
     (BF_MATCHER_IN, mk_ops sizeof_bf_ip6_lpm_key PARSE_ipv6_net)].

Definition meta_IP6_NEXTHDR : bf_matcher_meta :=
  mk_meta BF_MATCHER_LAYER_3 ETH_P_IPV6 1 offsetof_ipv6hdr_nexthdr
    [(BF_MATCHER_EQ, mk_ops 1 PARSE_l4_proto);
     (BF_MATCHER_NE, mk_ops 1 PARSE_l4_proto);
     (BF_MATCHER_IN, mk_ops 1 PARSE_l4_proto)].

Definition meta_TCP_SPORT : bf_matcher_meta :=
  mk_meta BF_MATCHER_LAYER_4 IPPROTO_TCP 2 offsetof_l4_source
    [(BF_MATCHER_EQ, mk_ops 2 PARSE_l4_port);
     (BF_MATCHER_NE, mk_ops 2 PARSE_l4_port);
     (BF_MATCHER_IN, mk_ops 2 PARSE_l4_port);
     (BF_MATCHER_RANGE, mk_ops 4 PARSE_l4_port_range)].

Definition meta_TCP_DPORT : bf_matcher_meta :=
  mk_meta BF_MATCHER_LAYER_4 IPPROTO_TCP 2 offsetof_l4_dest
    [(BF_MATCHER_EQ, mk_ops 2 PARSE_l4_port);
     (BF_MATCHER_NE, mk_ops 2 PARSE_l4_port);
     (BF_MATCHER_IN, mk_ops 2 PARSE_l4_port);
     (BF_MATCHER_RANGE, mk_ops 4 PARSE_l4_port_range)].

Definition meta_UDP_SPORT : bf_matcher_meta :=
  mk_meta BF_MATCHER_LAYER_4 IPPROTO_UDP 2 offsetof_l4_source
    [(BF_MATCHER_EQ, mk_ops 2 PARSE_l4_port);
     (BF_MATCHER_NE, mk_ops 2 PARSE_l4_port);
     (BF_MATCHER_IN, mk_ops 2 PARSE_l4_port);
     (BF_MATCHER_RANGE, mk_ops 4 PARSE_l4_port_range)].

Definition meta_UDP_DPORT : bf_matcher_meta :=
  mk_meta BF_MATCHER_LAYER_4 IPPROTO_UDP 2 offsetof_l4_dest
    [(BF_MATCHER_EQ, mk_ops 2 PARSE_l4_port);
     (BF_MATCHER_NE, mk_ops 2 PARSE_l4_port);
     (BF_MATCHER_IN, mk_ops 2 PARSE_l4_port);
     (BF_MATCHER_RANGE, mk_ops 4 PARSE_l4_port_range)].

Definition meta_TCP_FLAGS : bf_matcher_meta :=
  mk_meta BF_MATCHER_LAYER_4 IPPROTO_TCP 1 _BF_TCP_FLAGS_OFFSET
    [(BF_MATCHER_EQ, mk_ops 1 PARSE_tcp_flags);
     (BF_MATCHER_NE, mk_ops 1 PARSE_tcp_flags);
     (BF_MATCHER_ANY, mk_ops 1 PARSE_tcp_flags);
     (BF_MATCHER_ALL, mk_ops 1 PARSE_tcp_flags)].

Definition meta_ICMP_TYPE : bf_matcher_meta :=
  mk_meta BF_MATCHER_LAYER_4 IPPROTO_ICMP 1 offsetof_icmp_type
    [(BF_MATCHER_EQ, mk_ops 1 PARSE_icmp_type);
     (BF_MATCHER_NE, mk_ops 1 PARSE_icmp_type);
     (BF_MATCHER_IN, mk_ops 1 PARSE_icmp_type)].

Definition meta_ICMP_CODE : bf_matcher_meta :=
  mk_meta BF_MATCHER_LAYER_4 IPPROTO_ICMP 1 offsetof_icmp_code
    [(BF_MATCHER_EQ, mk_ops 1 PARSE_icmp_code);
     (BF_MATCHER_NE, mk_ops 1 PARSE_icmp_code);
     (BF_MATCHER_IN, mk_ops 1 PARSE_icmp_code)].

Definition meta_ICMPV6_TYPE : bf_matcher_meta :=
  mk_meta BF_MATCHER_LAYER_4 IPPROTO_ICMPV6 1 offsetof_icmp_type
    [(BF_MATCHER_EQ, mk_ops 1 PARSE_icmpv6_type);
     (BF_MATCHER_NE, mk_ops 1 PARSE_icmpv6_type);
     (BF_MATCHER_IN, mk_ops 1 PARSE_icmpv6_type)].

Definition meta_ICMPV6_CODE : bf_matcher_meta :=
  mk_meta BF_MATCHER_LAYER_4 IPPROTO_ICMPV6 1 offsetof_icmp_code
    [(BF_MATCHER_EQ, mk_ops 1 PARSE_icmp_code);
     (BF_MATCHER_NE, mk_ops 1 PARSE_icmp_code);
     (BF_MATCHER_IN, mk_ops 1 PARSE_icmp_code)].

(** [_BF_MATCHER_LAYER_UNDEFINED] rows and out-of-range types have no metadata. *)
Definition bf_matcher_get_meta (type : bf_matcher_type) : option bf_matcher_meta :=
  match type with
  | BF_MATCHER_META_IFACE => Some meta_META_IFACE
  | BF_MATCHER_META_L3_PROTO => Some meta_META_L3_PROTO
  | BF_MATCHER_META_L4_PROTO => Some meta_META_L4_PROTO
  | BF_MATCHER_META_PROBABILITY => Some meta_META_PROBABILITY
  | BF_MATCHER_META_SPORT => Some meta_META_SPORT
  | BF_MATCHER_META_DPORT => Some meta_META_DPORT
  | BF_MATCHER_META_MARK => Some meta_META_MARK
  | BF_MATCHER_IP4_SADDR => Some meta_IP4_SADDR
  | BF_MATCHER_IP4_SNET => Some meta_IP4_SNET
  | BF_MATCHER_IP4_DADDR => Some meta_IP4_DADDR
  | BF_MATCHER_IP4_DNET => Some meta_IP4_DNET
  | BF_MATCHER_IP4_PROTO => Some meta_IP4_PROTO
  | BF_MATCHER_IP6_SADDR => Some meta_IP6_SADDR
  | BF_MATCHER_IP6_SNET => Some meta_IP6_SNET
  | BF_MATCHER_IP6_DADDR => Some meta_IP6_DADDR
  | BF_MATCHER_IP6_DNET => Some meta_IP6_DNET
  | BF_MATCHER_IP6_NEXTHDR => Some meta_IP6_NEXTHDR
  | BF_MATCHER_TCP_SPORT => Some meta_TCP_SPORT
  | BF_MATCHER_TCP_DPORT => Some meta_TCP_DPORT
  | BF_MATCHER_TCP_FLAGS => Some meta_TCP_FLAGS
  | BF_MATCHER_UDP_SPORT => Some meta_UDP_SPORT
  | BF_MATCHER_UDP_DPORT => Some meta_UDP_DPORT
  | BF_MATCHER_ICMP_TYPE => Some meta_ICMP_TYPE
  | BF_MATCHER_ICMP_CODE => Some meta_ICMP_CODE
  | BF_MATCHER_ICMPV6_TYPE => Some meta_ICMPV6_TYPE
  | BF_MATCHER_ICMPV6_CODE => Some meta_ICMPV6_CODE
  | BF_MATCHER_SET | bf_matcher_type_other _ => None
  end.

Fixpoint ops_lookup (op : bf_matcher_op) (l : list (bf_matcher_op * bf_matcher_ops)) :
    option bf_matcher_ops :=
  match l with
  | [] => None
  | (o, ops) :: l => if decide (o = op) then Some ops else ops_lookup op l
  end.

Definition bf_matcher_get_ops (type : bf_matcher_type) (op : bf_matcher_op) :
    option bf_matcher_ops :=
  match bf_matcher_get_meta type with
  | None => None
  | Some meta => ops_lookup op (meta_ops meta)
  end.

(** * Construction *)

Definition bf_matcher_new (type : bf_matcher_type) (op : bf_matcher_op) (payload : list Z) :
    bf_matcher := mk_matcher type op payload.

Definition bf_matcher_get_type (m : bf_matcher) : bf_matcher_type := matcher_type m.
Definition bf_matcher_get_op (m : bf_matcher) : bf_matcher_op := matcher_op m.
Definition bf_matcher_payload_len (m : bf_matcher) : Z := Z.of_nat (length (matcher_payload m)).
Definition bf_matcher_len (m : bf_matcher) : Z := sizeof_bf_matcher + bf_matcher_payload_len m.

(** Typed reads of the payload: [*(uint8_t * )payload] and so on, and the
    [i]-th element of a [uint16_t] array. *)
Definition payload_has (n : nat) (m : bf_matcher) : res unit :=
  if (n <=? length (matcher_payload m))%nat then Ok tt else Err (- BF_CRASH).

Definition payload_u8 (m : bf_matcher) : Z := le_combine (take 1 (matcher_payload m)).
Definition payload_u16 (m : bf_matcher) : Z := le_combine (take 2 (matcher_payload m)).
Definition payload_u16_at (i : nat) (m : bf_matcher) : Z :=
  le_combine (sub_bytes (2 * i) 2 (matcher_payload m)).
Definition payload_u32 (m : bf_matcher) : Z := le_combine (take 4 (matcher_payload m)).

(** * Names *)

Definition bf_matcher_type_strs (type : bf_matcher_type) : option string :=
  match type with
  | BF_MATCHER_META_IFACE => Some "meta.iface"%string
  | BF_MATCHER_META_L3_PROTO => Some "meta.l3_proto"%string
  | BF_MATCHER_META_L4_PROTO => Some "meta.l4_proto"%string
  | BF_MATCHER_META_PROBABILITY => Some "meta.probability"%string
  | BF_MATCHER_META_SPORT => Some "meta.sport"%string
  | BF_MATCHER_META_DPORT => Some "meta.dport"%string
  | BF_MATCHER_META_MARK => Some "meta.mark"%string
  | BF_MATCHER_IP4_SADDR => Some "ip4.saddr"%string
  | BF_MATCHER_IP4_SNET => Some "ip4.snet"%string
  | BF_MATCHER_IP4_DADDR => Some "ip4.daddr"%string
  | BF_MATCHER_IP4_DNET => Some "ip4.dnet"%string
  | BF_MATCHER_IP4_PROTO => Some "ip4.proto"%string
  | BF_MATCHER_IP6_SADDR => Some "ip6.saddr"%string
  | BF_MATCHER_IP6_SNET => Some "ip6.snet"%string
  | BF_MATCHER_IP6_DADDR => Some "ip6.daddr"%string
  | BF_MATCHER_IP6_DNET => Some "ip6.dnet"%string
  | BF_MATCHER_IP6_NEXTHDR => Some "ip6.nexthdr"%string
  | BF_MATCHER_TCP_SPORT => Some "tcp.sport"%string
  | BF_MATCHER_TCP_DPORT => Some "tcp.dport"%string
  | BF_MATCHER_TCP_FLAGS => Some "tcp.flags"%string
  | BF_MATCHER_UDP_SPORT => Some "udp.sport"%string
  | BF_MATCHER_UDP_DPORT => Some "udp.dport"%string
  | BF_MATCHER_ICMP_TYPE => Some "icmp.type"%string
  | BF_MATCHER_ICMP_CODE => Some "icmp.code"%string
  | BF_MATCHER_ICMPV6_TYPE => Some "icmpv6.type"%string
  | BF_MATCHER_ICMPV6_CODE => Some "icmpv6.code"%string
  | BF_MATCHER_SET => Some "<set>"%string
  | bf_matcher_type_other _ => None
  end.

Definition bf_matcher_type_to_str (type : bf_matcher_type) : string :=
  default "<invalid>"%string (bf_matcher_type_strs type).

Definition bf_matcher_type_from_str (str : string) : res bf_matcher_type :=
  of_option (- EINVAL) (table_find bf_streq bf_matcher_type_strs bf_matcher_type_vals str).

Definition bf_matcher_op_to_str (op : bf_matcher_op) : option string :=
  match op with
  | BF_MATCHER_EQ => Some "eq"%string
  | BF_MATCHER_NE => Some "not"%string
  | BF_MATCHER_ANY => Some "any"%string
  | BF_MATCHER_ALL => Some "all"%string
  | BF_MATCHER_IN => Some "in"%string
  | BF_MATCHER_RANGE => Some "range"%string
  | bf_matcher_op_other _ => None
  end.

Definition bf_matcher_op_from_str (str : string) : res bf_matcher_op :=
  of_option (- EINVAL) (table_find bf_streq bf_matcher_op_to_str bf_matcher_op_vals str).

Inductive bf_tcp_flag : Type :=
| BF_TCP_FIN | BF_TCP_SYN | BF_TCP_RST | BF_TCP_PSH | BF_TCP_ACK | BF_TCP_URG | BF_TCP_ECE | BF_TCP_CWR.

#[global] Instance bf_tcp_flag_eq_dec : EqDecision bf_tcp_flag.
Proof. solve_decision. Defined.

Definition bf_tcp_flag_vals : list bf_tcp_flag :=
  [BF_TCP_FIN; BF_TCP_SYN; BF_TCP_RST; BF_TCP_PSH; BF_TCP_ACK; BF_TCP_URG; BF_TCP_ECE; BF_TCP_CWR].

Definition bf_tcp_flag_to_Z (f : bf_tcp_flag) : Z :=
  match f with
  | BF_TCP_FIN => 0
  | BF_TCP_SYN => 1
  | BF_TCP_RST => 2
  | BF_TCP_PSH => 3
  | BF_TCP_ACK => 4
  | BF_TCP_URG => 5
  | BF_TCP_ECE => 6
  | BF_TCP_CWR => 7
  end.

Definition bf_tcp_flag_to_str (flag : bf_tcp_flag) : option string :=
  match flag with
  | BF_TCP_FIN => Some "fin"%string
  | BF_TCP_SYN => Some "syn"%string
  | BF_TCP_RST => Some "rst"%string
  | BF_TCP_PSH => Some "psh"%string
  | BF_TCP_ACK => Some "ack"%string
  | BF_TCP_URG => Some "urg"%string
  | BF_TCP_ECE => Some "ece"%string
  | BF_TCP_CWR => Some "cwr"%string
  end.

Definition bf_tcp_flag_from_str (str : string) : res bf_tcp_flag :=
  of_option (- EINVAL) (table_find bf_streq_i bf_tcp_flag_to_str bf_tcp_flag_vals str).

Definition bf_ethertype_to_str (ethertype : Z) : option string :=
  if ethertype =? ETH_P_IP then Some "ipv4"%string
  else if ethertype =? ETH_P_IPV6 then Some "ipv6"%string
  else None.

Definition bf_ethertype_from_str (str : string) : res Z :=
  if bf_streq_i (Some str) (Some "ipv4"%string) then Ok ETH_P_IP
  else if bf_streq_i (Some str) (Some "ipv6"%string) then Ok ETH_P_IPV6
  else Err (- EINVAL).

(** The tables indexed by a byte: most entries are NULL, and a search walks the
    256 indices. *)
Definition byte_vals : list Z := seqZ 0 256.

Definition bf_ipproto_to_str (v : Z) : option string :=
  match v with
  | 0 => Some "hop"%string
  | 1 => Some "icmp"%string
  | 2 => Some "igmp"%string
  | 6 => Some "tcp"%string
  | 17 => Some "udp"%string
  | 43 => Some "routing"%string
  | 44 => Some "frag"%string
  | 51 => Some "ah"%string
  | 60 => Some "dst"%string
  | 58 => Some "icmpv6"%string
  | 135 => Some "mh"%string
  | _ => None
  end.

Definition bf_ipproto_from_str (str : string) : res Z :=
  of_option (- EINVAL) (table_find bf_streq_i bf_ipproto_to_str byte_vals str).

Definition bf_icmp_type_to_str (v : Z) : option string :=
  match v with
  | 0 => Some "echo-reply"%string
  | 3 => Some "destination-unreachable"%string
  | 4 => Some "source-quench"%string
  | 5 => Some "redirect"%string
  | 8 => Some "echo-request"%string
  | 9 => Some "router-advertisement"%string
  | 10 => Some "router-solicitation"%string
  | 11 => Some "time-exceeded"%string
  | 12 => Some "parameter-problem"%string
  | 13 => Some "timestamp-request"%string
  | 14 => Some "timestamp-reply"%string
  | 15 => Some "info-request"%string
  | 16 => Some "info-reply"%string
  | 17 => Some "address-mask-request"%string
  | 18 => Some "address-mask-reply"%string
  | _ => None
  end.

Definition bf_icmp_type_from_str (str : string) : res Z :=
  of_option (- EINVAL) (table_find bf_streq_i bf_icmp_type_to_str byte_vals str).

Definition bf_icmpv6_type_to_str (v : Z) : option string :=
  match v with
  | 1 => Some "destination-unreachable"%string
  | 2 => Some "packet-too-big"%string
  | 3 => Some "time-exceeded"%string
  | 4 => Some "parameter-problem"%string
  | 128 => Some "echo-request"%string
  | 129 => Some "echo-reply"%string
  | 130 => Some "mld-listener-query"%string
  | 131 => Some "mld-listener-report"%string
  | 132 => Some "mld-listener-reduction"%string
  | 133 => Some "nd-router-solicit"%string
  | 134 => Some "nd-router-advert"%string
  | 135 => Some "nd-neighbor-solicit"%string
  | 136 => Some "nd-neighbor-advert"%string
  | 143 => Some "mld2-listener-report"%string
  | _ => None
  end.

Definition bf_icmpv6_type_from_str (str : string) : res Z :=
  of_option (- EINVAL) (table_find bf_streq_i bf_icmpv6_type_to_str byte_vals str).

(** * Lemmas *)

Lemma bf_matcher_type_of_to_Z t : (forall n, t <> bf_matcher_type_other n) ->
  bf_matcher_type_of_Z (bf_matcher_type_to_Z t) = t.
Proof. destruct t; try done. intros H. by destruct (H n). Qed.

Lemma bf_matcher_op_of_to_Z o : (forall n, o <> bf_matcher_op_other n) ->
  bf_matcher_op_of_Z (bf_matcher_op_to_Z o) = o.
Proof. destruct o; try done. intros H. by destruct (H n). Qed.

(** Every supported matcher and operator has a payload. *)
Lemma get_ops_payload_size t op ops : bf_matcher_get_ops t op = Some ops ->
  1 <= ref_payload_size ops <= 24.
Proof.
  unfold bf_matcher_get_ops. destruct t; cbn; try done;
    repeat case_decide; intros; simplify_eq; by vm_compute.
Qed.
