(* ===== verification/Payload.v ===== *)
(** The payloads of matchers as text: the functions [_bf_parse_<payload>] and
    [_bf_print_<payload>] of [src/libbpfilter/matcher.c],
    [bf_matcher_new_from_raw], and the names of interfaces ([if.c]).

    A parser writes in a payload that has been allocated and not initialised:
    it takes what the memory holds and returns what it holds next.  The type and
    the operator it is given only appear in its error message.  A printer is the
    text it writes. *)

From S2P Require Import Prelude Helper CString Printf Inet Hook Matcher.
From Stdlib Require Import Ascii.

(** The interfaces of the system: the name of an index, the index of a name or
    0 ([if_indextoname], [if_nametoindex]). *)
Class Ifaces : Type := { if_nametoindex : string -> Z; if_indextoname : Z -> option string }.

Section Payload.
Context `{Ifaces}.

Definition bf_if_index_from_name (name : string) : Z :=
  let r := if_nametoindex name in
  if r =? 0 then - ENOENT else if INT_MAX <? r then - E2BIG else r.

Definition bf_if_name_from_index (index : Z) : option string := if_indextoname (u32 index).

Record bf_if_iface : Type := mk_iface { if_index : Z; if_name : string }.

Definition IF_NAMESIZE : nat := 16.

(** [if_nameindex] fails with the value of [errno].  The name of an interface is copied
    when its index is not 0, and is not initialised otherwise. *)
Definition bf_if_get_ifaces (nameindex : res (list bf_if_iface)) (uninit : string) : Z * list bf_if_iface :=
  match nameindex with
  | Err errno => (bf_err_r errno, [])
  | Ok ifaces =>
      (Z.of_nat (length ifaces),
       (fun i => mk_iface (if_index i) (if if_index i =? 0 then uninit else String.substring 0 IF_NAMESIZE (if_name i))) <$> ifaces)
  end.

(** * Reading and writing a payload *)

(** [bs] is written at the offset [o]. *)
Definition put (o : nat) (bs payload : list Z) : list Z := take o payload ++ bs ++ drop (o + length bs) payload.

Definition get (o n : nat) (payload : list Z) : Z := le_combine (sub_bytes o n payload).

(** [*endptr == '\0'] *)
Definition at_end (r : strtoul_res) : bool := match su_rest r with EmptyString => true | _ => false end.

Definition first_is (p : ascii -> bool) (s : string) : bool := match s with String c _ => p c | EmptyString => false end.

Abbreviation parser := (list Z -> string -> res (list Z)).

(** A number in the base, up to [max], as [n] bytes, or else what follows. *)
Definition parse_number (base max : Z) (n : nat) (payload : list Z) (raw : string) (otherwise : res (list Z)) : res (list Z) :=
  let r := strtoul raw base in
  if at_end r && (su_value r <=? max) then Ok (put 0 (le_split n (su_value r)) payload) else otherwise.

(** ** Interfaces *)

Definition _bf_parse_iface : parser := fun payload raw_payload =>
  let idx := bf_if_index_from_name raw_payload in
  if 0 <? idx then Ok (put 0 (le_split 4 idx) payload)
  else
    let r := strtoul raw_payload 10 in
    if at_end r && (0 <? su_value r) && (su_value r <=? UINT32_MAX) then Ok (put 0 (le_split 4 (su_value r)) payload)
    else Err (- EINVAL).

Definition _bf_print_iface (payload : list Z) : string :=
  let ifindex := get 0 4 payload in
  match bf_if_name_from_index (s32 ifindex) with Some name => name | None => fmt_u ifindex end.

(** ** Protocols *)

Definition _bf_parse_l3_proto : parser := fun payload raw_payload =>
  match bf_ethertype_from_str raw_payload with
  | Ok v => Ok (put 0 (le_split 2 v) payload)
  | Err _ => parse_number 10 UINT16_MAX 2 payload raw_payload
               (parse_number 16 UINT16_MAX 2 payload raw_payload (Err (- EINVAL)))
  end.

Definition _bf_print_l3_proto (payload : list Z) : string :=
  let v := get 0 2 payload in
  match bf_ethertype_to_str v with Some s => s | None => "0x" +s+ fmt_04x v end.

Definition _bf_parse_l4_proto : parser := fun payload raw_payload =>
  match bf_ipproto_from_str raw_payload with
  | Ok v => Ok (put 0 [v] payload)
  | Err _ => parse_number 10 UINT8_MAX 1 payload raw_payload (Err (- EINVAL))
  end.

Definition _bf_print_l4_proto (payload : list Z) : string :=
  let v := get 0 1 payload in match bf_ipproto_to_str v with Some s => s | None => fmt_u v end.

(** ** Ports *)

Definition _bf_parse_l4_port : parser := fun payload raw_payload =>
  let r := strtoul raw_payload 10 in
  if at_end r && (su_value r <=? UINT16_MAX) then Ok (put 0 (le_split 2 (htobe16 (su_value r))) payload)
  else Err (- EINVAL).

Definition _bf_print_l4_port (payload : list Z) : string := fmt_u (bswap16 (get 0 2 payload)).

Definition BF_PORT_RANGE_MAX_LEN : nat := 16.

Definition _bf_parse_l4_port_range : parser := fun payload raw_payload =>
  let buf := fst (bf_strncpy BF_PORT_RANGE_MAX_LEN raw_payload) in
  if negb (first_is isdigit raw_payload) then Err (- EINVAL)
  else
    match strtok_r buf "-" with
    | None => Err (- EINVAL)
    | Some (first, second) =>
        if negb (first_is (fun _ => true) second) then Err (- EINVAL)
        else
          let r0 := strtoul first 10 in
          if negb (at_end r0) || (UINT16_MAX <? su_value r0) then Err (- EINVAL)
          else
            let payload := put 0 (le_split 2 (su_value r0)) payload in
            let r1 := strtoul second 10 in
            if negb (at_end r1) || (UINT16_MAX <? su_value r1) then Err (- EINVAL)
            else
              let payload := put 2 (le_split 2 (su_value r1)) payload in
              if get 2 2 payload <? get 0 2 payload then Err (- EINVAL) else Ok payload
    end.

Definition _bf_print_l4_port_range (payload : list Z) : string :=
  fmt_u (get 0 2 payload) +s+ "-" +s+ fmt_u (get 2 2 payload).

(** ** Probability and mark *)

Definition _bf_parse_probability : parser := fun payload raw_payload =>
  let r := strtoul raw_payload 10 in
  if (su_rest r =? "%")%string && (su_value r <=? 100) then Ok (put 0 [su_value r] payload) else Err (- EINVAL).

Definition _bf_print_probability (payload : list Z) : string := fmt_u (get 0 1 payload) +s+ "%".

Definition _bf_parse_mark : parser := fun payload raw_payload =>
  let '(mark, endptr) := strtoll raw_payload 0 in
  if first_is (fun _ => true) endptr then Err (- EINVAL)
  else if mark <? 0 then Err (- EINVAL)
  else if UINT32_MAX <? mark then Err (- EINVAL)
  else Ok (put 0 (le_split 4 mark) payload).

Definition _bf_print_mark (payload : list Z) : string := "0x" +s+ fmt_x (get 0 4 payload).

(** ** Addresses and networks *)

Definition _bf_parse_ipv4_addr : parser := fun payload raw_payload =>
  match inet_pton4 raw_payload with Some a => Ok (put 0 a payload) | None => Err (- EINVAL) end.

Definition _bf_print_ipv4_addr (payload : list Z) : string := inet_ntop4 (sub_bytes 0 4 payload).

(** A network: the address after the prefix length, which is written last.  The
    comparison with the longest prefix is made on the 32 bits stored. *)
Definition parse_net (pton : string -> option (list Z)) (max_prefix : Z) (buf : string) (payload : list Z) : res (list Z) :=
  match strtok_r buf "/" with
  | None => Err (- EINVAL)
  | Some (strip, strmask) =>
      if negb (first_is (fun _ => true) strmask) then Err (- EINVAL)
      else
        match pton strip with
        | None => Err (- EINVAL)
        | Some a =>
            let payload := put 4 a payload in
            let r := strtoul strmask 10 in
            let payload := put 0 (le_split 4 (u32 (su_value r))) payload in
            if negb (at_end r) || (max_prefix <? get 0 4 payload) then Err (- EINVAL) else Ok payload
        end
  end.

Definition BF_IPV4_NET_MAX_LEN : nat := 32.

Definition _bf_parse_ipv4_net : parser := fun payload raw_payload =>
  let buf := fst (bf_strncpy BF_IPV4_NET_MAX_LEN raw_payload) in
  if negb (first_is isdigit raw_payload) then Err (- EINVAL) else parse_net inet_pton4 32 buf payload.

Definition _bf_print_ipv4_net (payload : list Z) : string :=
  inet_ntop4 (sub_bytes 4 4 payload) +s+ "/" +s+ fmt_u (get 0 4 payload).

Definition _bf_parse_ipv6_addr : parser := fun payload raw_payload =>
  match inet_pton6 raw_payload with Some a => Ok (put 0 a payload) | None => Err (- EINVAL) end.

Definition _bf_print_ipv6_addr (payload : list Z) : string := inet_ntop6 (sub_bytes 0 16 payload).

Definition BF_IPV6_NET_MAX_LEN : nat := 50.

Definition _bf_parse_ipv6_net : parser := fun payload raw_payload =>
  let buf := fst (bf_strncpy BF_IPV6_NET_MAX_LEN raw_payload) in
  if negb (first_is isalpha raw_payload) && negb (first_is isdigit raw_payload) &&
     negb (first_is (fun c => Ascii.eqb c ":") raw_payload)
  then Err (- EINVAL)
  else parse_net inet_pton6 128 buf payload.

Definition _bf_print_ipv6_net (payload : list Z) : string :=
  inet_ntop6 (sub_bytes 4 16 payload) +s+ "/" +s+ fmt_u (get 0 4 payload).

(** ** TCP flags *)

Definition add_flag (flags : Z) (token : string) : res Z :=
  let! new_flag := bf_tcp_flag_from_str token in
  Ok (Z.lor flags (u8 (Z.shiftl 1 (bf_tcp_flag_to_Z new_flag)))).

Definition _bf_parse_tcp_flags : parser := fun payload raw_payload =>
  match strtok_each "," add_flag raw_payload 0 with
  | Ok flags => Ok (put 0 [flags] payload)
  | Err _ => Err (- EINVAL)
  end.

(** The flags that are left are followed by a comma. *)
Fixpoint print_flags (flags : list bf_tcp_flag) (flag : Z) : string :=
  match flags with
  | [] => EmptyString
  | f :: flags =>
      if Z.testbit flag (bf_tcp_flag_to_Z f) then
        let flag := Z.clearbit flag (bf_tcp_flag_to_Z f) in
        default EmptyString (bf_tcp_flag_to_str f) +s+ (if flag =? 0 then EmptyString else ",") +s+ print_flags flags flag
      else print_flags flags flag
  end.

Definition _bf_print_tcp_flags (payload : list Z) : string := print_flags bf_tcp_flag_vals (get 0 1 payload).

(** ** ICMP *)

(** A name, or a decimal or hexadecimal number. *)
Definition parse_type_number (payload : list Z) (raw : string) : res (list Z) :=
  parse_number 10 UINT8_MAX 1 payload raw (parse_number 16 UINT8_MAX 1 payload raw (Err (- EINVAL))).

Definition _bf_parse_icmp_type : parser := fun payload raw_payload =>
  match bf_icmp_type_from_str raw_payload with
  | Ok v => Ok (put 0 [v] payload)
  | Err _ => parse_type_number payload raw_payload
  end.

Definition _bf_print_icmp_type (payload : list Z) : string :=
  let v := get 0 1 payload in match bf_icmp_type_to_str v with Some s => s | None => fmt_u v end.

Definition _bf_parse_icmp_code : parser := parse_type_number.
Definition _bf_print_icmp_code (payload : list Z) : string := fmt_u (get 0 1 payload).

Definition _bf_parse_icmpv6_type : parser := fun payload raw_payload =>
  match bf_icmpv6_type_from_str raw_payload with
  | Ok v => Ok (put 0 [v] payload)
  | Err _ => parse_type_number payload raw_payload
  end.

Definition _bf_print_icmpv6_type (payload : list Z) : string :=
  let v := get 0 1 payload in match bf_icmpv6_type_to_str v with Some s => s | None => fmt_u v end.

(** * Matchers *)

(** The callbacks of the table of metas: the two of a row are for the same
    payload. *)
Definition parse_with (p : matcher_parser) : parser :=
  match p with
  | PARSE_iface => _bf_parse_iface
  | PARSE_l3_proto => _bf_parse_l3_proto
  | PARSE_l4_proto => _bf_parse_l4_proto
  | PARSE_l4_port => _bf_parse_l4_port
  | PARSE_l4_port_range => _bf_parse_l4_port_range
  | PARSE_probability => _bf_parse_probability
  | PARSE_mark => _bf_parse_mark
  | PARSE_ipv4_addr => _bf_parse_ipv4_addr
  | PARSE_ipv4_net => _bf_parse_ipv4_net
  | PARSE_ipv6_addr => _bf_parse_ipv6_addr
  | PARSE_ipv6_net => _bf_parse_ipv6_net
  | PARSE_tcp_flags => _bf_parse_tcp_flags
  | PARSE_icmp_type => _bf_parse_icmp_type
  | PARSE_icmp_code => _bf_parse_icmp_code
  | PARSE_icmpv6_type => _bf_parse_icmpv6_type
  end.

Definition print_with (p : matcher_parser) : list Z -> string :=
  match p with
  | PARSE_iface => _bf_print_iface
  | PARSE_l3_proto => _bf_print_l3_proto
  | PARSE_l4_proto => _bf_print_l4_proto
  | PARSE_l4_port => _bf_print_l4_port
  | PARSE_l4_port_range => _bf_print_l4_port_range
  | PARSE_probability => _bf_print_probability
  | PARSE_mark => _bf_print_mark
  | PARSE_ipv4_addr => _bf_print_ipv4_addr
  | PARSE_ipv4_net => _bf_print_ipv4_net
  | PARSE_ipv6_addr => _bf_print_ipv6_addr
  | PARSE_ipv6_net => _bf_print_ipv6_net
  | PARSE_tcp_flags => _bf_print_tcp_flags
  | PARSE_icmp_type => _bf_print_icmp_type
  | PARSE_icmp_code => _bf_print_icmp_code
  | PARSE_icmpv6_type => _bf_print_icmpv6_type
  end.

(** The bytes a parser writes, and the printer of the same payload reads. *)
Definition written (p : matcher_parser) : nat :=
  match p with
  | PARSE_iface | PARSE_mark | PARSE_ipv4_addr | PARSE_l4_port_range => 4
  | PARSE_l3_proto | PARSE_l4_port => 2
  | PARSE_ipv4_net => 8
  | PARSE_ipv6_addr => 16
  | PARSE_ipv6_net => 20
  | _ => 1
  end.

(** [memory] is what the allocation holds. *)
Definition bf_matcher_new_from_raw (memory : list Z) (type : bf_matcher_type) (op : bf_matcher_op) (payload : string) :
    res bf_matcher :=
  match bf_matcher_get_ops type op with
  | None => Err (- ENOENT)
  | Some ops =>
      let! payload := parse_with (ops_parse ops) (take (Z.to_nat (ref_payload_size ops)) memory) payload in
      Ok (mk_matcher type op payload)
  end.
End Payload.
