(* ===== verification/PayloadSpec.v ===== *)
(** What the parsers and the printers of payloads promise: what is printed is
    parsed back, and what is parsed is a payload. *)

From S2P Require Import Prelude Helper CString Printf Inet Hook Matcher Payload.
From Stdlib Require Import Ascii.

#[global] Instance matcher_parser_eq_dec : EqDecision matcher_parser.
Proof. solve_decision. Defined.

Section Spec.
Context `{Ifaces}.

(** The payloads that a parser makes.  The index of an interface has the name it
    is printed with, or its number is the name of none. *)
Definition payload_ok (p : matcher_parser) (bs : list Z) : Prop :=
  match p with
  | PARSE_iface => 0 < get 0 4 bs
  | PARSE_l4_port_range => get 0 2 bs <= get 2 2 bs
  | PARSE_probability => get 0 1 bs <= 100
  | PARSE_ipv4_net => get 0 4 bs <= 32
  | PARSE_ipv6_net => get 0 4 bs <= 128
  | _ => True
  end.

Definition iface_named (bs : list Z) : Prop :=
  let i := get 0 4 bs in
  match if_indextoname i with
  | Some name => if_nametoindex name = i /\ i <= INT_MAX
  | None => if_nametoindex (fmt_u i) = 0
  end.

Definition printable (p : matcher_parser) (bs : list Z) : Prop :=
  match p with PARSE_iface => iface_named bs | _ => True end.

Lemma Ok_inj {A} (a b : A) : Ok a = Ok b -> a = b.
Proof. by intros [= ->]. Qed.

Lemma Forall_true_bool {A} (f : A -> bool) l : forallb f l = true -> Forall (fun x => f x = true) l.
Proof. intros Hf. apply Forall_forall. intros x Hx%list_elem_of_In. by apply (proj1 (forallb_forall f l) Hf). Qed.

(** * Bytes of a payload *)

Lemma get_range o n bs : is_bytes bs -> 0 <= get o n bs < 256 ^ Z.of_nat n.
Proof.
  intros Hb. unfold get. pose proof (le_combine_bound (sub_bytes o n bs) (is_bytes_sub o n bs Hb)) as Hr.
  assert (length (sub_bytes o n bs) <= n)%nat by (unfold sub_bytes; rewrite length_take; lia).
  split; [lia|]. eapply Z.lt_le_trans; [apply Hr|]. apply Z.pow_le_mono_r; lia.
Qed.

(** What [get] reads is what there is. *)
Lemma get_split o n bs : is_bytes bs -> (o + n <= length bs)%nat -> le_split n (get o n bs) = sub_bytes o n bs.
Proof.
  intros Hb Hl. unfold get. rewrite <- (le_split_combine (sub_bytes o n bs)) at 2 by by apply is_bytes_sub.
  f_equal. unfold sub_bytes. rewrite length_take, length_drop. lia.
Qed.

Lemma get_byte bs : is_bytes bs -> (1 <= length bs)%nat -> [get 0 1 bs] = take 1 bs.
Proof.
  intros Hb Hl. destruct bs as [|b bs]; [cbn in Hl; lia|]. unfold get, sub_bytes. cbn [take drop le_combine]. rewrite take_0. cbn [le_combine]. f_equal. lia.
Qed.

(** A payload that is written from its start. *)
Lemma put_start bs memory : put 0 bs memory = bs ++ drop (length bs) memory.
Proof. done. Qed.

Lemma sub_start n (bs : list Z) : sub_bytes 0 n bs = take n bs.
Proof. done. Qed.

Lemma put_get n bs memory : is_bytes bs -> (n <= length bs)%nat -> put 0 (le_split n (get 0 n bs)) memory = take n bs ++ drop n memory.
Proof. intros Hb Hl. rewrite get_split by done. rewrite put_start, sub_start, length_take. by rewrite Nat.min_l by lia. Qed.

(** ** Numbers *)

Lemma parse_u base n max payload z otherwise : base = 10 -> 0 <= z <= max -> max <= ULONG_MAX ->
  parse_number base max n payload (fmt_u z) otherwise = Ok (put 0 (le_split n z) payload).
Proof.
  intros -> Hz Hm. unfold parse_number. rewrite <- (append_nil (fmt_u z)), strtoul_u by (done || lia). cbn.
  by rewrite (proj2 (Z.leb_le z max)) by lia.
Qed.

Definition byte_parser (p : matcher_parser) : bool :=
  match p with
  | PARSE_l4_proto | PARSE_probability | PARSE_tcp_flags | PARSE_icmp_type | PARSE_icmp_code | PARSE_icmpv6_type => true
  | _ => false
  end.

(** The payload is only looked at through its first byte. *)
Lemma byte_parser_get p bs : byte_parser p = true -> is_bytes bs -> (1 <= length bs)%nat -> print_with p bs = print_with p [get 0 1 bs].
Proof.
  intros Hp Hb Hl. destruct bs as [|b bs]; [cbn in Hl; lia|]. assert (get 0 1 (b :: bs) = b) as -> by (unfold get, sub_bytes; cbn [take drop le_combine]; rewrite take_0; cbn [le_combine]; lia).
  assert (get 0 1 (b :: bs) = get 0 1 [b]) as E by done.
  destruct p; try done; cbn [print_with];
    unfold _bf_print_l4_proto, _bf_print_probability, _bf_print_tcp_flags, _bf_print_icmp_type, _bf_print_icmp_code, _bf_print_icmpv6_type;
    by rewrite E.
Qed.

(** * What is printed is parsed back *)

(** What a parser makes of the text of [bs]. *)
Definition reads_back (p : matcher_parser) (bs : list Z) : Prop :=
  forall memory, (written p <= length memory)%nat ->
    parse_with p memory (print_with p bs) = Ok (take (written p) bs ++ drop (written p) memory).

(** A byte is parsed from the text alone, then written. *)
Lemma byte_parser_put p s : byte_parser p = true ->
  exists r, forall memory, parse_with p memory s = (let! v := r in Ok (put 0 [v] memory)).
Proof.
  assert (forall base max x, (exists r, forall memory, x memory = (let! v := r in Ok (put 0 [v] memory))) ->
    exists r, forall memory, parse_number base max 1 memory s (x memory) = (let! v := r in Ok (put 0 [v] memory))) as Hn.
  { intros base max x [r Hr]. unfold parse_number. destruct (_ && _); [|by exists r]. by exists (Ok (su_value (strtoul s base) mod 256)). }
  assert (exists r, forall memory, Err (- EINVAL) = (let! v := r in Ok (put 0 [v] memory))) as He by by exists (Err (- EINVAL)).
  pose proof (Hn 16 UINT8_MAX (fun _ => Err (- EINVAL)) He) as H16.
  assert (exists r, forall memory, parse_type_number memory s = (let! v := r in Ok (put 0 [v] memory))) as Ht by exact (Hn 10 UINT8_MAX _ H16).
  destruct p; try done; intros _; cbn [parse_with].
  - unfold _bf_parse_l4_proto. destruct (bf_ipproto_from_str s) as [v|]; [by exists (Ok v)|]. exact (Hn 10 UINT8_MAX _ He).
  - unfold _bf_parse_probability. destruct (_ && _); [by eexists (Ok _)|exact He].
  - unfold _bf_parse_tcp_flags. destruct (strtok_each _ _ _ _) as [v|]; [by exists (Ok v)|exact He].
  - unfold _bf_parse_icmp_type. destruct (bf_icmp_type_from_str s) as [v|]; [by exists (Ok v)|exact Ht].
  - unfold _bf_parse_icmpv6_type. destruct (bf_icmpv6_type_from_str s) as [v|]; [by exists (Ok v)|exact Ht].
Qed.

Definition byte_back (p : matcher_parser) (v : Z) : bool :=
  match parse_with p [0] (print_with p [v]) with Ok [v'] => v' =? v | _ => false end.

Lemma bytes_checked p : byte_parser p = true ->
  Forall (fun v => byte_back p v = true) (if decide (p = PARSE_probability) then seqZ 0 101 else seqZ 0 256).
Proof. intros Hp. destruct p; try done; apply Forall_true_bool; vm_compute; reflexivity. Qed.

Lemma bytes_back p bs : byte_parser p = true -> is_bytes bs -> (1 <= length bs)%nat -> payload_ok p bs -> reads_back p bs.
Proof.
  intros Hp Hb Hl Hok memory _. rewrite (byte_parser_get p bs Hp Hb Hl).
  assert (written p = 1%nat) as -> by by destruct p. rewrite <- (get_byte bs Hb Hl). change ([get 0 1 bs] ++ drop 1 memory) with (put 0 [get 0 1 bs] memory).
  pose proof (get_range 0 1 bs Hb) as Hv. change (256 ^ Z.of_nat 1) with 256 in Hv.
  assert (byte_back p (get 0 1 bs) = true) as Hback.
  { pose proof (bytes_checked p Hp) as Hc. rewrite Forall_forall in Hc. apply Hc.
    destruct (decide (p = PARSE_probability)) as [->|]; apply elem_of_seqZ; [cbn in Hok|]; lia. }
  unfold byte_back in Hback. destruct (byte_parser_put p (print_with p [get 0 1 bs]) Hp) as [r Hr]. rewrite Hr in Hback |- *.
  destruct r as [v|e]; [|done]. cbn [rbind] in *. unfold put in Hback. cbn in Hback. apply Z.eqb_eq in Hback as ->. done.
Qed.

Lemma port_back bs : is_bytes bs -> (2 <= length bs)%nat -> reads_back PARSE_l4_port bs.
Proof.
  intros Hb Hl memory _. cbn [parse_with print_with written]. unfold _bf_parse_l4_port, _bf_print_l4_port.
  pose proof (get_range 0 2 bs Hb) as Hg. change (256 ^ Z.of_nat 2) with (2 ^ 16) in Hg. pose proof (bswap16_range (get 0 2 bs)).
  rewrite <- (append_nil (fmt_u _)), strtoul_u by (unfold ULONG_MAX; (lia || done)). cbn [at_end su_rest su_value andb].
  rewrite (proj2 (Z.leb_le _ UINT16_MAX)) by (unfold UINT16_MAX; lia). unfold htobe16. rewrite bswap16_involutive by lia.
  by rewrite put_get.
Qed.

(** ** Ranges of ports *)

Lemma fmt_u16_length z : 0 <= z < 65536 -> (String.length (fmt_u z) <= 5)%nat.
Proof.
  intros Hz. unfold fmt_u, number. rewrite (to_base_fuel 10 _ 5); [apply to_base_length|lia| | |lia..].
  - split; [lia|]. apply number_fuel; lia.
  - change (10 ^ Z.of_nat 5) with 100000. lia.
Qed.

Lemma fmt_u_head z : 0 <= z -> exists c s, fmt_u z = String c s /\ isdigit c = true.
Proof.
  intros Hz. unfold fmt_u. destruct (number_head 10 z) as (d & s & Hd & ->); [lia..|]. do 2 eexists. split; [reflexivity|].
  assert (In d (seqZ 0 10)) as Hin by (apply list_elem_of_In, elem_of_seqZ; lia). vm_compute in Hin.
  repeat (destruct Hin as [<-|Hin]; [done|]). destruct Hin.
Qed.

(** The digits are none of the characters that separate numbers. *)
Lemma digits_no_delim (delim : ascii) z : 0 <= z -> is_digit_of 10 delim = false ->
  str_all (fun c => negb (str_mem c (str1 delim))) (fmt_u z) = true.
Proof.
  intros Hz Hd. eapply str_all_impl; [|apply (number_chars 10 z); lia]. intros c Hc. cbn.
  destruct (Ascii.eqb_spec c delim) as [->|]; [congruence|done].
Qed.

Lemma put_put x y memory : put (length x) y (put 0 x memory) = put 0 (x ++ y) memory.
Proof.
  rewrite !put_start. unfold put. rewrite take_app_length, drop_app, drop_drop, <- !app_assoc. f_equal. f_equal.
  rewrite (drop_ge x) by lia. cbn [app]. rewrite length_app. f_equal. lia.
Qed.

Lemma get_put x rest n : length x = n -> get 0 n (x ++ rest) = le_combine x.
Proof. intros <-. unfold get, sub_bytes. rewrite drop_0. by rewrite take_app_length. Qed.

Lemma get_put_2 x y rest n m : length x = n -> length y = m -> get n m (x ++ y ++ rest) = le_combine y.
Proof. intros <- <-. unfold get, sub_bytes. rewrite drop_app_length. by rewrite take_app_length. Qed.

Lemma le_combine_small n z : 0 <= z < 256 ^ Z.of_nat n -> le_combine (le_split n z) = z.
Proof. intros Hz. rewrite le_combine_split. by apply Z.mod_small. Qed.

Lemma strtoul_all z : 0 <= z <= ULONG_MAX -> strtoul (fmt_u z) 10 = mk_strtoul z EmptyString false.
Proof. intros Hz. rewrite <- (append_nil (fmt_u z)). by apply strtoul_u. Qed.

Lemma take_sub n m bs : take (n + m) bs = sub_bytes 0 n bs ++ sub_bytes n m bs.
Proof. unfold sub_bytes. rewrite drop_0. symmetry. apply take_take_drop. Qed.

Lemma range_back bs : is_bytes bs -> (4 <= length bs)%nat -> get 0 2 bs <= get 2 2 bs -> reads_back PARSE_l4_port_range bs.
Proof.
  intros Hb Hl Hle memory Hm. cbn [parse_with print_with written] in *. unfold _bf_parse_l4_port_range, _bf_print_l4_port_range.
  pose proof (get_range 0 2 bs Hb) as H0. pose proof (get_range 2 2 bs Hb) as H2. change (256 ^ Z.of_nat 2) with 65536 in *.
  change "-"%string with (str1 "-"). rewrite str1_app. rewrite strncpy_fits.
  2: { rewrite length_append. cbn [String.length]. pose proof (fmt_u16_length _ H0). pose proof (fmt_u16_length _ H2).
       unfold BF_PORT_RANGE_MAX_LEN. lia. }
  cbn [fst]. destruct (fmt_u_head (get 0 2 bs)) as (c & t & Ec & Hc); [lia|].
  destruct (fmt_u_head (get 2 2 bs)) as (c2 & t2 & Ec2 & _); [lia|].
  assert (first_is isdigit (fmt_u (get 0 2 bs) +s+ String "-" (fmt_u (get 2 2 bs))) = true) as -> by by rewrite Ec.
  cbn [negb]. rewrite strtok_token; [|by rewrite Ec|apply digits_no_delim; [lia|done]|done].
  assert (first_is (fun _ => true) (fmt_u (get 2 2 bs)) = true) as -> by by rewrite Ec2. cbn [negb].
  rewrite !strtoul_all by (unfold ULONG_MAX; lia). cbn [at_end su_rest su_value negb orb].
  rewrite !(proj2 (Z.ltb_ge UINT16_MAX _)) by (unfold UINT16_MAX; lia).
  change (put 2) with (put (length (le_split 2 (get 0 2 bs)))). rewrite put_put, put_start, <- !app_assoc.
  rewrite get_put, get_put_2 by done. rewrite !le_combine_small by (change (256 ^ Z.of_nat 2) with 65536; lia).
  rewrite (proj2 (Z.ltb_ge _ _)) by lia. rewrite !get_split by (done || lia).
  rewrite app_assoc, <- (take_sub 2 2 bs). rewrite length_take. by rewrite Nat.min_l by lia.
Qed.

(** ** Marks, and protocols in hexadecimal *)

Lemma mark_back bs : is_bytes bs -> (4 <= length bs)%nat -> reads_back PARSE_mark bs.
Proof.
  intros Hb Hl memory _. cbn [parse_with print_with written]. unfold _bf_parse_mark, _bf_print_mark.
  pose proof (get_range 0 4 bs Hb) as Hg. change (256 ^ Z.of_nat 4) with 4294967296 in Hg.
  destruct (fmt_x_digits (get 0 4 bs) EmptyString) as (k & Hk & Hd); [lia|done|]. rewrite append_nil in Hd.
  change ("0x" +s+ fmt_x (get 0 4 bs)) with (String "0" (String "x" (fmt_x (get 0 4 bs)))).
  rewrite (strtoll_0x _ k (get 0 4 bs) EmptyString) by (done || unfold LLONG_MAX; lia). cbn [first_is].
  rewrite (proj2 (Z.ltb_ge _ 0)) by lia. rewrite (proj2 (Z.ltb_ge UINT32_MAX _)) by (unfold UINT32_MAX; lia). by rewrite put_get.
Qed.

(** Zeros before a number do not change it. *)
Lemma digits_zero base s n : 1 <= base -> digits base (String "0" s) n 0 = digits base s (S n) 0.
Proof.
  intros Hb. cbn [digits]. assert (is_digit_in base "0" = Some 0) as ->; [|done].
  unfold is_digit_in. change (digit_value "0") with (Some 0). cbv iota. by rewrite (proj2 (Z.ltb_lt 0 base)) by lia.
Qed.

Lemma digits_04x z : 0 <= z -> exists k, (0 < k)%nat /\ digits 16 (fmt_04x z) 0 0 = (k, z, EmptyString).
Proof.
  intros Hz. assert (forall n, exists k, (0 < k)%nat /\ digits 16 (fmt_x z) n 0 = (k, z, EmptyString)) as Hd.
  { intros n. unfold fmt_x, number. rewrite <- (append_nil (to_base _ 16 z EmptyString)), <- to_base_app.
    destruct (digits_to_base 16 (S (Z.to_nat (Z.log2 z))) z EmptyString n 0) as (k & Hk & -> & _); [lia| |lia|].
    - split; [done|]. apply number_fuel; lia.
    - exists (n + k)%nat. split; [lia|]. cbn. done. }
  unfold fmt_04x. destruct (String.length (fmt_x z)) as [|[|[|[|n]]]];
    cbn [Nat.sub String.substring String.append]; rewrite ?digits_zero by lia; apply Hd.
Qed.

(** A decimal number ends at the letter of [0x]. *)
Lemma decimal_stops s : at_end (strtoul (String "0" (String "x" s)) 10) = false.
Proof.
  unfold strtoul. change (bf_ltrim (String "0" (String "x" s))) with (String "0" (String "x" s)).
  change (strtoul_sign (String "0" (String "x" s))) with (false, String "0" (String "x" s)). cbv iota beta.
  by rewrite strtoul_prefix_10.
Qed.

Lemma l3_proto_back bs : is_bytes bs -> (2 <= length bs)%nat -> reads_back PARSE_l3_proto bs.
Proof.
  intros Hb Hl memory _. cbn [parse_with print_with written]. unfold _bf_parse_l3_proto, _bf_print_l3_proto.
  pose proof (get_range 0 2 bs Hb) as Hg. change (256 ^ Z.of_nat 2) with 65536 in Hg.
  destruct (bf_ethertype_to_str (get 0 2 bs)) as [name|] eqn:En.
  - assert (bf_ethertype_from_str name = Ok (get 0 2 bs)) as ->; [|by rewrite put_get].
    unfold bf_ethertype_to_str in En. destruct (Z.eqb_spec (get 0 2 bs) ETH_P_IP) as [->|]; [by injection En as <-|].
    destruct (Z.eqb_spec (get 0 2 bs) ETH_P_IPV6) as [->|]; [by injection En as <-|done].
  - change ("0x" +s+ fmt_04x (get 0 2 bs)) with (String "0" (String "x" (fmt_04x (get 0 2 bs)))).
    destruct (digits_04x (get 0 2 bs)) as (k & Hk & Hd); [lia|]. set (text := fmt_04x (get 0 2 bs)) in *.
    assert (bf_ethertype_from_str (String "0" (String "x" text)) = Err (- EINVAL)) as -> by done.
    unfold parse_number. rewrite decimal_stops. cbn [andb].
    rewrite (strtoul_0x text 16 k (get 0 2 bs) EmptyString) by (first [by right|done|unfold ULONG_MAX; lia]).
    cbn [at_end su_rest su_value andb]. rewrite (proj2 (Z.leb_le _ UINT16_MAX)) by (unfold UINT16_MAX; lia). by rewrite put_get.
Qed.

(** ** Addresses *)

Lemma sub_length o n (bs : list Z) : (o + n <= length bs)%nat -> length (sub_bytes o n bs) = n.
Proof. intros Hl. unfold sub_bytes. rewrite length_take, length_drop. lia. Qed.

Lemma ipv4_back bs : is_bytes bs -> (4 <= length bs)%nat -> reads_back PARSE_ipv4_addr bs.
Proof.
  intros Hb Hl memory _. cbn [parse_with print_with written]. unfold _bf_parse_ipv4_addr, _bf_print_ipv4_addr.
  rewrite inet4_roundtrip by (apply is_bytes_sub || apply sub_length; done). rewrite put_start, sub_length by done. done.
Qed.

Lemma ipv6_back bs : is_bytes bs -> (16 <= length bs)%nat -> reads_back PARSE_ipv6_addr bs.
Proof.
  intros Hb Hl memory _. cbn [parse_with print_with written]. unfold _bf_parse_ipv6_addr, _bf_print_ipv6_addr.
  rewrite inet6_roundtrip by (apply is_bytes_sub || apply sub_length; done). rewrite put_start, sub_length by done. done.
Qed.

(** The prefix length is written before the address, whatever their order. *)
Lemma put_before x y memory : (length x <= length memory)%nat -> put 0 x (put (length x) y memory) = put 0 (x ++ y) memory.
Proof.
  intros Hl. rewrite (put_start x), (put_start (x ++ y)). unfold put. rewrite <- app_assoc. f_equal.
  rewrite drop_app_le by (rewrite length_take; lia). rewrite (drop_ge (take _ _)) by (rewrite length_take; lia).
  cbn [app]. by rewrite length_app.
Qed.

Lemma net_back (pton : string -> option (list Z)) max_prefix text n bs memory :
  is_bytes bs -> (4 + n <= length bs)%nat -> (4 + n <= length memory)%nat -> pton text = Some (sub_bytes 4 n bs) ->
  text <> EmptyString -> str_all addr_char text = true -> get 0 4 bs <= max_prefix ->
  parse_net pton max_prefix (text +s+ "/" +s+ fmt_u (get 0 4 bs)) memory = Ok (take (4 + n) bs ++ drop (4 + n) memory).
Proof.
  intros Hb Hl Hm Hp Hn Hc Hmax. pose proof (get_range 0 4 bs Hb) as Hg. change (256 ^ Z.of_nat 4) with 4294967296 in Hg.
  unfold parse_net. change "/"%string with (str1 "/"). rewrite str1_app, strtok_token; [|done| |done].
  2: { eapply str_all_impl; [|exact Hc]. intros c Ha. cbn. by destruct (Ascii.eqb_spec c "/") as [->|]. }
  destruct (fmt_u_head (get 0 4 bs)) as (c & t & Ec & _); [lia|].
  assert (first_is (fun _ => true) (fmt_u (get 0 4 bs)) = true) as -> by by rewrite Ec. cbn [negb].
  rewrite Hp, strtoul_all by (unfold ULONG_MAX; lia). cbn [su_value at_end su_rest negb orb].
  unfold u32. rewrite Z.mod_small by lia.
  change (put 4 (sub_bytes 4 n bs) memory) with (put (length (le_split 4 (get 0 4 bs))) (sub_bytes 4 n bs) memory).
  rewrite put_before by (rewrite length_le_split; lia). rewrite put_start, <- app_assoc, get_put by done.
  rewrite le_combine_small by (change (256 ^ Z.of_nat 4) with 4294967296; lia). rewrite (proj2 (Z.ltb_ge _ _)) by lia.
  rewrite app_assoc, length_app, length_le_split, sub_length by done. rewrite get_split by (done || lia). by rewrite <- take_sub.
Qed.

Lemma fmt_u_short p : 0 <= p < 1000 -> (String.length (fmt_u p) <= 3)%nat.
Proof.
  intros Hp. unfold fmt_u, number. rewrite (to_base_fuel 10 _ 3); [apply to_base_length|lia| | |lia..].
  - split; [lia|]. apply number_fuel; lia.
  - change (10 ^ Z.of_nat 3) with 1000. lia.
Qed.

Lemma ipv4_net_back bs : is_bytes bs -> (8 <= length bs)%nat -> get 0 4 bs <= 32 -> reads_back PARSE_ipv4_net bs.
Proof.
  intros Hb Hl Hp memory Hm. cbn [parse_with print_with written] in *. unfold _bf_parse_ipv4_net, _bf_print_ipv4_net.
  pose proof (get_range 0 4 bs Hb) as Hg. pose proof (is_bytes_sub 4 4 bs Hb) as Hs. pose proof (sub_length 4 4 bs Hl) as Hsl.
  destruct (ntop4_text _ Hs Hsl) as (Hc & Hlen & c & t & Ec & Hd).
  rewrite strncpy_fits.
  2: { rewrite !length_append. cbn [String.length]. pose proof (fmt_u_short (get 0 4 bs) ltac:(lia)). unfold BF_IPV4_NET_MAX_LEN. lia. }
  cbn [fst]. assert (first_is isdigit (inet_ntop4 (sub_bytes 4 4 bs) +s+ "/" +s+ fmt_u (get 0 4 bs)) = true) as -> by by rewrite Ec.
  cbn [negb]. apply (net_back inet_pton4 32 _ 4 bs memory); try done; [by apply inet4_roundtrip|by rewrite Ec].
Qed.

Lemma ipv6_net_back bs : is_bytes bs -> (20 <= length bs)%nat -> get 0 4 bs <= 128 -> reads_back PARSE_ipv6_net bs.
Proof.
  intros Hb Hl Hp memory Hm. cbn [parse_with print_with written] in *. unfold _bf_parse_ipv6_net, _bf_print_ipv6_net.
  pose proof (get_range 0 4 bs Hb) as Hg. pose proof (is_bytes_sub 4 16 bs Hb) as Hs. pose proof (sub_length 4 16 bs Hl) as Hsl.
  destruct (ntop6_text _ Hs Hsl) as (Hc & Hlen & c & t & Ec & Hd).
  rewrite strncpy_fits.
  2: { rewrite !length_append. cbn [String.length]. pose proof (fmt_u_short (get 0 4 bs) ltac:(lia)). unfold BF_IPV6_NET_MAX_LEN. lia. }
  cbn [fst].
  assert (first_is isalpha (inet_ntop6 (sub_bytes 4 16 bs) +s+ "/" +s+ fmt_u (get 0 4 bs)) ||
          first_is isdigit (inet_ntop6 (sub_bytes 4 16 bs) +s+ "/" +s+ fmt_u (get 0 4 bs)) ||
          first_is (fun c => Ascii.eqb c ":") (inet_ntop6 (sub_bytes 4 16 bs) +s+ "/" +s+ fmt_u (get 0 4 bs)) = true) as Hf by by rewrite Ec.
  rewrite <- !negb_orb, Hf. cbn [negb].
  apply (net_back inet_pton6 128 _ 16 bs memory); try done; [by apply inet6_roundtrip|by rewrite Ec].
Qed.

(** ** Interfaces *)

Lemma iface_back bs : is_bytes bs -> (4 <= length bs)%nat -> 0 < get 0 4 bs -> iface_named bs -> reads_back PARSE_iface bs.
Proof.
  intros Hb Hl H0 Hi memory _. cbn [parse_with print_with written]. unfold iface_named in Hi.
  unfold _bf_parse_iface, _bf_print_iface, bf_if_name_from_index, bf_if_index_from_name.
  pose proof (get_range 0 4 bs Hb) as Hg. change (256 ^ Z.of_nat 4) with (2 ^ 32) in Hg.
  assert (u32 (s32 (get 0 4 bs)) = get 0 4 bs) as ->.
  { unfold u32, s32, sw. rewrite (Z.mod_small (get 0 4 bs)) by lia. case_decide; [by apply Z.mod_small|].
    rewrite <- (Z.mod_add _ 1) by lia. rewrite Z.mod_small; lia. }
  destruct (if_indextoname (get 0 4 bs)) as [name|].
  - destruct Hi as [-> Hi]. rewrite (proj2 (Z.eqb_neq _ 0)) by lia. rewrite (proj2 (Z.ltb_ge INT_MAX _)) by lia.
    rewrite (proj2 (Z.ltb_lt 0 _)) by lia. by rewrite put_get.
  - rewrite Hi. cbn [Z.eqb]. change (0 <? - ENOENT) with false. rewrite strtoul_all by (unfold ULONG_MAX; lia).
    cbn [at_end su_rest su_value andb]. rewrite (proj2 (Z.ltb_lt 0 _)) by lia.
    rewrite (proj2 (Z.leb_le _ UINT32_MAX)) by (unfold UINT32_MAX; lia). cbn [andb]. by rewrite put_get.
Qed.

(** ** All of them *)

Lemma payload_back p bs : is_bytes bs -> (written p <= length bs)%nat -> payload_ok p bs -> printable p bs -> reads_back p bs.
Proof.
  intros Hb Hl Hok Hpr. destruct p; cbn [written payload_ok printable] in *;
    first [ by apply bytes_back | by apply iface_back | by apply l3_proto_back | by apply port_back | by apply range_back
          | by apply mark_back | by apply ipv4_back | by apply ipv4_net_back | by apply ipv6_back | by apply ipv6_net_back ].
Qed.

(** * What is parsed is a payload *)

(** The payload has the size of the memory, it is made of bytes, and only what
    the parser writes has changed. *)
Definition fills (p : matcher_parser) (memory bs : list Z) : Prop :=
  length bs = length memory /\ is_bytes bs /\ payload_ok p bs /\ drop (written p) bs = drop (written p) memory.

Lemma put_fills p x memory : is_bytes memory -> is_bytes x -> length x = written p -> (written p <= length memory)%nat ->
  payload_ok p (put 0 x memory) -> fills p memory (put 0 x memory).
Proof.
  intros Hm Hx Hl Hs Hok. unfold fills. rewrite put_start in Hok |- *. split; [rewrite length_app, length_drop; lia|].
  split; [apply Forall_app; split; [done|by apply is_bytes_drop]|]. split; [done|].
  rewrite <- Hl. by rewrite drop_app_length.
Qed.

Lemma put_le_fills p n v memory : is_bytes memory -> n = written p -> (written p <= length memory)%nat ->
  payload_ok p (put 0 (le_split n v) memory) -> fills p memory (put 0 (le_split n v) memory).
Proof. intros Hm -> Hs Hok. apply put_fills; [done|apply le_split_bytes|apply length_le_split|done|done]. Qed.

Lemma number_fills p base max n memory raw otherwise bs : is_bytes memory -> n = written p -> (written p <= length memory)%nat ->
  (forall bs, payload_ok p bs) -> (otherwise = Ok bs -> fills p memory bs) ->
  parse_number base max n memory raw otherwise = Ok bs -> fills p memory bs.
Proof.
  intros Hm Hn Hs Hok Ho. unfold parse_number. destruct (_ && _); [|done]. intros <-%Ok_inj. by apply put_le_fills.
Qed.

Lemma byte_fills p v memory : is_bytes memory -> is_byte v -> written p = 1%nat -> (1 <= length memory)%nat ->
  payload_ok p (put 0 [v] memory) -> fills p memory (put 0 [v] memory).
Proof. intros Hm Hv Hw Hs Hok. apply put_fills; [done|by constructor|done|by rewrite Hw|done]. Qed.

(** Values found in a table of 256 names are bytes. *)
Lemma table_byte eq (name : Z -> option string) s v :
  of_option (- EINVAL) (table_find eq name byte_vals s) = Ok v -> is_byte v.
Proof.
  destruct (table_find eq name byte_vals s) as [w|] eqn:E; [|done]. intros <-%Ok_inj.
  assert (w ∈ byte_vals) as Hin%elem_of_seqZ; [|unfold is_byte; lia].
  revert E. generalize byte_vals as l. induction l as [|x l IH]; cbn; [done|]. destruct (eq _ _); [intros [= ->]; by left|].
  intros E. right. by apply IH.
Qed.

Lemma flags_byte fuel s flags v : 0 <= flags < 256 -> strtok_loop fuel "," add_flag s flags = Ok v -> is_byte v.
Proof.
  revert s flags. induction fuel as [|fuel IH]; intros s flags Hf; cbn [strtok_loop]; destruct (strtok_r s ",") as [[t r]|]; try done;
    [by intros <-%Ok_inj| |by intros <-%Ok_inj].
  unfold add_flag. destruct (bf_tcp_flag_from_str t) as [f|]; [|done]. cbn [rbind]. apply IH.
  assert (In flags (seqZ 0 256)) as Hin by (apply list_elem_of_In, elem_of_seqZ; lia). clear Hf.
  assert (forallb (fun x => (0 <=? Z.lor x (u8 (Z.shiftl 1 (bf_tcp_flag_to_Z f)))) && (Z.lor x (u8 (Z.shiftl 1 (bf_tcp_flag_to_Z f))) <? 256)) (seqZ 0 256) = true) as Hall
    by (destruct f; vm_compute; reflexivity).
  apply (proj1 (forallb_forall _ _) Hall) in Hin. apply andb_true_iff in Hin as [?%Z.leb_le ?%Z.ltb_lt]. lia.
Qed.

Lemma net_fills p (pton : string -> option (list Z)) max_prefix n buf memory bs :
  (forall s a, pton s = Some a -> is_bytes a /\ length a = n) -> is_bytes memory -> written p = (4 + n)%nat ->
  (written p <= length memory)%nat -> (forall bs, get 0 4 bs <= max_prefix -> payload_ok p bs) ->
  parse_net pton max_prefix buf memory = Ok bs -> fills p memory bs.
Proof.
  intros Hp Hm Hw Hs Hok. unfold parse_net. destruct (strtok_r buf "/") as [[strip mask]|]; [|done].
  destruct (negb _); [done|]. destruct (pton strip) as [a|] eqn:Ea; [|done]. destruct (Hp _ _ Ea) as [Ha Hla].
  set (x := le_split 4 (u32 (su_value (strtoul mask 10)))).
  assert (is_bytes x /\ length x = 4%nat) as [Hx Hlx] by (split; [apply le_split_bytes|apply length_le_split]). clearbody x.
  replace (put 4 a memory) with (put (length x) a memory) by by rewrite Hlx. rewrite put_before by lia.
  destruct (negb _ || _) eqn:E; [done|]. intros <-%Ok_inj. apply orb_false_iff in E as [_ E%Z.ltb_ge].
  apply put_fills; [done|by apply Forall_app|rewrite length_app; lia|done|by apply Hok].
Qed.

Lemma parsed_fills p memory raw bs : is_bytes memory -> (written p <= length memory)%nat ->
  parse_with p memory raw = Ok bs -> fills p memory bs.
Proof.
  intros Hm Hs. destruct p; cbn [parse_with written] in *.
  - unfold _bf_parse_iface. destruct (Z.ltb_spec 0 (bf_if_index_from_name raw)) as [Hi|_].
    + intros <-%Ok_inj. apply put_le_fills; try done. cbn [payload_ok]. rewrite put_start, get_put, le_combine_small; [done| |done].
      unfold bf_if_index_from_name in *. destruct (_ =? 0); [done|]. destruct (Z.ltb_spec INT_MAX (if_nametoindex raw)); [done|].
      unfold INT_MAX in *. change (256 ^ Z.of_nat 4) with 4294967296. lia.
    + destruct (at_end _ && _ && _) eqn:E; [|done]. apply andb_true_iff in E as [[_ E0%Z.ltb_lt]%andb_true_iff E1%Z.leb_le].
      intros <-%Ok_inj. apply put_le_fills; try done. cbn [payload_ok]. rewrite put_start, get_put, le_combine_small; [done| |done].
      unfold UINT32_MAX in *. change (256 ^ Z.of_nat 4) with 4294967296. lia.
  - unfold _bf_parse_l3_proto. destruct (bf_ethertype_from_str raw) as [v|]; [intros <-%Ok_inj; by apply put_le_fills|].
    apply number_fills; try done. by apply number_fills.
  - unfold _bf_parse_l4_proto. destruct (bf_ipproto_from_str raw) as [v|] eqn:E.
    + intros <-%Ok_inj. apply byte_fills; try done. by eapply table_byte.
    + by apply number_fills.
  - unfold _bf_parse_l4_port. destruct (_ && _); [|done]. intros <-%Ok_inj. by apply put_le_fills.
  - unfold _bf_parse_l4_port_range. destruct (negb _); [done|]. destruct (strtok_r _ "-") as [[a b]|]; [|done].
    destruct (negb _); [done|]. destruct (negb _ || _); [done|]. destruct (negb _ || _); [done|].
    change (put 2) with (put (length (le_split 2 (su_value (strtoul a 10))))). rewrite put_put.
    set (x := le_split 2 (su_value (strtoul a 10)) ++ le_split 2 (su_value (strtoul b 10))).
    assert (is_bytes x /\ length x = 4%nat) as [Hx Hlx] by (split; [apply Forall_app; split; apply le_split_bytes|done]). clearbody x.
    destruct (Z.ltb_spec (get 2 2 (put 0 x memory)) (get 0 2 (put 0 x memory))); [done|].
    intros <-%Ok_inj. by apply put_fills.
  - unfold _bf_parse_probability. destruct (_ && _) eqn:E; [|done]. apply andb_true_iff in E as [_ E%Z.leb_le]. intros <-%Ok_inj.
    pose proof (strtoul_range raw 10 ltac:(lia)). apply byte_fills; try done; [unfold is_byte; lia|].
    cbn [payload_ok]. rewrite put_start, get_put by done. cbn [le_combine]. lia.
  - unfold _bf_parse_mark. destruct (strtoll raw 0) as [mark rest]. destruct (first_is _ _); [done|]. destruct (_ <? 0); [done|].
    destruct (_ <? _); [done|]. intros <-%Ok_inj. by apply put_le_fills.
  - unfold _bf_parse_ipv4_addr. destruct (inet_pton4 raw) as [a|] eqn:E; [|done]. intros <-%Ok_inj. apply inet_pton4_ok in E as [Ha Hl].
    by apply put_fills.
  - unfold _bf_parse_ipv4_net. destruct (negb _); [done|]. apply (net_fills PARSE_ipv4_net inet_pton4 32 4); try done. apply inet_pton4_ok.
  - unfold _bf_parse_ipv6_addr. destruct (inet_pton6 raw) as [a|] eqn:E; [|done]. intros <-%Ok_inj. apply inet_pton6_ok in E as [Ha Hl].
    by apply put_fills.
  - unfold _bf_parse_ipv6_net. destruct (_ && _); [done|]. apply (net_fills PARSE_ipv6_net inet_pton6 128 16); try done. apply inet_pton6_ok.
  - unfold _bf_parse_tcp_flags, strtok_each. destruct (strtok_loop _ _ _ _ _) as [v|] eqn:E; [|done]. intros <-%Ok_inj.
    apply flags_byte in E; [|lia]. by apply byte_fills.
  - unfold _bf_parse_icmp_type. destruct (bf_icmp_type_from_str raw) as [v|] eqn:E.
    + intros <-%Ok_inj. apply byte_fills; try done. by eapply table_byte.
    + apply number_fills; try done. by apply number_fills.
  - apply number_fills; try done. by apply number_fills.
  - unfold _bf_parse_icmpv6_type. destruct (bf_icmpv6_type_from_str raw) as [v|] eqn:E.
    + intros <-%Ok_inj. apply byte_fills; try done. by eapply table_byte.
    + apply number_fills; try done. by apply number_fills.
Qed.
End Spec.
