(* ===== verification/BfSet.v ===== *)
(** Sets: [struct bf_set], its constructors, and sets as text,
    [src/libbpfilter/set.c].

    [key] has [n_comps] entries; an element is the list of its [elem_size]
    bytes.  The tool calls [bf_set_new_from_raw] on the sets its lexer cuts out
    of a ruleset: the memory of each element is allocated and not initialised,
    a component's parser writes in it from the component's offset on. *)

From S2P Require Import Prelude Helper CString Printf Inet Hook Matcher Payload.
From Stdlib Require Import Ascii.

Definition BF_SET_MAX_N_COMPS : nat := 8.

Record bf_set : Type := mk_set {
  set_name : option string;
  set_key : list bf_matcher_type;
  set_elems : list (list Z);
  set_elem_size : Z;
  set_use_trie : bool
}.

Definition type_flag (t : bf_matcher_type) : Z := BF_FLAG (bf_matcher_type_to_Z t).

Definition _BF_SET_USE_TRIE_MASK : Z :=
  BF_FLAGS (bf_matcher_type_to_Z <$>
    [BF_MATCHER_IP4_SNET; BF_MATCHER_IP4_DNET; BF_MATCHER_IP6_SNET; BF_MATCHER_IP6_DNET]).

(** The loop of [bf_set_new] over the key: the element size and the mask of the
    types seen. *)
Fixpoint set_new_comps (key : list bf_matcher_type) (elem_size mask : Z) : res (Z * Z) :=
  match key with
  | [] => Ok (elem_size, mask)
  | t :: key =>
      match bf_matcher_get_ops t BF_MATCHER_IN with
      | None => Err (- ENOTSUP)
      | Some ops => set_new_comps key (elem_size + ref_payload_size ops) (Z.lor mask (type_flag t))
      end
  end.

Definition bf_set_new (name : option string) (key : list bf_matcher_type) : res bf_set :=
  let n_comps := length key in
  if (n_comps =? 0)%nat then Err (- EINVAL)
  else if (BF_SET_MAX_N_COMPS <? n_comps)%nat then Err (- E2BIG)
  else
    let! p := set_new_comps key 0 0 in
    let '(elem_size, mask) := p in
    let nets := negb (Z.land mask _BF_SET_USE_TRIE_MASK =? 0) in
    if (1 <? n_comps)%nat && nets then Err (- EINVAL)
    else Ok (mk_set name key [] elem_size ((n_comps =? 1)%nat && nets)).

(** Copies [elem_size] bytes of [elem]. *)
Definition bf_set_add_elem (set : bf_set) (elem : list Z) : bf_set :=
  mk_set (set_name set) (set_key set)
         (set_elems set ++ [take (Z.to_nat (set_elem_size set)) elem])
         (set_elem_size set) (set_use_trie set).

(** * Text *)

(** ** The key *)

(** One component, [BF_SET_MAX_N_COMPS] of them at most. *)
Definition parse_comp (key : list bf_matcher_type) (token : string) : res (list bf_matcher_type) :=
  if (length key =? BF_SET_MAX_N_COMPS)%nat then Err (- E2BIG)
  else let! type := bf_matcher_type_from_str (bf_trim token) in Ok (key ++ [type]).

Definition _bf_set_parse_key (raw_key : string) : res (list bf_matcher_type) :=
  let! key := strtok_each "()," parse_comp raw_key [] in
  match key with [] => Err (- EINVAL) | _ => Ok key end.

Section RawSet.
Context `{Ifaces}.

(** Byte [i] of the [n]th element that is allocated, before anything is written
    there. *)
Variable heap : nat -> nat -> Z.

Definition malloc (n : nat) (size : Z) : list Z := heap n <$> seq 0 (Z.to_nat size).

(** ** The elements *)

(** The element, the offset of the next component and its index. *)
Record elem_state : Type := mk_elem_state { es_elem : list Z; es_offset : Z; es_comp_idx : nat }.

Definition parse_part (set : bf_set) (st : elem_state) (token : string) : res elem_state :=
  match set_key set !! es_comp_idx st with
  | None => Err (- EINVAL)
  | Some type =>
      match bf_matcher_get_ops type BF_MATCHER_IN with
      | None => Err (- EINVAL)
      | Some ops =>
          let offset := Z.to_nat (es_offset st) in
          let! part := parse_with (ops_parse ops) (drop offset (es_elem st)) (bf_trim token) in
          Ok (mk_elem_state (take offset (es_elem st) ++ part) (es_offset st + ref_payload_size ops) (S (es_comp_idx st)))
      end
  end.

Definition with_elem (set : bf_set) (elem : list Z) : bf_set :=
  mk_set (set_name set) (set_key set) (set_elems set ++ [elem]) (set_elem_size set) (set_use_trie set).

Definition _bf_set_parse_elem (set : bf_set) (raw_elem : string) : res bf_set :=
  let elem := malloc (length (set_elems set)) (set_elem_size set) in
  let! st := strtok_each "," (parse_part set) raw_elem (mk_elem_state elem 0 0) in
  if negb (es_comp_idx st =? length (set_key set))%nat then Err (- EINVAL)
  else Ok (with_elem set (es_elem st)).

(** ** Sets *)

(** ["{};\n"] *)
Definition elem_delim : string := "{};" +s+ str1 "010".

(** What the buffer holds once its first token is cut: the delimiters before
    it, the token, and the end of the string. *)
Definition cut (s token : string) : string :=
  String.substring 0 (String.length s - String.length (tok_skip elem_delim s)) s +s+ token.

(** [tmp] points to the buffer for the first token only.  A token that is blank
    leaves it: when the first one is blank, the next call starts over, on a
    buffer that now ends with this token. *)
Fixpoint parse_elems (fuel : nat) (tmp : bool) (s : string) (set : bf_set) : res bf_set :=
  match strtok_r s elem_delim with
  | None => Ok set
  | Some (token, rest) =>
      match fuel with
      | O => Err (- BF_CRASH)
      | S fuel =>
          let raw_elem := bf_trim token in
          if negb (first_is (fun _ => true) raw_elem)
          then parse_elems fuel tmp (if tmp then cut s token else rest) set
          else
            let! set := _bf_set_parse_elem set raw_elem in
            parse_elems fuel false rest set
      end
  end.

(** A call of [strtok_r] that moves on shortens what is left, so that the length
    of the string is enough fuel for the calls there are, if they end. *)
Definition bf_set_new_from_raw (name : option string) (raw_key raw_payload : string) : res bf_set :=
  let! key := _bf_set_parse_key raw_key in
  let! set := bf_set_new name key in
  parse_elems (String.length raw_payload) true raw_payload set.
End RawSet.

(** * Well-formed sets *)

Definition is_net_type (t : bf_matcher_type) : bool :=
  bool_decide (t ∈ [BF_MATCHER_IP4_SNET; BF_MATCHER_IP4_DNET; BF_MATCHER_IP6_SNET; BF_MATCHER_IP6_DNET]).

Definition comp_size (t : bf_matcher_type) : Z :=
  match bf_matcher_get_ops t BF_MATCHER_IN with Some ops => ref_payload_size ops | None => 0 end.

Definition key_size (key : list bf_matcher_type) : Z := foldr (fun t n => comp_size t + n) 0 key.

(** What [bf_set_new] guarantees: 1 to 8 components that support [in], the
    element size is theirs, a network component is alone, and the trie is used
    exactly then. *)
Record set_wf (s : bf_set) : Prop := mk_set_wf {
  set_wf_comps : (1 <= length (set_key s) <= BF_SET_MAX_N_COMPS)%nat;
  set_wf_ops : Forall (fun t => is_Some (bf_matcher_get_ops t BF_MATCHER_IN)) (set_key s);
  set_wf_size : set_elem_size s = key_size (set_key s);
  set_wf_net : (1 < length (set_key s))%nat -> Forall (fun t => is_net_type t = false) (set_key s);
  set_wf_trie : set_use_trie s = existsb is_net_type (set_key s);
  set_wf_elems : Forall (fun e => Z.of_nat (length e) = set_elem_size s) (set_elems s)
}.

(** * Lemmas *)

Lemma set_new_comps_spec key es mask es' mask' :
  set_new_comps key es mask = Ok (es', mask') ->
  Forall (fun t => is_Some (bf_matcher_get_ops t BF_MATCHER_IN)) key /\
  es' = es + key_size key /\
  mask' = Z.lor mask (foldr (fun t f => Z.lor (type_flag t) f) 0 key).
Proof.
  revert es mask. induction key as [|t key IH]; intros es mask; cbn [set_new_comps foldr].
  - intros [= <- <-]. rewrite Z.lor_0_r. split_and!; [constructor|cbn; lia|done].
  - destruct (bf_matcher_get_ops t BF_MATCHER_IN) as [ops|] eqn:E; [|done].
    intros H. apply IH in H as (Hf & -> & ->). split_and!.
    + by constructor; [exists ops|].
    + change (key_size (t :: key)) with (comp_size t + key_size key).
      replace (comp_size t) with (ref_payload_size ops) by (unfold comp_size; by rewrite E). lia.
    + by rewrite Z.lor_assoc.
Qed.

Lemma net_flag_spec t : is_Some (bf_matcher_get_ops t BF_MATCHER_IN) ->
  (Z.land (type_flag t) _BF_SET_USE_TRIE_MASK =? 0) = negb (is_net_type t).
Proof. destruct t; try (by vm_compute); by intros [? [=]]. Qed.

Lemma net_mask_spec key : Forall (fun t => is_Some (bf_matcher_get_ops t BF_MATCHER_IN)) key ->
  negb (Z.land (foldr (fun t f => Z.lor (type_flag t) f) 0 key) _BF_SET_USE_TRIE_MASK =? 0) =
  existsb is_net_type key.
Proof.
  induction 1 as [|t key Ht _ IH]; [done|]. cbn [foldr existsb].
  rewrite Z.land_lor_distr_l, <- IH.
  pose proof (net_flag_spec t Ht) as E.
  rewrite (Bool.negb_involutive_reverse (is_net_type t)), <- E.
  rewrite <- negb_andb. f_equal. apply eq_bool_prop_intro.
  rewrite andb_True, !Is_true_true, !Z.eqb_eq. apply Z.lor_eq_0_iff.
Qed.

Lemma bf_set_new_wf name key s : bf_set_new name key = Ok s ->
  set_wf s /\ set_name s = name /\ set_key s = key /\ set_elems s = [].
Proof.
  unfold bf_set_new. destruct (Nat.eqb_spec (length key) 0) as [|Hn]; [done|].
  destruct (Nat.ltb_spec BF_SET_MAX_N_COMPS (length key)) as [|Hm]; [done|].
  destruct (set_new_comps key 0 0) as [[es mask]|] eqn:E; cbn [rbind]; [|done].
  apply set_new_comps_spec in E as (Hf & -> & ->). rewrite Z.lor_0_l, net_mask_spec by done.
  destruct (Nat.ltb_spec 1 (length key)) as [H1|H1]; cbn [andb].
  - destruct (existsb is_net_type key) eqn:Ex; [done|]. intros [= <-].
    split_and!; [constructor; cbn [set_key set_elems set_elem_size set_use_trie]|done..].
    + lia.
    + done.
    + lia.
    + intros _. apply Forall_forall. intros t Ht.
      apply not_true_iff_false. intros Hnt. apply not_true_iff_false in Ex. apply Ex.
      apply existsb_exists. exists t. by rewrite <- list_elem_of_In.
    + rewrite Ex. apply andb_false_r.
    + constructor.
  - intros [= <-]. split_and!; [constructor; cbn [set_key set_elems set_elem_size set_use_trie]|done..].
    + lia.
    + done.
    + lia.
    + lia.
    + replace (length key =? 1)%nat with true by (symmetry; apply Nat.eqb_eq; lia). done.
    + constructor.
Qed.

Lemma bf_set_add_elem_wf s e : set_wf s -> Z.of_nat (length e) = set_elem_size s ->
  set_wf (bf_set_add_elem s e) /\ set_elems (bf_set_add_elem s e) = set_elems s ++ [e].
Proof.
  intros [] He.
  assert (take (Z.to_nat (set_elem_size s)) e = e) as Ht
    by (rewrite <- He, Nat2Z.id; apply firstn_all).
  unfold bf_set_add_elem. rewrite Ht. split; [|done].
  constructor; cbn [set_key set_elems set_elem_size set_use_trie]; [done..|].
  apply Forall_app. split; [done|]. by constructor.
Qed.

Lemma comp_size_range t : 0 <= comp_size t <= 24.
Proof.
  unfold comp_size. destruct (bf_matcher_get_ops t BF_MATCHER_IN) as [ops|] eqn:E; [|lia].
  apply get_ops_payload_size in E. lia.
Qed.
