(* ===== verification/Sys.v ===== *)
(** System calls: [src/libbpfilter/bpf.c] and the calls to libc that reach the
    kernel.

    The kernel is a parameter: an abstract state [K] and the result of a call
    in it.  Operations that make system calls and modify an object are state
    transformers with errors, which keep the state on error. *)

From S2P Require Import Prelude Bpf Helper Hook.

(** * State and errors *)

Definition st (S A : Type) : Type := S -> res A * S.

#[global] Instance st_ret S : MRet (st S) := fun A a s => (Ok a, s).
#[global] Instance st_bind S : MBind (st S) :=
  fun A B k m s => match m s with (Ok a, s) => k a s | (Err e, s) => (Err e, s) end.

Section St.
Context {S : Type}.

Definition st_err {A} (e : Z) : st S A := fun s => (Err e, s).
Definition st_lift {A} (r : res A) : st S A := fun s => (r, s).
Definition st_get : st S S := fun s => (Ok s, s).
Definition st_put (s : S) : st S unit := fun _ => (Ok tt, s).

(** A [goto] label reached on error: [h] runs, the error is returned. *)
Definition st_onerr {A} (m : st S A) (h : S -> S) : st S A :=
  fun s => match m s with (Ok a, s) => (Ok a, s) | (Err e, s) => (Err e, h s) end.

(** An error that makes the process use memory that was not initialised. *)
Definition st_fatal {A} (m : st S A) : st S A :=
  fun s => match m s with (Ok a, s) => (Ok a, s) | (Err _, s) => (Err (- BF_CRASH), s) end.

(** The error is ignored. *)
Definition st_ignore {A} (m : st S A) : st S unit := fun s => let '(_, s) := m s in (Ok tt, s).

Fixpoint st_iter {A} (f : A -> st S unit) (l : list A) : st S unit :=
  match l with [] => mret tt | x :: l => f x ;; st_iter f l end.
End St.

(** * Calls *)

Definition XDP_FLAGS_SKB_MODE : Z := 2.
Definition BPF_F_NO_PREALLOC : Z := 1.
Definition BPF_F_TOKEN_FD : Z := 65536.
Definition BPF_F_PATH_FD : Z := 16384.
Definition BPF_ANY : Z := 0.

Inductive bf_bpf_map_type : Type :=
| BF_BPF_MAP_TYPE_HASH
| BF_BPF_MAP_TYPE_ARRAY
| BF_BPF_MAP_TYPE_LPM_TRIE
| BF_BPF_MAP_TYPE_RINGBUF
| bf_bpf_map_type_other (n : Z).

#[global] Instance bf_bpf_map_type_eq_dec : EqDecision bf_bpf_map_type.
Proof. solve_decision. Defined.

(** The fields of [union bpf_attr] each command sets; the others are zero.
    The verifier's log buffer is not part of the model. *)
Inductive syscall : Type :=
| SysProgLoad (prog_type : bf_bpf_prog_type) (insns : list bpf_insn)
              (attach_type : bf_bpf_attach_type) (name : string)
              (prog_token_fd : Z) (prog_flags : Z)
| SysMapCreate (map_type : bf_bpf_map_type)
               (key_size value_size max_entries map_flags map_token_fd : Z)
               (btf_fd : option Z) (name : string)
| SysMapUpdateElem (map_fd : Z) (key value : list Z) (flags : Z)
| SysMapUpdateBatch (map_fd : Z) (keys values : list Z) (count flags : Z)
| SysMapLookupElem (map_fd : Z) (key : list Z)
| SysObjPin (pathname : string) (bpf_fd file_flags path_fd : Z)
| SysObjGet (pathname : string) (file_flags path_fd : Z)
| SysTokenCreate (bpffs_fd : Z)
| SysBtfLoad (map_name : string) (btf_token_fd btf_flags : Z)
| SysLinkCreate (prog_fd target_fd : Z) (attach_type : bf_bpf_attach_type) (flags : Z)
                (netfilter : option (Z * bf_nf_inet_hooks * Z))
| SysLinkUpdate (link_fd new_prog_fd : Z)
| SysLinkDetach (link_fd : Z)
| SysOpen (path : string)
| SysClose (fd : Z)
| SysUnlinkat (dir_fd : Z) (name : string)
| SysOpenDir (path : string)
| SysOpenat (dir_fd : Z) (name : string)
| SysMkdirat (dir_fd : Z) (name : string)
| SysRmdirat (dir_fd : Z) (name : string)
| SysSetns (fd nstype : Z)
| SysSendFd (sock_fd fd : Z)
| SysAccess (path : string)
| SysOpenFile (path : string) (creat : bool)
| SysOpenFileAt (dir_fd : Z) (name : string)
| SysFstat (fd : Z)
| SysLseekEnd (fd : Z)
| SysLseekSet (fd : Z)
| SysRead (fd len : Z)
| SysWrite (fd : Z) (data : list Z)
| SysUnlink (path : string)
| SysAccessRw (path : string)
| SysMkdir (path : string)
| SysStat (path : string)
| SysOpenLock (path : string)
| SysFlock (fd : Z)
| SysSocket
| SysBind (fd : Z) (path : string)
| SysListen (fd backlog : Z)
| SysAccept (fd : Z)
| SysPeercred (fd : Z)
| SysSend (fd : Z) (msg : list Z)
| SysRecv (fd : Z).

(** A negative result is the opposite of [errno]. *)
Class Sys (K : Type) : Type := { sys_call : syscall -> K -> Z * K }.

(** [snprintf(buf, BPF_OBJ_NAME_LEN, "%s", name)] *)
Definition BPF_OBJ_NAME_LEN : nat := 16.
Definition obj_name (name : string) : string := fst (bf_strncpy BPF_OBJ_NAME_LEN name).

Section Calls.
Context {K : Type} `{Sys K}.

(** The state of an operation on an object [O]. *)
Abbreviation M O A := (st (O * K) A).

Context {O : Type}.

Definition bf_bpf (c : syscall) : M O Z :=
  fun '(o, k) => let '(r, k) := sys_call c k in ((if r <? 0 then Err r else Ok r), (o, k)).

Definition obj_get : M O O := fun '(o, k) => (Ok o, (o, k)).
Definition obj_put (o : O) : M O unit := fun '(_, k) => (Ok tt, (o, k)).
Definition obj_modify (f : O -> O) : M O unit := fun '(o, k) => (Ok tt, (f o, k)).

Definition token_flags (token_fd flags : Z) : Z * Z :=
  if token_fd =? -1 then (0, flags) else (token_fd, Z.lor flags BPF_F_TOKEN_FD).

Definition bf_bpf_prog_load (name : string) (prog_type : bf_bpf_prog_type) (img : list bpf_insn)
    (attach_type : bf_bpf_attach_type) (token_fd : Z) : M O Z :=
  let '(tok, flags) := token_flags token_fd 0 in
  bf_bpf (SysProgLoad prog_type img attach_type (obj_name name) tok flags).

Definition bf_bpf_map_lookup_elem (fd : Z) (key : list Z) : M O Z := bf_bpf (SysMapLookupElem fd key).

Definition bf_bpf_obj_pin (path : string) (fd dir_fd : Z) : M O Z :=
  bf_bpf (SysObjPin path fd (if dir_fd =? 0 then 0 else BPF_F_PATH_FD) dir_fd).

Definition bf_bpf_obj_get (path : string) (dir_fd : Z) : M O Z :=
  bf_bpf (SysObjGet path (if dir_fd =? 0 then 0 else BPF_F_PATH_FD) dir_fd).

Definition bf_bpf_token_create (bpffs_fd : Z) : M O Z := bf_bpf (SysTokenCreate bpffs_fd).

Definition bf_bpf_btf_load (map_name : string) (token_fd : Z) : M O Z :=
  let '(tok, flags) := token_flags token_fd 0 in bf_bpf (SysBtfLoad map_name tok flags).

(** The sizes are converted to 32 bits. *)
Definition bf_bpf_map_create (name : string) (type : bf_bpf_map_type) (key_size value_size n_elems : Z)
    (btf : option Z) (token_fd : Z) : M O Z :=
  let '(tok, flags) := token_flags token_fd (if decide (type = BF_BPF_MAP_TYPE_LPM_TRIE) then BPF_F_NO_PREALLOC else 0) in
  bf_bpf (SysMapCreate type (u32 key_size) (u32 value_size) (u32 n_elems) flags tok btf (obj_name name)).

Definition bf_bpf_map_update_elem (map_fd : Z) (key value : list Z) (flags : Z) : M O Z :=
  bf_bpf (SysMapUpdateElem map_fd key value flags).

Definition bf_bpf_map_update_batch (map_fd : Z) (keys values : list Z) (count flags : Z) : M O Z :=
  bf_bpf (SysMapUpdateBatch map_fd keys values (u32 count) flags).

Definition bf_bpf_link_update (link_fd new_prog_fd : Z) : M O Z :=
  bf_bpf (SysLinkUpdate link_fd new_prog_fd).
Definition bf_bpf_link_detach (link_fd : Z) : M O Z := bf_bpf (SysLinkDetach link_fd).

(** [closep]: nothing when the descriptor is -1; it is -1 afterwards. *)
Definition closep (fd : Z) (k : K) : Z * K :=
  if fd =? -1 then (-1, k) else (-1, snd (sys_call (SysClose fd) k)).

Lemma closep_fd fd k : fst (closep fd k) = -1.
Proof. unfold closep. by case_match. Qed.
End Calls.

(** * Successful runs *)

Lemma st_bind_ok {S A B} (m : st S A) (k : A -> st S B) s b s' :
  (m ≫= k) s = (Ok b, s') -> exists a s1, m s = (Ok a, s1) /\ k a s1 = (Ok b, s').
Proof.
  unfold mbind, st_bind. destruct (m s) as [[a|e] s1]; [|done]. intros E. by exists a, s1.
Qed.

Lemma st_onerr_ok {S A} (m : st S A) h s a s' : st_onerr m h s = (Ok a, s') -> m s = (Ok a, s').
Proof. unfold st_onerr. by destruct (m s) as [[]]. Qed.

Lemma bf_bpf_obj {K O} `{Sys K} c (o o' : O) (k k' : K) r : bf_bpf c (o, k) = (r, (o', k')) -> o' = o.
Proof. unfold bf_bpf. destruct (sys_call c k). by intros [= _ -> _]. Qed.

Lemma st_fatal_ok {S A} (m : st S A) s a s' : st_fatal m s = (Ok a, s') -> m s = (Ok a, s').
Proof. unfold st_fatal. by destruct (m s) as [[]]. Qed.

(** Split a successful sequence into its steps. *)
Ltac st_inv H :=
  lazymatch type of H with
  | mbind _ _ _ = (Ok _, _) =>
      let a := fresh "a" in let s := fresh "st" in let E := fresh "E" in
      apply st_bind_ok in H as (a & s & E & H); cbn beta iota in H;
      try (match type of a with unit => destruct a end); st_inv H
  | _ => idtac
  end.
