(* ===== verification/Lists.v ===== *)
(** Doubly linked lists: [src/libbpfilter/list.c] and [list.h].

    The rest of the development uses lists of values; this file is about the
    nodes themselves.  The memory maps the address of a node to its content and
    records the pointers given to the callback that frees the data; an access
    to a node that is not there, because it was freed or never allocated, is
    [BF_CRASH].  A pointer is an [option], [None] is [NULL].

    The second part has the predicate by which nodes are the list of their
    data, and what each operation does to it and to the rest of the memory. *)

From S2P Require Import Prelude Hook Sys.

Section Lists.
Context {D : Type}.

Abbreviation addr := positive.
Abbreviation data := (option D).

Record bf_list_node : Type := mk_node { n_data : data; n_prev : option addr; n_next : option addr }.

(** [ops_free] tells whether there is a callback to free the data. *)
Record bf_list_ops : Type := mk_list_ops { ops_free : bool }.

Record bf_list : Type := mk_list { l_len : Z; l_head : option addr; l_tail : option addr; l_ops : bf_list_ops }.

Record memory : Type := mk_memory { m_nodes : gmap addr bf_list_node; m_freed : list data }.

Abbreviation M A := (st (bf_list * memory) A).

(** * Memory *)

Definition load (a : addr) : M bf_list_node := fun '(l, m) =>
  (of_option (- BF_CRASH) (m_nodes m !! a), (l, m)).

Definition store (a : addr) (n : bf_list_node) : M unit := fun '(l, m) =>
  match m_nodes m !! a with
  | Some _ => (Ok tt, (l, mk_memory (<[a := n]> (m_nodes m)) (m_freed m)))
  | None => (Err (- BF_CRASH), (l, m))
  end.

Definition get_list : M bf_list := fun '(l, m) => (Ok l, (l, m)).
Definition put_list (l : bf_list) : M unit := fun '(_, m) => (Ok tt, (l, m)).

Definition with_head (h : option addr) (l : bf_list) : bf_list := mk_list (l_len l) h (l_tail l) (l_ops l).
Definition with_tail (t : option addr) (l : bf_list) : bf_list := mk_list (l_len l) (l_head l) t (l_ops l).
Definition with_len (n : Z) (l : bf_list) : bf_list := mk_list n (l_head l) (l_tail l) (l_ops l).
Definition with_prev (p : option addr) (n : bf_list_node) : bf_list_node := mk_node (n_data n) p (n_next n).
Definition with_next (x : option addr) (n : bf_list_node) : bf_list_node := mk_node (n_data n) (n_prev n) x.

(** [node->prev = p], [node->next = x] *)
Definition set_prev (a : addr) (p : option addr) : M unit := n ← load a; store a (with_prev p n).
Definition set_next (a : addr) (x : option addr) : M unit := n ← load a; store a (with_next x n).

Definition when (o : option addr) (f : addr -> M unit) : M unit :=
  match o with Some a => f a | None => mret tt end.

(** * Nodes *)

Definition bf_list_node_new (d : data) : M addr := fun '(l, m) =>
  let a := fresh (dom (m_nodes m)) in
  (Ok a, (l, mk_memory (<[a := mk_node d None None]> (m_nodes m)) (m_freed m))).

(** The data is freed by the callback, if there is one, then the node. *)
Definition forget (a : addr) (freed : list data) : M unit := fun '(l, m) =>
  (Ok tt, (l, mk_memory (delete a (m_nodes m)) (m_freed m ++ freed))).

Definition bf_list_node_free (a : addr) (free_data : bool) : M unit :=
  n ← load a; forget a (if free_data then [n_data n] else []).

Definition bf_list_node_next (a : addr) : M (option addr) := n ← load a; mret (n_next n).
Definition bf_list_node_prev (a : addr) : M (option addr) := n ← load a; mret (n_prev n).
Definition bf_list_node_get_data (a : addr) : M data := n ← load a; mret (n_data n).
Definition bf_list_node_take_data (a : addr) : M data :=
  n ← load a; store a (mk_node None (n_prev n) (n_next n)) ;; mret (n_data n).

(** * Lists *)

Definition bf_list_ops_default (free_cb : bool) : bf_list_ops := mk_list_ops free_cb.

Definition bf_list_init (ops : option bf_list_ops) : bf_list :=
  mk_list 0 None None (default (bf_list_ops_default false) ops).

Definition bf_list_size (l : bf_list) : Z := l_len l.
Definition bf_list_is_empty (l : bf_list) : bool := l_len l =? 0.
Definition bf_list_is_head (l : bf_list) (a : addr) : bool := bool_decide (Some a = l_head l).
Definition bf_list_is_tail (l : bf_list) (a : addr) : bool := bool_decide (Some a = l_tail l).

Definition bf_list_add_head (d : data) : M unit :=
  a ← bf_list_node_new d;
  l ← get_list;
  set_next a (l_head l) ;;
  when (l_head l) (fun h => set_prev h (Some a)) ;;
  let l := with_head (Some a) l in
  let l := match l_tail l with None => with_tail (Some a) l | Some _ => l end in
  put_list (with_len (l_len l + 1) l).

Definition bf_list_add_tail (d : data) : M unit :=
  a ← bf_list_node_new d;
  l ← get_list;
  set_prev a (l_tail l) ;;
  when (l_tail l) (fun t => set_next t (Some a)) ;;
  let l := with_tail (Some a) l in
  let l := match l_head l with None => with_head (Some a) l | Some _ => l end in
  put_list (with_len (l_len l + 1) l).

(** [*data] is what is left to the caller: nothing. *)
Definition bf_list_push (d : data) : M data := bf_list_add_tail d ;; mret None.

Definition bf_list_delete (a : addr) : M unit :=
  n ← load a;
  l ← get_list;
  let l := if bool_decide (l_head l = Some a) then with_head (n_next n) l else l in
  let l := if bool_decide (l_tail l = Some a) then with_tail (n_prev n) l else l in
  put_list l ;;
  when (n_prev n) (fun p => set_next p (n_next n)) ;;
  when (n_next n) (fun x => set_prev x (n_prev n)) ;;
  bf_list_node_free a (ops_free (l_ops l)) ;;
  put_list (with_len (l_len l - 1) l).

(** The loop of [bf_list_foreach]: the node after the current one is read
    before the body runs, so that the body may free the current one. *)
Definition next_of (step : addr -> M (option addr)) (o : option addr) : M (option addr) :=
  match o with Some a => step a | None => mret None end.

(** The body goes on with a value, or returns from the function. *)
Fixpoint foreach_loop {A R} (fuel : nat) (step : addr -> M (option addr)) (body : addr -> A -> M (A + R))
    (node next : option addr) (acc : A) : M (A + R) :=
  match node with
  | None => mret (inl acc)
  | Some a =>
      match fuel with
      | O => st_err (- BF_CRASH)
      | S fuel =>
          x ← body a acc;
          match x with
          | inr r => mret (inr r)
          | inl acc => next' ← next_of step next; foreach_loop fuel step body next next' acc
          end
      end
  end.

(** A list that is not a cycle has no more nodes than the memory. *)
Definition memory_size : M nat := fun '(l, m) => (Ok (size (m_nodes m)), (l, m)).

Definition foreach {A R} (first : bf_list -> option addr) (step : addr -> M (option addr)) (body : addr -> A -> M (A + R))
    (acc : A) : M (A + R) :=
  l ← get_list;
  next ← next_of step (first l);
  fuel ← memory_size;
  foreach_loop fuel step body (first l) next acc.

Definition bf_list_foreach {A R} : (addr -> A -> M (A + R)) -> A -> M (A + R) := foreach l_head bf_list_node_next.
Definition bf_list_foreach_rev {A R} : (addr -> A -> M (A + R)) -> A -> M (A + R) := foreach l_tail bf_list_node_prev.

Definition clean_node (free_data : bool) (a : addr) (_ : unit) : M (unit + unit) :=
  bf_list_node_free a free_data ;; mret (inl tt).

Definition bf_list_clean : M unit :=
  l ← get_list;
  bf_list_foreach (clean_node (ops_free (l_ops l))) tt ;;
  put_list (mk_list 0 None None (l_ops l)).

(** A list that was allocated, or the pointer of a caller that has none. *)
Definition bf_list_free : M unit := bf_list_clean.

(** [index] is counted down along the list. *)
Definition get_at_node (a : addr) (index : nat) : M (nat + data) :=
  match index with
  | O => d ← bf_list_node_get_data a; mret (inr d)
  | S i => mret (inl i)
  end.

Definition bf_list_get_at (index : nat) : M data :=
  x ← bf_list_foreach get_at_node index;
  mret (match x with inr d => d | inl _ => None end).
End Lists.

(** * Representation *)

Section Segments.
Context {D : Type}.

Abbreviation addr := positive.
Abbreviation cells := (list (addr * option D)).
Abbreviation nodes := (gmap addr (bf_list_node (D := D))).

(** The first address, and the last one, of a segment, or what surrounds it
    when it is empty. *)
Definition first_of (l : cells) (next : option addr) : option addr :=
  match l with [] => next | (a, _) :: _ => Some a end.

Fixpoint last_of (prev : option addr) (l : cells) : option addr :=
  match l with [] => prev | (a, _) :: l => last_of (Some a) l end.

(** The nodes of [l], between [prev] and [next]. *)
Fixpoint segment (h : nodes) (prev : option addr) (l : cells) (next : option addr) : Prop :=
  match l with
  | [] => True
  | (a, d) :: l => h !! a = Some (mk_node d prev (first_of l next)) /\ segment h (Some a) l next
  end.

Lemma first_of_app l1 l2 next : first_of (l1 ++ l2) next = first_of l1 (first_of l2 next).
Proof. by destruct l1 as [|[]]. Qed.

Lemma last_of_app prev l1 l2 : last_of prev (l1 ++ l2) = last_of (last_of prev l1) l2.
Proof. revert prev. induction l1 as [|[a d] l1 IH]; intros prev; [done|apply IH]. Qed.

Lemma segment_app h prev l1 l2 next :
  segment h prev (l1 ++ l2) next <-> segment h prev l1 (first_of l2 next) /\ segment h (last_of prev l1) l2 next.
Proof.
  revert prev. induction l1 as [|[a d] l1 IH]; intros prev; cbn [app segment last_of]; [tauto|].
  rewrite first_of_app, IH. tauto.
Qed.

(** A segment depends on its own nodes. *)
Lemma segment_ext h h' prev l next : (forall a, a ∈ l.*1 -> h' !! a = h !! a) ->
  segment h prev l next -> segment h' prev l next.
Proof.
  revert prev. induction l as [|[a d] l IH]; intros prev He; cbn [segment]; [done|].
  intros [Ha Hl]. split; [rewrite He by (by left); done|]. apply IH; [|done]. intros b Hb. apply He. by right.
Qed.

Lemma segment_insert h a n prev l next : a ∉ l.*1 -> segment h prev l next -> segment (<[a := n]> h) prev l next.
Proof. intros Ha. apply segment_ext. intros b Hb. apply lookup_insert_ne. by intros ->. Qed.

Lemma segment_delete h a prev l next : a ∉ l.*1 -> segment h prev l next -> segment (delete a h) prev l next.
Proof. intros Ha. apply segment_ext. intros b Hb. apply lookup_delete_ne. by intros ->. Qed.

(** The ends of a segment can be moved by writing to one node. *)
Lemma segment_first h prev l next : segment h prev l next -> match l with [] => True | (a, d) :: l => h !! a = Some (mk_node d prev (first_of l next)) end.
Proof. destruct l as [|[a d] l]; [done|]. by intros []. Qed.

Lemma segment_set_prev h prev prev' a d l next : NoDup (a :: l.*1) -> segment h prev ((a, d) :: l) next ->
  segment (<[a := mk_node d prev' (first_of l next)]> h) prev' ((a, d) :: l) next.
Proof.
  intros [Ha _]%NoDup_cons [_ Hl]. split; [by rewrite lookup_insert_eq|]. by apply segment_insert.
Qed.

Lemma segment_set_next h prev l a d next next' : NoDup ((l ++ [(a, d)]).*1) -> segment h prev (l ++ [(a, d)]) next ->
  segment (<[a := mk_node d (last_of prev l) next']> h) prev (l ++ [(a, d)]) next'.
Proof.
  rewrite fmap_app. intros (_ & Ha & _)%NoDup_app. rewrite !segment_app. intros [Hl _]. cbn [first_of] in *.
  split; [|by split; [rewrite lookup_insert_eq|]].
  apply segment_insert; [|done]. intros Hin. apply (Ha a Hin). by left.
Qed.

Lemma segment_lookup h prev l next a : segment h prev l next -> a ∈ l.*1 -> is_Some (h !! a).
Proof.
  revert prev. induction l as [|[b d] l IH]; intros prev; cbn; [by intros _ ?%elem_of_nil|].
  intros [Hb Hl] [->|Ha]%elem_of_cons; [by eexists|by eapply IH].
Qed.

(** A memory has all the nodes of a list. *)
Lemma segment_size h prev l next : NoDup l.*1 -> segment h prev l next -> (length l <= size h)%nat.
Proof.
  intros Hn Hs. rewrite <- (length_fmap fst), <- (size_list_to_set (C := gset addr)) by done.
  rewrite <- (size_dom (D := gset addr)). apply subseteq_size. intros a Ha%elem_of_list_to_set.
  apply elem_of_dom. by eapply segment_lookup.
Qed.
End Segments.

Section Operations.
Context {D : Type}.

Abbreviation addr := positive.
Abbreviation cells := (list (addr * option D)).
Abbreviation nodes := (gmap addr (bf_list_node (D := D))).

(** The list [lst] has the cells [l]: the memory is that of the cells, next to
    the nodes [h0] of others, that the list does not touch. *)
Record list_at (h0 : nodes) (lst : bf_list) (h : nodes) (l : cells) : Prop := mk_list_at {
  la_len : l_len lst = Z.of_nat (length l);
  la_head : l_head lst = first_of l None;
  la_tail : l_tail lst = last_of None l;
  la_nodup : NoDup l.*1;
  la_seg : segment h None l None;
  la_frame : forall b, b ∉ l.*1 -> h !! b = h0 !! b;
  la_apart : forall b, b ∈ l.*1 -> h0 !! b = None
}.

Lemma list_at_init h0 ops : list_at h0 (bf_list_init ops) h0 [].
Proof. split; try done; [constructor|]. by intros b ?%elem_of_nil. Qed.

(** ** Memory *)

Lemma set_prev_run a p (n : bf_list_node (D := D)) lst (m : memory) : m_nodes m !! a = Some n ->
  set_prev a p (lst, m) = (Ok tt, (lst, mk_memory (<[a := with_prev p n]> (m_nodes m)) (m_freed m))).
Proof. intros Ha. unfold set_prev, load, store, mbind, st_bind. cbn. rewrite Ha. cbn. by rewrite ?Ha. Qed.

Lemma set_next_run a x (n : bf_list_node (D := D)) lst (m : memory) : m_nodes m !! a = Some n ->
  set_next a x (lst, m) = (Ok tt, (lst, mk_memory (<[a := with_next x n]> (m_nodes m)) (m_freed m))).
Proof. intros Ha. unfold set_next, load, store, mbind, st_bind. cbn. rewrite Ha. cbn. by rewrite ?Ha. Qed.

Lemma free_run a (n : bf_list_node (D := D)) lst (m : memory) cb : m_nodes m !! a = Some n ->
  bf_list_node_free a cb (lst, m) =
  (Ok tt, (lst, mk_memory (delete a (m_nodes m)) (m_freed m ++ if cb then [n_data n] else []))).
Proof. intros Ha. unfold bf_list_node_free, load, forget, mbind, st_bind. cbn. by rewrite Ha. Qed.

(** A new node is none of those there are. *)
Lemma new_apart h0 lst h l : list_at h0 lst h l ->
  let a := fresh (dom h) in (a ∉ l.*1) /\ h0 !! a = None.
Proof.
  intros Hl a. assert (h !! a = None) as Ha by (apply not_elem_of_dom, is_fresh).
  assert (a ∉ l.*1) as Hn.
  { intros Hin. destruct (segment_lookup h None l None a (la_seg _ _ _ _ Hl) Hin) as [n Hn]. congruence. }
  split; [done|]. by rewrite <- (la_frame _ _ _ _ Hl).
Qed.

(** Writing to cells of the list keeps the frame. *)
Lemma frame_insert (h0 h : nodes) (as_ : list addr) a n : a ∈ as_ ->
  (forall b, b ∉ as_ -> h !! b = h0 !! b) -> forall b, b ∉ as_ -> (<[a := n]> h) !! b = h0 !! b.
Proof. intros Ha Hf b Hb. rewrite lookup_insert_ne; [by apply Hf|]. by intros ->. Qed.

Lemma last_of_some a (l : cells) : is_Some (last_of (Some a) l).
Proof. revert a. induction l as [|[b x] l IH]; intros a; [by eexists|apply IH]. Qed.

(** ** Adding *)

(** A node before the others, and a node after the others. *)
Lemma segment_cons (h : nodes) a d b x l : a ∉ ((b, x) :: l).*1 -> NoDup ((b, x) :: l).*1 ->
  segment h None ((b, x) :: l) None ->
  segment (<[b := mk_node x (Some a) (first_of l None)]> (<[a := mk_node d None (Some b)]> h)) None ((a, d) :: (b, x) :: l) None.
Proof.
  intros Ha Hn Hs. cbn [fmap list_fmap fst] in Ha. apply not_elem_of_cons in Ha as Ha'. destruct Ha' as [Hab Hal].
  split; [by rewrite lookup_insert_ne, lookup_insert_eq|].
  eapply segment_set_prev; [done|]. by apply segment_insert.
Qed.

Lemma segment_snoc (h : nodes) a d l b x : a ∉ (l ++ [(b, x)]).*1 -> NoDup (l ++ [(b, x)]).*1 ->
  segment h None (l ++ [(b, x)]) None ->
  segment (<[b := mk_node x (last_of None l) (Some a)]> (<[a := mk_node d (Some b) None]> h)) None ((l ++ [(b, x)]) ++ [(a, d)]) None.
Proof.
  intros Ha Hn Hs. apply segment_app. split.
  - apply (segment_set_next _ _ _ _ _ None); [done|]. by apply segment_insert.
  - rewrite last_of_app. split; [|done]. cbn. rewrite fmap_app, elem_of_app in Ha.
    rewrite lookup_insert_ne, lookup_insert_eq; [done|]. intros ->. apply Ha. right. by left.
Qed.

Lemma add_head_ok h0 lst m l d : list_at h0 lst (m_nodes m) l ->
  exists a lst' h', bf_list_add_head d (lst, m) = (Ok tt, (lst', mk_memory h' (m_freed m))) /\
    list_at h0 lst' h' ((a, d) :: l) /\ l_ops lst' = l_ops lst.
Proof.
  intros Hl. destruct (new_apart _ _ _ _ Hl) as [Hn H0]. destruct Hl as [Hlen Hh Ht Hnd Hs Hf Hap].
  set (a := fresh (dom (m_nodes m))) in *. unfold bf_list_add_head, mbind, st_bind, bf_list_node_new, get_list.
  fold a. erewrite set_next_run by apply lookup_insert_eq. cbn [m_nodes m_freed with_next n_data n_prev].
  rewrite insert_insert_eq, Hh.
  assert (forall b, b ∈ ((a, d) :: l).*1 -> h0 !! b = None) as Hap'.
  { intros b [->|Hb]%elem_of_cons; [done|by apply Hap]. }
  assert (forall n b, b ∉ ((a, d) :: l).*1 -> (<[a := n]> (m_nodes m)) !! b = h0 !! b) as Hf'.
  { intros n. apply frame_insert; [by left|]. intros b Hb. apply Hf. intros Hin. apply Hb. by right. }
  assert (NoDup ((a, d) :: l).*1) as Hnd' by (by apply NoDup_cons).
  destruct l as [|[b x] l]; cbn [first_of when] in *; exists a; do 2 eexists.
  - change (l_tail (with_head (Some a) lst)) with (l_tail lst). rewrite Ht. split; [reflexivity|]. split; [|done].
    split; try first [done|apply Hf'].
    + cbn. by rewrite Hlen.
    + split; [by rewrite lookup_insert_eq|done].
  - erewrite set_prev_run by (cbn [m_nodes]; rewrite lookup_insert_ne by (intros ->; apply Hn; by left); by apply Hs).
    change (l_tail (with_head (Some a) lst)) with (l_tail lst). rewrite Ht. cbn [last_of].
    destruct (last_of_some b l) as [t Hlt]. rewrite Hlt. split; [reflexivity|]. split; [|done].
    split; cbn [with_len with_head l_len l_head l_tail l_ops]; try done.
    + rewrite Hlen. cbn [length]. lia.
    + by apply segment_cons.
    + apply frame_insert; [right; by left|]. apply Hf'.
Qed.

Lemma add_tail_ok h0 lst m l d : list_at h0 lst (m_nodes m) l ->
  exists a lst' h', bf_list_add_tail d (lst, m) = (Ok tt, (lst', mk_memory h' (m_freed m))) /\
    list_at h0 lst' h' (l ++ [(a, d)]) /\ l_ops lst' = l_ops lst.
Proof.
  intros Hl. destruct (new_apart _ _ _ _ Hl) as [Hn H0]. destruct Hl as [Hlen Hh Ht Hnd Hs Hf Hap].
  set (a := fresh (dom (m_nodes m))) in *. unfold bf_list_add_tail, mbind, st_bind, bf_list_node_new, get_list.
  fold a. erewrite set_prev_run by apply lookup_insert_eq. cbn [m_nodes m_freed with_prev n_data n_next].
  rewrite insert_insert_eq, Ht.
  assert (forall b, b ∈ (l ++ [(a, d)]).*1 -> h0 !! b = None) as Hap'.
  { intros b. rewrite fmap_app. intros [Hb|[->|?%elem_of_nil]%elem_of_cons]%elem_of_app; [by apply Hap|done..]. }
  assert (forall n b, b ∉ (l ++ [(a, d)]).*1 -> (<[a := n]> (m_nodes m)) !! b = h0 !! b) as Hf'.
  { intros n. rewrite fmap_app. apply frame_insert; [apply elem_of_app; right; by left|].
    intros b Hb. apply Hf. intros Hin. apply Hb, elem_of_app. by left. }
  assert (NoDup (l ++ [(a, d)]).*1) as Hnd'.
  { rewrite fmap_app. apply NoDup_app. split_and!; [done| |apply NoDup_singleton].
    intros b Hb [->|?%elem_of_nil]%elem_of_cons; done. }
  destruct l as [|[b x] l _] using rev_ind; cbn [last_of when] in *; exists a; do 2 eexists.
  - change (l_head (with_tail (Some a) lst)) with (l_head lst). rewrite Hh. split; [reflexivity|]. split; [|done].
    split; try first [done|apply Hf'].
    + cbn. by rewrite Hlen.
    + split; [by rewrite lookup_insert_eq|done].
  - rewrite last_of_app in *. cbn [last_of when].
    erewrite set_next_run.
    2: { cbn [m_nodes]. rewrite lookup_insert_ne by (intros ->; apply Hn; rewrite fmap_app; apply elem_of_app; right; by left).
         apply segment_app in Hs as [_ [Hb _]]. exact Hb. }
    change (l_head (with_tail (Some a) lst)) with (l_head lst). rewrite Hh. destruct (first_of (l ++ [(b, x)]) None) as [t|] eqn:Hft; [|by destruct l as [|[]]].
    split; [reflexivity|]. split; [|done]. split; cbn [with_len with_tail l_len l_head l_tail l_ops]; try done.
    + rewrite Hlen, !length_app. cbn [length]. lia.
    + rewrite Hh. by destruct l as [|[]].
    + by rewrite last_of_app.
    + by apply segment_snoc.
    + apply frame_insert; [rewrite !fmap_app; apply elem_of_app; left; apply elem_of_app; right; by left|]. apply Hf'.
Qed.

(** ** Deleting *)

(** The node before [a], if any, and the node after it, are linked to others. *)
Lemma relink_next (l : cells) (h : nodes) fr lst next next' : NoDup l.*1 -> segment h None l next ->
  exists h', when (last_of None l) (fun p => set_next p next') (lst, mk_memory h fr) = (Ok tt, (lst, mk_memory h' fr)) /\
    segment h' None l next' /\ (forall b, b ∉ l.*1 -> h' !! b = h !! b).
Proof.
  intros Hn Hs. destruct l as [|[a d] l _] using rev_ind; [by exists h|].
  rewrite last_of_app. cbn [last_of when]. apply segment_app in Hs as Hs'. destruct Hs' as [_ [Ha _]].
  erewrite set_next_run by exact Ha. eexists. split; [reflexivity|].
  split; [by eapply segment_set_next|]. apply frame_insert; [|done].
  rewrite fmap_app. apply elem_of_app. right. by left.
Qed.

Lemma relink_prev (l : cells) (h : nodes) fr lst prev prev' : NoDup l.*1 -> segment h prev l None ->
  exists h', when (first_of l None) (fun x => set_prev x prev') (lst, mk_memory h fr) = (Ok tt, (lst, mk_memory h' fr)) /\
    segment h' prev' l None /\ (forall b, b ∉ l.*1 -> h' !! b = h !! b).
Proof.
  intros Hn Hs. destruct l as [|[a d] l]; [by exists h|]. cbn [first_of when]. pose proof (proj1 Hs) as Ha.
  erewrite set_prev_run by exact Ha. eexists. split; [reflexivity|].
  split; [by eapply segment_set_prev|]. apply frame_insert; [by left|done].
Qed.

(** The ends of a list without one of its cells. *)
Lemma first_without (l1 l2 : cells) a x : NoDup (l1 ++ (a, x) :: l2).*1 ->
  (if bool_decide (first_of (l1 ++ (a, x) :: l2) None = Some a) then first_of l2 None
   else first_of (l1 ++ (a, x) :: l2) None) = first_of (l1 ++ l2) None.
Proof.
  intros Hn. destruct l1 as [|[b y] l1]; cbn [app first_of]; [by rewrite bool_decide_eq_true_2|].
  rewrite bool_decide_eq_false_2; [done|]. intros [= ->]. cbn in Hn. apply NoDup_cons in Hn as [Hn _]. apply Hn.
  rewrite fmap_app. apply elem_of_app. right. by left.
Qed.

Lemma last_elem a (l : cells) : exists b, last_of (Some a) l = Some b /\ b ∈ a :: l.*1.
Proof.
  revert a. induction l as [|[b x] l IH]; intros a; cbn [last_of]; [exists a; split; [done|by left]|].
  destruct (IH b) as (c & Hc & Hin). exists c. split; [done|by right].
Qed.

Lemma last_without (l1 l2 : cells) a x : NoDup (l1 ++ (a, x) :: l2).*1 ->
  (if bool_decide (last_of None (l1 ++ (a, x) :: l2) = Some a) then last_of None l1
   else last_of None (l1 ++ (a, x) :: l2)) = last_of None (l1 ++ l2).
Proof.
  intros Hn. rewrite !last_of_app. cbn [last_of]. destruct l2 as [|[b y] l2]; cbn [last_of]; [by rewrite bool_decide_eq_true_2|].
  rewrite bool_decide_eq_false_2; [done|]. destruct (last_elem b l2) as (c & -> & Hc). intros [= ->].
  rewrite fmap_app in Hn. apply NoDup_app in Hn as (_ & _ & Hn). cbn in Hn. by apply NoDup_cons in Hn as [Hn _].
Qed.

Lemma delete_ok h0 lst h fr l1 a x l2 : list_at h0 lst h (l1 ++ (a, x) :: l2) ->
  exists lst' h', bf_list_delete a (lst, mk_memory h fr) =
      (Ok tt, (lst', mk_memory h' (fr ++ if ops_free (l_ops lst) then [x] else []))) /\
    list_at h0 lst' h' (l1 ++ l2) /\ l_ops lst' = l_ops lst.
Proof.
  intros [Hlen Hh Ht Hnd Hs Hf Hap]. pose proof Hnd as Hnd'. rewrite fmap_app in Hnd'. cbn [fmap list_fmap fst] in Hnd'.
  apply NoDup_app in Hnd' as (Hn1 & Hn12 & [Ha2 Hn2]%NoDup_cons). fold (l2.*1) in *.
  assert (a ∉ l1.*1) as Ha1 by (intros Hin; apply (Hn12 a Hin); by left).
  pose proof Hs as Hs'. apply segment_app in Hs' as [Hs1 [Ha Hs2]]. cbn [first_of] in Hs1.
  destruct (relink_next l1 h fr (mk_list (l_len lst) (first_of (l1 ++ l2) None) (last_of None (l1 ++ l2)) (l_ops lst))
    (Some a) (first_of l2 None) Hn1 Hs1) as (h1 & E1 & Hs1' & Hf1).
  assert (segment h1 (Some a) l2 None) as Hs2'.
  { eapply segment_ext; [|exact Hs2]. intros b Hb. apply Hf1. intros Hin. apply (Hn12 b Hin). by right. }
  destruct (relink_prev l2 h1 fr (mk_list (l_len lst) (first_of (l1 ++ l2) None) (last_of None (l1 ++ l2)) (l_ops lst))
    (Some a) (last_of None l1) Hn2 Hs2') as (h2 & E2 & Hs2'' & Hf2).
  assert (h2 !! a = Some (mk_node x (last_of None l1) (first_of l2 None))) as Ha'.
  { by rewrite Hf2, Hf1 by done. }
  exists (mk_list (l_len lst - 1) (first_of (l1 ++ l2) None) (last_of None (l1 ++ l2)) (l_ops lst)), (delete a h2).
  split; [|split; [|done]].
  - unfold bf_list_delete, load, get_list, put_list, mbind, st_bind. cbn. rewrite Ha. cbn [of_option n_prev n_next].
    assert ((if bool_decide (l_tail (if bool_decide (l_head lst = Some a) then with_head (first_of l2 None) lst else lst) = Some a)
             then with_tail (last_of None l1) (if bool_decide (l_head lst = Some a) then with_head (first_of l2 None) lst else lst)
             else (if bool_decide (l_head lst = Some a) then with_head (first_of l2 None) lst else lst)) =
            mk_list (l_len lst) (first_of (l1 ++ l2) None) (last_of None (l1 ++ l2)) (l_ops lst)) as ->.
    { rewrite <- (first_without l1 l2 a x Hnd), <- (last_without l1 l2 a x Hnd), <- Hh, <- Ht.
      destruct lst; cbn. by repeat case_bool_decide. }
    rewrite E1, E2. cbn [l_ops]. erewrite free_run by exact Ha'. done.
  - split; cbn [l_len l_head l_tail]; try done.
    + rewrite Hlen, !length_app. cbn [length]. lia.
    + rewrite fmap_app. apply NoDup_app. split_and!; [done| |done]. intros b Hb Hb2. apply (Hn12 b Hb). by right.
    + apply segment_delete; [by rewrite fmap_app, elem_of_app; intros [|]|]. apply segment_app. split; [|done].
      eapply segment_ext; [|exact Hs1']. intros b Hb. apply Hf2. intros Hb2. apply (Hn12 b Hb). by right.
    + intros b. rewrite fmap_app, not_elem_of_app. intros [Hb1 Hb2]. destruct (decide (b = a)) as [->|Hba].
      * rewrite lookup_delete_eq. symmetry. apply Hap. rewrite fmap_app. apply elem_of_app. right. by left.
      * rewrite lookup_delete_ne, Hf2, Hf1 by done. apply Hf. rewrite fmap_app, not_elem_of_app. split; [done|].
        by apply not_elem_of_cons.
    + intros b Hb. apply Hap. rewrite !fmap_app, !elem_of_app in *. destruct Hb; [by left|right; by right].
Qed.
End Operations.

Section Loops.
Context {D A R : Type}.

Abbreviation cells := (list (positive * option D)).
Abbreviation state := (bf_list * memory (D := D))%type.

(** A loop over the cells [l]: the body keeps [P], which tells where the cells
    that are left are, or returns. *)
Lemma foreach_loop_run (step : positive -> st state (option positive)) (body : positive -> A -> st state (A + R))
    (P : cells -> A -> state -> Prop) (Q : R -> state -> Prop) :
  (forall a d l acc s, P ((a, d) :: l) acc s -> exists x s', body a acc s = (Ok x, s') /\
     match x with inl acc' => P l acc' s' | inr r => Q r s' end) ->
  (forall a d l acc s, P ((a, d) :: l) acc s -> step a s = (Ok (first_of l None), s)) ->
  forall l fuel acc s, P l acc s -> (length l <= fuel)%nat ->
  exists x s', foreach_loop fuel step body (first_of l None) (first_of (tail l) None) acc s = (Ok x, s') /\
    match x with inl acc' => P [] acc' s' | inr r => Q r s' end.
Proof.
  intros Hb Hst. induction l as [|[a d] l IH]; intros fuel acc s HP Hf; cbn [first_of tail].
  - exists (inl acc), s. split; [by destruct fuel|done].
  - destruct fuel as [|fuel]; [cbn in Hf; lia|]. cbn [foreach_loop]. unfold mbind, st_bind.
    destruct (Hb a d l acc s HP) as ([acc'|r] & s1 & E1 & H1); rewrite E1; [|by exists (inr r), s1].
    assert (next_of step (first_of l None) s1 = (Ok (first_of (tail l) None), s1)) as ->.
    { destruct l as [|[b y] l]; [done|]. exact (Hst b y l acc' s1 H1). }
    apply IH; [done|]. cbn in Hf. lia.
Qed.

Lemma foreach_run first (step : positive -> st state (option positive)) (body : positive -> A -> st state (A + R))
    (P : cells -> A -> state -> Prop) (Q : R -> state -> Prop) l acc s :
  (forall a d l acc s, P ((a, d) :: l) acc s -> exists x s', body a acc s = (Ok x, s') /\
     match x with inl acc' => P l acc' s' | inr r => Q r s' end) ->
  (forall a d l acc s, P ((a, d) :: l) acc s -> step a s = (Ok (first_of l None), s)) ->
  P l acc s -> first (fst s) = first_of l None -> (length l <= base.size (m_nodes (snd s)))%nat ->
  exists x s', foreach first step body acc s = (Ok x, s') /\
    match x with inl acc' => P [] acc' s' | inr r => Q r s' end.
Proof.
  intros Hb Hst HP Hfi Hsz. unfold foreach, get_list, memory_size, mbind, st_bind. destruct s as [lst m]. cbn [fst snd] in *.
  rewrite Hfi. assert (next_of step (first_of l None) (lst, m) = (Ok (first_of (tail l) None), (lst, m))) as ->.
  { destruct l as [|[b y] l]; [done|]. exact (Hst b y l acc _ HP). }
  exact (foreach_loop_run step body P Q Hb Hst l _ acc _ HP Hsz).
Qed.
End Loops.

Section Walks.
Context {D : Type}.

Abbreviation cells := (list (positive * option D)).
Abbreviation state := (bf_list * memory (D := D))%type.

Lemma list_at_size h0 lst h (l : cells) : list_at h0 lst h l -> (length l <= base.size h)%nat.
Proof. intros Hl. eapply segment_size; [apply Hl|exact (la_seg _ _ _ _ Hl)]. Qed.

Lemma next_run (lst : bf_list) (m : memory (D := D)) a n : m_nodes m !! a = Some n ->
  bf_list_node_next a (lst, m) = (Ok (n_next n), (lst, m)).
Proof. intros Ha. unfold bf_list_node_next, load, mbind, st_bind. cbn. by rewrite Ha. Qed.

Lemma prev_run (lst : bf_list) (m : memory (D := D)) a n : m_nodes m !! a = Some n ->
  bf_list_node_prev a (lst, m) = (Ok (n_prev n), (lst, m)).
Proof. intros Ha. unfold bf_list_node_prev, load, mbind, st_bind. cbn. by rewrite Ha. Qed.

Lemma data_run (lst : bf_list) (m : memory (D := D)) a n : m_nodes m !! a = Some n ->
  bf_list_node_get_data a (lst, m) = (Ok (n_data n), (lst, m)).
Proof. intros Ha. unfold bf_list_node_get_data, load, mbind, st_bind. cbn. by rewrite Ha. Qed.

(** ** Cleaning *)

(** The cells [l] are left; those before are freed. *)
Definition cleaning (h0 : gmap positive bf_list_node) (lst : bf_list) (cb : bool) (fr : list (option D))
    (all l : cells) (_ : unit) (s : state) : Prop :=
  fst s = lst /\ exists prev done, all = done ++ l /\ NoDup l.*1 /\ segment (m_nodes (snd s)) prev l None /\
    (forall b, b ∉ l.*1 -> m_nodes (snd s) !! b = h0 !! b) /\ (forall b, b ∈ l.*1 -> h0 !! b = None) /\
    m_freed (snd s) = fr ++ if cb then done.*2 else [].

Lemma clean_ok h0 lst h fr (l : cells) : list_at h0 lst h l ->
  bf_list_clean (lst, mk_memory h fr) =
    (Ok tt, (bf_list_init (Some (l_ops lst)), mk_memory h0 (fr ++ if ops_free (l_ops lst) then l.*2 else []))).
Proof.
  intros Hl. destruct (foreach_run (R := unit) l_head bf_list_node_next (clean_node (ops_free (l_ops lst)))
    (cleaning h0 lst (ops_free (l_ops lst)) fr l) (fun _ _ => False) l tt (lst, mk_memory h fr)) as (x & s & E & Hx).
  - clear. intros a d l1 [] [lst1 m] (E & prev & done & -> & Hn & [Ha Hs] & Hf & H0 & Hfr). cbn [fst snd] in *. subst lst1.
    apply NoDup_cons in Hn as [Hna Hn].
    exists (inl tt). eexists. split; [unfold clean_node, mbind, st_bind; by erewrite free_run by exact Ha|].
    split; [done|]. exists (Some a), (done ++ [(a, d)]). cbn [snd m_nodes m_freed n_data].
    split; [by rewrite <- app_assoc|]. split; [done|]. split; [by apply segment_delete|]. split_and!.
    + intros b Hb. destruct (decide (b = a)) as [->|Hba].
      * rewrite lookup_delete_eq. symmetry. apply H0. by left.
      * rewrite lookup_delete_ne by done. apply Hf. by apply not_elem_of_cons.
    + intros b Hb. apply H0. by right.
    + rewrite Hfr. destruct (ops_free _); [|by rewrite !app_nil_r]. by rewrite <- app_assoc, fmap_app.
  - clear. intros a d l1 [] [lst1 m] (E & prev & done & _ & _ & [Ha _] & _). cbn [fst snd] in *. by erewrite next_run by exact Ha.
  - split; [done|]. destruct Hl as [_ _ _ Hn Hs Hf H0]. exists None, []. cbn [snd m_nodes m_freed app]. split_and!; try done.
    by destruct (ops_free _); rewrite app_nil_r.
  - apply Hl.
  - by eapply list_at_size.
  - unfold bf_list_clean, bf_list_foreach, get_list, put_list, mbind, st_bind. cbn [fst]. rewrite E. destruct x as [[]|]; [|done].
    destruct s as [lst1 m1]. destruct Hx as (E1 & prev & done & -> & _ & _ & Hf & _ & Hfr). cbn [fst snd] in *.
    f_equal. f_equal. rewrite app_nil_r. destruct m1 as [h1 fr1]. cbn in *. rewrite Hfr. f_equal. apply map_eq.
    intros b. apply Hf, not_elem_of_nil.
Qed.

(** ** Reading *)

(** The loop that collects the data of the nodes. *)
Definition collect (a : positive) (acc : list (option D)) : st state (list (option D) + unit) :=
  d ← bf_list_node_get_data a; mret (inl (acc ++ [d])).

Definition contents : st state (list (option D) + unit) := bf_list_foreach collect [].
Definition contents_rev : st state (list (option D) + unit) := bf_list_foreach_rev collect [].

Lemma collect_run h0 lst (all done l : cells) m a d acc : list_at h0 lst (m_nodes m) all -> all = done ++ (a, d) :: l ->
  exists n, m_nodes m !! a = Some n /\ n_next n = first_of l None /\ n_prev n = last_of None done /\ n_data n = d /\
    collect a acc (lst, m) = (Ok (inl (acc ++ [d])), (lst, m)).
Proof.
  intros Hl ->. pose proof (la_seg _ _ _ _ Hl) as Hs. apply segment_app in Hs as [_ [Ha _]].
  eexists. split; [exact Ha|]. do 3 (split; [done|]). unfold collect, mbind, st_bind. by erewrite data_run by exact Ha.
Qed.

Lemma contents_ok h0 lst m (l : cells) : list_at h0 lst (m_nodes m) l ->
  contents (lst, m) = (Ok (inl l.*2), (lst, m)).
Proof.
  intros Hl. destruct (foreach_run l_head bf_list_node_next collect
    (fun rest acc s => s = (lst, m) /\ exists done, l = done ++ rest /\ acc = done.*2) (fun _ _ => False) l [] (lst, m))
    as (x & s & E & Hx).
  - intros a d rest acc s (-> & done & E & ->). destruct (collect_run _ _ _ _ _ m _ _ (done.*2) Hl E) as (n & _ & _ & _ & _ & Ec).
    rewrite Ec. do 2 eexists. split; [reflexivity|]. split; [reflexivity|]. exists (done ++ [(a, d)]). by rewrite <- app_assoc, fmap_app.
  - intros a d rest acc s (-> & done & E & _). destruct (collect_run _ _ _ _ _ m _ _ [] Hl E) as (n & Hn & <- & _).
    by apply next_run.
  - split; [done|]. by exists [].
  - apply Hl.
  - by eapply list_at_size.
  - unfold contents, bf_list_foreach. rewrite E. destruct x as [acc|]; [|done]. destruct Hx as (-> & done & -> & ->).
    by rewrite app_nil_r.
Qed.

Lemma last_of_rev (l : cells) : last_of None (rev l) = first_of l None.
Proof. destruct l as [|[a d] l]; [done|]. cbn [rev]. by rewrite last_of_app. Qed.

Lemma contents_rev_ok h0 lst m (l : cells) : list_at h0 lst (m_nodes m) l ->
  contents_rev (lst, m) = (Ok (inl (rev l.*2)), (lst, m)).
Proof.
  intros Hl. destruct (foreach_run l_tail bf_list_node_prev collect
    (fun rest acc s => s = (lst, m) /\ exists done, l = rev rest ++ done /\ acc = rev done.*2) (fun _ _ => False) (rev l) [] (lst, m))
    as (x & s & E & Hx).
  - intros a d rest acc s (-> & done & E & ->). cbn [rev] in E. rewrite <- app_assoc in E. cbn [app] in E.
    destruct (collect_run _ _ _ _ _ m _ _ (rev done.*2) Hl E) as (n & _ & _ & _ & _ & Ec).
    rewrite Ec. do 2 eexists. split; [reflexivity|]. split; [reflexivity|]. by exists ((a, d) :: done).
  - intros a d rest acc s (-> & done & E & _). cbn [rev] in E. rewrite <- app_assoc in E. cbn [app] in E.
    destruct (collect_run _ _ _ _ _ m _ _ [] Hl E) as (n & Hn & _ & Hp & _).
    erewrite prev_run by exact Hn. by rewrite Hp, last_of_rev.
  - split; [done|]. exists []. by rewrite rev_involutive, app_nil_r.
  - cbn [fst]. rewrite (la_tail _ _ _ _ Hl). rewrite <- (last_of_rev (rev l)). by rewrite rev_involutive.
  - rewrite length_rev. by eapply list_at_size.
  - unfold contents_rev, bf_list_foreach_rev. rewrite E. destruct x as [acc|]; [|done]. destruct Hx as (-> & done & -> & ->). done.
Qed.

(** A loop that stops at the cell [index]. *)
Lemma index_ok {R} (body : positive -> nat -> st state (nat + R)) (f : positive * option D -> R) h0 lst m (l : cells) index :
  list_at h0 lst (m_nodes m) l ->
  (forall a d i, (a, d) ∈ l -> body a i (lst, m) = (Ok (match i with O => inr (f (a, d)) | S i => inl i end), (lst, m))) ->
  bf_list_foreach body index (lst, m) =
    (Ok (match l !! index with Some c => inr (f c) | None => inl (index - length l)%nat end), (lst, m)).
Proof.
  intros Hl Hb. destruct (foreach_run l_head bf_list_node_next body
    (fun rest i s => s = (lst, m) /\ exists done, l = done ++ rest /\ index = (length done + i)%nat)
    (fun r s => s = (lst, m) /\ exists c, l !! index = Some c /\ r = f c) l index (lst, m)) as (x & s & E & Hx).
  - intros a d rest i s (-> & done & E & Hi). rewrite (Hb a d i) by (rewrite E; apply elem_of_app; right; by left).
    do 2 eexists. split; [reflexivity|]. destruct i as [|i]; (split; [done|]).
    + exists (a, d). split; [|done]. rewrite E, Hi, Nat.add_0_r. by apply list_lookup_middle.
    + exists (done ++ [(a, d)]). rewrite <- app_assoc, length_app. split; [done|]. cbn [length]. lia.
  - intros a d rest i s (-> & done & E & _). destruct (collect_run _ _ _ _ _ m _ _ [] Hl E) as (n & Hn & <- & _).
    by apply next_run.
  - split; [done|]. by exists [].
  - apply Hl.
  - by eapply list_at_size.
  - unfold bf_list_foreach. rewrite E. destruct x as [i|r].
    + destruct Hx as (-> & done & -> & ->). rewrite app_nil_r.
      rewrite (proj2 (lookup_ge_None done (length done + i))) by lia. repeat f_equal. lia.
    + destruct Hx as (-> & c & -> & ->). done.
Qed.

Lemma get_at_ok h0 lst m (l : cells) index : list_at h0 lst (m_nodes m) l ->
  bf_list_get_at index (lst, m) = (Ok (mjoin (l.*2 !! index)), (lst, m)).
Proof.
  intros Hl. unfold bf_list_get_at, mbind, st_bind.
  rewrite (index_ok get_at_node snd h0 lst m l index Hl).
  - rewrite list_lookup_fmap. by destruct (l !! index).
  - intros a d i Hin. apply list_elem_of_split in Hin as (l1 & l2 & El). destruct i as [|i]; [|done].
    destruct (collect_run _ _ _ _ _ m _ _ [] Hl El) as (n & Hn & _ & _ & Hd & _).
    unfold get_at_node, mbind, st_bind. erewrite data_run by exact Hn. rewrite Hd. done.
Qed.
End Walks.

(** * The rest of the memory *)

Section Frame.
Context {D : Type}.

Lemma list_at_others h0 lst h (l : list (positive * option D)) a n : list_at h0 lst h l -> h0 !! a = Some n -> h !! a = Some n.
Proof.
  intros Hl Ha. destruct (decide (a ∈ l.*1)) as [Hin|Hout].
  - by rewrite (la_apart _ _ _ _ Hl a Hin) in Ha.
  - by rewrite (la_frame _ _ _ _ Hl a Hout).
Qed.

(** There is a node for each element, and no other one. *)
Lemma list_at_nodes h0 lst h (l : list (positive * option D)) : list_at h0 lst h l ->
  base.size h = (base.size h0 + length l)%nat.
Proof.
  intros Hl. rewrite <- (length_fmap fst), <- (size_list_to_set (C := gset positive)) by apply Hl.
  rewrite <- !(size_dom (D := gset positive)), <- size_union.
  - f_equal. apply leibniz_equiv. intros a. rewrite elem_of_union, !elem_of_dom, elem_of_list_to_set.
    destruct (decide (a ∈ l.*1)) as [Hin|Hout].
    + split; [by right|]. intros _. exact (segment_lookup _ _ _ _ _ (la_seg _ _ _ _ Hl) Hin).
    + rewrite (la_frame _ _ _ _ Hl a Hout). split; [by left|by intros []].
  - intros a Ha Hin%elem_of_list_to_set. apply elem_of_dom in Ha as [n Hn]. by rewrite (la_apart _ _ _ _ Hl a Hin) in Hn.
Qed.
End Frame.

(** * Sequences of operations *)

Lemma delete_ge {A} (l : list A) i : (length l <= i)%nat -> delete i l = l.
Proof.
  revert i. induction l as [|x l IH]; intros [|i] Hi; cbn in *; try done; [lia|]. f_equal. apply IH. lia.
Qed.

Section Commands.
Context {D : Type}.

Abbreviation state := (bf_list * memory (D := D))%type.

(** What clients do: add, delete the node they found in a loop, clean. *)
Inductive list_cmd : Type :=
| AddHead (d : option D)
| AddTail (d : option D)
| DeleteAt (index : nat)
| Clean.

Definition node_at (index : nat) : st state (nat + positive) :=
  bf_list_foreach (fun a i => mret (match i with O => inr a | S i => inl i end)) index.

Definition delete_found (x : nat + positive) : st state unit := match x with inr a => bf_list_delete a | inl _ => mret tt end.

Definition run_cmd (c : list_cmd) : st state unit :=
  match c with
  | AddHead d => bf_list_add_head d
  | AddTail d => bf_list_add_tail d
  | DeleteAt index => x ← node_at index; delete_found x
  | Clean => bf_list_clean
  end.

Fixpoint run_cmds (cs : list list_cmd) : st state unit :=
  match cs with [] => mret tt | c :: cs => run_cmd c ;; run_cmds cs end.

(** The same on a list, with what has been given to the callback. *)
Definition spec_cmd (cb : bool) (s : list (option D) * list (option D)) (c : list_cmd) : list (option D) * list (option D) :=
  let '(xs, fr) := s in
  match c with
  | AddHead d => (d :: xs, fr)
  | AddTail d => (xs ++ [d], fr)
  | DeleteAt i => (delete i xs, fr ++ match xs !! i with Some x => if cb then [x] else [] | None => [] end)
  | Clean => ([], fr ++ if cb then xs else [])
  end.

Definition spec_cmds (cb : bool) : list list_cmd -> list (option D) * list (option D) -> list (option D) * list (option D) :=
  fun cs s => foldl (spec_cmd cb) s cs.

Definition holds (h0 : gmap positive bf_list_node) (ops : bf_list_ops) (s : state) (xs fr : list (option D)) : Prop :=
  l_ops (fst s) = ops /\ m_freed (snd s) = fr /\ exists l, list_at h0 (fst s) (m_nodes (snd s)) l /\ l.*2 = xs.

Lemma run_cmd_ok h0 ops c s xs fr : holds h0 ops s xs fr ->
  exists s', run_cmd c s = (Ok tt, s') /\ let '(xs', fr') := spec_cmd (ops_free ops) (xs, fr) c in holds h0 ops s' xs' fr'.
Proof.
  destruct s as [lst [h fr0]]. intros (Ho & Hfr & l & Hl & <-). cbn [fst snd m_nodes m_freed] in *. subst fr0. destruct c as [d|d|i|].
  - destruct (add_head_ok h0 lst (mk_memory h fr) l d Hl) as (a & lst' & h' & E & Hl' & Ho').
    eexists. split; [exact E|]. split; [by rewrite <- Ho|]. split; [done|]. by exists ((a, d) :: l).
  - destruct (add_tail_ok h0 lst (mk_memory h fr) l d Hl) as (a & lst' & h' & E & Hl' & Ho').
    eexists. split; [exact E|]. split; [by rewrite <- Ho|]. split; [done|]. exists (l ++ [(a, d)]). split; [done|].
    by rewrite fmap_app.
  - cbn [run_cmd spec_cmd]. unfold mbind, st_bind, node_at.
    rewrite (index_ok _ fst h0 lst (mk_memory h fr) l i Hl) by done. rewrite list_lookup_fmap.
    destruct (l !! i) as [[a x]|] eqn:Ei; cbn [delete_found fst fmap option_fmap option_map snd].
    + apply list_elem_of_split_length in Ei as (l1 & l2 & -> & ->).
      destruct (delete_ok h0 lst h fr l1 a x l2 Hl) as (lst' & h' & E & Hl' & Ho'). rewrite E. eexists. split; [reflexivity|].
      split; [by rewrite <- Ho|]. split; [by rewrite Ho|]. exists (l1 ++ l2). split; [done|].
      rewrite !fmap_app. cbn [fmap list_fmap]. rewrite <- (length_fmap snd l1). by rewrite delete_middle.
    + eexists. split; [reflexivity|]. rewrite app_nil_r. split; [done|]. split; [done|]. exists l. split; [done|].
      symmetry. apply delete_ge. rewrite length_fmap. by apply lookup_ge_None.
  - cbn [run_cmd spec_cmd]. rewrite (clean_ok h0 lst h fr l Hl). eexists. split; [reflexivity|].
    split; [done|]. split; [by rewrite <- Ho|]. exists []. split; [apply list_at_init|done].
Qed.

Lemma run_cmds_ok h0 ops cs s xs fr : holds h0 ops s xs fr ->
  exists s', run_cmds cs s = (Ok tt, s') /\ let '(xs', fr') := spec_cmds (ops_free ops) cs (xs, fr) in holds h0 ops s' xs' fr'.
Proof.
  revert s xs fr. induction cs as [|c cs IH]; intros s xs fr Hs; [by exists s|].
  destruct (run_cmd_ok h0 ops c s xs fr Hs) as (s1 & E1 & H1). cbn [run_cmds spec_cmds foldl]. unfold mbind, st_bind. rewrite E1.
  destruct (spec_cmd (ops_free ops) (xs, fr) c) as [xs1 fr1]. by apply IH.
Qed.

Lemma holds_init (m : memory) ops : holds (m_nodes m) (default (bf_list_ops_default false) ops) (bf_list_init ops, m) [] (m_freed m).
Proof. split; [done|]. split; [done|]. exists []. split; [apply list_at_init|done]. Qed.
End Commands.
