(* ===== verification/Io.v ===== *)
(** Files, directories and namespaces: the parts of [src/libbpfilter/io.c],
    [helper.c] and [ns.c] that the daemon uses. *)

From S2P Require Import Prelude Bpf Helper Hook Sys.

(** * Cleanups *)

Section Cleanup.
Context {K : Type} `{Sys K}.

(** A descriptor that is closed when the scope ends, whatever the result
    ([_cleanup_close_]). *)
Definition with_dir {O A} (dir : st (O * K) Z) (m : Z -> st (O * K) A) : st (O * K) A :=
  fun s =>
    match dir s with
    | (Err e, s) => (Err e, s)
    | (Ok fd, s) => let '(r, (o, k)) := m fd s in (r, (o, snd (closep fd k)))
    end.

(** An operation on a part of the object. *)
Definition on_part {O P A} (get : O -> P) (put : P -> O -> O) (m : st (P * K) A) : st (O * K) A :=
  fun '(o, k) => let '(r, (p, k)) := m (get o, k) in (r, (put p o, k)).
End Cleanup.

(** * Directories *)

Section Dirs.
Context {K : Type} `{Sys K} {T : Type}.

Definition bf_opendir (path : string) : st (T * K) Z := bf_bpf (SysOpenDir path).

(** A directory that is missing is created, and opened again; [fuel] bounds
    the number of attempts. *)
Fixpoint bf_opendir_at (fuel : nat) (parent_fd : Z) (dir_name : string) (mkdir_if_missing : bool) : st (T * K) Z :=
  match fuel with
  | O => st_err (- ENOENT)
  | S fuel => fun s =>
      match bf_bpf (SysOpenat parent_fd dir_name) s with
      | (Ok fd, s) => (Ok fd, s)
      | (Err e, s) =>
          if negb (e =? - ENOENT) || negb mkdir_if_missing then (Err e, s)
          else match bf_bpf (SysMkdirat parent_fd dir_name) s with
               | (Err e, s) => (Err e, s)
               | (Ok _, s) => bf_opendir_at fuel parent_fd dir_name mkdir_if_missing s
               end
      end
  end.

(** Without [recursive], the directory has to be empty. *)
Definition bf_rmdir_at (parent_fd : Z) (dir_name : string) : st (T * K) unit :=
  bf_bpf (SysRmdirat parent_fd dir_name) ;; mret tt.
End Dirs.

(** A directory that was just created is there. *)
Class DirSys (K : Type) `{Sys K} : Prop := {
  mkdir_there fd name k : 0 <= fst (sys_call (SysMkdirat fd name) k) ->
    fst (sys_call (SysOpenat fd name) (snd (sys_call (SysMkdirat fd name) k))) <> - ENOENT
}.

(** Two attempts are enough. *)
Lemma opendir_at_fuel {K T} `{DirSys K} fuel fd name mk (s : T * K) :
  bf_opendir_at (S (S fuel)) fd name mk s = bf_opendir_at 2 fd name mk s.
Proof.
  destruct s as [o k]. cbn [bf_opendir_at]. unfold bf_bpf.
  destruct (sys_call (SysOpenat fd name) k) as [r k1]. destruct (Z.ltb_spec r 0); [|done].
  destruct (negb (r =? - ENOENT) || negb mk); [done|].
  pose proof (mkdir_there fd name k1) as Hm. destruct (sys_call (SysMkdirat fd name) k1) as [r2 k2]. cbn [fst snd] in Hm.
  destruct (Z.ltb_spec r2 0); [done|]. specialize (Hm ltac:(done)).
  destruct (sys_call (SysOpenat fd name) k2) as [r3 k3]. cbn [fst] in Hm. destruct (r3 <? 0); [|done].
  by rewrite (proj2 (Z.eqb_neq r3 (- ENOENT))) by done.
Qed.

(** * Files *)

(** What [read] copies out, the number of a file's inode, and whether a file is
    a directory. *)
Class FileSys (K : Type) `{Sys K} : Type := {
  sys_read : Z -> Z -> K -> list Z;
  sys_inode : Z -> K -> Z;
  sys_isdir : string -> K -> bool
}.

Section Files.
Context {K : Type} `{Sys K} {T : Type}.

(** The file is as long as the offset of its end; [malloc] refuses the length
    of a file whose end cannot be found. *)
Definition bf_read_file `{!FileSys K} (path : string) : st (T * K) (list Z) :=
  with_dir (bf_bpf (SysOpenFile path false)) (fun fd '(o, k) =>
    let '(len, k) := sys_call (SysLseekEnd fd) k in
    let '(_, k) := sys_call (SysLseekSet fd) k in
    if len <? 0 then (Err (- ENOMEM), (o, k))
    else
      let '(r, k') := sys_call (SysRead fd len) k in
      if r <? 0 then (Err r, (o, k'))
      else if negb (r =? len) then (Err (- EIO), (o, k'))
      else (Ok (sys_read fd len k), (o, k'))).

(** The file is emptied before it is written. *)
Definition bf_write_file (path : string) (data : list Z) : st (T * K) unit :=
  with_dir (bf_bpf (SysOpenFile path true)) (fun fd =>
    r ← bf_bpf (SysWrite fd data);
    if negb (r =? Z.of_nat (length data)) then st_err (- EIO) else mret tt).
(** The directory is created when it is not there. *)
Definition bf_ensure_dir `{!FileSys K} (dir : string) : st (T * K) unit :=
  fun '(o, k) =>
    let '(r, k) := sys_call (SysAccessRw dir) k in
    if r =? - ENOENT then
      let '(r, k) := sys_call (SysMkdir dir) k in ((if r =? 0 then Ok tt else Err (- Z.abs r)), (o, k))
    else if negb (r =? 0) then (Err (- Z.abs r), (o, k))
    else
      let '(r, k) := sys_call (SysStat dir) k in
      ((if negb (r =? 0) || negb (sys_isdir dir k) then Err (- EINVAL) else Ok tt), (o, k)).

(** The lock is held as long as the file is open. *)
Definition bf_acquire_lock (path : string) : st (T * K) Z :=
  fun s =>
    match bf_bpf (SysOpenLock path) s with
    | (Err e, s) => (Err e, s)
    | (Ok fd, s) =>
        match bf_bpf (SysFlock fd) s with
        | (Err e, (o, k)) => (Err e, (o, snd (closep fd k)))
        | (Ok _, s) => (Ok fd, s)
        end
    end.
End Files.

(** * Namespaces *)

Record bf_ns_info : Type := mk_ns_info { ns_fd : Z; ns_inode : Z }.
Record bf_ns : Type := mk_ns { ns_net : bf_ns_info; ns_mnt : bf_ns_info }.

Definition CLONE_NEWNS : Z := 0x00020000.
Definition CLONE_NEWNET : Z := 0x40000000.

Section Ns.
Context {K : Type} `{Sys K} {O : Type}.

(** The error code of [setns] is its result, -1. *)
Definition setns (fd nstype : Z) : st (O * K) unit :=
  fun s => match bf_bpf (SysSetns fd nstype) s with
           | (Ok _, s) => (Ok tt, s)
           | (Err _, s) => (Err (-1), s)
           end.

(** A namespace that is the current one is not switched to. *)
Definition bf_ns_set (ns : bf_ns) (oldns : option bf_ns) : st (O * K) unit :=
  let differs (get : bf_ns -> bf_ns_info) :=
    match oldns with Some old => negb (ns_inode (get ns) =? ns_inode (get old)) | None => true end in
  (if differs ns_net then setns (ns_fd (ns_net ns)) CLONE_NEWNET else mret tt) ;;
  (if differs ns_mnt then setns (ns_fd (ns_mnt ns)) CLONE_NEWNS else mret tt).

Definition bf_ns_clean (ns : bf_ns) (k : K) : K :=
  let k := snd (closep (ns_fd (ns_net ns)) k) in
  snd (closep (ns_fd (ns_mnt ns)) k).

Definition bf_ns_info_default : bf_ns_info := mk_ns_info (-1) 0.
Definition bf_ns_default : bf_ns := mk_ns bf_ns_info_default bf_ns_info_default.

Context `{!FileSys K}.

(** The descriptor is closed when the file cannot be described. *)
Definition _bf_ns_info_init (name : string) (dir_fd : Z) : st (O * K) bf_ns_info :=
  fun s =>
    match bf_bpf (SysOpenFileAt dir_fd name) s with
    | (Err e, s) => (Err e, s)
    | (Ok fd, (o, k)) =>
        let '(r, k') := sys_call (SysFstat fd) k in
        if r =? 0 then (Ok (mk_ns_info fd (u32 (sys_inode fd k'))), (o, k'))
        else (Err r, (o, snd (closep fd k')))
    end.

(** [path]: the directory of the process' namespaces, [/proc/<pid>/ns]. *)
Definition bf_ns_init (path : string) : st (O * K) bf_ns :=
  with_dir (bf_opendir path) (fun dirfd s =>
    match _bf_ns_info_init "net" dirfd s with
    | (Err e, s) => (Err e, s)
    | (Ok net, s) =>
        match _bf_ns_info_init "mnt" dirfd s with
        | (Err e, (o, k)) => (Err e, (o, bf_ns_clean (mk_ns net bf_ns_info_default) k))
        | (Ok mnt, s) => (Ok (mk_ns net mnt), s)
        end
    end).
End Ns.
