(* ===== verification/Map.v ===== *)
(** BPF maps and links: [src/bpfilter/cgen/prog/map.c] and [link.c].  A
    [bf_map] describes a map and holds its file descriptor once the map exists
    in the kernel.  A link ties a loaded program to a hook; Netfilter links are
    replaced by creating a second link with the other priority. *)

From S2P Require Import Prelude Bpf Helper Hook Hookopts Matcher BfSet Sys.

Inductive bf_map_type : Type :=
| BF_MAP_TYPE_COUNTERS
| BF_MAP_TYPE_PRINTER
| BF_MAP_TYPE_LOG
| BF_MAP_TYPE_SET
| bf_map_type_other (n : Z).

#[global] Instance bf_map_type_eq_dec : EqDecision bf_map_type.
Proof. solve_decision. Defined.

Definition SIZE_MAX : Z := 2 ^ 64 - 1.
Definition BF_MAP_KEY_SIZE_UNKNOWN : Z := SIZE_MAX.
Definition BF_MAP_VALUE_SIZE_UNKNOWN : Z := SIZE_MAX.
Definition BF_MAP_N_ELEMS_UNKNOWN : Z := SIZE_MAX.

Record bf_map : Type := mk_map {
  map_type : bf_map_type;
  map_bpf_type : bf_bpf_map_type;
  map_name : string;
  map_key_size : Z;
  map_value_size : Z;
  map_n_elems : Z;
  map_fd : Z
}.

Definition _bf_map_new (name : string) (type : bf_map_type) (bpf_type : bf_bpf_map_type)
    (key_size value_size n_elems : Z) : res bf_map :=
  if bool_decide (name = EmptyString) then Err (- EINVAL)
  else if n_elems =? 0 then Err (- EINVAL)
  else Ok (mk_map type bpf_type (obj_name name) key_size value_size n_elems (-1)).

(** The static table; reading past its end has no result. *)
Definition _map_type_to_bpf (type : bf_map_type) : option bf_bpf_map_type :=
  match type with
  | BF_MAP_TYPE_COUNTERS => Some BF_BPF_MAP_TYPE_ARRAY
  | BF_MAP_TYPE_PRINTER => Some BF_BPF_MAP_TYPE_ARRAY
  | BF_MAP_TYPE_LOG => Some BF_BPF_MAP_TYPE_RINGBUF
  | _ => None
  end.

Definition bf_map_new (name : string) (type : bf_map_type) (key_size value_size n_elems : Z) : res bf_map :=
  if decide (type = BF_MAP_TYPE_SET) then Err (- EINVAL)
  else let! bpf_type := of_option (- EINVAL) (_map_type_to_bpf type) in
       _bf_map_new name type bpf_type key_size value_size n_elems.

Definition bf_map_new_from_set (name : string) (set : bf_set) : res bf_map :=
  _bf_map_new name BF_MAP_TYPE_SET
    (if set_use_trie set then BF_BPF_MAP_TYPE_LPM_TRIE else BF_BPF_MAP_TYPE_HASH)
    (set_elem_size set) 1 (Z.of_nat (length (set_elems set))).

Definition with_map_fd (fd : Z) (m : bf_map) : bf_map :=
  mk_map (map_type m) (map_bpf_type m) (map_name m) (map_key_size m) (map_value_size m) (map_n_elems m) fd.

(** * Changing a description, before the map exists *)

Definition bf_map_set_key_size (m : bf_map) (key_size : Z) : res bf_map :=
  if negb (map_fd m =? -1) then Err (- EPERM)
  else Ok (mk_map (map_type m) (map_bpf_type m) (map_name m) key_size (map_value_size m) (map_n_elems m) (map_fd m)).

Definition bf_map_set_value_size (m : bf_map) (value_size : Z) : res bf_map :=
  if negb (map_fd m =? -1) then Err (- EPERM)
  else Ok (mk_map (map_type m) (map_bpf_type m) (map_name m) (map_key_size m) value_size (map_n_elems m) (map_fd m)).

Definition bf_map_set_n_elems (m : bf_map) (n_elems : Z) : res bf_map :=
  if negb (map_fd m =? -1) then Err (- EPERM)
  else Ok (mk_map (map_type m) (map_bpf_type m) (map_name m) (map_key_size m) (map_value_size m) n_elems (map_fd m)).

(** * In the kernel *)

Section Kernel.
Context {K : Type} `{Sys K} {O : Type}.

(** The token of the daemon's context. *)
Context (bf_ctx_token : Z).

(** Only the counters have BTF data; failing to load it is ignored. *)
Definition _bf_map_make_btf (m : bf_map) : st (O * K) (option Z) :=
  match map_type m with
  | BF_MAP_TYPE_COUNTERS =>
      fun s => match bf_bpf_btf_load (map_name m) bf_ctx_token s with
               | (Ok fd, s) => (Ok (Some fd), s)
               | (Err _, s) => (Ok None, s)
               end
  | _ => mret None
  end.

(** Returns the map with its descriptor.  The BTF object's descriptor is
    passed to the kernel and then left open. *)
Definition bf_map_create (m : bf_map) : st (O * K) bf_map :=
  if map_key_size m =? BF_MAP_KEY_SIZE_UNKNOWN then st_err (- EINVAL)
  else if map_value_size m =? BF_MAP_VALUE_SIZE_UNKNOWN then st_err (- EINVAL)
  else if map_n_elems m =? BF_MAP_N_ELEMS_UNKNOWN then st_err (- EINVAL)
  else
    btf ← _bf_map_make_btf m;
    fd ← bf_bpf_map_create (map_name m) (map_bpf_type m) (map_key_size m) (map_value_size m)
           (map_n_elems m) btf bf_ctx_token;
    mret (with_map_fd fd m).

Definition bf_map_destroy (m : bf_map) (k : K) : bf_map * K :=
  let '(fd, k) := closep (map_fd m) k in (with_map_fd fd m, k).

Definition bf_map_pin (m : bf_map) (dir_fd : Z) : st (O * K) unit :=
  bf_bpf_obj_pin (map_name m) (map_fd m) dir_fd ;; mret tt.

(** Failing to unlink is ignored. *)
Definition bf_map_unpin (m : bf_map) (dir_fd : Z) (k : K) : K :=
  snd (sys_call (SysUnlinkat dir_fd (map_name m)) k).

Definition bf_map_set_elem (m : bf_map) (key value : list Z) : st (O * K) Z :=
  bf_bpf_map_update_elem (map_fd m) key value 0.
End Kernel.

Lemma bf_map_create_ok {K O} `{Sys K} tok m (o o' : O) (k k' : K) m' :
  bf_map_create tok m (o, k) = (Ok m', (o', k')) -> o' = o /\ exists fd, m' = with_map_fd fd m.
Proof.
  unfold bf_map_create. do 3 (case_match; [done|]). intros Hc. st_inv Hc.
  assert (st = (o, snd st)) as Est.
  { unfold _bf_map_make_btf in E. destruct (map_type m); try (by injection E as <- <-).
    destruct (bf_bpf_btf_load _ _ _) as [[fd|e] [o1 k1]] eqn:Eb; injection E as <- <-;
      unfold bf_bpf_btf_load in Eb; destruct (token_flags _ _);
      by apply bf_bpf_obj in Eb as ->. }
  rewrite Est in E0. unfold bf_bpf_map_create in E0. destruct (token_flags _ _).
  destruct st0 as [o2 k2]. apply bf_bpf_obj in E0 as ->. injection Hc as <- <- <-.
  split; [done|by eexists].
Qed.

(** * Links *)

Record bf_link : Type := mk_link {
  link_name : string;
  link_hookopts : option bf_hookopts;
  link_fd : Z
}.

Definition bf_link_new (name : string) : bf_link := mk_link (obj_name name) None (-1).

Section Kernel.
Context {K : Type} `{Sys K}.

(** [bf_bpf_link_create]: a Netfilter link needs its options; the type is read
    out of a table. *)
Definition bf_bpf_link_create {O} (prog_fd target_fd : Z) (hook : bf_hook) (opts : option bf_hookopts)
    (flags : Z) : st (O * K) Z :=
  match bf_hook_to_bpf_attach_type hook with
  | None => st_err (- BF_CRASH)
  | Some BF_BPF_NETFILTER =>
      match opts with
      | None => st_err (- EINVAL)
      | Some o =>
          bf_bpf (SysLinkCreate prog_fd target_fd BF_BPF_NETFILTER flags
                    (Some (ho_family o, bf_hook_to_nf_hook hook, ho_priority0 o)))
      end
  | Some attach => bf_bpf (SysLinkCreate prog_fd target_fd attach flags None)
  end.

(** The descriptor of the cgroup is closed when the function returns. *)
Definition with_cgroup {O A} (path : string) (m : Z -> st (O * K) A) : st (O * K) A :=
  fun s =>
    match bf_bpf (SysOpen path) s with
    | (Err e, s) => (Err e, s)
    | (Ok fd, s) => let '(r, (o, k)) := m fd s in (r, (o, snd (closep fd k)))
    end.

(** The state is the link and the kernel; the options are taken over on
    success.  The flavors of the table are the four of the [switch].  [cgpath] is only read for the CGROUP flavor. *)
Definition bf_link_attach (hook : bf_hook) (hookopts : bf_hookopts) (prog_fd : Z) : st (bf_link * K) unit :=
  r ← match bf_hook_to_flavor hook with
      | Some BF_FLAVOR_XDP =>
          bf_bpf_link_create prog_fd (ho_ifindex hookopts) hook (Some hookopts) XDP_FLAGS_SKB_MODE
      | Some BF_FLAVOR_TC => bf_bpf_link_create prog_fd (ho_ifindex hookopts) hook (Some hookopts) 0
      | Some BF_FLAVOR_CGROUP =>
          with_cgroup (default EmptyString (ho_cgpath hookopts)) (fun cgroup_fd =>
            bf_bpf_link_create prog_fd cgroup_fd hook (Some hookopts) 0)
      | Some BF_FLAVOR_NF => bf_bpf_link_create prog_fd 0 hook (Some hookopts) 0
      | None => st_err (- BF_CRASH)
      end;
  obj_modify (fun l => mk_link (link_name l) (Some hookopts) r).

(** The new link has the other priority; the old one is closed once the new
    one exists.  The options of the link are read through their pointer. *)
Definition _bf_link_update_nf (hook : bf_hook) (prog_fd : Z) : st (bf_link * K) unit :=
  fun '(l, k) =>
    match link_hookopts l with
    | None => (Err (- BF_CRASH), (l, k))
    | Some ho =>
        let opts := with_priorities (ho_priority1 ho) (ho_priority0 ho) ho in
        match bf_bpf_link_create prog_fd 0 hook (Some opts) 0 (l, k) with
        | (Err e, s) => (Err e, s)
        | (Ok new_link_fd, (_, k)) =>
            let '(_, k) := closep (link_fd l) k in
            (Ok tt, (mk_link (link_name l) (Some opts) new_link_fd, k))
        end
    end.

Definition bf_link_update (hook : bf_hook) (prog_fd : Z) : st (bf_link * K) unit :=
  match bf_hook_to_flavor hook with
  | Some (BF_FLAVOR_XDP | BF_FLAVOR_TC | BF_FLAVOR_CGROUP) =>
      l ← obj_get; bf_bpf_link_update (link_fd l) prog_fd ;; mret tt
  | Some BF_FLAVOR_NF => _bf_link_update_nf hook prog_fd
  | None => st_err (- BF_CRASH)
  end.

(** A detach that fails is ignored. *)
Definition bf_link_detach (l : bf_link) (k : K) : bf_link * K :=
  let k := snd (sys_call (SysLinkDetach (link_fd l)) k) in
  let '(fd, k) := closep (link_fd l) k in
  (mk_link (link_name l) None fd, k).

Definition bf_link_pin {O} (l : bf_link) (dir_fd : Z) : st (O * K) unit :=
  bf_bpf_obj_pin (link_name l) (link_fd l) dir_fd ;; mret tt.

Definition bf_link_unpin (l : bf_link) (dir_fd : Z) (k : K) : K :=
  snd (sys_call (SysUnlinkat dir_fd (link_name l)) k).
End Kernel.
