(* ===== verification/Rule.v ===== *)
(** Rules: [struct bf_rule], [src/libbpfilter/rule.c] and [rule.h]. *)

From S2P Require Import Prelude Helper Hook Matcher.

Inductive bf_pkthdr : Type :=
| BF_PKTHDR_LINK
| BF_PKTHDR_INTERNET
| BF_PKTHDR_TRANSPORT.

#[global] Instance bf_pkthdr_eq_dec : EqDecision bf_pkthdr.
Proof. solve_decision. Defined.

Definition bf_pkthdr_vals : list bf_pkthdr :=
  [BF_PKTHDR_LINK; BF_PKTHDR_INTERNET; BF_PKTHDR_TRANSPORT].

Definition bf_pkthdr_to_Z (h : bf_pkthdr) : Z :=
  match h with BF_PKTHDR_LINK => 0 | BF_PKTHDR_INTERNET => 1 | BF_PKTHDR_TRANSPORT => 2 end.

Definition bf_pkthdr_to_str (hdr : bf_pkthdr) : option string :=
  match hdr with
  | BF_PKTHDR_LINK => Some "link"%string
  | BF_PKTHDR_INTERNET => Some "internet"%string
  | BF_PKTHDR_TRANSPORT => Some "transport"%string
  end.

Definition bf_pkthdr_from_str (str : string) : res bf_pkthdr :=
  of_option (- EINVAL) (table_find bf_streq_i bf_pkthdr_to_str bf_pkthdr_vals str).

(** [index] is 32 bits wide, [log] 8, [mark] 64. *)
Record bf_rule : Type := mk_rule {
  rule_index : Z;
  rule_matchers : list bf_matcher;
  rule_log : Z;
  rule_mark : Z;
  rule_counters : bool;
  rule_verdict : bf_verdict
}.

Definition BF_RULE_MARK_MASK : Z := 0x00000000ffffffff.

Definition bf_rule_new : bf_rule := mk_rule 0 [] 0 0 false BF_VERDICT_ACCEPT.

Definition bf_rule_add_matcher (rule : bf_rule) (type : bf_matcher_type) (op : bf_matcher_op)
    (payload : list Z) : bf_rule :=
  mk_rule (rule_index rule) (rule_matchers rule ++ [bf_matcher_new type op payload])
          (rule_log rule) (rule_mark rule) (rule_counters rule) (rule_verdict rule).

(** [~mask] is taken in 64 bits. *)
Definition bf_rule_mark_set (rule : bf_rule) (mark : Z) : bf_rule :=
  mk_rule (rule_index rule) (rule_matchers rule) (rule_log rule)
          (Z.lor (u64 (Z.lnot BF_RULE_MARK_MASK)) mark) (rule_counters rule) (rule_verdict rule).

Definition bf_rule_mark_get (rule : bf_rule) : Z := Z.land (rule_mark rule) BF_RULE_MARK_MASK.

Definition bf_rule_mark_is_set (rule : bf_rule) : bool :=
  negb (Z.shiftr (rule_mark rule) 32 =? 0).

Definition rule_set_index (idx : Z) (rule : bf_rule) : bf_rule :=
  mk_rule (u32 idx) (rule_matchers rule) (rule_log rule) (rule_mark rule)
          (rule_counters rule) (rule_verdict rule).

Lemma bf_rule_mark_set_spec rule mark : 0 <= mark < 2 ^ 32 ->
  bf_rule_mark_is_set (bf_rule_mark_set rule mark) = true /\
  bf_rule_mark_get (bf_rule_mark_set rule mark) = mark.
Proof.
  intros Hm. unfold bf_rule_mark_is_set, bf_rule_mark_get, bf_rule_mark_set. cbn [rule_mark].
  replace (u64 (Z.lnot BF_RULE_MARK_MASK)) with (Z.shiftl (2 ^ 32 - 1) 32) by done.
  rewrite (lor_shiftl_add mark (2 ^ 32 - 1) 32) by lia.
  split.
  - apply negb_true_iff, Z.eqb_neq. rewrite Z.shiftr_div_pow2 by lia.
    replace ((mark + (2 ^ 32 - 1) * 2 ^ 32) / 2 ^ 32) with (2 ^ 32 - 1); [done|].
    rewrite Z.div_add, Z.div_small by lia. done.
  - replace BF_RULE_MARK_MASK with (Z.ones 32) by done.
    rewrite Z.land_ones by lia. rewrite Z_mod_plus_full. apply Z.mod_small. lia.
Qed.

Lemma bf_rule_new_mark : bf_rule_mark_is_set bf_rule_new = false.
Proof. done. Qed.
