(* ===== verification/Chain.v ===== *)
(** Chains: [struct bf_chain], [src/libbpfilter/chain.c]. *)

From S2P Require Import Prelude Helper Hook Matcher BfSet Rule.

Inductive bf_chain_flags : Type :=
| BF_CHAIN_LOG
| BF_CHAIN_STORE_NEXTHDR
| BF_CHAIN_SET_MARK
| BF_CHAIN_GET_MARK.

#[global] Instance bf_chain_flags_eq_dec : EqDecision bf_chain_flags.
Proof. solve_decision. Defined.

Definition bf_chain_flags_to_Z (f : bf_chain_flags) : Z :=
  match f with
  | BF_CHAIN_LOG => 0 | BF_CHAIN_STORE_NEXTHDR => 1 | BF_CHAIN_SET_MARK => 2 | BF_CHAIN_GET_MARK => 3
  end.

Definition chain_flag (f : bf_chain_flags) : Z := BF_FLAG (bf_chain_flags_to_Z f).

Record bf_chain : Type := mk_chain {
  chain_name : string;
  chain_flags : Z;
  chain_hook : bf_hook;
  chain_policy : bf_verdict;
  chain_sets : list bf_set;
  chain_rules : list bf_rule
}.

(** [chain->flags & BF_FLAG(f)] *)
Definition flags_has (flags : Z) (f : bf_chain_flags) : bool :=
  negb (Z.land flags (chain_flag f) =? 0).
Definition chain_has (c : bf_chain) (f : bf_chain_flags) : bool := flags_has (chain_flags c) f.

Definition set_flag (flags : Z) (f : bf_chain_flags) : Z := Z.lor flags (chain_flag f).

Definition matcher_features (flags : Z) (m : bf_matcher) : Z :=
  let flags := if decide (matcher_type m = BF_MATCHER_IP6_NEXTHDR)
               then set_flag flags BF_CHAIN_STORE_NEXTHDR else flags in
  if decide (matcher_type m = BF_MATCHER_META_MARK)
  then set_flag flags BF_CHAIN_GET_MARK else flags.

(** The flags after adding what [rule] uses. *)
Definition _bf_chain_update_features (flags : Z) (rule : bf_rule) : Z :=
  let flags := if rule_log rule =? 0 then flags else set_flag flags BF_CHAIN_LOG in
  let flags := if bf_rule_mark_is_set rule then set_flag flags BF_CHAIN_SET_MARK else flags in
  foldl matcher_features flags (rule_matchers rule).

(** The rules take their position as index. *)
Fixpoint chain_index_rules (ridx : Z) (rules : list bf_rule) : list bf_rule :=
  match rules with
  | [] => []
  | r :: rules => rule_set_index ridx r :: chain_index_rules (ridx + 1) rules
  end.

Definition bf_chain_new (name : string) (hook : bf_hook) (policy : bf_verdict)
    (sets : list bf_set) (rules : list bf_rule) : bf_chain :=
  mk_chain name (foldl _bf_chain_update_features 0 rules) hook policy sets
           (chain_index_rules 0 rules).

Definition bf_chain_add_rule (chain : bf_chain) (rule : bf_rule) : bf_chain :=
  mk_chain (chain_name chain) (_bf_chain_update_features (chain_flags chain) rule)
           (chain_hook chain) (chain_policy chain) (chain_sets chain)
           (chain_rules chain ++ [rule_set_index (Z.of_nat (length (chain_rules chain))) rule]).

Definition bf_chain_get_set_for_matcher (chain : bf_chain) (m : bf_matcher) : option bf_set :=
  if decide (matcher_type m = BF_MATCHER_SET)
  then chain_sets chain !! Z.to_nat (payload_u32 m)
  else None.

Definition bf_chain_validate (chain : bf_chain) : bool :=
  if chain_has chain BF_CHAIN_SET_MARK &&
     bool_decide (chain_hook chain ∈
       [BF_HOOK_XDP; BF_HOOK_NF_PRE_ROUTING; BF_HOOK_NF_POST_ROUTING;
        BF_HOOK_NF_FORWARD; BF_HOOK_NF_LOCAL_IN; BF_HOOK_NF_LOCAL_OUT])
  then false
  else if chain_has chain BF_CHAIN_GET_MARK && bool_decide (chain_hook chain = BF_HOOK_XDP)
  then false
  else true.

(** * The flags say exactly which features the rules use *)

Definition rule_uses (f : bf_chain_flags) (r : bf_rule) : bool :=
  match f with
  | BF_CHAIN_LOG => negb (rule_log r =? 0)
  | BF_CHAIN_SET_MARK => bf_rule_mark_is_set r
  | BF_CHAIN_STORE_NEXTHDR =>
      existsb (fun m => bool_decide (matcher_type m = BF_MATCHER_IP6_NEXTHDR)) (rule_matchers r)
  | BF_CHAIN_GET_MARK =>
      existsb (fun m => bool_decide (matcher_type m = BF_MATCHER_META_MARK)) (rule_matchers r)
  end.

(** The chain is what [bf_chain_new] and [bf_chain_add_rule] build: the flags
    are the union of the rules' features, the indices the positions. *)
Record chain_wf (c : bf_chain) : Prop := mk_chain_wf {
  chain_wf_flags : forall f, chain_has c f = existsb (rule_uses f) (chain_rules c);
  chain_wf_index : forall i r, chain_rules c !! i = Some r -> rule_index r = u32 (Z.of_nat i)
}.

Lemma set_flag_has flags f g :
  flags_has (set_flag flags f) g = flags_has flags g || bool_decide (f = g).
Proof.
  unfold flags_has, set_flag. rewrite Z.land_lor_distr_l.
  assert (Z.land (chain_flag f) (chain_flag g) = if bool_decide (f = g) then chain_flag f else 0)
    as -> by (by destruct f, g).
  case_bool_decide; [|by rewrite Z.lor_0_r, orb_false_r].
  rewrite orb_true_r. apply negb_true_iff, Z.eqb_neq. intros [_ E]%Z.lor_eq_0_iff.
  by destruct f.
Qed.

Lemma matcher_features_has flags m f :
  flags_has (matcher_features flags m) f =
  flags_has flags f ||
  match f with
  | BF_CHAIN_STORE_NEXTHDR => bool_decide (matcher_type m = BF_MATCHER_IP6_NEXTHDR)
  | BF_CHAIN_GET_MARK => bool_decide (matcher_type m = BF_MATCHER_META_MARK)
  | _ => false
  end.
Proof.
  unfold matcher_features.
  destruct (decide (matcher_type m = BF_MATCHER_IP6_NEXTHDR)) as [E|E];
    destruct (decide (matcher_type m = BF_MATCHER_META_MARK)) as [E'|E'];
    rewrite ?set_flag_has, ?(bool_decide_eq_true_2 (_ = BF_MATCHER_IP6_NEXTHDR)) by done;
    [congruence|..]; destruct f; rewrite ?E, ?E'; rewrite ?bool_decide_eq_false_2 by done;
    rewrite ?orb_false_r; done.
Qed.

Lemma matchers_features_has ms flags f :
  flags_has (foldl matcher_features flags ms) f =
  flags_has flags f ||
  match f with
  | BF_CHAIN_STORE_NEXTHDR =>
      existsb (fun m => bool_decide (matcher_type m = BF_MATCHER_IP6_NEXTHDR)) ms
  | BF_CHAIN_GET_MARK =>
      existsb (fun m => bool_decide (matcher_type m = BF_MATCHER_META_MARK)) ms
  | _ => false
  end.
Proof.
  revert flags. induction ms as [|m ms IH]; intros flags; cbn [foldl].
  - destruct f; by rewrite orb_false_r.
  - rewrite IH, matcher_features_has. destruct f; cbn [existsb]; by rewrite <- ?orb_assoc.
Qed.

Lemma update_features_has flags r f :
  flags_has (_bf_chain_update_features flags r) f = flags_has flags f || rule_uses f r.
Proof.
  unfold _bf_chain_update_features. rewrite matchers_features_has.
  destruct (rule_log r =? 0) eqn:El, (bf_rule_mark_is_set r) eqn:Em;
    rewrite ?set_flag_has; destruct f; cbn [rule_uses]; rewrite ?El, ?Em;
    rewrite ?bool_decide_eq_true_2 by done; rewrite ?bool_decide_eq_false_2 by done;
    by rewrite ?orb_false_r, ?orb_true_r.
Qed.

Lemma features_has rules flags f :
  flags_has (foldl _bf_chain_update_features flags rules) f =
  flags_has flags f || existsb (rule_uses f) rules.
Proof.
  revert flags. induction rules as [|r rules IH]; intros flags; cbn [foldl existsb].
  - by rewrite orb_false_r.
  - rewrite IH, update_features_has. by rewrite orb_assoc.
Qed.

Lemma rule_uses_index f i r : rule_uses f (rule_set_index i r) = rule_uses f r.
Proof. by destruct f. Qed.

Lemma chain_index_rules_lookup ridx rules i :
  chain_index_rules ridx rules !! i = (rule_set_index (ridx + Z.of_nat i)) <$> (rules !! i).
Proof.
  revert ridx i. induction rules as [|r rules IH]; intros ridx [|i]; cbn; try done.
  - by rewrite Z.add_0_r.
  - rewrite IH. by replace (ridx + 1 + Z.of_nat i) with (ridx + Z.of_nat (S i)) by lia.
Qed.

Lemma chain_index_rules_uses f ridx rules :
  existsb (rule_uses f) (chain_index_rules ridx rules) = existsb (rule_uses f) rules.
Proof.
  revert ridx. induction rules as [|r rules IH]; intros ridx; cbn [chain_index_rules existsb]; [done|].
  by rewrite rule_uses_index, IH.
Qed.

Lemma bf_chain_new_wf name hook policy sets rules :
  chain_wf (bf_chain_new name hook policy sets rules).
Proof.
  constructor; unfold bf_chain_new, chain_has; cbn [chain_flags chain_rules].
  - intros f. rewrite features_has, chain_index_rules_uses. by destruct f.
  - intros i r. rewrite chain_index_rules_lookup, Z.add_0_l.
    destruct (rules !! i); cbn; intros; by simplify_eq.
Qed.

Lemma bf_chain_add_rule_wf c r : chain_wf c -> chain_wf (bf_chain_add_rule c r).
Proof.
  intros [Hf Hi]. constructor; unfold bf_chain_add_rule, chain_has; cbn [chain_flags chain_rules].
  - intros f. rewrite update_features_has, existsb_app. cbn [existsb].
    rewrite rule_uses_index, orb_false_r. f_equal. apply Hf.
  - intros i r' [H|[Hlen H]]%lookup_app_Some; [by apply Hi|].
    apply list_lookup_singleton_Some in H as [H <-]. cbn.
    f_equal. lia.
Qed.
