(* ===== verification/Printer.v ===== *)
(** The printer: the log messages of a program, stored back to back in one
    string that a BPF map holds ([src/bpfilter/cgen/printer.c]). *)

From S2P Require Import Prelude Helper.
From Stdlib Require Import Ascii.

Record bf_printer_msg : Type := mk_msg {
  msg_offset : Z;
  msg_len : Z;
  msg_str : string
}.

(** [struct bf_printer] is the list of its messages. *)
Abbreviation bf_printer := (list bf_printer_msg).

(** The bytes of a C string, NUL included. *)
Definition str_bytes (s : string) : list Z :=
  (fun c => Z.of_nat (nat_of_ascii c)) <$> String.list_ascii_of_string s.
Definition cstr_bytes (s : string) : list Z := str_bytes s ++ [0].
Definition strlen (s : string) : Z := Z.of_nat (String.length s).

Definition bf_printer_msg_offset (msg : bf_printer_msg) : Z := msg_offset msg.
Definition bf_printer_msg_len (msg : bf_printer_msg) : Z := msg_len msg.

Definition bf_printer_new : bf_printer := [].

(** Total size of the messages of [printer]: the end of the last one. *)
Definition _bf_printer_total_size (printer : bf_printer) : Z :=
  match last printer with
  | None => 0
  | Some m => msg_offset m + msg_len m
  end.

Fixpoint printer_find (str : string) (printer : bf_printer) : option bf_printer_msg :=
  match printer with
  | [] => None
  | m :: printer =>
      if bf_streq (Some (msg_str m)) (Some str) then Some m else printer_find str printer
  end.

(** The message holding [str], added at the end when no message does. *)
Definition bf_printer_add_msg (printer : bf_printer) (str : string) :
    bf_printer_msg * bf_printer :=
  match printer_find str printer with
  | Some m => (m, printer)
  | None =>
      let m := mk_msg (_bf_printer_total_size printer) (strlen str + 1) str in
      (m, printer ++ [m])
  end.

(** [memcpy(buf + off, src, n)] *)
Definition write_at (buf : list Z) (off : nat) (src : list Z) : list Z :=
  take off buf ++ src ++ drop (off + length src) buf.

(** [junk] is what [malloc] returns: as many bytes as asked for. *)
Definition bf_printer_assemble (junk : list Z) (printer : bf_printer) : list Z :=
  if _bf_printer_total_size printer =? 0 then [0]
  else foldl (fun buf m => write_at buf (Z.to_nat (msg_offset m))
                             (take (Z.to_nat (msg_len m)) (cstr_bytes (msg_str m))))
             junk printer.

(** * Invariant: the messages are contiguous, whole, and distinct *)

Fixpoint printer_layout (off : Z) (printer : bf_printer) : Prop :=
  match printer with
  | [] => True
  | m :: printer =>
      msg_offset m = off /\ msg_len m = strlen (msg_str m) + 1 /\
      printer_layout (off + msg_len m) printer
  end.

Definition printer_wf (printer : bf_printer) : Prop :=
  printer_layout 0 printer /\ NoDup (msg_str <$> printer).

Lemma length_str_bytes s : length (str_bytes s) = String.length s.
Proof. unfold str_bytes. rewrite length_fmap. induction s; cbn; congruence. Qed.

Lemma length_cstr_bytes s : Z.of_nat (length (cstr_bytes s)) = strlen s + 1.
Proof. unfold cstr_bytes, strlen. rewrite length_app, length_str_bytes. cbn. lia. Qed.

(** The size of a layout from [off]. *)
Definition printer_end (off : Z) (printer : bf_printer) : Z :=
  foldl (fun o m => o + msg_len m) off printer.

Lemma printer_end_total off printer : printer_layout off printer -> printer <> [] ->
  _bf_printer_total_size printer = printer_end off printer.
Proof.
  revert off. induction printer as [|m printer IH]; intros off; [done|].
  intros (Ho & Hl & Hp) _. destruct printer as [|m' printer].
  - unfold _bf_printer_total_size. cbn. lia.
  - specialize (IH _ Hp ltac:(done)). unfold _bf_printer_total_size in *.
    rewrite last_cons_cons. rewrite IH. done.
Qed.

Lemma printer_total_end printer : printer_layout 0 printer ->
  _bf_printer_total_size printer = printer_end 0 printer.
Proof. intros. destruct printer; [done|]. by apply printer_end_total. Qed.

Lemma printer_layout_app off p q : printer_layout off (p ++ q) <->
  printer_layout off p /\ printer_layout (printer_end off p) q.
Proof.
  revert off. induction p as [|m p IH]; intros off; cbn; [tauto|].
  rewrite IH. unfold printer_end. tauto.
Qed.

Lemma printer_find_some str p m : printer_find str p = Some m -> m ∈ p /\ msg_str m = str.
Proof.
  induction p as [|a p IH]; cbn [printer_find]; [done|].
  destruct (bf_streq _ _) eqn:E.
  - intros [= <-]. apply bf_streq_some in E. split; [left|done].
  - intros H. destruct (IH H). split; [by right|done].
Qed.

Lemma printer_find_none str p : printer_find str p = None -> str ∉ msg_str <$> p.
Proof.
  induction p as [|a p IH]; cbn [printer_find]; [intros _; apply not_elem_of_nil|].
  destruct (bf_streq _ _) eqn:E; [done|]. intros H.
  cbn. rewrite not_elem_of_cons. split; [|by apply IH].
  intros ->. apply not_true_iff_false in E. apply E. by apply bf_streq_some.
Qed.

Lemma bf_printer_add_msg_wf p s m p' : printer_wf p -> bf_printer_add_msg p s = (m, p') ->
  printer_wf p' /\ m ∈ p' /\ msg_str m = s /\ p `prefix_of` p'.
Proof.
  intros [Hl Hn]. unfold bf_printer_add_msg. destruct (printer_find s p) as [m'|] eqn:E.
  - intros [= <- <-]. apply printer_find_some in E as [? ?]. by repeat split.
  - intros [= <- <-]. apply printer_find_none in E. split_and!.
    + split.
      * apply printer_layout_app. split; [done|].
        cbn. rewrite printer_total_end by done. done.
      * rewrite fmap_app. apply NoDup_app. split_and!; [done| |apply NoDup_singleton].
        intros x Hx. cbn. rewrite list_elem_of_singleton. by intros ->.
    + apply elem_of_app. right. by left.
    + done.
    + by exists [mk_msg (_bf_printer_total_size p) (strlen s + 1) s].
Qed.

(** * Assembling *)

Lemma length_write_at buf off src : (off + length src <= length buf)%nat ->
  length (write_at buf off src) = length buf.
Proof.
  intros. unfold write_at. rewrite !length_app, length_take, length_drop. lia.
Qed.

Lemma write_at_app_l (pre buf src : list Z) (off : nat) : off = length pre ->
  (length src <= length buf)%nat ->
  write_at (pre ++ buf) off src = pre ++ src ++ drop (length src) buf.
Proof.
  intros -> Hl. unfold write_at. rewrite take_app_length. f_equal. f_equal.
  by rewrite drop_app_add.
Qed.

Lemma strlen_nonneg s : 0 <= strlen s.
Proof. unfold strlen. lia. Qed.

Lemma printer_end_ge off p : printer_layout off p -> off <= printer_end off p.
Proof.
  revert off. induction p as [|m p IH]; intros off; cbn; [lia|].
  intros (_ & Hl & Hp). apply IH in Hp. pose proof (strlen_nonneg (msg_str m)).
  unfold printer_end in Hp. lia.
Qed.

Lemma printer_fold_spec (p : bf_printer) (pre buf : list Z) :
  printer_layout (Z.of_nat (length pre)) p ->
  Z.of_nat (length (pre ++ buf)) = printer_end (Z.of_nat (length pre)) p ->
  foldl (fun buf m => write_at buf (Z.to_nat (msg_offset m))
                        (take (Z.to_nat (msg_len m)) (cstr_bytes (msg_str m)))) (pre ++ buf) p =
  pre ++ concat ((fun m => cstr_bytes (msg_str m)) <$> p).
Proof.
  revert pre buf. induction p as [|m p IH]; intros pre buf Hlay Hlen.
  - cbn in *. rewrite length_app in Hlen. by destruct buf; [|cbn in Hlen; lia].
  - cbn [foldl]. destruct Hlay as (Ho & Hl & Hp).
    pose proof (length_cstr_bytes (msg_str m)) as Hc.
    rewrite firstn_all2 by lia.
    pose proof (printer_end_ge _ _ Hp) as Hge.
    change (printer_end (Z.of_nat (length pre)) (m :: p))
      with (printer_end (Z.of_nat (length pre) + msg_len m) p) in Hlen.
    rewrite length_app in Hlen.
    rewrite write_at_app_l by lia.
    rewrite app_assoc, IH.
    + cbn. by rewrite <- app_assoc.
    + rewrite length_app. by replace (Z.of_nat (length pre + length (cstr_bytes (msg_str m))))
        with (Z.of_nat (length pre) + msg_len m) by lia.
    + rewrite !length_app, length_drop.
      replace (Z.of_nat (length pre + length (cstr_bytes (msg_str m))))
        with (Z.of_nat (length pre) + msg_len m) by lia. lia.
Qed.
