(* ===== verification/Serial.v ===== *)
(** Serialised objects of the library: matchers, rules, sets, chains, hook
    options, counters and printers ([bf_<type>_pack] and
    [bf_<type>_new_from_pack] of [src/libbpfilter] and
    [src/bpfilter/cgen/printer.c]).

    Each packing function is specified by the keys and values it adds to the
    object being written ([packs]); reading them back gives the object again,
    provided its fields have values of their C types. *)

From S2P Require Import Prelude Helper Hook Hookopts Matcher BfSet Rule Chain Printer Pack.
From Stdlib Require Import Ascii.

(** * Matchers *)

Definition bf_matcher_pack (m : bf_matcher) (pack : bf_wpack) : bf_wpack :=
  let pack := bf_wpack_kv_int "type" (bf_matcher_type_to_Z (matcher_type m)) pack in
  let pack := bf_wpack_kv_int "op" (bf_matcher_op_to_Z (matcher_op m)) pack in
  bf_wpack_kv_bin "payload" (matcher_payload m) pack.

Definition bf_matcher_new_from_pack (node : mnode) : res bf_matcher :=
  let! type := bf_rpack_kv_enum node "type" in
  let! op := bf_rpack_kv_enum node "op" in
  let! payload := bf_rpack_kv_bin node "payload" in
  Ok (bf_matcher_new (bf_matcher_type_of_Z type) (bf_matcher_op_of_Z op) payload).

(** * Rules *)

Definition bf_rule_pack (rule : bf_rule) (pack : bf_wpack) : bf_wpack :=
  let pack := bf_wpack_kv_u32 "index" (rule_index rule) pack in
  let pack := bf_wpack_kv_u8 "log" (rule_log rule) pack in
  let pack := bf_wpack_kv_bool "counters" (rule_counters rule) pack in
  let pack := bf_wpack_kv_u64 "mark" (rule_mark rule) pack in
  let pack := bf_wpack_kv_int "verdict" (bf_verdict_to_Z (rule_verdict rule)) pack in
  bf_wpack_kv_list "matchers" bf_matcher_pack (Some <$> rule_matchers rule) pack.

Definition bf_rule_new_from_pack (node : mnode) : res bf_rule :=
  let! index := bf_rpack_kv_u32 node "index" in
  let! log := bf_rpack_kv_u8 node "log" in
  let! counters := bf_rpack_kv_bool node "counters" in
  let! mark := bf_rpack_kv_u64 node "mark" in
  let! verdict := bf_rpack_kv_enum node "verdict" in
  let! m_nodes := bf_rpack_kv_array node "matchers" in
  let! matchers := rpack_each bf_matcher_new_from_pack m_nodes in
  Ok (mk_rule index matchers log mark counters (bf_verdict_of_Z verdict)).

(** * Sets *)

Definition bf_set_pack (set : bf_set) (pack : bf_wpack) : bf_wpack :=
  let pack := match set_name set with
              | Some name => bf_wpack_kv_str "name" name pack
              | None => bf_wpack_kv_nil "name" pack
              end in
  let pack := bf_wpack_open_array (Some "key"%string) pack in
  let pack := foldl (fun pack t => bf_wpack_enum (bf_matcher_type_to_Z t) pack) pack (set_key set) in
  let pack := bf_wpack_close_array pack in
  let pack := bf_wpack_open_array (Some "elements"%string) pack in
  let pack := foldl (fun pack e => bf_wpack_bin e pack) pack (set_elems set) in
  bf_wpack_close_array pack.

(** The components are counted before they are read. *)
Fixpoint set_read_key (n_comps : nat) (l : list mnode) : res (list bf_matcher_type) :=
  match l with
  | [] => Ok []
  | comp :: l =>
      if (BF_SET_MAX_N_COMPS <? S n_comps)%nat then Err (- E2BIG)
      else let! t := bf_rpack_enum comp in
           let! ts := set_read_key (S n_comps) l in
           Ok (bf_matcher_type_of_Z t :: ts)
  end.

Fixpoint set_read_elems (set : bf_set) (l : list mnode) : res bf_set :=
  match l with
  | [] => Ok set
  | node :: l =>
      let! elem := bf_rpack_bin node in
      if negb (Z.of_nat (length elem) =? set_elem_size set) then Err (- EINVAL)
      else set_read_elems (bf_set_add_elem set elem) l
  end.

Definition bf_set_new_from_pack (node : mnode) : res bf_set :=
  let! child := bf_rpack_kv_node node "name" in
  let! name := (if bf_rpack_is_nil child then Ok None
                else let! s := bf_rpack_str child in Ok (Some s)) in
  let! comps := bf_rpack_kv_array node "key" in
  let! key := set_read_key 0 comps in
  let! set := bf_set_new name key in
  let! elems := bf_rpack_kv_array node "elements" in
  set_read_elems set elems.

(** * Chains *)

Definition bf_chain_pack (chain : bf_chain) (pack : bf_wpack) : bf_wpack :=
  let pack := bf_wpack_kv_str "name" (chain_name chain) pack in
  let pack := bf_wpack_kv_enum "hook" (bf_hook_to_Z (chain_hook chain)) pack in
  let pack := bf_wpack_kv_enum "policy" (bf_verdict_to_Z (chain_policy chain)) pack in
  let pack := bf_wpack_kv_list "sets" bf_set_pack (Some <$> chain_sets chain) pack in
  bf_wpack_kv_list "rules" bf_rule_pack (Some <$> chain_rules chain) pack.

Definition bf_chain_new_from_pack (node : mnode) : res bf_chain :=
  let! name := bf_rpack_kv_str node "name" in
  let! hook := bf_rpack_kv_enum node "hook" in
  let! policy := bf_rpack_kv_enum node "policy" in
  let! set_nodes := bf_rpack_kv_array node "sets" in
  let! sets := rpack_each bf_set_new_from_pack set_nodes in
  let! rule_nodes := bf_rpack_kv_array node "rules" in
  let! rules := rpack_each bf_rule_new_from_pack rule_nodes in
  Ok (bf_chain_new name (bf_hook_of_Z hook) (bf_verdict_of_Z policy) sets rules).

(** * Hook options *)

Definition bf_hookopts_pack (ho : bf_hookopts) (pack : bf_wpack) : bf_wpack :=
  let pack := if bf_hookopts_is_used ho BF_HOOKOPTS_IFINDEX
              then bf_wpack_kv_int "ifindex" (ho_ifindex ho) pack
              else bf_wpack_kv_nil "ifindex" pack in
  let pack := if bf_hookopts_is_used ho BF_HOOKOPTS_CGPATH
              then bf_wpack_kv_str "cgpath" (default EmptyString (ho_cgpath ho)) pack
              else bf_wpack_kv_nil "cgpath" pack in
  let pack := if bf_hookopts_is_used ho BF_HOOKOPTS_FAMILY
              then bf_wpack_kv_uint "family" (ho_family ho) pack
              else bf_wpack_kv_nil "family" pack in
  if bf_hookopts_is_used ho BF_HOOKOPTS_PRIORITIES then
    let pack := bf_wpack_open_array (Some "priorities"%string) pack in
    let pack := bf_wpack_int (ho_priority0 ho) pack in
    let pack := bf_wpack_int (ho_priority1 ho) pack in
    bf_wpack_close_array pack
  else bf_wpack_kv_nil "priorities" pack.

(** An option that is nil is left as it is. *)
Definition hookopts_read (node : mnode) (key : string) (read : mnode -> bf_hookopts -> res bf_hookopts)
    (ho : bf_hookopts) : res bf_hookopts :=
  let! child := bf_rpack_kv_node node key in
  if bf_rpack_is_nil child then Ok ho else read child ho.

Definition hookopts_read_priorities (child : mnode) (ho : bf_hookopts) : res bf_hookopts :=
  match child with
  | MArray [n0; n1] =>
      let! p0 := bf_rpack_int n0 in
      let! p1 := bf_rpack_int n1 in
      Ok (hookopts_use BF_HOOKOPTS_PRIORITIES (with_priorities p0 p1 ho))
  | MArray _ => Err (- EINVAL)
  | _ => Err (- EDOM)
  end.

Definition bf_hookopts_new_from_pack (node : mnode) : res bf_hookopts :=
  let ho := bf_hookopts_new in
  let! ho := hookopts_read node "ifindex"
    (fun child ho => let! v := bf_rpack_int child in
                     Ok (hookopts_use BF_HOOKOPTS_IFINDEX (with_ifindex v ho))) ho in
  let! ho := hookopts_read node "cgpath"
    (fun child ho => let! v := bf_rpack_str child in
                     Ok (hookopts_use BF_HOOKOPTS_CGPATH (with_cgpath (Some v) ho))) ho in
  let! ho := hookopts_read node "family"
    (fun child ho => let! v := bf_rpack_uint child in
                     Ok (hookopts_use BF_HOOKOPTS_FAMILY (with_family v ho))) ho in
  hookopts_read node "priorities" hookopts_read_priorities ho.

(** * Counters *)

Record bf_counter : Type := mk_counter { counter_packets : Z; counter_bytes : Z }.

Definition bf_counter_new (packets bytes : Z) : bf_counter := mk_counter packets bytes.

Definition bf_counter_pack (counter : bf_counter) (pack : bf_wpack) : bf_wpack :=
  let pack := bf_wpack_kv_u64 "packets" (counter_packets counter) pack in
  bf_wpack_kv_u64 "bytes" (counter_bytes counter) pack.

Definition bf_counter_new_from_pack (node : mnode) : res bf_counter :=
  let! packets := bf_rpack_kv_u64 node "packets" in
  let! bytes := bf_rpack_kv_u64 node "bytes" in
  Ok (bf_counter_new packets bytes).

(** * The printer *)

Definition _bf_printer_msg_pack (msg : bf_printer_msg) (pack : bf_wpack) : bf_wpack :=
  let pack := bf_wpack_kv_u64 "offset" (msg_offset msg) pack in
  let pack := bf_wpack_kv_u64 "len" (msg_len msg) pack in
  bf_wpack_kv_str "str" (msg_str msg) pack.

Definition _bf_printer_msg_new_from_pack (node : mnode) : res bf_printer_msg :=
  let! offset := bf_rpack_kv_u64 node "offset" in
  let! len := bf_rpack_kv_u64 node "len" in
  let! str := bf_rpack_kv_str node "str" in
  Ok (mk_msg offset len str).

Definition bf_printer_pack (printer : bf_printer) (pack : bf_wpack) : bf_wpack :=
  bf_wpack_kv_list "msgs" _bf_printer_msg_pack (Some <$> printer) pack.

Definition bf_printer_new_from_pack (node : mnode) : res bf_printer :=
  let! child := bf_rpack_kv_array node "msgs" in
  rpack_each _bf_printer_msg_new_from_pack child.

(** * What packing writes *)

Definition matcher_kvs (m : bf_matcher) : list (string * mnode) :=
  [("type", int_node (bf_matcher_type_to_Z (matcher_type m)));
   ("op", int_node (bf_matcher_op_to_Z (matcher_op m)));
   ("payload", MBin (matcher_payload m))]%string.

Definition rule_kvs (r : bf_rule) : list (string * mnode) :=
  [("index", MUint (rule_index r)); ("log", MUint (rule_log r)); ("counters", MBool (rule_counters r));
   ("mark", MUint (rule_mark r)); ("verdict", int_node (bf_verdict_to_Z (rule_verdict r)));
   ("matchers", MArray (opt_obj matcher_kvs <$> (Some <$> rule_matchers r)))]%string.

Definition set_kvs (s : bf_set) : list (string * mnode) :=
  [("name", match set_name s with Some n => MStr n | None => MNil end);
   ("key", MArray ((fun t => int_node (bf_matcher_type_to_Z t)) <$> set_key s));
   ("elements", MArray (MBin <$> set_elems s))]%string.

Definition chain_kvs (c : bf_chain) : list (string * mnode) :=
  [("name", MStr (chain_name c)); ("hook", int_node (bf_hook_to_Z (chain_hook c)));
   ("policy", int_node (bf_verdict_to_Z (chain_policy c)));
   ("sets", MArray (opt_obj set_kvs <$> (Some <$> chain_sets c)));
   ("rules", MArray (opt_obj rule_kvs <$> (Some <$> chain_rules c)))]%string.

Definition used_node (ho : bf_hookopts) (t : bf_hookopts_type) (n : mnode) : mnode :=
  if bf_hookopts_is_used ho t then n else MNil.

Definition hookopts_kvs (ho : bf_hookopts) : list (string * mnode) :=
  [("ifindex", used_node ho BF_HOOKOPTS_IFINDEX (int_node (ho_ifindex ho)));
   ("cgpath", used_node ho BF_HOOKOPTS_CGPATH (MStr (default EmptyString (ho_cgpath ho))));
   ("family", used_node ho BF_HOOKOPTS_FAMILY (MUint (ho_family ho)));
   ("priorities", used_node ho BF_HOOKOPTS_PRIORITIES
      (MArray [int_node (ho_priority0 ho); int_node (ho_priority1 ho)]))]%string.

Definition counter_kvs (c : bf_counter) : list (string * mnode) :=
  [("packets", MUint (counter_packets c)); ("bytes", MUint (counter_bytes c))]%string.

Definition msg_kvs (m : bf_printer_msg) : list (string * mnode) :=
  [("offset", MUint (msg_offset m)); ("len", MUint (msg_len m)); ("str", MStr (msg_str m))]%string.

Definition printer_kvs (pr : bf_printer) : list (string * mnode) :=
  [("msgs", MArray (opt_obj msg_kvs <$> (Some <$> pr)))]%string.

(** Adding an element is not unfolded when two packs are compared. *)
#[local] Opaque wpack_add.

Lemma matcher_packs : packs bf_matcher_pack matcher_kvs.
Proof. done. Qed.

Lemma counter_packs : packs bf_counter_pack counter_kvs.
Proof. done. Qed.

Lemma msg_packs : packs _bf_printer_msg_pack msg_kvs.
Proof. done. Qed.

Lemma kv_open (f : bf_wpack -> bf_wpack) k v pack :
  f pack = wpack_adds (kvs [(k, v)]) pack -> wopen pack -> wopen (f pack).
Proof. intros ->. apply wpack_adds_open. Qed.

Ltac wopen_tac := repeat first [assumption | apply wpack_add_open | apply wpack_adds_open].

Lemma rule_packs : packs bf_rule_pack rule_kvs.
Proof.
  intros r pack Ho. unfold bf_rule_pack.
  by rewrite (wpack_kv_list_adds _ _ matcher_kvs) by (apply matcher_packs || by wopen_tac).
Qed.

Lemma set_packs : packs bf_set_pack set_kvs.
Proof.
  intros s pack Ho. unfold bf_set_pack.
  assert (forall key pk, foldl (fun pack t => bf_wpack_enum (bf_matcher_type_to_Z t) pack) pk key =
    wpack_adds ((fun t => int_node (bf_matcher_type_to_Z t)) <$> key) pk) as Hk.
  { intros key. induction key as [|t key IH]; intros pk; [done|]. cbn [foldl]. by rewrite IH. }
  assert (forall es pk, foldl (fun pack e => bf_wpack_bin e pack) pk es = wpack_adds (MBin <$> es) pk) as He.
  { intros es. induction es as [|e es IH]; intros pk; [done|]. cbn [foldl]. by rewrite IH. }
  rewrite Hk, He. unfold set_kvs. destruct (set_name s);
    rewrite (wpack_array (Some "key"%string)) by wopen_tac;
    rewrite (wpack_array (Some "elements"%string)) by wopen_tac; done.
Qed.

Lemma chain_packs : packs bf_chain_pack chain_kvs.
Proof.
  intros c pack Ho. unfold bf_chain_pack.
  rewrite (wpack_kv_list_adds "sets" _ set_kvs) by (apply set_packs || by wopen_tac).
  by rewrite (wpack_kv_list_adds "rules" _ rule_kvs) by (apply rule_packs || by wopen_tac).
Qed.

Lemma hookopts_packs : packs bf_hookopts_pack hookopts_kvs.
Proof.
  intros ho pack Ho. unfold bf_hookopts_pack, hookopts_kvs, used_node.
  destruct (bf_hookopts_is_used ho BF_HOOKOPTS_IFINDEX), (bf_hookopts_is_used ho BF_HOOKOPTS_CGPATH),
    (bf_hookopts_is_used ho BF_HOOKOPTS_FAMILY), (bf_hookopts_is_used ho BF_HOOKOPTS_PRIORITIES);
    try reflexivity;
    match goal with |- context [bf_wpack_int ?b (bf_wpack_int ?a (bf_wpack_open_array ?k ?p))] =>
      change (bf_wpack_int b (bf_wpack_int a (bf_wpack_open_array k p))) with
        (wpack_adds [int_node a; int_node b] (bf_wpack_open_array k p)) end;
    rewrite wpack_array by (by wopen_tac); reflexivity.
Qed.

Lemma printer_packs : packs bf_printer_pack printer_kvs.
Proof. intros pr pack Ho. unfold bf_printer_pack. by rewrite (wpack_kv_list_adds _ _ msg_kvs) by (done || apply msg_packs). Qed.

(** * Values of the fields' C types *)

(** An enumeration read back gives the same constructor, and fits an int. *)
Definition int_ok (z : Z) : Prop := - 2 ^ 31 <= z < 2 ^ 31.

Record matcher_packable (m : bf_matcher) : Prop := mk_matcher_packable {
  mp_type : bf_matcher_type_of_Z (bf_matcher_type_to_Z (matcher_type m)) = matcher_type m;
  mp_type_int : int_ok (bf_matcher_type_to_Z (matcher_type m));
  mp_op : bf_matcher_op_of_Z (bf_matcher_op_to_Z (matcher_op m)) = matcher_op m;
  mp_op_int : int_ok (bf_matcher_op_to_Z (matcher_op m))
}.

Record rule_packable (r : bf_rule) : Prop := mk_rule_packable {
  rp_index : 0 <= rule_index r < 2 ^ 32;
  rp_log : 0 <= rule_log r < 2 ^ 8;
  rp_mark : 0 <= rule_mark r < 2 ^ 64;
  rp_verdict : bf_verdict_of_Z (bf_verdict_to_Z (rule_verdict r)) = rule_verdict r;
  rp_verdict_int : int_ok (bf_verdict_to_Z (rule_verdict r));
  rp_matchers : Forall matcher_packable (rule_matchers r)
}.

Record set_packable (s : bf_set) : Prop := mk_set_packable {
  sp_wf : set_wf s;
  sp_name : match set_name s with Some n => has_nul n = false | None => True end
}.

Record chain_packable (c : bf_chain) : Prop := mk_chain_packable {
  cp_name : has_nul (chain_name c) = false;
  cp_hook : bf_hook_of_Z (bf_hook_to_Z (chain_hook c)) = chain_hook c;
  cp_hook_int : int_ok (bf_hook_to_Z (chain_hook c));
  cp_policy : bf_verdict_of_Z (bf_verdict_to_Z (chain_policy c)) = chain_policy c;
  cp_policy_int : int_ok (bf_verdict_to_Z (chain_policy c));
  cp_sets : Forall set_packable (chain_sets c);
  cp_rules : Forall rule_packable (chain_rules c)
}.

(** * Reading back *)

(** The next field of an object whose keys are known. *)
Ltac read_field lem := erewrite rpack_kv_at by reflexivity; rewrite lem by (done || lia); cbn [rbind].

Ltac unfold_reads :=
  unfold bf_rpack_kv_enum, bf_rpack_kv_int, bf_rpack_kv_u8, bf_rpack_kv_u32, bf_rpack_kv_u64, bf_rpack_kv_bool,
    bf_rpack_kv_str, bf_rpack_kv_bin, bf_rpack_kv_array, bf_rpack_u8, bf_rpack_u32, bf_rpack_u64, bf_rpack_uint,
    UINT8_MAX, UINT32_MAX.

Lemma read_matcher m : matcher_packable m -> bf_matcher_new_from_pack (obj (matcher_kvs m)) = Ok m.
Proof.
  intros [Ht Hti Ho Hoi]. unfold bf_matcher_new_from_pack. unfold_reads.
  read_field read_int. read_field read_int. erewrite rpack_kv_at by reflexivity. cbn [bf_rpack_bin rbind].
  rewrite Ht, Ho. by destruct m.
Qed.

Lemma read_some {A} (read : mnode -> res A) f (l : list A) :
  Forall (fun x => read (obj (f x)) = Ok x) l -> rpack_each read (opt_obj f <$> (Some <$> l)) = Ok l.
Proof. intros Hl. rewrite <- list_fmap_compose. by apply read_each_id. Qed.

Lemma read_rule r : rule_packable r -> bf_rule_new_from_pack (obj (rule_kvs r)) = Ok r.
Proof.
  intros [Hi Hl Hm Hv Hvi Hms]. unfold bf_rule_new_from_pack. unfold_reads.
  read_field read_unsigned. read_field read_unsigned. erewrite rpack_kv_at by reflexivity. cbn [bf_rpack_bool rbind].
  read_field read_unsigned. read_field read_int. erewrite rpack_kv_at by reflexivity. cbn [rbind].
  rewrite read_some by (eapply Forall_impl; [exact Hms|apply read_matcher]). cbn [rbind]. rewrite Hv. by destruct r.
Qed.

Lemma in_type_packable t : is_Some (bf_matcher_get_ops t BF_MATCHER_IN) ->
  int_ok (bf_matcher_type_to_Z t) /\ bf_matcher_type_of_Z (bf_matcher_type_to_Z t) = t.
Proof. unfold int_ok. destruct t; try (intros _; split; [cbn; lia|done]). intros [? [=]]. Qed.

Lemma read_key n key : (n + length key <= BF_SET_MAX_N_COMPS)%nat ->
  Forall (fun t => is_Some (bf_matcher_get_ops t BF_MATCHER_IN)) key ->
  set_read_key n ((fun t => int_node (bf_matcher_type_to_Z t)) <$> key) = Ok key.
Proof.
  intros Hn Hk. revert n Hn. induction Hk as [|t key Ht _ IH]; intros n Hn; [done|].
  cbn [set_read_key fmap list_fmap length] in *. destruct (in_type_packable t Ht) as [Hi E].
  rewrite (proj2 (Nat.ltb_ge _ _)) by lia. unfold bf_rpack_enum. rewrite read_int by done. cbn [rbind].
  rewrite IH by lia. cbn [rbind]. by rewrite E.
Qed.

Lemma set_new_again s : set_wf s ->
  bf_set_new (set_name s) (set_key s) = Ok (mk_set (set_name s) (set_key s) [] (set_elem_size s) (set_use_trie s)).
Proof.
  intros [Hc Ho Hs Hn Ht _]. unfold bf_set_new. rewrite (proj2 (Nat.eqb_neq _ _)), (proj2 (Nat.ltb_ge _ _)) by lia.
  assert (forall a b, exists es mask, set_new_comps (set_key s) a b = Ok (es, mask)) as Hx.
  { clear -Ho. induction Ho as [|t key [ops Ht] _ IH]; intros a b; cbn; [by do 2 eexists|].
    rewrite Ht. apply IH. }
  destruct (Hx 0 0) as (es & mask & E). clear Hx.
  rewrite E. apply set_new_comps_spec in E as (_ & -> & ->). cbn [rbind]. rewrite Z.lor_0_l, net_mask_spec by done.
  rewrite <- Ht, Z.add_0_l, <- Hs. destruct (Nat.ltb_spec 1 (length (set_key s))) as [H1|H1]; cbn [andb].
  - assert (set_use_trie s = false) as ->; [|by rewrite andb_false_r].
    rewrite Ht. apply not_true_iff_false. intros (t & Hin & Hx)%existsb_exists.
    rewrite <- list_elem_of_In in Hin. specialize (Hn H1). rewrite Forall_forall in Hn. by rewrite Hn in Hx.
  - by rewrite (proj2 (Nat.eqb_eq _ _)) by lia.
Qed.

Lemma read_elems s es : Forall (fun e => Z.of_nat (length e) = set_elem_size s) es ->
  set_read_elems s (MBin <$> es) =
  Ok (mk_set (set_name s) (set_key s) (set_elems s ++ es) (set_elem_size s) (set_use_trie s)).
Proof.
  intros He. revert s He. induction es as [|e es IH]; intros s He; cbn [set_read_elems fmap list_fmap].
  - rewrite app_nil_r. by destruct s.
  - apply Forall_cons in He as [He Hes]. cbn [bf_rpack_bin rbind]. rewrite He, Z.eqb_refl. cbn [negb].
    rewrite IH by done. unfold bf_set_add_elem. cbn [set_name set_key set_elems set_elem_size set_use_trie].
    by rewrite <- He, Nat2Z.id, firstn_all, <- app_assoc.
Qed.

Lemma read_set s : set_packable s -> bf_set_new_from_pack (obj (set_kvs s)) = Ok s.
Proof.
  intros [Hwf Hn]. pose proof Hwf as [Hc Ho _ _ _ He]. unfold bf_set_new_from_pack.
  erewrite rpack_node_at by reflexivity. cbn [rbind].
  assert ((if bf_rpack_is_nil match set_name s with Some n => MStr n | None => MNil end then Ok None
           else let! s0 := bf_rpack_str match set_name s with Some n => MStr n | None => MNil end in Ok (Some s0)) =
          Ok (set_name s)) as ->.
  { destruct (set_name s) as [n|]; [|done]. cbn [bf_rpack_is_nil]. by rewrite read_str. }
  unfold_reads. cbn [rbind]. erewrite rpack_kv_at by reflexivity. cbn [rbind].
  rewrite read_key by (done || lia). cbn [rbind]. rewrite set_new_again by done. cbn [rbind].
  erewrite rpack_kv_at by reflexivity. cbn [rbind]. rewrite read_elems by done. by destruct s.
Qed.

(** The chain is built again: its flags and the indices of its rules are those
    [bf_chain_new] gives. *)
Lemma read_chain c : chain_packable c ->
  bf_chain_new_from_pack (obj (chain_kvs c)) =
  Ok (bf_chain_new (chain_name c) (chain_hook c) (chain_policy c) (chain_sets c) (chain_rules c)).
Proof.
  intros [Hn Hh Hhi Hp Hpi Hs Hr]. unfold bf_chain_new_from_pack. unfold_reads.
  read_field read_str. read_field read_int. read_field read_int.
  erewrite rpack_kv_at by reflexivity. cbn [rbind].
  rewrite read_some by (eapply Forall_impl; [exact Hs|apply read_set]). cbn [rbind].
  erewrite rpack_kv_at by reflexivity. cbn [rbind].
  rewrite read_some by (eapply Forall_impl; [exact Hr|apply read_rule]). cbn [rbind]. by rewrite Hh, Hp.
Qed.

(** A chain that [bf_chain_new] built is built again to the same chain. *)
Definition chain_built (c : bf_chain) : Prop :=
  c = bf_chain_new (chain_name c) (chain_hook c) (chain_policy c) (chain_sets c) (chain_rules c).

Lemma features_index flags i rules :
  foldl _bf_chain_update_features flags (chain_index_rules i rules) = foldl _bf_chain_update_features flags rules.
Proof. revert flags i. induction rules as [|r rules IH]; intros flags i; [done|]. cbn. by rewrite IH. Qed.

Lemma chain_index_again i rules : chain_index_rules i (chain_index_rules i rules) = chain_index_rules i rules.
Proof. revert i. induction rules as [|r rules IH]; intros i; [done|]. cbn. by rewrite IH. Qed.

Lemma chain_index_snoc i rules r :
  chain_index_rules i (rules ++ [r]) = chain_index_rules i rules ++ [rule_set_index (i + Z.of_nat (length rules)) r].
Proof.
  revert i. induction rules as [|x rules IH]; intros i; cbn; [by rewrite Z.add_0_r|].
  rewrite IH. do 4 f_equal. lia.
Qed.

Lemma bf_chain_new_built name hook policy sets rules : chain_built (bf_chain_new name hook policy sets rules).
Proof. unfold chain_built, bf_chain_new. cbn. by rewrite features_index, chain_index_again. Qed.

Lemma bf_chain_add_rule_built c r : chain_built c -> chain_built (bf_chain_add_rule c r).
Proof.
  intros Hc. unfold chain_built, bf_chain_add_rule, bf_chain_new in *. cbn.
  destruct c as [n f h p ss rs]. cbn in *. injection Hc as Hf Hr.
  rewrite foldl_app, chain_index_snoc, <- Hf, <- Hr. reflexivity.
Qed.

(** * Hook options, counters, printers *)

Definition default_unless {A} (used : bool) (d v : A) : Prop := used = false -> v = d.

Record hookopts_packable (ho : bf_hookopts) : Prop := mk_hookopts_packable {
  hp_used : 0 <= ho_used_opts ho < 16;
  hp_ifindex : int_ok (ho_ifindex ho);
  hp_cgpath : match ho_cgpath ho with Some p => has_nul p = false | None => True end;
  hp_family : 0 <= ho_family ho < 2 ^ 32;
  hp_priority0 : int_ok (ho_priority0 ho);
  hp_priority1 : int_ok (ho_priority1 ho);
  hp_no_ifindex : default_unless (bf_hookopts_is_used ho BF_HOOKOPTS_IFINDEX) 0 (ho_ifindex ho);
  hp_no_cgpath : bf_hookopts_is_used ho BF_HOOKOPTS_CGPATH = false <-> ho_cgpath ho = None;
  hp_no_family : default_unless (bf_hookopts_is_used ho BF_HOOKOPTS_FAMILY) 0 (ho_family ho);
  hp_no_priorities : default_unless (bf_hookopts_is_used ho BF_HOOKOPTS_PRIORITIES) (0, 0)
    (ho_priority0 ho, ho_priority1 ho)
}.

Lemma int_node_not_nil z : bf_rpack_is_nil (int_node z) = false.
Proof. unfold int_node. by destruct (z <? 0). Qed.

(** The four options, one after the other. *)
Lemma read_ifindex (b : bool) v ho : int_ok v ->
  (if bf_rpack_is_nil (if b then int_node v else MNil) then Ok ho
   else let! v := bf_rpack_int (if b then int_node v else MNil) in
        Ok (hookopts_use BF_HOOKOPTS_IFINDEX (with_ifindex v ho))) =
  Ok (if b then hookopts_use BF_HOOKOPTS_IFINDEX (with_ifindex v ho) else ho).
Proof. intros Hv. destruct b; [|done]. by rewrite int_node_not_nil, read_int. Qed.

Lemma read_priorities (b : bool) p0 p1 ho : int_ok p0 -> int_ok p1 ->
  (if bf_rpack_is_nil (if b then MArray [int_node p0; int_node p1] else MNil) then Ok ho
   else hookopts_read_priorities (if b then MArray [int_node p0; int_node p1] else MNil) ho) =
  Ok (if b then hookopts_use BF_HOOKOPTS_PRIORITIES (with_priorities p0 p1 ho) else ho).
Proof.
  intros H0 H1. destruct b; [|done]. cbn [bf_rpack_is_nil hookopts_read_priorities].
  by rewrite (read_int p0), (read_int p1) by done.
Qed.

Lemma read_cgpath (b : bool) v ho : match v with Some p => has_nul p = false | None => True end ->
  (b = false <-> v = None) ->
  (if bf_rpack_is_nil (if b then MStr (default EmptyString v) else MNil) then Ok ho
   else let! v := bf_rpack_str (if b then MStr (default EmptyString v) else MNil) in
        Ok (hookopts_use BF_HOOKOPTS_CGPATH (with_cgpath (Some v) ho))) =
  Ok (if b then hookopts_use BF_HOOKOPTS_CGPATH (with_cgpath v ho) else ho).
Proof.
  intros Hv Hn. destruct b; [|done]. destruct v as [v|]; [|by pose proof (proj2 Hn eq_refl)]. cbn [bf_rpack_is_nil default].
  by rewrite read_str.
Qed.

Lemma read_family (b : bool) v ho : 0 <= v < 2 ^ 32 ->
  (if bf_rpack_is_nil (if b then MUint v else MNil) then Ok ho
   else let! v := bf_rpack_uint (if b then MUint v else MNil) in
        Ok (hookopts_use BF_HOOKOPTS_FAMILY (with_family v ho))) =
  Ok (if b then hookopts_use BF_HOOKOPTS_FAMILY (with_family v ho) else ho).
Proof.
  intros Hv. destruct b; [|done]. cbn [bf_rpack_is_nil]. unfold bf_rpack_uint.
  by rewrite read_unsigned by (unfold UINT32_MAX; lia).
Qed.

Definition used_bit (t : bf_hookopts_type) (b : bool) (u : Z) : Z := if b then Z.lor u (hookopts_flag t) else u.

Lemma used_bits ho : 0 <= ho_used_opts ho < 16 ->
  ho_used_opts ho = foldl (fun u t => used_bit t (bf_hookopts_is_used ho t) u) 0 bf_hookopts_type_vals.
Proof.
  intros Hu. unfold bf_hookopts_is_used. set (u := ho_used_opts ho) in *. clearbody u.
  assert (In u (seqZ 0 16)) as Hin by (apply list_elem_of_In, elem_of_seqZ; lia). clear Hu.
  cbn in Hin. repeat (destruct Hin as [<-|Hin]; [by vm_compute|]). destruct Hin.
Qed.

Lemma read_hookopts ho : hookopts_packable ho -> bf_hookopts_new_from_pack (obj (hookopts_kvs ho)) = Ok ho.
Proof.
  intros [Hu Hi Hc Hf H0 H1 Ni Nc Nf Np]. apply used_bits in Hu. cbn [foldl bf_hookopts_type_vals] in Hu.
  unfold bf_hookopts_new_from_pack, hookopts_read, hookopts_kvs, used_node.
  set (b0 := bf_hookopts_is_used ho BF_HOOKOPTS_IFINDEX) in *. set (b1 := bf_hookopts_is_used ho BF_HOOKOPTS_CGPATH) in *.
  set (b2 := bf_hookopts_is_used ho BF_HOOKOPTS_FAMILY) in *. set (b3 := bf_hookopts_is_used ho BF_HOOKOPTS_PRIORITIES) in *.
  erewrite rpack_node_at by reflexivity. cbn [rbind]. rewrite read_ifindex by done. cbn [rbind].
  erewrite rpack_node_at by reflexivity. cbn [rbind]. rewrite read_cgpath by done. cbn [rbind].
  erewrite rpack_node_at by reflexivity. cbn [rbind]. rewrite read_family by done. cbn [rbind].
  erewrite rpack_node_at by reflexivity. cbn [rbind]. rewrite read_priorities by done. f_equal.
  clearbody b0 b1 b2 b3. unfold default_unless in *. destruct ho as [u i c f p0 p1]. cbn in *. subst u.
  destruct b0; [clear Ni|rewrite Ni by done]; (destruct b1; [clear Nc|rewrite (proj1 Nc) by done]);
    (destruct b2; [clear Nf|rewrite Nf by done]);
    (destruct b3; [clear Np|specialize (Np eq_refl); injection Np as -> ->]); reflexivity.
Qed.

Definition counter_packable (c : bf_counter) : Prop :=
  0 <= counter_packets c < 2 ^ 64 /\ 0 <= counter_bytes c < 2 ^ 64.

Lemma read_counter c : counter_packable c -> bf_counter_new_from_pack (obj (counter_kvs c)) = Ok c.
Proof.
  intros [Hp Hb]. unfold bf_counter_new_from_pack. unfold_reads.
  read_field read_unsigned. read_field read_unsigned. by destruct c.
Qed.

Definition msg_packable (m : bf_printer_msg) : Prop :=
  0 <= msg_offset m < 2 ^ 64 /\ 0 <= msg_len m < 2 ^ 64 /\ has_nul (msg_str m) = false.

Lemma read_msg m : msg_packable m -> _bf_printer_msg_new_from_pack (obj (msg_kvs m)) = Ok m.
Proof.
  intros (Ho & Hl & Hs). unfold _bf_printer_msg_new_from_pack. unfold_reads.
  read_field read_unsigned. read_field read_unsigned. read_field read_str. by destruct m.
Qed.

Lemma read_printer pr : Forall msg_packable pr -> bf_printer_new_from_pack (obj (printer_kvs pr)) = Ok pr.
Proof.
  intros Hm. unfold bf_printer_new_from_pack. unfold_reads. erewrite rpack_kv_at by reflexivity. cbn [rbind].
  apply read_some. eapply Forall_impl; [exact Hm|apply read_msg].
Qed.
