(* ===== verification/Dump.v ===== *)
(** What the tool prints: chains and rulesets, [bfc_chain_dump] and
    [bfc_ruleset_dump] of [src/bfcli/print.c].

    A function is the text it writes.  Reading past the end of a table of names,
    or following a pointer that is null, is [BF_CRASH]. *)

From S2P Require Import Prelude Bytes Helper CString Printf Inet Hook Hookopts Matcher Payload BfSet Rule Chain Sys Pack Serial.
From Stdlib Require Import Ascii.

Definition nl : string := str1 "010".

(** ["%d"], and ["%02x"] of a byte. *)
Definition fmt_d (z : Z) : string := if z <? 0 then "-" +s+ number 10 (- z) else number 10 z.

Definition fmt_02x (z : Z) : string :=
  let s := fmt_x z in String.append (String.substring 0 (2 - String.length s) "00") s.

Definition name_of (name : option string) : res string := of_option (- BF_CRASH) name.

(** The texts of the elements of a list, one after the other. *)
Fixpoint print_each {A} (print : A -> res string) (l : list A) : res string :=
  match l with
  | [] => Ok EmptyString
  | a :: l => let! text := print a in let! texts := print_each print l in Ok (text +s+ texts)
  end.

(** * Bytes *)

(** The bytes are written in groups of 8, without anything between the
    groups. *)
Definition bf_dump_hex_local (data : list Z) : string :=
  foldr (fun b text => ("0x" +s+ fmt_02x b +s+ " ") +s+ text) EmptyString data.

(** * Options *)

(** The options that are used, separated by commas. *)
Fixpoint print_opts (opts : list (bool * string)) (need_comma : bool) : string :=
  match opts with
  | [] => EmptyString
  | (used, text) :: opts =>
      if used then (if need_comma then "," else EmptyString) +s+ text +s+ print_opts opts true
      else print_opts opts need_comma
  end.

(** The priorities are written when the family is used. *)
Definition hookopts_text (ho : bf_hookopts) : string :=
  "{" +s+
  print_opts
    [ (bf_hookopts_is_used ho BF_HOOKOPTS_IFINDEX, "ifindex=" +s+ fmt_d (ho_ifindex ho));
      (bf_hookopts_is_used ho BF_HOOKOPTS_CGPATH, "cgpath=" +s+ default "(null)" (ho_cgpath ho));
      (bf_hookopts_is_used ho BF_HOOKOPTS_FAMILY, "family=" +s+ (if ho_family ho =? PF_INET then "inet4" else "inet6"));
      (bf_hookopts_is_used ho BF_HOOKOPTS_FAMILY, "priorities=" +s+ fmt_d (ho_priority0 ho) +s+ "-" +s+ fmt_d (ho_priority1 ho)) ]
    false
  +s+ "}".

(** * Sets *)

Definition comma_after {A} (rest : list A) : string := match rest with [] => EmptyString | _ => ", " end.

(** The types of a key. *)
Fixpoint print_key (key : list bf_matcher_type) : string :=
  match key with
  | [] => EmptyString
  | type :: key => bf_matcher_type_to_str type +s+ comma_after key +s+ print_key key
  end.

Section Dump.
Context `{Ifaces}.

Definition print_comp (type : bf_matcher_type) (payload : list Z) : res (string * nat) :=
  match bf_matcher_get_ops type BF_MATCHER_IN with
  | None => Err (- BF_CRASH)
  | Some ops =>
      if (written (ops_parse ops) <=? length payload)%nat
      then Ok (print_with (ops_parse ops) payload, Z.to_nat (ref_payload_size ops)) else Err (- BF_CRASH)
  end.

(** The components of an element. *)
Fixpoint print_elem (key : list bf_matcher_type) (payload : list Z) : res string :=
  match key with
  | [] => Ok EmptyString
  | type :: key =>
      let! p := print_comp type payload in
      let! text := print_elem key (drop (snd p) payload) in
      Ok (fst p +s+ comma_after key +s+ text)
  end.

(** The elements between braces, on lines of their own. *)
Definition print_elems (indent close : string) (set : bf_set) : res string :=
  let! text := print_each (fun elem => let! text := print_elem (set_key set) elem in Ok (indent +s+ text +s+ nl)) (set_elems set) in
  Ok ("{" +s+ nl +s+ text +s+ close +s+ "}").

Definition print_named_set (set : bf_set) : res string :=
  match set_name set with
  | None => Ok EmptyString
  | Some name =>
      let! elems := print_elems "        " "    " set in
      Ok ("    set " +s+ name +s+ " (" +s+ print_key (set_key set) +s+ ") in " +s+ elems +s+ nl)
  end.

(** * Rules *)

Definition print_set_matcher (chain : bf_chain) (m : bf_matcher) : res string :=
  let! _ := payload_has 4 m in
  match bf_chain_get_set_for_matcher chain m with
  | None => Err (- BF_CRASH)
  | Some set =>
      let! where_ := match set_name set with
                     | Some name => Ok name
                     | None => print_elems "            " "        " set
                     end in
      Ok ("        (" +s+ print_key (set_key set) +s+ ") in " +s+ where_)
  end.

Definition print_matcher (chain : bf_chain) (m : bf_matcher) : res string :=
  let! text :=
    if decide (bf_matcher_get_type m = BF_MATCHER_SET) then print_set_matcher chain m
    else
      let! op := name_of (bf_matcher_op_to_str (bf_matcher_get_op m)) in
      let! payload :=
        match bf_matcher_get_ops (bf_matcher_get_type m) (bf_matcher_get_op m) with
        | Some ops =>
            let! _ := payload_has (written (ops_parse ops)) m in Ok (print_with (ops_parse ops) (matcher_payload m))
        | None => Ok (bf_dump_hex_local (matcher_payload m))
        end in
      Ok ("        " +s+ bf_matcher_type_to_str (bf_matcher_get_type m) +s+ " " +s+ op +s+ " " +s+ payload)
  in Ok (text +s+ nl).

(** The headers of [log], in 8 bits; a comma follows when some are left. *)
Fixpoint print_log_headers (hdrs : list bf_pkthdr) (log : Z) : string :=
  match hdrs with
  | [] => EmptyString
  | hdr :: hdrs =>
      let flag := BF_FLAG (bf_pkthdr_to_Z hdr) in
      if Z.land log flag =? 0 then print_log_headers hdrs log
      else
        let log := u8 (Z.land log (Z.lnot flag)) in
        default EmptyString (bf_pkthdr_to_str hdr) +s+ (if log =? 0 then nl else ",") +s+ print_log_headers hdrs log
  end.

Definition counter_text (c : bf_counter) : string :=
  number 10 (counter_packets c) +s+ " packets " +s+ number 10 (counter_bytes c) +s+ " bytes".

(** [counter] is the counter of the rule, if there is one left. *)
Definition print_rule (chain : bf_chain) (rule : bf_rule) (counter : option bf_counter) : res string :=
  let! matchers := print_each (print_matcher chain) (rule_matchers rule) in
  let! counters := (if rule_counters rule
                    then let! c := of_option (- BF_CRASH) counter in Ok ("        counters " +s+ counter_text c +s+ nl)
                    else Ok EmptyString) in
  let! verdict := name_of (bf_verdict_to_str (rule_verdict rule)) in
  Ok ("    rule" +s+ nl +s+ matchers +s+
      (if rule_log rule =? 0 then EmptyString else "        log " +s+ print_log_headers bf_pkthdr_vals (rule_log rule)) +s+
      (if bf_rule_mark_is_set rule then "        mark 0x" +s+ fmt_x (bf_rule_mark_get rule) +s+ nl else EmptyString) +s+
      counters +s+ "        " +s+ verdict +s+ nl).

(** The rules and the counters are gone through together. *)
Fixpoint print_rules (chain : bf_chain) (rules : list bf_rule) (counters : list bf_counter) : res string :=
  match rules with
  | [] => Ok EmptyString
  | rule :: rules =>
      let! text := print_rule chain rule (head counters) in
      let! texts := print_rules chain rules (tail counters) in
      Ok (text +s+ texts)
  end.

(** * Chains *)

(** The last two counters are the one of the policy and the one of the errors.
    Nothing is written for a chain without the counters it should have. *)
Definition bfc_chain_dump (chain : bf_chain) (hookopts : option bf_hookopts) (counters : list bf_counter) : res string :=
  let n := length counters in
  if negb (n =? length (chain_rules chain) + 2)%nat then Ok EmptyString
  else
    let! hook := name_of (bf_hook_to_str (chain_hook chain)) in
    let! policy := name_of (bf_verdict_to_str (chain_policy chain)) in
    let! policy_counter := of_option (- BF_CRASH) (counters !! (n - 2)%nat) in
    let! err_counter := of_option (- BF_CRASH) (counters !! (n - 1)%nat) in
    let! sets := print_each print_named_set (chain_sets chain) in
    let! rules := print_rules chain (chain_rules chain) counters in
    Ok ("chain " +s+ chain_name chain +s+ " " +s+ hook +s+
        match hookopts with Some ho => hookopts_text ho | None => EmptyString end +s+
        " " +s+ policy +s+ nl +s+
        "    counters policy " +s+ counter_text policy_counter +s+ "; error " +s+ counter_text err_counter +s+ nl +s+
        sets +s+ rules).

(** The three lists have the same length. *)
Fixpoint dump_chains (chains : list bf_chain) (hookopts : list (option bf_hookopts)) (counters : list (list bf_counter)) :
    res string :=
  match chains, hookopts, counters with
  | chain :: chains, ho :: hookopts, cs :: counters =>
      let! text := bfc_chain_dump chain ho cs in
      let! texts := dump_chains chains hookopts counters in
      Ok (text +s+ texts)
  | [], _, _ => Ok EmptyString
  | _, _, _ => Err (- BF_CRASH)
  end.

Definition bfc_ruleset_dump (chains : list bf_chain) (hookopts : list (option bf_hookopts)) (counters : list (list bf_counter)) :
    res string :=
  if negb (length chains =? length hookopts)%nat then Err (- EINVAL)
  else if negb (length counters =? length chains)%nat then Err (- EINVAL)
  else dump_chains chains hookopts counters.
End Dump.
