(* ===== verification/RawSetSpec.v ===== *)
(** What reading a set from its text promises: the set is well formed and its
    components are payloads, the printed form of a set is read back, and the
    only text the loop does not come back from is one whose first token is
    blank. *)

From S2P Require Import Prelude Bytes Helper CString Printf Inet Hook Hookopts Matcher Payload PayloadSpec BfSet.
From S2P Require Import Rule Chain Sys Pack Serial Dump.
From Stdlib Require Import Ascii.

(** * Tokens *)

Abbreviation no_delim delim := (str_all (fun c => negb (str_mem c delim))).
Abbreviation all_delim delim := (str_all (fun c => str_mem c delim)).

Lemma tok_skip_app delim pre s : all_delim delim pre = true -> tok_skip delim (pre +s+ s) = tok_skip delim s.
Proof.
  induction pre as [|c pre IH]; [done|]. cbn [str_all]. intros [Hc Hp]%andb_true_iff.
  change (String c pre +s+ s) with (String c (pre +s+ s)). cbn [tok_skip]. rewrite Hc. by apply IH.
Qed.

Lemma tok_skip_none delim c s : str_mem c delim = false -> tok_skip delim (String c s) = String c s.
Proof. intros Hc. cbn [tok_skip]. by rewrite Hc. Qed.

Lemma tok_skip_split delim s : exists pre, all_delim delim pre = true /\ s = pre +s+ tok_skip delim s /\
  match tok_skip delim s with String c _ => str_mem c delim = false | EmptyString => True end.
Proof.
  induction s as [|c s IH]; [by exists EmptyString|]. cbn [tok_skip]. destruct (str_mem c delim) eqn:Hc.
  - destruct IH as (pre & Hp & He & Hh). exists (String c pre). cbn [str_all]. rewrite Hc, Hp. split; [done|]. split; [|done].
    change (String c pre +s+ tok_skip delim s) with (String c (pre +s+ tok_skip delim s)). by rewrite <- He.
  - exists EmptyString. by split.
Qed.

Lemma tok_take_all delim t : no_delim delim t = true -> tok_take delim t = (t, EmptyString).
Proof.
  induction t as [|c t IH]; [done|]. cbn [str_all tok_take]. intros [Hc%negb_true_iff Ht]%andb_true_iff. by rewrite Hc, IH.
Qed.

Lemma tok_take_split delim s t rest : tok_take delim s = (t, rest) -> no_delim delim t = true /\
  (String.length t + String.length rest <= String.length s)%nat.
Proof.
  revert t rest. induction s as [|c s IH]; intros t rest; cbn [tok_take]; [by intros [= <- <-]|].
  destruct (str_mem c delim) eqn:Hc; [intros [= <- <-]; split; [done|cbn; lia]|].
  destruct (tok_take delim s) as [t' rest'] eqn:E. intros [= <- <-]. destruct (IH _ _ eq_refl) as [Ht Hl].
  cbn [str_all String.length]. rewrite Hc. split; [done|lia].
Qed.

(** A token starts with what is not a delimiter, and is taken off the string. *)
Lemma strtok_inv delim s t rest : strtok_r s delim = Some (t, rest) ->
  no_delim delim t = true /\ t <> EmptyString /\ (String.length rest < String.length s)%nat.
Proof.
  unfold strtok_r. destruct (tok_skip_split delim s) as (pre & _ & Hs & Hh).
  destruct (tok_skip delim s) as [|c s'] eqn:E; [done|]. intros Ht%Some_inj.
  assert (String.length (String c s') <= String.length s)%nat as Hl by (rewrite Hs, length_append; lia).
  cbn [tok_take] in Ht. rewrite Hh in Ht. destruct (tok_take delim s') as [t' rest'] eqn:Et. injection Ht as <- <-.
  apply tok_take_split in Et as [Ht Hr]. cbn [str_all String.length] in *. rewrite Hh. split; [done|]. split; [done|lia].
Qed.

Lemma strtok_skip delim pre s : all_delim delim pre = true -> strtok_r (pre +s+ s) delim = strtok_r s delim.
Proof. intros Hp. unfold strtok_r. by rewrite tok_skip_app. Qed.

Lemma strtok_last delim t : t <> EmptyString -> no_delim delim t = true -> strtok_r t delim = Some (t, EmptyString).
Proof.
  intros Hn Ht. destruct t as [|c t]; [done|]. unfold strtok_r. pose proof Ht as Hc. cbn [str_all] in Hc.
  apply andb_true_iff in Hc as [Hc%negb_true_iff _]. rewrite tok_skip_none by done. by rewrite tok_take_all.
Qed.

(** The loop over the tokens has enough fuel: an error is one of the body. *)
Lemma strtok_loop_error {A} (body : A -> string -> res A) delim (P : Z -> Prop) fuel s acc e :
  (forall acc t e, body acc t = Err e -> P e) -> (String.length s <= fuel)%nat -> strtok_loop fuel delim body s acc = Err e -> P e.
Proof.
  intros Hb. revert s acc. induction fuel as [|fuel IH]; intros s acc Hl; cbn [strtok_loop];
    destruct (strtok_r s delim) as [[t rest]|] eqn:E; try done; apply strtok_inv in E as (_ & _ & Hr); [lia|].
  destruct (body acc t) as [acc'|e'] eqn:Eb; cbn [rbind]; [apply IH; lia|]. intros [= <-]. by eapply Hb.
Qed.

(** An invariant of the loop. *)
Lemma strtok_loop_inv {A} (body : A -> string -> res A) delim (P : A -> Prop) fuel s acc r :
  (forall acc t r, P acc -> body acc t = Ok r -> P r) -> P acc -> strtok_loop fuel delim body s acc = Ok r -> P r.
Proof.
  intros Hb. revert s acc. induction fuel as [|fuel IH]; intros s acc Hp; cbn [strtok_loop];
    destruct (strtok_r s delim) as [[t rest]|]; try done; try by intros <-%Ok_inj.
  destruct (body acc t) as [acc'|e'] eqn:Eb; cbn [rbind]; [|done]. apply IH. by eapply Hb.
Qed.

(** More fuel does not change the loop, once there is enough. *)
Lemma strtok_loop_fuel {A} (body : A -> string -> res A) delim f g s acc :
  (String.length s <= f)%nat -> (String.length s <= g)%nat -> strtok_loop f delim body s acc = strtok_loop g delim body s acc.
Proof.
  revert g s acc. induction f as [|f IH]; intros [|g] s acc Hf Hg; cbn [strtok_loop];
    destruct (strtok_r s delim) as [[t rest]|] eqn:E; try done; apply strtok_inv in E as (_ & _ & Hr); try lia.
  destruct (body acc t); cbn [rbind]; [apply IH; lia|done].
Qed.

Lemma strtok_each_nil {A} delim (body : A -> string -> res A) acc : strtok_each delim body EmptyString acc = Ok acc.
Proof. done. Qed.

Lemma strtok_each_token {A} delim (body : A -> string -> res A) s acc t rest : strtok_r s delim = Some (t, rest) ->
  strtok_each delim body s acc = (let! acc := body acc t in strtok_each delim body rest acc).
Proof.
  intros E. pose proof (strtok_inv _ _ _ _ E) as (_ & _ & Hl). unfold strtok_each.
  destruct (String.length s) as [|n] eqn:En; [lia|]. cbn [strtok_loop]. rewrite E.
  destruct (body acc t); cbn [rbind]; [|done]. apply strtok_loop_fuel; lia.
Qed.

(** * Plain text: what a component is written with *)

Definition plain_char (c : ascii) : bool := negb (isspace c || str_mem c elem_delim || Ascii.eqb c ",").

Definition plain (s : string) : bool := str_all plain_char s && first_is (fun _ => true) s.

Lemma rtrim_all s : str_all (fun c => negb (isspace c)) s = true -> bf_rtrim s = s.
Proof.
  intros Hs. unfold bf_rtrim. enough (rtrim_end s (String.length s) = String.length s) as -> by apply substring_all.
  assert (forall n c, String.get n s = Some c -> isspace c = false) as Hg.
  { induction s as [|c s IH]; intros [|n] d; cbn [String.get]; try done; cbn [str_all] in Hs; apply andb_true_iff in Hs as [Hc Hs].
    - intros [= <-]. by apply negb_true_iff.
    - by apply IH. }
  destruct (String.length s) as [|b]; [done|]. cbn [rtrim_end].
  destruct (String.get b s) as [c|] eqn:E; [|by rewrite andb_false_r]. by rewrite (Hg b c E), andb_false_r.
Qed.

Lemma ltrim_app pre s : str_all isspace pre = true -> bf_ltrim (pre +s+ s) = bf_ltrim s.
Proof.
  induction pre as [|c pre IH]; [done|]. cbn [str_all]. intros [Hc Hp]%andb_true_iff.
  change (String c pre +s+ s) with (String c (pre +s+ s)). cbn [bf_ltrim]. rewrite Hc. by apply IH.
Qed.

(** Spaces before a text that starts and ends with none are removed. *)
Lemma trim_text pre s : str_all isspace pre = true -> first_is (fun c => negb (isspace c)) s = true -> bf_rtrim s = s ->
  bf_trim (pre +s+ s) = s.
Proof.
  intros Hp Hs Hr. unfold bf_trim. rewrite ltrim_app by done. destruct s as [|c s]; [done|]. cbn in Hs.
  cbn [bf_ltrim]. by destruct (isspace c).
Qed.

Lemma trim_blank pre : str_all isspace pre = true -> bf_trim pre = EmptyString.
Proof. intros Hp. rewrite <- (append_nil pre). unfold bf_trim. by rewrite ltrim_app. Qed.

Lemma plain_no_space s : plain s = true -> str_all (fun c => negb (isspace c)) s = true.
Proof.
  intros [Hs _]%andb_true_iff. eapply str_all_impl; [|exact Hs]. intros c. unfold plain_char.
  by destruct (isspace c).
Qed.

Lemma plain_no_delim s : plain s = true -> no_delim elem_delim s = true.
Proof.
  intros [Hs _]%andb_true_iff. eapply str_all_impl; [|exact Hs]. intros c. unfold plain_char.
  by destruct (isspace c), (str_mem c elem_delim).
Qed.

Lemma plain_no_comma s : plain s = true -> no_delim "," s = true.
Proof.
  intros [Hs _]%andb_true_iff. eapply str_all_impl; [|exact Hs]. intros c. unfold plain_char. cbn [str_mem].
  by destruct (isspace c), (str_mem c elem_delim), (Ascii.eqb c ",").
Qed.

Lemma plain_trim pre s : str_all isspace pre = true -> plain s = true -> bf_trim (pre +s+ s) = s.
Proof.
  intros Hp Hs. pose proof (plain_no_space s Hs) as Hn. apply trim_text; [done| |by apply rtrim_all].
  apply andb_true_iff in Hs as [_ Hf]. destruct s as [|c s]; [done|]. cbn [str_all] in Hn. by apply andb_true_iff in Hn as [Hc _].
Qed.

Lemma addr_plain c : addr_char c = true -> plain_char c = true.
Proof.
  intros Hc. destruct c as [[] [] [] [] [] [] [] []]; vm_compute in Hc |- *; done.
Qed.

(** * Components *)

Section Spec.
Context `{Ifaces}.

(** The parsers of the matchers that a key can have. *)
Definition set_parser (p : matcher_parser) : bool :=
  match p with
  | PARSE_ipv4_addr | PARSE_ipv4_net | PARSE_l4_proto | PARSE_ipv6_addr | PARSE_ipv6_net | PARSE_l4_port
  | PARSE_icmp_type | PARSE_icmp_code | PARSE_icmpv6_type => true
  | _ => false
  end.

Lemma set_bytes_plain p : set_parser p && byte_parser p = true -> forall v, 0 <= v < 256 -> plain (print_with p [v]) = true.
Proof.
  intros Hp v Hv. assert (Forall (fun v => plain (print_with p [v]) = true) (seqZ 0 256)) as Hall.
  { destruct p; try done; apply Forall_true_bool; vm_compute; reflexivity. }
  rewrite Forall_forall in Hall. apply Hall, elem_of_seqZ. lia.
Qed.

Lemma fmt_u_plain z : 0 <= z -> plain (fmt_u z) = true.
Proof.
  intros Hz. unfold plain. apply andb_true_iff. split.
  - eapply str_all_impl; [apply addr_plain|]. apply number_addr_chars; lia.
  - destruct (fmt_u_head z Hz) as (c & s & -> & _). done.
Qed.

Lemma addr_text_plain s c t : str_all addr_char s = true -> s = String c t -> plain s = true.
Proof.
  intros Hs E. unfold plain. rewrite (str_all_impl addr_char plain_char s addr_plain Hs). by rewrite E.
Qed.

Lemma plain_app a b : plain a = true -> str_all plain_char b = true -> plain (a +s+ b) = true.
Proof.
  unfold plain. intros [Ha Hf]%andb_true_iff Hb. rewrite str_all_app, Ha, Hb. by destruct a.
Qed.

Lemma net_text_plain a z : plain a = true -> 0 <= z -> plain (a +s+ "/" +s+ fmt_u z) = true.
Proof.
  intros Ha Hz. apply plain_app; [done|]. rewrite str_all_app. apply andb_true_iff. split; [done|].
  pose proof (fmt_u_plain z Hz) as [Hf _]%andb_true_iff. exact Hf.
Qed.

Lemma print_plain p bs : set_parser p = true -> is_bytes bs -> (written p <= length bs)%nat -> plain (print_with p bs) = true.
Proof.
  intros Hp Hb Hl. destruct (byte_parser p) eqn:Eb.
  - assert (written p = 1%nat) as Ew by by destruct p. rewrite Ew in Hl. rewrite byte_parser_get by done.
    apply set_bytes_plain; [by rewrite Hp|]. pose proof (get_range 0 1 bs Hb) as Hg. change (256 ^ Z.of_nat 1) with 256 in Hg. lia.
  - destruct p; try done; cbn [written print_with] in *.
    + unfold _bf_print_l4_port. apply fmt_u_plain. pose proof (bswap16_range (get 0 2 bs)). lia.
    + destruct (ntop4_text (sub_bytes 0 4 bs)) as (Hc & _ & c & t & Ec & _); [by apply is_bytes_sub|by apply sub_length|].
      by eapply addr_text_plain.
    + destruct (ntop4_text (sub_bytes 4 4 bs)) as (Hc & _ & c & t & Ec & _); [by apply is_bytes_sub|by apply sub_length|].
      apply net_text_plain; [by eapply addr_text_plain|]. by apply get_range.
    + destruct (ntop6_text (sub_bytes 0 16 bs)) as (Hc & _ & c & t & Ec & _); [by apply is_bytes_sub|by apply sub_length|].
      by eapply addr_text_plain.
    + destruct (ntop6_text (sub_bytes 4 16 bs)) as (Hc & _ & c & t & Ec & _); [by apply is_bytes_sub|by apply sub_length|].
      apply net_text_plain; [by eapply addr_text_plain|]. by apply get_range.
Qed.

(** What the table of metas says of the types a key can have. *)
Lemma in_ops t ops : bf_matcher_get_ops t BF_MATCHER_IN = Some ops ->
  set_parser (ops_parse ops) = true /\ (written (ops_parse ops) <= Z.to_nat (ref_payload_size ops))%nat /\
  0 < ref_payload_size ops /\ comp_size t = ref_payload_size ops.
Proof. unfold comp_size. intros E. rewrite E. destruct t; try done; injection E as <-; (split; [done|split; [vm_compute; lia|split; [done|done]]]). Qed.

Lemma set_parser_printable p bs : set_parser p = true -> printable p bs.
Proof. by destruct p. Qed.

(** * Elements *)

Definition comp_parser (t : bf_matcher_type) : matcher_parser :=
  match bf_matcher_get_ops t BF_MATCHER_IN with Some ops => ops_parse ops | None => PARSE_iface end.

Definition comp_len (t : bf_matcher_type) : nat := Z.to_nat (comp_size t).

(** The components of an element are payloads. *)
Fixpoint elem_ok (key : list bf_matcher_type) (elem : list Z) : Prop :=
  match key with
  | [] => True
  | t :: key => payload_ok (comp_parser t) elem /\ elem_ok key (drop (comp_len t) elem)
  end.

(** An element that is read in the memory [mem]: what a parser does not write
    of its component stays what the memory held. *)
Fixpoint refill (key : list bf_matcher_type) (mem elem : list Z) : list Z :=
  match key with
  | [] => []
  | t :: key =>
      take (written (comp_parser t)) elem ++ drop (written (comp_parser t)) (take (comp_len t) mem) ++
      refill key (drop (comp_len t) mem) (drop (comp_len t) elem)
  end.

Abbreviation key_ops := (Forall (fun t => is_Some (bf_matcher_get_ops t BF_MATCHER_IN))).

Lemma comp_ops t : is_Some (bf_matcher_get_ops t BF_MATCHER_IN) -> exists ops,
  bf_matcher_get_ops t BF_MATCHER_IN = Some ops /\ comp_parser t = ops_parse ops /\ comp_len t = Z.to_nat (ref_payload_size ops) /\
  comp_size t = Z.of_nat (comp_len t) /\ comp_size t = ref_payload_size ops /\ set_parser (comp_parser t) = true /\
  (written (comp_parser t) <= comp_len t)%nat.
Proof.
  intros [ops E]. exists ops. destruct (in_ops t ops E) as (Hp & Hw & Hs & Hc). unfold comp_len, comp_parser. rewrite E, Hc.
  repeat split; try done; lia.
Qed.

Lemma print_comp_ok t payload : is_Some (bf_matcher_get_ops t BF_MATCHER_IN) -> (comp_len t <= length payload)%nat ->
  print_comp t payload = Ok (print_with (comp_parser t) payload, comp_len t).
Proof.
  intros Ht Hl. destruct (comp_ops t Ht) as (ops & Eo & Ep & El & _ & _ & _ & Hw). unfold print_comp.
  rewrite Eo, <- Ep, <- El. by rewrite (proj2 (Nat.leb_le _ _)) by lia.
Qed.

Lemma key_size_cons t key : key_size (t :: key) = comp_size t + key_size key.
Proof. done. Qed.

Lemma key_size_nonneg key : 0 <= key_size key.
Proof. induction key as [|t key IH]; [done|]. rewrite key_size_cons. pose proof (comp_size_range t). lia. Qed.

(** The length of what is left after a component. *)
Lemma left_length t key (l : list Z) : comp_size t = Z.of_nat (comp_len t) -> length l = Z.to_nat (key_size (t :: key)) ->
  (comp_len t <= length l)%nat /\ length (drop (comp_len t) l) = Z.to_nat (key_size key).
Proof.
  intros Hc Hl. rewrite key_size_cons in Hl. pose proof (key_size_nonneg key). rewrite length_drop. split; lia.
Qed.

Lemma parse_part_text set pre mem idx t sp elem :
  set_key set !! idx = Some t -> is_Some (bf_matcher_get_ops t BF_MATCHER_IN) ->
  is_bytes elem -> (comp_len t <= length elem)%nat -> (comp_len t <= length mem)%nat ->
  payload_ok (comp_parser t) elem -> str_all isspace sp = true ->
  parse_part set (mk_elem_state (pre ++ mem) (Z.of_nat (length pre)) idx) (sp +s+ print_with (comp_parser t) elem) =
  Ok (mk_elem_state ((pre ++ take (written (comp_parser t)) elem ++ drop (written (comp_parser t)) (take (comp_len t) mem)) ++ drop (comp_len t) mem)
        (Z.of_nat (length pre) + comp_size t) (S idx)).
Proof.
  intros Hk Ht Hb He Hm Hok Hsp. destruct (comp_ops t Ht) as (ops & Eo & Ep & El & Ec & Es & Hset & Hw).
  unfold parse_part. cbn [es_comp_idx es_offset es_elem]. rewrite Hk, Eo, Nat2Z.id, drop_app_length, take_app_length, <- Ep.
  rewrite plain_trim by (done || (apply print_plain; done || lia)).
  rewrite (payload_back (comp_parser t) elem) by (done || lia || by apply set_parser_printable). cbn [rbind].
  rewrite <- Es. do 2 f_equal. rewrite <- !app_assoc. do 2 f_equal.
  rewrite <- (take_drop (comp_len t) mem) at 1. rewrite drop_app_le; [done|]. rewrite length_take. lia.
Qed.

Lemma space_no_comma s : str_all isspace s = true -> no_delim "," s = true.
Proof.
  apply str_all_impl. intros c Hc. cbn [str_mem]. by destruct (Ascii.eqb_spec c ",") as [->|].
Qed.

Lemma parse_elem_text set key0 key pre mem elem text sp :
  set_key set = key0 ++ key -> key_ops key -> print_elem key elem = Ok text -> is_bytes elem ->
  length elem = Z.to_nat (key_size key) -> length mem = Z.to_nat (key_size key) -> elem_ok key elem ->
  str_all isspace sp = true -> (key = [] -> sp = EmptyString) ->
  strtok_each "," (parse_part set) (sp +s+ text) (mk_elem_state (pre ++ mem) (Z.of_nat (length pre)) (length key0)) =
  Ok (mk_elem_state (pre ++ refill key mem elem) (Z.of_nat (length pre) + key_size key) (length (set_key set))).
Proof.
  revert key0 pre mem elem text sp. induction key as [|t key IH]; intros key0 pre mem elem text sp Hk Ho Hp Hb He Hm Hok Hsp Hn.
  - rewrite (Hn eq_refl). apply Ok_inj in Hp as <-. assert (mem = []) as -> by (by apply nil_length_inv).
    rewrite Hk, !app_nil_r, Z.add_0_r. done.
  - apply Forall_cons in Ho as [Ht Ho]. destruct (comp_ops t Ht) as (ops & Eo & Ep & El & Ec & Es & Hset & Hw).
    destruct (left_length t key elem Ec He) as [He1 He2]. destruct (left_length t key mem Ec Hm) as [Hm1 Hm2].
    destruct Hok as [Hok1 Hok2]. cbn [print_elem] in Hp. rewrite print_comp_ok in Hp by done. cbn [rbind fst snd] in Hp.
    destruct (print_elem key (drop (comp_len t) elem)) as [text'|] eqn:Et; [|done].
    apply Ok_inj in Hp as <-. set (c := print_with (comp_parser t) elem) in *.
    assert (plain c = true) as Hc by (apply print_plain; [done|done|lia]).
    assert (sp +s+ c <> EmptyString) as Hne.
    { apply andb_true_iff in Hc as [_ Hf]. destruct sp; [|done]. by destruct c. }
    assert (no_delim "," (sp +s+ c) = true) as Hnd by (rewrite str_all_app; apply andb_true_iff; split; [by apply space_no_comma|by apply plain_no_comma]).
    assert (set_key set !! length key0 = Some t) as Hkt by (rewrite Hk; by apply list_lookup_middle).
    assert (set_key set = (key0 ++ [t]) ++ key) as Hk' by by rewrite Hk, <- app_assoc.
    pose proof (parse_part_text set pre mem (length key0) t sp elem Hkt Ht Hb He1 Hm1 Hok1 Hsp) as Hpart. fold c in Hpart.
    set (pre' := pre ++ take (written (comp_parser t)) elem ++ drop (written (comp_parser t)) (take (comp_len t) mem)) in *.
    assert (Z.of_nat (length pre) + comp_size t = Z.of_nat (length pre')) as Hlen.
    { subst pre'. rewrite !length_app, length_take, length_drop, length_take. lia. }
    rewrite Hlen in Hpart.
    assert (forall sp' , str_all isspace sp' = true -> (key = [] -> sp' = EmptyString) ->
      strtok_each "," (parse_part set) (sp' +s+ text') (mk_elem_state (pre' ++ drop (comp_len t) mem) (Z.of_nat (length pre')) (S (length key0))) =
      Ok (mk_elem_state (pre ++ refill (t :: key) mem elem) (Z.of_nat (length pre) + key_size (t :: key)) (length (set_key set)))) as Hrest.
    { intros sp' Hsp' Hn'. replace (S (length key0)) with (length (key0 ++ [t])) by (rewrite length_app; cbn; lia).
      rewrite (IH (key0 ++ [t]) pre' (drop (comp_len t) mem) (drop (comp_len t) elem) text' sp') by (done || by apply is_bytes_drop).
      rewrite key_size_cons, Z.add_assoc, Hlen. cbn [refill]. unfold pre'. by rewrite <- !app_assoc. }
    destruct key as [|t' key].
    + cbn [comma_after]. apply Ok_inj in Et as <-. rewrite !append_nil.
      rewrite (strtok_each_token _ _ _ _ (sp +s+ c) EmptyString) by by apply strtok_last.
      rewrite Hpart. cbn [rbind]. exact (Hrest EmptyString eq_refl (fun _ => eq_refl)).
    + cbn [comma_after]. rewrite <- !append_assoc. change (((sp +s+ c) +s+ ", ") +s+ text') with (((sp +s+ c) +s+ String "," " ") +s+ text').
      rewrite append_assoc. change (String "," " " +s+ text') with (String "," (" " +s+ text')).
      rewrite (strtok_each_token _ _ _ _ (sp +s+ c) (" " +s+ text')) by by apply strtok_token.
      rewrite Hpart. cbn [rbind]. by apply Hrest.
Qed.

(** ** The text of an element *)

Lemma get_append a b n : String.get (String.length a + n) (a +s+ b) = String.get n b.
Proof. induction a as [|c a IH]; [done|exact IH]. Qed.

Lemma rtrim_suffix a b : plain b = true -> bf_rtrim (a +s+ b) = a +s+ b.
Proof.
  intros Hb. pose proof (plain_no_space b Hb) as Hs. unfold bf_rtrim.
  enough (rtrim_end (a +s+ b) (String.length (a +s+ b)) = String.length (a +s+ b)) as -> by apply substring_all.
  apply andb_true_iff in Hb as [_ Hf]. assert (exists n, String.length b = S n) as [n Hn] by (destruct b; [done|by eexists]).
  rewrite length_append, Hn, Nat.add_succ_r. cbn [rtrim_end]. rewrite get_append.
  assert (match String.get n b with Some c => isspace c | None => false end = false) as ->; [|by rewrite andb_false_r].
  clear Hf Hn. revert n. induction b as [|c b IH]; intros [|n]; cbn [String.get]; try done;
    cbn [str_all] in Hs; apply andb_true_iff in Hs as [Hc%negb_true_iff Hs]; [done|by apply IH].
Qed.

Lemma print_elem_ok key elem : key_ops key -> length elem = Z.to_nat (key_size key) -> exists text, print_elem key elem = Ok text.
Proof.
  intros Ho. revert elem. induction Ho as [|t key Ht _ IH]; intros elem Hl; cbn [print_elem]; [by exists EmptyString|].
  destruct (comp_ops t Ht) as (ops & _ & _ & _ & Ec & _). destruct (left_length t key elem Ec Hl) as [Hl1 Hl2].
  rewrite print_comp_ok by done. cbn [rbind fst snd]. destruct (IH _ Hl2) as [text ->]. by eexists.
Qed.

Lemma print_each_ok {A} (print : A -> res string) l : Forall (fun a => exists text, print a = Ok text) l ->
  exists texts, print_each print l = Ok texts.
Proof.
  induction 1 as [|a l [text E] _ [texts IH]]; cbn [print_each]; [by exists EmptyString|].
  rewrite E. cbn [rbind]. rewrite IH. by eexists.
Qed.

Lemma print_lines_ok indent set : set_wf set ->
  exists texts, print_each (fun elem => let! text := print_elem (set_key set) elem in Ok (indent +s+ text +s+ nl)) (set_elems set) = Ok texts.
Proof.
  intros Hwf. apply print_each_ok. eapply Forall_impl; [apply (set_wf_elems _ Hwf)|]. intros elem Hl. cbn beta in Hl.
  destruct (print_elem_ok (set_key set) elem (set_wf_ops _ Hwf)) as [text ->]; [|by eexists].
  rewrite <- (set_wf_size _ Hwf), <- Hl. lia.
Qed.

(** It is a token between the delimiters of elements, and it starts and ends
    with what is not a space. *)
Lemma print_elem_text key elem text : key_ops key -> key <> [] -> is_bytes elem -> length elem = Z.to_nat (key_size key) ->
  print_elem key elem = Ok text ->
  no_delim elem_delim text = true /\ first_is (fun c => negb (isspace c)) text = true /\ exists a b, text = a +s+ b /\ plain b = true.
Proof.
  intros Ho. revert elem text. induction Ho as [|t key Ht Ho IH]; intros elem text Hn Hb Hl; [done|]. cbn [print_elem].
  destruct (comp_ops t Ht) as (ops & Eo & Ep & El & Ec & Es & Hset & Hw). destruct (left_length t key elem Ec Hl) as [Hl1 Hl2].
  rewrite print_comp_ok by done. cbn [rbind fst snd].
  assert (plain (print_with (comp_parser t) elem) = true) as Hc by (apply print_plain; [done|done|lia]).
  set (c := print_with (comp_parser t) elem) in *.
  assert (first_is (fun c => negb (isspace c)) c = true) as Hf.
  { pose proof (plain_no_space c Hc) as Hs. apply andb_true_iff in Hc as [_ Hf]. destruct c; [done|]. cbn in Hs |- *. by apply andb_true_iff in Hs as [? _]. }
  destruct (print_elem key (drop (comp_len t) elem)) as [text'|] eqn:Et; cbn [rbind]; [|done]. intros <-%Ok_inj.
  assert (forall x, first_is (fun c => negb (isspace c)) (c +s+ x) = true) as Hfx by (intros x; by destruct c).
  split; [|split; [apply Hfx|]].
  - rewrite !str_all_app. rewrite (plain_no_delim c Hc). cbn [andb]. destruct key as [|t' key]; [by apply Ok_inj in Et as <-|].
    destruct (IH _ _ ltac:(done) (is_bytes_drop _ _ Hb) Hl2 Et) as (-> & _). done.
  - destruct key as [|t' key].
    + apply Ok_inj in Et as <-. exists EmptyString, c. cbn [comma_after]. by rewrite !append_nil.
    + destruct (IH _ _ ltac:(done) (is_bytes_drop _ _ Hb) Hl2 Et) as (_ & _ & a & b & -> & Hp).
      exists (c +s+ ", " +s+ a), b. cbn [comma_after]. by rewrite !append_assoc.
Qed.

(** * Sets *)

Variable heap : nat -> nat -> Z.

(** An element of the key. *)
Definition elem_of_key (key : list bf_matcher_type) (elem : list Z) : Prop :=
  is_bytes elem /\ Z.of_nat (length elem) = key_size key /\ elem_ok key elem.

Lemma malloc_length n size : length (malloc heap n size) = Z.to_nat size.
Proof. unfold malloc. by rewrite length_fmap, length_seq. Qed.

(** The elements as they are read, the [n]th allocation being the first. *)
Fixpoint refilled (key : list bf_matcher_type) (n : nat) (elems : list (list Z)) : list (list Z) :=
  match elems with
  | [] => []
  | e :: elems => refill key (malloc heap n (key_size key)) e :: refilled key (S n) elems
  end.

Definition add_elems (set : bf_set) (elems : list (list Z)) : bf_set :=
  mk_set (set_name set) (set_key set) (set_elems set ++ elems) (set_elem_size set) (set_use_trie set).

(** What the elements of a set are read with. *)
Record readable (set : bf_set) : Prop := mk_readable {
  readable_ops : key_ops (set_key set);
  readable_key : set_key set <> [];
  readable_size : set_elem_size set = key_size (set_key set)
}.

Lemma parse_elem_ok set elem text : readable set -> elem_of_key (set_key set) elem -> print_elem (set_key set) elem = Ok text ->
  _bf_set_parse_elem heap set text =
  Ok (with_elem set (refill (set_key set) (malloc heap (length (set_elems set)) (key_size (set_key set))) elem)).
Proof.
  intros [Ho Hn Hs] (Hb & Hl & Hok) Hp. unfold _bf_set_parse_elem. rewrite Hs.
  pose proof (parse_elem_text set [] (set_key set) [] (malloc heap (length (set_elems set)) (key_size (set_key set))) elem text EmptyString) as Ht.
  cbn [app length] in Ht. change (EmptyString +s+ text) with text in Ht. change (Z.of_nat 0) with 0 in Ht.
  rewrite Ht by (done || lia || apply malloc_length). cbn [rbind es_comp_idx es_elem]. by rewrite Nat.eqb_refl.
Qed.

(** Blanks between elements. *)
Definition indentation (s : string) : bool := str_all (fun c => isspace c && negb (str_mem c elem_delim)) s.

Lemma indentation_space s : indentation s = true -> str_all isspace s = true /\ no_delim elem_delim s = true.
Proof. intros Hs. split; (eapply str_all_impl; [|exact Hs]); by intros c [? ?]%andb_true_iff. Qed.

(** The last line. *)
Lemma parse_close fuel close set : indentation close = true -> (0 < fuel)%nat -> parse_elems heap fuel false (close +s+ "}") set = Ok set.
Proof.
  intros [Hs Hd]%indentation_space Hf. destruct fuel as [|fuel]; [lia|]. destruct close as [|c close]; [done|].
  cbn [parse_elems]. change "}"%string with (String "}" EmptyString). rewrite strtok_token by done.
  rewrite trim_blank by done. cbn [first_is negb]. by destruct fuel.
Qed.

Abbreviation print_line indent set := (fun elem => let! text := print_elem (set_key set) elem in Ok (indent +s+ text +s+ nl)).

Lemma parse_lines indent close fuel tmp set elems texts : readable set -> indentation indent = true -> indentation close = true ->
  Forall (elem_of_key (set_key set)) elems -> print_each (print_line indent set) elems = Ok texts ->
  (elems = [] -> tmp = false) -> (String.length (texts +s+ close +s+ "}") <= fuel)%nat ->
  parse_elems heap fuel tmp (texts +s+ close +s+ "}") set = Ok (add_elems set (refilled (set_key set) (length (set_elems set)) elems)).
Proof.
  intros Hr Hi Hc He. revert fuel tmp set texts Hr He. induction elems as [|e elems IH]; intros fuel tmp set texts Hr He Hp Ht Hf.
  - rewrite (Ht eq_refl). apply Ok_inj in Hp as <-. change (EmptyString +s+ close +s+ "}") with (close +s+ "}") in *.
    rewrite parse_close; [|done|rewrite length_append in Hf; cbn in Hf; lia].
    unfold add_elems. cbn [refilled]. rewrite app_nil_r. by destruct set.
  - apply Forall_cons in He as [He Hes]. pose proof Hr as [Ho Hn Hs]. pose proof He as (Hb & Hl & Hok). cbn [print_each] in Hp.
    destruct (print_elem_ok (set_key set) e Ho ltac:(lia)) as [text Et]. rewrite Et in Hp. cbn [rbind] in Hp.
    destruct (print_each _ elems) as [texts'|] eqn:Ets; cbn [rbind] in Hp; [|done]. apply Ok_inj in Hp as <-.
    destruct (print_elem_text _ _ _ Ho Hn Hb ltac:(lia) Et) as (Hd & Hfirst & a & b & Eab & Hplain).
    destruct (indentation_space _ Hi) as [Hsp Hid].
    assert (((indent +s+ text +s+ nl) +s+ texts') +s+ close +s+ "}" = (indent +s+ text) +s+ String "010" (texts' +s+ close +s+ "}")) as E
      by (by rewrite !append_assoc).
    rewrite E in Hf |- *. rewrite length_append in Hf. cbn [String.length] in Hf.
    destruct fuel as [|fuel]; [lia|]. cbn [parse_elems].
    rewrite strtok_token; [|by destruct indent; [destruct text|]|by rewrite str_all_app, Hid, Hd|done].
    rewrite trim_text by (done || (rewrite Eab; by apply rtrim_suffix)).
    assert (first_is (fun _ => true) text = true) as -> by (by destruct text). cbn [negb].
    rewrite (parse_elem_ok set e text Hr He Et). cbn [rbind]. fold (add_elems set [refill (set_key set) (malloc heap (length (set_elems set)) (key_size (set_key set))) e]).
    change (with_elem set) with (fun x => add_elems set [x]). cbv beta.
    set (set' := add_elems set _). assert (readable set') as Hr' by by constructor.
    rewrite (IH fuel false set' texts' Hr') by (done || lia). subst set'. unfold add_elems. cbn [set_elems set_key refilled].
    rewrite length_app, Nat.add_1_r, <- app_assoc. done.
Qed.

(** ** Keys *)

Definition name_ok (t : bf_matcher_type) : bool :=
  let name := bf_matcher_type_to_str t in
  no_delim "()," name && plain name && match bf_matcher_type_from_str name with Ok t' => bool_decide (t = t') | Err _ => false end.

Lemma in_name_ok t : is_Some (bf_matcher_get_ops t BF_MATCHER_IN) -> name_ok t = true.
Proof. destruct t; intros [? E]; try done. Qed.

Lemma parse_key_text key0 key sp : (length key0 + length key <= BF_SET_MAX_N_COMPS)%nat -> key_ops key ->
  str_all isspace sp = true -> (key = [] -> sp = EmptyString) ->
  strtok_each "()," parse_comp (sp +s+ print_key key +s+ ")") key0 = Ok (key0 ++ key).
Proof.
  revert key0 sp. induction key as [|t key IH]; intros key0 sp Hl Ho Hsp Hn.
  - rewrite (Hn eq_refl), app_nil_r. done.
  - apply Forall_cons in Ho as [Ht Ho]. pose proof (in_name_ok t Ht) as [[Hd Hp]%andb_true_iff Hf]%andb_true_iff.
    cbn [length] in Hl. cbn [print_key]. set (c := bf_matcher_type_to_str t) in *.
    assert (bf_matcher_type_from_str c = Ok t) as Ec.
    { destruct (bf_matcher_type_from_str c); [|done]. by apply bool_decide_eq_true in Hf as ->. }
    assert (forall acc, length acc = length key0 -> parse_comp acc (sp +s+ c) = Ok (acc ++ [t])) as Hc.
    { intros acc Ha. unfold parse_comp. rewrite (proj2 (Nat.eqb_neq _ _)) by lia. rewrite plain_trim by done. by rewrite Ec. }
    assert (no_delim "()," (sp +s+ c) = true) as Hnd.
    { rewrite str_all_app, Hd, andb_true_r. eapply str_all_impl; [|exact Hsp]. intros x Hx. cbn [str_mem].
      destruct (Ascii.eqb_spec x "(") as [->|]; [done|]. destruct (Ascii.eqb_spec x ")") as [->|]; [done|]. by destruct (Ascii.eqb_spec x ",") as [->|]. }
    assert (sp +s+ c <> EmptyString) as Hne by (apply andb_true_iff in Hp as [_ Hp]; destruct sp; [by destruct c|done]).
    assert (length (key0 ++ [t]) + length key <= BF_SET_MAX_N_COMPS)%nat as Hl' by (rewrite length_app; cbn [length]; lia).
    rewrite <- !append_assoc. destruct key as [|t' key]; cbn [comma_after].
    + cbn [print_key]. rewrite !append_nil. change ")"%string with (String ")" EmptyString).
      rewrite (strtok_each_token _ _ _ _ (sp +s+ c) EmptyString) by by apply strtok_token. by rewrite Hc.
    + rewrite !append_assoc. rewrite <- (append_assoc sp c). change (", " +s+ print_key (t' :: key) +s+ ")") with (String "," (" " +s+ print_key (t' :: key) +s+ ")")).
      rewrite (strtok_each_token _ _ _ _ (sp +s+ c) (" " +s+ print_key (t' :: key) +s+ ")")) by by apply strtok_token.
      rewrite Hc by done. cbn [rbind]. rewrite IH by done. by rewrite <- app_assoc.
Qed.

Lemma parse_key_back key : key <> [] -> (length key <= BF_SET_MAX_N_COMPS)%nat -> key_ops key ->
  _bf_set_parse_key ("(" +s+ print_key key +s+ ")") = Ok key.
Proof.
  intros Hn Hl Ho. unfold _bf_set_parse_key.
  assert (strtok_each "()," parse_comp ("(" +s+ print_key key +s+ ")") [] = Ok key) as ->; [|cbn [rbind]; by destruct key].
  pose proof (parse_key_text [] key EmptyString Hl Ho eq_refl (fun _ => eq_refl)) as Hk.
  change (EmptyString +s+ print_key key +s+ ")") with (print_key key +s+ ")") in Hk.
  set (s := print_key key +s+ ")") in *. change ("(" +s+ s) with (String "(" s).
  assert (strtok_r (String "(" s) "()," = strtok_r s "(),") as Es by done.
  destruct (strtok_r s "(),") as [[t rest]|] eqn:E.
  - rewrite (strtok_each_token _ _ _ _ t rest) by done. by rewrite (strtok_each_token _ _ _ _ t rest) in Hk.
  - unfold strtok_each in *. destruct (String.length s); cbn [strtok_loop String.length] in *; rewrite ?Es, ?E in *; done.
Qed.

Lemma set_new_comps_ok key es mask : key_ops key -> exists mask', set_new_comps key es mask = Ok (es + key_size key, mask').
Proof.
  intros Ho. revert es mask. induction Ho as [|t key Ht _ IH]; intros es mask; cbn [set_new_comps].
  - exists mask. cbn. by rewrite Z.add_0_r.
  - destruct (comp_ops t Ht) as (ops & -> & _ & _ & _ & Es & _). destruct (IH (es + ref_payload_size ops) (Z.lor mask (type_flag t))) as [mask' ->].
    exists mask'. rewrite key_size_cons, Es. by rewrite Z.add_assoc.
Qed.

(** A set that is well formed can be made again, without its elements. *)
Lemma set_new_same set : set_wf set ->
  bf_set_new (set_name set) (set_key set) = Ok (mk_set (set_name set) (set_key set) [] (set_elem_size set) (set_use_trie set)).
Proof.
  intros [[Hl1 Hl2] Ho Hs Hnet Htrie _]. unfold bf_set_new.
  rewrite (proj2 (Nat.eqb_neq (length (set_key set)) 0)) by lia. rewrite (proj2 (Nat.ltb_ge BF_SET_MAX_N_COMPS _)) by lia.
  destruct (set_new_comps_ok (set_key set) 0 0 Ho) as [mask Em]. rewrite Em. cbn [rbind]. rewrite Z.add_0_l in Em |- *.
  apply set_new_comps_spec in Em as (_ & _ & ->). rewrite Z.lor_0_l, net_mask_spec by done.
  rewrite <- Htrie, <- Hs. destruct (Nat.ltb_spec 1 (length (set_key set))) as [H1|H1].
  - assert (set_use_trie set = false) as ->; [|cbn [andb]; by rewrite andb_false_r].
    rewrite Htrie. apply not_true_iff_false. intros (t & Hin & Ht)%existsb_exists. apply list_elem_of_In in Hin.
    pose proof (proj1 (Forall_forall _ _) (Hnet H1) t Hin). congruence.
  - cbn [andb]. by replace (length (set_key set) =? 1)%nat with true by (symmetry; apply Nat.eqb_eq; lia).
Qed.

(** ** The round trip *)

Lemma wf_readable set : set_wf set -> readable set.
Proof. intros []. constructor; [done| |done]. by destruct (set_key set); [cbn in *; lia|]. Qed.

Lemma set_read_back set indent close raw : set_wf set -> Forall (elem_of_key (set_key set)) (set_elems set) -> set_elems set <> [] ->
  indentation indent = true -> indentation close = true -> print_elems indent close set = Ok raw ->
  bf_set_new_from_raw heap (set_name set) ("(" +s+ print_key (set_key set) +s+ ")") raw =
  Ok (mk_set (set_name set) (set_key set) (refilled (set_key set) 0 (set_elems set)) (set_elem_size set) (set_use_trie set)).
Proof.
  intros Hwf He Hn Hi Hc Hp. pose proof (wf_readable set Hwf) as Hr. pose proof Hr as [Ho Hk Hs].
  unfold bf_set_new_from_raw. rewrite parse_key_back by (done || by destruct Hwf; lia). cbn [rbind].
  rewrite set_new_same by done. cbn [rbind].
  set (set0 := mk_set (set_name set) (set_key set) [] (set_elem_size set) (set_use_trie set)).
  assert (readable set0) as Hr0 by by constructor. unfold print_elems in Hp.
  destruct (print_each _ (set_elems set)) as [texts|] eqn:Et; cbn [rbind] in Hp; [|done]. apply Ok_inj in Hp as <-.
  change ("{" +s+ nl +s+ texts +s+ close +s+ "}") with (("{" +s+ nl) +s+ texts +s+ close +s+ "}").
  set (body := texts +s+ close +s+ "}"). assert (strtok_r (("{" +s+ nl) +s+ body) elem_delim = strtok_r body elem_delim) as Eb by by apply strtok_skip.
  assert (parse_elems heap (String.length (("{" +s+ nl) +s+ body)) true body set0 =
    Ok (add_elems set0 (refilled (set_key set) 0 (set_elems set)))) as Hbody.
  { apply (parse_lines indent close _ true set0); try done. subst body. rewrite (length_append ("{" +s+ nl)). lia. }
  assert (exists t rest, strtok_r body elem_delim = Some (t, rest) /\ first_is (fun _ => true) (bf_trim t) = true) as (t & rest & Es & Hb).
  { destruct (set_elems set) as [|e elems]; [done|]. apply Forall_cons in He as [(Hbe & Hle & _) _]. cbn [print_each] in Et.
    destruct (print_elem_ok (set_key set) e Ho ltac:(lia)) as [text Ee]. rewrite Ee in Et. cbn [rbind] in Et.
    destruct (print_each _ elems) as [texts'|]; cbn [rbind] in Et; [|done]. apply Ok_inj in Et as <-.
    destruct (print_elem_text _ _ _ Ho Hk Hbe ltac:(lia) Ee) as (Hd & Hfirst & a & b & Eab & Hplain).
    destruct (indentation_space _ Hi) as [Hsp Hid]. exists (indent +s+ text), (texts' +s+ close +s+ "}"). split.
    - unfold body. rewrite !append_assoc. change (nl +s+ texts' +s+ close +s+ "}") with (String "010" (texts' +s+ close +s+ "}")).
      rewrite <- append_assoc. apply strtok_token; [by destruct indent; [destruct text|]|by rewrite str_all_app, Hid, Hd|done].
    - rewrite trim_text by (done || (rewrite Eab; by apply rtrim_suffix)). by destruct text. }
  destruct (String.length (("{" +s+ nl) +s+ body)) as [|f] eqn:Ef; [done|]. cbn [parse_elems] in Hbody |- *.
  rewrite Eb, Es in *. by rewrite Hb in *.
Qed.

(** * What is read is a set *)

Lemma get_take o n w (a : list Z) : (o + n <= w)%nat -> get o n (take w a) = get o n a.
Proof. intros Hl. unfold get, sub_bytes. f_equal. rewrite skipn_firstn_comm, take_take. f_equal. lia. Qed.

Lemma payload_ok_prefix p a b : take (written p) a = take (written p) b -> payload_ok p a -> payload_ok p b.
Proof.
  intros E. assert (forall o n, (o + n <= written p)%nat -> get o n a = get o n b) as Hg
    by (intros o n Hl; by rewrite <- (get_take o n _ a Hl), <- (get_take o n _ b Hl), E).
  destruct p; cbn [payload_ok written] in *; try done; by rewrite !Hg by lia.
Qed.

Definition key_len (key : list bf_matcher_type) : nat := Z.to_nat (key_size key).

Lemma key_len_cons t key : is_Some (bf_matcher_get_ops t BF_MATCHER_IN) -> key_len (t :: key) = (comp_len t + key_len key)%nat.
Proof.
  intros Ht. destruct (comp_ops t Ht) as (_ & _ & _ & _ & Ec & _). unfold key_len. rewrite key_size_cons.
  pose proof (key_size_nonneg key). lia.
Qed.

Lemma elem_ok_prefix key a b : key_ops key -> take (key_len key) a = take (key_len key) b -> elem_ok key a -> elem_ok key b.
Proof.
  intros Ho. revert a b. induction Ho as [|t key Ht Ho IH]; intros a b E; [done|]. rewrite key_len_cons in E by done.
  destruct (comp_ops t Ht) as (ops & _ & _ & _ & _ & _ & _ & Hw). intros [H1 H2]. split.
  - revert H1. apply payload_ok_prefix. apply (f_equal (take (written (comp_parser t)))) in E. rewrite !take_take in E.
    by rewrite Nat.min_l in E by lia.
  - revert H2. apply IH. apply (f_equal (drop (comp_len t))) in E. rewrite !skipn_firstn_comm in E.
    by replace (comp_len t + key_len key - comp_len t)%nat with (key_len key) in E by lia.
Qed.

Lemma key_len_app k1 k2 : key_len (k1 ++ k2) = (key_len k1 + key_len k2)%nat.
Proof.
  unfold key_len. assert (key_size (k1 ++ k2) = key_size k1 + key_size k2) as ->.
  { induction k1 as [|t k1 IH]; [done|]. cbn [app]. rewrite !key_size_cons. lia. }
  pose proof (key_size_nonneg k1). pose proof (key_size_nonneg k2). lia.
Qed.

Lemma elem_ok_app k1 k2 e : key_ops k1 -> elem_ok k1 e -> elem_ok k2 (drop (key_len k1) e) -> elem_ok (k1 ++ k2) e.
Proof.
  intros Ho. revert e. induction Ho as [|t k1 Ht Ho IH]; intros e; [done|]. cbn [app elem_ok]. intros [H1 H2] H3. split; [done|].
  apply IH; [done|]. rewrite drop_drop. by rewrite key_len_cons in H3.
Qed.

(** The components read so far. *)
Record part_ok (key : list bf_matcher_type) (st : elem_state) : Prop := mk_part_ok {
  part_bytes : is_bytes (es_elem st);
  part_length : length (es_elem st) = key_len key;
  part_idx : (es_comp_idx st <= length key)%nat;
  part_offset : es_offset st = key_size (take (es_comp_idx st) key);
  part_elem : elem_ok (take (es_comp_idx st) key) (es_elem st)
}.

Lemma parse_part_ok set st token st' : key_ops (set_key set) -> part_ok (set_key set) st -> parse_part set st token = Ok st' ->
  part_ok (set_key set) st'.
Proof.
  intros Ho [Hb Hl Hi Hoff He]. unfold parse_part. destruct (set_key set !! es_comp_idx st) as [t|] eqn:Et; [|done].
  assert (is_Some (bf_matcher_get_ops t BF_MATCHER_IN)) as Ht by by eapply (Forall_lookup_1 _ _ _ _ Ho).
  destruct (comp_ops t Ht) as (ops & Eo & Ep & El & Ec & Es & Hset & Hw). rewrite Eo, <- Ep, <- Es.
  pose proof (take_S_r _ _ _ Et) as Etake. set (done_ := take (es_comp_idx st) (set_key set)) in *.
  assert (Z.to_nat (es_offset st) = key_len done_) as -> by by rewrite Hoff.
  assert (key_ops done_) as Hod by by apply Forall_take.
  assert (key_len (set_key set) = key_len done_ + comp_len t + key_len (drop (S (es_comp_idx st)) (set_key set)))%nat as Hkl.
  { rewrite <- (take_drop (S (es_comp_idx st)) (set_key set)) at 1. rewrite key_len_app, Etake, key_len_app.
    rewrite (key_len_cons t []) by done. change (key_len []) with 0%nat. lia. }
  destruct (parse_with _ _ _) as [part|] eqn:Eq; cbn [rbind]; [|done]. intros <-%Ok_inj.
  apply parsed_fills in Eq as (Hpl & Hpb & Hpok & _); [|by apply is_bytes_drop|rewrite length_drop; lia].
  rewrite length_drop in Hpl. assert (length (take (key_len done_) (es_elem st)) = key_len done_) as Htl by (rewrite length_take; lia).
  constructor; cbn [es_elem es_comp_idx es_offset].
  - apply Forall_app; split; [by apply is_bytes_take|done].
  - rewrite length_app. lia.
  - by apply lookup_lt_Some in Et.
  - rewrite Etake, Hoff. clear. induction done_ as [|x l IH]; cbn [app]; rewrite ?key_size_cons in *; cbn [key_size foldr] in *; lia.
  - rewrite Etake. apply elem_ok_app; [done| |].
    + revert He. apply elem_ok_prefix; [done|]. rewrite take_app_le by lia. by rewrite take_take, Nat.min_id.
    + rewrite drop_app_le, drop_ge by lia. cbn [app]. by split.
Qed.

Context (Hheap : forall n i, is_byte (heap n i)).

Lemma malloc_bytes n size : is_bytes (malloc heap n size).
Proof using Hheap. apply Forall_fmap, Forall_forall. intros i _. apply Hheap. Qed.

(** A set whose elements are of its key. *)
Definition set_ok (set : bf_set) : Prop := set_wf set /\ Forall (elem_of_key (set_key set)) (set_elems set).

Lemma parse_elem_wf set text set' : set_ok set -> _bf_set_parse_elem heap set text = Ok set' ->
  set_ok set' /\ set_key set' = set_key set /\ set_name set' = set_name set.
Proof using Hheap.
  intros [Hwf He]. pose proof (wf_readable set Hwf) as [Ho Hn Hs]. unfold _bf_set_parse_elem.
  destruct (strtok_each _ _ _ _) as [st|] eqn:E; cbn [rbind]; [|done].
  apply (strtok_loop_inv _ _ (part_ok (set_key set))) in E.
  - destruct E as [Hb Hl Hi Hoff Hok]. destruct (Nat.eqb_spec (es_comp_idx st) (length (set_key set))) as [El|]; cbn [negb]; [|done].
    intros <-%Ok_inj. split; [|done]. rewrite El, firstn_all in Hok.
    assert (elem_of_key (set_key set) (es_elem st)) as Hel.
    { split; [done|]. split; [|done]. rewrite Hl. unfold key_len. pose proof (key_size_nonneg (set_key set)). lia. }
    split; cbn [with_elem set_key set_elems].
    + destruct Hwf. constructor; cbn [with_elem set_key set_elems set_elem_size set_use_trie]; try done.
      apply Forall_app; split; [done|]. constructor; [|done]. rewrite Hs. by destruct Hel as (_ & ? & _).
    + apply Forall_app; split; [done|]. by constructor.
  - intros acc t r. by apply parse_part_ok.
  - constructor; cbn [es_elem es_comp_idx es_offset]; [apply malloc_bytes|by rewrite malloc_length, Hs|lia|done|done].
Qed.

Lemma parse_elems_wf fuel tmp s set set' : set_ok set -> parse_elems heap fuel tmp s set = Ok set' ->
  set_ok set' /\ set_key set' = set_key set /\ set_name set' = set_name set.
Proof using Hheap.
  revert tmp s set. induction fuel as [|fuel IH]; intros tmp s set Hok; cbn [parse_elems];
    destruct (strtok_r s elem_delim) as [[t rest]|]; try done; try by intros <-%Ok_inj.
  destruct (negb _); [by apply IH|]. destruct (_bf_set_parse_elem heap set (bf_trim t)) as [set1|] eqn:E; cbn [rbind]; [|done].
  apply parse_elem_wf in E as (Hok1 & Hk & Hnm); [|done]. intros Hp. apply IH in Hp as (? & ? & ?); [|done].
  split; [done|]. split; congruence.
Qed.

Lemma new_from_raw_wf name raw_key raw_payload set : bf_set_new_from_raw heap name raw_key raw_payload = Ok set ->
  set_ok set /\ set_name set = name /\ _bf_set_parse_key raw_key = Ok (set_key set).
Proof using Hheap.
  unfold bf_set_new_from_raw. destruct (_bf_set_parse_key raw_key) as [key|]; cbn [rbind]; [|done].
  destruct (bf_set_new name key) as [set0|] eqn:E; cbn [rbind]; [|done]. apply bf_set_new_wf in E as (Hwf & Hn & Hk & He).
  intros Hp. apply parse_elems_wf in Hp as (Hok & Hk' & Hn'); [|split; [done|by rewrite He]].
  split; [done|]. split; congruence.
Qed.

(** * When reading ends *)

(** The first token of the text, when there is one, is blank. *)
Definition blank_first (s : string) : bool :=
  match strtok_r s elem_delim with
  | Some (token, _) => negb (first_is (fun _ => true) (bf_trim token))
  | None => false
  end.

(** The errors of a parser. *)
Lemma parse_with_error p memory raw e : parse_with p memory raw = Err e -> e = - EINVAL.
Proof.
  assert (forall base max n x, (x = Err e -> e = - EINVAL) -> parse_number base max n memory raw x = Err e -> e = - EINVAL) as Hn.
  { intros base max n x Hx. unfold parse_number. by destruct (_ && _). }
  assert (Err (- EINVAL) = @Err (list Z) e -> e = - EINVAL) as He by by intros [= <-].
  assert (parse_type_number memory raw = Err e -> e = - EINVAL) as Ht by by apply Hn, Hn.
  assert (forall pton max buf, parse_net pton max buf memory = Err e -> e = - EINVAL) as Hnet.
  { intros pton max buf. unfold parse_net. destruct (strtok_r buf "/") as [[a b]|]; [|done]. destruct (negb _); [done|].
    destruct (pton a); [|done]. by destruct (_ || _). }
  destruct p; cbn [parse_with];
    unfold _bf_parse_iface, _bf_parse_l3_proto, _bf_parse_l4_proto, _bf_parse_l4_port, _bf_parse_l4_port_range, _bf_parse_probability,
      _bf_parse_mark, _bf_parse_ipv4_addr, _bf_parse_ipv4_net, _bf_parse_ipv6_addr, _bf_parse_ipv6_net, _bf_parse_tcp_flags,
      _bf_parse_icmp_type, _bf_parse_icmp_code, _bf_parse_icmpv6_type; repeat case_match; try done; by eauto.
Qed.

Lemma parse_elem_error set text e : _bf_set_parse_elem heap set text = Err e -> e = - EINVAL.
Proof.
  unfold _bf_set_parse_elem. destruct (strtok_each _ _ _ _) as [st|e'] eqn:E; cbn [rbind]; [by destruct (negb _); intros [= <-]|].
  intros [= <-]. revert E. apply (strtok_loop_error _ _ (fun e => e = - EINVAL)); [|done]. intros acc t e. unfold parse_part.
  destruct (_ !! _) as [type|]; [|by intros [= <-]]. destruct (bf_matcher_get_ops type BF_MATCHER_IN) as [ops|]; [|by intros [= <-]].
  destruct (parse_with _ _ _) eqn:Ep; cbn [rbind]; [done|]. intros [= <-]. by eapply parse_with_error.
Qed.

(** After the first token that is not blank, the loop ends. *)
Lemma parse_elems_end fuel s set e : (String.length s <= fuel)%nat -> parse_elems heap fuel false s set = Err e -> e = - EINVAL.
Proof.
  revert s set. induction fuel as [|fuel IH]; intros s set Hl; cbn [parse_elems];
    destruct (strtok_r s elem_delim) as [[t rest]|] eqn:E; try done; apply strtok_inv in E as (_ & _ & Hr); [lia|].
  destruct (negb _); [apply IH; lia|]. destruct (_bf_set_parse_elem heap set (bf_trim t)) as [set1|e'] eqn:Ep; cbn [rbind].
  - apply IH. lia.
  - intros [= <-]. by eapply parse_elem_error.
Qed.

(** The buffer that is cut has the same first token, for ever. *)
Lemma cut_token s t rest : strtok_r s elem_delim = Some (t, rest) -> strtok_r (cut s t) elem_delim = Some (t, EmptyString).
Proof.
  intros E. pose proof (strtok_inv _ _ _ _ E) as (Hd & Hn & _). destruct (tok_skip_split elem_delim s) as (pre & Hp & Hs & _).
  unfold cut. set (u := tok_skip elem_delim s) in *.
  assert (String.substring 0 (String.length s - String.length u) s = pre) as ->.
  { rewrite Hs at 1 2. rewrite length_append, Nat.add_sub. clear. induction pre as [|c pre IH]; [cbn; by destruct u|].
    change (String c pre +s+ u) with (String c (pre +s+ u)). cbn [String.length String.substring]. by rewrite IH. }
  rewrite strtok_skip by done. by apply strtok_last.
Qed.

Lemma blank_first_loops fuel s set : blank_first s = true -> parse_elems heap fuel true s set = Err (- BF_CRASH).
Proof.
  revert s. induction fuel as [|fuel IH]; intros s; unfold blank_first; cbn [parse_elems];
    destruct (strtok_r s elem_delim) as [[t rest]|] eqn:E; try done. intros Hb. rewrite Hb. apply IH.
  unfold blank_first. by rewrite (cut_token _ _ _ E).
Qed.

Lemma not_blank_ends fuel s set e : blank_first s = false -> (String.length s <= fuel)%nat ->
  parse_elems heap fuel true s set = Err e -> e = - EINVAL.
Proof.
  unfold blank_first. intros Hb Hl. destruct fuel as [|fuel]; cbn [parse_elems];
    destruct (strtok_r s elem_delim) as [[t rest]|] eqn:E; try done; pose proof (strtok_inv _ _ _ _ E) as (_ & _ & Hr); [lia|].
  rewrite Hb. destruct (_bf_set_parse_elem heap set (bf_trim t)) as [set1|e'] eqn:Ep; cbn [rbind].
  - apply parse_elems_end. lia.
  - intros [= <-]. by eapply parse_elem_error.
Qed.

Lemma parse_key_error raw_key e : _bf_set_parse_key raw_key = Err e -> e <> - BF_CRASH.
Proof.
  unfold _bf_set_parse_key. destruct (strtok_each _ _ _ _) as [key|e'] eqn:E; cbn [rbind]; [by destruct key; intros [= <-]|].
  intros [= <-]. revert E. apply (strtok_loop_error _ _ (fun e => e <> - BF_CRASH)); [|done]. intros acc t e. unfold parse_comp.
  destruct (_ =? _)%nat; [by intros [= <-]|]. unfold bf_matcher_type_from_str.
  destruct (table_find _ _ _ _); cbn [of_option rbind]; [done|]. by intros [= <-].
Qed.

Lemma set_new_error name key e : bf_set_new name key = Err e -> e <> - BF_CRASH.
Proof.
  unfold bf_set_new. destruct (_ =? _)%nat; [by intros [= <-]|]. destruct (_ <? _)%nat; [by intros [= <-]|].
  destruct (set_new_comps key 0 0) as [[es mask]|e'] eqn:E; cbn [rbind]; [by destruct (_ && _); intros [= <-]|].
  intros [= <-]. revert E. generalize 0 at 1 as es. generalize 0 as mask. induction key as [|t key IH]; intros mask es; cbn [set_new_comps]; [done|].
  destruct (bf_matcher_get_ops t BF_MATCHER_IN); [apply IH|]. by intros [= <-].
Qed.
End Spec.

(** * Matchers *)

(** What the payload of a matcher is, for its text to be read back: bytes, of
    the size of its operator, that a parser can make; an interface is printed
    by its name, or has no name. *)
Record matcher_text_ok `{Ifaces} (m : bf_matcher) (ops : bf_matcher_ops) : Prop := mk_matcher_text_ok {
  mt_ops : bf_matcher_get_ops (matcher_type m) (matcher_op m) = Some ops;
  mt_bytes : is_bytes (matcher_payload m);
  mt_size : Z.of_nat (length (matcher_payload m)) = ref_payload_size ops;
  mt_payload : payload_ok (ops_parse ops) (matcher_payload m);
  mt_printable : printable (ops_parse ops) (matcher_payload m)
}.

(** What a parser writes fits every payload it is used for. *)
Lemma written_fits t op ops : bf_matcher_get_ops t op = Some ops -> (written (ops_parse ops) <= Z.to_nat (ref_payload_size ops))%nat.
Proof.
  destruct t; try done; destruct op; try done; intros E; injection E as <-; vm_compute; lia.
Qed.

Lemma matcher_read_back `{Ifaces} (m : bf_matcher) ops memory :
  matcher_text_ok m ops -> (Z.to_nat (ref_payload_size ops) <= length memory)%nat ->
  bf_matcher_new_from_raw memory (matcher_type m) (matcher_op m) (print_with (ops_parse ops) (matcher_payload m)) =
    Ok (mk_matcher (matcher_type m) (matcher_op m)
          (take (written (ops_parse ops)) (matcher_payload m) ++
           drop (written (ops_parse ops)) (take (Z.to_nat (ref_payload_size ops)) memory))).
Proof.
  intros [Eo Hb Hs Hok Hp] Hm. pose proof (written_fits _ _ _ Eo) as Hw. unfold bf_matcher_new_from_raw. rewrite Eo.
  rewrite (payload_back (ops_parse ops)) by (done || lia || (rewrite length_take; lia)). done.
Qed.
