(* ===== verification/Log.v ===== *)
(** The colors and levels of the logger ([src/libbpfilter/logger.c]), and the
    packets that the rules log, as the tool prints them: [bfc_print_log] of
    [src/bfcli/print.c]. *)

From S2P Require Import Prelude Bytes Helper CString Printf Inet Matcher Rule Dump.
From Stdlib Require Import Ascii.

(** * Levels *)

Inductive bf_log_level : Type :=
| BF_LOG_DBG
| BF_LOG_INFO
| BF_LOG_WARN
| BF_LOG_ERR
| BF_LOG_ABORT.

Definition bf_log_level_vals : list bf_log_level := [BF_LOG_DBG; BF_LOG_INFO; BF_LOG_WARN; BF_LOG_ERR; BF_LOG_ABORT].

Definition bf_log_level_to_str (level : bf_log_level) : option string :=
  match level with
  | BF_LOG_DBG => Some "debug"%string
  | BF_LOG_INFO => Some "info"%string
  | BF_LOG_WARN => Some "warning"%string
  | BF_LOG_ERR => Some "error"%string
  | BF_LOG_ABORT => Some "abort"%string
  end.

Definition bf_log_level_from_str (str : string) : res bf_log_level :=
  of_option (- EINVAL) (table_find bf_streq bf_log_level_to_str bf_log_level_vals str).

(** * Colors *)

Inductive bf_color : Type :=
| BF_COLOR_DEFAULT | BF_COLOR_RESET
| BF_COLOR_BLACK | BF_COLOR_RED | BF_COLOR_GREEN | BF_COLOR_YELLOW | BF_COLOR_BLUE | BF_COLOR_MAGENTA | BF_COLOR_CYAN
| BF_COLOR_LIGHT_GRAY | BF_COLOR_DARK_GRAY | BF_COLOR_LIGHT_RED | BF_COLOR_LIGHT_GREEN | BF_COLOR_LIGHT_YELLOW
| BF_COLOR_LIGHT_BLUE | BF_COLOR_LIGHT_MAGENTA | BF_COLOR_LIGHT_CYAN | BF_COLOR_WHITE.

Inductive bf_style : Type := BF_STYLE_RESET | BF_STYLE_NORMAL | BF_STYLE_BOLD.

(** The number of a color in an escape sequence. *)
Definition color_code (color : bf_color) : option string :=
  match color with
  | BF_COLOR_DEFAULT => Some "39"%string
  | BF_COLOR_BLACK => Some "30"%string
  | BF_COLOR_RED => Some "31"%string
  | BF_COLOR_GREEN => Some "32"%string
  | BF_COLOR_YELLOW => Some "33"%string
  | BF_COLOR_BLUE => Some "34"%string
  | BF_COLOR_MAGENTA => Some "35"%string
  | BF_COLOR_CYAN => Some "36"%string
  | BF_COLOR_LIGHT_GRAY => Some "37"%string
  | BF_COLOR_DARK_GRAY => Some "90"%string
  | BF_COLOR_LIGHT_RED => Some "91"%string
  | BF_COLOR_LIGHT_GREEN => Some "92"%string
  | BF_COLOR_LIGHT_YELLOW => Some "93"%string
  | BF_COLOR_LIGHT_BLUE => Some "94"%string
  | BF_COLOR_LIGHT_MAGENTA => Some "95"%string
  | BF_COLOR_LIGHT_CYAN => Some "96"%string
  | BF_COLOR_WHITE => Some "97"%string
  | BF_COLOR_RESET => None
  end.

Section Log.

(** [_bf_can_print_color]: the outputs are terminals. *)
Variable can_print_color : bool.

(** [strftime] of [localtime], as hours, minutes and seconds. *)
Variable local_time : Z -> string.

Definition bf_logger_get_color (color : bf_color) (style : bf_style) : string :=
  if negb can_print_color then EmptyString
  else
    String "027" ("[" +s+
      match color_code color with
      | Some code => (match style with BF_STYLE_BOLD => "1;" | _ => "0;" end) +s+ code
      | None => "0"
      end +s+ "m").

Definition reset : string := bf_logger_get_color BF_COLOR_RESET BF_STYLE_RESET.

(** A text in bold and in color. *)
Definition bold (color : bf_color) (text : string) : string := bf_logger_get_color color BF_STYLE_BOLD +s+ text +s+ reset.

(** * Logs *)

(** The header slices are the bytes of the packet. *)
Record bf_log : Type := mk_log {
  log_ts : Z;
  log_pkt_size : Z;
  log_rule_id : Z;
  log_l3_proto : Z;
  log_l4_proto : Z;
  log_req_headers : Z;
  log_headers : Z;
  log_l2hdr : list Z;
  log_l3hdr : list Z;
  log_l4hdr : list Z
}.

Fixpoint blanks (n : nat) : string := match n with O => EmptyString | S n => String " " (blanks n) end.

(** ["%-<n>s"], ["%-<n>u"], and ["%06ld"]. *)
Definition pad_right (n : nat) (s : string) : string := s +s+ blanks (n - String.length s).
Definition fmt_06d (z : Z) : string :=
  let digits := number 10 (Z.abs z) in
  let sign := if z <? 0 then "-" else EmptyString in
  sign +s+ String.substring 0 (6 - String.length sign - String.length digits) "000000" +s+ digits.

(** A field of a header, in the order of the network. *)
Definition hdr_byte (o : nat) (hdr : list Z) : Z := default 0 (hdr !! o).
Definition hdr_be (o n : nat) (hdr : list Z) : Z := foldl (fun acc b => acc * 256 + b) 0 (sub_bytes o n hdr).

Definition log_has (headers : Z) (hdr : bf_pkthdr) : bool := negb (Z.land headers (Z.shiftl 1 (bf_pkthdr_to_Z hdr)) =? 0).

Definition BF_TIME_S : Z := 1000000000.
Definition BF_TIME_US : Z := 1000.

Definition _bf_chain_log_header (log : bf_log) : string :=
  let ts := sw 64 (log_ts log) in
  let tv_nsec := Z.rem ts BF_TIME_S in
  nl +s+ bf_logger_get_color BF_COLOR_LIGHT_CYAN BF_STYLE_NORMAL +s+
  "[" +s+ local_time (Z.quot ts BF_TIME_S) +s+ "." +s+ fmt_06d (Z.quot tv_nsec BF_TIME_US) +s+ "]" +s+ reset +s+
  " Rule #" +s+ fmt_u (log_rule_id log) +s+ " matched " +s+
  bold BF_COLOR_DEFAULT (fmt_u (log_pkt_size log) +s+ " bytes") +s+ nl.

(** ** Link layer *)

Definition print_mac (o : nat) (hdr : list Z) : string :=
  fmt_02x (hdr_byte o hdr) +s+ ":" +s+ fmt_02x (hdr_byte (o + 1) hdr) +s+ ":" +s+ fmt_02x (hdr_byte (o + 2) hdr) +s+ ":" +s+
  fmt_02x (hdr_byte (o + 3) hdr) +s+ ":" +s+ fmt_02x (hdr_byte (o + 4) hdr) +s+ ":" +s+ fmt_02x (hdr_byte (o + 5) hdr).

Definition _bf_chain_log_l2 (log : bf_log) : string :=
  let ethhdr := log_l2hdr log in
  if negb (log_has (log_headers log) BF_PKTHDR_LINK) then "  Ethernet  : <unknown header>" +s+ nl
  else
    let h_proto := hdr_be 12 2 ethhdr in
    "  Ethernet  : " +s+ bold BF_COLOR_YELLOW (print_mac 6 ethhdr) +s+ " → " +s+ bold BF_COLOR_YELLOW (print_mac 0 ethhdr) +s+
    match bf_ethertype_to_str h_proto with
    | Some ethertype => " (" +s+ ethertype +s+ ")" +s+ nl
    | None => " (0x" +s+ fmt_04x h_proto +s+ ")" +s+ nl
    end.

(** ** Internet layer *)

Definition _bf_chain_log_l3 (log : bf_log) : string :=
  let hdr := log_l3hdr log in
  if negb (log_has (log_headers log) BF_PKTHDR_INTERNET) then "  Internet  : <unknown header>" +s+ nl
  else if log_l3_proto log =? ETH_P_IP then
    let protocol := hdr_byte 9 hdr in
    let ttl := hdr_byte 8 hdr in
    "  IPv4      : " +s+ bold BF_COLOR_CYAN (pad_right 15 (inet_ntop4 (sub_bytes 12 4 hdr))) +s+ " → " +s+
    bold BF_COLOR_CYAN (pad_right 15 (inet_ntop4 (sub_bytes 16 4 hdr))) +s+
    match bf_ipproto_to_str protocol with
    | Some name => " [" +s+ bold BF_COLOR_LIGHT_MAGENTA name +s+ ", TTL=" +s+ fmt_u ttl +s+ "]" +s+ nl
    | None => " [proto=" +s+ fmt_u protocol +s+ ", TTL=" +s+ fmt_u ttl +s+ "]" +s+ nl
    end
  else if log_l3_proto log =? ETH_P_IPV6 then
    let nexthdr := hdr_byte 6 hdr in
    let hop_limit := hdr_byte 7 hdr in
    "  IPv6      : " +s+ bold BF_COLOR_LIGHT_CYAN (inet_ntop6 (sub_bytes 8 16 hdr)) +s+ " → " +s+
    bold BF_COLOR_LIGHT_CYAN (inet_ntop6 (sub_bytes 24 16 hdr)) +s+
    match bf_ipproto_to_str nexthdr with
    | Some name => " [" +s+ bold BF_COLOR_LIGHT_MAGENTA name +s+ ", Hop=" +s+ fmt_u hop_limit +s+ "]" +s+ nl
    | None => " [nexthdr=" +s+ fmt_u nexthdr +s+ ", Hop=" +s+ fmt_u hop_limit +s+ "]" +s+ nl
    end
  else "  Internet  : <unknown protocol 0x" +s+ fmt_04x (log_l3_proto log) +s+ ">" +s+ nl.

(** ** Transport layer *)

Definition tcp_flag_order : list bf_tcp_flag :=
  [BF_TCP_FIN; BF_TCP_SYN; BF_TCP_RST; BF_TCP_PSH; BF_TCP_ACK; BF_TCP_URG; BF_TCP_ECE; BF_TCP_CWR].

(** [flag_count] names have been written. *)
Fixpoint tcp_flags_text (flags : list bf_tcp_flag) (byte : Z) (flag_count : nat) : string * nat :=
  match flags with
  | [] => (EmptyString, flag_count)
  | f :: flags =>
      match (if Z.testbit byte (bf_tcp_flag_to_Z f) then bf_tcp_flag_to_str f else None) with
      | Some name =>
          let '(text, n) := tcp_flags_text flags byte (S flag_count) in
          ((if (flag_count =? 0)%nat then EmptyString else ",") +s+ name +s+ text, n)
      | None => tcp_flags_text flags byte flag_count
      end
  end.

Definition _bf_tcp_flags_to_str (tcphdr : list Z) : option string :=
  let '(text, flag_count) := tcp_flags_text tcp_flag_order (hdr_byte 13 tcphdr) 0 in
  if (0 <? flag_count)%nat then Some text else None.

Definition port_text (o : nat) (hdr : list Z) : string := bold BF_COLOR_LIGHT_YELLOW (pad_right 5 (fmt_u (hdr_be o 2 hdr))).
Definition ports_text (hdr : list Z) : string := port_text 0 hdr +s+ " → " +s+ port_text 2 hdr.

Definition ICMP_ECHOREPLY : Z := 0.
Definition ICMP_ECHO : Z := 8.
Definition ICMPV6_ECHO_REQUEST : Z := 128.
Definition ICMPV6_ECHO_REPLY : Z := 129.

Definition icmp_text (hdr : list Z) (echo reply : Z) : string :=
  let type := hdr_byte 0 hdr in
  "type=" +s+ pad_right 3 (fmt_u type) +s+ " code=" +s+ pad_right 3 (fmt_u (hdr_byte 1 hdr)) +s+
  (if (type =? echo) || (type =? reply)
   then " [id=" +s+ fmt_u (hdr_be 4 2 hdr) +s+ " seq=" +s+ fmt_u (hdr_be 6 2 hdr) +s+ "]" +s+ nl
   else nl).

Definition _bf_chain_log_l4 (log : bf_log) : string :=
  let hdr := log_l4hdr log in
  if negb (log_has (log_headers log) BF_PKTHDR_TRANSPORT) then "  Transport : <unknown header>" +s+ nl
  else if log_l4_proto log =? IPPROTO_TCP then
    "  TCP       : " +s+ ports_text hdr +s+
    match _bf_tcp_flags_to_str hdr with
    | Some flags => " [" +s+ bold BF_COLOR_LIGHT_GREEN flags +s+ "]"
    | None => EmptyString
    end +s+
    nl +s+ "              seq=" +s+ pad_right 10 (fmt_u (hdr_be 4 4 hdr)) +s+ " ack=" +s+ pad_right 10 (fmt_u (hdr_be 8 4 hdr)) +s+
    " win=" +s+ pad_right 5 (fmt_u (hdr_be 14 2 hdr)) +s+ nl
  else if log_l4_proto log =? IPPROTO_UDP then
    "  UDP       : " +s+ ports_text hdr +s+ " [len=" +s+ fmt_u (hdr_be 4 2 hdr) +s+ "]" +s+ nl
  else if log_l4_proto log =? IPPROTO_ICMP then "  ICMP      : " +s+ icmp_text hdr ICMP_ECHO ICMP_ECHOREPLY
  else if log_l4_proto log =? IPPROTO_ICMPV6 then "  ICMPv6    : " +s+ icmp_text hdr ICMPV6_ECHO_REQUEST ICMPV6_ECHO_REPLY
  else "  Transport : <unknown protocol " +s+ fmt_u (log_l4_proto log) +s+ ">" +s+ nl.

Definition bfc_print_log (log : bf_log) : string :=
  _bf_chain_log_header log +s+
  (if log_has (log_req_headers log) BF_PKTHDR_LINK then _bf_chain_log_l2 log else EmptyString) +s+
  (if log_has (log_req_headers log) BF_PKTHDR_INTERNET then _bf_chain_log_l3 log else EmptyString) +s+
  (if log_has (log_req_headers log) BF_PKTHDR_TRANSPORT then _bf_chain_log_l4 log else EmptyString).
End Log.
