(* ===== verification/ToolOpts.v ===== *)
(** The command line of the tool: [src/bfcli/opts.c].

    The library [argp] calls a function of the tool for every argument and
    option it finds, then once more at the end.  What these functions do is
    defined here; [argp_error], which prints a message and exits, is
    [ARGP_EXIT]. *)

From S2P Require Import Prelude Helper CString Printf Inet Hook Hookopts.
From Stdlib Require Import Ascii.

(** * Objects and actions *)

Inductive bfc_object : Type := BFC_OBJECT_RULESET | BFC_OBJECT_CHAIN.

Inductive bfc_action : Type :=
| BFC_ACTION_SET | BFC_ACTION_GET | BFC_ACTION_LOGS | BFC_ACTION_LOAD | BFC_ACTION_ATTACH | BFC_ACTION_UPDATE | BFC_ACTION_FLUSH.

#[global] Instance bfc_object_eq_dec : EqDecision bfc_object.
Proof. solve_decision. Defined.
#[global] Instance bfc_action_eq_dec : EqDecision bfc_action.
Proof. solve_decision. Defined.

Definition bfc_object_vals : list bfc_object := [BFC_OBJECT_RULESET; BFC_OBJECT_CHAIN].
Definition bfc_action_vals : list bfc_action :=
  [BFC_ACTION_SET; BFC_ACTION_GET; BFC_ACTION_LOGS; BFC_ACTION_LOAD; BFC_ACTION_ATTACH; BFC_ACTION_UPDATE; BFC_ACTION_FLUSH].

Definition bfc_object_to_str (object : bfc_object) : string :=
  match object with BFC_OBJECT_RULESET => "ruleset" | BFC_OBJECT_CHAIN => "chain" end.

Definition bfc_action_to_str (action : bfc_action) : string :=
  match action with
  | BFC_ACTION_SET => "set"
  | BFC_ACTION_GET => "get"
  | BFC_ACTION_LOGS => "logs"
  | BFC_ACTION_LOAD => "load"
  | BFC_ACTION_ATTACH => "attach"
  | BFC_ACTION_UPDATE => "update"
  | BFC_ACTION_FLUSH => "flush"
  end.

Definition bfc_object_from_str (str : string) : res bfc_object :=
  of_option (- EINVAL) (table_find bf_streq (fun o => Some (bfc_object_to_str o)) bfc_object_vals str).

Definition bfc_action_from_str (str : string) : res bfc_action :=
  of_option (- EINVAL) (table_find bf_streq (fun a => Some (bfc_action_to_str a)) bfc_action_vals str).

(** * Commands *)

Inductive bfc_opts_option_id : Type :=
| BFC_OPT_RULESET_FROM_STR | BFC_OPT_RULESET_FROM_FILE | BFC_OPT_CHAIN_FROM_STR | BFC_OPT_CHAIN_FROM_FILE
| BFC_OPT_CHAIN_NAME | BFC_OPT_CHAIN_HOOK_OPTS.

#[global] Instance bfc_opts_option_id_eq_dec : EqDecision bfc_opts_option_id.
Proof. solve_decision. Defined.

Definition option_vals : list bfc_opts_option_id :=
  [BFC_OPT_RULESET_FROM_STR; BFC_OPT_RULESET_FROM_FILE; BFC_OPT_CHAIN_FROM_STR; BFC_OPT_CHAIN_FROM_FILE;
   BFC_OPT_CHAIN_NAME; BFC_OPT_CHAIN_HOOK_OPTS].

Definition option_to_Z (id : bfc_opts_option_id) : Z :=
  match id with
  | BFC_OPT_RULESET_FROM_STR => 0
  | BFC_OPT_RULESET_FROM_FILE => 1
  | BFC_OPT_CHAIN_FROM_STR => 2
  | BFC_OPT_CHAIN_FROM_FILE => 3
  | BFC_OPT_CHAIN_NAME => 4
  | BFC_OPT_CHAIN_HOOK_OPTS => 5
  end.

(** [flags & BF_FLAG(id)], and [BF_FLAGS(ids...)]. *)
Definition has_opt (flags : Z) (id : bfc_opts_option_id) : bool := negb (Z.land flags (BF_FLAG (option_to_Z id)) =? 0).
Definition opt_flags (ids : list bfc_opts_option_id) : Z := BF_FLAGS (option_to_Z <$> ids).

(** The functions the commands are carried out by. *)
Inductive bfc_cb : Type :=
| CB_ruleset_set | CB_ruleset_get | CB_ruleset_flush
| CB_chain_set | CB_chain_get | CB_chain_logs | CB_chain_load | CB_chain_attach | CB_chain_update | CB_chain_flush.

Record bfc_opts_cmd : Type := mk_cmd {
  cmd_name : string;
  cmd_object : bfc_object;
  cmd_action : bfc_action;
  cmd_valid_opts : Z;
  cmd_required_opts : Z;
  cmd_cb : bfc_cb
}.

Definition chain_source : Z := opt_flags [BFC_OPT_CHAIN_FROM_STR; BFC_OPT_CHAIN_FROM_FILE].
Definition ruleset_source : Z := opt_flags [BFC_OPT_RULESET_FROM_STR; BFC_OPT_RULESET_FROM_FILE].
Definition chain_source_name : Z := opt_flags [BFC_OPT_CHAIN_FROM_STR; BFC_OPT_CHAIN_FROM_FILE; BFC_OPT_CHAIN_NAME].
Definition only_name : Z := opt_flags [BFC_OPT_CHAIN_NAME].

Definition _bfc_opts_cmds : list bfc_opts_cmd :=
  [ mk_cmd "bfcli ruleset set" BFC_OBJECT_RULESET BFC_ACTION_SET ruleset_source ruleset_source CB_ruleset_set;
    mk_cmd "bfcli ruleset get" BFC_OBJECT_RULESET BFC_ACTION_GET 0 0 CB_ruleset_get;
    mk_cmd "bfcli ruleset flush" BFC_OBJECT_RULESET BFC_ACTION_FLUSH 0 0 CB_ruleset_flush;
    mk_cmd "bfcli chain set" BFC_OBJECT_CHAIN BFC_ACTION_SET chain_source_name chain_source CB_chain_set;
    mk_cmd "bfcli chain get" BFC_OBJECT_CHAIN BFC_ACTION_GET only_name only_name CB_chain_get;
    mk_cmd "bfcli chain logs" BFC_OBJECT_CHAIN BFC_ACTION_LOGS only_name only_name CB_chain_logs;
    mk_cmd "bfcli chain load" BFC_OBJECT_CHAIN BFC_ACTION_LOAD chain_source_name chain_source CB_chain_load;
    mk_cmd "bfcli chain attach" BFC_OBJECT_CHAIN BFC_ACTION_ATTACH (opt_flags [BFC_OPT_CHAIN_HOOK_OPTS; BFC_OPT_CHAIN_NAME]) only_name CB_chain_attach;
    mk_cmd "bfcli chain update" BFC_OBJECT_CHAIN BFC_ACTION_UPDATE chain_source_name chain_source CB_chain_update;
    mk_cmd "bfcli chain flush" BFC_OBJECT_CHAIN BFC_ACTION_FLUSH only_name only_name CB_chain_flush ].

Definition _bfc_opts_get_cmd (object : bfc_object) (action : bfc_action) : option bfc_opts_cmd :=
  List.find (fun cmd => bool_decide (cmd_object cmd = object) && bool_decide (cmd_action cmd = action)) _bfc_opts_cmds.

(** * Options *)

(** An object or an action that is not set is [None]. *)
Record bfc_opts : Type := mk_opts {
  o_cmd : option bfc_opts_cmd;
  o_object : option bfc_object;
  o_action : option bfc_action;
  o_set_opts : Z;
  o_from_str : option string;
  o_from_file : option string;
  o_name : option string;
  o_hookopts : bf_hookopts
}.

Definition bfc_opts_default : bfc_opts := mk_opts None None None 0 None None None bf_hookopts_new.

Definition with_object (x : bfc_object) (o : bfc_opts) : bfc_opts :=
  mk_opts (o_cmd o) (Some x) (o_action o) (o_set_opts o) (o_from_str o) (o_from_file o) (o_name o) (o_hookopts o).
Definition with_action (x : bfc_action) (cmd : bfc_opts_cmd) (o : bfc_opts) : bfc_opts :=
  mk_opts (Some cmd) (o_object o) (Some x) (o_set_opts o) (o_from_str o) (o_from_file o) (o_name o) (o_hookopts o).
Definition with_set_opts (x : Z) (o : bfc_opts) : bfc_opts :=
  mk_opts (o_cmd o) (o_object o) (o_action o) x (o_from_str o) (o_from_file o) (o_name o) (o_hookopts o).
Definition with_from_str (x : string) (o : bfc_opts) : bfc_opts :=
  mk_opts (o_cmd o) (o_object o) (o_action o) (o_set_opts o) (Some x) (o_from_file o) (o_name o) (o_hookopts o).
Definition with_from_file (x : string) (o : bfc_opts) : bfc_opts :=
  mk_opts (o_cmd o) (o_object o) (o_action o) (o_set_opts o) (o_from_str o) (Some x) (o_name o) (o_hookopts o).
Definition with_opt_name (x : string) (o : bfc_opts) : bfc_opts :=
  mk_opts (o_cmd o) (o_object o) (o_action o) (o_set_opts o) (o_from_str o) (o_from_file o) (Some x) (o_hookopts o).
Definition with_opt_hookopts (x : bf_hookopts) (o : bfc_opts) : bfc_opts :=
  mk_opts (o_cmd o) (o_object o) (o_action o) (o_set_opts o) (o_from_str o) (o_from_file o) (o_name o) x.

(** What [argp] calls the functions with. *)
Inductive argp_key : Type :=
| ARGP_KEY_ARG (arg_num : nat) (arg : string)
| ARGP_KEY_OPT (key : ascii) (arg : string)
| ARGP_KEY_END.

(** [ARGP_OK] tells whether [state->next] was moved to the last argument. *)
Inductive argp_result : Type :=
| ARGP_OK (last : bool) (opts : bfc_opts)
| ARGP_ERR_UNKNOWN
| ARGP_EXIT (msg : string).

Definition _bfc_opts_parser (key : argp_key) (opts : bfc_opts) : argp_result :=
  match key with
  | ARGP_KEY_ARG arg_num arg =>
      match arg_num with
      | O =>
          match bfc_object_from_str arg with
          | Ok object => ARGP_OK false (with_object object opts)
          | Err _ => ARGP_EXIT ("unknown object '" +s+ arg +s+ "'")
          end
      | S O =>
          match bfc_action_from_str arg, o_object opts with
          | Err _, _ => ARGP_EXIT ("unknown action '" +s+ arg +s+ "'")
          | Ok action, None => ARGP_EXIT "no object"
          | Ok action, Some object =>
              match _bfc_opts_get_cmd object action with
              | None =>
                  ARGP_EXIT ("object '" +s+ bfc_object_to_str object +s+ "' does not support action '" +s+ bfc_action_to_str action +s+ "'")
              | Some cmd => ARGP_OK true (with_action action cmd opts)
              end
          end
      | _ => ARGP_ERR_UNKNOWN
      end
  | ARGP_KEY_END =>
      match o_object opts, o_action opts with
      | Some _, Some _ => ARGP_OK false opts
      | _, _ => ARGP_EXIT "usage"
      end
  | ARGP_KEY_OPT _ _ => ARGP_ERR_UNKNOWN
  end.

(** ** The options of a command *)

Inductive opt_parser : Type := OPT_from_str | OPT_from_file | OPT_chain_name | OPT_chain_hook_opts.

Record bfc_opts_opt : Type := mk_opt { opt_key : ascii; opt_name : string; opt_rejects : Z; opt_parse : opt_parser }.

Definition _bfc_options (id : bfc_opts_option_id) : bfc_opts_opt :=
  match id with
  | BFC_OPT_RULESET_FROM_STR => mk_opt "s" "from-str" (opt_flags [BFC_OPT_RULESET_FROM_FILE]) OPT_from_str
  | BFC_OPT_RULESET_FROM_FILE => mk_opt "f" "from-file" (opt_flags [BFC_OPT_RULESET_FROM_STR]) OPT_from_file
  | BFC_OPT_CHAIN_FROM_STR => mk_opt "s" "from-str" (opt_flags [BFC_OPT_CHAIN_FROM_FILE]) OPT_from_str
  | BFC_OPT_CHAIN_FROM_FILE => mk_opt "f" "from-file" (opt_flags [BFC_OPT_CHAIN_FROM_STR]) OPT_from_file
  | BFC_OPT_CHAIN_NAME => mk_opt "n" "name" 0 OPT_chain_name
  | BFC_OPT_CHAIN_HOOK_OPTS => mk_opt "o" "option" 0 OPT_chain_hook_opts
  end.

Definition _bfc_opts_from_str_cb (arg : string) (opts : bfc_opts) : argp_result := ARGP_OK false (with_from_str arg opts).
Definition _bfc_opts_from_file_cb (arg : string) (opts : bfc_opts) : argp_result := ARGP_OK false (with_from_file arg opts).

Definition _bfc_opts_chain_name_cb (arg : string) (opts : bfc_opts) : argp_result :=
  if (String.length arg =? 0)%nat then ARGP_EXIT "--name can't be empty" else ARGP_OK false (with_opt_name arg opts).

Definition _bfc_opts_chain_hook_opts_cb (arg : string) (opts : bfc_opts) : argp_result :=
  match bf_hookopts_parse_opt (o_hookopts opts) arg with
  | Ok ho => ARGP_OK false (with_opt_hookopts ho opts)
  | Err _ => ARGP_EXIT ("failed to parse hook option '" +s+ arg +s+ "'")
  end.

Definition opt_run (p : opt_parser) : string -> bfc_opts -> argp_result :=
  match p with
  | OPT_from_str => _bfc_opts_from_str_cb
  | OPT_from_file => _bfc_opts_from_file_cb
  | OPT_chain_name => _bfc_opts_chain_name_cb
  | OPT_chain_hook_opts => _bfc_opts_chain_hook_opts_cb
  end.

(** An option that is required, not set, and that no option that is set
    replaces. *)
Definition opt_missing (cmd : bfc_opts_cmd) (set_opts : Z) (id : bfc_opts_option_id) : bool :=
  has_opt (cmd_required_opts cmd) id && negb (has_opt set_opts id) && (Z.land set_opts (opt_rejects (_bfc_options id)) =? 0).

Fixpoint missing_text (ids : list bfc_opts_option_id) (error : bool) : string :=
  match ids with
  | [] => EmptyString
  | id :: ids => (if error then ", " else EmptyString) +s+ "--" +s+ opt_name (_bfc_options id) +s+ missing_text ids true
  end.

(** The pairs of options that are set and incompatible. *)
Definition opt_conflicts (set_opts : Z) : list (bfc_opts_option_id * bfc_opts_option_id) :=
  id ← option_vals;
  if negb (has_opt set_opts id) then []
  else
    compat_id ← option_vals;
    if negb (has_opt (opt_rejects (_bfc_options id)) compat_id) || negb (has_opt set_opts compat_id) then []
    else [(id, compat_id)].

(** The first option of the command that has the key. *)
Definition opt_of_key (cmd : bfc_opts_cmd) (key : ascii) : option bfc_opts_option_id :=
  List.find (fun id => has_opt (cmd_valid_opts cmd) id && Ascii.eqb key (opt_key (_bfc_options id))) option_vals.

(** The message is shorter than the buffer it is written to. *)
Definition _bfc_opts_cmd_parser (cmd : bfc_opts_cmd) (key : argp_key) (opts : bfc_opts) : argp_result :=
  match key with
  | ARGP_KEY_END =>
      match List.filter (opt_missing cmd (o_set_opts opts)) option_vals with
      | _ :: _ as missing => ARGP_EXIT ("missing required option(s): " +s+ missing_text missing false)
      | [] =>
          match opt_conflicts (o_set_opts opts) with
          | (id, compat_id) :: _ =>
              ARGP_EXIT ("option --" +s+ opt_name (_bfc_options id) +s+ " is incompatible with --" +s+ opt_name (_bfc_options compat_id))
          | [] => ARGP_OK false opts
          end
      end
  | ARGP_KEY_OPT key arg =>
      match opt_of_key cmd key with
      | None => ARGP_ERR_UNKNOWN
      | Some id =>
          match opt_run (opt_parse (_bfc_options id)) arg opts with
          | ARGP_OK last opts => ARGP_OK last (with_set_opts (Z.lor (o_set_opts opts) (BF_FLAG (option_to_Z id))) opts)
          | result => result
          end
      end
  | ARGP_KEY_ARG _ _ => ARGP_ERR_UNKNOWN
  end.

(** * The command line *)

(** The options of a command that are given to the second parser. *)
Definition suboptions (cmd : bfc_opts_cmd) : list bfc_opts_opt :=
  _bfc_options <$> List.filter (has_opt (cmd_valid_opts cmd)) option_vals.

(** [argp_parse] goes through a command line with a function and the options it
    is told of. *)
Class Argp : Type := {
  argp_parse : (argp_key -> bfc_opts -> argp_result) -> list bfc_opts_opt -> list string -> bfc_opts -> res bfc_opts
}.

(** The object and the action are parsed first, then the options of their
    command; [argv] starts with the name of the program. *)
Definition bfc_opts_parse `{Argp} (argv : list string) (opts : bfc_opts) : res bfc_opts :=
  let! opts := argp_parse _bfc_opts_parser [] (drop 1 argv) opts in
  match o_cmd opts with
  | None => Err (- BF_CRASH)
  | Some cmd => argp_parse (_bfc_opts_cmd_parser cmd) (suboptions cmd) (drop 3 argv) opts
  end.

(** ** What is relied on *)

(** The last call. *)
Definition argp_end (parser : argp_key -> bfc_opts -> argp_result) (opts : bfc_opts) : res bfc_opts :=
  match parser ARGP_KEY_END opts with
  | ARGP_OK _ opts => Ok opts
  | ARGP_ERR_UNKNOWN => Ok opts
  | ARGP_EXIT _ => Err (- EINVAL)
  end.

(** The calls for the arguments and the options, up to the one that moves to
    the end, then the last one.  An argument or an option that is unknown is an
    error the library exits with. *)
Fixpoint argp_calls (parser : argp_key -> bfc_opts -> argp_result) (keys : list argp_key) (opts : bfc_opts) : res bfc_opts :=
  match keys with
  | [] => argp_end parser opts
  | key :: keys =>
      match parser key opts with
      | ARGP_OK last opts => if last then argp_end parser opts else argp_calls parser keys opts
      | ARGP_ERR_UNKNOWN | ARGP_EXIT _ => Err (- EINVAL)
      end
  end.

(** The arguments are numbered. *)
Fixpoint numbered (n : nat) (keys : list argp_key) : Prop :=
  match keys with
  | [] => True
  | ARGP_KEY_ARG m _ :: keys => m = n /\ numbered (S n) keys
  | ARGP_KEY_OPT _ _ :: keys => numbered n keys
  | ARGP_KEY_END :: _ => False
  end.

Class ArgpSpec `{Argp} : Prop := {
  argp_runs : forall parser options argv, exists keys, numbered 0 keys /\
    forall opts, argp_parse parser options argv opts = argp_calls parser keys opts
}.
