(* ===== verification/Wire.v ===== *)
(** A concrete document format, for the examples.

    The mpack library is a parameter of the development ([Mpack] of [Pack.v]);
    the examples evaluate the code with this one: a byte for the kind of the
    node, then its content, integers being written bit by bit. *)

From S2P Require Import Prelude Pack.
From Stdlib Require Import Ascii.

#[local] Set Warnings "-register-all".

(** * Integers *)

Fixpoint put_pos (p : positive) : list Z :=
  match p with xI p => 1 :: put_pos p | xO p => 0 :: put_pos p | xH => [2] end.

Definition put_Z (z : Z) : list Z :=
  match z with Z0 => [0] | Zpos p => 1 :: put_pos p | Zneg p => 2 :: put_pos p end.

Fixpoint get_pos (l : list Z) : option (positive * list Z) :=
  match l with
  | [] => None
  | b :: l =>
      if b =? 2 then Some (xH, l)
      else match get_pos l with
           | Some (p, l) => Some (if b =? 1 then xI p else xO p, l)
           | None => None
           end
  end.

Definition get_Z (l : list Z) : option (Z * list Z) :=
  match l with
  | [] => None
  | b :: l =>
      if b =? 0 then Some (0, l)
      else match get_pos l with
           | Some (p, l) => Some (if b =? 1 then Zpos p else Zneg p, l)
           | None => None
           end
  end.

Lemma get_put_pos p l : get_pos (put_pos p ++ l) = Some (p, l).
Proof. induction p as [p IH|p IH|]; cbn; by rewrite ?IH. Qed.

Lemma get_put_Z z l : get_Z (put_Z z ++ l) = Some (z, l).
Proof. destruct z; cbn; by rewrite ?get_put_pos. Qed.

(** * Nodes *)

Definition put_list {A} (put : A -> list Z) (l : list A) : list Z := put_Z (Z.of_nat (length l)) ++ flat_map put l.

Fixpoint put_node (n : mnode) : list Z :=
  match n with
  | MNil => [0]
  | MBool b => [1; Z.b2z b]
  | MInt z => 2 :: put_Z z
  | MUint z => 3 :: put_Z z
  | MStr s => 4 :: put_list (fun c => [Z.of_N (N_of_ascii c)]) (String.list_ascii_of_string s)
  | MBin data => 5 :: put_list put_Z data
  | MArray l => 6 :: put_list put_node l
  | MMap l => 7 :: put_list (fun '(k, v) => put_node k ++ put_node v) l
  end.

Section Get.
Context {A : Type} (get : list Z -> option (A * list Z)).

Fixpoint get_n (n : nat) (l : list Z) : option (list A * list Z) :=
  match n with
  | O => Some ([], l)
  | S n =>
      match get l with
      | None => None
      | Some (x, l) => match get_n n l with Some (xs, l) => Some (x :: xs, l) | None => None end
      end
  end.

Definition get_list (l : list Z) : option (list A * list Z) :=
  match get_Z l with Some (n, l) => get_n (Z.to_nat n) l | None => None end.

Lemma get_put_list (put : A -> list Z) xs l : Forall (fun x => forall l, get (put x ++ l) = Some (x, l)) xs ->
  get_list (put_list put xs ++ l) = Some (xs, l).
Proof.
  intros Hx. unfold get_list, put_list. rewrite <- app_assoc, get_put_Z, Nat2Z.id.
  induction Hx as [|x xs Hx _ IH]; [done|]. cbn [length get_n flat_map]. by rewrite <- app_assoc, Hx, IH.
Qed.
End Get.

Definition get_char (l : list Z) : option (ascii * list Z) :=
  match l with b :: l => Some (ascii_of_N (Z.to_N b), l) | [] => None end.

Definition get_pair {A} (get : list Z -> option (A * list Z)) (l : list Z) : option ((A * A) * list Z) :=
  match get l with
  | None => None
  | Some (k, l) => match get l with Some (v, l) => Some ((k, v), l) | None => None end
  end.

Definition on_fst {A B C} (f : A -> B) (x : option (A * C)) : option (B * C) :=
  match x with Some (a, c) => Some (f a, c) | None => None end.

(** [fuel]: the depth of the document. *)
Fixpoint get_node (fuel : nat) (l : list Z) : option (mnode * list Z) :=
  match fuel, l with
  | S fuel, b :: l =>
      match b with
      | 0 => Some (MNil, l)
      | 1 => match l with b :: l => Some (MBool (b =? 1), l) | [] => None end
      | 2 => on_fst MInt (get_Z l)
      | 3 => on_fst MUint (get_Z l)
      | 4 => on_fst (fun cs => MStr (String.string_of_list_ascii cs)) (get_list get_char l)
      | 5 => on_fst MBin (get_list get_Z l)
      | 6 => on_fst MArray (get_list (get_node fuel) l)
      | 7 => on_fst MMap (get_list (get_pair (get_node fuel)) l)
      | _ => None
      end
  | _, _ => None
  end.

(** * What is written is read *)

Section Induction.
Context (P : mnode -> Prop).
Hypothesis P_leaf : forall n, match n with MArray _ | MMap _ => False | _ => True end -> P n.
Hypothesis P_array : forall l, Forall P l -> P (MArray l).
Hypothesis P_map : forall l, Forall (fun kv => P (fst kv) /\ P (snd kv)) l -> P (MMap l).

Fixpoint mnode_induction (n : mnode) : P n :=
  match n with
  | MArray l => P_array l ((fix go l : Forall P l :=
      match l with [] => Forall_nil_2 _ | n :: l => Forall_cons_2 _ _ _ (mnode_induction n) (go l) end) l)
  | MMap l => P_map l ((fix go l : Forall (fun kv => P (fst kv) /\ P (snd kv)) l :=
      match l with
      | [] => Forall_nil_2 _
      | (k, v) :: l => Forall_cons_2 (fun kv => P (fst kv) /\ P (snd kv)) (k, v) l (conj (mnode_induction k) (mnode_induction v)) (go l)
      end) l)
  | MNil => P_leaf MNil I
  | MBool b => P_leaf (MBool b) I
  | MInt z => P_leaf (MInt z) I
  | MUint z => P_leaf (MUint z) I
  | MStr s => P_leaf (MStr s) I
  | MBin data => P_leaf (MBin data) I
  end.
End Induction.

(** Enough fuel is what the document's bytes number. *)
Lemma get_put_node n : forall fuel l, (length (put_node n) <= fuel)%nat -> get_node fuel (put_node n ++ l) = Some (n, l).
Proof.
  assert (forall {A} (put : A -> list Z) x xs, x ∈ xs -> (length (put x) <= length (flat_map put xs))%nat) as Hle.
  { intros A put x xs Hx. induction Hx as [x xs|x y xs _ IH]; cbn; rewrite length_app; lia. }
  induction n as [n Hn|ns IH|ns IH] using mnode_induction; intros [|fuel] l Hf; try (destruct n; cbn in *; (done || lia));
    try (cbn in Hf; lia).
  - destruct n; try done; cbn [put_node app get_node].
    + by destruct b.
    + by rewrite get_put_Z.
    + by rewrite get_put_Z.
    + rewrite get_put_list.
      * cbn. by rewrite String.string_of_list_ascii_of_string.
      * apply Forall_true. intros c l'. cbn. by rewrite N2Z.id, ascii_N_embedding.
    + rewrite get_put_list; [done|]. apply Forall_true. intros z l'. apply get_put_Z.
  - cbn [put_node app get_node]. cbn [put_node length] in Hf. unfold put_list in Hf. rewrite length_app in Hf.
    rewrite get_put_list; [done|]. apply Forall_forall. intros n Hn l'.
    rewrite Forall_forall in IH. apply IH; [done|]. pose proof (Hle _ put_node n ns Hn). lia.
  - cbn [put_node app get_node]. cbn [put_node length] in Hf. unfold put_list in Hf. rewrite length_app in Hf.
    rewrite get_put_list; [done|]. apply Forall_forall. intros [k v] Hn l'.
    pose proof (Hle _ (fun '(k, v) => put_node k ++ put_node v) _ ns Hn) as Hl. cbn in Hl. rewrite length_app in Hl.
    rewrite Forall_forall in IH. specialize (IH _ Hn). cbn in IH. unfold get_pair. rewrite <- app_assoc.
    rewrite (proj1 IH) by lia. by rewrite (proj2 IH) by lia.
Qed.

#[export] Instance WireMpack : Mpack := {
  mpack_parse := fun l => match get_node (length l) l with Some (n, []) => Some n | _ => None end;
  mpack_write := put_node
}.

#[export] Instance WireMpackSpec : MpackSpec.
Proof.
  constructor. intros n. cbn. pose proof (get_put_node n (length (put_node n)) [] (Nat.le_refl _)) as E.
  rewrite app_nil_r in E. by rewrite E.
Qed.
