(* ===== verification/Btf.v ===== *)
(** The types of the kernel: [src/libbpfilter/btf.c], which looks up the
    identifier of a function, the offset of a field, and whether the kernel has
    BPF tokens.  The BTF data is read through libbpf, which is a parameter. *)

From S2P Require Import Prelude Helper.

(** [bm_offset] is the word of the member: for a type with the flag, the offset
    in bits is in its lower 24 bits. *)
Record btf_member : Type := mk_btf_member { bm_name : string; bm_type : Z; bm_offset : Z }.
Record btf_type : Type := mk_btf_type { bt_kind : Z; bt_kflag : bool; bt_members : list btf_member }.

Definition BTF_KIND_STRUCT : Z := 4.
Definition BTF_KIND_UNION : Z := 5.

(** libbpf: an error is a negative [errno], and [errno] is its opposite;
    [btf__type_by_id] is [NULL] and sets it.  No chain of anonymous members is
    longer than the number of types. *)
Class Btf : Type := {
  btf__find_by_name : string -> res Z;
  btf__find_by_name_kind : string -> Z -> res Z;
  btf__type_by_id : Z -> res btf_type;
  btf__type_cnt : nat
}.

Definition BTF_MEMBER_BIT_OFFSET (val : Z) : Z := Z.land val 0xffffff.
Definition _bf_btf_type_is_compound (type : btf_type) : bool :=
  (bt_kind type =? BTF_KIND_UNION) || (bt_kind type =? BTF_KIND_STRUCT).

Section Lookups.
Context `{Btf}.

Definition bf_btf_get_id (name : string) : res Z :=
  match btf__find_by_name name with
  | Ok id => Ok id
  | Err e => Err (bf_err_r (- e))
  end.

Definition member_is_struct (m : btf_member) (type : btf_type) : bool :=
  (bt_kind type =? BTF_KIND_STRUCT) && bf_streq (Some (bm_name m)) (Some EmptyString).

(** The loop on the anonymous structures of [union bpf_attr]. *)
Fixpoint has_token_loop (members : list btf_member) : res unit :=
  match members with
  | [] => Err (- ENOENT)
  | m :: members =>
      match btf__type_by_id (bm_type m) with
      | Err _ => Err (- BF_CRASH)
      | Ok type =>
          if member_is_struct m type &&
             existsb (fun m => bf_streq (Some (bm_name m)) (Some "prog_token_fd"%string)) (bt_members type)
          then Ok tt else has_token_loop members
      end
  end.

Definition bf_btf_kernel_has_token : res unit :=
  let! id := btf__find_by_name_kind "bpf_attr" BTF_KIND_UNION in
  match btf__type_by_id id with
  | Err _ => Err (- EINVAL)
  | Ok type => has_token_loop (bt_members type)
  end.

(** The offset of a member, in bits. *)
Definition member_offset (kflag : bool) (m : btf_member) : Z :=
  if kflag then BTF_MEMBER_BIT_OFFSET (bm_offset m) else bm_offset m.

(** The loop on the members; [rec] is the call for an anonymous one. *)
Fixpoint offset_in_members (rec : Z -> res Z) (kflag : bool) (field_name : string) (members : list btf_member) : res Z :=
  match members with
  | [] => Err (- EINVAL)
  | m :: members =>
      let! member_type := btf__type_by_id (bm_type m) in
      if bf_streq (Some (bm_name m)) (Some EmptyString) && _bf_btf_type_is_compound member_type then
        match rec (bm_type m) with
        | Err e => if e =? - BF_CRASH then Err e else offset_in_members rec kflag field_name members
        | Ok offset =>
            if negb (BTF_MEMBER_BIT_OFFSET (bm_offset m) mod 8 =? 0) then Err (- ENOTSUP)
            else Ok (offset + member_offset kflag m)
        end
      else if negb (bf_streq (Some (bm_name m)) (Some field_name)) then offset_in_members rec kflag field_name members
      else Ok (member_offset kflag m)
  end.

(** The recursion is as deep as anonymous members are nested. *)
Fixpoint _bf_btf_offset_in_compound (fuel : nat) (field_name : string) (compound_id : Z) : res Z :=
  match fuel with
  | O => Err (- BF_CRASH)
  | S fuel =>
      let! type := btf__type_by_id compound_id in
      if negb (_bf_btf_type_is_compound type) then Err (- ENOTSUP)
      else offset_in_members (_bf_btf_offset_in_compound fuel field_name) (bt_kflag type) field_name (bt_members type)
  end.

Definition _bf_btf_get_compound_type_id (name : string) : res Z :=
  match btf__find_by_name_kind name BTF_KIND_STRUCT with
  | Ok id => Ok id
  | Err e => if e =? - ENOENT then btf__find_by_name_kind name BTF_KIND_UNION else Err e
  end.

Definition bf_btf_get_field_off (struct_name field_name : string) : res Z :=
  let! id := _bf_btf_get_compound_type_id struct_name in
  let! offset := _bf_btf_offset_in_compound btf__type_cnt field_name id in
  if negb (offset mod 8 =? 0) then Err (- EINVAL)
  else if INT_MAX <? offset / 8 then Err (- E2BIG)
  else Ok (offset / 8).
End Lookups.

(** * Reference: where a field is *)

Section Fields.
Context `{Btf}.

(** A field is a member of the compound, or of one of its anonymous members. *)
Inductive field_at (f : string) : Z -> Z -> Prop :=
| field_here id type m : btf__type_by_id id = Ok type -> _bf_btf_type_is_compound type = true ->
    m ∈ bt_members type -> bm_name m = f -> field_at f id (member_offset (bt_kflag type) m)
| field_nested id type m off : btf__type_by_id id = Ok type -> _bf_btf_type_is_compound type = true ->
    m ∈ bt_members type -> bm_name m = EmptyString ->
    BTF_MEMBER_BIT_OFFSET (bm_offset m) mod 8 = 0 ->
    field_at f (bm_type m) off -> field_at f id (off + member_offset (bt_kflag type) m).

Lemma offset_in_members_ok rec kflag f members off : offset_in_members rec kflag f members = Ok off ->
  exists m, m ∈ members /\
    ((bm_name m = f /\ off = member_offset kflag m) \/
     (bm_name m = EmptyString /\ BTF_MEMBER_BIT_OFFSET (bm_offset m) mod 8 = 0 /\
      exists o, rec (bm_type m) = Ok o /\ off = o + member_offset kflag m)).
Proof.
  induction members as [|m members IH]; cbn [offset_in_members]; [done|].
  destruct (btf__type_by_id (bm_type m)) as [mt|]; cbn [rbind]; [|done].
  assert (offset_in_members rec kflag f members = Ok off -> exists m0, m0 ∈ m :: members /\
    ((bm_name m0 = f /\ off = member_offset kflag m0) \/
     (bm_name m0 = EmptyString /\ BTF_MEMBER_BIT_OFFSET (bm_offset m0) mod 8 = 0 /\
      exists o, rec (bm_type m0) = Ok o /\ off = o + member_offset kflag m0))) as Hrest.
  { intros (m0 & Hin & Hm0)%IH. exists m0. split; [by apply list_elem_of_further|done]. }
  destruct (bf_streq (Some (bm_name m)) (Some EmptyString) && _bf_btf_type_is_compound mt) eqn:E.
  - apply andb_true_iff in E as [En _]. apply bf_streq_some in En.
    destruct (rec (bm_type m)) as [o|e] eqn:Er.
    + destruct (Z.eqb_spec (BTF_MEMBER_BIT_OFFSET (bm_offset m) mod 8) 0); [|done]. cbn [negb].
      intros [= <-]. exists m. split; [by apply list_elem_of_here|]. right. split_and!; [done|done|by exists o].
    + destruct (e =? - BF_CRASH); [done|exact Hrest].
  - destruct (bf_streq (Some (bm_name m)) (Some f)) eqn:En; cbn [negb]; [|exact Hrest].
    apply bf_streq_some in En. intros [= <-]. exists m. split; [by apply list_elem_of_here|by left].
Qed.

Lemma offset_in_compound_ok fuel f id off : _bf_btf_offset_in_compound fuel f id = Ok off -> field_at f id off.
Proof.
  revert id off. induction fuel as [|fuel IH]; intros id off; cbn [_bf_btf_offset_in_compound]; [done|].
  destruct (btf__type_by_id id) as [type|] eqn:Et; cbn [rbind]; [|done].
  destruct (_bf_btf_type_is_compound type) eqn:Ec; cbn [negb]; [|done].
  intros (m & Hin & [[Hn ->] | (Hn & Ha & o & Ho & ->)])%offset_in_members_ok.
  - by eapply field_here.
  - eapply field_nested; [done..|]. by apply IH.
Qed.

(** The offset is the one of a field, in bytes, and fits an [int]. *)
Lemma bf_btf_get_field_off_ok s f off : bf_btf_get_field_off s f = Ok off ->
  off <= INT_MAX /\ exists id, _bf_btf_get_compound_type_id s = Ok id /\ field_at f id (8 * off).
Proof.
  unfold bf_btf_get_field_off. destruct (_bf_btf_get_compound_type_id s) as [id|]; cbn [rbind]; [|done].
  destruct (_bf_btf_offset_in_compound btf__type_cnt f id) as [o|] eqn:E; cbn [rbind]; [|done].
  destruct (Z.eqb_spec (o mod 8) 0) as [Hm|]; [|done]. cbn [negb].
  destruct (Z.ltb_spec INT_MAX (o / 8)); [done|]. intros [= <-]. split; [done|].
  exists id. split; [done|]. rewrite <- Z_div_exact_full_2 by lia. by eapply offset_in_compound_ok.
Qed.

(** ** The recursion ends *)

(** Anonymous members are nested in no more levels than there are types. *)
Context (rank : Z -> nat)
  (Hrank : forall id type m mt, btf__type_by_id id = Ok type -> m ∈ bt_members type ->
     btf__type_by_id (bm_type m) = Ok mt -> _bf_btf_type_is_compound mt = true -> bm_name m = EmptyString ->
     (rank (bm_type m) < rank id)%nat)
  (Hcnt : forall id, (rank id < btf__type_cnt)%nat)
  (Herr : forall id, btf__type_by_id id <> Err (- BF_CRASH)).

Lemma offset_in_members_ends rec kflag f members :
  (forall m mt, m ∈ members -> btf__type_by_id (bm_type m) = Ok mt -> _bf_btf_type_is_compound mt = true ->
     bm_name m = EmptyString -> rec (bm_type m) <> Err (- BF_CRASH)) ->
  offset_in_members rec kflag f members <> Err (- BF_CRASH).
Proof using Herr.
  induction members as [|m members IH]; intros Hrec; cbn [offset_in_members]; [done|].
  assert (offset_in_members rec kflag f members <> Err (- BF_CRASH)) as Hrest.
  { apply IH. intros m' mt Hin. apply Hrec. by apply list_elem_of_further. }
  pose proof (Herr (bm_type m)) as He. destruct (btf__type_by_id (bm_type m)) as [mt|e] eqn:Et; cbn [rbind].
  - destruct (bf_streq (Some (bm_name m)) (Some EmptyString) && _bf_btf_type_is_compound mt) eqn:E.
    + apply andb_true_iff in E as [En Ec]. apply bf_streq_some in En.
      pose proof (Hrec m mt ltac:(by apply list_elem_of_here) Et Ec En) as Hr.
      destruct (rec (bm_type m)) as [o|e].
      * by destruct (BTF_MEMBER_BIT_OFFSET (bm_offset m) mod 8 =? 0).
      * destruct (Z.eqb_spec e (- BF_CRASH)) as [->|]; [done|exact Hrest].
    + by destruct (negb (bf_streq (Some (bm_name m)) (Some f))).
  - congruence.
Qed.

Lemma offset_in_compound_ends fuel f id : (rank id < fuel)%nat ->
  _bf_btf_offset_in_compound fuel f id <> Err (- BF_CRASH).
Proof using Herr Hrank.
  revert id. induction fuel as [|fuel IH]; intros id Hf; [lia|]. cbn [_bf_btf_offset_in_compound].
  pose proof (Herr id) as He. destruct (btf__type_by_id id) as [type|e] eqn:Et; cbn [rbind]; [|congruence].
  destruct (negb (_bf_btf_type_is_compound type)); [done|]. apply offset_in_members_ends.
  intros m mt Hin Emt Hc Hn. apply IH. pose proof (Hrank id type m mt Et Hin Emt Hc Hn). lia.
Qed.
End Fields.
