(* ===== verification/Program.v ===== *)
(** The program being generated: [struct bf_program] of
    [src/bpfilter/cgen/program.h], the growth of its image, the emission of
    instructions and fixups, jump contexts ([jmp.h], [jmp.c]) and the
    resolution of fixups ([_bf_program_fixup]).

    A generator is a state-and-error computation [gen A] over the program; the
    [EMIT*] macros return the error of the call from the enclosing function,
    which is the monad's bind.  On error the C code frees the program, so no
    state is kept.  Reallocation is assumed to succeed, and the
    [bf_assert]s of the fixup code are not compiled in: the offset is
    converted to 16 bits. *)

From S2P Require Import Prelude Bpf Helper Hook Hookopts Matcher BfSet Sys Map Rule Chain.
From S2P Require Import Printer Btf.

(** * Fixups *)

Inductive bf_fixup_type : Type :=
| BF_FIXUP_TYPE_JMP_NEXT_RULE
| BF_FIXUP_TYPE_COUNTERS_MAP_FD
| BF_FIXUP_TYPE_PRINTER_MAP_FD
| BF_FIXUP_TYPE_LOG_MAP_FD
| BF_FIXUP_TYPE_SET_MAP_FD
| BF_FIXUP_ELFSTUB_CALL.

#[global] Instance bf_fixup_type_eq_dec : EqDecision bf_fixup_type.
Proof. solve_decision. Defined.

Inductive bf_elfstub_id : Type :=
| BF_ELFSTUB_PARSE_IPV6_EH
| BF_ELFSTUB_PARSE_IPV6_NH
| BF_ELFSTUB_UPDATE_COUNTERS
| BF_ELFSTUB_LOG.

#[global] Instance bf_elfstub_id_eq_dec : EqDecision bf_elfstub_id.
Proof. solve_decision. Defined.

(** The union of the set index and the stub; it is zero when not given. *)
Inductive bf_fixup_attr : Type :=
| AttrNone
| AttrSet (set_index : nat)
| AttrStub (id : bf_elfstub_id).

Record bf_fixup : Type := mk_fixup {
  fixup_type : bf_fixup_type;
  fixup_insn : nat;
  fixup_attr : bf_fixup_attr
}.

Definition bf_fixup_new (type : bf_fixup_type) (insn_offset : nat) (attr : bf_fixup_attr) : bf_fixup :=
  mk_fixup type insn_offset attr.

(** * The program *)

(** [elfstubs_location] maps a stub to its first instruction, 0 when it has
    not been generated.  The file descriptors are those of the maps: -1 until
    they are created. *)
Record bf_program : Type := mk_program {
  prog_flavor : bf_flavor;
  prog_chain : bf_chain;
  prog_printer : bf_printer;
  prog_cmap : bf_map;
  prog_pmap : bf_map;
  prog_lmap : bf_map;
  prog_sets : list bf_map;
  prog_link : bf_link;
  elfstubs_location : bf_elfstub_id -> nat;
  prog_img : list bpf_insn;
  prog_img_cap : Z;
  prog_fixups : list bf_fixup;
  prog_fd : Z
}.

Definition prog_cmap_fd (p : bf_program) : Z := map_fd (prog_cmap p).
Definition prog_pmap_fd (p : bf_program) : Z := map_fd (prog_pmap p).
Definition prog_lmap_fd (p : bf_program) : Z := map_fd (prog_lmap p).
Definition prog_sets_fd (p : bf_program) : list Z := map_fd <$> prog_sets p.

Definition img_size (p : bf_program) : nat := length (prog_img p).

Definition with_img (p : bf_program) (img : list bpf_insn) (cap : Z) (fx : list bf_fixup) : bf_program :=
  mk_program (prog_flavor p) (prog_chain p) (prog_printer p) (prog_cmap p) (prog_pmap p) (prog_lmap p) (prog_sets p) (prog_link p)
             (elfstubs_location p) img cap fx (prog_fd p).

Definition with_printer (p : bf_program) (pr : bf_printer) : bf_program :=
  mk_program (prog_flavor p) (prog_chain p) pr (prog_cmap p) (prog_pmap p) (prog_lmap p) (prog_sets p) (prog_link p)
             (elfstubs_location p) (prog_img p) (prog_img_cap p) (prog_fixups p) (prog_fd p).

Definition with_stub (p : bf_program) (id : bf_elfstub_id) (loc : nat) : bf_program :=
  mk_program (prog_flavor p) (prog_chain p) (prog_printer p) (prog_cmap p) (prog_pmap p) (prog_lmap p) (prog_sets p) (prog_link p)
             (fun i => if decide (i = id) then loc else elfstubs_location p i)
             (prog_img p) (prog_img_cap p) (prog_fixups p) (prog_fd p).

(** The maps, the link and the program's descriptor. *)
Definition with_maps (p : bf_program) (cmap pmap lmap : bf_map) (sets : list bf_map) : bf_program :=
  mk_program (prog_flavor p) (prog_chain p) (prog_printer p) cmap pmap lmap sets (prog_link p)
             (elfstubs_location p) (prog_img p) (prog_img_cap p) (prog_fixups p) (prog_fd p).
Definition with_link (p : bf_program) (link : bf_link) : bf_program :=
  mk_program (prog_flavor p) (prog_chain p) (prog_printer p) (prog_cmap p) (prog_pmap p) (prog_lmap p)
             (prog_sets p) link
             (elfstubs_location p) (prog_img p) (prog_img_cap p) (prog_fixups p) (prog_fd p).
Definition with_fd (p : bf_program) (fd : Z) : bf_program :=
  mk_program (prog_flavor p) (prog_chain p) (prog_printer p) (prog_cmap p) (prog_pmap p) (prog_lmap p) (prog_sets p) (prog_link p)
             (elfstubs_location p) (prog_img p) (prog_img_cap p) (prog_fixups p) fd.

Definition _BF_PROGRAM_DEFAULT_IMG_SIZE : Z := 64.

(** [program->img] is NULL exactly when the capacity is 0. *)
Definition bf_program_grow_img (p : bf_program) : bf_program :=
  let new_cap := if prog_img_cap p =? 0 then _BF_PROGRAM_DEFAULT_IMG_SIZE
                 else _bf_round_next_power_of_2 (u64 (Z.shiftl (prog_img_cap p) 1)) in
  with_img p (prog_img p) new_cap (prog_fixups p).

(** Room for one more instruction. *)
Definition ensure_cap (p : bf_program) : bf_program :=
  if Z.of_nat (img_size p) =? prog_img_cap p then bf_program_grow_img p else p.

(** [program->img[program->img_size++] = insn], once there is room. *)
Definition bf_program_emit (p : bf_program) (insn : bpf_insn) : bf_program :=
  let p := ensure_cap p in
  with_img p (prog_img p ++ [insn]) (prog_img_cap p) (prog_fixups p).

Definition add_fixup (p : bf_program) (fx : bf_fixup) : bf_program :=
  with_img p (prog_img p) (prog_img_cap p) (prog_fixups p ++ [fx]).

Definition bf_program_emit_fixup (p : bf_program) (type : bf_fixup_type) (insn : bpf_insn)
    (attr : bf_fixup_attr) : bf_program :=
  let p := ensure_cap p in
  bf_program_emit (add_fixup p (bf_fixup_new type (img_size p) attr)) insn.

Definition bf_program_emit_fixup_elfstub (p : bf_program) (id : bf_elfstub_id) : bf_program :=
  let p := ensure_cap p in
  bf_program_emit (add_fixup p (bf_fixup_new BF_FIXUP_ELFSTUB_CALL (img_size p) (AttrStub id)))
                  (BPF_CALL_REL 0).

(** * The generator monad *)

Definition gen (A : Type) : Type := bf_program -> res (A * bf_program).

#[global] Instance gen_ret : MRet gen := fun A a p => Ok (a, p).
#[global] Instance gen_bind : MBind gen :=
  fun A B k m p => match m p with Ok (a, p') => k a p' | Err e => Err e end.

Lemma gen_bind_ok {A B} (m : gen A) (k : A -> gen B) p b q : (m ≫= k) p = Ok (b, q) ->
  exists a p', m p = Ok (a, p') /\ k a p' = Ok (b, q).
Proof.
  unfold mbind, gen_bind. destruct (m p) as [[a p']|]; [|done]. intros E. by exists a, p'.
Qed.

Definition gen_err {A : Type} (e : Z) : gen A := fun _ => Err e.
Definition gen_get : gen bf_program := fun p => Ok (p, p).
Definition gen_lift {A : Type} (r : res A) : gen A :=
  fun p => match r with Ok a => Ok (a, p) | Err e => Err e end.

(** The first [n] bytes of the payload are read. *)
Definition payload_read (n : nat) (m : bf_matcher) : gen unit := gen_lift (payload_has n m).

Definition EMIT (insn : bpf_insn) : gen unit := fun p => Ok (tt, bf_program_emit p insn).
Definition EMIT_FIXUP (type : bf_fixup_type) (insn : bpf_insn) : gen unit :=
  fun p => Ok (tt, bf_program_emit_fixup p type insn AttrNone).
Definition EMIT_FIXUP_ELFSTUB (id : bf_elfstub_id) : gen unit :=
  fun p => Ok (tt, bf_program_emit_fixup_elfstub p id).
Definition EMIT_FIXUP_JMP_NEXT_RULE (insn : bpf_insn) : gen unit :=
  EMIT_FIXUP BF_FIXUP_TYPE_JMP_NEXT_RULE insn.

(** The two halves of [BPF_LD_MAP_FD(reg, 0)], the first with the fixup. *)
Definition emit_load_fd (type : bf_fixup_type) (reg : Z) (attr : bf_fixup_attr) : gen unit :=
  fun p =>
    match BPF_LD_MAP_FD reg 0 with
    | [i0; i1] => Ok (tt, bf_program_emit (bf_program_emit_fixup p type i0 attr) i1)
    | _ => Err (- EINVAL)
    end.

Definition EMIT_LOAD_COUNTERS_FD_FIXUP (reg : Z) : gen unit :=
  emit_load_fd BF_FIXUP_TYPE_COUNTERS_MAP_FD reg AttrNone.
Definition EMIT_LOAD_LOG_FD_FIXUP (reg : Z) : gen unit :=
  emit_load_fd BF_FIXUP_TYPE_LOG_MAP_FD reg AttrNone.
Definition EMIT_LOAD_SET_FD_FIXUP (reg : Z) (index : Z) : gen unit :=
  emit_load_fd BF_FIXUP_TYPE_SET_MAP_FD reg (AttrSet (Z.to_nat index)).

(** Emit every instruction of a list, in order. *)
Fixpoint emit_all (insns : list bpf_insn) : gen unit :=
  match insns with
  | [] => mret tt
  | i :: insns => EMIT i ;; emit_all insns
  end.

Definition BPF_PSEUDO_MAP_VALUE_LOAD (reg off : Z) : list bpf_insn :=
  match BPF_LD_MAP_FD reg 0 with
  | [i0; i1] => [mk_insn (insn_code i0) (insn_dst i0) BPF_PSEUDO_MAP_VALUE (insn_off i0) (insn_imm i0);
                 set_insn_imm (s32 off) i1]
  | l => l
  end.

Definition EMIT_PRINT (msg : string) : gen unit :=
  fun p =>
    let '(m, pr) := bf_printer_add_msg (prog_printer p) msg in
    let p := with_printer p pr in
    match BPF_PSEUDO_MAP_VALUE_LOAD BPF_REG_1 (bf_printer_msg_offset m) with
    | [i0; i1] =>
        let p := bf_program_emit_fixup p BF_FIXUP_TYPE_PRINTER_MAP_FD i0 AttrNone in
        let p := bf_program_emit p i1 in
        let p := bf_program_emit p (BPF_MOV64_IMM BPF_REG_2 (bf_printer_msg_len m)) in
        Ok (tt, bf_program_emit p (BPF_EMIT_CALL BPF_FUNC_trace_printk))
    | _ => Err (- EINVAL)
    end.

(** * Jump contexts *)

(** [bf_jmpctx_get]: emit the jump and remember where it is. *)
Definition bf_jmpctx_get (insn : bpf_insn) : gen nat :=
  fun p => Ok (img_size p, bf_program_emit p insn).

(** Point the jump at the end of the image; the offset is stored in 16 bits. *)
Definition bf_jmpctx_cleanup (insn_idx : nat) : gen unit :=
  fun p =>
    let off := Z.of_nat (img_size p) - Z.of_nat insn_idx - 1 in
    Ok (tt, with_img p (alter (set_insn_off (s16 off)) insn_idx (prog_img p))
                     (prog_img_cap p) (prog_fixups p)).

(** A [_clean_bf_jmpctx_] variable in a scope. *)
Definition with_jmpctx (insn : bpf_insn) (body : gen unit) : gen unit :=
  idx ← bf_jmpctx_get insn; body ;; bf_jmpctx_cleanup idx.

(** * Resolving fixups *)

Inductive bf_fixup_insn : Type := BF_FIXUP_INSN_OFF | BF_FIXUP_INSN_IMM.

Definition _bf_program_fixup_insn (insn : bpf_insn) (type : bf_fixup_insn) (value : Z) : bpf_insn :=
  match type with
  | BF_FIXUP_INSN_OFF => set_insn_off (s16 value) insn
  | BF_FIXUP_INSN_IMM => set_insn_imm value insn
  end.

(** Which field of the instruction a fixup sets, and to what. *)
Definition fixup_value (p : bf_program) (fx : bf_fixup) : res (bf_fixup_insn * Z) :=
  match fixup_type fx with
  | BF_FIXUP_TYPE_JMP_NEXT_RULE =>
      Ok (BF_FIXUP_INSN_OFF, s32 (Z.of_nat (img_size p) - Z.of_nat (fixup_insn fx) - 1))
  | BF_FIXUP_TYPE_COUNTERS_MAP_FD => Ok (BF_FIXUP_INSN_IMM, prog_cmap_fd p)
  | BF_FIXUP_TYPE_PRINTER_MAP_FD => Ok (BF_FIXUP_INSN_IMM, prog_pmap_fd p)
  | BF_FIXUP_TYPE_LOG_MAP_FD => Ok (BF_FIXUP_INSN_IMM, prog_lmap_fd p)
  | BF_FIXUP_TYPE_SET_MAP_FD =>
      let idx := match fixup_attr fx with AttrSet i => i | _ => O end in
      match prog_sets_fd p !! idx with
      | Some fd => Ok (BF_FIXUP_INSN_IMM, fd)
      | None => Err (- ENOENT)
      end
  | BF_FIXUP_ELFSTUB_CALL =>
      let id := match fixup_attr fx with AttrStub i => i | _ => BF_ELFSTUB_PARSE_IPV6_EH end in
      let offset := u64 (Z.of_nat (elfstubs_location p id) - Z.of_nat (fixup_insn fx) - 1) in
      if INT_MAX <=? offset then Err (- EINVAL) else Ok (BF_FIXUP_INSN_IMM, offset)
  end.

Definition apply_fixup (p : bf_program) (fx : bf_fixup) : res bf_program :=
  let! v := fixup_value p fx in
  let '(it, value) := v in
  Ok (with_img p (alter (fun i => _bf_program_fixup_insn i it value) (fixup_insn fx) (prog_img p))
               (prog_img_cap p) (prog_fixups p)).

(** The fixups of the given type are applied in order and deleted from the
    list; [kept] are those walked over so far. *)
Fixpoint fixup_loop (type : bf_fixup_type) (todo kept : list bf_fixup) (p : bf_program) :
    res bf_program :=
  match todo with
  | [] => Ok (with_img p (prog_img p) (prog_img_cap p) kept)
  | fx :: todo =>
      if decide (type = fixup_type fx)
      then let! p := apply_fixup p fx in fixup_loop type todo kept p
      else fixup_loop type todo (kept ++ [fx]) p
  end.

Definition _bf_program_fixup (p : bf_program) (type : bf_fixup_type) : res bf_program :=
  fixup_loop type (prog_fixups p) [] p.

Definition gen_fixup (type : bf_fixup_type) : gen unit :=
  fun p => let! p := _bf_program_fixup p type in Ok (tt, p).

(** * Chain counters *)

Definition bf_program_chain_counter_idx (p : bf_program) : Z :=
  Z.of_nat (length (chain_rules (prog_chain p))).
Definition bf_program_error_counter_idx (p : bf_program) : Z :=
  Z.of_nat (length (chain_rules (prog_chain p))) + 1.

(** * What generation relies on outside the source

    [Btf] reads the types of the kernel; [bf_ctx_get_elfstub] returns a stub
    that was read when the daemon started; the verbose flag is a command line
    option. *)

Record bf_printk_str : Type := mk_printk { printk_insn_idx : nat; printk_str : string }.
Record bf_elfstub : Type := mk_elfstub { stub_insns : list bpf_insn; stub_strs : list bf_printk_str }.

Class CgenEnv : Type := {
  #[global] cgen_btf :: Btf;
  bf_ctx_get_elfstub : bf_elfstub_id -> option bf_elfstub;
  bf_opts_is_verbose_bpf : bool
}.

Definition bf_program_emit_kfunc_call `{CgenEnv} (name : string) : gen unit :=
  id ← gen_lift (bf_btf_get_id name);
  EMIT (mk_insn (Z.lor BPF_JMP BPF_CALL) 0 BPF_PSEUDO_KFUNC_CALL 0 (s32 id)).

(** * The runtime context on the stack *)

Definition sizeof_bf_runtime : Z := 240.

Inductive rt_field : Type :=
| RT_arg | RT_dynptr | RT_log_map | RT_pkt_size | RT_ipv6_eh | RT_l2_size | RT_l3_size | RT_l4_size
| RT_l3_offset | RT_l4_offset | RT_ifindex | RT_l2_hdr | RT_l3_hdr | RT_l4_hdr
| RT_l2 | RT_l3 | RT_l4 | RT_scratch.

Definition offsetof_bf_runtime (f : rt_field) : Z :=
  match f with
  | RT_arg => 0 | RT_dynptr => 8 | RT_log_map => 24 | RT_pkt_size => 32
  | RT_ipv6_eh => 40 | RT_l2_size => 41 | RT_l3_size => 42 | RT_l4_size => 43
  | RT_l3_offset => 48 | RT_l4_offset => 56 | RT_ifindex => 64
  | RT_l2_hdr => 72 | RT_l3_hdr => 80 | RT_l4_hdr => 88
  | RT_l2 => 96 | RT_l3 => 112 | RT_l4 => 152 | RT_scratch => 176
  end.

(** The slice of a header, and what the context has of it. *)
Definition slice_len (hdr : bf_pkthdr) : nat :=
  match hdr with BF_PKTHDR_LINK => 16 | BF_PKTHDR_INTERNET => 40 | BF_PKTHDR_TRANSPORT => 24 end.
Definition hdr_ptr (hdr : bf_pkthdr) : rt_field :=
  match hdr with BF_PKTHDR_LINK => RT_l2_hdr | BF_PKTHDR_INTERNET => RT_l3_hdr | BF_PKTHDR_TRANSPORT => RT_l4_hdr end.
Definition hdr_size (hdr : bf_pkthdr) : rt_field :=
  match hdr with BF_PKTHDR_LINK => RT_l2_size | BF_PKTHDR_INTERNET => RT_l3_size | BF_PKTHDR_TRANSPORT => RT_l4_size end.

Definition BF_PROG_CTX_OFF (f : rt_field) : Z := - sizeof_bf_runtime + offsetof_bf_runtime f.
Definition BF_PROG_SCR_OFF (index : Z) : Z := - sizeof_bf_runtime + offsetof_bf_runtime RT_scratch + index.
