(* ===== verification/Elf.v ===== *)
(** The objects of the ELF stubs, as the daemon reads them when it starts:
    [src/bpfilter/cgen/elfstub.c].  An object is the list of its bytes; a read
    outside of it, or outside of the instructions of the stub, is [BF_CRASH].

    The strings of [bpf_printk] are read here; the code keeps pointers into the
    object and reads them when it generates a program. *)

From S2P Require Import Prelude Helper Bpf Btf Program.
From Stdlib Require Import Ascii.

(** * Reading *)

Definition elf_bytes (raw : list Z) (o n : Z) : res (list Z) :=
  if (0 <=? o) && (o + n <=? Z.of_nat (length raw)) then Ok (sub_bytes (Z.to_nat o) (Z.to_nat n) raw)
  else Err (- BF_CRASH).
Definition elf_rd (raw : list Z) (o n : Z) : res Z := let! bs := elf_bytes raw o n in Ok (le_combine bs).

(** [bf_streq] of the string at [o] and a literal. *)
Fixpoint streq_at (raw : list Z) (o : Z) (s : string) : res bool :=
  let! b := elf_rd raw o 1 in
  match s with
  | EmptyString => Ok (b =? 0)
  | String c s => if b =? Z.of_nat (nat_of_ascii c) then streq_at raw (o + 1) s else Ok false
  end.

(** The string at [o]; [fuel] bounds its length by the one of the object. *)
Fixpoint cstr_from (raw : list Z) (o : Z) (fuel : nat) : res string :=
  match fuel with
  | O => Err (- BF_CRASH)
  | S fuel =>
      let! b := elf_rd raw o 1 in
      if b =? 0 then Ok EmptyString
      else let! s := cstr_from raw (o + 1) fuel in Ok (String (ascii_of_nat (Z.to_nat b)) s)
  end.
Definition cstr_at (raw : list Z) (o : Z) : res string := cstr_from raw o (length raw).

(** * ELF *)

Definition sizeof_Elf64_Ehdr : Z := 64.
Definition sizeof_Elf64_Shdr : Z := 64.
Definition sizeof_Elf64_Sym : Z := 24.
Definition sizeof_Elf64_Rel : Z := 16.
Definition ELFMAG : list Z := [0x7f; 0x45; 0x4c; 0x46].
Definition ELFCLASS64 : Z := 2.
Definition SHT_SYMTAB : Z := 2.
Definition SHT_REL : Z := 9.
Definition R_BPF_64_64 : Z := 1.
Definition R_BPF_64_32 : Z := 10.

Definition e_shoff (raw : list Z) : res Z := elf_rd raw 40 8.
Definition e_shentsize (raw : list Z) : res Z := elf_rd raw 58 2.
Definition e_shnum (raw : list Z) : res Z := elf_rd raw 60 2.
Definition e_shstrndx (raw : list Z) : res Z := elf_rd raw 62 2.

(** A section header is where it is in the object. *)
Definition sh_name (raw : list Z) (sh : Z) : res Z := elf_rd raw sh 4.
Definition sh_type (raw : list Z) (sh : Z) : res Z := elf_rd raw (sh + 4) 4.
Definition sh_offset (raw : list Z) (sh : Z) : res Z := elf_rd raw (sh + 24) 8.
Definition sh_size (raw : list Z) (sh : Z) : res Z := elf_rd raw (sh + 32) 8.
Definition sh_link (raw : list Z) (sh : Z) : res Z := elf_rd raw (sh + 40) 4.
Definition sh_info (raw : list Z) (sh : Z) : res Z := elf_rd raw (sh + 44) 4.

(** The table of section headers: its offset, its length, and the names. *)
Record elf : Type := mk_elf { elf_shdrs : Z; elf_shnum : Z; elf_strtab : Z }.

Definition shdr (e : elf) (i : Z) : Z := elf_shdrs e + sizeof_Elf64_Shdr * i.
Definition shdrs (e : elf) : list Z := (fun i => shdr e (Z.of_nat i)) <$> seq 0 (Z.to_nat (elf_shnum e)).

Definition sh_named (raw : list Z) (e : elf) (sh : Z) (name : string) : res bool :=
  let! n := sh_name raw sh in streq_at raw (elf_strtab e + n) name.

Definition elf_open (raw : list Z) : res elf :=
  let len := Z.of_nat (length raw) in
  if len <? sizeof_Elf64_Ehdr then Err (- EINVAL) else
  if negb (bool_decide (sub_bytes 0 4 raw = ELFMAG)) then Err (- EINVAL) else
  let! class := elf_rd raw 4 1 in
  if negb (class =? ELFCLASS64) then Err (- ENOTSUP) else
  let! shoff := e_shoff raw in
  let! shentsize := e_shentsize raw in
  if (len <=? shoff) || negb (shentsize =? sizeof_Elf64_Shdr) then Err (- EINVAL) else
  let! shnum := e_shnum raw in
  let! shstrndx := e_shstrndx raw in
  if shnum <=? shstrndx then Err (- EINVAL) else
  let! strtab := sh_offset raw (shoff + sizeof_Elf64_Shdr * shstrndx) in
  if len <=? strtab then Err (- EINVAL) else Ok (mk_elf shoff shnum strtab).

(** * Instructions *)

Definition elf_insn (bs : list Z) : bpf_insn :=
  let regs := default 0 (bs !! 1%nat) in
  mk_insn (default 0 (bs !! 0%nat)) (regs mod 16) (regs / 16)
    (s16 (le_combine (sub_bytes 2 2 bs))) (s32 (le_combine (sub_bytes 4 4 bs))).

Definition elf_insns (bs : list Z) : list bpf_insn :=
  (fun i => elf_insn (sub_bytes (8 * i) 8 bs)) <$> seq 0 (length bs / 8).

(** The section [.text]; the sum of its offset and its size wraps around. *)
Fixpoint find_text (raw : list Z) (e : elf) (shs : list Z) : res (list Z) :=
  match shs with
  | [] => Err (- ENOENT)
  | sh :: shs =>
      let! found := sh_named raw e sh ".text" in
      if negb found then find_text raw e shs else
      let! offset := sh_offset raw sh in
      let! size := sh_size raw sh in
      if Z.of_nat (length raw) <? u64 (offset + size) then Err (- EINVAL)
      else elf_bytes raw offset size
  end.

(** * Tables *)

(** The symbols, the names of the symbols, and [.rodata]: section headers. *)
Record tables : Type := mk_tables { t_symtab : option Z; t_symstrtab : option Z; t_rodata : option Z }.

Fixpoint find_tables (raw : list Z) (e : elf) (shs : list Z) (t : tables) : res tables :=
  match shs with
  | [] => Ok t
  | sh :: shs =>
      let! type := sh_type raw sh in
      if type =? SHT_SYMTAB then
        let! link := sh_link raw sh in
        find_tables raw e shs (mk_tables (Some sh)
          (if link <? elf_shnum e then Some (shdr e link) else t_symstrtab t) (t_rodata t))
      else
        let! found := sh_named raw e sh ".rodata" in
        find_tables raw e shs (if found then mk_tables (t_symtab t) (t_symstrtab t) (Some sh) else t)
  end.

(** What the relocations use: the symbols and their number, the names and their
    size, and [.rodata]. *)
Record symbols : Type := mk_symbols {
  s_offset : Z; s_count : Z; s_strtab : Z; s_strsize : Z; s_rodata : option Z
}.

Definition find_symbols (raw : list Z) (e : elf) : res symbols :=
  let! t := find_tables raw e (shdrs e) (mk_tables None None None) in
  match t_symtab t, t_symstrtab t with
  | Some symtab, Some symstrtab =>
      let! offset := sh_offset raw symtab in
      let! strtab := sh_offset raw symstrtab in
      let! size := sh_size raw symtab in
      let! strsize := sh_size raw symstrtab in
      Ok (mk_symbols offset (size / sizeof_Elf64_Sym) strtab strsize (t_rodata t))
  | _, _ => Err (- ENOENT)
  end.

(** * Relocations *)

Definition kfunc_call (id : Z) : bpf_insn := mk_insn (Z.lor BPF_JMP BPF_CALL) 0 BPF_PSEUDO_KFUNC_CALL 0 (s32 id).

Section Link.
Context `{Btf} (raw : list Z).

(** The relocation at the offset [rel]. *)
Definition relocate (s : symbols) (rel : Z) (stub : bf_elfstub) : res bf_elfstub :=
  let insns := stub_insns stub in
  let! info := elf_rd raw (rel + 8) 8 in
  let type := info mod 2 ^ 32 in
  let sym_idx := info / 2 ^ 32 in
  if (type =? R_BPF_64_32) && (sym_idx <? s_count s) then
    let! name_idx := elf_rd raw (s_offset s + sizeof_Elf64_Sym * sym_idx) 4 in
    if name_idx <? s_strsize s then
      let! name := cstr_at raw (s_strtab s + name_idx) in
      let! id := bf_btf_get_id name in
      let! r_offset := elf_rd raw rel 8 in
      let idx := Z.to_nat (r_offset / 8) in
      if (idx <? length insns)%nat then Ok (mk_elfstub (<[idx := kfunc_call id]> insns) (stub_strs stub))
      else Err (- BF_CRASH)
    else Ok stub
  else
    match s_rodata s with
    | Some rodata =>
        if type =? R_BPF_64_64 then
          let! r_offset := elf_rd raw rel 8 in
          let insn_idx := Z.to_nat (r_offset / 8) in
          match insns !! insn_idx with
          | None => Err (- BF_CRASH)
          | Some insn =>
              let! offset := sh_offset raw rodata in
              let! str := cstr_at raw (u64 (offset + insn_imm insn)) in
              Ok (mk_elfstub insns (stub_strs stub ++ [mk_printk insn_idx str]))
          end
        else Ok stub
    | None => Ok stub
    end.

Fixpoint relocate_all (s : symbols) (rel : Z) (n : nat) (stub : bf_elfstub) : res bf_elfstub :=
  match n with
  | O => Ok stub
  | S n => let! stub := relocate s rel stub in relocate_all s (rel + sizeof_Elf64_Rel) n stub
  end.

(** The relocations of a section apply to [.text]: it says so, or does not say. *)
Definition rel_applies (e : elf) (sh : Z) : res bool :=
  let! type := sh_type raw sh in
  if negb (type =? SHT_REL) then Ok false else
  let! info := sh_info raw sh in
  if info =? 0 then Ok true else sh_named raw e (shdr e info) ".text".

Fixpoint relocate_sections (e : elf) (s : symbols) (shs : list Z) (stub : bf_elfstub) : res bf_elfstub :=
  match shs with
  | [] => Ok stub
  | sh :: shs =>
      let! applies := rel_applies e sh in
      if negb applies then relocate_sections e s shs stub else
      let! offset := sh_offset raw sh in
      let! size := sh_size raw sh in
      let! stub := relocate_all s offset (Z.to_nat (size / sizeof_Elf64_Rel)) stub in
      relocate_sections e s shs stub
  end.

Definition _bf_elfstub_prepare : res bf_elfstub :=
  let! e := elf_open raw in
  let! text := find_text raw e (shdrs e) in
  let! s := find_symbols raw e in
  relocate_sections e s (shdrs e) (mk_elfstub (elf_insns text) []).

Definition bf_elfstub_new : res bf_elfstub := _bf_elfstub_prepare.
End Link.

(** The stubs of the context, in the order of their identifiers. *)
Definition bf_elfstub_ids : list bf_elfstub_id :=
  [BF_ELFSTUB_PARSE_IPV6_EH; BF_ELFSTUB_PARSE_IPV6_NH; BF_ELFSTUB_UPDATE_COUNTERS; BF_ELFSTUB_LOG].

Fixpoint elfstubs_new `{Btf} (raws : bf_elfstub_id -> list Z) (ids : list bf_elfstub_id) : res (list (bf_elfstub_id * bf_elfstub)) :=
  match ids with
  | [] => Ok []
  | id :: ids =>
      let! stub := bf_elfstub_new (raws id) in
      let! stubs := elfstubs_new raws ids in
      Ok ((id, stub) :: stubs)
  end.

(** * Reference: linking *)

Section Linked.
Context `{Btf} (raw : list Z).

(** What a call of a kernel function is linked with: its identifier. *)
Definition linked_id (name : string) : Z :=
  match btf__find_by_name name with Ok id => id | Err _ => 0 end.

(** The call that a relocation stands for: an instruction and a function. *)
Definition kfunc_of (s : symbols) (rel : Z) : option (nat * string) :=
  match elf_rd raw (rel + 8) 8, elf_rd raw rel 8 with
  | Ok info, Ok r_offset =>
      if (info mod 2 ^ 32 =? R_BPF_64_32) && (info / 2 ^ 32 <? s_count s) then
        match elf_rd raw (s_offset s + sizeof_Elf64_Sym * (info / 2 ^ 32)) 4 with
        | Ok name_idx =>
            if name_idx <? s_strsize s then
              match cstr_at raw (s_strtab s + name_idx) with
              | Ok name => Some (Z.to_nat (r_offset / 8), name)
              | Err _ => None
              end
            else None
        | Err _ => None
        end
      else None
  | _, _ => None
  end.

(** The relocations of [.text], in order. *)
Definition section_rels (offset size : Z) : list Z :=
  (fun j => offset + sizeof_Elf64_Rel * Z.of_nat j) <$> seq 0 (Z.to_nat (size / sizeof_Elf64_Rel)).

Fixpoint text_rels (e : elf) (shs : list Z) : res (list Z) :=
  match shs with
  | [] => Ok []
  | sh :: shs =>
      let! applies := rel_applies raw e sh in
      let! here := (if applies then
        let! offset := sh_offset raw sh in let! size := sh_size raw sh in Ok (section_rels offset size)
      else Ok []) in
      let! rest := text_rels e shs in
      Ok (here ++ rest)
  end.

Definition link (insns : list bpf_insn) (calls : list (nat * string)) : list bpf_insn :=
  foldl (fun insns call => <[call.1 := kfunc_call (linked_id call.2)]> insns) insns calls.

(** From the instructions and the strings of [stub] to those of [stub']. *)
Record links (stub stub' : bf_elfstub) (calls : list (nat * string)) : Prop := mk_links {
  lk_insns : stub_insns stub' = link (stub_insns stub) calls;
  lk_calls : Forall (fun call => call.1 < length (stub_insns stub))%nat calls;
  lk_found : Forall (fun call => bf_btf_get_id call.2 = Ok (linked_id call.2)) calls;
  lk_strs : exists strs, stub_strs stub' = stub_strs stub ++ strs /\
    Forall (fun str => printk_insn_idx str < length (stub_insns stub))%nat strs
}.

Lemma length_link insns calls : length (link insns calls) = length insns.
Proof.
  unfold link. revert insns. induction calls as [|call calls IH]; intros insns; [done|]. cbn [foldl].
  by rewrite IH, length_insert.
Qed.

(** Each instruction is that of the section, or a call. *)
Lemma link_other insns calls i : i ∉ calls.*1 -> link insns calls !! i = insns !! i.
Proof.
  unfold link. revert insns. induction calls as [|call calls IH]; intros insns; [done|].
  cbn [foldl fmap list_fmap]. rewrite not_elem_of_cons. intros [Hne Hin]. rewrite IH by done.
  by rewrite list_lookup_insert_ne.
Qed.

Lemma link_call insns calls i : i ∈ calls.*1 -> (i < length insns)%nat ->
  exists name, (i, name) ∈ calls /\ link insns calls !! i = Some (kfunc_call (linked_id name)).
Proof.
  intros Hin Hi. induction calls as [|[j name] calls IH] using rev_ind; [by apply elem_of_nil in Hin|].
  unfold link in *. rewrite foldl_app. cbn [foldl fst snd]. destruct (decide (i = j)) as [<-|Hne].
  - exists name. split; [by apply elem_of_app; right; apply list_elem_of_here|].
    apply list_lookup_insert_eq. fold (link insns calls). by rewrite length_link.
  - rewrite list_lookup_insert_ne by done. rewrite fmap_app, elem_of_app in Hin.
    destruct Hin as [Hin | Hin]; [|cbn in Hin; by apply list_elem_of_singleton in Hin].
    destruct (IH Hin) as (name' & Hn & E). exists name'. split; [by apply elem_of_app; left|done].
Qed.

Lemma links_refl stub : links stub stub [].
Proof. constructor; [done|by constructor..|]. exists []. by rewrite app_nil_r. Qed.

Lemma links_trans s1 s2 s3 c1 c2 : links s1 s2 c1 -> links s2 s3 c2 -> links s1 s3 (c1 ++ c2).
Proof.
  intros [I1 C1 F1 (x1 & X1 & L1)] [I2 C2 F2 (x2 & X2 & L2)]. rewrite I1, length_link in C2, L2. constructor.
  - unfold link in *. by rewrite foldl_app, <- I1.
  - by apply Forall_app.
  - by apply Forall_app.
  - exists (x1 ++ x2). split; [by rewrite X2, X1, app_assoc|by apply Forall_app].
Qed.

Lemma btf_get_id name id : bf_btf_get_id name = Ok id -> id = linked_id name.
Proof. unfold bf_btf_get_id, linked_id. destruct (btf__find_by_name name); congruence. Qed.

Lemma relocate_links s rel stub stub' : relocate raw s rel stub = Ok stub' ->
  links stub stub' (option_list (kfunc_of s rel)).
Proof.
  unfold relocate, kfunc_of. destruct (elf_rd raw (rel + 8) 8) as [info|]; cbn [rbind]; [|done].
  destruct ((info mod 2 ^ 32 =? R_BPF_64_32) && (info / 2 ^ 32 <? s_count s)) eqn:Ec.
  - destruct (elf_rd raw (s_offset s + sizeof_Elf64_Sym * (info / 2 ^ 32)) 4) as [name_idx|]; cbn [rbind]; [|done].
    destruct (name_idx <? s_strsize s); [|intros [= <-]; destruct (elf_rd raw rel 8); apply links_refl].
    destruct (cstr_at raw (s_strtab s + name_idx)) as [name|]; cbn [rbind]; [|done].
    destruct (bf_btf_get_id name) as [id|] eqn:Eid; cbn [rbind]; [|done]. pose proof (btf_get_id _ _ Eid) as ->.
    destruct (elf_rd raw rel 8) as [off|]; cbn [rbind]; [|done].
    destruct (Nat.ltb_spec (Z.to_nat (off / 8)) (length (stub_insns stub))); [|done]. intros [= <-].
    constructor; cbn [option_list stub_insns stub_strs]; [done|by repeat constructor..|].
    exists []. by rewrite app_nil_r.
  - assert (option_list (match elf_rd raw rel 8 with Ok _ | Err _ => None end) = @nil (nat * string)) as En
      by (by destruct (elf_rd raw rel 8)).
    replace (option_list _) with (@nil (nat * string)) by (by destruct (elf_rd raw rel 8)).
    destruct (s_rodata s) as [rodata|]; [|intros [= <-]; apply links_refl].
    destruct (info mod 2 ^ 32 =? R_BPF_64_64); [|intros [= <-]; apply links_refl].
    destruct (elf_rd raw rel 8) as [off|]; cbn [rbind]; [|done].
    destruct (stub_insns stub !! Z.to_nat (off / 8)) as [insn|] eqn:Ei; [|done].
    destruct (sh_offset raw rodata) as [o|]; cbn [rbind]; [|done].
    destruct (cstr_at raw (u64 (o + insn_imm insn))) as [str|]; cbn [rbind]; [|done]. intros [= <-].
    constructor; cbn [stub_insns stub_strs]; [done|by constructor..|].
    exists [mk_printk (Z.to_nat (off / 8)) str]. split; [done|]. repeat constructor. cbn.
    by eapply lookup_lt_Some.
Qed.

Lemma relocate_all_links s rel n stub stub' : relocate_all raw s rel n stub = Ok stub' ->
  links stub stub' (omap (kfunc_of s) ((fun j => rel + sizeof_Elf64_Rel * Z.of_nat j) <$> seq 0 n)).
Proof.
  revert rel stub. induction n as [|n IH]; intros rel stub; cbn [relocate_all seq fmap list_fmap omap list_omap].
  - intros [= <-]. apply links_refl.
  - destruct (relocate raw s rel stub) as [stub1|] eqn:E; cbn [rbind]; [|done]. intros Hall%IH.
    apply relocate_links in E. pose proof (links_trans _ _ _ _ _ E Hall) as Ht.
    rewrite Z.mul_0_r, Z.add_0_r. rewrite <- fmap_S_seq, <- list_fmap_compose.
    replace (((fun j => rel + sizeof_Elf64_Rel * Z.of_nat j) ∘ S) <$> seq 0 n)
      with ((fun j => rel + sizeof_Elf64_Rel + sizeof_Elf64_Rel * Z.of_nat j) <$> seq 0 n).
    + by destruct (kfunc_of s rel).
    + apply list_fmap_ext. intros i j _. unfold compose. lia.
Qed.

Lemma relocate_sections_links e s shs stub stub' : relocate_sections raw e s shs stub = Ok stub' ->
  exists rels, text_rels e shs = Ok rels /\ links stub stub' (omap (kfunc_of s) rels).
Proof.
  revert stub. induction shs as [|sh shs IH]; intros stub; cbn [relocate_sections text_rels].
  - intros [= <-]. exists []. split; [done|apply links_refl].
  - destruct (rel_applies raw e sh) as [[]|]; cbn [rbind negb]; [| |done].
    + destruct (sh_offset raw sh) as [offset|]; cbn [rbind]; [|done].
      destruct (sh_size raw sh) as [size|]; cbn [rbind]; [|done].
      destruct (relocate_all raw s offset _ stub) as [stub1|] eqn:E; cbn [rbind]; [|done].
      intros (rels & -> & Hl)%IH. cbn [rbind]. eexists. split; [reflexivity|].
      rewrite omap_app. eapply links_trans; [|done]. by apply relocate_all_links.
    + intros (rels & -> & Hl)%IH. cbn [rbind app]. by exists rels.
Qed.

(** A stub that is read is the section [.text], linked. *)
Lemma bf_elfstub_new_links stub : bf_elfstub_new raw = Ok stub ->
  exists e text s rels, elf_open raw = Ok e /\ find_text raw e (shdrs e) = Ok text /\
    find_symbols raw e = Ok s /\ text_rels e (shdrs e) = Ok rels /\
    links (mk_elfstub (elf_insns text) []) stub (omap (kfunc_of s) rels).
Proof.
  unfold bf_elfstub_new, _bf_elfstub_prepare. destruct (elf_open raw) as [e|] eqn:Ee; cbn [rbind]; [|done].
  destruct (find_text raw e (shdrs e)) as [text|] eqn:Et; cbn [rbind]; [|done].
  destruct (find_symbols raw e) as [s|] eqn:Es; cbn [rbind]; [|done].
  intros (rels & Hr & Hl)%relocate_sections_links. by exists e, text, s, rels.
Qed.
End Linked.
