(* ===== verification/Block.v ===== *)
(** Blocks: the instructions a generator appends, with their fixups, and what
    they do.

    A generator is specified by the block it emits ([emits]); a block has a
    structural big-step semantics ([exec_block]) in which a fixed-up
    instruction acts through its fixup: a [JMP_NEXT_RULE] jump leaves the
    block, a map load yields the map, a stub call runs the stub.  The semantics
    composes over [++], so a rule's block is understood from its matchers'
    blocks.  [Simulation] relates it to the interpreter of [Bpf] on the final
    image. *)

From S2P Require Import Prelude Bpf Helper Hook Matcher BfSet Rule Chain Printer Program.

(** * Blocks *)

Abbreviation fx := (option (bf_fixup_type * bf_fixup_attr)).

Inductive item : Type :=
| ISingle (i : bpf_insn) (f : fx)
| ILd64 (i j : bpf_insn) (f : fx).

Abbreviation block := (list item).

Definition item_insns (it : item) : list bpf_insn :=
  match it with ISingle i _ => [i] | ILd64 i j _ => [i; j] end.
Definition item_size (it : item) : nat :=
  match it with ISingle _ _ => 1 | ILd64 _ _ _ => 2 end.
Definition item_fx (it : item) : fx :=
  match it with ISingle _ f | ILd64 _ _ f => f end.

Definition flat (b : block) : list bpf_insn := b ≫= item_insns.
Fixpoint size (b : block) : nat := match b with [] => O | it :: b => item_size it + size b end.

(** The fixups of a block placed at [pos]. *)
Definition item_fixups (pos : nat) (it : item) : list bf_fixup :=
  match item_fx it with Some (t, a) => [mk_fixup t pos a] | None => [] end.
Fixpoint fixups (pos : nat) (b : block) : list bf_fixup :=
  match b with
  | [] => []
  | it :: b => item_fixups pos it ++ fixups (pos + item_size it) b
  end.

Lemma length_item_insns it : length (item_insns it) = item_size it.
Proof. by destruct it. Qed.

Lemma length_flat b : length (flat b) = size b.
Proof.
  induction b as [|it b IH]; [done|]. change (flat (it :: b)) with (item_insns it ++ flat b).
  cbn [size]. by rewrite length_app, length_item_insns, IH.
Qed.

Lemma flat_app b c : flat (b ++ c) = flat b ++ flat c.
Proof. apply bind_app. Qed.

Lemma size_app b c : size (b ++ c) = (size b + size c)%nat.
Proof. induction b; cbn [size app]; lia. Qed.

Lemma fixups_app pos b c : fixups pos (b ++ c) = fixups pos b ++ fixups (pos + size b) c.
Proof.
  revert pos. induction b as [|it b IH]; intros pos; cbn [fixups size app].
  - by rewrite Nat.add_0_r.
  - by rewrite IH, <- app_assoc, Nat.add_assoc.
Qed.

#[export] Hint Rewrite length_flat size_app : bf_len.

(** ** Patching the offset of the instruction in slot [k] *)

Definition patch_item (k : nat) (o : Z) (it : item) : item :=
  match it with
  | ISingle i f => ISingle (set_insn_off o i) f
  | ILd64 i j f => match k with O => ILd64 (set_insn_off o i) j f | S _ => ILd64 i (set_insn_off o j) f end
  end.

Fixpoint patch (k : nat) (o : Z) (b : block) : block :=
  match b with
  | [] => []
  | it :: b => if (k <? item_size it)%nat then patch_item k o it :: b
               else it :: patch (k - item_size it) o b
  end.

Lemma flat_patch k o b : flat (patch k o b) = alter (set_insn_off o) k (flat b).
Proof.
  revert k. induction b as [|it b IH]; intros k; [done|].
  cbn [patch]. change (flat (it :: b)) with (item_insns it ++ flat b).
  destruct (Nat.ltb_spec k (item_size it)) as [Hlt|Hge].
  - rewrite alter_app_l by (by rewrite length_item_insns).
    change (flat (patch_item k o it :: b)) with (item_insns (patch_item k o it) ++ flat b).
    f_equal. destruct it; cbn in Hlt; destruct k as [|[|k]]; done || lia.
  - change (flat (it :: patch (k - item_size it) o b))
      with (item_insns it ++ flat (patch (k - item_size it) o b)).
    rewrite IH. replace k with (length (item_insns it) + (k - item_size it))%nat at 2
      by (rewrite length_item_insns; lia).
    by rewrite alter_app_r.
Qed.

Lemma size_patch k o b : size (patch k o b) = size b.
Proof. rewrite <- !length_flat, flat_patch. apply length_alter. Qed.

Lemma fixups_patch k o b pos : fixups pos (patch k o b) = fixups pos b.
Proof.
  revert k pos. induction b as [|it b IH]; intros k pos; [done|]. cbn [patch].
  destruct (Nat.ltb_spec k (item_size it)).
  - by destruct it, k.
  - cbn [fixups]. by rewrite IH.
Qed.

Lemma patch_app_r b c k o : (size b <= k)%nat -> patch k o (b ++ c) = b ++ patch (k - size b) o c.
Proof.
  revert k. induction b as [|it b IH]; intros k Hk; cbn [app size patch] in *.
  - by rewrite Nat.sub_0_r.
  - destruct (Nat.ltb_spec k (item_size it)); [lia|].
    rewrite IH by lia. by rewrite Nat.sub_add_distr.
Qed.

(** * Emission *)

(** [p'] is [p] with the block appended; only the capacity is left open. *)
Definition emits (b : block) (p p' : bf_program) : Prop :=
  exists cap, p' = with_img p (prog_img p ++ flat b) cap (prog_fixups p ++ fixups (img_size p) b).

Lemma emits_img_size b p p' : emits b p p' -> img_size p' = (img_size p + size b)%nat.
Proof. intros [cap ->]. unfold img_size. cbn. by rewrite length_app, length_flat. Qed.

Lemma emits_chain b p p' : emits b p p' -> prog_chain p' = prog_chain p.
Proof. by intros [cap ->]. Qed.

Lemma emits_flavor b p p' : emits b p p' -> prog_flavor p' = prog_flavor p.
Proof. by intros [cap ->]. Qed.

Lemma emits_nil p : emits [] p p.
Proof. exists (prog_img_cap p). cbn. rewrite !app_nil_r. by destruct p. Qed.

Lemma emits_trans b c p q r : emits b p q -> emits c q r -> emits (b ++ c) p r.
Proof.
  intros Hb [cap ->]. rewrite (emits_img_size _ _ _ Hb). destruct Hb as [cap' ->].
  exists cap. unfold with_img. cbn. by rewrite flat_app, fixups_app, !app_assoc.
Qed.

Lemma ensure_cap_eq p : ensure_cap p = with_img p (prog_img p) (prog_img_cap (ensure_cap p)) (prog_fixups p).
Proof. unfold ensure_cap, bf_program_grow_img. case_match; by destruct p. Qed.

Lemma emits_emit p i : emits [ISingle i None] p (bf_program_emit p i).
Proof.
  eexists. unfold bf_program_emit. rewrite (ensure_cap_eq p). cbn. by rewrite !app_nil_r.
Qed.

Lemma emits_emit_fixup p t i a : emits [ISingle i (Some (t, a))] p (bf_program_emit_fixup p t i a).
Proof.
  eexists. unfold bf_program_emit_fixup, bf_program_emit, add_fixup.
  rewrite (ensure_cap_eq (with_img _ _ _ _)), (ensure_cap_eq p). done.
Qed.

Lemma emits_emit_fixup_elfstub p id :
  emits [ISingle (BPF_CALL_REL 0) (Some (BF_FIXUP_ELFSTUB_CALL, AttrStub id))] p
        (bf_program_emit_fixup_elfstub p id).
Proof.
  eexists. unfold bf_program_emit_fixup_elfstub, bf_program_emit, add_fixup.
  rewrite (ensure_cap_eq (with_img _ _ _ _)), (ensure_cap_eq p). done.
Qed.

(** Two instructions, the first fixed up, are one wide load. *)
Lemma emits_wide p q r i j f :
  emits [ISingle i f] p q -> emits [ISingle j None] q r -> emits [ILd64 i j f] p r.
Proof.
  intros H1 H2. pose proof (emits_trans _ _ _ _ _ H1 H2) as [cap ->]. exists cap.
  done.
Qed.

(** Pointing a jump of the block at the current end. *)
Lemma emits_cleanup b p q k : emits b p q ->
  emits (patch k (s16 (Z.of_nat (size b) - Z.of_nat k - 1)) b) p
    (with_img q (alter (set_insn_off (s16 (Z.of_nat (img_size q) - Z.of_nat (img_size p + k)%nat - 1)))
                       (img_size p + k)%nat (prog_img q)) (prog_img_cap q) (prog_fixups q)).
Proof.
  intros He. pose proof (emits_img_size _ _ _ He) as Hsz. destruct He as [cap ->].
  exists cap. rewrite Hsz, flat_patch, fixups_patch.
  replace (Z.of_nat (img_size p + size b)%nat - Z.of_nat (img_size p + k)%nat - 1)
    with (Z.of_nat (size b) - Z.of_nat k - 1) by lia.
  unfold with_img, img_size. cbn [prog_img prog_img_cap prog_fixups]. by rewrite alter_app_r.
Qed.

(** ** Specifications of generators

    [g ⊢ b] with [c] and [fl] fixed: from any program of chain [c] and flavor
    [fl], [g] succeeds and appends [b]. *)

Section Emits.
Context (c : bf_chain) (fl : bf_flavor).

Definition prog_of (p : bf_program) : Prop := prog_chain p = c /\ prog_flavor p = fl.

Lemma emits_prog_of b p p' : emits b p p' -> prog_of p -> prog_of p'.
Proof. intros [cap ->]. by unfold prog_of. Qed.

(** Running [g] from a program reached by emitting [b] from [p0]. *)
Definition gtriple {A} (p0 : bf_program) (b : block) (g : gen A) (Q : A -> block -> Prop) : Prop :=
  forall p, prog_of p -> emits b p0 p -> exists a p' b', g p = Ok (a, p') /\ emits b' p0 p' /\ Q a b'.

Lemma gtriple_ret {A} p0 b (a : A) (Q : A -> block -> Prop) : Q a b -> gtriple p0 b (mret a) Q.
Proof. intros HQ p _ Hp. exists a, p, b. done. Qed.

Lemma gtriple_bind {A B} p0 b (g : gen A) (k : A -> gen B) Q R : prog_of p0 ->
  gtriple p0 b g Q -> (forall a b', Q a b' -> gtriple p0 b' (k a) R) ->
  gtriple p0 b (g ≫= k) R.
Proof.
  intros H0 Hg Hk p Hp He. destruct (Hg p Hp He) as (a & p' & b' & E & He' & HQ).
  destruct (Hk a b' HQ p' (emits_prog_of _ _ _ He' H0) He') as (a' & p'' & b'' & E' & ? & ?).
  exists a', p'', b''. split; [|done].
  unfold mbind, gen_bind. by rewrite E.
Qed.

Lemma gtriple_get {B} p0 b (k : bf_program -> gen B) R :
  (forall p, prog_of p -> gtriple p0 b (k p) R) -> gtriple p0 b (gen_get ≫= k) R.
Proof. intros Hk p Hp He. exact (Hk p Hp p Hp He). Qed.

Lemma gtriple_mono {A} p0 b (g : gen A) (Q R : A -> block -> Prop) :
  gtriple p0 b g Q -> (forall a b', Q a b' -> R a b') -> gtriple p0 b g R.
Proof.
  intros Hg HQ p Hp He. destruct (Hg p Hp He) as (a & p' & b' & ? & ? & ?).
  exists a, p', b'. auto.
Qed.

(** [g] appends exactly [b]. *)
Definition gemits (g : gen unit) (b : block) : Prop :=
  forall p, prog_of p -> exists p', g p = Ok (tt, p') /\ emits b p p'.

Lemma gemits_triple g b p0 b0 : gemits g b -> gtriple p0 b0 g (fun _ b' => b' = b0 ++ b).
Proof.
  intros Hg p Hp He. destruct (Hg p Hp) as (p' & E & He').
  exists tt, p', (b0 ++ b). split_and!; [done|by eapply emits_trans|done].
Qed.

Lemma gtriple_gemits g b : (forall p0, prog_of p0 -> gtriple p0 [] g (fun _ b' => b' = b)) -> gemits g b.
Proof.
  intros Hg p Hp. destruct (Hg p Hp p Hp (emits_nil p)) as ([] & p' & b' & E & He & ->).
  by exists p'.
Qed.

Lemma gemits_ret : gemits (mret tt) [].
Proof. intros p _. exists p. split; [done|apply emits_nil]. Qed.

Lemma gemits_seq g1 g2 b1 b2 : gemits g1 b1 -> gemits g2 b2 -> gemits (g1 ;; g2) (b1 ++ b2).
Proof.
  intros H1 H2 p Hp. destruct (H1 p Hp) as (q & E1 & He1).
  destruct (H2 q (emits_prog_of _ _ _ He1 Hp)) as (r & E2 & He2).
  exists r. split; [|by eapply emits_trans].
  unfold mbind, gen_bind. by rewrite E1.
Qed.

Lemma gemits_payload n m g b : (n <= length (matcher_payload m))%nat -> gemits g b -> gemits (payload_read n m ;; g) b.
Proof.
  intros Hl Hg p Hp. unfold payload_read, payload_has, mbind, gen_bind, gen_lift.
  rewrite (proj2 (Nat.leb_le _ _) Hl). by apply Hg.
Qed.

Lemma gemits_lift {A} (r : res A) a k b : r = Ok a -> gemits (k a) b -> gemits (gen_lift r ≫= k) b.
Proof.
  intros -> Hk p Hp. destruct (Hk p Hp) as (p' & E & He). by exists p'.
Qed.

Lemma gemits_EMIT i : gemits (EMIT i) [ISingle i None].
Proof. intros p _. eexists. split; [done|apply emits_emit]. Qed.

Lemma gemits_EMIT_FIXUP t i : gemits (EMIT_FIXUP t i) [ISingle i (Some (t, AttrNone))].
Proof. intros p _. eexists. split; [done|apply emits_emit_fixup]. Qed.

Lemma gemits_EMIT_FIXUP_ELFSTUB id :
  gemits (EMIT_FIXUP_ELFSTUB id)
         [ISingle (BPF_CALL_REL 0) (Some (BF_FIXUP_ELFSTUB_CALL, AttrStub id))].
Proof. intros p _. eexists. split; [done|apply emits_emit_fixup_elfstub]. Qed.

Definition ld_map_item (t : bf_fixup_type) (reg : Z) (a : bf_fixup_attr) : item :=
  ILd64 (mk_insn 0x18 reg BPF_PSEUDO_MAP_FD 0 (s32 0)) (mk_insn 0 0 0 0 (s32 (u64 0 / 2 ^ 32)))
        (Some (t, a)).

Lemma gemits_emit_load_fd t reg a : gemits (emit_load_fd t reg a) [ld_map_item t reg a].
Proof.
  intros p _. eexists. split; [done|].
  eapply emits_wide; [apply emits_emit_fixup|apply emits_emit].
Qed.

Lemma gemits_emit_all l : gemits (emit_all l) ((fun i => ISingle i None) <$> l).
Proof.
  induction l as [|i l IH]; [apply gemits_ret|].
  apply (gemits_seq _ _ [ISingle i None]); [apply gemits_EMIT|done].
Qed.

(** A scope whose jump skips it. *)
Lemma gemits_with_jmpctx i g b : gemits g b ->
  gemits (with_jmpctx i g) (ISingle (set_insn_off (s16 (Z.of_nat (size b))) i) None :: b).
Proof.
  intros Hg p Hp. pose proof (emits_emit p i) as He0.
  destruct (Hg _ (emits_prog_of _ _ _ He0 Hp)) as (q & E & He1).
  pose proof (emits_cleanup _ _ _ 0 (emits_trans _ _ _ _ _ He0 He1)) as He.
  rewrite Nat.add_0_r in He. cbn [app size item_size patch Nat.ltb Nat.leb patch_item] in He.
  replace (Z.of_nat (1 + size b)%nat - Z.of_nat 0 - 1) with (Z.of_nat (size b)) in He by lia.
  eexists. split; [|exact He].
  unfold with_jmpctx, mbind, gen_bind, bf_jmpctx_get. by rewrite E.
Qed.

(** [bf_jmpctx_get] returns the slot of the jump... *)
Lemma gtriple_jmpctx_get p0 b i (Q : nat -> block -> Prop) :
  Q (img_size p0 + size b)%nat (b ++ [ISingle i None]) -> gtriple p0 b (bf_jmpctx_get i) Q.
Proof.
  intros HQ p Hp He. exists (img_size p), (bf_program_emit p i), (b ++ [ISingle i None]).
  split_and!; [done|eapply emits_trans; [done|apply emits_emit]|].
  by rewrite (emits_img_size _ _ _ He).
Qed.

(** ... which [bf_jmpctx_cleanup] points at the end of what was emitted. *)
Lemma gtriple_jmpctx_cleanup p0 b k (Q : unit -> block -> Prop) :
  Q tt (patch k (s16 (Z.of_nat (size b) - Z.of_nat k - 1)) b) ->
  gtriple p0 b (bf_jmpctx_cleanup (img_size p0 + k)) Q.
Proof.
  intros HQ p Hp He. eexists tt, _, _. split_and!; [done|by apply emits_cleanup|exact HQ].
Qed.
End Emits.
