(* ===== verification/BlockExec.v ===== *)
(** What a block does when it runs: a structural big-step semantics, its
    composition over [++], the resolution of the next-rule jumps, and the
    simulation by the interpreter of [Bpf] on the final image. *)

From S2P Require Import Prelude Bpf Helper Hook Matcher BfSet Rule Chain Printer Program Block.

(** * The kernel, as a program sees it

    [k_ext] is what helpers and kfuncs do, [k_stub] what a call of an ELF stub
    does, [k_map] the pointer a load of a fixed-up map yields, [k_map_value]
    the address of the value of such a map. *)

Class Kernel (W : Type) : Type := {
  k_ext : callee -> call_sem W;
  k_stub : bf_elfstub_id -> call_sem W;
  k_map : bf_fixup_type -> bf_fixup_attr -> Z;
  k_map_value : bf_fixup_type -> bf_fixup_attr -> Z
}.

(** * Semantics *)

(** Falling through with [skip] slots still to skip, leaving for the next rule,
    exiting, or a fault. *)
Inductive bout (W : Type) : Type :=
| BFall (skip : nat) (s : vm W)
| BRule (s : vm W)
| BExit (r0 : Z) (s : vm W)
| BFault.
Arguments BFall {W} skip s.
Arguments BRule {W} s.
Arguments BExit {W} r0 s.
Arguments BFault {W}.

Section Exec.
Context {W : Type} `{Kernel W}.

Definition fall_opt (o : option (vm W)) : bout W :=
  match o with Some s => BFall 0 s | None => BFault end.

(** Jumps go forward only. *)
Definition jump_fwd (o : Z) (s : vm W) : bout W :=
  if 0 <=? o then BFall (Z.to_nat o) s else BFault.

Definition exec_insn (i : bpf_insn) (s : vm W) : bout W :=
  match decode i with
  | None => BFault
  | Some (KJcc op d src o) =>
      match exec_jcc op d src s with
      | Some true => jump_fwd o s
      | Some false => BFall 0 s
      | None => BFault
      end
  | Some (KJa o) => jump_fwd o s
  | Some (KCall src imm) =>
      if src =? 0 then fall_opt (do_call (k_ext (Helper imm)) s)
      else if src =? BPF_PSEUDO_KFUNC_CALL then fall_opt (do_call (k_ext (Kfunc imm)) s)
      else BFault
  | Some KExit => match regs s !! 0 with Some r0 => BExit r0 s | None => BFault end
  | Some (KLd64 _ _ _) => BFault
  | Some k => fall_opt (exec_plain k s)
  end.

Definition exec_item (it : item) (s : vm W) : bout W :=
  match it with
  | ISingle i None => exec_insn i s
  | ISingle i (Some (BF_FIXUP_TYPE_JMP_NEXT_RULE, _)) =>
      match decode i with
      | Some (KJcc op d src _) =>
          match exec_jcc op d src s with
          | Some true => BRule s
          | Some false => BFall 0 s
          | None => BFault
          end
      | Some (KJa _) => BRule s
      | _ => BFault
      end
  | ISingle i (Some (BF_FIXUP_ELFSTUB_CALL, AttrStub id)) =>
      match decode i with
      | Some (KCall src _) =>
          if src =? BPF_PSEUDO_CALL then fall_opt (do_call (k_stub id) s) else BFault
      | _ => BFault
      end
  | ISingle _ (Some _) => BFault
  | ILd64 i j f =>
      match decode i with
      | Some (KLd64 d src imm) =>
          match f with
          | None =>
              if src =? 0
              then BFall 0 (set_reg d (u32 imm + 2 ^ 32 * u32 (insn_imm j)) s)
              else BFault
          | Some (BF_FIXUP_TYPE_JMP_NEXT_RULE, _) | Some (BF_FIXUP_ELFSTUB_CALL, _) => BFault
          | Some (t, a) =>
              if src =? BPF_PSEUDO_MAP_FD then BFall 0 (set_reg d (k_map t a) s)
              else if src =? BPF_PSEUDO_MAP_VALUE
              then BFall 0 (set_reg d (k_map_value t a + u32 (insn_imm j)) s)
              else BFault
          end
      | _ => BFault
      end
  end.

Fixpoint exec (b : block) (skip : nat) (s : vm W) : bout W :=
  match b with
  | [] => BFall skip s
  | it :: b =>
      match skip with
      | O => match exec_item it s with
             | BFall k s' => exec b k s'
             | o => o
             end
      | S _ => if (item_size it <=? skip)%nat then exec b (skip - item_size it) s else BFault
      end
  end.

Definition bcont (o : bout W) (k : nat -> vm W -> bout W) : bout W :=
  match o with BFall n s => k n s | o => o end.

Lemma exec_app b c k s : exec (b ++ c) k s = bcont (exec b k s) (exec c).
Proof.
  revert k s. induction b as [|it b IH]; intros k s; cbn [exec app]; [done|].
  destruct k as [|k].
  - destruct (exec_item it s); cbn [bcont]; done.
  - destruct (item_size it <=? S k)%nat; [apply IH|done].
Qed.

(** Jumping exactly over a block. *)
Lemma exec_skip b k s : exec b (size b + k) s = BFall k s.
Proof.
  revert k. induction b as [|it b IH]; intros k; cbn [exec size]; [done|].
  assert (1 <= item_size it)%nat by (destruct it; cbn; lia).
  destruct (item_size it + size b + k)%nat as [|n] eqn:E; [lia|]. rewrite <- E.
  destruct (Nat.leb_spec (item_size it) (item_size it + size b + k)); [|lia].
  replace (item_size it + size b + k - item_size it)%nat with (size b + k)%nat by lia. apply IH.
Qed.

Lemma exec_skip_full b s : exec b (size b) s = BFall 0 s.
Proof. rewrite <- (exec_skip b 0 s). by rewrite Nat.add_0_r. Qed.

(** ** Next-rule jumps

    Once [_bf_program_fixup] has run, a next-rule jump is a jump to the end
    of the rule. *)

Definition resolve_item (rest : nat) (it : item) : item :=
  match it with
  | ISingle i (Some (BF_FIXUP_TYPE_JMP_NEXT_RULE, _)) =>
      ISingle (set_insn_off (s16 (s32 (Z.of_nat rest))) i) None
  | ILd64 i j (Some (BF_FIXUP_TYPE_JMP_NEXT_RULE, _)) =>
      ILd64 (set_insn_off (s16 (s32 (Z.of_nat (rest + 1)))) i) j None
  | it => it
  end.

Fixpoint resolve (b : block) : block :=
  match b with [] => [] | it :: b => resolve_item (size b) it :: resolve b end.

Definition unrule (o : bout W) : bout W := match o with BRule s => BFall 0 s | o => o end.

Lemma item_size_resolve n it : item_size (resolve_item n it) = item_size it.
Proof. by destruct it as [i [[[] []]|]|i j [[[] []]|]]. Qed.

Lemma size_resolve b : size (resolve b) = size b.
Proof. induction b; cbn [resolve size]; [done|]. by rewrite item_size_resolve, IHb. Qed.

Lemma decode_set_off o i : decode (set_insn_off o i) =
  match decode i with
  | Some (KJcc op d src _) => Some (KJcc op d src o)
  | Some (KJa _) => Some (KJa o)
  | Some (KLdx sz d src _) => Some (KLdx sz d src o)
  | Some (KStx sz d src _) => Some (KStx sz d src o)
  | Some (KSt sz d _ imm) => Some (KSt sz d o imm)
  | k => k
  end.
Proof. unfold decode, insn_operand, set_insn_off. cbn. by repeat case_match; simplify_eq. Qed.

Lemma s16_s32_small z : 0 <= z < 2 ^ 15 -> s16 (s32 z) = z.
Proof. intros. unfold s32. rewrite (sw_small 32) by lia. by apply s16_small. Qed.

Lemma jump_fwd_small n s : Z.of_nat n < 2 ^ 15 ->
  jump_fwd (s16 (s32 (Z.of_nat n))) s = BFall n s.
Proof.
  intros. rewrite s16_s32_small by lia. unfold jump_fwd.
  destruct (Z.leb_spec 0 (Z.of_nat n)); [|lia]. by rewrite Nat2Z.id.
Qed.

Lemma exec_resolve_item n it s : Z.of_nat n < 2 ^ 15 -> exec_item it s <> BFault ->
  exec_item (resolve_item n it) s =
  match exec_item it s with BRule s => BFall n s | o => o end.
Proof.
  intros Hn Hf. assert (forall i s, exec_insn i s = match exec_insn i s with BRule s => BFall n s | o => o end) as Hi.
  { intros i s'. unfold exec_insn, fall_opt, jump_fwd. by repeat case_match. }
  destruct it as [i [[[] a]|]|i j [[[] a]|]]; cbn [resolve_item].
  - cbn [exec_item] in *. unfold exec_insn. rewrite decode_set_off.
    destruct (decode i) as [[]|] eqn:E; try done.
    + destruct (exec_jcc op dst src s) as [[]|]; try done. by apply jump_fwd_small.
    + by apply jump_fwd_small.
  - done.
  - done.
  - done.
  - done.
  - cbn [exec_item]. unfold fall_opt. by repeat case_match.
  - apply Hi.
  - cbn [exec_item] in Hf. by destruct (decode i) as [[]|].
  - cbn [exec_item]. by repeat case_match.
  - cbn [exec_item]. by repeat case_match.
  - cbn [exec_item]. by repeat case_match.
  - cbn [exec_item]. by repeat case_match.
  - cbn [exec_item]. by repeat case_match.
  - cbn [exec_item]. by repeat case_match.
Qed.

(** Resolving turns "leave for the next rule" into "fall through". *)
Lemma exec_resolve b k s : Z.of_nat (size b) < 2 ^ 15 -> exec b k s <> BFault ->
  exec (resolve b) k s = unrule (exec b k s).
Proof.
  revert k s. induction b as [|it b IH]; intros k s Hb Hf; [done|].
  cbn [resolve exec size] in *.
  assert (1 <= item_size it)%nat by (destruct it; cbn; lia).
  destruct k as [|k].
  - assert (exec_item it s <> BFault) as Hf' by (intros E; by rewrite E in Hf).
    rewrite exec_resolve_item by (done || lia). destruct (exec_item it s); try done.
    + apply IH; [lia|done].
    + cbn [unrule]. rewrite IH by (rewrite ?exec_skip_full; done || lia). by rewrite exec_skip_full.
  - rewrite item_size_resolve. case_match; [apply IH; [lia|done]|done].
Qed.

(** A block that can only leave forward: what [BFall] skips is bounded by
    nothing in general; [closed] blocks fall through at their end. *)
Definition no_rule (it : item) : bool :=
  match item_fx it with Some (BF_FIXUP_TYPE_JMP_NEXT_RULE, _) => false | _ => true end.

Lemma resolve_no_rule b : forallb no_rule (resolve b) = true.
Proof.
  induction b as [|it b IH]; [done|]. cbn [resolve forallb]. rewrite IH, andb_true_r.
  by destruct it as [i [[[] []]|]|i j [[[] []]|]].
Qed.
End Exec.

Arguments bcont {W} o k /.

(** * Simulation *)

(** The instructions of a block once every fixup is applied: [fd] is the value
    put in a map load, [loc] the first instruction of a stub. *)
Section Final.
Context (fd : bf_fixup_type -> bf_fixup_attr -> Z) (loc : bf_elfstub_id -> nat).

(** The stub an attribute names: the union is zero when not given. *)
Definition attr_stub (a : bf_fixup_attr) : bf_elfstub_id :=
  match a with AttrStub id => id | _ => BF_ELFSTUB_PARSE_IPV6_EH end.

(** The set it names. *)
Definition attr_set (a : bf_fixup_attr) : nat := match a with AttrSet i => i | _ => O end.

Definition final_imm (t : bf_fixup_type) (a : bf_fixup_attr) (pc : nat) : Z :=
  match t with
  | BF_FIXUP_ELFSTUB_CALL => Z.of_nat (loc (attr_stub a)) - Z.of_nat pc - 1
  | _ => fd t a
  end.

Definition final_item (pc : nat) (it : item) : list bpf_insn :=
  match it with
  | ISingle i None => [i]
  | ISingle i (Some (t, a)) => [set_insn_imm (final_imm t a pc) i]
  | ILd64 i j None => [i; j]
  | ILd64 i j (Some (t, a)) => [set_insn_imm (final_imm t a pc) i; j]
  end.

Fixpoint final (pc : nat) (b : block) : list bpf_insn :=
  match b with
  | [] => []
  | it :: b => final_item pc it ++ final (pc + item_size it) b
  end.

Lemma length_final_item pc it : length (final_item pc it) = item_size it.
Proof. by destruct it as [i [[[] []]|]|i j [[[] []]|]]. Qed.

Lemma length_final pc b : length (final pc b) = size b.
Proof.
  revert pc. induction b as [|it b IH]; intros pc; cbn [final size]; [done|].
  by rewrite length_app, length_final_item, IH.
Qed.

Lemma final_app pc b c : final pc (b ++ c) = final pc b ++ final (pc + size b) c.
Proof.
  revert pc. induction b as [|it b IH]; intros pc; cbn [final size app].
  - by rewrite Nat.add_0_r.
  - by rewrite IH, <- app_assoc, Nat.add_assoc.
Qed.
End Final.

Section Simulation.
Context {W : Type} `{Kernel W}.
Context (fd : bf_fixup_type -> bf_fixup_attr -> Z) (loc : bf_elfstub_id -> nat).
Context (ext : callee -> call_sem W) (map_ptr map_value_ptr : Z -> Z).

(** The fixups the program has. *)
Context (used : bf_fixup_type -> bf_fixup_attr -> Prop).

(** The loaded program runs against the same kernel: the descriptors name the
    maps and the stubs' code does what the stubs do. *)
Record sim_env : Prop := mk_sim_env {
  sim_helper : forall id, ext (Helper id) = k_ext (Helper id);
  sim_kfunc : forall id, ext (Kfunc id) = k_ext (Kfunc id);
  sim_stub : forall a, used BF_FIXUP_ELFSTUB_CALL a ->
    ext (Subprog (loc (attr_stub a))) = k_stub (attr_stub a);
  sim_map : forall t a, used t a -> map_ptr (fd t a) = k_map t a;
  sim_map_value : forall t a, used t a -> map_value_ptr (fd t a) = k_map_value t a
}.

Context (Henv : sim_env).

Definition item_used (it : item) : Prop :=
  match item_fx it with Some (t, a) => used t a | None => True end.

Abbreviation step := (step ext map_ptr map_value_ptr).
Abbreviation run := (run ext map_ptr map_value_ptr).

(** The outcome of the interpreter that corresponds to one of the block
    placed at [pc] with [n] slots. *)
Definition sim_out (o : bout W) (pc n : nat) (r : outcome W) : Prop :=
  match o with
  | BFall k s => r = Next (pc + n + k) s
  | BExit r0 s => r = Exited r0 s
  | BRule _ | BFault => True
  end.

Lemma sim_out_shift o pc m n r : sim_out o (pc + m) n r -> sim_out o pc (m + n) r.
Proof. destruct o; cbn [sim_out]; [|done..]. intros ->. f_equal. lia. Qed.

Lemma decode_set_imm m i : decode (set_insn_imm m i) =
  match decode i with
  | Some (KCall src _) => Some (KCall src m)
  | Some (KLd64 d src _) => Some (KLd64 d src m)
  | Some (KAlu w op d (OImm _)) => Some (KAlu w op d (OImm m))
  | Some (KBswap d _) => Some (KBswap d m)
  | Some (KSt sz d o _) => Some (KSt sz d o m)
  | Some (KJcc op d (OImm _) o) => Some (KJcc op d (OImm m) o)
  | k => k
  end.
Proof. unfold decode, insn_operand, set_insn_imm. cbn. by repeat case_match; simplify_eq. Qed.

Lemma jump_target_fwd pc o : 0 <= o -> jump_target pc o = (pc + 1 + Z.to_nat o)%nat.
Proof. intros. unfold jump_target. lia. Qed.

Lemma sim_insn code pc i s : code !! pc = Some i -> exec_insn i s <> BFault ->
  sim_out (exec_insn i s) pc 1 (step code pc s).
Proof.
  intros Hi Hf. unfold step, exec_insn in *. rewrite Hi. destruct (decode i) as [[]|] eqn:E; try done;
    cbn [fall_opt] in *; unfold fall_opt, jump_fwd in *.
  1-5: destruct (exec_plain _ s) eqn:Ep; [|done]; cbn; f_equal; lia.
  - destruct (exec_jcc op dst src s) as [[]|]; [|cbn; f_equal; lia|done].
    destruct (Z.leb_spec 0 off); [|done]. cbn. by rewrite jump_target_fwd.
  - destruct (Z.leb_spec 0 off); [|done]. cbn. by rewrite jump_target_fwd.
  - unfold insn_callee. destruct (Z.eqb_spec src 0) as [->|Hs].
    + rewrite sim_helper by done. destruct (do_call _ s); [|done]. cbn. f_equal. lia.
    + destruct (Z.eqb_spec src BPF_PSEUDO_KFUNC_CALL) as [->|]; [|done].
      change (BPF_PSEUDO_KFUNC_CALL =? BPF_PSEUDO_CALL) with false. cbv match.
      rewrite sim_kfunc by done. destruct (do_call _ s); [|done]. cbn. f_equal. lia.
  - destruct (regs s !! 0); [|done]. done.
Qed.

Lemma sim_item code pc it s :
  (forall k, (k < item_size it)%nat -> code !! (pc + k)%nat = final_item fd loc pc it !! k) ->
  no_rule it = true -> item_used it -> exec_item it s <> BFault ->
  sim_out (exec_item it s) pc (item_size it) (step code pc s).
Proof.
  intros Hc Hr Hu Hf.
  assert (code !! pc = final_item fd loc pc it !! O) as H0
    by (rewrite <- Hc; [f_equal; lia|destruct it; cbn; lia]).
  destruct it as [i [[t a]|]|i j f].
  - destruct t; try done; destruct a as [| |id]; try done. cbn [exec_item final_item item_size] in *.
    destruct (decode i) as [[]|] eqn:E; try done.
    destruct (Z.eqb_spec src BPF_PSEUDO_CALL) as [->|]; [|done].
    unfold step. rewrite H0. cbn [lookup list_lookup]. rewrite decode_set_imm, E. cbn [final_imm attr_stub].
    unfold insn_callee. change (BPF_PSEUDO_CALL =? 0) with false. rewrite Z.eqb_refl. cbv match.
    replace (jump_target pc (Z.of_nat (loc id) - Z.of_nat pc - 1)) with (loc id)
      by (unfold jump_target; lia).
    pose proof (sim_stub Henv (AttrStub id) Hu) as Hst. cbn [attr_stub] in *.
    rewrite Hst. unfold fall_opt in *.
    destruct (do_call (k_stub id) s); [|done]. cbn. f_equal. lia.
  - cbn [exec_item] in *. apply sim_insn; done.
  - assert (code !! S pc = Some j) as H1.
    { specialize (Hc 1%nat ltac:(cbn; lia)). rewrite Nat.add_1_r in Hc. rewrite Hc.
      by destruct f as [[[] []]|]. }
    cbn [exec_item item_size] in *. destruct (decode i) as [[]|] eqn:E; try done.
    unfold step. rewrite H0.
    destruct f as [[t a]|].
    + assert (final_item fd loc pc (ILd64 i j (Some (t, a))) !! O =
              Some (set_insn_imm (final_imm fd loc t a pc) i)) as ->
        by done.
      rewrite decode_set_imm, E, H1. unfold ld64_val.
      assert (src <> 0) as Hs by (intros ->; by destruct t).
      replace (src =? 0) with false by lia.
      destruct t; try done; cbn [final_imm]; (destruct (Z.eqb_spec src BPF_PSEUDO_MAP_FD);
        [rewrite sim_map by (done || exact Hu); cbn; f_equal; lia|];
        destruct (Z.eqb_spec src BPF_PSEUDO_MAP_VALUE); [|done];
        rewrite sim_map_value by (done || exact Hu); cbn; f_equal; lia).
    + cbn [final_item lookup list_lookup]. rewrite E, H1. unfold ld64_val.
      destruct (Z.eqb_spec src 0) as [->|]; [|done]. cbn. f_equal. lia.
Qed.

(** The interpreter does what the block does, in at most as many steps as the
    block has slots. *)
Lemma sim_block code pc b k s :
  (forall n, (n < size b)%nat -> code !! (pc + n)%nat = final fd loc pc b !! n) ->
  forallb no_rule b = true -> Forall item_used b -> exec b k s <> BFault ->
  exists fuel, (fuel <= size b)%nat /\ sim_out (exec b k s) pc (size b) (run fuel code (pc + k)%nat s).
Proof.
  revert pc k s. induction b as [|it b IH]; intros pc k s Hc Hr Hu Hf.
  - exists O. cbn. split; [lia|]. f_equal. lia.
  - cbn [forallb] in Hr. apply andb_prop in Hr as [Hr1 Hr2]. apply Forall_cons in Hu as [Hu1 Hu2].
    assert (forall n, (n < item_size it)%nat -> code !! (pc + n)%nat = final_item fd loc pc it !! n) as Hc1.
    { intros n Hn. rewrite Hc by (cbn [size]; lia). cbn [final].
      rewrite lookup_app_l; [done|]. by rewrite length_final_item. }
    assert (forall n, (n < size b)%nat ->
      code !! (pc + item_size it + n)%nat = final fd loc (pc + item_size it) b !! n) as Hc2.
    { intros n Hn. rewrite <- Nat.add_assoc, Hc by (cbn [size]; lia). cbn [final].
      rewrite lookup_app_r by (rewrite length_final_item; lia).
      rewrite length_final_item. f_equal. lia. }
    cbn [exec size] in *. destruct k as [|k].
    + rewrite Nat.add_0_r.
      assert (exec_item it s <> BFault) as Hf' by (intros E; by rewrite E in Hf).
      pose proof (sim_item code pc it s Hc1 Hr1 Hu1 Hf') as Hs.
      destruct (exec_item it s) as [k s'|s'|r0 s'|] eqn:E; try done.
      * destruct (IH _ k s' Hc2 Hr2 Hu2 Hf) as (fuel & Hfu & Ho).
        exists (S fuel). assert (1 <= item_size it)%nat by (destruct it; cbn; lia).
        split; [lia|]. cbn [run]. cbn [sim_out] in Hs. rewrite Hs.
        by apply sim_out_shift.
      * exists O. split; [lia|done].
      * exists 1%nat. assert (1 <= item_size it)%nat by (destruct it; cbn; lia).
        split; [lia|]. cbn [run]. cbn [sim_out] in *. by rewrite Hs.
    + destruct (Nat.leb_spec (item_size it) (S k)) as [Hle|]; [|done].
      destruct (IH _ (S k - item_size it)%nat s Hc2 Hr2 Hu2 Hf) as (fuel & Hfu & Ho).
      exists fuel. split; [lia|].
      replace (pc + S k)%nat with (pc + item_size it + (S k - item_size it))%nat by lia.
      by apply sim_out_shift.
Qed.
End Simulation.
