(* ===== verification/Fixups.v ===== *)
(** What resolving fixups does to an emitted block: [_bf_program_fixup] sets a
    field of the instructions whose fixup has the given type, and removes these
    fixups ([fix_block]); on the next-rule fixups this is [resolve], and once
    every type has been resolved the image is [final]. *)

From S2P Require Import Prelude Bytes Bpf Helper Hook Matcher BfSet Rule Chain Printer Program.
From S2P Require Import Block BlockExec.

(** * One type of fixup *)

(** What the fixup does to its instruction; fixups whose value is an error are
    left alone, they stop the loop. *)
Definition fixup_upd (p : bf_program) (t : bf_fixup_type) (pos : nat) (a : bf_fixup_attr) (i : bpf_insn) :
    bpf_insn :=
  match fixup_value p (mk_fixup t pos a) with
  | Ok (it, v) => _bf_program_fixup_insn i it v
  | Err _ => i
  end.

Section Fix.
Context (upd : bf_fixup_type -> nat -> bf_fixup_attr -> bpf_insn -> bpf_insn) (t : bf_fixup_type).

Definition fix_item (pos : nat) (it : item) : item :=
  match it with
  | ISingle i (Some (t', a)) => if decide (t = t') then ISingle (upd t pos a i) None else it
  | ILd64 i j (Some (t', a)) => if decide (t = t') then ILd64 (upd t pos a i) j None else it
  | _ => it
  end.

Fixpoint fix_block (pos : nat) (b : block) : block :=
  match b with
  | [] => []
  | it :: b => fix_item pos it :: fix_block (pos + item_size it) b
  end.

Lemma item_size_fix pos it : item_size (fix_item pos it) = item_size it.
Proof. destruct it as [i [[t' a]|]|i j [[t' a]|]]; cbn; by repeat case_decide. Qed.

Lemma size_fix pos b : size (fix_block pos b) = size b.
Proof.
  revert pos. induction b as [|it b IH]; intros pos; cbn [fix_block size]; [done|].
  by rewrite item_size_fix, IH.
Qed.

Lemma fix_block_app pos b c : fix_block pos (b ++ c) = fix_block pos b ++ fix_block (pos + size b) c.
Proof.
  revert pos. induction b as [|it b IH]; intros pos; cbn [fix_block size app].
  - by rewrite Nat.add_0_r.
  - by rewrite IH, Nat.add_assoc.
Qed.

(** A block without such fixups is not changed. *)
Definition no_fixup (it : item) : bool :=
  match item_fx it with Some (t', _) => negb (bool_decide (t = t')) | None => true end.

Lemma fix_block_id pos b : forallb no_fixup b = true -> fix_block pos b = b.
Proof.
  revert pos. induction b as [|it b IH]; intros pos Hb; cbn [fix_block]; [done|].
  cbn [forallb] in Hb. apply andb_prop in Hb as [Hi Hb]. rewrite IH by done. f_equal.
  destruct it as [i [[t' a]|]|i j [[t' a]|]]; cbn in *; try done;
    by rewrite decide_False by (intros ->; by rewrite bool_decide_eq_true_2 in Hi).
Qed.

Lemma fix_block_none pos b : forallb no_fixup (fix_block pos b) = true.
Proof.
  revert pos. induction b as [|it b IH]; intros pos; cbn [fix_block forallb]; [done|].
  rewrite IH, andb_true_r. destruct it as [i [[t' a]|]|i j [[t' a]|]]; cbn; try done;
    case_decide as E; cbn; try done; by rewrite bool_decide_eq_false_2.
Qed.
End Fix.

(** ** The loop *)

(** Fields that resolving fixups reads and does not change. *)
Definition same_env (p q : bf_program) : Prop :=
  img_size q = img_size p /\ prog_chain q = prog_chain p /\ prog_flavor q = prog_flavor p /\
  prog_cmap q = prog_cmap p /\ prog_pmap q = prog_pmap p /\
  prog_lmap q = prog_lmap p /\ prog_sets q = prog_sets p /\
  elfstubs_location q = elfstubs_location p /\ prog_printer q = prog_printer p /\
  prog_link q = prog_link p /\ prog_fd q = prog_fd p.

Lemma same_env_refl p : same_env p p.
Proof. done. Qed.

Lemma same_env_trans p q r : same_env p q -> same_env q r -> same_env p r.
Proof. unfold same_env. intuition congruence. Qed.

Lemma fixup_value_env p q fx : same_env p q -> fixup_value q fx = fixup_value p fx.
Proof.
  intros (E1 & _ & _ & E2 & E3 & E4 & E5 & E6 & _).
  unfold fixup_value, prog_cmap_fd, prog_pmap_fd, prog_lmap_fd, prog_sets_fd.
  by rewrite E1, E2, E3, E4, E5, E6.
Qed.

Lemma fixup_upd_env p q t pos a i : same_env p q -> fixup_upd q t pos a i = fixup_upd p t pos a i.
Proof. intros E. unfold fixup_upd. by rewrite (fixup_value_env p q) by done. Qed.

Lemma apply_fixup_ok p fx q : apply_fixup p fx = Ok q ->
  q = with_img p (alter (fixup_upd p (fixup_type fx) (fixup_insn fx) (fixup_attr fx)) (fixup_insn fx) (prog_img p))
        (prog_img_cap p) (prog_fixups p) /\ same_env p q.
Proof.
  unfold apply_fixup. destruct (fixup_value p fx) as [[it v]|] eqn:E; cbn [rbind]; [|done].
  intros [= <-]. split.
  - f_equal. destruct fx as [t n a]. cbn [fixup_insn fixup_type fixup_attr] in *.
    unfold fixup_upd. by rewrite E.
  - unfold same_env, img_size. cbn. by rewrite length_alter.
Qed.

Lemma alter_head pre i post (f : bpf_insn -> bpf_insn) : alter f (length pre) (pre ++ i :: post) = pre ++ f i :: post.
Proof.
  replace (length pre) with (length pre + 0)%nat by lia. by rewrite alter_app_r.
Qed.

(** Fixups at instructions of index [n] or more. *)
Definition beyond (n : nat) (fxs : list bf_fixup) : Prop := Forall (fun fx => (n <= fixup_insn fx)%nat) fxs.

(** Those leave the instructions before alone. *)
Lemma fixup_loop_beyond t n todo kept p q :
  fixup_loop t todo kept p = Ok q -> beyond n todo ->
  same_env p q /\ take n (prog_img q) = take n (prog_img p) /\
  exists rest, prog_fixups q = kept ++ rest /\ beyond n rest.
Proof.
  revert kept p. induction todo as [|fx todo IH]; intros kept p; cbn [fixup_loop].
  - intros [= <-] _. split; [done|]. split; [done|]. exists []. split; [by rewrite app_nil_r|constructor].
  - intros H [Hfx Hb]%Forall_cons. case_decide.
    + destruct (apply_fixup p fx) as [p'|] eqn:E; cbn [rbind] in H; [|done].
      apply apply_fixup_ok in E as [Ep Eenv].
      destruct (IH _ _ H Hb) as (He & Ht & rest & Hr & Hbr). split; [by eapply same_env_trans|].
      split; [|by exists rest]. rewrite Ht, Ep. cbn [prog_img with_img].
      apply list_eq. intros k. destruct (decide (k < n)%nat).
      * rewrite !lookup_take_lt by done. rewrite list_lookup_alter_ne by lia. done.
      * by rewrite !lookup_take_ge by lia.
    + destruct (IH _ _ H Hb) as (He & Ht & rest & Hr & Hbr). split; [done|]. split; [done|].
      exists (fx :: rest). split; [by rewrite Hr, <- app_assoc|]. by constructor.
Qed.

Lemma fixup_env t p q : _bf_program_fixup p t = Ok q -> same_env p q.
Proof.
  intros E. eapply (fixup_loop_beyond t 0 _ _ _ _ E). apply Forall_forall. intros fx _. lia.
Qed.

(** The fixups of a block in the image. *)
Lemma fixup_loop_block t b fxs kept pre post p q :
  prog_img p = pre ++ flat b ++ post ->
  fixup_loop t (fixups (length pre) b ++ fxs) kept p = Ok q ->
  exists p', same_env p p' /\
    prog_img p' = pre ++ flat (fix_block (fixup_upd p) t (length pre) b) ++ post /\
    fixup_loop t fxs (kept ++ fixups (length pre) (fix_block (fixup_upd p) t (length pre) b)) p' = Ok q.
Proof.
  revert kept pre p. induction b as [|it b IH]; intros kept pre p Hp H.
  { exists p. rewrite app_nil_r. done. }
  assert (forall q, fix_block (fixup_upd q) t (length pre) (it :: b) =
    fix_item (fixup_upd q) t (length pre) it :: fix_block (fixup_upd q) t (length pre + item_size it) b) as Efix by done.
  assert (flat (it :: b) = item_insns it ++ flat b) as Efl by done.
  cbn [fixups] in H. rewrite <- app_assoc in H.
  (* the loop on the first item *)
  assert (exists p1 it', it' = fix_item (fixup_upd p) t (length pre) it /\ same_env p p1 /\
    prog_img p1 = (pre ++ item_insns it') ++ flat b ++ post /\
    fixup_loop t (fixups (length pre + item_size it) b ++ fxs) (kept ++ item_fixups (length pre) it') p1 = Ok q)
    as (p1 & it' & Eit & Henv & Himg & Hloop).
  { rewrite Efl in Hp. unfold item_fixups in H at 1.
    destruct (item_fx it) as [[t' a]|] eqn:Efx; cbn [app fixup_loop fixup_type] in H.
    - case_decide as Et.
      + subst t'. destruct (apply_fixup p _) as [p1|] eqn:E; cbn [rbind] in H; [|done].
        apply apply_fixup_ok in E as [Ep Eenv]. cbn [fixup_insn fixup_attr fixup_type] in Ep.
        exists p1, (fix_item (fixup_upd p) t (length pre) it). split; [done|]. split; [done|].
        assert (item_fixups (length pre) (fix_item (fixup_upd p) t (length pre) it) = []) as Enil.
        { destruct it as [i [[]|]|i j [[]|]]; cbn in Efx; simplify_eq; cbn; by rewrite decide_True by done. }
        rewrite Enil, app_nil_r. split; [|done]. rewrite Ep. cbn [prog_img with_img]. rewrite Hp.
        destruct it as [i [[]|]|i j [[]|]]; cbn in Efx; simplify_eq; cbn; rewrite decide_True by done;
          cbn; rewrite alter_head; by rewrite <- app_assoc.
      + exists p, it.
        assert (fix_item (fixup_upd p) t (length pre) it = it) as ->
          by (destruct it as [i [[]|]|i j [[]|]]; cbn in Efx; simplify_eq; cbn; by rewrite decide_False by done).
        split; [done|]. split; [done|]. split; [by rewrite Hp, !app_assoc|].
        unfold item_fixups. by rewrite Efx.
    - exists p, it. assert (fix_item (fixup_upd p) t (length pre) it = it) as ->
        by (by destruct it as [i [[]|]|i j [[]|]]).
      split; [done|]. split; [done|]. split; [by rewrite Hp, !app_assoc|].
      unfold item_fixups. by rewrite Efx, app_nil_r. }
  assert (item_size it' = item_size it) as Esz by (subst it'; apply item_size_fix).
  assert (length (pre ++ item_insns it') = (length pre + item_size it)%nat) as Elen
    by (by rewrite length_app, length_item_insns, Esz).
  rewrite <- Elen in Hloop. destruct (IH _ _ _ Himg Hloop) as (p2 & Henv2 & Himg2 & Hloop2).
  exists p2. split; [by eapply same_env_trans|].
  assert (fix_block (fixup_upd p1) t (length (pre ++ item_insns it')) b =
          fix_block (fixup_upd p) t (length pre + item_size it) b) as Eb.
  { rewrite Elen. clear - Henv. generalize (length pre + item_size it)%nat as pos.
    induction b as [|x b IH]; intros pos; cbn [fix_block]; [done|]. rewrite IH. f_equal.
    destruct x as [i [[]|]|i j [[]|]]; cbn; try done; case_decide; try done;
      by rewrite (fixup_upd_env p p1) by done. }
  rewrite Eb in Himg2, Hloop2. rewrite Efix, <- Eit.
  change (flat (it' :: ?l)) with (item_insns it' ++ flat l).
  split; [by rewrite Himg2, <- !app_assoc|].
  cbn [fixups]. rewrite Esz. rewrite Elen in Hloop2. by rewrite <- app_assoc in Hloop2.
Qed.

(** ** The whole function *)

(** A block at the start of the image, and fixups after it. *)
Record holds (b : block) (p : bf_program) : Prop := mk_holds {
  holds_img : exists post, prog_img p = flat b ++ post;
  holds_fixups : exists rest, prog_fixups p = fixups 0 b ++ rest /\ beyond (size b) rest
}.

Lemma holds_fix t b p q : holds b p -> _bf_program_fixup p t = Ok q ->
  holds (fix_block (fixup_upd p) t 0 b) q /\ same_env p q.
Proof.
  intros [[post Hi] [rest [Hf Hb]]] H. unfold _bf_program_fixup in H. rewrite Hf in H.
  destruct (fixup_loop_block t b rest [] [] post p q Hi H) as (p' & Henv & Himg & Hloop).
  destruct (fixup_loop_beyond _ _ _ _ _ _ Hloop Hb) as (Henv' & Ht & rest' & Hr & Hbr).
  split; [|by eapply same_env_trans].
  cbn [length app] in *. split.
  - exists (drop (size b) (prog_img q)). rewrite <- (take_drop (size b) (prog_img q)) at 1. f_equal.
    rewrite Ht, Himg. rewrite <- (size_fix (fixup_upd p) t 0 b), <- length_flat. apply take_app_length.
  - exists rest'. by rewrite size_fix.
Qed.

(** * Next-rule fixups *)

Lemma resolve_fix p pos b : img_size p = (pos + size b)%nat ->
  fix_block (fixup_upd p) BF_FIXUP_TYPE_JMP_NEXT_RULE pos b = resolve b.
Proof.
  revert pos. induction b as [|it b IH]; intros pos Hp; cbn [fix_block resolve size] in *; [done|].
  rewrite IH by lia. f_equal.
  destruct it as [i [[t a]|]|i j [[t a]|]]; cbn [fix_item resolve_item item_size] in *; try done;
    case_decide as E; [subst t|by destruct t|subst t|by destruct t];
    unfold fixup_upd; cbn [fixup_value fixup_type fixup_insn]; rewrite Hp; cbn [_bf_program_fixup_insn];
    do 4 f_equal; lia.
Qed.

(** No next-rule fixup is pending. *)
Definition clean (p : bf_program) : Prop :=
  Forall (fun fx => fixup_type fx <> BF_FIXUP_TYPE_JMP_NEXT_RULE) (prog_fixups p).

Lemma fixup_loop_skip t todo rest kept p :
  Forall (fun fx => fixup_type fx <> t) todo ->
  fixup_loop t (todo ++ rest) kept p = fixup_loop t rest (kept ++ todo) p.
Proof.
  intros H. revert kept. induction H as [|fx todo Hfx _ IH]; intros kept; cbn [app fixup_loop].
  - by rewrite app_nil_r.
  - rewrite decide_False by done. by rewrite IH, <- app_assoc.
Qed.

(** The loop on next-rule fixups never fails. *)
Lemma fixup_loop_jmp_ok todo kept p : is_Some (match fixup_loop BF_FIXUP_TYPE_JMP_NEXT_RULE todo kept p with
  | Ok q => Some q | Err _ => None end).
Proof.
  revert kept p. induction todo as [|fx todo IH]; intros kept p; cbn [fixup_loop]; [by eexists|].
  case_decide as E; [|apply IH]. unfold apply_fixup, fixup_value. rewrite <- E. cbn [rbind]. apply IH.
Qed.

Lemma emits_resolve b p q : emits b p q -> clean p ->
  exists q', _bf_program_fixup q BF_FIXUP_TYPE_JMP_NEXT_RULE = Ok q' /\ emits (resolve b) p q' .
Proof.
  intros He Hc. pose proof (emits_img_size _ _ _ He) as Hsz. destruct He as [cap Eq].
  pose proof (fixup_loop_jmp_ok (prog_fixups q) [] q) as [q' Hq].
  destruct (fixup_loop _ (prog_fixups q) [] q) as [q0|] eqn:E; [|done]. injection Hq as ->.
  exists q'. split; [exact E|].
  rewrite Eq in E at 1. cbn [with_img prog_fixups] in E. rewrite fixup_loop_skip in E by done.
  rewrite <- (app_nil_r (fixups _ b)) in E.
  destruct (fixup_loop_block BF_FIXUP_TYPE_JMP_NEXT_RULE b [] ([] ++ prog_fixups p) (prog_img p) [] q q')
    as (p' & Henv & Himg & Hloop); [|exact E|].
  { rewrite Eq. cbn. by rewrite app_nil_r. }
  rewrite resolve_fix in Himg, Hloop by exact Hsz. cbn [fixup_loop] in Hloop. injection Hloop as <-.
  destruct Henv as (_ & E1 & E2 & E3 & E4 & E5 & E6 & E7 & E8 & E9 & E10).
  exists (prog_img_cap p'). rewrite Eq in E1, E2, E3, E4, E5, E6, E7, E8, E9, E10. cbn in *.
  unfold with_img, img_size. cbn. rewrite Himg, app_nil_r. congruence.
Qed.

(** Next-rule jumps are seen in the fixups. *)
Lemma no_rule_fixups b pos : forallb no_rule b = true <->
  Forall (fun fx => fixup_type fx <> BF_FIXUP_TYPE_JMP_NEXT_RULE) (fixups pos b).
Proof.
  revert pos. induction b as [|it b IH]; intros pos; cbn [fixups forallb]; [done|].
  rewrite andb_true_iff, Forall_app, <- IH. unfold item_fixups, no_rule at 1.
  destruct (item_fx it) as [[t a]|]; [|rewrite Forall_nil; naive_solver].
  rewrite Forall_singleton. cbn [fixup_type]. destruct t; naive_solver.
Qed.

Lemma emits_clean b p q : emits b p q -> clean p -> forallb no_rule b = true -> clean q.
Proof.
  intros [cap ->] Hc Hb. unfold clean. cbn. apply Forall_app. split; [done|by apply no_rule_fixups].
Qed.

(** * Every fixup resolved *)

Definition all_resolved (b : block) : Prop := Forall (fun it => item_fx it = None) b.

Lemma all_resolved_flat b : all_resolved b -> forall fd loc pos, final fd loc pos b = flat b.
Proof.
  intros Hb fd loc. induction Hb as [|it b Hi _ IH]; intros pos; cbn [final]; [done|].
  change (flat (it :: b)) with (item_insns it ++ flat b). rewrite IH. f_equal.
  by destruct it as [i [[]|]|i j [[]|]].
Qed.

(** A fixup that was applied has a value. *)
Lemma fixup_loop_values t todo kept p q fx : fixup_loop t todo kept p = Ok q ->
  fx ∈ todo -> fixup_type fx = t -> res_ok (fixup_value p fx) = true.
Proof.
  revert kept p. induction todo as [|f todo IH]; intros kept p; cbn [fixup_loop]; [by intros _ ?%elem_of_nil|].
  intros H Hin Ht. case_decide as E.
  - unfold apply_fixup in H. destruct (fixup_value p f) as [[it v]|] eqn:Ev; cbn [rbind] in H; [|done].
    apply elem_of_cons in Hin as [->|Hin]; [by rewrite Ev|].
    rewrite <- (IH _ _ H Hin Ht). f_equal. symmetry. apply fixup_value_env.
    unfold same_env, img_size. cbn. by rewrite length_alter.
  - apply elem_of_cons in Hin as [->|Hin]; [congruence|]. by eapply IH.
Qed.

Section PFinal.
Context (fd : bf_fixup_type -> bf_fixup_attr -> Z) (loc : bf_elfstub_id -> nat).

(** A block whose fixups of the types [dn] have been resolved. *)
Definition pfinal_item (dn : bf_fixup_type -> bool) (pc : nat) (it : item) : item :=
  match it with
  | ISingle i (Some (t, a)) => if dn t then ISingle (set_insn_imm (final_imm fd loc t a pc) i) None else it
  | ILd64 i j (Some (t, a)) => if dn t then ILd64 (set_insn_imm (final_imm fd loc t a pc) i) j None else it
  | _ => it
  end.

Fixpoint pfinal (dn : bf_fixup_type -> bool) (pc : nat) (b : block) : block :=
  match b with
  | [] => []
  | it :: b => pfinal_item dn pc it :: pfinal dn (pc + item_size it) b
  end.

Lemma item_size_pfinal dn pc it : item_size (pfinal_item dn pc it) = item_size it.
Proof. destruct it as [i [[t a]|]|i j [[t a]|]]; cbn; try done; by destruct (dn t). Qed.

Lemma size_pfinal dn pc b : size (pfinal dn pc b) = size b.
Proof.
  revert pc. induction b as [|it b IH]; intros pc; cbn [pfinal size]; [done|].
  by rewrite item_size_pfinal, IH.
Qed.

Lemma pfinal_id pc b : pfinal (fun _ => false) pc b = b.
Proof.
  revert pc. induction b as [|it b IH]; intros pc; cbn [pfinal]; [done|]. rewrite IH. f_equal.
  by destruct it as [i [[t a]|]|i j [[t a]|]].
Qed.

(** The fixups left. *)
Lemma pfinal_fixups dn pc b fx : fx ∈ fixups pc b -> dn (fixup_type fx) = false ->
  fx ∈ fixups pc (pfinal dn pc b).
Proof.
  revert pc. induction b as [|it b IH]; intros pc; cbn [fixups pfinal]; [done|].
  rewrite item_size_pfinal, !elem_of_app. intros [Hin|Hin] Hd; [left|right; by apply IH].
  unfold item_fixups in *. destruct it as [i [[t a]|]|i j [[t a]|]]; cbn in *; try done;
    apply list_elem_of_singleton in Hin; subst fx; cbn in Hd; rewrite Hd; by left.
Qed.

Definition value_final (p : bf_program) (t : bf_fixup_type) (fx : bf_fixup) : Prop :=
  fixup_type fx = t ->
  fixup_value p fx = Ok (BF_FIXUP_INSN_IMM, final_imm fd loc t (fixup_attr fx) (fixup_insn fx)).

Lemma fix_pfinal p t dn pc b : dn t = false -> Forall (value_final p t) (fixups pc b) ->
  fix_block (fixup_upd p) t pc (pfinal dn pc b) = pfinal (fun t' => dn t' || bool_decide (t = t')) pc b.
Proof.
  intros Ht. revert pc. induction b as [|it b IH]; intros pc Hv; cbn [fix_block pfinal fixups] in *; [done|].
  apply Forall_app in Hv as [Hi Hv]. rewrite item_size_pfinal, IH by done. f_equal.
  unfold item_fixups in Hi.
  destruct it as [i [[t' a]|]|i j [[t' a]|]]; cbn [item_fx pfinal_item] in *; try done;
    (destruct (dn t') eqn:Ed; cbn [fix_item orb]; [done|]; case_decide as E;
     [subst t'; rewrite bool_decide_eq_true_2 by done; apply Forall_inv in Hi;
      unfold fixup_upd; rewrite (Hi eq_refl); done
     |by rewrite bool_decide_eq_false_2]).
Qed.

Lemma pfinal_flat dn pc b : (forall t, t <> BF_FIXUP_TYPE_JMP_NEXT_RULE -> dn t = true) ->
  forallb no_rule b = true -> flat (pfinal dn pc b) = final fd loc pc b.
Proof.
  intros Hd. revert pc. induction b as [|it b IH]; intros pc; cbn [pfinal final forallb]; [done|].
  intros [Hi Hb]%andb_prop. change (flat (?x :: ?l)) with (item_insns x ++ flat l). rewrite IH by done.
  f_equal. unfold no_rule in Hi.
  destruct it as [i [[t a]|]|i j [[t a]|]]; cbn in *; try done; (rewrite Hd; [done|by intros ->]).
Qed.

(** The fixups of the block have a value when resolving succeeds. *)
Lemma holds_values p q t dn b : holds (pfinal dn 0 b) p -> _bf_program_fixup p t = Ok q ->
  dn t = false ->
  forall fx, fx ∈ fixups 0 b -> fixup_type fx = t -> res_ok (fixup_value p fx) = true.
Proof.
  intros [_ (rest & Hf & _)] Hq Hd fx Hin Ht. eapply fixup_loop_values; [exact Hq| |done].
  rewrite Hf. apply elem_of_app. left. apply pfinal_fixups; [done|by rewrite Ht].
Qed.

(** Resolving one type on a program that holds the block. *)
Lemma holds_pfinal_fix p q t dn b : holds (pfinal dn 0 b) p -> _bf_program_fixup p t = Ok q ->
  dn t = false ->
  (forall fx, fx ∈ fixups 0 b -> fixup_type fx = t -> res_ok (fixup_value p fx) = true ->
     value_final p t fx) ->
  holds (pfinal (fun t' => dn t' || bool_decide (t = t')) 0 b) q /\ same_env p q.
Proof.
  intros Hh Hq Hd Hv. pose proof (holds_fix _ _ _ _ Hh Hq) as [Hh' He]. split; [|done].
  rewrite fix_pfinal in Hh'; [done|done|]. apply Forall_forall. intros fx Hin Ht.
  apply Hv; [done..|by eapply holds_values|done].
Qed.
End PFinal.
