(* ===== verification/Context.v ===== *)
(** The state a generated program runs in: the packet's headers, the runtime
    context on the stack ([struct bf_runtime]), and the lemmas that run one
    item of a block symbolically.

    [ctx_rel lo pk s] says that the machine state [s] holds the packet [pk]
    with the layout [lo]; the prologue establishes it and every matcher
    preserves it. *)

From S2P Require Import Prelude Bpf Helper Hook Matcher BfSet Rule Chain Printer Program Block.
From S2P Require Import BlockExec.

(** * Memory lemmas *)

Lemma load_bytes_length m a n bs : load_bytes m a n = Some bs -> length bs = n.
Proof.
  revert a bs. induction n as [|n IH]; intros a bs; cbn [load_bytes]; [by intros [= <-]|].
  destruct (m !! u64 a); [|done]. destruct (load_bytes m (a + 1) n) eqn:E; [|done].
  intros [= <-]. cbn. f_equal. by eapply IH.
Qed.

Lemma load_bytes_app m a n k :
  load_bytes m a (n + k) =
  match load_bytes m a n, load_bytes m (a + Z.of_nat n) k with
  | Some x, Some y => Some (x ++ y)
  | _, _ => None
  end.
Proof.
  revert a. induction n as [|n IH]; intros a; cbn [load_bytes Nat.add].
  - rewrite Z.add_0_r. by destruct (load_bytes m a k).
  - destruct (m !! u64 a); [|done]. rewrite IH.
    replace (a + 1 + Z.of_nat n) with (a + Z.of_nat (S n)) by lia.
    destruct (load_bytes m (a + 1) n), (load_bytes m (a + Z.of_nat (S n)) k); done.
Qed.

(** Part of a mapped byte string. *)
Lemma load_bytes_sub m a bs o n : load_bytes m a (length bs) = Some bs ->
  (o + n <= length bs)%nat -> load_bytes m (a + Z.of_nat o) n = Some (sub_bytes o n bs).
Proof.
  intros H Hle. replace (length bs) with (o + (n + (length bs - o - n)))%nat in H by lia.
  rewrite load_bytes_app in H.
  destruct (load_bytes m a o) as [x|] eqn:Ex; [|done].
  rewrite load_bytes_app in H.
  destruct (load_bytes m (a + Z.of_nat o) n) as [y|] eqn:Ey; [|done].
  destruct (load_bytes m (a + Z.of_nat o + Z.of_nat n) (length bs - o - n)) as [z|] eqn:Ez; [|done].
  injection H as <-. apply load_bytes_length in Ex, Ey.
  unfold sub_bytes. rewrite drop_app_length' by done. by rewrite take_app_length'.
Qed.

Lemma load_sub m a bs o n : load_bytes m a (length bs) = Some bs ->
  (o + n <= length bs)%nat -> load m n (a + Z.of_nat o) = Some (le_combine (sub_bytes o n bs)).
Proof. intros. unfold load. by erewrite load_bytes_sub. Qed.

Lemma load_bytes_mapped m a n :
  (forall k, 0 <= k < Z.of_nat n -> is_Some (m !! u64 (a + k))) <-> is_Some (load_bytes m a n).
Proof.
  revert a. induction n as [|n IH]; intros a; cbn [load_bytes].
  - split; [by eexists|]. intros _ k Hk. lia.
  - split.
    + intros Hm. destruct (Hm 0 ltac:(lia)) as [b Hb]. rewrite Z.add_0_r in Hb. rewrite Hb.
      destruct (proj1 (IH (a + 1))) as [bs ->]; [|by eexists].
      intros k Hk. replace (a + 1 + k) with (a + (k + 1)) by lia. apply Hm. lia.
    + destruct (m !! u64 a) as [b|] eqn:Eb; [|by intros [? ?]].
      destruct (load_bytes m (a + 1) n) as [bs|] eqn:El; [|by intros [? ?]].
      intros _ k Hk. destruct (decide (k = 0)) as [->|]; [rewrite Z.add_0_r; by eexists|].
      replace (a + k) with (a + 1 + (k - 1)) by lia. apply IH; [by eexists|lia].
Qed.

(** Memories agreeing on a range load the same bytes from it. *)
Lemma load_bytes_agree m m' a n :
  (forall k, 0 <= k < Z.of_nat n -> m' !! u64 (a + k) = m !! u64 (a + k)) ->
  load_bytes m' a n = load_bytes m a n.
Proof.
  revert a. induction n as [|n IH]; intros a Hk; [done|]. cbn [load_bytes].
  pose proof (Hk 0 ltac:(lia)) as H0. rewrite Z.add_0_r in H0. rewrite H0, IH; [done|].
  intros k ?. replace (a + 1 + k) with (a + (k + 1)) by lia. apply Hk. lia.
Qed.

(** A store changes only the bytes it covers, and maps nothing new. *)
Lemma store_bytes_spec m a bs m' : store_bytes m a bs = Some m' ->
  (forall x, (forall k, 0 <= k < Z.of_nat (length bs) -> x <> u64 (a + k)) -> m' !! x = m !! x) /\
  (forall x, is_Some (m' !! x) <-> is_Some (m !! x)).
Proof.
  revert m a. induction bs as [|b bs IH]; intros m a; cbn [store_bytes].
  - by intros [= ->].
  - destruct (m !! u64 a) eqn:E; [|done]. intros H. apply IH in H as [H1 H2]. split.
    + intros x Hx. rewrite H1.
      * rewrite lookup_insert_ne; [done|]. specialize (Hx 0). rewrite Z.add_0_r in Hx.
        intros E'. apply Hx; [cbn; lia|done].
      * intros k Hk. replace (a + 1 + k) with (a + (k + 1)) by lia. apply Hx. cbn [length]. lia.
    + intros x. rewrite H2. destruct (decide (x = u64 a)) as [->|].
      * rewrite lookup_insert_eq, E. split; by eexists.
      * by rewrite lookup_insert_ne by done.
Qed.

Lemma store_bytes_mapped m a bs :
  (forall k, 0 <= k < Z.of_nat (length bs) -> is_Some (m !! u64 (a + k))) ->
  is_Some (store_bytes m a bs).
Proof.
  revert m a. induction bs as [|b bs IH]; intros m a Hm; cbn [store_bytes]; [by eexists|].
  destruct (Hm 0 ltac:(cbn; lia)) as [x Hx]. rewrite Z.add_0_r in Hx. rewrite Hx.
  apply IH. intros k Hk. replace (a + 1 + k) with (a + (k + 1)) by lia.
  destruct (decide (u64 a = u64 (a + (k + 1)))) as [->|].
  - rewrite lookup_insert_eq. by eexists.
  - rewrite lookup_insert_ne by done. apply Hm. cbn [length]. lia.
Qed.

(** Reading back what was stored, when the range does not wrap onto itself. *)
Lemma store_bytes_load m a bs m' : store_bytes m a bs = Some m' ->
  Z.of_nat (length bs) <= 2 ^ 64 -> load_bytes m' a (length bs) = Some bs.
Proof.
  revert m a. induction bs as [|b bs IH]; intros m a; [done|]. cbn [store_bytes load_bytes length].
  destruct (m !! u64 a) eqn:E; [|done]. intros H Hl.
  rewrite (IH _ _ H) by lia.
  apply store_bytes_spec in H as [H _]. rewrite H.
  - by rewrite lookup_insert_eq.
  - intros k Hk Heq. unfold u64 in Heq.
    assert ((k + 1) mod 2 ^ 64 = 0) as E0.
    { replace (k + 1) with ((a + 1 + k) - a) by lia. rewrite Zminus_mod, <- Heq, Z.sub_diag. done. }
    rewrite Z.mod_small in E0 by lia. lia.
Qed.

Definition mem_bytes (m : memory) : Prop := forall a b, m !! a = Some b -> is_byte b.

Lemma load_bytes_is_bytes m a n bs : mem_bytes m -> load_bytes m a n = Some bs -> is_bytes bs.
Proof.
  intros Hm. revert a bs. induction n as [|n IH]; intros a bs; cbn [load_bytes]; [by intros [= <-]; constructor|].
  destruct (m !! u64 a) eqn:E; [|done]. destruct (load_bytes m (a + 1) n) eqn:El; [|done].
  intros [= <-]. constructor; [by eapply Hm|by eapply IH].
Qed.

Lemma store_bytes_bytes m a bs m' : mem_bytes m -> is_bytes bs -> store_bytes m a bs = Some m' ->
  mem_bytes m'.
Proof.
  intros Hm Hb. revert m a Hm. induction Hb as [|b bs Hb _ IH]; intros m a Hm; cbn [store_bytes];
    [by intros [= <-]|].
  destruct (m !! u64 a); [|done]. apply IH. intros x y.
  destruct (decide (x = u64 a)) as [->|].
  - rewrite lookup_insert_eq. by intros [= <-].
  - rewrite lookup_insert_ne by done. apply Hm.
Qed.

(** * The packet *)

(** What a rule matches: the protocols and the headers, and what the runtime
    context has besides: the interface, the size, the mask of the extension
    headers, the mark, the map of the log, and the bytes of each header that
    can be logged, when there are some. *)
Record pkt : Type := mk_pkt {
  pk_l3proto : Z;
  pk_l4proto : Z;
  pk_l3 : list Z;
  pk_l4 : list Z;
  pk_ifindex : Z;
  pk_size : Z;
  pk_eh : Z;
  pk_mark : Z;
  pk_log_map : Z;
  pk_slice : bf_pkthdr -> option (list Z)
}.

Record pkt_wf (pk : pkt) : Prop := mk_pkt_wf {
  pw_l3proto : 0 <= pk_l3proto pk < 2 ^ 16;
  pw_l4proto : 0 <= pk_l4proto pk < 2 ^ 8;
  pw_l3_bytes : is_bytes (pk_l3 pk);
  pw_l4_bytes : is_bytes (pk_l4 pk);
  pw_ip4 : pk_l3proto pk = htobe16 ETH_P_IP -> (20 <= length (pk_l3 pk))%nat;
  pw_ip6 : pk_l3proto pk = htobe16 ETH_P_IPV6 -> (40 <= length (pk_l3 pk))%nat;
  pw_tcp : pk_l4proto pk = IPPROTO_TCP -> (20 <= length (pk_l4 pk))%nat;
  pw_udp : pk_l4proto pk = IPPROTO_UDP -> (8 <= length (pk_l4 pk))%nat;
  pw_icmp : pk_l4proto pk = IPPROTO_ICMP -> (8 <= length (pk_l4 pk))%nat;
  pw_icmpv6 : pk_l4proto pk = IPPROTO_ICMPV6 -> (8 <= length (pk_l4 pk))%nat;
  pw_ifindex : 0 <= pk_ifindex pk < 2 ^ 32;
  pw_eh : 0 <= pk_eh pk < 2 ^ 8;
  pw_mark : 0 <= pk_mark pk < 2 ^ 32
}.

(** Where things are: the frame pointer, the headers, the program's argument,
    the socket buffer, and its field holding the packet's mark.  The buffer is
    the argument itself, or what the argument's field at [lo_deref] points to. *)
Record layout : Type := mk_layout {
  lo_fp : Z;
  lo_l3 : Z;
  lo_l4 : Z;
  lo_arg : Z;
  lo_deref : option Z;
  lo_skb : Z;
  lo_mark : Z
}.

Definition ctx_addr (lo : layout) (f : rt_field) : Z := lo_fp lo + BF_PROG_CTX_OFF f.

(** The bytes the program never writes between the prologue and its end. *)
Definition scratch_free (lo : layout) (a : Z) (n : nat) : Prop :=
  forall k j, 0 <= k < Z.of_nat n -> -64 <= j < 0 -> u64 (a + k) <> u64 (lo_fp lo + j).
Definition mark_free (lo : layout) (a : Z) (n : nat) : Prop :=
  forall k j, 0 <= k < Z.of_nat n -> 0 <= j < 4 -> u64 (a + k) <> u64 (lo_mark lo + j).

Record layout_wf (lo : layout) (pk : pkt) : Prop := mk_layout_wf {
  lw_fp : sizeof_bf_runtime <= lo_fp lo < 2 ^ 64;
  lw_l3 : scratch_free lo (lo_l3 lo) (length (pk_l3 pk)) /\ mark_free lo (lo_l3 lo) (length (pk_l3 pk));
  lw_l4 : scratch_free lo (lo_l4 lo) (length (pk_l4 pk)) /\ mark_free lo (lo_l4 lo) (length (pk_l4 pk));
  lw_mark : scratch_free lo (lo_mark lo) 4;
  lw_path : match lo_deref lo with
            | Some o => scratch_free lo (lo_arg lo + s16 o) 8 /\ mark_free lo (lo_arg lo + s16 o) 8
            | None => True
            end;
  lw_stack : mark_free lo (lo_fp lo - sizeof_bf_runtime) 240
}.

(** A header that can be logged: its pointer is set, and its size fits. *)
Definition header_at (m : memory) (ctx : Z) (hdr : bf_pkthdr) (slice : option (list Z)) : Prop :=
  exists ptr size, load m 8 (ctx + offsetof_bf_runtime (hdr_ptr hdr)) = Some ptr /\
    load m 1 (ctx + offsetof_bf_runtime (hdr_size hdr)) = Some size /\
    match slice with
    | Some bs => ptr <> 0 /\ size = Z.of_nat (length bs) /\ (length bs <= slice_len hdr)%nat /\
        load_bytes m ptr (length bs) = Some bs
    | None => ptr = 0 \/ Z.of_nat (slice_len hdr) < size
    end.

Lemma header_at_frame m m' ctx hdr slice :
  load m' 8 (ctx + offsetof_bf_runtime (hdr_ptr hdr)) = load m 8 (ctx + offsetof_bf_runtime (hdr_ptr hdr)) ->
  load m' 1 (ctx + offsetof_bf_runtime (hdr_size hdr)) = load m 1 (ctx + offsetof_bf_runtime (hdr_size hdr)) ->
  (forall ptr bs, load m 8 (ctx + offsetof_bf_runtime (hdr_ptr hdr)) = Some ptr -> slice = Some bs ->
     load_bytes m' ptr (length bs) = load_bytes m ptr (length bs)) ->
  header_at m ctx hdr slice -> header_at m' ctx hdr slice.
Proof.
  intros Hp Hs Hb (ptr & size & Hptr & Hsize & H). exists ptr, size. split_and!; [congruence..|].
  destruct slice as [bs|]; [|done]. destruct H as (? & ? & ? & Hl). split_and!; [done..|].
  by rewrite (Hb ptr bs Hptr eq_refl).
Qed.

(** The address of a field of the context, from its beginning. *)
Lemma ctx_addr_arg lo f : ctx_addr lo RT_arg + offsetof_bf_runtime f = ctx_addr lo f.
Proof. unfold ctx_addr, BF_PROG_CTX_OFF. cbn [offsetof_bf_runtime]. lia. Qed.

Record ctx_rel {W} (lo : layout) (pk : pkt) (s : vm W) : Prop := mk_ctx_rel {
  cr_pkt : pkt_wf pk;
  cr_lay : layout_wf lo pk;
  cr_r10 : regs s !! 10 = Some (lo_fp lo);
  cr_r7 : regs s !! 7 = Some (pk_l3proto pk);
  cr_r8 : regs s !! 8 = Some (pk_l4proto pk);
  cr_stack : forall o, - sizeof_bf_runtime <= o < 0 -> is_Some (mem s !! u64 (lo_fp lo + o));
  cr_bytes : mem_bytes (mem s);
  cr_arg : load (mem s) 8 (ctx_addr lo RT_arg) = Some (lo_arg lo);
  cr_l3_hdr : pk_l3proto pk <> 0 -> load (mem s) 8 (ctx_addr lo RT_l3_hdr) = Some (lo_l3 lo);
  cr_l4_hdr : pk_l4proto pk <> 0 -> load (mem s) 8 (ctx_addr lo RT_l4_hdr) = Some (lo_l4 lo);
  cr_l3 : load_bytes (mem s) (lo_l3 lo) (length (pk_l3 pk)) = Some (pk_l3 pk);
  cr_l4 : load_bytes (mem s) (lo_l4 lo) (length (pk_l4 pk)) = Some (pk_l4 pk);
  cr_ifindex : load (mem s) 4 (ctx_addr lo RT_ifindex) = Some (pk_ifindex pk);
  cr_size : load (mem s) 8 (ctx_addr lo RT_pkt_size) = Some (pk_size pk);
  cr_eh : load_bytes (mem s) (ctx_addr lo RT_ipv6_eh) 1 = Some [pk_eh pk];
  cr_path : match lo_deref lo with
            | Some o => load (mem s) 8 (lo_arg lo + s16 o) = Some (lo_skb lo)
            | None => lo_skb lo = lo_arg lo
            end;
  cr_mark : load (mem s) 4 (lo_mark lo) = Some (pk_mark pk);
  cr_log_map : load (mem s) 8 (ctx_addr lo RT_log_map) = Some (pk_log_map pk);
  cr_slice hdr : header_at (mem s) (ctx_addr lo RT_arg) hdr (pk_slice pk hdr);
  cr_slice_free hdr ptr bs : load (mem s) 8 (ctx_addr lo (hdr_ptr hdr)) = Some ptr ->
    pk_slice pk hdr = Some bs -> scratch_free lo ptr (length bs) /\ mark_free lo ptr (length bs)
}.

(** ** Preservation *)

Lemma ctx_rel_set_reg {W} lo pk (s : vm W) r v : ctx_rel lo pk s ->
  r <> 7 -> r <> 8 -> r <> 10 -> ctx_rel lo pk (set_reg r v s).
Proof.
  intros [] H7 H8 H10. constructor; try done; cbn [set_reg regs];
    by rewrite lookup_insert_ne.
Qed.

Lemma ctx_rel_clobber {W} lo pk (s : vm W) r0 (w : W) : ctx_rel lo pk s ->
  ctx_rel lo pk (mk_vm (clobber (regs s) r0) (mem s) w).
Proof.
  intros []. constructor; try done; cbn [regs]; unfold clobber;
    by rewrite lookup_insert_ne, !lookup_delete_ne by done.
Qed.

Lemma ctx_rel_world {W} lo pk (s : vm W) (w : W) : ctx_rel lo pk s ->
  ctx_rel lo pk (mk_vm (regs s) (mem s) w).
Proof. intros []. by constructor. Qed.

(** Memory that agrees outside the scratch area. *)
Lemma ctx_rel_scratch {W} lo pk (s : vm W) m : ctx_rel lo pk s ->
  (forall x, (forall j, -64 <= j < 0 -> x <> u64 (lo_fp lo + j)) -> m !! x = mem s !! x) ->
  (forall x, is_Some (m !! x) <-> is_Some (mem s !! x)) -> mem_bytes m ->
  ctx_rel lo pk (set_mem m s).
Proof.
  intros [] Hm Hdom Hb.
  assert (forall o n, - sizeof_bf_runtime <= o -> o + Z.of_nat n <= -64 ->
    load_bytes m (lo_fp lo + o) n = load_bytes (mem s) (lo_fp lo + o) n) as Hst.
  { intros o n Ho Hn. apply load_bytes_agree. intros k Hk. apply Hm. intros j Hj.
    destruct cr_lay0 as [[Hfp1 Hfp2] _ _ _ _ _]. unfold sizeof_bf_runtime in *.
    rewrite !u64_small by lia. lia. }
  assert (forall a n, scratch_free lo a n -> load_bytes m a n = load_bytes (mem s) a n) as Hsf.
  { intros a n Hf. apply load_bytes_agree. intros k Hk. apply Hm. intros j Hj. by apply Hf. }
  unfold ctx_addr, BF_PROG_CTX_OFF, load in *.
  constructor; try done; cbn [set_mem mem regs]; unfold ctx_addr, BF_PROG_CTX_OFF, load.
  - intros o Ho. apply Hdom. auto.
  - rewrite Hst by done. done.
  - rewrite Hst by done. done.
  - rewrite Hst by done. done.
  - rewrite Hsf by apply cr_lay0. done.
  - rewrite Hsf by apply cr_lay0. done.
  - rewrite Hst by done. done.
  - rewrite Hst by done. done.
  - rewrite Hst by done. done.
  - destruct cr_lay0 as [_ _ _ _ Hp _]. destruct (lo_deref lo); [|done].
    rewrite Hsf by apply Hp. done.
  - rewrite Hsf by apply cr_lay0. done.
  - rewrite Hst by done. done.
  - intros hdr. apply (header_at_frame (mem s) m (ctx_addr lo RT_arg)); [..|apply cr_slice0]; rewrite ctx_addr_arg;
      unfold load, ctx_addr, BF_PROG_CTX_OFF.
    + by rewrite Hst by (by destruct hdr).
    + by rewrite Hst by (by destruct hdr).
    + intros ptr bs Hp Hb'. by apply Hsf, (cr_slice_free0 hdr ptr bs).
  - intros hdr ptr bs Hp. apply cr_slice_free0. by rewrite <- Hp, Hst by (by destruct hdr).
Qed.

Lemma stack_load {W} lo pk (s : vm W) o n : ctx_rel lo pk s ->
  - sizeof_bf_runtime <= o -> o + Z.of_nat n <= 0 ->
  exists bs, load_bytes (mem s) (lo_fp lo + o) n = Some bs /\ is_bytes bs /\ length bs = n.
Proof.
  intros Hc Ho Hn. destruct (proj1 (load_bytes_mapped (mem s) (lo_fp lo + o) n)) as [bs Hbs].
  - intros k Hk. rewrite <- Z.add_assoc. apply Hc. lia.
  - exists bs. split_and!; [done|by eapply load_bytes_is_bytes, Hbs; apply Hc|by eapply load_bytes_length].
Qed.

(** A store into the scratch area. *)
Lemma scratch_store {W} lo pk (s : vm W) n i v : ctx_rel lo pk s ->
  0 <= i -> i + Z.of_nat n <= 64 ->
  exists m, store (mem s) n (lo_fp lo + BF_PROG_SCR_OFF i) v = Some m /\
    ctx_rel lo pk (set_mem m s) /\
    load_bytes m (lo_fp lo + BF_PROG_SCR_OFF i) n = Some (le_split n v) /\
    (forall j k, 0 <= j -> j + Z.of_nat k <= 64 -> (j + Z.of_nat k <= i \/ i + Z.of_nat n <= j) ->
      load_bytes m (lo_fp lo + BF_PROG_SCR_OFF j) k =
      load_bytes (mem s) (lo_fp lo + BF_PROG_SCR_OFF j) k).
Proof.
  intros Hc Hi Hn. pose proof Hc as []. destruct cr_lay0 as [[Hfp1 Hfp2] _ _ _ _ _].
  unfold BF_PROG_SCR_OFF, sizeof_bf_runtime in *. cbn [offsetof_bf_runtime] in *.
  destruct (store_bytes_mapped (mem s) (lo_fp lo + (-240 + 176 + i)) (le_split n v)) as [m Hm].
  { rewrite length_le_split. intros k Hk. rewrite <- Z.add_assoc. apply cr_stack0. lia. }
  exists m. pose proof (store_bytes_spec _ _ _ _ Hm) as [Hs Hd]. rewrite length_le_split in Hs.
  split_and!; [done|..].
  - apply ctx_rel_scratch; [done| |done|].
    + intros x Hx. apply Hs. intros k Hk. rewrite <- Z.add_assoc. apply Hx. lia.
    + eapply store_bytes_bytes; [done|apply le_split_bytes|done].
  - rewrite <- (length_le_split n v) at 1. eapply store_bytes_load; [done|]. rewrite length_le_split. lia.
  - intros j k Hj Hk Hd'. apply load_bytes_agree. intros l Hl. apply Hs. intros l' Hl'.
    rewrite !u64_small by lia. lia.
Qed.

(** ** Writing the mark *)

Definition with_mark (mark : Z) (pk : pkt) : pkt :=
  mk_pkt (pk_l3proto pk) (pk_l4proto pk) (pk_l3 pk) (pk_l4 pk) (pk_ifindex pk) (pk_size pk) (pk_eh pk) mark
    (pk_log_map pk) (pk_slice pk).

Lemma mark_store {W} lo pk (s : vm W) v : ctx_rel lo pk s -> 0 <= v < 2 ^ 32 ->
  exists m, store (mem s) 4 (lo_mark lo) v = Some m /\ ctx_rel lo (with_mark v pk) (set_mem m s).
Proof.
  intros Hc Hv. pose proof Hc as [].
  assert (is_Some (load_bytes (mem s) (lo_mark lo) 4)) as Hmap.
  { unfold load in cr_mark0. by destruct (load_bytes (mem s) (lo_mark lo) 4); [eexists|]. }
  destruct (store_bytes_mapped (mem s) (lo_mark lo) (le_split 4 v)) as [m Hm].
  { rewrite length_le_split. by apply load_bytes_mapped. }
  exists m. split; [done|]. pose proof (store_bytes_spec _ _ _ _ Hm) as [Hs Hd].
  rewrite length_le_split in Hs.
  assert (forall a n, mark_free lo a n -> load_bytes m a n = load_bytes (mem s) a n) as Hmf.
  { intros a n Hf. apply load_bytes_agree. intros k Hk. apply Hs. intros j Hj. apply Hf; lia. }
  destruct cr_lay0 as [Hfp Hl3 Hl4 Hmk Hpath Hstk].
  assert (forall o n, - sizeof_bf_runtime <= o -> o + Z.of_nat n <= 0 ->
    load_bytes m (lo_fp lo + o) n = load_bytes (mem s) (lo_fp lo + o) n) as Hst.
  { intros o n Ho Hn. apply Hmf. intros k j Hk Hj.
    replace (lo_fp lo + o + k) with (lo_fp lo - sizeof_bf_runtime + (o + sizeof_bf_runtime + k)) by lia.
    apply Hstk; [unfold sizeof_bf_runtime in *; lia|done]. }
  unfold ctx_addr, BF_PROG_CTX_OFF, load in *.
  constructor; try done; cbn [set_mem mem regs with_mark pk_l3 pk_l4 pk_l3proto pk_l4proto pk_ifindex pk_size pk_eh pk_mark pk_log_map pk_slice];
    unfold ctx_addr, BF_PROG_CTX_OFF, load.
  - destruct cr_pkt0. by constructor.
  - intros o Ho. apply Hd. auto.
  - eapply store_bytes_bytes; [done|apply le_split_bytes|done].
  - rewrite Hst by done. done.
  - rewrite Hst by done. done.
  - rewrite Hst by done. done.
  - rewrite Hmf by apply Hl3. done.
  - rewrite Hmf by apply Hl4. done.
  - rewrite Hst by done. done.
  - rewrite Hst by done. done.
  - rewrite Hst by done. done.
  - destruct (lo_deref lo); [|done]. rewrite Hmf by apply Hpath. done.
  - pose proof (store_bytes_load _ _ _ _ Hm) as Hl. rewrite length_le_split in Hl.
    rewrite Hl by lia. cbn [fmap option_fmap option_map]. rewrite le_combine_split. f_equal.
    apply Z.mod_small. change (256 ^ Z.of_nat 4) with (2 ^ 32). lia.  - rewrite Hst by done. done.
  - intros hdr. apply (header_at_frame (mem s) m (ctx_addr lo RT_arg)); [..|apply cr_slice0]; rewrite ctx_addr_arg;
      unfold load, ctx_addr, BF_PROG_CTX_OFF.
    + by rewrite Hst by (by destruct hdr).
    + by rewrite Hst by (by destruct hdr).
    + intros ptr bs Hp Hb'. by apply Hmf, (cr_slice_free0 hdr ptr bs).
  - intros hdr ptr bs Hp. apply cr_slice_free0. by rewrite <- Hp, Hst by (by destruct hdr).
Qed.
