(* ===== verification/Symbolic.v ===== *)
(** Symbolic execution of blocks: one lemma per instruction the generators
    emit, and the tactics that apply them.  The lemmas rewrite
    [exec (item :: b) 0 s] to the execution of [b]. *)

From S2P Require Import Prelude Bpf Helper Hook Matcher BfSet Rule Chain Printer Program Block.
From S2P Require Import BlockExec Context.

(** The value of a register after writes. *)
Lemma regs_set_reg {W} r v (s : vm W) : regs (set_reg r v s) = <[r := v]> (regs s).
Proof. done. Qed.
Lemma mem_set_reg {W} r v (s : vm W) : mem (set_reg r v s) = mem s.
Proof. done. Qed.
Lemma world_set_reg {W} r v (s : vm W) : world (set_reg r v s) = world s.
Proof. done. Qed.
Lemma regs_set_mem {W} m (s : vm W) : regs (set_mem m s) = regs s.
Proof. done. Qed.
Lemma mem_set_mem {W} m (s : vm W) : mem (set_mem m s) = m.
Proof. done. Qed.
Lemma world_set_mem {W} m (s : vm W) : world (set_mem m s) = world s.
Proof. done. Qed.

Create Rewrite HintDb vm.
#[global] Hint Rewrite @regs_set_reg @mem_set_reg @world_set_reg
  @regs_set_mem @mem_set_mem @world_set_mem : vm.

Definition JMP : fx := Some (BF_FIXUP_TYPE_JMP_NEXT_RULE, AttrNone).

Section Symbolic.
Context {W : Type} `{Kernel W}.
Implicit Types (s : vm W) (b : block).

Definition mem_size (sz : Z) : Prop := sz = BPF_B \/ sz = BPF_H \/ sz = BPF_W \/ sz = BPF_DW.

Lemma ex_ldx sz d src o b s a v : mem_size sz -> regs s !! src = Some a ->
  load (mem s) (size_bytes sz) (a + s16 o) = Some v ->
  exec (ISingle (BPF_LDX_MEM sz d src o) None :: b) 0 s = exec b 0 (set_reg d v s).
Proof.
  intros Hs Ha Hv. cbn [exec exec_item]. unfold exec_insn.
  assert (decode (BPF_LDX_MEM sz d src o) = Some (KLdx sz d src (s16 o))) as ->
    by (destruct Hs as [->|[->|[->| ->]]]; done).
  cbn [exec_plain]. rewrite Ha, Hv. done.
Qed.

Lemma ex_stx sz d src o b s a v m : mem_size sz -> regs s !! d = Some a -> regs s !! src = Some v ->
  store (mem s) (size_bytes sz) (a + s16 o) v = Some m ->
  exec (ISingle (BPF_STX_MEM sz d src o) None :: b) 0 s = exec b 0 (set_mem m s).
Proof.
  intros Hs Ha Hv Hm. cbn [exec exec_item]. unfold exec_insn.
  assert (decode (BPF_STX_MEM sz d src o) = Some (KStx sz d src (s16 o))) as ->
    by (destruct Hs as [->|[->|[->| ->]]]; done).
  cbn [exec_plain]. rewrite Ha, Hv, Hm. done.
Qed.

Lemma ex_mov32_imm d imm b s :
  exec (ISingle (BPF_MOV32_IMM d imm) None :: b) 0 s = exec b 0 (set_reg d (u32 imm) s).
Proof.
  cbn [exec exec_item]. unfold exec_insn.
  assert (decode (BPF_MOV32_IMM d imm) = Some (KAlu false BPF_MOV d (OImm (s32 imm)))) as -> by done.
  cbn [exec_plain operand_val Z.eqb BPF_MOV Pos.eqb].
  change (BPF_MOV =? BPF_MOV) with true. cbv match.
  assert (alu_op BPF_MOV (u32 0) (u32 (u64 (s32 imm))) 32 = Some (u32 imm)) as ->; [|done].
  unfold alu_op. cbn. f_equal. unfold u64, u32.
  change (2 ^ 64) with (2 ^ 32 * 2 ^ 32). rewrite Z.rem_mul_r by lia.
  rewrite Z.mul_comm, Z_mod_plus_full, Z.mod_mod by lia. apply (u32_s32 imm).
Qed.

Lemma ex_mov64_imm d imm b s :
  exec (ISingle (BPF_MOV64_IMM d imm) None :: b) 0 s = exec b 0 (set_reg d (u64 (s32 imm)) s).
Proof. done. Qed.

Lemma ex_mov64_reg d src b s v : regs s !! src = Some v ->
  exec (ISingle (BPF_MOV64_REG d src) None :: b) 0 s = exec b 0 (set_reg d v s).
Proof.
  intros Hv. cbn [exec exec_item]. unfold exec_insn.
  assert (decode (BPF_MOV64_REG d src) = Some (KAlu true BPF_MOV d (OReg src))) as -> by done.
  cbn [exec_plain operand_val]. change (BPF_MOV =? BPF_MOV) with true. cbv match. by rewrite Hv.
Qed.

(** Arithmetic on 64 bits. *)
Definition alu_code (op : Z) : Prop :=
  op = BPF_ADD \/ op = BPF_SUB \/ op = BPF_OR \/ op = BPF_AND \/ op = BPF_LSH \/ op = BPF_RSH.

Lemma ex_alu64_imm op d imm b s x v : alu_code op -> regs s !! d = Some x ->
  alu_op op x (u64 (s32 imm)) 64 = Some v ->
  exec (ISingle (BPF_ALU64_IMM op d imm) None :: b) 0 s = exec b 0 (set_reg d v s).
Proof.
  intros Ho Hx Hv. cbn [exec exec_item]. unfold exec_insn.
  assert (decode (BPF_ALU64_IMM op d imm) = Some (KAlu true op d (OImm (s32 imm)))) as ->
    by (destruct Ho as [->|[->|[->|[->|[->| ->]]]]]; done).
  cbn [exec_plain operand_val].
  assert ((op =? BPF_MOV) = false) as -> by (destruct Ho as [->|[->|[->|[->|[->| ->]]]]]; done).
  rewrite Hx, Hv. done.
Qed.

Lemma ex_alu64_reg op d src b s x y v : alu_code op -> regs s !! d = Some x -> regs s !! src = Some y ->
  alu_op op x y 64 = Some v ->
  exec (ISingle (BPF_ALU64_REG op d src) None :: b) 0 s = exec b 0 (set_reg d v s).
Proof.
  intros Ho Hx Hy Hv. cbn [exec exec_item]. unfold exec_insn.
  assert (decode (BPF_ALU64_REG op d src) = Some (KAlu true op d (OReg src))) as ->
    by (destruct Ho as [->|[->|[->|[->|[->| ->]]]]]; done).
  cbn [exec_plain operand_val].
  assert ((op =? BPF_MOV) = false) as -> by (destruct Ho as [->|[->|[->|[->|[->| ->]]]]]; done).
  rewrite Hx, Hy, Hv. done.
Qed.

Lemma ex_and32_imm d imm b s x : regs s !! d = Some x ->
  exec (ISingle (BPF_ALU32_IMM BPF_AND d imm) None :: b) 0 s =
  exec b 0 (set_reg d (Z.land (u32 x) (u32 (u64 (s32 imm)))) s).
Proof.
  intros Hx. cbn [exec exec_item]. unfold exec_insn.
  assert (decode (BPF_ALU32_IMM BPF_AND d imm) = Some (KAlu false BPF_AND d (OImm (s32 imm)))) as -> by done.
  cbn [exec_plain operand_val]. change (BPF_AND =? BPF_MOV) with false. cbv match. by rewrite Hx.
Qed.

Lemma ex_and32_reg d src b s x y : regs s !! d = Some x -> regs s !! src = Some y ->
  exec (ISingle (BPF_ALU32_REG BPF_AND d src) None :: b) 0 s =
  exec b 0 (set_reg d (Z.land (u32 x) (u32 y)) s).
Proof.
  intros Hx Hy. cbn [exec exec_item]. unfold exec_insn.
  assert (decode (BPF_ALU32_REG BPF_AND d src) = Some (KAlu false BPF_AND d (OReg src))) as -> by done.
  cbn [exec_plain operand_val]. change (BPF_AND =? BPF_MOV) with false. cbv match. by rewrite Hx, Hy.
Qed.

Lemma ex_bswap16 d b s x : regs s !! d = Some x ->
  exec (ISingle (BPF_BSWAP d 16) None :: b) 0 s = exec b 0 (set_reg d (bswap16 x) s).
Proof.
  intros Hx. cbn [exec exec_item]. unfold exec_insn.
  assert (decode (BPF_BSWAP d 16) = Some (KBswap d 16)) as -> by done.
  cbn [exec_plain]. by rewrite Hx.
Qed.

(** Jumps to the next rule. *)
Definition jmp_code (op : Z) : Prop :=
  op = BPF_JEQ \/ op = BPF_JNE \/ op = BPF_JGT \/ op = BPF_JGE \/ op = BPF_JLT.

Lemma op_jmp_code op : jmp_code (if decide (op = BF_MATCHER_EQ) then BPF_JNE else BPF_JEQ).
Proof. unfold jmp_code. case_decide; tauto. Qed.

Lemma jmp_code_jcc op x y : jmp_code op -> jcc op x y = Some
  (if op =? BPF_JEQ then x =? y else if op =? BPF_JNE then negb (x =? y)
   else if op =? BPF_JGT then y <? x else if op =? BPF_JGE then y <=? x else x <? y).
Proof. intros [->|[->|[->|[->| ->]]]]; done. Qed.

Lemma decode_jmp_imm op d imm o : jmp_code op ->
  decode (BPF_JMP_IMM op d imm o) = Some (KJcc op d (OImm (s32 imm)) (s16 o)).
Proof. intros [->|[->|[->|[->| ->]]]]; done. Qed.

Lemma decode_jmp_reg op d src o : jmp_code op ->
  decode (BPF_JMP_REG op d src o) = Some (KJcc op d (OReg src) (s16 o)).
Proof. intros [->|[->|[->|[->| ->]]]]; done. Qed.

Lemma ex_jmp_imm_rule op d imm o b s x c : jmp_code op -> regs s !! d = Some x ->
  jcc op x (u64 (s32 imm)) = Some c ->
  exec (ISingle (BPF_JMP_IMM op d imm o) JMP :: b) 0 s = if c then BRule s else exec b 0 s.
Proof.
  intros Ho Hx Hc. cbn [exec exec_item JMP]. rewrite decode_jmp_imm by done.
  unfold exec_jcc. cbn [operand_val]. rewrite Hx, Hc. by destruct c.
Qed.

Lemma ex_jmp_reg_rule op d src o b s x y c : jmp_code op -> regs s !! d = Some x ->
  regs s !! src = Some y -> jcc op x y = Some c ->
  exec (ISingle (BPF_JMP_REG op d src o) JMP :: b) 0 s = if c then BRule s else exec b 0 s.
Proof.
  intros Ho Hx Hy Hc. cbn [exec exec_item JMP]. rewrite decode_jmp_reg by done.
  unfold exec_jcc. cbn [operand_val]. rewrite Hx, Hy, Hc. by destruct c.
Qed.

Lemma ex_ja_rule o b s : exec (ISingle (BPF_JMP_A o) JMP :: b) 0 s = BRule s.
Proof. done. Qed.

(** Jumps inside the block, after their offset has been set. *)
Lemma ex_jmp_imm op d imm o b s x c (n : nat) : jmp_code op -> regs s !! d = Some x ->
  jcc op x (u64 (s32 imm)) = Some c -> Z.of_nat n < 2 ^ 15 ->
  exec (ISingle (set_insn_off (s16 (Z.of_nat n)) (BPF_JMP_IMM op d imm o)) None :: b) 0 s =
  if c then exec b n s else exec b 0 s.
Proof.
  intros Ho Hx Hc Hn. cbn [exec exec_item]. unfold exec_insn.
  rewrite decode_set_off, decode_jmp_imm by done. unfold exec_jcc. cbn [operand_val].
  rewrite Hx, Hc. rewrite s16_small by lia. destruct c; [|done]. unfold jump_fwd.
  destruct (Z.leb_spec 0 (Z.of_nat n)); [|lia]. by rewrite Nat2Z.id.
Qed.

Lemma ex_jmp_reg op d src o b s x y c (n : nat) : jmp_code op -> regs s !! d = Some x ->
  regs s !! src = Some y -> jcc op x y = Some c -> Z.of_nat n < 2 ^ 15 ->
  exec (ISingle (set_insn_off (s16 (Z.of_nat n)) (BPF_JMP_REG op d src o)) None :: b) 0 s =
  if c then exec b n s else exec b 0 s.
Proof.
  intros Ho Hx Hy Hc Hn. cbn [exec exec_item]. unfold exec_insn.
  rewrite decode_set_off, decode_jmp_reg by done. unfold exec_jcc. cbn [operand_val].
  rewrite Hx, Hy, Hc. rewrite s16_small by lia. destruct c; [|done]. unfold jump_fwd.
  destruct (Z.leb_spec 0 (Z.of_nat n)); [|lia]. by rewrite Nat2Z.id.
Qed.

Lemma ex_ja o b s (n : nat) : Z.of_nat n < 2 ^ 15 ->
  exec (ISingle (set_insn_off (s16 (Z.of_nat n)) (BPF_JMP_A o)) None :: b) 0 s = exec b n s.
Proof.
  intros Hn. cbn [exec exec_item]. unfold exec_insn. rewrite decode_set_off.
  change (decode (BPF_JMP_A o)) with (Some (KJa (s16 o))). cbv match.
  rewrite s16_small by lia. unfold jump_fwd.
  destruct (Z.leb_spec 0 (Z.of_nat n)); [|lia]. by rewrite Nat2Z.id.
Qed.

(** Calls, map loads, exit. *)
Lemma ex_helper id b s r0 m w : - 2 ^ 31 <= id < 2 ^ 31 ->
  k_ext (Helper id) (regs s) (mem s) (world s) = Some (r0, m, w) ->
  exec (ISingle (BPF_EMIT_CALL id) None :: b) 0 s =
  exec b 0 (mk_vm (clobber (regs s) r0) m w).
Proof.
  intros Hid Hk. cbn [exec exec_item]. unfold exec_insn.
  assert (decode (BPF_EMIT_CALL id) = Some (KCall 0 (s32 id))) as -> by done.
  assert (s32 id = id) as ->.
  { unfold s32, sw. destruct (decide (0 <= id)).
    - rewrite Z.mod_small by lia. by rewrite decide_True by lia.
    - replace (id mod 2 ^ 32) with (id + 2 ^ 32).
      + rewrite decide_False by lia. lia.
      + rewrite <- (Z_mod_plus_full id 1). rewrite Z.mul_1_l. symmetry. apply Z.mod_small. lia. }
  change (0 =? 0) with true. cbv match. unfold do_call, fall_opt. by rewrite Hk.
Qed.

Lemma ex_stub id b s r0 m w :
  k_stub id (regs s) (mem s) (world s) = Some (r0, m, w) ->
  exec (ISingle (BPF_CALL_REL 0) (Some (BF_FIXUP_ELFSTUB_CALL, AttrStub id)) :: b) 0 s =
  exec b 0 (mk_vm (clobber (regs s) r0) m w).
Proof.
  intros Hk. cbn [exec exec_item].
  change (decode (BPF_CALL_REL 0)) with (Some (KCall 1 0)). change (1 =? BPF_PSEUDO_CALL) with true.
  cbv match. unfold do_call, fall_opt. by rewrite Hk.
Qed.

Definition map_fixup (t : bf_fixup_type) : Prop :=
  t <> BF_FIXUP_TYPE_JMP_NEXT_RULE /\ t <> BF_FIXUP_ELFSTUB_CALL.

Lemma ex_ld_map t reg a b s : map_fixup t ->
  exec (ld_map_item t reg a :: b) 0 s = exec b 0 (set_reg reg (k_map t a) s).
Proof. intros [? ?]. by destruct t. Qed.

Lemma ex_exit b s r0 : regs s !! 0 = Some r0 ->
  exec (ISingle BPF_EXIT_INSN None :: b) 0 s = BExit r0 s.
Proof.
  intros Hr. cbn [exec exec_item]. unfold exec_insn.
  change (decode BPF_EXIT_INSN) with (Some KExit). cbv match. by rewrite Hr.
Qed.

Lemma ex_nil k s : exec [] k s = BFall k s.
Proof. done. Qed.

Lemma ex_skip1 i f b (n : nat) s : exec (ISingle i f :: b) (S n) s = exec b n s.
Proof. cbn. by rewrite Nat.sub_0_r. Qed.
End Symbolic.

(** Registers and memory of a state built by symbolic steps. *)
Ltac vm_simpl := autorewrite with vm.
Ltac reg_tac :=
  vm_simpl; unfold clobber; cbn [regs mem world];
  repeat first
    [ rewrite lookup_insert_eq
    | rewrite lookup_insert_ne by (unfold BPF_REG_0, BPF_REG_1, BPF_REG_2, BPF_REG_3, BPF_REG_4,
        BPF_REG_5, BPF_REG_6, BPF_REG_7, BPF_REG_8, BPF_REG_10; congruence)
    | rewrite lookup_delete_ne by (unfold BPF_REG_0, BPF_REG_1, BPF_REG_2, BPF_REG_3, BPF_REG_4,
        BPF_REG_5, BPF_REG_6, BPF_REG_7, BPF_REG_8, BPF_REG_10; congruence) ];
  first [ reflexivity | eassumption | eauto with ctx ].

Ltac code_tac := unfold mem_size, jmp_code, alu_code; tauto.

Create HintDb ctx discriminated.

(** ** Reading the packet *)

Section Fields.
Context {W : Type} `{Kernel W}.
Implicit Types (s : vm W).

Lemma ctx_off_s16 f : s16 (BF_PROG_CTX_OFF f) = BF_PROG_CTX_OFF f.
Proof. by destruct f. Qed.

Lemma l3_load lo pk s n o : ctx_rel lo pk s -> 0 <= o < 2 ^ 15 ->
  (Z.to_nat o + n <= length (pk_l3 pk))%nat ->
  load (mem s) n (lo_l3 lo + s16 o) = Some (le_combine (sub_bytes (Z.to_nat o) n (pk_l3 pk))).
Proof.
  intros Hc Ho Hl. rewrite s16_small by lia. rewrite <- (Z2Nat.id o) at 1 by lia.
  apply load_sub; [apply Hc|done].
Qed.

Lemma l4_load lo pk s n o : ctx_rel lo pk s -> 0 <= o < 2 ^ 15 ->
  (Z.to_nat o + n <= length (pk_l4 pk))%nat ->
  load (mem s) n (lo_l4 lo + s16 o) = Some (le_combine (sub_bytes (Z.to_nat o) n (pk_l4 pk))).
Proof.
  intros Hc Ho Hl. rewrite s16_small by lia. rewrite <- (Z2Nat.id o) at 1 by lia.
  apply load_sub; [apply Hc|done].
Qed.

(** The protocol check and the load of the header's address, as most matchers
    start. *)
Lemma ex_check_l3 lo pk s b proto : ctx_rel lo pk s -> 0 < proto < 2 ^ 31 ->
  exec (ISingle (BPF_JMP_IMM BPF_JNE BPF_REG_7 proto 0) JMP ::
        ISingle (BPF_LDX_MEM BPF_DW BPF_REG_6 BPF_REG_10 (BF_PROG_CTX_OFF RT_l3_hdr)) None :: b) 0 s =
  if pk_l3proto pk =? proto then exec b 0 (set_reg 6 (lo_l3 lo) s) else BRule s.
Proof.
  intros Hc Hp. erewrite ex_jmp_imm_rule; [|code_tac|apply Hc|done].
  rewrite u64_s32_small by lia. destruct (Z.eqb_spec (pk_l3proto pk) proto) as [E|]; [|done].
  cbn [negb]. erewrite ex_ldx; [done|code_tac|apply Hc|].
  rewrite ctx_off_s16. apply Hc. lia.
Qed.

Lemma ex_check_l4 lo pk s b proto : ctx_rel lo pk s -> 0 < proto < 2 ^ 31 ->
  exec (ISingle (BPF_JMP_IMM BPF_JNE BPF_REG_8 proto 0) JMP ::
        ISingle (BPF_LDX_MEM BPF_DW BPF_REG_6 BPF_REG_10 (BF_PROG_CTX_OFF RT_l4_hdr)) None :: b) 0 s =
  if pk_l4proto pk =? proto then exec b 0 (set_reg 6 (lo_l4 lo) s) else BRule s.
Proof.
  intros Hc Hp. erewrite ex_jmp_imm_rule; [|code_tac|apply Hc|done].
  rewrite u64_s32_small by lia. destruct (Z.eqb_spec (pk_l4proto pk) proto) as [E|]; [|done].
  cbn [negb]. erewrite ex_ldx; [done|code_tac|apply Hc|].
  rewrite ctx_off_s16. apply Hc. lia.
Qed.
End Fields.

(** Prove [gemits]: one lemma per statement of the generator. *)
Ltac gen_emit :=
  lazymatch goal with
  | |- gemits _ _ (mbind _ (payload_read _ _)) _ => apply gemits_payload; [assumption || lia|gen_emit]
  | |- gemits _ _ (mbind _ _) _ => eapply gemits_seq; [gen_emit|gen_emit]
  | |- gemits _ _ (EMIT _) _ => apply gemits_EMIT
  | |- gemits _ _ (EMIT_FIXUP_JMP_NEXT_RULE _) _ => apply gemits_EMIT_FIXUP
  | |- gemits _ _ (EMIT_FIXUP _ _) _ => apply gemits_EMIT_FIXUP
  | |- gemits _ _ (EMIT_FIXUP_ELFSTUB _) _ => apply gemits_EMIT_FIXUP_ELFSTUB
  | |- gemits _ _ (emit_load_fd _ _ _) _ => apply gemits_emit_load_fd
  | |- gemits _ _ (EMIT_LOAD_SET_FD_FIXUP _ _) _ => apply gemits_emit_load_fd
  | |- gemits _ _ (EMIT_LOAD_COUNTERS_FD_FIXUP _) _ => apply gemits_emit_load_fd
  | |- gemits _ _ (EMIT_LOAD_LOG_FD_FIXUP _) _ => apply gemits_emit_load_fd
  | |- gemits _ _ (mret tt) _ => apply gemits_ret
  | |- _ => eassumption
  end.

(** Keep the packet in the state across register writes. *)
Ltac ctx_tac :=
  repeat first
    [ assumption
    | apply ctx_rel_set_reg; [|unfold BPF_REG_0, BPF_REG_1, BPF_REG_2, BPF_REG_3, BPF_REG_4, BPF_REG_5, BPF_REG_6; discriminate..]
    | apply ctx_rel_clobber ].

(** [o + n <= length l] for a constant offset and size. *)
Ltac len_tac :=
  lazymatch goal with
  | |- (?a + ?b <= _)%nat =>
      let a' := eval vm_compute in a in
      let b' := eval vm_compute in b in
      change a with a'; change b with b'; lia
  end.
