(* ===== verification/Match.v ===== *)
(** What the matchers mean: the abstract specification of packet matching,
    independent of the code generated for it, and the contract between a
    matcher's generator and the packet ([gen_matches]).

    Addresses and header fields are compared as byte strings, networks as bit
    prefixes, ports as numbers. *)

From S2P Require Import Prelude Bytes Bpf Helper Hook Matcher BfSet Rule Chain Printer Program.
From S2P Require Import Block BlockExec Context.

(** * Well-formed matchers

    The payload has the length the metadata gives for the operator, and a
    network prefix is at most the length of the address. *)

Definition is_ip4_net (t : bf_matcher_type) : bool :=
  bool_decide (t = BF_MATCHER_IP4_SNET) || bool_decide (t = BF_MATCHER_IP4_DNET).
Definition is_ip6_net (t : bf_matcher_type) : bool :=
  bool_decide (t = BF_MATCHER_IP6_SNET) || bool_decide (t = BF_MATCHER_IP6_DNET).

Definition prefix_max (t : bf_matcher_type) : option Z :=
  if is_ip4_net t then Some 32 else if is_ip6_net t then Some 128 else None.

Record matcher_wf (m : bf_matcher) : Prop := mk_matcher_wf {
  mw_bytes : is_bytes (matcher_payload m);
  mw_len : match bf_matcher_get_ops (matcher_type m) (matcher_op m) with
           | Some ops => Z.of_nat (length (matcher_payload m)) = ref_payload_size ops
           | None => matcher_type m = BF_MATCHER_SET /\ length (matcher_payload m) = 4%nat
           end;
  mw_prefix : match prefix_max (matcher_type m) with
              | Some n => payload_u32 m <= n
              | None => True
              end
}.

(** * Meaning *)

(** [eq] or its negation. *)
Definition eq_or_ne (op : bf_matcher_op) (b : bool) : bool :=
  if decide (op = BF_MATCHER_EQ) then b else negb b.

Definition match_bytes (op : bf_matcher_op) (field payload : list Z) : bool :=
  eq_or_ne op (bool_decide (field = payload)).

Definition match_net (op : bf_matcher_op) (prefixlen : Z) (field net : list Z) : bool :=
  eq_or_ne op (same_prefix (Z.to_nat prefixlen) field net).

(** A port of the header (network order) against the payload: for a range, the
    payload holds the bounds in host order. *)
Definition match_port (op : bf_matcher_op) (field : list Z) (m : bf_matcher) : bool :=
  match op with
  | BF_MATCHER_RANGE =>
      (payload_u16_at 0 m <=? be16 field) && (be16 field <=? payload_u16_at 1 m)
  | _ => match_bytes op field (take 2 (matcher_payload m))
  end.

Definition match_flags (op : bf_matcher_op) (flags ref : Z) : bool :=
  match op with
  | BF_MATCHER_EQ => flags =? ref
  | BF_MATCHER_NE => negb (flags =? ref)
  | BF_MATCHER_ANY => negb (Z.land flags ref =? 0)
  | BF_MATCHER_ALL => Z.land flags ref =? ref
  | _ => false
  end.

(** The bit of the extension headers mask a next-header value stands for. *)
Definition eh_bit (nh : Z) : option Z :=
  if nh =? IPPROTO_HOPOPTS then Some 0
  else if nh =? IPPROTO_ROUTING then Some 1
  else if nh =? IPPROTO_FRAGMENT then Some 2
  else if nh =? IPPROTO_AH then Some 3
  else if nh =? IPPROTO_DSTOPTS then Some 4
  else if nh =? IPPROTO_MH then Some 5
  else None.

Definition match_nexthdr (op : bf_matcher_op) (pk : pkt) (nh : Z) : bool :=
  eq_or_ne op (match eh_bit nh with
               | Some i => Z.testbit (pk_eh pk) i
               | None => pk_l4proto pk =? nh
               end).

Definition l3_field (o n : nat) (pk : pkt) : list Z := sub_bytes o n (pk_l3 pk).
Definition l4_field (o n : nat) (pk : pkt) : list Z := sub_bytes o n (pk_l4 pk).
Definition byte_at (o : nat) (bs : list Z) : Z := default 0 (bs !! o).

Definition match_ip4 (pk : pkt) (m : bf_matcher) : bool :=
  (pk_l3proto pk =? htobe16 ETH_P_IP) &&
  match matcher_type m with
  | BF_MATCHER_IP4_SADDR => match_bytes (matcher_op m) (l3_field 12 4 pk) (take 4 (matcher_payload m))
  | BF_MATCHER_IP4_DADDR => match_bytes (matcher_op m) (l3_field 16 4 pk) (take 4 (matcher_payload m))
  | BF_MATCHER_IP4_SNET =>
      match_net (matcher_op m) (payload_u32 m) (l3_field 12 4 pk) (sub_bytes 4 4 (matcher_payload m))
  | BF_MATCHER_IP4_DNET =>
      match_net (matcher_op m) (payload_u32 m) (l3_field 16 4 pk) (sub_bytes 4 4 (matcher_payload m))
  | BF_MATCHER_IP4_PROTO => match_bytes (matcher_op m) (l3_field 9 1 pk) (take 1 (matcher_payload m))
  | _ => false
  end.

Definition match_ip6 (pk : pkt) (m : bf_matcher) : bool :=
  (pk_l3proto pk =? htobe16 ETH_P_IPV6) &&
  match matcher_type m with
  | BF_MATCHER_IP6_SADDR => match_bytes (matcher_op m) (l3_field 8 16 pk) (take 16 (matcher_payload m))
  | BF_MATCHER_IP6_DADDR => match_bytes (matcher_op m) (l3_field 24 16 pk) (take 16 (matcher_payload m))
  | BF_MATCHER_IP6_SNET =>
      match_net (matcher_op m) (payload_u32 m) (l3_field 8 16 pk) (sub_bytes 4 16 (matcher_payload m))
  | BF_MATCHER_IP6_DNET =>
      match_net (matcher_op m) (payload_u32 m) (l3_field 24 16 pk) (sub_bytes 4 16 (matcher_payload m))
  | BF_MATCHER_IP6_NEXTHDR => match_nexthdr (matcher_op m) pk (payload_u8 m)
  | _ => false
  end.

Definition match_tcp (pk : pkt) (m : bf_matcher) : bool :=
  (pk_l4proto pk =? IPPROTO_TCP) &&
  match matcher_type m with
  | BF_MATCHER_TCP_SPORT => match_port (matcher_op m) (l4_field 0 2 pk) m
  | BF_MATCHER_TCP_DPORT => match_port (matcher_op m) (l4_field 2 2 pk) m
  | BF_MATCHER_TCP_FLAGS => match_flags (matcher_op m) (byte_at 13 (pk_l4 pk)) (payload_u8 m)
  | _ => false
  end.

Definition match_udp (pk : pkt) (m : bf_matcher) : bool :=
  (pk_l4proto pk =? IPPROTO_UDP) &&
  match matcher_type m with
  | BF_MATCHER_UDP_SPORT => match_port (matcher_op m) (l4_field 0 2 pk) m
  | BF_MATCHER_UDP_DPORT => match_port (matcher_op m) (l4_field 2 2 pk) m
  | _ => false
  end.

Definition match_icmp (pk : pkt) (m : bf_matcher) : bool :=
  match matcher_type m with
  | BF_MATCHER_ICMP_TYPE =>
      (pk_l4proto pk =? IPPROTO_ICMP) &&
      match_bytes (matcher_op m) (l4_field 0 1 pk) (take 1 (matcher_payload m))
  | BF_MATCHER_ICMP_CODE =>
      (pk_l4proto pk =? IPPROTO_ICMP) &&
      match_bytes (matcher_op m) (l4_field 1 1 pk) (take 1 (matcher_payload m))
  | BF_MATCHER_ICMPV6_TYPE =>
      (pk_l4proto pk =? IPPROTO_ICMPV6) &&
      match_bytes (matcher_op m) (l4_field 0 1 pk) (take 1 (matcher_payload m))
  | BF_MATCHER_ICMPV6_CODE =>
      (pk_l4proto pk =? IPPROTO_ICMPV6) &&
      match_bytes (matcher_op m) (l4_field 1 1 pk) (take 1 (matcher_payload m))
  | _ => false
  end.

(** * The contract of a generator

    Matching may change the state of the kernel (the pseudo-random generator),
    so it is a function of the packet and of that state. *)

Abbreviation mspec W := (pkt -> W -> bool * W).

Definition pure_match {W} (f : pkt -> bool) : mspec W := fun pk w => (f pk, w).

Section Contract.
Context {W : Type} `{Kernel W} (c : bf_chain) (fl : bf_flavor) (lo : layout).

(** From a state holding the packet, the block falls through if the packet
    matches and leaves for the next rule otherwise; the packet is still there. *)
Definition block_matches (b : block) (spec : mspec W) : Prop :=
  forall pk (s : vm W), ctx_rel lo pk s ->
    exists s', ctx_rel lo pk s' /\ world s' = snd (spec pk (world s)) /\
      exec b 0 s = if fst (spec pk (world s)) then BFall 0 s' else BRule s'.

Definition gen_matches (g : gen unit) (spec : mspec W) : Prop :=
  exists b, gemits c fl g b /\ block_matches b spec.

(** Matching one thing, then another. *)
Definition spec_seq (f g : mspec W) : mspec W :=
  fun pk w => let '(r, w') := f pk w in if r then g pk w' else (false, w').

Lemma block_matches_app b1 b2 f g : block_matches b1 f -> block_matches b2 g ->
  block_matches (b1 ++ b2) (spec_seq f g).
Proof.
  intros H1 H2 pk s Hc. destruct (H1 pk s Hc) as (s1 & Hc1 & Hw1 & E1).
  unfold spec_seq. destruct (f pk (world s)) as [[] w']; cbn [fst snd] in *.
  - destruct (H2 pk s1 Hc1) as (s2 & Hc2 & Hw2 & E2). exists s2. subst w'.
    split_and!; [done..|]. rewrite exec_app, E1. cbn [bcont]. done.
  - exists s1. split_and!; [done..|]. by rewrite exec_app, E1.
Qed.

Lemma gen_matches_seq g1 g2 f1 f2 : gen_matches g1 f1 -> gen_matches g2 f2 ->
  gen_matches (g1 ;; g2) (spec_seq f1 f2).
Proof.
  intros (b1 & E1 & H1) (b2 & E2 & H2). exists (b1 ++ b2). split.
  - by apply gemits_seq.
  - by apply block_matches_app.
Qed.

Lemma gen_matches_ext g f f' : (forall pk w, f pk w = f' pk w) -> gen_matches g f -> gen_matches g f'.
Proof.
  intros Hf (b & Eb & Hb). exists b. split; [done|]. intros pk s Hc.
  rewrite <- Hf. by apply Hb.
Qed.
End Contract.

(** * Lemmas *)

Lemma matcher_payload_length m op ops : matcher_wf m -> matcher_op m = op ->
  bf_matcher_get_ops (matcher_type m) op = Some ops ->
  length (matcher_payload m) = Z.to_nat (ref_payload_size ops).
Proof. intros [_ Hl _] <- E. rewrite E in Hl. lia. Qed.

(** The length of the payload, by type and operator. *)
Definition payload_len (t : bf_matcher_type) (op : bf_matcher_op) : nat :=
  match t with
  | BF_MATCHER_META_IFACE | BF_MATCHER_META_MARK | BF_MATCHER_IP4_SADDR | BF_MATCHER_IP4_DADDR
  | BF_MATCHER_SET => 4
  | BF_MATCHER_META_L3_PROTO | BF_MATCHER_META_L4_PROTO => 2
  | BF_MATCHER_META_SPORT | BF_MATCHER_META_DPORT | BF_MATCHER_TCP_SPORT | BF_MATCHER_TCP_DPORT
  | BF_MATCHER_UDP_SPORT | BF_MATCHER_UDP_DPORT => if decide (op = BF_MATCHER_RANGE) then 4 else 2
  | BF_MATCHER_IP4_SNET | BF_MATCHER_IP4_DNET => 8
  | BF_MATCHER_IP6_SADDR | BF_MATCHER_IP6_DADDR => 16
  | BF_MATCHER_IP6_SNET | BF_MATCHER_IP6_DNET => 24
  | _ => 1
  end.

Lemma matcher_len m : matcher_wf m -> (length (matcher_payload m) = payload_len (matcher_type m) (matcher_op m))%nat.
Proof.
  intros [_ Hl _]. unfold bf_matcher_get_ops in Hl.
  destruct (matcher_type m); cbn in Hl |- *; repeat case_decide; simplify_eq; cbn in Hl; unfold sizeof_bf_ip4_lpm_key, sizeof_bf_ip6_lpm_key in *;
    first [congruence | lia | by destruct Hl].
Qed.

(** The operators a matcher type has. *)
Definition op_supported (t : bf_matcher_type) (op : bf_matcher_op) : bool :=
  match bf_matcher_get_ops t op with Some _ => true | None => false end.

Lemma matcher_op_supported m : matcher_wf m -> matcher_type m <> BF_MATCHER_SET ->
  op_supported (matcher_type m) (matcher_op m) = true.
Proof.
  intros [_ Hl _] Ht. unfold op_supported. destruct (bf_matcher_get_ops _ _); [done|by destruct Hl].
Qed.

Lemma payload_u32_nonneg m : matcher_wf m -> 0 <= payload_u32 m.
Proof.
  intros [Hb _ _]. unfold payload_u32. apply le_combine_bound. auto with bf.
Qed.

(** The operator's jump: [eq] leaves when the words differ, anything else
    when they are equal. *)
Lemma op_jcc op x y :
  jcc (if decide (op = BF_MATCHER_EQ) then BPF_JNE else BPF_JEQ) x y =
  Some (negb (eq_or_ne op (x =? y))).
Proof. unfold eq_or_ne. case_decide; [done|]. by rewrite negb_involutive. Qed.

(** The operators the port matchers' generators accept; [in] is only for sets. *)
Definition port_op (op : bf_matcher_op) : bool :=
  match op with BF_MATCHER_EQ | BF_MATCHER_NE | BF_MATCHER_RANGE => true | _ => false end.
Definition eq_ne_op (op : bf_matcher_op) : bool :=
  match op with BF_MATCHER_EQ | BF_MATCHER_NE => true | _ => false end.

Definition flags_op (op : bf_matcher_op) : bool :=
  match op with
  | BF_MATCHER_EQ | BF_MATCHER_NE | BF_MATCHER_ANY | BF_MATCHER_ALL => true
  | _ => false
  end.

Lemma byte_at_range bs o : is_bytes bs -> is_byte (byte_at o bs).
Proof.
  intros Hb. unfold byte_at. destruct (bs !! o) as [b|] eqn:E; cbn; [|unfold is_byte; lia].
  by eapply Forall_lookup_1.
Qed.

(** Operators of the metadata other than [in]. *)
Lemma op_of_meta m : matcher_wf m -> matcher_op m <> BF_MATCHER_IN ->
  match matcher_type m with
  | BF_MATCHER_TCP_SPORT | BF_MATCHER_TCP_DPORT | BF_MATCHER_UDP_SPORT | BF_MATCHER_UDP_DPORT
  | BF_MATCHER_META_SPORT | BF_MATCHER_META_DPORT => port_op (matcher_op m) = true
  | BF_MATCHER_TCP_FLAGS => flags_op (matcher_op m) = true
  | BF_MATCHER_ICMP_TYPE | BF_MATCHER_ICMP_CODE | BF_MATCHER_ICMPV6_TYPE | BF_MATCHER_ICMPV6_CODE
  | BF_MATCHER_IP6_NEXTHDR | BF_MATCHER_META_MARK => eq_ne_op (matcher_op m) = true
  | _ => True
  end.
Proof.
  intros Hwf Ho. destruct (decide (matcher_type m = BF_MATCHER_SET)) as [->|Hs]; [done|].
  pose proof (matcher_op_supported m Hwf Hs) as Hop.
  destruct (matcher_type m); try done; by destruct (matcher_op m).
Qed.
