(* ===== verification/Stubs.v ===== *)
(** The ELF stubs: the functions that are written in C, compiled for BPF, and
    called by the generated programs: [src/bpfilter/bpf/log.bpf.c],
    [update_counters.bpf.c], [parse_ipv6_eh.bpf.c] and [parse_ipv6_nh.bpf.c].

    A stub reads and writes the runtime context, [struct bf_runtime], of the
    program that calls it, in its memory; [None] is a fault.  The helpers of the
    kernel are a parameter. *)

From S2P Require Import Prelude Bpf Matcher Rule Serial Log Program Context Match.

(** * The helpers *)

(** [bpf_dynptr_slice off n] is the [n] bytes of the packet at [off];
    [bpf_probe_read_kernel] what is copied from an address, whatever is there;
    the record of [bpf_ringbuf_reserve] is not initialised.  A value of a map is
    read and written through the pointer that the lookup returns. *)
Class StubHelpers (W : Type) : Type := {
  bpf_dynptr_slice : W -> Z -> nat -> option (list Z);
  bpf_probe_read_kernel : memory -> Z -> nat -> list Z;
  bpf_map_lookup_elem : Z -> Z -> W -> option bf_counter;
  bpf_map_value_write : Z -> Z -> bf_counter -> W -> W;
  bpf_ringbuf_reserve : Z -> W -> option bf_log * W;
  bpf_ringbuf_submit : bf_log -> W -> W;
  bpf_ktime_get_ns : W -> Z * W;
  bpf_printk : string -> W -> W
}.

Definition rt_load (m : memory) (n : nat) (ctx : Z) (f : rt_field) : option Z :=
  load m n (ctx + offsetof_bf_runtime f).
Definition rt_store (m : memory) (n : nat) (ctx : Z) (f : rt_field) (v : Z) : option memory :=
  store m n (ctx + offsetof_bf_runtime f) v.

Section Stubs.
Context {W : Type} `{StubHelpers W}.

(** * Headers in the log *)

(** One header: the bit that is set in [headers], and what the record's slice
    is then.  The context is only read when the header is requested. *)
Definition log_header (m : memory) (ctx headers : Z) (hdr : bf_pkthdr) (slice : list Z) : option (Z * list Z) :=
  if log_has headers hdr then
    ptr ← rt_load m 8 ctx (hdr_ptr hdr);
    if ptr =? 0 then Some (0, slice) else
    size ← rt_load m 1 ctx (hdr_size hdr);
    if size <=? Z.of_nat (slice_len hdr)
    then Some (Z.shiftl 1 (bf_pkthdr_to_Z hdr),
               bpf_probe_read_kernel m ptr (Z.to_nat size) ++ drop (Z.to_nat size) slice)
    else Some (0, slice)
  else Some (0, slice).

(** [bf_log] of [log.bpf.c]; the arguments are registers, truncated to the
    types of the parameters, and [req_headers] and [headers] have four bits. *)
Definition bf_log_stub (m : memory) (ctx rule_idx headers l3_proto l4_proto : Z) (w : W) : option (Z * W) :=
  map ← rt_load m 8 ctx RT_log_map;
  match bpf_ringbuf_reserve map w with
  | (None, w) => Some (1, bpf_printk "failed to reserve %d bytes in ringbuf" w)
  | (Some log, w) =>
      let '(ts, w) := bpf_ktime_get_ns w in
      let headers := u8 headers in
      pkt_size ← rt_load m 8 ctx RT_pkt_size;
      l2 ← log_header m ctx headers BF_PKTHDR_LINK (log_l2hdr log);
      l3 ← log_header m ctx headers BF_PKTHDR_INTERNET (log_l3hdr log);
      l4 ← log_header m ctx headers BF_PKTHDR_TRANSPORT (log_l4hdr log);
      Some (0, bpf_ringbuf_submit
        (mk_log ts pkt_size (u32 rule_idx) (bswap16 (u16 l3_proto)) (u8 l4_proto) (headers mod 16)
           (Z.lor (fst l2) (Z.lor (fst l3) (fst l4)) mod 16) (snd l2) (snd l3) (snd l4)) w)
  end.

(** * Counters *)

(** The keys of the map have four bytes: those of [key] that come first. *)
Definition bf_update_counters (m : memory) (ctx map key : Z) (w : W) : option (Z * W) :=
  match bpf_map_lookup_elem map (u32 key) w with
  | None => Some (1, bpf_printk "failed to fetch the rule's counters" w)
  | Some counter =>
      pkt_size ← rt_load m 8 ctx RT_pkt_size;
      Some (0, bpf_map_value_write map (u32 key)
                 (mk_counter (u64 (counter_packets counter + 1)) (u64 (counter_bytes counter + pkt_size))) w)
  end.

(** * Extension headers *)

Definition BF_IPV6_EXT_MAX_CHAIN : nat := 6.

Definition offsetof_nexthdr : Z := 6.
Definition sizeof_ip6hdr : Z := 40.

(** [struct ipv6_opt_hdr]: the next header, and a length. *)
Definition ext_nexthdr (ext : list Z) : Z := default 0 (ext !! 0%nat).
Definition ext_hdrlen (ext : list Z) : Z := default 0 (ext !! 1%nat).

(** The loop of [parse_ipv6_eh.bpf.c], [i] turns before its bound. *)
Fixpoint parse_eh_loop (i : nat) (next_hdr_type : Z) (ctx : Z) (m : memory) (w : W) : option (Z * memory) :=
  match i with
  | O => Some (next_hdr_type, m)
  | S i =>
      off ← rt_load m 4 ctx RT_l4_offset;
      match bpf_dynptr_slice w off 2 with
      | None => Some (0, m)
      | Some ext =>
          if (next_hdr_type =? IPPROTO_HOPOPTS) || (next_hdr_type =? IPPROTO_DSTOPTS) ||
             (next_hdr_type =? IPPROTO_ROUTING) || (next_hdr_type =? IPPROTO_MH)
          then m ← rt_store m 4 ctx RT_l4_offset (u32 (off + (ext_hdrlen ext + 1) * 8));
               parse_eh_loop i (ext_nexthdr ext) ctx m w
          else if next_hdr_type =? IPPROTO_AH
          then m ← rt_store m 4 ctx RT_l4_offset (u32 (off + (ext_hdrlen ext + 2) * 4));
               parse_eh_loop i (ext_nexthdr ext) ctx m w
          else if next_hdr_type =? IPPROTO_FRAGMENT
          then m ← rt_store m 4 ctx RT_l4_offset (u32 (off + (ext_hdrlen ext + 8)));
               parse_eh_loop i (ext_nexthdr ext) ctx m w
          else Some (next_hdr_type, m)
      end
  end.

Definition bf_parse_ipv6_eh (m : memory) (ctx : Z) (w : W) : option (Z * memory) :=
  ip6hdr ← rt_load m 8 ctx RT_l3_hdr;
  next_hdr_type ← load m 1 (ip6hdr + offsetof_nexthdr);
  l3_offset ← rt_load m 4 ctx RT_l3_offset;
  m ← rt_store m 4 ctx RT_l4_offset (u32 (l3_offset + sizeof_ip6hdr));
  parse_eh_loop BF_IPV6_EXT_MAX_CHAIN next_hdr_type ctx m w.

(** The bit of a next header in the mask: [BF_IPV6_EH_*]. *)
Definition eh_flag (next_hdr_type : Z) : Z :=
  Z.lor (Z.shiftl (Z.b2z (next_hdr_type =? IPPROTO_HOPOPTS)) 0)
  (Z.lor (Z.shiftl (Z.b2z (next_hdr_type =? IPPROTO_ROUTING)) 1)
  (Z.lor (Z.shiftl (Z.b2z (next_hdr_type =? IPPROTO_FRAGMENT)) 2)
  (Z.lor (Z.shiftl (Z.b2z (next_hdr_type =? IPPROTO_AH)) 3)
  (Z.lor (Z.shiftl (Z.b2z (next_hdr_type =? IPPROTO_DSTOPTS)) 4)
         (Z.shiftl (Z.b2z (next_hdr_type =? IPPROTO_MH)) 5))))).

(** [EH_AH_*], [EH_FRAG_*] and [EH_COMMON_*]. *)
Definition eh_offset_shift (next_hdr_type : Z) : Z * Z :=
  if next_hdr_type =? IPPROTO_AH then (2, 2)
  else if next_hdr_type =? IPPROTO_FRAGMENT then (8, 0)
  else (1, 3).

Definition is_eh (next_hdr_type : Z) : bool :=
  (next_hdr_type =? IPPROTO_HOPOPTS) || (next_hdr_type =? IPPROTO_ROUTING) ||
  (next_hdr_type =? IPPROTO_DSTOPTS) || (next_hdr_type =? IPPROTO_FRAGMENT) ||
  (next_hdr_type =? IPPROTO_AH) || (next_hdr_type =? IPPROTO_MH).

(** The loop of [parse_ipv6_nh.bpf.c]. *)
Fixpoint parse_nh_loop (i : nat) (next_hdr_type : Z) (ctx : Z) (m : memory) (w : W) : option (Z * memory) :=
  match i with
  | O => Some (next_hdr_type, m)
  | S i =>
      off ← rt_load m 4 ctx RT_l4_offset;
      match bpf_dynptr_slice w off 2 with
      | None => Some (next_hdr_type, m)
      | Some ext =>
          if is_eh next_hdr_type then
            ipv6_eh ← rt_load m 1 ctx RT_ipv6_eh;
            m ← rt_store m 1 ctx RT_ipv6_eh (Z.lor ipv6_eh (eh_flag next_hdr_type));
            let '(offset, shift) := eh_offset_shift next_hdr_type in
            m ← rt_store m 4 ctx RT_l4_offset (u32 (off + Z.shiftl (ext_hdrlen ext + offset) shift));
            parse_nh_loop i (ext_nexthdr ext) ctx m w
          else Some (next_hdr_type, m)
      end
  end.

Definition bf_parse_ipv6_nh (m : memory) (ctx : Z) (w : W) : option (Z * memory) :=
  ip6hdr ← rt_load m 8 ctx RT_l3_hdr;
  next_hdr_type ← load m 1 (ip6hdr + offsetof_nexthdr);
  m ← rt_store m 1 ctx RT_ipv6_eh 0;
  l3_offset ← rt_load m 4 ctx RT_l3_offset;
  m ← rt_store m 4 ctx RT_l4_offset (u32 (l3_offset + sizeof_ip6hdr));
  parse_nh_loop BF_IPV6_EXT_MAX_CHAIN next_hdr_type ctx m w.

(** * Calls *)

(** The arguments of a stub are in the registers from R1 on. *)
Definition stub_call (id : bf_elfstub_id) (rs : gmap Z Z) (m : memory) (w : W) : option (Z * memory * W) :=
  ctx ← rs !! 1;
  match id with
  | BF_ELFSTUB_PARSE_IPV6_EH => '(r0, m) ← bf_parse_ipv6_eh m ctx w; Some (r0, m, w)
  | BF_ELFSTUB_PARSE_IPV6_NH => '(r0, m) ← bf_parse_ipv6_nh m ctx w; Some (r0, m, w)
  | BF_ELFSTUB_UPDATE_COUNTERS =>
      map ← rs !! 2; key ← rs !! 3;
      '(r0, w) ← bf_update_counters m ctx map key w; Some (r0, m, w)
  | BF_ELFSTUB_LOG =>
      rule_idx ← rs !! 2; headers ← rs !! 3; l3_proto ← rs !! 4; l4_proto ← rs !! 5;
      '(r0, w) ← bf_log_stub m ctx rule_idx headers l3_proto l4_proto w; Some (r0, m, w)
  end.
End Stubs.

(** * Reference: a chain of extension headers *)

(** The length of an extension header, from its type and its length field. *)
Definition ext_len (t len : Z) : Z :=
  if t =? IPPROTO_FRAGMENT then 8
  else if t =? IPPROTO_AH then (len + 2) * 4
  else (len + 1) * 8.

(** [ext_chain p t off hs t' off']: the header at [off] of the packet is a [t];
    it and those that follow it are the extension headers [hs], up to the
    header of protocol [t'] at [off'].  The second byte of a fragment header is
    reserved, and zero. *)
Inductive ext_chain (p : list Z) : Z -> Z -> list Z -> Z -> Z -> Prop :=
| chain_end t off : eh_bit t = None -> ext_chain p t off [] t off
| chain_ext t off nh len hs t' off' :
    is_Some (eh_bit t) ->
    sub_bytes (Z.to_nat off) 2 p = [nh; len] -> 0 <= len ->
    (t = IPPROTO_FRAGMENT -> len = 0) ->
    ext_chain p nh (off + ext_len t len) hs t' off' ->
    ext_chain p t off (t :: hs) t' off'.

(** The mask of the headers of a chain. *)
Definition eh_mask_of (hs : list Z) : Z := foldr (fun t => Z.lor (eh_flag t)) 0 hs.

Lemma ext_len_pos t len : 0 <= len -> 0 < ext_len t len.
Proof. intros Hl. unfold ext_len. repeat case_match; lia. Qed.

Lemma ext_chain_le p t off hs t' off' : ext_chain p t off hs t' off' -> off <= off'.
Proof. induction 1; [lia|]. pose proof (ext_len_pos t len). lia. Qed.

Lemma ext_chain_end_none p t off hs t' off' : ext_chain p t off hs t' off' -> eh_bit t' = None.
Proof. by induction 1. Qed.

Lemma ext_chain_types p t off hs t' off' : ext_chain p t off hs t' off' -> Forall (fun x => is_Some (eh_bit x)) hs.
Proof. induction 1; by constructor. Qed.

(** ** The six types *)

Lemma eh_bit_cases t : is_Some (eh_bit t) ->
  t ∈ [IPPROTO_HOPOPTS; IPPROTO_ROUTING; IPPROTO_FRAGMENT; IPPROTO_AH; IPPROTO_DSTOPTS; IPPROTO_MH].
Proof.
  rewrite !elem_of_cons. unfold eh_bit.
  repeat match goal with |- context [t =? ?x] => destruct (Z.eqb_spec t x) as [->|]; [intros _; tauto|] end.
  by intros [? ?].
Qed.

Lemma is_eh_bit t : is_eh t = bool_decide (is_Some (eh_bit t)).
Proof.
  unfold is_eh, eh_bit. repeat match goal with |- context [t =? ?x] => destruct (Z.eqb_spec t x) as [->|]; [done|] end.
  done.
Qed.

(** The flag of an extension header is its bit. *)
Lemma eh_flag_testbit t i : 0 <= i -> Z.testbit (eh_flag t) i = bool_decide (eh_bit t = Some i).
Proof.
  intros Hi. destruct (decide (is_Some (eh_bit t))) as [Ht|Ht].
  - apply eh_bit_cases in Ht. assert (forall k, 0 <= k -> Z.testbit (2 ^ k) i = bool_decide (Some k = Some i)) as Hp.
    { intros k Hk. destruct (decide (k = i)) as [->|Hne].
      - by rewrite Z.pow2_bits_true, bool_decide_eq_true_2.
      - rewrite Z.pow2_bits_false by done. symmetry. apply bool_decide_eq_false. congruence. }
    rewrite !elem_of_cons, elem_of_nil in Ht.
    destruct Ht as [-> | [-> | [-> | [-> | [-> | [-> | []]]]]]];
      [exact (Hp 0 ltac:(lia))|exact (Hp 1 ltac:(lia))|exact (Hp 2 ltac:(lia))|exact (Hp 3 ltac:(lia))|
       exact (Hp 4 ltac:(lia))|exact (Hp 5 ltac:(lia))].
  - apply eq_None_not_Some in Ht. rewrite Ht, bool_decide_eq_false_2 by done.
    revert Ht. unfold eh_bit, eh_flag.
    repeat match goal with |- context [t =? ?x] => destruct (Z.eqb_spec t x) as [->|]; [done|] end.
    intros _. apply Z.testbit_0_l.
Qed.

Lemma eh_bit_range t i : eh_bit t = Some i -> 0 <= i < 6.
Proof. unfold eh_bit. repeat case_match; intros [= <-]; lia. Qed.

Lemma eh_bit_inj t t' i : eh_bit t = Some i -> eh_bit t' = Some i -> t = t'.
Proof.
  intros H H'. assert (is_Some (eh_bit t)) as Ht by (by eexists). assert (is_Some (eh_bit t')) as Ht' by (by eexists).
  apply eh_bit_cases in Ht, Ht'. rewrite !elem_of_cons, elem_of_nil in Ht, Ht'.
  destruct Ht as [-> | [-> | [-> | [-> | [-> | [-> | []]]]]]];
    destruct Ht' as [-> | [-> | [-> | [-> | [-> | [-> | []]]]]]]; vm_compute in H, H'; congruence.
Qed.

Lemma eh_mask_testbit hs i : 0 <= i -> Z.testbit (eh_mask_of hs) i = existsb (fun t => bool_decide (eh_bit t = Some i)) hs.
Proof.
  intros Hi. induction hs as [|t hs IH]; cbn [eh_mask_of foldr existsb]; [apply Z.testbit_0_l|].
  rewrite Z.lor_spec, eh_flag_testbit by done. f_equal. exact IH.
Qed.

(** The matcher of next headers finds exactly the headers of the chain. *)
Lemma match_nexthdr_chain p t off hs t' off' pk op nh : ext_chain p t off hs t' off' ->
  pk_l4proto pk = t' -> pk_eh pk = eh_mask_of hs ->
  match_nexthdr op pk nh = eq_or_ne op (bool_decide (nh ∈ hs ++ [t'])).
Proof.
  intros Hc Hp He. pose proof (ext_chain_types _ _ _ _ _ _ Hc) as Hs. pose proof (ext_chain_end_none _ _ _ _ _ _ Hc) as Hn.
  unfold match_nexthdr. f_equal. apply eq_true_iff_eq. rewrite bool_decide_eq_true, elem_of_app, list_elem_of_singleton.
  destruct (eh_bit nh) as [i|] eqn:Eb.
  - pose proof (eh_bit_range nh i Eb). rewrite He, eh_mask_testbit, existsb_exists by lia. split.
    + intros (x & Hx & E). apply bool_decide_eq_true in E. left. apply list_elem_of_In. by rewrite (eh_bit_inj nh x i).
    + intros [Hx | ->]; [|congruence]. exists nh. split; [by apply list_elem_of_In|by apply bool_decide_eq_true].
  - rewrite Z.eqb_eq, Hp. split; [by right|]. intros [Hx | ->]; [|done].
    rewrite Forall_forall in Hs. apply Hs in Hx. rewrite Eb in Hx. by destruct Hx.
Qed.

(** * The context in memory *)

Definition ctx_mapped (m : memory) (ctx : Z) : Prop :=
  0 <= ctx /\ ctx + sizeof_bf_runtime <= 2 ^ 64 /\
  forall k, 0 <= k < sizeof_bf_runtime -> is_Some (m !! (ctx + k)).

(** What the parsers write: the offset of the transport header, and the mask. *)
Definition parser_frame (m m' : memory) (ctx : Z) : Prop :=
  forall x, x <> ctx + offsetof_bf_runtime RT_ipv6_eh ->
    ~ (ctx + offsetof_bf_runtime RT_l4_offset <= x < ctx + offsetof_bf_runtime RT_l4_offset + 4) ->
    m' !! x = m !! x.

Lemma parser_frame_trans m1 m2 m3 ctx : parser_frame m1 m2 ctx -> parser_frame m2 m3 ctx -> parser_frame m1 m3 ctx.
Proof. intros H1 H2 x Hx Hx'. by rewrite H2, H1. Qed.

Lemma ctx_store m n ctx o v : ctx_mapped m ctx -> 0 <= o -> o + Z.of_nat n <= sizeof_bf_runtime ->
  exists m', store m n (ctx + o) v = Some m' /\ ctx_mapped m' ctx /\
    load m' n (ctx + o) = Some (v mod 256 ^ Z.of_nat n) /\
    (forall x, ~ (ctx + o <= x < ctx + o + Z.of_nat n) -> m' !! x = m !! x).
Proof.
  intros (H0 & H1 & Hm) Ho Hn. unfold sizeof_bf_runtime in *.
  destruct (store_bytes_mapped m (ctx + o) (le_split n v)) as [m' Hm'].
  { rewrite length_le_split. intros k Hk. rewrite u64_small by lia. replace (ctx + o + k) with (ctx + (o + k)) by lia.
    apply Hm. lia. }
  exists m'. pose proof (store_bytes_spec _ _ _ _ Hm') as [Hs Hd]. rewrite length_le_split in Hs.
  split_and!; [done| | |].
  - split_and!; [done..|]. intros k Hk. apply Hd. by apply Hm.
  - pose proof (store_bytes_load _ _ _ _ Hm') as Hl. rewrite length_le_split in Hl.
    unfold load. rewrite Hl by lia. cbn. by rewrite le_combine_split.
  - intros x Hx. apply Hs. intros k Hk. rewrite u64_small by lia. lia.
Qed.

Lemma load_frame m m' a n : 0 <= a -> a + Z.of_nat n <= 2 ^ 64 ->
  (forall x, a <= x < a + Z.of_nat n -> m' !! x = m !! x) -> load m' n a = load m n a.
Proof.
  intros Ha Hn Hx. unfold load. rewrite (load_bytes_agree m); [done|].
  intros k Hk. rewrite u64_small by lia. apply Hx. lia.
Qed.

(** The stores of the parsers. *)
Lemma store_l4_offset m ctx v : ctx_mapped m ctx -> exists m',
  rt_store m 4 ctx RT_l4_offset v = Some m' /\ ctx_mapped m' ctx /\ parser_frame m m' ctx /\
  rt_load m' 4 ctx RT_l4_offset = Some (u32 v) /\ rt_load m' 1 ctx RT_ipv6_eh = rt_load m 1 ctx RT_ipv6_eh.
Proof.
  intros Hm. pose proof Hm as (H0 & H1 & _). unfold sizeof_bf_runtime in H1.
  destruct (ctx_store m 4 ctx 56 v Hm ltac:(lia) ltac:(unfold sizeof_bf_runtime; lia)) as (m' & Hs & Hm' & Hl & Hf).
  exists m'. split_and!; [done|done|intros x _ Hx; by apply Hf|done|].
  apply load_frame; cbn [offsetof_bf_runtime]; [lia..|]. intros x Hx. apply Hf. lia.
Qed.

Lemma store_ipv6_eh m ctx v : ctx_mapped m ctx -> exists m',
  rt_store m 1 ctx RT_ipv6_eh v = Some m' /\ ctx_mapped m' ctx /\ parser_frame m m' ctx /\
  rt_load m' 1 ctx RT_ipv6_eh = Some (u8 v) /\ rt_load m' 4 ctx RT_l4_offset = rt_load m 4 ctx RT_l4_offset.
Proof.
  intros Hm. pose proof Hm as (H0 & H1 & _). unfold sizeof_bf_runtime in H1.
  destruct (ctx_store m 1 ctx 40 v Hm ltac:(lia) ltac:(unfold sizeof_bf_runtime; lia)) as (m' & Hs & Hm' & Hl & Hf).
  exists m'. split_and!; [done|done|intros x Hx _; apply Hf; cbn in *; lia|done|].
  apply load_frame; cbn [offsetof_bf_runtime]; [lia..|]. intros x Hx. apply Hf. lia.
Qed.

(** * The parsers follow the chain *)

Section Parsers.
Context {W : Type} `{StubHelpers W} (p : list Z) (w : W) (ctx : Z).

(** A slice is the bytes of the packet, when it has them all. *)
Definition slices_of : Prop := forall off n, 0 <= off ->
  bpf_dynptr_slice w off n =
  if off + Z.of_nat n <=? Z.of_nat (length p) then Some (sub_bytes (Z.to_nat off) n p) else None.

Hypothesis (Hslice : slices_of) (Hp : Z.of_nat (length p) < 2 ^ 32).

Lemma slice_ok off : 0 <= off -> off + 2 <= Z.of_nat (length p) ->
  bpf_dynptr_slice w off 2 = Some (sub_bytes (Z.to_nat off) 2 p).
Proof. intros H0 H1. rewrite Hslice by done. destruct (Z.leb_spec (off + Z.of_nat 2) (Z.of_nat (length p))); [done|lia]. Qed.

Lemma eh_len t off nh len : is_Some (eh_bit t) -> (t = IPPROTO_FRAGMENT -> len = 0) ->
  0 <= off + ext_len t len < 2 ^ 32 ->
  u32 (off + Z.shiftl (ext_hdrlen [nh; len] + fst (eh_offset_shift t)) (snd (eh_offset_shift t))) = off + ext_len t len.
Proof.
  intros Ht Hf Hr. unfold ext_hdrlen. cbn [list_lookup lookup]. change (default 0 _) with len.
  transitivity (u32 (off + ext_len t len)); [|by apply u32_small]. do 2 f_equal.
  unfold eh_offset_shift, ext_len. destruct (Z.eqb_spec t IPPROTO_FRAGMENT) as [->|].
  - rewrite Hf by done. done.
  - destruct (Z.eqb_spec t IPPROTO_AH); cbn [fst snd]; rewrite Z.shiftl_mul_pow2 by lia; lia.
Qed.

(** A turn of the loop. *)
Lemma parse_eh_turn i t off nh len m : is_Some (eh_bit t) -> (t = IPPROTO_FRAGMENT -> len = 0) ->
  0 <= off -> off + 2 <= Z.of_nat (length p) -> sub_bytes (Z.to_nat off) 2 p = [nh; len] ->
  rt_load m 4 ctx RT_l4_offset = Some off ->
  parse_eh_loop (S i) t ctx m w =
  (m ← rt_store m 4 ctx RT_l4_offset (u32 (off + ext_len t len)); parse_eh_loop i nh ctx m w).
Proof.
  intros Ht Hf H0 H1 Hs Hl. cbn [parse_eh_loop]. rewrite Hl. cbn [mbind option_bind].
  rewrite slice_ok, Hs by done. unfold ext_hdrlen, ext_nexthdr. cbn [default].
  apply eh_bit_cases in Ht. rewrite !elem_of_cons, elem_of_nil in Ht.
  destruct Ht as [-> | [-> | [-> | [-> | [-> | [-> | []]]]]]]; try reflexivity.
  by rewrite Hf.
Qed.

Lemma parse_nh_turn i t off nh len m eh : is_Some (eh_bit t) -> (t = IPPROTO_FRAGMENT -> len = 0) ->
  0 <= off -> off + 2 <= Z.of_nat (length p) -> 0 <= off + ext_len t len < 2 ^ 32 ->
  sub_bytes (Z.to_nat off) 2 p = [nh; len] ->
  rt_load m 4 ctx RT_l4_offset = Some off -> rt_load m 1 ctx RT_ipv6_eh = Some eh ->
  parse_nh_loop (S i) t ctx m w =
  (m ← rt_store m 1 ctx RT_ipv6_eh (Z.lor eh (eh_flag t));
   m ← rt_store m 4 ctx RT_l4_offset (off + ext_len t len); parse_nh_loop i nh ctx m w).
Proof.
  intros Ht Hf H0 H1 Hr Hs Hl He. cbn [parse_nh_loop]. rewrite Hl. cbn [mbind option_bind].
  rewrite slice_ok, Hs by done. rewrite is_eh_bit, bool_decide_eq_true_2 by done. rewrite He.
  cbn [mbind option_bind]. destruct (rt_store m 1 ctx RT_ipv6_eh _); [|done]. cbn [mbind option_bind].
  pose proof (eh_len t off nh len Ht Hf Hr) as El. destruct (eh_offset_shift t) as [o sh]. cbn [fst snd] in El.
  by rewrite El.
Qed.

Lemma slice_in_packet off nh len : 0 <= off -> sub_bytes (Z.to_nat off) 2 p = [nh; len] ->
  off + 2 <= Z.of_nat (length p).
Proof.
  intros H0 Hs. apply (f_equal length) in Hs. unfold sub_bytes in Hs.
  rewrite length_take, length_drop in Hs. cbn [length] in Hs. lia.
Qed.

(** The loop of the first parser. *)
Lemma parse_eh_follows t off hs t' off' : ext_chain p t off hs t' off' -> forall i m,
  0 <= off -> off' + 2 <= Z.of_nat (length p) -> (length hs <= i)%nat -> ctx_mapped m ctx ->
  rt_load m 4 ctx RT_l4_offset = Some off ->
  exists m', parse_eh_loop i t ctx m w = Some (t', m') /\ parser_frame m m' ctx /\
    rt_load m' 4 ctx RT_l4_offset = Some off'.
Proof.
  induction 1 as [t off Ht|t off nh len hs t' off' Ht Hs Hlen Hf Hc IH]; intros i m H0 Hend Hi Hm Hl.
  - exists m. split_and!; [|done|done]. destruct i as [|i]; [done|]. cbn [parse_eh_loop].
    rewrite Hl. cbn [mbind option_bind]. rewrite slice_ok by done.
    revert Ht. unfold eh_bit. 
    repeat match goal with |- context [t =? ?x] => destruct (t =? x); [done|] end. done.
  - destruct i as [|i]; [cbn in Hi; lia|]. pose proof (ext_len_pos t len Hlen).
    pose proof (ext_chain_le _ _ _ _ _ _ Hc) as Hle. pose proof (slice_in_packet off nh len H0 Hs).
    rewrite (parse_eh_turn i t off nh len m Ht Hf) by (done || lia).
    destruct (store_l4_offset m ctx (u32 (off + ext_len t len)) Hm) as (m1 & -> & Hm1 & Hf1 & Hl1 & _).
    cbn [mbind option_bind]. rewrite !u32_small in Hl1 by (rewrite ?u32_small; lia).
    destruct (IH i m1) as (m2 & E & Hf2 & Hl2); [lia|done|cbn in Hi; lia|done|done|].
    exists m2. split_and!; [done|by eapply parser_frame_trans|done].
Qed.

Lemma eh_flag_small t : 0 <= eh_flag t < 64.
Proof.
  unfold eh_flag. repeat match goal with |- context [t =? ?x] => destruct (Z.eqb_spec t x) as [->|]; [by vm_compute|] end.
  by vm_compute.
Qed.

Lemma lor_small a b : 0 <= a < 64 -> 0 <= b < 64 -> 0 <= Z.lor a b < 64.
Proof.
  intros Ha Hb. split; [apply Z.lor_nonneg; lia|].
  destruct (decide (Z.lor a b = 0)) as [->|Hne]; [lia|]. change 64 with (2 ^ 6). apply Z.log2_lt_pow2.
  - pose proof (proj2 (Z.lor_nonneg a b) (conj (proj1 Ha) (proj1 Hb))). lia.
  - rewrite Z.log2_lor by lia. assert (forall x, 0 <= x < 64 -> Z.log2 x < 6) as Hx; [|apply Z.max_lub_lt; by apply Hx].
    intros x Hx. destruct (decide (x = 0)) as [->|]; [by vm_compute|].
    apply Z.log2_lt_pow2; [lia|]. change (2 ^ 6) with 64. lia.
Qed.

(** The loop of the second, and the mask. *)
Lemma parse_nh_follows t off hs t' off' : ext_chain p t off hs t' off' -> forall i m eh,
  0 <= off -> off' + 2 <= Z.of_nat (length p) -> (length hs <= i)%nat -> ctx_mapped m ctx ->
  rt_load m 4 ctx RT_l4_offset = Some off -> rt_load m 1 ctx RT_ipv6_eh = Some eh -> 0 <= eh < 64 ->
  exists m', parse_nh_loop i t ctx m w = Some (t', m') /\ parser_frame m m' ctx /\
    rt_load m' 4 ctx RT_l4_offset = Some off' /\ rt_load m' 1 ctx RT_ipv6_eh = Some (Z.lor eh (eh_mask_of hs)).
Proof.
  induction 1 as [t off Ht|t off nh len hs t' off' Ht Hs Hlen Hf Hc IH]; intros i m eh H0 Hend Hi Hm Hl He Hr.
  - exists m. rewrite Z.lor_0_r. split_and!; [|done..]. destruct i as [|i]; [done|]. cbn [parse_nh_loop].
    rewrite Hl. cbn [mbind option_bind]. rewrite slice_ok by done.
    by rewrite is_eh_bit, Ht, bool_decide_eq_false_2 by (by intros [? ?]).
  - destruct i as [|i]; [cbn in Hi; lia|]. pose proof (ext_len_pos t len Hlen).
    pose proof (ext_chain_le _ _ _ _ _ _ Hc) as Hle. pose proof (slice_in_packet off nh len H0 Hs).
    rewrite (parse_nh_turn i t off nh len m eh Ht Hf) by (done || lia).
    destruct (store_ipv6_eh m ctx (Z.lor eh (eh_flag t)) Hm) as (m1 & -> & Hm1 & Hf1 & He1 & Hl1).
    cbn [mbind option_bind].
    destruct (store_l4_offset m1 ctx (off + ext_len t len) Hm1) as (m2 & -> & Hm2 & Hf2 & Hl2 & He2).
    cbn [mbind option_bind]. pose proof (lor_small eh (eh_flag t) Hr (eh_flag_small t)) as Hr'.
    rewrite u32_small in Hl2 by lia. rewrite He1 in He2. unfold u8 in He2. rewrite Z.mod_small in He2 by lia.
    destruct (IH i m2 (Z.lor eh (eh_flag t))) as (m3 & E & Hf3 & Hl3 & He3); [lia|done|cbn in Hi; lia|done|done|done|done|].
    exists m3. split_and!; [done| |done|].
    + eapply parser_frame_trans; [done|by eapply parser_frame_trans].
    + rewrite He3. cbn [eh_mask_of foldr]. by rewrite Z.lor_assoc.
Qed.

(** ** The stubs *)

Context (m : memory) (h t o3 : Z).
Hypotheses (Hm : ctx_mapped m ctx) (Hh : rt_load m 8 ctx RT_l3_hdr = Some h)
  (Ht : load m 1 (h + offsetof_nexthdr) = Some t) (Ho : rt_load m 4 ctx RT_l3_offset = Some o3) (Ho3 : 0 <= o3).

Lemma bf_parse_ipv6_eh_ok hs t' off' : ext_chain p t (o3 + sizeof_ip6hdr) hs t' off' ->
  off' + 2 <= Z.of_nat (length p) -> (length hs <= BF_IPV6_EXT_MAX_CHAIN)%nat ->
  exists m', bf_parse_ipv6_eh m ctx w = Some (t', m') /\ parser_frame m m' ctx /\
    rt_load m' 4 ctx RT_l4_offset = Some off'.
Proof.
  intros Hc Hend Hi. unfold bf_parse_ipv6_eh. rewrite Hh. cbn [mbind option_bind]. rewrite Ht, Ho.
  cbn [mbind option_bind]. pose proof (ext_chain_le _ _ _ _ _ _ Hc) as Hle. unfold sizeof_ip6hdr in *.
  destruct (store_l4_offset m ctx (u32 (o3 + 40)) Hm) as (m1 & -> & Hm1 & Hf1 & Hl1 & _).
  cbn [mbind option_bind]. rewrite !u32_small in Hl1 by (rewrite ?u32_small; lia).
  destruct (parse_eh_follows _ _ _ _ _ Hc BF_IPV6_EXT_MAX_CHAIN m1) as (m2 & E & Hf2 & Hl2); [lia|done..|].
  exists m2. split_and!; [done|by eapply parser_frame_trans|done].
Qed.

Lemma bf_parse_ipv6_nh_ok hs t' off' : ext_chain p t (o3 + sizeof_ip6hdr) hs t' off' ->
  off' + 2 <= Z.of_nat (length p) -> (length hs <= BF_IPV6_EXT_MAX_CHAIN)%nat ->
  exists m', bf_parse_ipv6_nh m ctx w = Some (t', m') /\ parser_frame m m' ctx /\
    rt_load m' 4 ctx RT_l4_offset = Some off' /\ rt_load m' 1 ctx RT_ipv6_eh = Some (eh_mask_of hs).
Proof.
  intros Hc Hend Hi. unfold bf_parse_ipv6_nh. rewrite Hh. cbn [mbind option_bind]. rewrite Ht.
  cbn [mbind option_bind]. pose proof (ext_chain_le _ _ _ _ _ _ Hc) as Hle. unfold sizeof_ip6hdr in *.
  destruct (ctx_store m 1 ctx 40 0 Hm ltac:(lia) ltac:(unfold sizeof_bf_runtime; lia)) as (m0 & Hs0 & Hm0 & He0 & Hf0).
  change (rt_store m 1 ctx RT_ipv6_eh 0) with (store m 1 (ctx + 40) 0). rewrite Hs0. cbn [mbind option_bind].
  assert (rt_load m0 4 ctx RT_l3_offset = Some o3) as ->.
  { rewrite <- Ho. destruct Hm as (? & Hb & _). unfold sizeof_bf_runtime in Hb.
    apply load_frame; cbn [offsetof_bf_runtime]; [lia..|]. intros x Hx. apply Hf0. lia. }
  cbn [mbind option_bind].
  destruct (store_l4_offset m0 ctx (u32 (o3 + 40)) Hm0) as (m1 & -> & Hm1 & Hf1 & Hl1 & He1).
  cbn [mbind option_bind]. rewrite !u32_small in Hl1 by (rewrite ?u32_small; lia).
  destruct (parse_nh_follows _ _ _ _ _ Hc BF_IPV6_EXT_MAX_CHAIN m1 0) as (m2 & E & Hf2 & Hl2 & He2);
    [lia|done..|by rewrite He1|lia|].
  exists m2. split_and!; [done| |done|by rewrite Z.lor_0_l in He2].
  apply (parser_frame_trans m m0); [|by eapply parser_frame_trans]. intros x Hx _. apply Hf0. cbn in Hx. lia.
Qed.
End Parsers.
