(* ===== verification/KernelSpec.v ===== *)
(** What the generated code expects of the kernel: the interface a program's
    theorems are proved against.

    The pseudo-random helper, the lookup of a set's map, and the helpers that
    the ELF stubs call, are specified by their documented behaviour; the stubs
    are the C code of [Stubs].  [count_packet] and [log_packet] are what the two
    stubs a rule calls do to the kernel.  [KernelModel] at the end instantiates
    the interface. *)

From S2P Require Import Prelude Bytes Bpf Helper Hook Matcher BfSet Rule Chain Printer Serial Log Program.
From S2P Require Import Block BlockExec Context Match Stubs.

(** * Membership in a set's map *)

(** A trie key is a 32-bit prefix length followed by the address; an element
    covers the key when its prefix length is at most the key's and the
    addresses agree on it. *)
Definition lpm_covers (key elem : list Z) : bool :=
  let p := le_combine (take 4 elem) in
  (p <=? le_combine (take 4 key)) && same_prefix (Z.to_nat p) (drop 4 key) (drop 4 elem).

(** The trie's key of an IPv6 network is followed by padding, which is data of
    the key for the map. *)
Definition set_contains (set : bf_set) (key : list Z) : bool :=
  if set_use_trie set then existsb (lpm_covers key) (set_elems set)
  else bool_decide (key ∈ set_elems set).

(** * The interface *)

Class KernelSpec (W : Type) `{Kernel W} `{!StubHelpers W} (c : bf_chain) : Type := {
  k_prandom : W -> Z * W;
  k_prandom_range w : 0 <= fst (k_prandom w) < 2 ^ 32;
  k_prandom_ext rs m w :
    k_ext (Helper BPF_FUNC_get_prandom_u32) rs m w = Some (fst (k_prandom w), m, snd (k_prandom w));

  (** R1 is the set's map, R2 the address of the key. *)
  k_lookup_ext i set rs m w a key : chain_sets c !! i = Some set ->
    rs !! 1 = Some (k_map BF_FIXUP_TYPE_SET_MAP_FD (AttrSet i)) -> rs !! 2 = Some a ->
    load_bytes m a (Z.to_nat (set_elem_size set)) = Some key ->
    exists r, k_ext (Helper BPF_FUNC_map_lookup_elem) rs m w = Some (r, m, w) /\
      (r =? 0) = negb (set_contains set key);

  (** Memory that can be read is copied. *)
  k_probe_read m a n bs : load_bytes m a n = Some bs -> bpf_probe_read_kernel m a n = bs;

  (** The program is linked with the stubs. *)
  k_stubs id rs m w : k_stub id rs m w = stub_call id rs m w
}.

(** * What a rule does *)

Section Effects.
Context {W : Type} `{Kernel W} `{!StubHelpers W} (c : bf_chain) `{!KernelSpec W c}.

(** A packet of [size] bytes is added to the counter [idx], if there is one. *)
Definition count_packet (idx size : Z) (w : W) : W :=
  let map := k_map BF_FIXUP_TYPE_COUNTERS_MAP_FD AttrNone in
  match bpf_map_lookup_elem map (u32 idx) w with
  | None => bpf_printk "failed to fetch the rule's counters" w
  | Some counter =>
      bpf_map_value_write map (u32 idx)
        (mk_counter (u64 (counter_packets counter + 1)) (u64 (counter_bytes counter + size))) w
  end.

(** What a record has of a header: its bytes if it is requested and there. *)
Definition logged (hdrs : Z) (slices : bf_pkthdr -> option (list Z)) (hdr : bf_pkthdr) : option (list Z) :=
  if log_has hdrs hdr then slices hdr else None.

Definition logged_bit (hdrs : Z) (slices : bf_pkthdr -> option (list Z)) (hdr : bf_pkthdr) : Z :=
  match logged hdrs slices hdr with Some _ => Z.shiftl 1 (bf_pkthdr_to_Z hdr) | None => 0 end.
Definition logged_slice (hdrs : Z) (slices : bf_pkthdr -> option (list Z)) (hdr : bf_pkthdr) (old : list Z) : list Z :=
  match logged hdrs slices hdr with Some bs => bs ++ drop (length bs) old | None => old end.

(** The slice of a header. *)
Definition record_slice (record : bf_log) (hdr : bf_pkthdr) : list Z :=
  match hdr with
  | BF_PKTHDR_LINK => log_l2hdr record
  | BF_PKTHDR_INTERNET => log_l3hdr record
  | BF_PKTHDR_TRANSPORT => log_l4hdr record
  end.

Lemma logged_headers hdrs slices hdr :
  log_has (Z.lor (logged_bit hdrs slices BF_PKTHDR_LINK)
    (Z.lor (logged_bit hdrs slices BF_PKTHDR_INTERNET) (logged_bit hdrs slices BF_PKTHDR_TRANSPORT)) mod 16) hdr =
  match logged hdrs slices hdr with Some _ => true | None => false end.
Proof.
  unfold logged_bit. destruct hdr; destruct (logged hdrs slices BF_PKTHDR_LINK);
    destruct (logged hdrs slices BF_PKTHDR_INTERNET); destruct (logged hdrs slices BF_PKTHDR_TRANSPORT); done.
Qed.

(** A record is published, if the ring buffer [map] has room. *)
Definition log_packet (map idx hdrs l3_proto l4_proto size : Z) (slices : bf_pkthdr -> option (list Z)) (w : W) : W :=
  match bpf_ringbuf_reserve map w with
  | (None, w) => bpf_printk "failed to reserve %d bytes in ringbuf" w
  | (Some log, w) =>
      let '(ts, w) := bpf_ktime_get_ns w in
      let bit := logged_bit (u8 hdrs) slices in
      let slice := logged_slice (u8 hdrs) slices in
      bpf_ringbuf_submit
        (mk_log ts size (u32 idx) (bswap16 (u16 l3_proto)) (u8 l4_proto) (u8 hdrs mod 16)
           (Z.lor (bit BF_PKTHDR_LINK) (Z.lor (bit BF_PKTHDR_INTERNET) (bit BF_PKTHDR_TRANSPORT)) mod 16)
           (slice BF_PKTHDR_LINK (log_l2hdr log)) (slice BF_PKTHDR_INTERNET (log_l3hdr log))
           (slice BF_PKTHDR_TRANSPORT (log_l4hdr log))) w
  end.

(** R1 is the runtime context, R2 the counters map, R3 the index. *)
Lemma count_stub rs m w ctx idx size :
  rs !! 1 = Some ctx -> rs !! 2 = Some (k_map BF_FIXUP_TYPE_COUNTERS_MAP_FD AttrNone) ->
  rs !! 3 = Some idx -> load m 8 (ctx + offsetof_bf_runtime RT_pkt_size) = Some size ->
  exists r0, k_stub BF_ELFSTUB_UPDATE_COUNTERS rs m w = Some (r0, m, count_packet idx size w).
Proof using All.
  intros H1 H2 H3 Hs. rewrite (k_stubs (c := c)). unfold stub_call. rewrite H1, H2, H3. cbn [mbind option_bind].
  unfold bf_update_counters, count_packet. destruct (bpf_map_lookup_elem _ _ w); [|by eexists].
  unfold rt_load. rewrite Hs. by eexists.
Qed.

Lemma log_header_ok m ctx hdrs hdr old (slices : bf_pkthdr -> option (list Z)) :
  header_at m ctx hdr (slices hdr) ->
  log_header m ctx hdrs hdr old = Some (logged_bit hdrs slices hdr, logged_slice hdrs slices hdr old).
Proof using All.
  intros (ptr & size & Hptr & Hsize & Hs). unfold log_header, logged_bit, logged_slice, logged, rt_load.
  destruct (log_has hdrs hdr); [|done]. rewrite Hptr. cbn [mbind option_bind].
  destruct (slices hdr) as [bs|].
  - destruct Hs as (Hp & -> & Hlen & Hb). rewrite (proj2 (Z.eqb_neq ptr 0)) by done. rewrite Hsize.
    cbn [mbind option_bind]. rewrite (proj2 (Z.leb_le _ _)) by lia. rewrite Nat2Z.id.
    by rewrite (k_probe_read (c := c) m ptr (length bs) bs Hb).
  - destruct Hs as [-> | Hbig]; [done|]. destruct (ptr =? 0); [done|]. rewrite Hsize. cbn [mbind option_bind].
    by rewrite (proj2 (Z.leb_gt _ _)) by lia.
Qed.

(** R1 is the runtime context, then the rule, the headers and the protocols. *)
Lemma log_stub rs m w ctx idx hdrs l3 l4 map size slices :
  rs !! 1 = Some ctx -> rs !! 2 = Some idx -> rs !! 3 = Some hdrs -> rs !! 4 = Some l3 ->
  rs !! 5 = Some l4 -> load m 8 (ctx + offsetof_bf_runtime RT_log_map) = Some map ->
  load m 8 (ctx + offsetof_bf_runtime RT_pkt_size) = Some size ->
  (forall hdr, header_at m ctx hdr (slices hdr)) ->
  exists r0, k_stub BF_ELFSTUB_LOG rs m w = Some (r0, m, log_packet map idx hdrs l3 l4 size slices w).
Proof using All.
  intros H1 H2 H3 H4 H5 Hmap Hsize Hs. rewrite (k_stubs (c := c)). unfold stub_call.
  rewrite H1. cbn [mbind option_bind]. rewrite H2, H3, H4, H5. cbn [mbind option_bind].
  unfold bf_log_stub, log_packet, rt_load. rewrite Hmap. cbn [mbind option_bind].
  destruct (bpf_ringbuf_reserve map w) as [[log|] w1]; [|by eexists].
  destruct (bpf_ktime_get_ns w1) as [ts w2]. rewrite Hsize. cbn [mbind option_bind].
  rewrite !(log_header_ok m ctx _ _ _ slices) by apply Hs. cbn [mbind option_bind]. by eexists.
Qed.
End Effects.

(** * A kernel *)

(** The state: the random numbers to come, the counters, the records the ring
    buffer still has room for, the time, what was published and printed, and the
    packet. *)
Record kworld : Type := mk_kworld {
  kw_rand : list Z;
  kw_counts : gmap Z bf_counter;
  kw_free : nat;
  kw_clock : Z;
  kw_log : list bf_log;
  kw_trace : list string;
  kw_packet : list Z
}.

(** Maps are numbered: the sets from 16. *)
Definition km_map (t : bf_fixup_type) (a : bf_fixup_attr) : Z :=
  match t with
  | BF_FIXUP_TYPE_SET_MAP_FD => 16 + Z.of_nat (attr_set a)
  | BF_FIXUP_TYPE_COUNTERS_MAP_FD => 1
  | _ => 2
  end.

Definition km_write (map key : Z) (counter : bf_counter) (w : kworld) : kworld :=
  let 'mk_kworld rand counts free clock log trace packet := w in
  mk_kworld rand (<[key := counter]> counts) free clock log trace packet.

Definition km_reserve (map : Z) (w : kworld) : option bf_log * kworld :=
  let 'mk_kworld rand counts free clock log trace packet := w in
  match free with
  | O => (None, w)
  | S free => (Some (mk_log 0 0 0 0 0 0 0 (replicate 16 0) (replicate 40 0) (replicate 24 0)),
               mk_kworld rand counts free clock log trace packet)
  end.

Definition km_submit (record : bf_log) (w : kworld) : kworld :=
  let 'mk_kworld rand counts free clock log trace packet := w in
  mk_kworld rand counts free clock (record :: log) trace packet.

Definition km_time (w : kworld) : Z * kworld :=
  let 'mk_kworld rand counts free clock log trace packet := w in
  (clock, mk_kworld rand counts free (clock + 1) log trace packet).

Definition km_printk (msg : string) (w : kworld) : kworld :=
  let 'mk_kworld rand counts free clock log trace packet := w in
  mk_kworld rand counts free clock log (msg :: trace) packet.

Definition km_slice (w : kworld) (off : Z) (n : nat) : option (list Z) :=
  if off + Z.of_nat n <=? Z.of_nat (length (kw_packet w))
  then Some (sub_bytes (Z.to_nat off) n (kw_packet w)) else None.

#[global] Instance KernelHelpers : StubHelpers kworld := {
  bpf_dynptr_slice := km_slice;
  bpf_probe_read_kernel := fun m a n => default (replicate n 0) (load_bytes m a n);
  bpf_map_lookup_elem := fun map key w =>
    if map =? km_map BF_FIXUP_TYPE_COUNTERS_MAP_FD AttrNone then kw_counts w !! key else None;
  bpf_map_value_write := km_write;
  bpf_ringbuf_reserve := km_reserve;
  bpf_ringbuf_submit := km_submit;
  bpf_ktime_get_ns := km_time;
  bpf_printk := km_printk
}.

Section Model.
Context (c : bf_chain).

Definition km_prandom (w : kworld) : Z * kworld :=
  let 'mk_kworld rand counts free clock log trace packet := w in
  match rand with
  | r :: rs => (u32 r, mk_kworld rs counts free clock log trace packet)
  | [] => (0, w)
  end.

Definition km_lookup (rs : gmap Z Z) (m : memory) (w : kworld) : option (Z * memory * kworld) :=
  match rs !! 1, rs !! 2 with
  | Some p, Some a =>
      match chain_sets c !! Z.to_nat (p - 16) with
      | Some set =>
          match load_bytes m a (Z.to_nat (set_elem_size set)) with
          | Some key => Some (if set_contains set key then 4096 else 0, m, w)
          | None => None
          end
      | None => None
      end
  | _, _ => None
  end.

Definition km_ext (f : callee) (rs : gmap Z Z) (m : memory) (w : kworld) :
    option (Z * memory * kworld) :=
  match f with
  | Helper 7 => Some (fst (km_prandom w), m, snd (km_prandom w))
  | Helper 1 => km_lookup rs m w
  | _ => None
  end.

#[global] Instance KernelModel : Kernel kworld :=
  { k_ext := km_ext; k_stub := stub_call; k_map := km_map; k_map_value := fun _ _ => 0 }.

#[global] Instance KernelModelSpec : KernelSpec kworld c.
Proof.
  refine {| k_prandom := km_prandom |}.
  - intros []. unfold km_prandom. destruct kw_rand0; cbn [fst]; [lia|apply u32_range].
  - done.
  - intros i set rs m w a key Hi H1 H2 Hk.
    exists (if set_contains set key then 4096 else 0). split; [|by destruct (set_contains set key)].
    cbn. unfold km_lookup. rewrite H1, H2. cbn [k_map KernelModel km_map attr_set].
    replace (16 + Z.of_nat i - 16) with (Z.of_nat i) by lia. by rewrite Nat2Z.id, Hi, Hk.
  - intros m a n bs Hb. cbn. by rewrite Hb.
  - done.
Defined.
End Model.
