(* ===== verification/GenIp4.v ===== *)
(** IPv4 matchers: [src/bpfilter/cgen/matcher/ip4.c]. *)

From S2P Require Import Prelude Bytes Bpf Helper Hook Matcher BfSet Rule Chain Printer Program.
From S2P Require Import Block BlockExec Context Symbolic Match.

(** * Generation *)

Definition _bf_matcher_generate_ip4_addr (m : bf_matcher) : gen unit :=
  payload_read 4 m ;;
  let addr := payload_u32 m in
  let offset := if decide (matcher_type m = BF_MATCHER_IP4_SADDR)
                then offsetof_iphdr_saddr else offsetof_iphdr_daddr in
  EMIT (BPF_LDX_MEM BPF_W BPF_REG_1 BPF_REG_6 offset) ;;
  EMIT (BPF_MOV32_IMM BPF_REG_2 addr) ;;
  EMIT_FIXUP_JMP_NEXT_RULE
    (BPF_JMP_REG (if decide (matcher_op m = BF_MATCHER_EQ) then BPF_JNE else BPF_JEQ)
                 BPF_REG_1 BPF_REG_2 0).

Definition _bf_matcher_generate_ip4_proto (m : bf_matcher) : gen unit :=
  payload_read 1 m ;;
  let proto := payload_u8 m in
  EMIT (BPF_LDX_MEM BPF_B BPF_REG_1 BPF_REG_6 offsetof_iphdr_protocol) ;;
  EMIT_FIXUP_JMP_NEXT_RULE
    (BPF_JMP_IMM (if decide (matcher_op m = BF_MATCHER_EQ) then BPF_JNE else BPF_JEQ)
                 BPF_REG_1 proto 0).

(** The mask in memory order; a prefix of more than 32 bits is written past the
    4 bytes of the mask. *)
Definition _bf_ip4_prefix_to_mask (prefixlen : Z) : res (list Z) :=
  if 32 <? prefixlen then Err (- BF_CRASH) else
  let mask := replicate 4 0 in
  let n := Z.to_nat (prefixlen / 8) in
  let mask := replicate n 255 ++ drop n mask in
  Ok (if prefixlen mod 8 =? 0 then mask
      else <[n := Z.land (Z.shiftl 255 (8 - prefixlen mod 8)) 255]> mask).

Definition _bf_matcher_generate_ip4_net (m : bf_matcher) : gen unit :=
  payload_read 8 m ;;
  let prefixlen := payload_u32 m in
  let data := le_combine (sub_bytes 4 4 (matcher_payload m)) in
  let offset := if decide (matcher_type m = BF_MATCHER_IP4_SNET)
                then offsetof_iphdr_saddr else offsetof_iphdr_daddr in
  mask ← gen_lift (_bf_ip4_prefix_to_mask prefixlen);
  let mask := le_combine mask in
  EMIT (BPF_LDX_MEM BPF_W BPF_REG_1 BPF_REG_6 offset) ;;
  EMIT (BPF_MOV32_IMM BPF_REG_2 data) ;;
  (if mask =? UINT32_MAX then mret tt
   else EMIT (BPF_MOV32_IMM BPF_REG_3 mask) ;;
        EMIT (BPF_ALU32_REG BPF_AND BPF_REG_1 BPF_REG_3) ;;
        EMIT (BPF_ALU32_REG BPF_AND BPF_REG_2 BPF_REG_3)) ;;
  EMIT_FIXUP_JMP_NEXT_RULE
    (BPF_JMP_REG (if decide (matcher_op m = BF_MATCHER_EQ) then BPF_JNE else BPF_JEQ)
                 BPF_REG_1 BPF_REG_2 0).

Definition bf_matcher_generate_ip4 (m : bf_matcher) : gen unit :=
  EMIT_FIXUP_JMP_NEXT_RULE (BPF_JMP_IMM BPF_JNE BPF_REG_7 (htobe16 ETH_P_IP) 0) ;;
  EMIT (BPF_LDX_MEM BPF_DW BPF_REG_6 BPF_REG_10 (BF_PROG_CTX_OFF RT_l3_hdr)) ;;
  match matcher_type m with
  | BF_MATCHER_IP4_SADDR | BF_MATCHER_IP4_DADDR => _bf_matcher_generate_ip4_addr m
  | BF_MATCHER_IP4_PROTO => _bf_matcher_generate_ip4_proto m
  | BF_MATCHER_IP4_SNET | BF_MATCHER_IP4_DNET => _bf_matcher_generate_ip4_net m
  | _ => gen_err (- EINVAL)
  end.

(** * Correctness *)

Lemma ip4_prefix_to_mask_spec p : 0 <= p <= 32 ->
  _bf_ip4_prefix_to_mask p = Ok (mask_bytes 4 (Z.to_nat p)).
Proof.
  intros Hp. assert (forall n, (n < 33)%nat -> _bf_ip4_prefix_to_mask (Z.of_nat n) = Ok (mask_bytes 4 n)) as H.
  { intros n Hn. do 33 (destruct n as [|n]; [by vm_compute|]). lia. }
  rewrite <- (Z2Nat.id p) at 1 by lia. apply H. lia.
Qed.

Section Correct.
Context {W : Type} `{Kernel W} (c : bf_chain) (fl : bf_flavor) (lo : layout).

Lemma block_ip4_addr pk (s : vm W) op o payload :
  ctx_rel lo pk s -> regs s !! 6 = Some (lo_l3 lo) -> 0 <= o < 2 ^ 15 ->
  (Z.to_nat o + 4 <= length (pk_l3 pk))%nat -> is_bytes payload -> (4 <= length payload)%nat ->
  exists s', ctx_rel lo pk s' /\ world s' = world s /\
    exec [ISingle (BPF_LDX_MEM BPF_W BPF_REG_1 BPF_REG_6 o) None;
          ISingle (BPF_MOV32_IMM BPF_REG_2 (le_combine (take 4 payload))) None;
          ISingle (BPF_JMP_REG (if decide (op = BF_MATCHER_EQ) then BPF_JNE else BPF_JEQ)
                               BPF_REG_1 BPF_REG_2 0) JMP] 0 s =
    if match_bytes op (sub_bytes (Z.to_nat o) 4 (pk_l3 pk)) (take 4 payload)
    then BFall 0 s' else BRule s'.
Proof.
  intros Hc H6 Ho Hl Hb Hp.
  erewrite ex_ldx; [|code_tac|done|by apply l3_load].
  rewrite ex_mov32_imm. erewrite ex_jmp_reg_rule; [|apply op_jmp_code|reg_tac|reg_tac|apply op_jcc].
  eexists. split; [|split; [|unfold match_bytes;
    rewrite <- sub_bytes_eqb_combine, u32_small;
    [destruct (eq_or_ne op _); reflexivity|..]]].
  - ctx_tac.
  - done.
  - apply le_combine_u32; [auto with bf|rewrite length_take; lia].
  - apply is_bytes_sub, Hc.
  - auto with bf.
  - rewrite length_sub_bytes, length_take by done. lia.
Qed.

Lemma block_ip4_proto pk (s : vm W) op payload :
  ctx_rel lo pk s -> regs s !! 6 = Some (lo_l3 lo) ->
  (20 <= length (pk_l3 pk))%nat -> is_bytes payload -> (1 <= length payload)%nat ->
  exists s', ctx_rel lo pk s' /\ world s' = world s /\
    exec [ISingle (BPF_LDX_MEM BPF_B BPF_REG_1 BPF_REG_6 offsetof_iphdr_protocol) None;
          ISingle (BPF_JMP_IMM (if decide (op = BF_MATCHER_EQ) then BPF_JNE else BPF_JEQ)
                               BPF_REG_1 (le_combine (take 1 payload)) 0) JMP] 0 s =
    if match_bytes op (l3_field 9 1 pk) (take 1 payload) then BFall 0 s' else BRule s'.
Proof.
  intros Hc H6 Hl Hb Hp.
  erewrite ex_ldx; [|code_tac|done|apply l3_load; [done|done|len_tac]].
  erewrite ex_jmp_imm_rule; [|apply op_jmp_code|reg_tac|apply op_jcc].
  pose proof (le_combine_u8 (take 1 payload) ltac:(auto with bf) ltac:(rewrite length_take; lia)).
  rewrite u64_s32_small by lia.
  eexists. split; [|split; [|unfold match_bytes, l3_field; change (Z.to_nat offsetof_iphdr_protocol) with 9%nat;
    rewrite <- sub_bytes_eqb_combine; [destruct (eq_or_ne op _); reflexivity|..]]].
  - ctx_tac.
  - done.
  - apply is_bytes_sub, Hc.
  - auto with bf.
  - rewrite length_sub_bytes, length_take by lia. lia.
Qed.

(** The block of a network matcher: the mask is skipped when it is full. *)
Definition ip4_net_block (o data mask : Z) (op : bf_matcher_op) : block :=
  [ISingle (BPF_LDX_MEM BPF_W BPF_REG_1 BPF_REG_6 o) None;
   ISingle (BPF_MOV32_IMM BPF_REG_2 data) None] ++
  (if mask =? UINT32_MAX then []
   else [ISingle (BPF_MOV32_IMM BPF_REG_3 mask) None;
         ISingle (BPF_ALU32_REG BPF_AND BPF_REG_1 BPF_REG_3) None;
         ISingle (BPF_ALU32_REG BPF_AND BPF_REG_2 BPF_REG_3) None]) ++
  [ISingle (BPF_JMP_REG (if decide (op = BF_MATCHER_EQ) then BPF_JNE else BPF_JEQ)
                        BPF_REG_1 BPF_REG_2 0) JMP].

Lemma block_ip4_net pk (s : vm W) op o p net :
  ctx_rel lo pk s -> regs s !! 6 = Some (lo_l3 lo) -> 0 <= o < 2 ^ 15 ->
  (Z.to_nat o + 4 <= length (pk_l3 pk))%nat -> is_bytes net -> length net = 4%nat -> 0 <= p <= 32 ->
  exists s', ctx_rel lo pk s' /\ world s' = world s /\
    exec (ip4_net_block o (le_combine net) (le_combine (mask_bytes 4 (Z.to_nat p))) op) 0 s =
    if match_net op p (sub_bytes (Z.to_nat o) 4 (pk_l3 pk)) net then BFall 0 s' else BRule s'.
Proof.
  intros Hc H6 Ho Hl Hb Hn Hp.
  set (fld := sub_bytes (Z.to_nat o) 4 (pk_l3 pk)).
  assert (is_bytes fld) as Hfb by apply is_bytes_sub, Hc.
  assert (length fld = 4%nat) as Hfl by (by apply length_sub_bytes).
  pose proof (le_combine_u32 fld Hfb ltac:(lia)) as Hf.
  pose proof (le_combine_u32 net Hb ltac:(lia)) as Hnet.
  pose proof (le_combine_u32 (mask_bytes 4 (Z.to_nat p)) (mask_bytes_bytes _ _)
    ltac:(rewrite length_mask_bytes; lia)) as Hm.
  unfold ip4_net_block. cbn [app].
  erewrite ex_ldx; [|code_tac|done|by apply l3_load].
  change (size_bytes BPF_W) with 4%nat. fold fld.
  rewrite ex_mov32_imm. unfold match_net. rewrite <- (masked_eq 4) by done.
  destruct (Z.eqb_spec (le_combine (mask_bytes 4 (Z.to_nat p))) UINT32_MAX) as [E|E]; cbn [app].
  - erewrite ex_jmp_reg_rule; [|apply op_jmp_code|reg_tac|reg_tac|apply op_jcc].
    rewrite E. change UINT32_MAX with (Z.ones 32). rewrite !Z.land_ones by lia.
    rewrite (u32_small (le_combine net)), !Z.mod_small by lia.
    eexists. split; [|split; [|destruct (eq_or_ne op _); reflexivity]]; [ctx_tac|done].
  - rewrite ex_mov32_imm.
    erewrite ex_and32_reg; [|reg_tac|reg_tac]. erewrite ex_and32_reg; [|reg_tac|reg_tac].
    erewrite ex_jmp_reg_rule; [|apply op_jmp_code|reg_tac|reg_tac|apply op_jcc].
    rewrite !(u32_small (le_combine net)), !(u32_small (le_combine fld)),
      !(u32_small (le_combine (mask_bytes 4 (Z.to_nat p)))) by lia.
    eexists. split; [|split; [|destruct (eq_or_ne op _); reflexivity]]; [ctx_tac|done].
Qed.

Lemma gemits_ip4_net m : (8 <= length (matcher_payload m))%nat -> 0 <= payload_u32 m <= 32 ->
  gemits c fl (_bf_matcher_generate_ip4_net m)
    (ip4_net_block (if decide (matcher_type m = BF_MATCHER_IP4_SNET)
                    then offsetof_iphdr_saddr else offsetof_iphdr_daddr)
       (le_combine (sub_bytes 4 4 (matcher_payload m)))
       (le_combine (mask_bytes 4 (Z.to_nat (payload_u32 m)))) (matcher_op m)).
Proof.
  intros Hl Hp.
  unfold _bf_matcher_generate_ip4_net, ip4_net_block. apply gemits_payload; [done|].
  eapply gemits_lift; [by apply ip4_prefix_to_mask_spec|].
  apply (gemits_seq _ _ _ _ [_]); [gen_emit|].
  apply (gemits_seq _ _ _ _ [_]); [gen_emit|].
  apply gemits_seq; [|gen_emit].
  case_match; [gen_emit|]. apply (gemits_seq _ _ _ _ [_]); [gen_emit|].
  apply (gemits_seq _ _ _ _ [_]); gen_emit.
Qed.

(** The type a generator accepts. *)
Definition is_ip4_type (t : bf_matcher_type) : bool :=
  match t with
  | BF_MATCHER_IP4_SADDR | BF_MATCHER_IP4_DADDR | BF_MATCHER_IP4_SNET | BF_MATCHER_IP4_DNET
  | BF_MATCHER_IP4_PROTO => true
  | _ => false
  end.

Lemma gen_ip4_matches m : matcher_wf m -> is_ip4_type (matcher_type m) = true ->
  gen_matches c fl lo (bf_matcher_generate_ip4 m) (pure_match (W := W) (fun pk => match_ip4 pk m)).
Proof.
  intros Hwf Ht. pose proof (matcher_len m Hwf) as Hlen.
  pose proof (payload_u32_nonneg m Hwf) as Hp0. destruct Hwf as [Hb _ Hp].
  (* emission *)
  assert (exists b, gemits c fl (match matcher_type m with
    | BF_MATCHER_IP4_SADDR | BF_MATCHER_IP4_DADDR => _bf_matcher_generate_ip4_addr m
    | BF_MATCHER_IP4_PROTO => _bf_matcher_generate_ip4_proto m
    | BF_MATCHER_IP4_SNET | BF_MATCHER_IP4_DNET => _bf_matcher_generate_ip4_net m
    | _ => gen_err (- EINVAL)
    end) b /\ forall pk (s : vm W), ctx_rel lo pk s -> pk_l3proto pk = htobe16 ETH_P_IP ->
      regs s !! 6 = Some (lo_l3 lo) ->
      exists s', ctx_rel lo pk s' /\ world s' = world s /\
        exec b 0 s = if match_ip4 pk m then BFall 0 s' else BRule s') as (b & Hb1 & Hb2).
  { unfold match_ip4. destruct (matcher_type m) eqn:E; try discriminate Ht;
      cbn in Hlen, Hp; eexists; (split; [first [apply gemits_ip4_net; [lia|split; [done|exact Hp]] | unfold _bf_matcher_generate_ip4_addr,
        _bf_matcher_generate_ip4_proto; gen_emit]|]);
      intros pk s Hc Hl3 H6; rewrite Hl3, Z.eqb_refl, ?E; try rewrite E in Hlen; cbn in Hlen; cbn [andb app];
      pose proof (pw_ip4 pk (cr_pkt _ _ _ Hc) Hl3) as Hlen3.
    - rewrite decide_True by done. apply (block_ip4_addr pk s); first [done | len_tac | lia].
    - rewrite decide_True by done. apply (block_ip4_net pk s); try first [done | len_tac | lia].
      all: first [by auto with bf | by rewrite length_sub_bytes; lia | by (cbn in Hp; lia)].
    - rewrite decide_False by done. apply (block_ip4_addr pk s); first [done | len_tac | lia].
    - rewrite decide_False by done. apply (block_ip4_net pk s); try first [done | len_tac | lia].
      all: first [by auto with bf | by rewrite length_sub_bytes; lia | by (cbn in Hp; lia)].
    - apply (block_ip4_proto pk s); first [done | lia]. }
  exists ([ISingle (BPF_JMP_IMM BPF_JNE BPF_REG_7 (htobe16 ETH_P_IP) 0) JMP] ++
          [ISingle (BPF_LDX_MEM BPF_DW BPF_REG_6 BPF_REG_10 (BF_PROG_CTX_OFF RT_l3_hdr)) None] ++ b).
  split; [unfold bf_matcher_generate_ip4; gen_emit|].
  intros pk s Hc. cbn [app pure_match fst snd]. rewrite (ex_check_l3 lo pk) by done.
  destruct (Z.eqb_spec (pk_l3proto pk) (htobe16 ETH_P_IP)) as [E|E].
  - destruct (Hb2 pk (set_reg 6 (lo_l3 lo) s)) as (s' & ? & ? & ?); [ctx_tac|done|reg_tac|].
    exists s'. done.
  - exists s. split_and!; [done..|]. unfold match_ip4.
    by rewrite (proj2 (Z.eqb_neq _ _) E).
Qed.
End Correct.
