(* ===== verification/GenIp6.v ===== *)
(** IPv6 matchers: [src/bpfilter/cgen/matcher/ip6.c].

    An address is compared as two 64-bit words, each built in R3 out of two
    32-bit immediates.  The negated operators jump over the rest of the
    comparison with jump contexts. *)

From S2P Require Import Prelude Bytes Bpf Helper Hook Matcher BfSet Rule Chain Printer Program.
From S2P Require Import Block BlockExec Context Symbolic Match.

(** * Generation *)

Definition _bf_make32 (a b c d : Z) : Z :=
  Z.lor (Z.lor (Z.lor (Z.shiftl a 24) (Z.shiftl b 16)) (Z.shiftl c 8)) d.

(** The group of four instructions that puts bytes [o..o+7] of [d] in R3. *)
Definition emit_word64 (d : list Z) (o : nat) : gen unit :=
  let b i := byte_at (o + i) d in
  EMIT (BPF_MOV32_IMM BPF_REG_3 (_bf_make32 (b 7%nat) (b 6%nat) (b 5%nat) (b 4%nat))) ;;
  EMIT (BPF_ALU64_IMM BPF_LSH BPF_REG_3 32) ;;
  EMIT (BPF_MOV32_IMM BPF_REG_4 (_bf_make32 (b 3%nat) (b 2%nat) (b 1%nat) (b 0%nat))) ;;
  EMIT (BPF_ALU64_REG BPF_OR BPF_REG_3 BPF_REG_4).

Definition _bf_matcher_generate_ip6_addr (m : bf_matcher) : gen unit :=
  payload_read 16 m ;;
  let addr := matcher_payload m in
  let offset := if decide (matcher_type m = BF_MATCHER_IP6_SADDR)
                then offsetof_ipv6hdr_saddr else offsetof_ipv6hdr_daddr in
  EMIT (BPF_LDX_MEM BPF_DW BPF_REG_1 BPF_REG_6 offset) ;;
  EMIT (BPF_LDX_MEM BPF_DW BPF_REG_2 BPF_REG_6 (offset + 8)) ;;
  if decide (matcher_op m = BF_MATCHER_EQ) then
    emit_word64 addr 0 ;;
    EMIT_FIXUP_JMP_NEXT_RULE (BPF_JMP_REG BPF_JNE BPF_REG_1 BPF_REG_3 0) ;;
    emit_word64 addr 8 ;;
    EMIT_FIXUP_JMP_NEXT_RULE (BPF_JMP_REG BPF_JNE BPF_REG_2 BPF_REG_3 0)
  else
    emit_word64 addr 0 ;;
    j0 ← bf_jmpctx_get (BPF_JMP_REG BPF_JNE BPF_REG_1 BPF_REG_3 0);
    emit_word64 addr 8 ;;
    j1 ← bf_jmpctx_get (BPF_JMP_REG BPF_JNE BPF_REG_2 BPF_REG_3 0);
    EMIT_FIXUP_JMP_NEXT_RULE (BPF_JMP_A 0) ;;
    bf_jmpctx_cleanup j0 ;;
    bf_jmpctx_cleanup j1.

(** The mask in memory order; a prefix of more than 128 bits is written past the
    16 bytes of the mask. *)
Definition _bf_ip6_prefix_to_mask (prefixlen : Z) : res (list Z) :=
  if 128 <? prefixlen then Err (- BF_CRASH) else
  let mask := replicate 16 0 in
  let n := Z.to_nat (prefixlen / 8) in
  let mask := replicate n 255 ++ drop n mask in
  Ok (if prefixlen mod 8 =? 0 then mask
      else <[n := Z.land (Z.shiftl 255 (8 - prefixlen mod 8)) 255]> mask).

Definition _bf_matcher_generate_ip6_net (m : bf_matcher) : gen unit :=
  payload_read 20 m ;;
  let prefixlen := payload_u32 m in
  let data := sub_bytes 4 16 (matcher_payload m) in
  let offset := if decide (matcher_type m = BF_MATCHER_IP6_SNET)
                then offsetof_ipv6hdr_saddr else offsetof_ipv6hdr_daddr in
  EMIT (BPF_LDX_MEM BPF_DW BPF_REG_1 BPF_REG_6 offset) ;;
  EMIT (BPF_LDX_MEM BPF_DW BPF_REG_2 BPF_REG_6 (offset + 8)) ;;
  mask ← gen_lift (_bf_ip6_prefix_to_mask prefixlen);
  (if byte_at 15 mask =? 255 then mret tt
   else emit_word64 mask 0 ;;
        EMIT (BPF_ALU64_REG BPF_AND BPF_REG_1 BPF_REG_3) ;;
        emit_word64 mask 8 ;;
        EMIT (BPF_ALU64_REG BPF_AND BPF_REG_2 BPF_REG_3)) ;;
  let masked := zip_with Z.land data mask in
  if decide (matcher_op m = BF_MATCHER_EQ) then
    emit_word64 masked 0 ;;
    EMIT_FIXUP_JMP_NEXT_RULE (BPF_JMP_REG BPF_JNE BPF_REG_1 BPF_REG_3 0) ;;
    emit_word64 masked 8 ;;
    EMIT_FIXUP_JMP_NEXT_RULE (BPF_JMP_REG BPF_JNE BPF_REG_2 BPF_REG_3 0)
  else
    emit_word64 masked 0 ;;
    j0 ← bf_jmpctx_get (BPF_JMP_REG BPF_JNE BPF_REG_1 BPF_REG_3 0);
    emit_word64 masked 8 ;;
    j1 ← bf_jmpctx_get (BPF_JMP_REG BPF_JNE BPF_REG_2 BPF_REG_3 0);
    EMIT_FIXUP_JMP_NEXT_RULE (BPF_JMP_A 0) ;;
    bf_jmpctx_cleanup j0 ;;
    bf_jmpctx_cleanup j1.

(** The bits of [ipv6_eh] ([BF_IPV6_EH_*]). *)
Definition ip6_eh_mask (ehdr : Z) : Z :=
  Z.lor (Z.lor (Z.lor (Z.lor (Z.lor
    (Z.shiftl (Z.b2z (ehdr =? IPPROTO_HOPOPTS)) 0)
    (Z.shiftl (Z.b2z (ehdr =? IPPROTO_ROUTING)) 1))
    (Z.shiftl (Z.b2z (ehdr =? IPPROTO_FRAGMENT)) 2))
    (Z.shiftl (Z.b2z (ehdr =? IPPROTO_AH)) 3))
    (Z.shiftl (Z.b2z (ehdr =? IPPROTO_DSTOPTS)) 4))
    (Z.shiftl (Z.b2z (ehdr =? IPPROTO_MH)) 5).

Definition is_ip6_eh (ehdr : Z) : bool :=
  (ehdr =? IPPROTO_HOPOPTS) || (ehdr =? IPPROTO_ROUTING) || (ehdr =? IPPROTO_DSTOPTS) ||
  (ehdr =? IPPROTO_FRAGMENT) || (ehdr =? IPPROTO_AH) || (ehdr =? IPPROTO_MH).

Definition _bf_matcher_generate_ip6_nexthdr (m : bf_matcher) : gen unit :=
  payload_read 1 m ;;
  let ehdr := payload_u8 m in
  let is_eq := bool_decide (matcher_op m = BF_MATCHER_EQ) in
  if negb is_eq && negb (bool_decide (matcher_op m = BF_MATCHER_NE)) then gen_err (- EINVAL)
  else if is_ip6_eh ehdr then
    EMIT (BPF_LDX_MEM BPF_DW BPF_REG_1 BPF_REG_10 (BF_PROG_CTX_OFF RT_ipv6_eh)) ;;
    EMIT (BPF_ALU64_IMM BPF_AND BPF_REG_1 (ip6_eh_mask ehdr)) ;;
    EMIT_FIXUP_JMP_NEXT_RULE (BPF_JMP_IMM (if is_eq then BPF_JEQ else BPF_JNE) BPF_REG_1 0 0)
  else
    EMIT_FIXUP_JMP_NEXT_RULE (BPF_JMP_IMM (if is_eq then BPF_JNE else BPF_JEQ) BPF_REG_8 ehdr 0).

Definition bf_matcher_generate_ip6 (m : bf_matcher) : gen unit :=
  EMIT_FIXUP_JMP_NEXT_RULE (BPF_JMP_IMM BPF_JNE BPF_REG_7 (htobe16 ETH_P_IPV6) 0) ;;
  EMIT (BPF_LDX_MEM BPF_DW BPF_REG_6 BPF_REG_10 (BF_PROG_CTX_OFF RT_l3_hdr)) ;;
  match matcher_type m with
  | BF_MATCHER_IP6_SADDR | BF_MATCHER_IP6_DADDR => _bf_matcher_generate_ip6_addr m
  | BF_MATCHER_IP6_SNET | BF_MATCHER_IP6_DNET => _bf_matcher_generate_ip6_net m
  | BF_MATCHER_IP6_NEXTHDR => _bf_matcher_generate_ip6_nexthdr m
  | _ => gen_err (- EINVAL)
  end.

(** * Correctness *)

Lemma ip6_prefix_to_mask_spec p : 0 <= p <= 128 ->
  _bf_ip6_prefix_to_mask p = Ok (mask_bytes 16 (Z.to_nat p)).
Proof.
  intros Hp.
  assert (forallb (fun n => match _bf_ip6_prefix_to_mask (Z.of_nat n) with
                            | Ok mask => bool_decide (mask = mask_bytes 16 n) | Err _ => false end)
    (seq 0 129) = true) as H by (by vm_compute).
  rewrite forallb_forall in H. specialize (H (Z.to_nat p)). rewrite Z2Nat.id in H by lia.
  specialize (H ltac:(apply in_seq; lia)). destruct (_bf_ip6_prefix_to_mask p); [|done].
  by apply bool_decide_eq_true in H as ->.
Qed.

(** The last byte of the mask is full only for a full prefix. *)
Lemma mask_last_full p : 0 <= p <= 128 ->
  (byte_at 15 (mask_bytes 16 (Z.to_nat p)) =? 255) = (p =? 128).
Proof.
  intros Hp.
  assert (forallb (fun n => bool_decide ((byte_at 15 (mask_bytes 16 n) =? 255) = (Z.of_nat n =? 128)))
    (seq 0 129) = true) as H by (by vm_compute).
  rewrite forallb_forall in H. specialize (H (Z.to_nat p)).
  rewrite Z2Nat.id in H by lia. apply bool_decide_eq_true in H; [done|].
  apply in_seq. lia.
Qed.

Lemma make32_combine a b c d : is_byte a -> is_byte b -> is_byte c -> is_byte d ->
  _bf_make32 a b c d = le_combine [d; c; b; a].
Proof.
  unfold is_byte, _bf_make32. intros Ha Hb Hc Hd. cbn [le_combine].
  assert (Z.lor (Z.shiftl a 24) (Z.shiftl b 16) = Z.shiftl (256 * a + b) 16) as ->.
  { replace 24 with (8 + 16) by done. rewrite <- Z.shiftl_shiftl, <- Z.shiftl_lor by done.
    f_equal. rewrite lor_shiftl_add by lia. lia. }
  assert (Z.lor (Z.shiftl (256 * a + b) 16) (Z.shiftl c 8) = Z.shiftl (256 * (256 * a + b) + c) 8) as ->.
  { replace 16 with (8 + 8) by done. rewrite <- Z.shiftl_shiftl, <- Z.shiftl_lor by done.
    f_equal. rewrite lor_shiftl_add by lia. lia. }
  rewrite lor_shiftl_add by lia. lia.
Qed.

Lemma sub_bytes_cons o n bs : (o < length bs)%nat ->
  sub_bytes o (S n) bs = byte_at o bs :: sub_bytes (S o) n bs.
Proof.
  intros Ho. unfold sub_bytes, byte_at. destruct (lookup_lt_is_Some_2 bs o Ho) as [b Hb].
  by rewrite (drop_S _ _ _ Hb), Hb, firstn_cons.
Qed.

Lemma sub_bytes_4 o bs : (o + 4 <= length bs)%nat ->
  sub_bytes o 4 bs = [byte_at o bs; byte_at (o + 1) bs; byte_at (o + 2) bs; byte_at (o + 3) bs].
Proof.
  intros Ho. rewrite !sub_bytes_cons by lia. unfold sub_bytes at 1. rewrite firstn_O.
  repeat f_equal; lia.
Qed.

Lemma make32_sub o bs : is_bytes bs -> (o + 4 <= length bs)%nat ->
  _bf_make32 (byte_at (o + 3) bs) (byte_at (o + 2) bs) (byte_at (o + 1) bs) (byte_at o bs) =
  le_combine (sub_bytes o 4 bs).
Proof.
  intros Hb Ho. rewrite sub_bytes_4 by done. apply make32_combine; by apply byte_at_range.
Qed.

(** A word is its low half plus its high half. *)
Lemma word64_halves o bs : is_bytes bs -> (o + 8 <= length bs)%nat ->
  Z.lor (u64 (Z.shiftl (le_combine (sub_bytes (o + 4) 4 bs)) 32)) (le_combine (sub_bytes o 4 bs)) =
  le_combine (sub_bytes o 8 bs).
Proof.
  intros Hb Ho.
  pose proof (le_combine_u32 (sub_bytes o 4 bs) ltac:(auto with bf)
    ltac:(rewrite length_sub_bytes; lia)) as Hlo.
  pose proof (le_combine_u32 (sub_bytes (o + 4) 4 bs) ltac:(auto with bf)
    ltac:(rewrite length_sub_bytes; lia)) as Hhi.
  assert (u64 (Z.shiftl (le_combine (sub_bytes (o + 4) 4 bs)) 32) =
          Z.shiftl (le_combine (sub_bytes (o + 4) 4 bs)) 32) as ->.
  { rewrite Z.shiftl_mul_pow2 by lia. apply u64_small. lia. }
  rewrite lor_shiftl_add by lia.
  rewrite (le_combine_split_at 4 (sub_bytes o 8 bs)) by (rewrite length_sub_bytes; lia).
  assert (take 4 (sub_bytes o 8 bs) = sub_bytes o 4 bs) as ->
    by (unfold sub_bytes; rewrite take_take; done).
  assert (drop 4 (sub_bytes o 8 bs) = sub_bytes (o + 4) 4 bs) as ->.
  { unfold sub_bytes. rewrite skipn_firstn_comm, drop_drop. done. }
  change (256 ^ Z.of_nat 4) with (2 ^ 32). lia.
Qed.

(** Sixteen bytes are equal when their two words are. *)
Lemma two_words_eqb a b : is_bytes a -> is_bytes b -> length a = 16%nat -> length b = 16%nat ->
  (le_combine (sub_bytes 0 8 a) =? le_combine (sub_bytes 0 8 b)) &&
  (le_combine (sub_bytes 8 8 a) =? le_combine (sub_bytes 8 8 b)) = bool_decide (a = b).
Proof.
  intros Ha Hb Hla Hlb.
  rewrite !sub_bytes_eqb_combine by (rewrite ?length_sub_bytes by lia; auto with bf).
  assert (forall l : list Z, length l = 16%nat -> l = sub_bytes 0 8 l ++ sub_bytes 8 8 l) as E.
  { intros l Hl. unfold sub_bytes. rewrite drop_0.
    rewrite (firstn_all2 (drop 8 l)) by (rewrite length_drop; lia). by rewrite take_drop. }
  repeat case_bool_decide; try done; cbn; exfalso.
  - match goal with H : a <> b |- _ => apply H end. rewrite (E a), (E b) by done. congruence.
  - subst. done.
  - subst. done.
  - subst. done.
Qed.

Lemma sub_bytes_zip_land o n a b :
  sub_bytes o n (zip_with Z.land a b) = zip_with Z.land (sub_bytes o n a) (sub_bytes o n b).
Proof. unfold sub_bytes. by rewrite zip_with_drop, zip_with_take. Qed.

Lemma zip_land_full bs : is_bytes bs -> length bs = 16%nat ->
  zip_with Z.land bs (mask_bytes 16 128) = bs.
Proof.
  intros Hb Hl. change (mask_bytes 16 128) with (replicate 16 255). rewrite <- Hl. clear Hl.
  induction Hb as [|b bs Hb _ IH]; [done|]. cbn [length replicate zip_with]. rewrite IH. f_equal.
  change 255 with (Z.ones 8). rewrite Z.land_ones by lia. apply Z.mod_small. apply Hb.
Qed.

Section Correct.
Context {W : Type} `{Kernel W} (c : bf_chain) (fl : bf_flavor) (lo : layout).

Definition word64_block (d : list Z) (o : nat) : block :=
  let b i := byte_at (o + i) d in
  [ISingle (BPF_MOV32_IMM BPF_REG_3 (_bf_make32 (b 7%nat) (b 6%nat) (b 5%nat) (b 4%nat))) None;
   ISingle (BPF_ALU64_IMM BPF_LSH BPF_REG_3 32) None;
   ISingle (BPF_MOV32_IMM BPF_REG_4 (_bf_make32 (b 3%nat) (b 2%nat) (b 1%nat) (b 0%nat))) None;
   ISingle (BPF_ALU64_REG BPF_OR BPF_REG_3 BPF_REG_4) None].

Lemma gemits_word64 d o : gemits c fl (emit_word64 d o) (word64_block d o).
Proof.
  unfold emit_word64, word64_block. repeat (apply (gemits_seq _ _ _ _ [_]); [gen_emit|]). gen_emit.
Qed.

(** The word ends up in R3; R4 is scratch. *)
Lemma exec_word64 (s : vm W) d o b : is_bytes d -> (o + 8 <= length d)%nat ->
  exists s', exec (word64_block d o ++ b) 0 s = exec b 0 s' /\
    regs s' !! 3 = Some (le_combine (sub_bytes o 8 d)) /\
    (forall r, r <> 3 -> r <> 4 -> regs s' !! r = regs s !! r) /\
    mem s' = mem s /\ world s' = world s /\
    (forall lo pk, ctx_rel lo pk s -> ctx_rel lo pk s').
Proof.
  intros Hd Ho. unfold word64_block. cbn [app].
  rewrite ex_mov32_imm. erewrite ex_alu64_imm; [|code_tac|reg_tac|reflexivity].
  rewrite ex_mov32_imm. erewrite ex_alu64_reg; [|code_tac|reg_tac|reg_tac|reflexivity].
  eexists. split; [reflexivity|]. split_and!.
  - vm_simpl. rewrite lookup_insert_eq. f_equal. change (s32 32) with 32. change (u64 32 mod 64) with 32.
    rewrite <- word64_halves by done. change (uw 64) with u64.
    rewrite (Nat.add_0_r o). rewrite make32_sub by (done || lia).
    replace (o + 7)%nat with (o + 4 + 3)%nat by lia. replace (o + 6)%nat with (o + 4 + 2)%nat by lia.
    replace (o + 5)%nat with (o + 4 + 1)%nat by lia. rewrite make32_sub by (done || lia).
    pose proof (le_combine_u32 (sub_bytes o 4 d) ltac:(auto with bf)
      ltac:(rewrite length_sub_bytes; lia)).
    pose proof (le_combine_u32 (sub_bytes (o + 4) 4 d) ltac:(auto with bf)
      ltac:(rewrite length_sub_bytes; lia)).
    rewrite !u32_small by lia. done.
  - intros r H3 H4. vm_simpl. unfold BPF_REG_3, BPF_REG_4.
    by rewrite !lookup_insert_ne by congruence.
  - done.
  - done.
  - intros lo0 pk Hc. ctx_tac.
Qed.

(** Comparing R1 and R2 with the two words of [d]. *)
Definition cmp128 (op : bf_matcher_op) (d : list Z) : gen unit :=
  if decide (op = BF_MATCHER_EQ) then
    emit_word64 d 0 ;;
    EMIT_FIXUP_JMP_NEXT_RULE (BPF_JMP_REG BPF_JNE BPF_REG_1 BPF_REG_3 0) ;;
    emit_word64 d 8 ;;
    EMIT_FIXUP_JMP_NEXT_RULE (BPF_JMP_REG BPF_JNE BPF_REG_2 BPF_REG_3 0)
  else
    emit_word64 d 0 ;;
    j0 ← bf_jmpctx_get (BPF_JMP_REG BPF_JNE BPF_REG_1 BPF_REG_3 0);
    emit_word64 d 8 ;;
    j1 ← bf_jmpctx_get (BPF_JMP_REG BPF_JNE BPF_REG_2 BPF_REG_3 0);
    EMIT_FIXUP_JMP_NEXT_RULE (BPF_JMP_A 0) ;;
    bf_jmpctx_cleanup j0 ;;
    bf_jmpctx_cleanup j1.

Definition cmp128_block (op : bf_matcher_op) (d : list Z) : block :=
  if decide (op = BF_MATCHER_EQ) then
    word64_block d 0 ++ [ISingle (BPF_JMP_REG BPF_JNE BPF_REG_1 BPF_REG_3 0) JMP] ++
    word64_block d 8 ++ [ISingle (BPF_JMP_REG BPF_JNE BPF_REG_2 BPF_REG_3 0) JMP]
  else
    word64_block d 0 ++
    [ISingle (set_insn_off (s16 (Z.of_nat 6)) (BPF_JMP_REG BPF_JNE BPF_REG_1 BPF_REG_3 0)) None] ++
    word64_block d 8 ++
    [ISingle (set_insn_off (s16 (Z.of_nat 1)) (BPF_JMP_REG BPF_JNE BPF_REG_2 BPF_REG_3 0)) None] ++
    [ISingle (BPF_JMP_A 0) JMP].

Lemma gemits_cmp128 op d : gemits c fl (cmp128 op d) (cmp128_block op d).
Proof.
  unfold cmp128, cmp128_block. case_decide.
  { repeat (apply gemits_seq; [first [apply gemits_word64|gen_emit]|]). gen_emit. }
  apply gtriple_gemits. intros p0 Hp0.
  eapply gtriple_bind; [done|apply gemits_triple, (gemits_word64 d 0)|]. intros [] ? ->.
  eapply (gtriple_bind _ _ _ _ _ _ (fun k b => k = (img_size p0 + 4)%nat /\ b = _)); [done| |].
  { by apply gtriple_jmpctx_get. }
  intros ? ? [-> ->].
  eapply gtriple_bind; [done|apply gemits_triple, (gemits_word64 d 8)|]. intros [] ? ->.
  eapply (gtriple_bind _ _ _ _ _ _ (fun k b => k = (img_size p0 + 9)%nat /\ b = _)); [done| |].
  { by apply gtriple_jmpctx_get. }
  intros ? ? [-> ->].
  eapply gtriple_bind; [done|apply gemits_triple, gemits_EMIT_FIXUP|]. intros [] ? ->.
  eapply (gtriple_bind _ _ _ _ _ _ (fun _ b => b = _)); [done| |].
  { by apply gtriple_jmpctx_cleanup. }
  intros [] ? ->. apply gtriple_jmpctx_cleanup. done.
Qed.

Lemma exec_cmp128 pk (s : vm W) op d x y :
  ctx_rel lo pk s -> regs s !! 1 = Some x -> regs s !! 2 = Some y -> is_bytes d -> length d = 16%nat ->
  exists s', ctx_rel lo pk s' /\ world s' = world s /\
    exec (cmp128_block op d) 0 s =
    if eq_or_ne op ((x =? le_combine (sub_bytes 0 8 d)) && (y =? le_combine (sub_bytes 8 8 d)))
    then BFall 0 s' else BRule s'.
Proof.
  intros Hc H1 H2 Hd Hl. unfold cmp128_block, eq_or_ne. case_decide.
  - destruct (exec_word64 s d 0 ([ISingle (BPF_JMP_REG BPF_JNE BPF_REG_1 BPF_REG_3 0) JMP] ++
      word64_block d 8 ++ [ISingle (BPF_JMP_REG BPF_JNE BPF_REG_2 BPF_REG_3 0) JMP]))
      as (s1 & -> & R3 & Hr & _ & Hw & Hctx); [done|lia|]. cbn [app].
    erewrite ex_jmp_reg_rule; [|code_tac|by rewrite Hr|exact R3|done].
    destruct (x =? le_combine (sub_bytes 0 8 d)); cbn [negb andb]; [|by exists s1; auto].
    destruct (exec_word64 s1 d 8 [ISingle (BPF_JMP_REG BPF_JNE BPF_REG_2 BPF_REG_3 0) JMP])
      as (s2 & -> & R3' & Hr' & _ & Hw' & Hctx'); [done|lia|].
    erewrite ex_jmp_reg_rule; [|code_tac|by rewrite Hr', Hr|exact R3'|done].
    exists s2. split_and!; [auto|by rewrite Hw'|]. by destruct (y =? _).
  - destruct (exec_word64 s d 0
      ([ISingle (set_insn_off (s16 (Z.of_nat 6)) (BPF_JMP_REG BPF_JNE BPF_REG_1 BPF_REG_3 0)) None] ++
       word64_block d 8 ++
       [ISingle (set_insn_off (s16 (Z.of_nat 1)) (BPF_JMP_REG BPF_JNE BPF_REG_2 BPF_REG_3 0)) None] ++
       [ISingle (BPF_JMP_A 0) JMP]))
      as (s1 & -> & R3 & Hr & _ & Hw & Hctx); [done|lia|]. cbn [app].
    erewrite ex_jmp_reg; [|code_tac|by rewrite Hr|exact R3|done|done].
    destruct (x =? le_combine (sub_bytes 0 8 d)); cbn [negb andb]; [|exists s1; auto].
    destruct (exec_word64 s1 d 8
      ([ISingle (set_insn_off (s16 (Z.of_nat 1)) (BPF_JMP_REG BPF_JNE BPF_REG_2 BPF_REG_3 0)) None] ++
       [ISingle (BPF_JMP_A 0) JMP]))
      as (s2 & E & R3' & Hr' & _ & Hw' & Hctx'); [done|lia|]. cbn [app] in E. rewrite E.
    erewrite ex_jmp_reg; [|code_tac|by rewrite Hr', Hr|exact R3'|done|done].
    exists s2. split_and!; [auto|by rewrite Hw'|]. by destruct (y =? _).
Qed.

Definition ld128_block (o : Z) : block :=
  [ISingle (BPF_LDX_MEM BPF_DW BPF_REG_1 BPF_REG_6 o) None;
   ISingle (BPF_LDX_MEM BPF_DW BPF_REG_2 BPF_REG_6 (o + 8)) None].

(** Load the address at [o] in R1 and R2. *)
Lemma exec_ld128 pk (s : vm W) o b : ctx_rel lo pk s -> regs s !! 6 = Some (lo_l3 lo) ->
  0 <= o < 2 ^ 14 -> (Z.to_nat o + 16 <= length (pk_l3 pk))%nat ->
  exists s', exec (ld128_block o ++ b) 0 s = exec b 0 s' /\ ctx_rel lo pk s' /\ world s' = world s /\
    regs s' !! 1 = Some (le_combine (sub_bytes 0 8 (sub_bytes (Z.to_nat o) 16 (pk_l3 pk)))) /\
    regs s' !! 2 = Some (le_combine (sub_bytes 8 8 (sub_bytes (Z.to_nat o) 16 (pk_l3 pk)))).
Proof.
  intros Hc H6 Ho Hl. unfold ld128_block. cbn [app].
  erewrite ex_ldx; [|code_tac|exact H6|apply l3_load; [done|lia|change (size_bytes BPF_DW) with 8%nat; lia]].
  erewrite ex_ldx; [|code_tac|reg_tac|vm_simpl; apply l3_load; [done|lia|]].
  2:{ change (size_bytes BPF_DW) with 8%nat. lia. }
  eexists. split; [reflexivity|]. split_and!; [ctx_tac|done|reg_tac|reg_tac].
  - rewrite sub_bytes_sub by lia. by rewrite Nat.add_0_r.
  - rewrite sub_bytes_sub by lia. do 3 f_equal. lia.
Qed.

Lemma block_ip6_addr pk (s : vm W) op o addr : ctx_rel lo pk s -> regs s !! 6 = Some (lo_l3 lo) ->
  0 <= o < 2 ^ 14 -> (Z.to_nat o + 16 <= length (pk_l3 pk))%nat -> is_bytes addr -> length addr = 16%nat ->
  exists s', ctx_rel lo pk s' /\ world s' = world s /\
    exec (ld128_block o ++ cmp128_block op addr) 0 s =
    if match_bytes op (sub_bytes (Z.to_nat o) 16 (pk_l3 pk)) addr then BFall 0 s' else BRule s'.
Proof.
  intros Hc H6 Ho Hl Hb Hal.
  destruct (exec_ld128 pk s o (cmp128_block op addr)) as (s1 & -> & Hc1 & <- & R1 & R2); [done..|].
  destruct (exec_cmp128 pk s1 op addr _ _ Hc1 R1 R2) as (s2 & ? & ? & ->); [done..|].
  exists s2. split_and!; [done..|]. unfold match_bytes.
  rewrite two_words_eqb; [done|apply is_bytes_sub, Hc|done|by apply length_sub_bytes|done].
Qed.

Definition mask128_block (mask : list Z) : block :=
  if byte_at 15 mask =? 255 then []
  else word64_block mask 0 ++ [ISingle (BPF_ALU64_REG BPF_AND BPF_REG_1 BPF_REG_3) None] ++
       word64_block mask 8 ++ [ISingle (BPF_ALU64_REG BPF_AND BPF_REG_2 BPF_REG_3) None].

Lemma exec_mask128 pk (s : vm W) fld p b : ctx_rel lo pk s ->
  is_bytes fld -> length fld = 16%nat -> 0 <= p <= 128 ->
  regs s !! 1 = Some (le_combine (sub_bytes 0 8 fld)) ->
  regs s !! 2 = Some (le_combine (sub_bytes 8 8 fld)) ->
  let mask := mask_bytes 16 (Z.to_nat p) in
  exists s', exec (mask128_block mask ++ b) 0 s = exec b 0 s' /\ ctx_rel lo pk s' /\ world s' = world s /\
    regs s' !! 1 = Some (le_combine (sub_bytes 0 8 (zip_with Z.land fld mask))) /\
    regs s' !! 2 = Some (le_combine (sub_bytes 8 8 (zip_with Z.land fld mask))).
Proof.
  intros Hc Hf Hfl Hp R1 R2 mask. unfold mask128_block.
  assert (is_bytes mask /\ length mask = 16%nat) as [Hm Hml]
    by (split; [apply mask_bytes_bytes|apply length_mask_bytes]).
  unfold mask at 1. rewrite mask_last_full by done. destruct (Z.eqb_spec p 128) as [->|].
  { exists s. unfold mask. rewrite zip_land_full by done. done. }
  rewrite <- !app_assoc.
  destruct (exec_word64 s mask 0 ([ISingle (BPF_ALU64_REG BPF_AND BPF_REG_1 BPF_REG_3) None] ++
    word64_block mask 8 ++ [ISingle (BPF_ALU64_REG BPF_AND BPF_REG_2 BPF_REG_3) None] ++ b))
    as (s1 & -> & R3 & Hr & _ & Hw & Hctx); [done|lia|]. cbn [app].
  erewrite ex_alu64_reg; [|code_tac|by rewrite Hr|exact R3|reflexivity].
  edestruct (exec_word64 (set_reg BPF_REG_1 (Z.land (le_combine (sub_bytes 0 8 fld))
    (le_combine (sub_bytes 0 8 mask))) s1) mask 8
    ([ISingle (BPF_ALU64_REG BPF_AND BPF_REG_2 BPF_REG_3) None] ++ b))
    as (s2 & E & R3' & Hr' & _ & Hw' & Hctx'); [done|lia|]. cbn [app] in E. rewrite E.
  erewrite ex_alu64_reg; [|code_tac| |exact R3'|reflexivity].
  2:{ rewrite Hr' by done. vm_simpl. rewrite lookup_insert_ne by done. by rewrite Hr. }
  eexists. split; [reflexivity|]. rewrite !sub_bytes_zip_land.
  rewrite <- !le_combine_land by (rewrite ?length_sub_bytes by lia; auto with bf).
  split_and!.
  - apply ctx_rel_set_reg; [|done..]. apply Hctx'. apply ctx_rel_set_reg; [|done..]. by apply Hctx.
  - vm_simpl. by rewrite Hw'.
  - vm_simpl. rewrite lookup_insert_ne by done. rewrite Hr' by done. vm_simpl.
    by rewrite lookup_insert_eq.
  - vm_simpl. by rewrite lookup_insert_eq.
Qed.

Lemma block_ip6_net pk (s : vm W) op o p net : ctx_rel lo pk s -> regs s !! 6 = Some (lo_l3 lo) ->
  0 <= o < 2 ^ 14 -> (Z.to_nat o + 16 <= length (pk_l3 pk))%nat -> is_bytes net -> length net = 16%nat ->
  0 <= p <= 128 ->
  let mask := mask_bytes 16 (Z.to_nat p) in
  exists s', ctx_rel lo pk s' /\ world s' = world s /\
    exec (ld128_block o ++ mask128_block mask ++ cmp128_block op (zip_with Z.land net mask)) 0 s =
    if match_net op p (sub_bytes (Z.to_nat o) 16 (pk_l3 pk)) net then BFall 0 s' else BRule s'.
Proof.
  intros Hc H6 Ho Hl Hb Hnl Hp mask.
  assert (is_bytes mask /\ length mask = 16%nat) as [Hm Hml]
    by (split; [apply mask_bytes_bytes|apply length_mask_bytes]).
  set (fld := sub_bytes (Z.to_nat o) 16 (pk_l3 pk)).
  assert (is_bytes fld) as Hf by apply is_bytes_sub, Hc.
  assert (length fld = 16%nat) as Hfl by (by apply length_sub_bytes).
  edestruct (exec_ld128 pk s o) as (s1 & -> & Hc1 & <- & R1 & R2); [done..|]. fold fld in R1, R2.
  edestruct (exec_mask128 pk s1 fld p) as (s2 & -> & Hc2 & <- & R1' & R2'); [done..|].
  fold mask in R1', R2'.
  destruct (exec_cmp128 pk s2 op (zip_with Z.land net mask) _ _ Hc2 R1' R2') as (s3 & ? & ? & ->).
  - by apply zip_land_bytes.
  - rewrite length_zip_with. lia.
  - exists s3. split_and!; [done..|]. unfold match_net.
    rewrite two_words_eqb by (try apply zip_land_bytes; rewrite ?length_zip_with; done || lia).
    unfold same_prefix. erewrite bool_decide_ext; [done|]. by apply mask_bytes_eq.
Qed.

(** ** The next header *)

Lemma eh_bit_spec ehdr :
  match eh_bit ehdr with
  | Some i => is_ip6_eh ehdr = true /\ ip6_eh_mask ehdr = 2 ^ i /\ 0 <= i < 6
  | None => is_ip6_eh ehdr = false
  end.
Proof.
  unfold eh_bit, is_ip6_eh.
  repeat match goal with
  | |- context [?a =? ?b] => destruct (Z.eqb_spec a b); cbn [orb]
  end; subst; done.
Qed.

Lemma land_pow2_eqb v i : 0 <= i -> (Z.land v (2 ^ i) =? 0) = negb (Z.testbit v i).
Proof.
  intros Hi. destruct (Z.testbit v i) eqn:E; cbn.
  - apply Z.eqb_neq. intros E0. pose proof (f_equal (fun z => Z.testbit z i) E0) as Eb.
    cbv beta in Eb. by rewrite Z.land_spec, E, Z.pow2_bits_true, Z.bits_0 in Eb.
  - apply Z.eqb_eq. apply Z.bits_inj'. intros j Hj. rewrite Z.land_spec, Z.bits_0.
    destruct (decide (i = j)) as [->|]; [by rewrite E|].
    by rewrite Z.pow2_bits_false, andb_false_r.
Qed.

(** The 64-bit load of the mask: the other bytes do not matter. *)
Lemma eh_load pk (s : vm W) : ctx_rel lo pk s ->
  exists v, load (mem s) 8 (ctx_addr lo RT_ipv6_eh) = Some v /\
    forall i, 0 <= i < 8 -> Z.testbit v i = Z.testbit (pk_eh pk) i.
Proof.
  intros Hc. destruct (stack_load lo pk s (BF_PROG_CTX_OFF RT_ipv6_eh) 8 Hc) as (bs & Hbs & Hb & Hl);
    [done|done|].
  exists (le_combine bs). split; [unfold load, ctx_addr; by rewrite Hbs|].
  intros i Hi. change 8%nat with (1 + 7)%nat in Hbs. rewrite load_bytes_app in Hbs.
  pose proof (cr_eh _ _ _ Hc) as He. unfold ctx_addr in He. rewrite He in Hbs.
  case_match; [|done]. injection Hbs as <-. cbn [app le_combine].
  pose proof (pw_eh _ (cr_pkt _ _ _ Hc)). rewrite testbit_cons; [|done|lia].
  by replace (i <? 8) with true by lia.
Qed.

Definition nexthdr_block (m : bf_matcher) : block :=
  let ehdr := payload_u8 m in
  let is_eq := bool_decide (matcher_op m = BF_MATCHER_EQ) in
  if is_ip6_eh ehdr then
    [ISingle (BPF_LDX_MEM BPF_DW BPF_REG_1 BPF_REG_10 (BF_PROG_CTX_OFF RT_ipv6_eh)) None;
     ISingle (BPF_ALU64_IMM BPF_AND BPF_REG_1 (ip6_eh_mask ehdr)) None;
     ISingle (BPF_JMP_IMM (if is_eq then BPF_JEQ else BPF_JNE) BPF_REG_1 0 0) JMP]
  else [ISingle (BPF_JMP_IMM (if is_eq then BPF_JNE else BPF_JEQ) BPF_REG_8 ehdr 0) JMP].

Lemma gemits_nexthdr m : (1 <= length (matcher_payload m))%nat -> eq_ne_op (matcher_op m) = true ->
  gemits c fl (_bf_matcher_generate_ip6_nexthdr m) (nexthdr_block m).
Proof.
  intros Hl Ho. unfold _bf_matcher_generate_ip6_nexthdr, nexthdr_block. apply gemits_payload; [done|].
  assert (negb (bool_decide (matcher_op m = BF_MATCHER_EQ)) &&
          negb (bool_decide (matcher_op m = BF_MATCHER_NE)) = false) as -> by (by destruct (matcher_op m)).
  destruct (is_ip6_eh _); [|gen_emit]. repeat (apply (gemits_seq _ _ _ _ [_]); [gen_emit|]). gen_emit.
Qed.

Lemma exec_nexthdr pk (s : vm W) m : ctx_rel lo pk s -> 0 <= payload_u8 m < 2 ^ 8 ->
  eq_ne_op (matcher_op m) = true ->
  exists s', ctx_rel lo pk s' /\ world s' = world s /\
    exec (nexthdr_block m) 0 s =
    if match_nexthdr (matcher_op m) pk (payload_u8 m) then BFall 0 s' else BRule s'.
Proof.
  intros Hc Hp Ho. unfold nexthdr_block, match_nexthdr.
  pose proof (eh_bit_spec (payload_u8 m)) as He.
  destruct (eh_bit (payload_u8 m)) as [i|].
  - destruct He as (-> & -> & Hi). destruct (eh_load pk s Hc) as (v & Hv & Hbits).
    erewrite ex_ldx; [|code_tac|apply Hc|rewrite ctx_off_s16; exact Hv].
    erewrite ex_alu64_imm; [|code_tac|reg_tac|reflexivity].
    assert (0 <= 2 ^ i < 2 ^ 31) as Hi2
      by (split; [apply Z.pow_nonneg; lia|apply Z.pow_lt_mono_r; lia]).
    destruct (matcher_op m); try discriminate Ho;
      [rewrite bool_decide_eq_true_2 by done|rewrite bool_decide_eq_false_2 by done];
      (erewrite ex_jmp_imm_rule; [|code_tac|reg_tac|done]);
      change (u64 (s32 0)) with 0; rewrite u64_s32_small, land_pow2_eqb, Hbits by lia;
      (eexists; split; [|split; [|destruct (Z.testbit (pk_eh pk) i); reflexivity]]; [ctx_tac|done]).
  - rewrite He. destruct (matcher_op m); try discriminate Ho;
      [rewrite bool_decide_eq_true_2 by done|rewrite bool_decide_eq_false_2 by done];
      (erewrite ex_jmp_imm_rule; [|code_tac|apply Hc|done]);
      rewrite u64_s32_small by lia;
      (exists s; split; [|split; [|destruct (pk_l4proto pk =? payload_u8 m); reflexivity]]; done).
Qed.

(** ** The generator *)

Definition is_ip6_type (t : bf_matcher_type) : bool :=
  match t with
  | BF_MATCHER_IP6_SADDR | BF_MATCHER_IP6_DADDR | BF_MATCHER_IP6_SNET | BF_MATCHER_IP6_DNET
  | BF_MATCHER_IP6_NEXTHDR => true
  | _ => false
  end.

Lemma gemits_ip6_addr m : (16 <= length (matcher_payload m))%nat ->
  gemits c fl (_bf_matcher_generate_ip6_addr m)
    (ld128_block (if decide (matcher_type m = BF_MATCHER_IP6_SADDR)
                  then offsetof_ipv6hdr_saddr else offsetof_ipv6hdr_daddr) ++
     cmp128_block (matcher_op m) (matcher_payload m)).
Proof.
  intros Hl. unfold _bf_matcher_generate_ip6_addr, ld128_block. cbn [app]. apply gemits_payload; [done|].
  apply (gemits_seq _ _ _ _ [_]); [gen_emit|]. apply (gemits_seq _ _ _ _ [_]); [gen_emit|].
  apply gemits_cmp128.
Qed.

Lemma gemits_mask128 mask :
  gemits c fl (if byte_at 15 mask =? 255 then mret tt
    else emit_word64 mask 0 ;; EMIT (BPF_ALU64_REG BPF_AND BPF_REG_1 BPF_REG_3) ;;
         emit_word64 mask 8 ;; EMIT (BPF_ALU64_REG BPF_AND BPF_REG_2 BPF_REG_3)) (mask128_block mask).
Proof.
  unfold mask128_block. case_match; [gen_emit|].
  repeat (apply gemits_seq; [first [apply gemits_word64|gen_emit]|]). gen_emit.
Qed.

Lemma gemits_ip6_net m : (20 <= length (matcher_payload m))%nat -> 0 <= payload_u32 m <= 128 ->
  gemits c fl (_bf_matcher_generate_ip6_net m)
    (ld128_block (if decide (matcher_type m = BF_MATCHER_IP6_SNET)
                  then offsetof_ipv6hdr_saddr else offsetof_ipv6hdr_daddr) ++
     mask128_block (mask_bytes 16 (Z.to_nat (payload_u32 m))) ++
     cmp128_block (matcher_op m)
       (zip_with Z.land (sub_bytes 4 16 (matcher_payload m)) (mask_bytes 16 (Z.to_nat (payload_u32 m))))).
Proof.
  intros Hl Hp. unfold _bf_matcher_generate_ip6_net, ld128_block. cbn [app]. apply gemits_payload; [done|].
  apply (gemits_seq _ _ _ _ [_]); [gen_emit|]. apply (gemits_seq _ _ _ _ [_]); [gen_emit|].
  eapply gemits_lift; [by apply ip6_prefix_to_mask_spec|].
  apply gemits_seq; [apply gemits_mask128|apply gemits_cmp128].
Qed.

Lemma gen_ip6_matches m : matcher_wf m -> is_ip6_type (matcher_type m) = true ->
  (matcher_type m = BF_MATCHER_IP6_NEXTHDR -> matcher_op m <> BF_MATCHER_IN) ->
  gen_matches c fl lo (bf_matcher_generate_ip6 m) (pure_match (W := W) (fun pk => match_ip6 pk m)).
Proof.
  intros Hwf Ht Hop. pose proof (matcher_len m Hwf) as Hlen.
  pose proof (payload_u32_nonneg m Hwf) as Hp0. pose proof (mw_prefix m Hwf) as Hp.
  assert (matcher_type m = BF_MATCHER_IP6_NEXTHDR -> eq_ne_op (matcher_op m) = true) as Hop'.
  { intros E. pose proof (op_of_meta m Hwf (Hop E)) as Ho. by rewrite E in Ho. }
  destruct Hwf as [Hb _ _].
  assert (exists b, gemits c fl (match matcher_type m with
    | BF_MATCHER_IP6_SADDR | BF_MATCHER_IP6_DADDR => _bf_matcher_generate_ip6_addr m
    | BF_MATCHER_IP6_SNET | BF_MATCHER_IP6_DNET => _bf_matcher_generate_ip6_net m
    | BF_MATCHER_IP6_NEXTHDR => _bf_matcher_generate_ip6_nexthdr m
    | _ => gen_err (- EINVAL)
    end) b /\ forall pk (s : vm W), ctx_rel lo pk s -> pk_l3proto pk = htobe16 ETH_P_IPV6 ->
      regs s !! 6 = Some (lo_l3 lo) ->
      exists s', ctx_rel lo pk s' /\ world s' = world s /\
        exec b 0 s = if match_ip6 pk m then BFall 0 s' else BRule s') as (b & Hb1 & Hb2).
  { unfold match_ip6. destruct (matcher_type m) eqn:E; try discriminate Ht;
      cbn in Hlen, Hp; eexists;
      (split; [first [apply gemits_ip6_net; [lia|split; [done|exact Hp]] | apply gemits_ip6_addr; lia | apply gemits_nexthdr; [lia|by apply Hop']]|]);
      intros pk s Hc Hl3 H6; rewrite Hl3, Z.eqb_refl, ?E; cbn in Hlen; cbn [andb decide];
      pose proof (pw_ip6 pk (cr_pkt _ _ _ Hc) Hl3) as Hlen3.
    - rewrite decide_True by done. rewrite (firstn_all2 (matcher_payload m)) by lia.
      apply (block_ip6_addr pk s); first [done | len_tac].
    - rewrite decide_True by done.
      apply (block_ip6_net pk s); first [done | len_tac | by auto with bf | lia | idtac].
      rewrite length_sub_bytes; lia.
    - rewrite decide_False by done. rewrite (firstn_all2 (matcher_payload m)) by lia.
      apply (block_ip6_addr pk s); first [done | len_tac].
    - rewrite decide_False by done.
      apply (block_ip6_net pk s); first [done | len_tac | by auto with bf | lia | idtac].
      rewrite length_sub_bytes; lia.
    - apply (exec_nexthdr pk s); [done|apply le_combine_u8; [auto with bf|rewrite length_take; lia]|auto]. }
  exists ([ISingle (BPF_JMP_IMM BPF_JNE BPF_REG_7 (htobe16 ETH_P_IPV6) 0) JMP] ++
          [ISingle (BPF_LDX_MEM BPF_DW BPF_REG_6 BPF_REG_10 (BF_PROG_CTX_OFF RT_l3_hdr)) None] ++ b).
  split; [unfold bf_matcher_generate_ip6; gen_emit|].
  intros pk s Hc. cbn [app pure_match fst snd]. rewrite (ex_check_l3 lo pk) by done.
  destruct (Z.eqb_spec (pk_l3proto pk) (htobe16 ETH_P_IPV6)) as [E|E].
  - destruct (Hb2 pk (set_reg 6 (lo_l3 lo) s)) as (s' & ? & ? & ?); [ctx_tac|done|reg_tac|].
    exists s'. done.
  - exists s. split_and!; [done..|]. unfold match_ip6.
    by rewrite (proj2 (Z.eqb_neq _ _) E).
Qed.
End Correct.
