(* ===== verification/GenL4.v ===== *)
(** Transport-layer matchers: [src/bpfilter/cgen/matcher/tcp.c], [udp.c] and
    [icmp.c]. *)

From S2P Require Import Prelude Bytes Bpf Helper Hook Matcher BfSet Rule Chain Printer Program.
From S2P Require Import Block BlockExec Context Symbolic Match.

(** * Generation *)

(** The bytes that the generator of a port reads: one port, or two. *)
Definition port_payload (m : bf_matcher) : nat := if decide (matcher_op m = BF_MATCHER_RANGE) then 4 else 2.

Definition _bf_matcher_generate_tcp_port (m : bf_matcher) : gen unit :=
  payload_read (port_payload m) m ;;
  let port := payload_u16 m in
  let offset := if decide (matcher_type m = BF_MATCHER_TCP_SPORT)
                then offsetof_l4_source else offsetof_l4_dest in
  EMIT (BPF_LDX_MEM BPF_H BPF_REG_1 BPF_REG_6 offset) ;;
  match matcher_op m with
  | BF_MATCHER_EQ => EMIT_FIXUP_JMP_NEXT_RULE (BPF_JMP_IMM BPF_JNE BPF_REG_1 port 0)
  | BF_MATCHER_NE => EMIT_FIXUP_JMP_NEXT_RULE (BPF_JMP_IMM BPF_JEQ BPF_REG_1 port 0)
  | BF_MATCHER_RANGE =>
      EMIT (BPF_BSWAP BPF_REG_1 16) ;;
      EMIT_FIXUP_JMP_NEXT_RULE (BPF_JMP_IMM BPF_JLT BPF_REG_1 (payload_u16_at 0 m) 0) ;;
      EMIT_FIXUP_JMP_NEXT_RULE (BPF_JMP_IMM BPF_JGT BPF_REG_1 (payload_u16_at 1 m) 0)
  | _ => gen_err (- EINVAL)
  end.

Definition _bf_matcher_generate_tcp_flags (m : bf_matcher) : gen unit :=
  payload_read 1 m ;;
  let flags := payload_u8 m in
  EMIT (BPF_LDX_MEM BPF_B BPF_REG_1 BPF_REG_6 13) ;;
  match matcher_op m with
  | BF_MATCHER_EQ => EMIT_FIXUP_JMP_NEXT_RULE (BPF_JMP_IMM BPF_JNE BPF_REG_1 flags 0)
  | BF_MATCHER_NE => EMIT_FIXUP_JMP_NEXT_RULE (BPF_JMP_IMM BPF_JEQ BPF_REG_1 flags 0)
  | BF_MATCHER_ANY =>
      EMIT (BPF_ALU32_IMM BPF_AND BPF_REG_1 flags) ;;
      EMIT_FIXUP_JMP_NEXT_RULE (BPF_JMP_IMM BPF_JEQ BPF_REG_1 0 0)
  | BF_MATCHER_ALL =>
      EMIT (BPF_ALU32_IMM BPF_AND BPF_REG_1 flags) ;;
      EMIT_FIXUP_JMP_NEXT_RULE (BPF_JMP_IMM BPF_JNE BPF_REG_1 flags 0)
  | _ => gen_err (- EINVAL)
  end.

Definition bf_matcher_generate_tcp (m : bf_matcher) : gen unit :=
  EMIT_FIXUP_JMP_NEXT_RULE (BPF_JMP_IMM BPF_JNE BPF_REG_8 IPPROTO_TCP 0) ;;
  EMIT (BPF_LDX_MEM BPF_DW BPF_REG_6 BPF_REG_10 (BF_PROG_CTX_OFF RT_l4_hdr)) ;;
  match matcher_type m with
  | BF_MATCHER_TCP_SPORT | BF_MATCHER_TCP_DPORT => _bf_matcher_generate_tcp_port m
  | BF_MATCHER_TCP_FLAGS => _bf_matcher_generate_tcp_flags m
  | _ => gen_err (- EINVAL)
  end.

Definition _bf_matcher_generate_udp_port (m : bf_matcher) : gen unit :=
  payload_read (port_payload m) m ;;
  let port := payload_u16 m in
  let offset := if decide (matcher_type m = BF_MATCHER_UDP_SPORT)
                then offsetof_l4_source else offsetof_l4_dest in
  EMIT (BPF_LDX_MEM BPF_H BPF_REG_1 BPF_REG_6 offset) ;;
  match matcher_op m with
  | BF_MATCHER_EQ => EMIT_FIXUP_JMP_NEXT_RULE (BPF_JMP_IMM BPF_JNE BPF_REG_1 port 0)
  | BF_MATCHER_NE => EMIT_FIXUP_JMP_NEXT_RULE (BPF_JMP_IMM BPF_JEQ BPF_REG_1 port 0)
  | BF_MATCHER_RANGE =>
      EMIT (BPF_BSWAP BPF_REG_1 16) ;;
      EMIT_FIXUP_JMP_NEXT_RULE (BPF_JMP_IMM BPF_JLT BPF_REG_1 (payload_u16_at 0 m) 0) ;;
      EMIT_FIXUP_JMP_NEXT_RULE (BPF_JMP_IMM BPF_JGT BPF_REG_1 (payload_u16_at 1 m) 0)
  | _ => gen_err (- EINVAL)
  end.

Definition bf_matcher_generate_udp (m : bf_matcher) : gen unit :=
  EMIT_FIXUP_JMP_NEXT_RULE (BPF_JMP_IMM BPF_JNE BPF_REG_8 IPPROTO_UDP 0) ;;
  EMIT (BPF_LDX_MEM BPF_DW BPF_REG_6 BPF_REG_10 (BF_PROG_CTX_OFF RT_l4_hdr)) ;;
  match matcher_type m with
  | BF_MATCHER_UDP_SPORT | BF_MATCHER_UDP_DPORT => _bf_matcher_generate_udp_port m
  | _ => gen_err (- EINVAL)
  end.

Definition _bf_matcher_generate_icmp_fields (m : bf_matcher) (offset : Z) : gen unit :=
  payload_read 1 m ;;
  let value := payload_u8 m in
  EMIT (BPF_LDX_MEM BPF_B BPF_REG_1 BPF_REG_6 offset) ;;
  match matcher_op m with
  | BF_MATCHER_EQ => EMIT_FIXUP_JMP_NEXT_RULE (BPF_JMP_IMM BPF_JNE BPF_REG_1 value 0)
  | BF_MATCHER_NE => EMIT_FIXUP_JMP_NEXT_RULE (BPF_JMP_IMM BPF_JEQ BPF_REG_1 value 0)
  | _ => gen_err (- EINVAL)
  end.

Definition _bf_matcher_generate_icmp6_fields (m : bf_matcher) : gen unit :=
  let offset := if decide (matcher_type m = BF_MATCHER_ICMPV6_TYPE)
                then offsetof_icmp_type else offsetof_icmp_code in
  EMIT_FIXUP_JMP_NEXT_RULE (BPF_JMP_IMM BPF_JNE BPF_REG_8 IPPROTO_ICMPV6 0) ;;
  EMIT (BPF_LDX_MEM BPF_DW BPF_REG_6 BPF_REG_10 (BF_PROG_CTX_OFF RT_l4_hdr)) ;;
  _bf_matcher_generate_icmp_fields m offset.

Definition _bf_matcher_generate_icmp4_fields (m : bf_matcher) : gen unit :=
  let offset := if decide (matcher_type m = BF_MATCHER_ICMP_TYPE)
                then offsetof_icmp_type else offsetof_icmp_code in
  EMIT_FIXUP_JMP_NEXT_RULE (BPF_JMP_IMM BPF_JNE BPF_REG_8 IPPROTO_ICMP 0) ;;
  EMIT (BPF_LDX_MEM BPF_DW BPF_REG_6 BPF_REG_10 (BF_PROG_CTX_OFF RT_l4_hdr)) ;;
  _bf_matcher_generate_icmp_fields m offset.

Definition bf_matcher_generate_icmp (m : bf_matcher) : gen unit :=
  match matcher_type m with
  | BF_MATCHER_ICMP_TYPE | BF_MATCHER_ICMP_CODE => _bf_matcher_generate_icmp4_fields m
  | BF_MATCHER_ICMPV6_TYPE | BF_MATCHER_ICMPV6_CODE => _bf_matcher_generate_icmp6_fields m
  | _ => gen_err (- EINVAL)
  end.

(** * Correctness *)

(** The comparison shared by the port matchers, once the port is in R1. *)
Definition port_cmp (m : bf_matcher) : gen unit :=
  match matcher_op m with
  | BF_MATCHER_EQ => EMIT_FIXUP_JMP_NEXT_RULE (BPF_JMP_IMM BPF_JNE BPF_REG_1 (payload_u16 m) 0)
  | BF_MATCHER_NE => EMIT_FIXUP_JMP_NEXT_RULE (BPF_JMP_IMM BPF_JEQ BPF_REG_1 (payload_u16 m) 0)
  | BF_MATCHER_RANGE =>
      EMIT (BPF_BSWAP BPF_REG_1 16) ;;
      EMIT_FIXUP_JMP_NEXT_RULE (BPF_JMP_IMM BPF_JLT BPF_REG_1 (payload_u16_at 0 m) 0) ;;
      EMIT_FIXUP_JMP_NEXT_RULE (BPF_JMP_IMM BPF_JGT BPF_REG_1 (payload_u16_at 1 m) 0)
  | _ => gen_err (- EINVAL)
  end.

Definition port_block (m : bf_matcher) : block :=
  match matcher_op m with
  | BF_MATCHER_EQ => [ISingle (BPF_JMP_IMM BPF_JNE BPF_REG_1 (payload_u16 m) 0) JMP]
  | BF_MATCHER_NE => [ISingle (BPF_JMP_IMM BPF_JEQ BPF_REG_1 (payload_u16 m) 0) JMP]
  | BF_MATCHER_RANGE =>
      [ISingle (BPF_BSWAP BPF_REG_1 16) None;
       ISingle (BPF_JMP_IMM BPF_JLT BPF_REG_1 (payload_u16_at 0 m) 0) JMP;
       ISingle (BPF_JMP_IMM BPF_JGT BPF_REG_1 (payload_u16_at 1 m) 0) JMP]
  | _ => []
  end.

Section Correct.
Context {W : Type} `{Kernel W} (c : bf_chain) (fl : bf_flavor) (lo : layout).

Lemma gemits_port_cmp m : port_op (matcher_op m) = true -> gemits c fl (port_cmp m) (port_block m).
Proof.
  intros Ho. unfold port_cmp, port_block. destruct (matcher_op m); try discriminate Ho.
  - gen_emit.
  - gen_emit.
  - apply (gemits_seq _ _ _ _ [_]); [gen_emit|]. apply (gemits_seq _ _ _ _ [_]); gen_emit.
Qed.

(** The comparison decides [match_port] on the port R1 holds. *)
Lemma exec_port_block pk (s : vm W) m field :
  ctx_rel lo pk s -> regs s !! 1 = Some (le_combine field) -> is_bytes field -> length field = 2%nat ->
  is_bytes (matcher_payload m) -> (2 <= length (matcher_payload m))%nat ->
  port_op (matcher_op m) = true ->
  exists s', ctx_rel lo pk s' /\ world s' = world s /\
    exec (port_block m) 0 s = if match_port (matcher_op m) field m then BFall 0 s' else BRule s'.
Proof.
  intros Hc H1 Hf Hfl Hb Hl Ho. unfold port_block, match_port, match_bytes.
  pose proof (le_combine_u16 (take 2 (matcher_payload m)) ltac:(auto with bf)
    ltac:(rewrite length_take; lia)) as Hp.
  assert (forall i, 0 <= payload_u16_at i m < 2 ^ 16) as Hpi.
  { intros i. apply le_combine_u16; [auto with bf|]. unfold sub_bytes. rewrite length_take. lia. }
  rewrite <- sub_bytes_eqb_combine by (rewrite ?length_take; auto with bf; lia).
  unfold payload_u16, eq_or_ne. destruct (matcher_op m); try discriminate Ho.
  - erewrite ex_jmp_imm_rule; [|code_tac|reg_tac|done]. rewrite u64_s32_small by lia.
    exists s. split_and!; [done..|]. cbn [decide]. by destruct (le_combine field =? _).
  - erewrite ex_jmp_imm_rule; [|code_tac|reg_tac|done]. rewrite u64_s32_small by lia.
    exists s. split_and!; [done..|]. by destruct (le_combine field =? _).
  - erewrite ex_bswap16 by reg_tac. rewrite bswap16_le by done.
    erewrite ex_jmp_imm_rule; [|code_tac|reg_tac|done].
    erewrite ex_jmp_imm_rule; [|code_tac|reg_tac|done].
    rewrite !u64_s32_small by (pose proof (Hpi 0%nat); pose proof (Hpi 1%nat); lia).
    rewrite !Z.ltb_antisym.
    eexists. split; [|split; [|destruct (payload_u16_at 0 m <=? be16 field),
      (be16 field <=? payload_u16_at 1 m); reflexivity]]; [ctx_tac|done].
Qed.

(** The generator of a port reads no more than a payload has. *)
Definition is_port_type (t : bf_matcher_type) : bool :=
  match t with
  | BF_MATCHER_META_SPORT | BF_MATCHER_META_DPORT | BF_MATCHER_TCP_SPORT | BF_MATCHER_TCP_DPORT
  | BF_MATCHER_UDP_SPORT | BF_MATCHER_UDP_DPORT => true
  | _ => false
  end.

Lemma port_payload_fits m : matcher_wf m -> is_port_type (matcher_type m) = true ->
  (port_payload m <= length (matcher_payload m))%nat.
Proof. intros Hwf Ht. rewrite (matcher_len m Hwf). unfold port_payload. by destruct (matcher_type m). Qed.

(** A matcher that checks the transport protocol, loads the header's address
    in R6 and then runs [b]. *)
Lemma block_check_l4 proto b (f : pkt -> bool) : 0 < proto < 2 ^ 31 ->
  (forall pk (s : vm W), ctx_rel lo pk s -> pk_l4proto pk = proto ->
    regs s !! 6 = Some (lo_l4 lo) ->
    exists s', ctx_rel lo pk s' /\ world s' = world s /\
      exec b 0 s = if f pk then BFall 0 s' else BRule s') ->
  block_matches lo
    ([ISingle (BPF_JMP_IMM BPF_JNE BPF_REG_8 proto 0) JMP] ++
     [ISingle (BPF_LDX_MEM BPF_DW BPF_REG_6 BPF_REG_10 (BF_PROG_CTX_OFF RT_l4_hdr)) None] ++ b)
    (pure_match (fun pk => (pk_l4proto pk =? proto) && f pk)).
Proof.
  intros Hp Hb pk s Hc. cbn [app pure_match fst snd]. rewrite (ex_check_l4 lo pk) by done.
  destruct (Z.eqb_spec (pk_l4proto pk) proto) as [E|E]; cbn [andb].
  - destruct (Hb pk (set_reg 6 (lo_l4 lo) s)) as (s' & ? & ? & ?); [ctx_tac|done|reg_tac|].
    by exists s'.
  - by exists s.
Qed.

Lemma gen_check_l4 proto g b (f : pkt -> bool) : 0 < proto < 2 ^ 31 -> gemits c fl g b ->
  (forall pk (s : vm W), ctx_rel lo pk s -> pk_l4proto pk = proto ->
    regs s !! 6 = Some (lo_l4 lo) ->
    exists s', ctx_rel lo pk s' /\ world s' = world s /\
      exec b 0 s = if f pk then BFall 0 s' else BRule s') ->
  gen_matches c fl lo
    (EMIT_FIXUP_JMP_NEXT_RULE (BPF_JMP_IMM BPF_JNE BPF_REG_8 proto 0) ;;
     EMIT (BPF_LDX_MEM BPF_DW BPF_REG_6 BPF_REG_10 (BF_PROG_CTX_OFF RT_l4_hdr)) ;; g)
    (pure_match (fun pk => (pk_l4proto pk =? proto) && f pk)).
Proof.
  intros Hp Hg Hb. eexists. split; [gen_emit|by apply block_check_l4].
Qed.

(** Load a port, then compare it. *)
Lemma block_port pk (s : vm W) m o :
  ctx_rel lo pk s -> regs s !! 6 = Some (lo_l4 lo) -> 0 <= o < 2 ^ 15 ->
  (Z.to_nat o + 2 <= length (pk_l4 pk))%nat -> matcher_wf m ->
  (2 <= length (matcher_payload m))%nat -> port_op (matcher_op m) = true ->
  exists s', ctx_rel lo pk s' /\ world s' = world s /\
    exec ([ISingle (BPF_LDX_MEM BPF_H BPF_REG_1 BPF_REG_6 o) None] ++ port_block m) 0 s =
    if match_port (matcher_op m) (sub_bytes (Z.to_nat o) 2 (pk_l4 pk)) m
    then BFall 0 s' else BRule s'.
Proof.
  intros Hc H6 Ho Hl Hwf Hp Hop. cbn [app].
  erewrite ex_ldx; [|code_tac|done|by apply l4_load].
  apply (exec_port_block pk (set_reg _ _ s)); try done.
  - ctx_tac.
  - reg_tac.
  - apply is_bytes_sub, Hc.
  - by apply length_sub_bytes.
  - apply Hwf.
Qed.

Definition flags_block (m : bf_matcher) : block :=
  [ISingle (BPF_LDX_MEM BPF_B BPF_REG_1 BPF_REG_6 13) None] ++
  match matcher_op m with
  | BF_MATCHER_EQ => [ISingle (BPF_JMP_IMM BPF_JNE BPF_REG_1 (payload_u8 m) 0) JMP]
  | BF_MATCHER_NE => [ISingle (BPF_JMP_IMM BPF_JEQ BPF_REG_1 (payload_u8 m) 0) JMP]
  | BF_MATCHER_ANY =>
      [ISingle (BPF_ALU32_IMM BPF_AND BPF_REG_1 (payload_u8 m)) None;
       ISingle (BPF_JMP_IMM BPF_JEQ BPF_REG_1 0 0) JMP]
  | BF_MATCHER_ALL =>
      [ISingle (BPF_ALU32_IMM BPF_AND BPF_REG_1 (payload_u8 m)) None;
       ISingle (BPF_JMP_IMM BPF_JNE BPF_REG_1 (payload_u8 m) 0) JMP]
  | _ => []
  end.

Lemma gemits_tcp_flags m : (1 <= length (matcher_payload m))%nat -> flags_op (matcher_op m) = true ->
  gemits c fl (_bf_matcher_generate_tcp_flags m) (flags_block m).
Proof.
  intros Hl Ho. unfold _bf_matcher_generate_tcp_flags, flags_block. apply gemits_payload; [done|].
  apply gemits_seq; [gen_emit|].
  destruct (matcher_op m); try discriminate Ho; try gen_emit;
    apply (gemits_seq _ _ _ _ [_]); gen_emit.
Qed.

Lemma byte_at_load bs o : (o < length bs)%nat -> le_combine (sub_bytes o 1 bs) = byte_at o bs.
Proof.
  intros Ho. unfold sub_bytes, byte_at. destruct (lookup_lt_is_Some_2 bs o Ho) as [b Hb].
  rewrite (drop_S _ _ _ Hb), Hb, firstn_cons, firstn_O. apply Z.add_0_r.
Qed.

Lemma block_tcp_flags pk (s : vm W) m :
  ctx_rel lo pk s -> regs s !! 6 = Some (lo_l4 lo) -> (20 <= length (pk_l4 pk))%nat ->
  matcher_wf m -> (1 <= length (matcher_payload m))%nat -> flags_op (matcher_op m) = true ->
  exists s', ctx_rel lo pk s' /\ world s' = world s /\
    exec (flags_block m) 0 s =
    if match_flags (matcher_op m) (byte_at 13 (pk_l4 pk)) (payload_u8 m)
    then BFall 0 s' else BRule s'.
Proof.
  intros Hc H6 Hl [Hb _ _] Hp Ho. unfold flags_block. cbn [app].
  erewrite ex_ldx; [|code_tac|done|apply l4_load; [done|done|change (13 + 1 <= length (pk_l4 pk))%nat; lia]].
  change (size_bytes BPF_B) with 1%nat. change (Z.to_nat 13) with 13%nat.
  rewrite byte_at_load by lia.
  pose proof (byte_at_range (pk_l4 pk) 13 (pw_l4_bytes _ (cr_pkt _ _ _ Hc))) as Hf. unfold is_byte in Hf.
  assert (0 <= payload_u8 m < 2 ^ 8) as Hr
    by (apply le_combine_u8; [auto with bf|rewrite length_take; lia]).
  set (f := byte_at 13 (pk_l4 pk)) in *. unfold match_flags.
  destruct (matcher_op m); try discriminate Ho;
    repeat (erewrite ex_and32_imm; [|reg_tac]);
    (erewrite ex_jmp_imm_rule; [|code_tac|reg_tac|done]);
    rewrite ?(u64_s32_small (payload_u8 m)), ?(u64_s32_small 0),
      ?(u32_small f), ?(u32_small (payload_u8 m)) by lia;
    (eexists; split; [|split; [|match goal with |- context [?a =? ?b] => destruct (a =? b) end; reflexivity]]; [ctx_tac|done]).
Qed.

Definition icmp_block (m : bf_matcher) (o : Z) : block :=
  [ISingle (BPF_LDX_MEM BPF_B BPF_REG_1 BPF_REG_6 o) None] ++
  [ISingle (BPF_JMP_IMM (if decide (matcher_op m = BF_MATCHER_EQ) then BPF_JNE else BPF_JEQ)
                        BPF_REG_1 (payload_u8 m) 0) JMP].

Lemma gemits_icmp_fields m o : (1 <= length (matcher_payload m))%nat -> eq_ne_op (matcher_op m) = true ->
  gemits c fl (_bf_matcher_generate_icmp_fields m o) (icmp_block m o).
Proof.
  intros Hl Ho. unfold _bf_matcher_generate_icmp_fields, icmp_block. apply gemits_payload; [done|].
  apply gemits_seq; [gen_emit|]. destruct (matcher_op m); try discriminate Ho; gen_emit.
Qed.

Lemma block_icmp pk (s : vm W) m o :
  ctx_rel lo pk s -> regs s !! 6 = Some (lo_l4 lo) -> 0 <= o < 2 ^ 15 ->
  (Z.to_nat o + 1 <= length (pk_l4 pk))%nat -> matcher_wf m ->
  (1 <= length (matcher_payload m))%nat ->
  exists s', ctx_rel lo pk s' /\ world s' = world s /\
    exec (icmp_block m o) 0 s =
    if match_bytes (matcher_op m) (sub_bytes (Z.to_nat o) 1 (pk_l4 pk)) (take 1 (matcher_payload m))
    then BFall 0 s' else BRule s'.
Proof.
  intros Hc H6 Ho Hl [Hb _ _] Hp. unfold icmp_block. cbn [app].
  erewrite ex_ldx; [|code_tac|done|by apply l4_load].
  erewrite ex_jmp_imm_rule; [|apply op_jmp_code|reg_tac|apply op_jcc].
  assert (0 <= payload_u8 m < 2 ^ 8) as Hr
    by (apply le_combine_u8; [auto with bf|rewrite length_take; lia]).
  rewrite u64_s32_small by lia. unfold match_bytes.
  rewrite <- sub_bytes_eqb_combine.
  - eexists. split; [|split; [|unfold payload_u8; destruct (eq_or_ne _ _); reflexivity]]; [ctx_tac|done].
  - apply is_bytes_sub, Hc.
  - auto with bf.
  - rewrite length_sub_bytes, length_take by lia. lia.
Qed.

(** ** The three generators *)

Definition is_tcp_type (t : bf_matcher_type) : bool :=
  match t with
  | BF_MATCHER_TCP_SPORT | BF_MATCHER_TCP_DPORT | BF_MATCHER_TCP_FLAGS => true
  | _ => false
  end.
Definition is_udp_type (t : bf_matcher_type) : bool :=
  match t with BF_MATCHER_UDP_SPORT | BF_MATCHER_UDP_DPORT => true | _ => false end.
Definition is_icmp_type (t : bf_matcher_type) : bool :=
  match t with
  | BF_MATCHER_ICMP_TYPE | BF_MATCHER_ICMP_CODE | BF_MATCHER_ICMPV6_TYPE | BF_MATCHER_ICMPV6_CODE => true
  | _ => false
  end.

Ltac l4_side := first [done | lia | len_tac].

Lemma gen_tcp_matches m : matcher_wf m -> is_tcp_type (matcher_type m) = true ->
  matcher_op m <> BF_MATCHER_IN ->
  gen_matches c fl lo (bf_matcher_generate_tcp m) (pure_match (W := W) (fun pk => match_tcp pk m)).
Proof.
  intros Hwf Ht Ho. pose proof (op_of_meta m Hwf Ho) as Hop. pose proof (matcher_len m Hwf) as Hl.
  assert (forall t, matcher_type m = t -> is_tcp_type t = true ->
    (2 <= length (matcher_payload m) \/ t = BF_MATCHER_TCP_FLAGS)%nat) as Hl2.
  { intros t <- _. destruct (matcher_type m); try done; [left..|by right]; rewrite Hl; cbn; case_decide; lia. }
  specialize (Hl2 _ eq_refl Ht).
  unfold bf_matcher_generate_tcp, match_tcp, _bf_matcher_generate_tcp_port.
  destruct (matcher_type m) eqn:E; try discriminate Ht; cbn [decide];
    (eapply gen_check_l4; [done| |]).
  - apply gemits_payload; [apply port_payload_fits; [done|by rewrite E]|].
    eapply (gemits_seq _ _ _ (port_cmp m)); [gen_emit|by apply gemits_port_cmp].
  - intros pk s Hc Hp H6. pose proof (pw_tcp pk (cr_pkt _ _ _ Hc) Hp).
    apply (block_port pk s m offsetof_l4_source); destruct Hl2; l4_side.
  - apply gemits_payload; [apply port_payload_fits; [done|by rewrite E]|].
    eapply (gemits_seq _ _ _ (port_cmp m)); [gen_emit|by apply gemits_port_cmp].
  - intros pk s Hc Hp H6. pose proof (pw_tcp pk (cr_pkt _ _ _ Hc) Hp).
    apply (block_port pk s m offsetof_l4_dest); destruct Hl2; l4_side.
  - apply gemits_tcp_flags; [rewrite Hl; cbn; lia|done].
  - intros pk s Hc Hp H6. pose proof (pw_tcp pk (cr_pkt _ _ _ Hc) Hp).
    apply (block_tcp_flags pk s m); try done. rewrite Hl. done.
Qed.

Lemma gen_udp_matches m : matcher_wf m -> is_udp_type (matcher_type m) = true ->
  matcher_op m <> BF_MATCHER_IN ->
  gen_matches c fl lo (bf_matcher_generate_udp m) (pure_match (W := W) (fun pk => match_udp pk m)).
Proof.
  intros Hwf Ht Ho. pose proof (op_of_meta m Hwf Ho) as Hop. pose proof (matcher_len m Hwf) as Hl.
  assert (2 <= length (matcher_payload m))%nat.
  { rewrite Hl. destruct (matcher_type m); try done; cbn; case_decide; lia. }
  unfold bf_matcher_generate_udp, match_udp, _bf_matcher_generate_udp_port.
  destruct (matcher_type m) eqn:E; try discriminate Ht; cbn [decide];
    (eapply gen_check_l4; [done| |]).
  - apply gemits_payload; [apply port_payload_fits; [done|by rewrite E]|].
    eapply (gemits_seq _ _ _ (port_cmp m)); [gen_emit|by apply gemits_port_cmp].
  - intros pk s Hc Hp H6. pose proof (pw_udp pk (cr_pkt _ _ _ Hc) Hp).
    apply (block_port pk s m offsetof_l4_source); l4_side.
  - apply gemits_payload; [apply port_payload_fits; [done|by rewrite E]|].
    eapply (gemits_seq _ _ _ (port_cmp m)); [gen_emit|by apply gemits_port_cmp].
  - intros pk s Hc Hp H6. pose proof (pw_udp pk (cr_pkt _ _ _ Hc) Hp).
    apply (block_port pk s m offsetof_l4_dest); l4_side.
Qed.

Lemma gen_icmp_matches m : matcher_wf m -> is_icmp_type (matcher_type m) = true ->
  matcher_op m <> BF_MATCHER_IN ->
  gen_matches c fl lo (bf_matcher_generate_icmp m) (pure_match (W := W) (fun pk => match_icmp pk m)).
Proof.
  intros Hwf Ht Ho. pose proof (op_of_meta m Hwf Ho) as Hop. pose proof (matcher_len m Hwf) as Hl.
  unfold bf_matcher_generate_icmp, match_icmp, _bf_matcher_generate_icmp4_fields,
    _bf_matcher_generate_icmp6_fields.
  destruct (matcher_type m) eqn:E; try discriminate Ht; cbn [decide];
    (eapply gen_check_l4; [done|apply gemits_icmp_fields; [rewrite Hl; cbn; lia|done]|]);
    intros pk s Hc Hp H6;
    (first [pose proof (pw_icmp pk (cr_pkt _ _ _ Hc) Hp) | pose proof (pw_icmpv6 pk (cr_pkt _ _ _ Hc) Hp)]).
  - apply (block_icmp pk s m offsetof_icmp_type); try l4_side. by rewrite Hl.
  - apply (block_icmp pk s m offsetof_icmp_code); try l4_side. by rewrite Hl.
  - apply (block_icmp pk s m offsetof_icmp_type); try l4_side. by rewrite Hl.
  - apply (block_icmp pk s m offsetof_icmp_code); try l4_side. by rewrite Hl.
Qed.
End Correct.
