(* ===== verification/Swich.v ===== *)
(** Switch-case generation: [src/bpfilter/cgen/swich.c] and [swich.h].

    [swich_spec] states what the emitted code does: run the instructions of the
    first option whose immediate equals the register, the default's if there is
    none, and continue after the switch. *)

From S2P Require Import Prelude Bpf Helper Hook Matcher BfSet Rule Chain Printer Program Block.
From S2P Require Import BlockExec Context Symbolic.

(** * The switch *)

Record bf_swich_option : Type := mk_swich_option {
  opt_imm : Z;
  opt_insns : list bpf_insn
}.

Definition _bf_swich_option_new (imm : Z) (insns : list bpf_insn) : bf_swich_option :=
  mk_swich_option (u32 imm) insns.

Record bf_swich : Type := mk_swich {
  swich_reg : Z;
  swich_options : list bf_swich_option;
  swich_default : option bf_swich_option
}.

Definition bf_swich_init (reg : Z) : bf_swich := mk_swich reg [] None.

Definition bf_swich_add_option (sw : bf_swich) (imm : Z) (insns : list bpf_insn) : bf_swich :=
  mk_swich (swich_reg sw) (swich_options sw ++ [_bf_swich_option_new imm insns]) (swich_default sw).

(** A second default replaces the first. *)
Definition bf_swich_set_default (sw : bf_swich) (insns : list bpf_insn) : bf_swich :=
  mk_swich (swich_reg sw) (swich_options sw) (Some (_bf_swich_option_new 0 insns)).

(** The first loop: a comparison per option; the jump contexts are returned in
    the order of the options. *)
Fixpoint swich_gen_cmps (reg : Z) (opts : list bf_swich_option) : gen (list nat) :=
  match opts with
  | [] => mret []
  | o :: opts =>
      j ← bf_jmpctx_get (BPF_JMP_IMM BPF_JEQ reg (opt_imm o) 0);
      js ← swich_gen_cmps reg opts;
      mret (j :: js)
  end.

(** The second loop: each option's code, then a jump to the end. *)
Fixpoint swich_gen_bodies (opts : list bf_swich_option) (js : list nat) : gen (list nat) :=
  match opts, js with
  | o :: opts, j :: js =>
      bf_jmpctx_cleanup j ;;
      emit_all (opt_insns o) ;;
      j' ← bf_jmpctx_get (BPF_JMP_A 0);
      js' ← swich_gen_bodies opts js;
      mret (j' :: js')
  | _, _ => mret []
  end.

Fixpoint swich_cleanup_all (js : list nat) : gen unit :=
  match js with
  | [] => mret tt
  | j :: js => bf_jmpctx_cleanup j ;; swich_cleanup_all js
  end.

Definition bf_swich_generate (sw : bf_swich) : gen unit :=
  js ← swich_gen_cmps (swich_reg sw) (swich_options sw);
  dj ← (match swich_default sw with
        | Some _ => j ← bf_jmpctx_get (BPF_JMP_A 0); mret (Some j)
        | None => mret None
        end);
  js' ← swich_gen_bodies (swich_options sw) js;
  (match swich_default sw, dj with
   | Some d, Some j => bf_jmpctx_cleanup j ;; emit_all (opt_insns d)
   | _, _ => mret tt
   end) ;;
  swich_cleanup_all js'.

(** Equality of lists up to the association of [++]. *)
Ltac app_eq := repeat (progress (rewrite <- ?app_assoc; cbn [app])); reflexivity.

(** * The block it emits *)

Abbreviation plain l := ((fun i => ISingle i None) <$> l).

Definition jmp_off (o : nat) (i : bpf_insn) : item := ISingle (set_insn_off (s16 (Z.of_nat o)) i) None.

(** Slots of the options' code, the jumps to the end included. *)
Fixpoint bodies_size (opts : list bf_swich_option) : nat :=
  match opts with [] => O | o :: opts => length (opt_insns o) + 1 + bodies_size opts end.

(** Comparisons: [before] slots of earlier options' code are in the way, and
    [extra] is 1 if there is a default. *)
Fixpoint cmps_block (reg : Z) (extra before : nat) (opts : list bf_swich_option) : block :=
  match opts with
  | [] => []
  | o :: opts =>
      jmp_off (length opts + extra + before) (BPF_JMP_IMM BPF_JEQ reg (opt_imm o) 0)
      :: cmps_block reg extra (before + length (opt_insns o) + 1) opts
  end.

Fixpoint bodies_block (opts : list bf_swich_option) (after : nat) : block :=
  match opts with
  | [] => []
  | o :: opts =>
      plain (opt_insns o) ++ jmp_off (bodies_size opts + after) (BPF_JMP_A 0) :: bodies_block opts after
  end.

Definition default_insns (sw : bf_swich) : list bpf_insn :=
  match swich_default sw with Some d => opt_insns d | None => [] end.

Definition default_jump (sw : bf_swich) : block :=
  match swich_default sw with
  | Some _ => [jmp_off (bodies_size (swich_options sw)) (BPF_JMP_A 0)]
  | None => []
  end.

Definition swich_block (sw : bf_swich) : block :=
  cmps_block (swich_reg sw) (length (default_jump sw)) 0 (swich_options sw) ++
  default_jump sw ++
  bodies_block (swich_options sw) (length (default_insns sw)) ++
  plain (default_insns sw).

(** ** Sizes *)

Lemma size_plain l : size (plain l) = length l.
Proof. induction l as [|i l IH]; [done|]. cbn in *. by rewrite IH. Qed.

Lemma size_cmps reg extra before opts : size (cmps_block reg extra before opts) = length opts.
Proof. revert before. induction opts as [|o opts IH]; intros before; cbn; [done|]. by rewrite IH. Qed.

Lemma size_bodies opts after : size (bodies_block opts after) = bodies_size opts.
Proof.
  induction opts as [|o opts IH]; cbn [bodies_block bodies_size]; [done|].
  rewrite size_app, size_plain. cbn [size item_size jmp_off]. rewrite IH. lia.
Qed.

Lemma patch_at b1 i f b2 o : patch (size b1) o (b1 ++ ISingle i f :: b2) =
  b1 ++ ISingle (set_insn_off o i) f :: b2.
Proof. rewrite patch_app_r by done. by rewrite Nat.sub_diag. Qed.

Lemma cleanup_off n k m : (n = k + 1 + m)%nat -> Z.of_nat n - Z.of_nat k - 1 = Z.of_nat m.
Proof. lia. Qed.

(** ** Emission *)

(** The comparisons and the options' code before they are patched, and where
    the jumps to the end are. *)
Fixpoint raw_cmps (reg : Z) (opts : list bf_swich_option) : block :=
  match opts with
  | [] => []
  | o :: opts => ISingle (BPF_JMP_IMM BPF_JEQ reg (opt_imm o) 0) None :: raw_cmps reg opts
  end.

Fixpoint raw_bodies (opts : list bf_swich_option) : block :=
  match opts with
  | [] => []
  | o :: opts => plain (opt_insns o) ++ ISingle (BPF_JMP_A 0) None :: raw_bodies opts
  end.

Fixpoint body_slots (start : nat) (opts : list bf_swich_option) : list nat :=
  match opts with
  | [] => []
  | o :: opts => (start + length (opt_insns o))%nat :: body_slots (start + length (opt_insns o) + 1) opts
  end.

Lemma size_raw_cmps reg opts : size (raw_cmps reg opts) = length opts.
Proof. induction opts as [|o opts IH]; [done|]. cbn. by rewrite IH. Qed.

Lemma size_raw_bodies opts : size (raw_bodies opts) = bodies_size opts.
Proof.
  induction opts as [|o opts IH]; cbn [raw_bodies bodies_size]; [done|].
  rewrite size_app, size_plain. cbn [size item_size]. rewrite IH. lia.
Qed.

Section Emission.
Context (c : bf_chain) (fl : bf_flavor) (p0 : bf_program) (Hp0 : prog_of c fl p0).

Definition slots (l : list nat) : list nat := (fun k => (img_size p0 + k)%nat) <$> l.

Abbreviation triple b g Q := (gtriple c fl p0 b g Q).

Lemma gen_cmps_triple reg opts b :
  triple b (swich_gen_cmps reg opts) (fun js b' =>
    js = slots (seq (size b) (length opts)) /\ b' = b ++ raw_cmps reg opts).
Proof.
  revert b. induction opts as [|o opts IH]; intros b; cbn [swich_gen_cmps raw_cmps].
  - apply gtriple_ret. split; [done|]. by rewrite app_nil_r.
  - eapply (gtriple_bind _ _ _ _ _ _ (fun k b' => k = (img_size p0 + size b)%nat /\ b' = _));
      [done|by apply gtriple_jmpctx_get|]. intros ? ? [-> ->].
    eapply gtriple_bind; [done|apply IH|]. intros ? ? [-> ->].
    apply gtriple_ret. rewrite size_app. cbn [size item_size].
    split; [by rewrite Nat.add_1_r|]. by rewrite <- app_assoc.
Qed.

(** The second loop: [pre] is what is before the option's comparison, [mid]
    the default's jump and the code of the options already done. *)
Lemma gen_bodies_triple reg extra opts pre mid before :
  size mid = (extra + before)%nat ->
  triple (pre ++ raw_cmps reg opts ++ mid)
    (swich_gen_bodies opts (slots (seq (size pre) (length opts))))
    (fun js b' => js = slots (body_slots (size pre + length opts + size mid) opts) /\
       b' = pre ++ cmps_block reg extra before opts ++ mid ++ raw_bodies opts).
Proof.
  revert pre mid before. induction opts as [|o opts IH]; intros pre mid before Hm;
    cbn [swich_gen_bodies raw_cmps raw_bodies cmps_block body_slots length seq fmap list_fmap slots].
  { apply gtriple_ret. by rewrite app_nil_r. }
  eapply (gtriple_bind _ _ _ _ _ _ (fun _ b' => b' = _)); [done|by apply gtriple_jmpctx_cleanup|].
  intros [] ? ->. rewrite <- app_comm_cons, patch_at.
  rewrite size_app. cbn [size item_size]. rewrite size_app, size_raw_cmps, Hm.
  rewrite (cleanup_off _ _ (length opts + extra + before)) by lia.
  eapply gtriple_bind; [done|apply gemits_triple, gemits_emit_all|]. intros [] ? ->.
  eapply (gtriple_bind _ _ _ _ _ _ (fun k b' =>
    k = (img_size p0 + (size pre + S (length opts) + size mid + length (opt_insns o)))%nat /\ b' = _)); [done| |].
  { apply gtriple_jmpctx_get. split; [|reflexivity].
    rewrite !size_app. cbn [size item_size]. rewrite size_app, size_raw_cmps, size_plain. lia. }
  intros ? ? [-> ->].
  specialize (IH (pre ++ [jmp_off (length opts + extra + before) (BPF_JMP_IMM BPF_JEQ reg (opt_imm o) 0)])
    (mid ++ plain (opt_insns o) ++ [ISingle (BPF_JMP_A 0) None]) (before + length (opt_insns o) + 1)%nat).
  eapply gtriple_bind; [done| |].
  { eapply gtriple_mono; [|intros ? ? Q; exact Q].
    replace (S (size pre)) with
      (size (pre ++ [jmp_off (length opts + extra + before) (BPF_JMP_IMM BPF_JEQ reg (opt_imm o) 0)]))
      by (rewrite size_app; cbn; lia).
    match type of IH with _ -> gtriple _ _ _ ?b _ _ =>
      match goal with |- gtriple _ _ _ ?b' _ _ =>
        cut (b' = b); [intros ->; apply IH|] end end.
    2:{ unfold jmp_off. app_eq. }
    rewrite !size_app, size_plain, Hm. cbn. lia. }
  intros ? ? [-> ->]. apply gtriple_ret. rewrite !size_app, size_plain. cbn [size item_size jmp_off].
  split.
  - f_equal; [lia|]. match goal with |- slots (body_slots ?a _) = _ <$> body_slots ?b _ => by replace b with a by lia end.
  - unfold jmp_off. app_eq.
Qed.

(** Pointing the last jumps at the end. *)
Lemma cleanup_all_triple opts pre post :
  triple (pre ++ raw_bodies opts ++ post) (swich_cleanup_all (slots (body_slots (size pre) opts)))
    (fun _ b' => b' = pre ++ bodies_block opts (size post) ++ post).
Proof.
  revert pre. induction opts as [|o opts IH]; intros pre;
    cbn [swich_cleanup_all raw_bodies bodies_block body_slots fmap list_fmap slots].
  { by apply gtriple_ret. }
  eapply (gtriple_bind _ _ _ _ _ _ (fun _ b' => b' = _)); [done|by apply gtriple_jmpctx_cleanup|].
  intros [] ? ->.
  rewrite <- (app_assoc (plain _)), <- app_comm_cons, !(app_assoc pre).
  replace (size pre + length (opt_insns o))%nat with (size (pre ++ plain (opt_insns o)))
    by (by rewrite size_app, size_plain).
  rewrite patch_at, (size_app (pre ++ _)). cbn [size item_size]. rewrite (size_app (raw_bodies opts)), size_raw_bodies.
  rewrite (cleanup_off _ _ (bodies_size opts + size post)) by lia.
  specialize (IH ((pre ++ plain (opt_insns o)) ++ [jmp_off (bodies_size opts + size post) (BPF_JMP_A 0)])).
  rewrite size_app in IH. cbn [size item_size jmp_off] in IH. rewrite <- !app_assoc in IH |- *.
  cbn [app] in IH |- *. eapply gtriple_mono; [exact IH|]. intros _ ? ->. by rewrite <- ?app_assoc.
Qed.

Lemma swich_triple sw b :
  triple b (bf_swich_generate sw) (fun _ b' => b' = b ++ swich_block sw).
Proof.
  unfold bf_swich_generate, swich_block.
  eapply gtriple_bind; [done|apply gen_cmps_triple|]. intros ? ? [-> ->].
  unfold default_jump, default_insns. set (opts := swich_options sw).
  destruct (swich_default sw) as [d|].
  - eapply (gtriple_bind _ _ _ _ _ _ (fun j b' => j = Some (img_size p0 + (size b + length opts))%nat /\
      b' = b ++ raw_cmps (swich_reg sw) opts ++ [ISingle (BPF_JMP_A 0) None])); [done| |].
    { eapply (gtriple_bind _ _ _ _ _ _ (fun k b' => k = (img_size p0 + (size b + length opts))%nat /\ b' = _));
        [done|apply gtriple_jmpctx_get; split; [by rewrite size_app, size_raw_cmps|reflexivity]|].
      intros ? ? [-> ->]. apply gtriple_ret. split; [done|app_eq]. }
    intros ? ? [-> ->].
    eapply gtriple_bind; [done|by apply (gen_bodies_triple _ 1 opts b [ISingle (BPF_JMP_A 0) None] 0)|].
    intros ? ? [-> ->].
    eapply (gtriple_bind _ _ _ _ _ _ (fun _ b' => b' = (b ++ cmps_block (swich_reg sw) 1 0 opts ++
      [jmp_off (bodies_size opts) (BPF_JMP_A 0)]) ++ raw_bodies opts ++ plain (opt_insns d))); [done| |].
    { eapply (gtriple_bind _ _ _ _ _ _ (fun _ b' => b' = _)); [done|by apply gtriple_jmpctx_cleanup|].
      intros [] ? ->.
      eapply gtriple_mono; [apply gemits_triple, gemits_emit_all|]. intros _ ? ->.
      rewrite !app_assoc. rewrite <- (app_assoc _ [_] (raw_bodies _)).
      replace (size b + length opts)%nat with (size (b ++ cmps_block (swich_reg sw) 1 0 opts))
        by (by rewrite size_app, size_cmps).
      cbn [app]. rewrite patch_at, size_app. cbn [size item_size]. rewrite size_raw_bodies.
      rewrite (cleanup_off _ _ (bodies_size opts)) by lia. unfold jmp_off. app_eq. }
    intros _ ? ->.
    replace (size b + length opts + size [ISingle (BPF_JMP_A 0) None])%nat with
      (size (b ++ cmps_block (swich_reg sw) 1 0 opts ++ [jmp_off (bodies_size opts) (BPF_JMP_A 0)]))
      by (rewrite !size_app, size_cmps; cbn; lia).
    eapply gtriple_mono; [apply cleanup_all_triple|]. intros _ ? ->. rewrite size_plain. app_eq.
  - eapply (gtriple_bind _ _ _ _ _ _ (fun j b' => j = None /\ b' = _)); [done|by apply gtriple_ret|].
    intros ? ? [-> ->].
    eapply gtriple_bind; [done| |].
    { rewrite <- (app_nil_r (raw_cmps (swich_reg sw) opts)).
      by apply (gen_bodies_triple _ 0 opts b [] 0). }
    intros ? ? [-> ->].
    eapply (gtriple_bind _ _ _ _ _ _ (fun _ b' => b' = _)); [done|by apply gtriple_ret|].
    intros [] ? ->.
    replace (size b + length opts + size [])%nat with
      (size (b ++ cmps_block (swich_reg sw) 0 0 opts)) by (rewrite size_app, size_cmps; cbn; lia).
    cbn [app]. rewrite app_assoc, <- (app_nil_r (raw_bodies opts)).
    eapply gtriple_mono; [apply cleanup_all_triple|]. intros _ ? ->. app_eq.
Qed.
End Emission.

Lemma gemits_swich c fl sw : gemits c fl (bf_swich_generate sw) (swich_block sw).
Proof. apply gtriple_gemits. intros p0 Hp0. by apply swich_triple. Qed.

Lemma plain_no_rule l : forallb no_rule (plain l) = true.
Proof. by induction l. Qed.

Lemma swich_no_rule sw : forallb no_rule (swich_block sw) = true.
Proof.
  unfold swich_block. rewrite !forallb_app, plain_no_rule, andb_true_r. repeat (apply andb_true_intro; split).
  - generalize O. by induction (swich_options sw); intros; cbn.
  - unfold default_jump. by case_match.
  - generalize (length (default_insns sw)). induction (swich_options sw) as [|o l IH]; intros n; [done|].
    cbn [bodies_block]. rewrite forallb_app, plain_no_rule. cbn. apply IH.
Qed.

(** * What it does *)

Section Semantics.
Context {W : Type} `{Kernel W}.
Implicit Types (s : vm W).

(** The code of the first option for [x]. *)
Fixpoint swich_select (opts : list bf_swich_option) (x : Z) : option (list bpf_insn) :=
  match opts with
  | [] => None
  | o :: opts => if x =? opt_imm o then Some (opt_insns o) else swich_select opts x
  end.

(** Where it is among the options' code. *)
Fixpoint select_off (opts : list bf_swich_option) (x : Z) : option nat :=
  match opts with
  | [] => None
  | o :: opts => if x =? opt_imm o then Some O
                 else (fun n => (length (opt_insns o) + 1 + n)%nat) <$> select_off opts x
  end.

(** Immediates that the sign extension of the comparison preserves. *)
Definition imms_ok (opts : list bf_swich_option) : Prop :=
  Forall (fun o => 0 <= opt_imm o < 2 ^ 31) opts.

Lemma exec_cmps reg extra before opts x s :
  regs s !! reg = Some x -> imms_ok opts ->
  Z.of_nat (length opts + extra + before + bodies_size opts) < 2 ^ 15 ->
  exec (cmps_block reg extra before opts) 0 s =
  match select_off opts x with Some n => BFall (extra + before + n) s | None => BFall 0 s end.
Proof.
  intros Hr Hi. revert before. induction Hi as [|o opts Ho _ IH]; intros before Hl; [done|].
  cbn [cmps_block select_off length bodies_size] in *. unfold jmp_off.
  erewrite ex_jmp_imm; [|code_tac|exact Hr|done|lia]. rewrite u64_s32_small by done.
  destruct (x =? opt_imm o).
  - replace (length opts + extra + before)%nat
      with (size (cmps_block reg extra (before + length (opt_insns o) + 1) opts) + (extra + before))%nat
      by (rewrite size_cmps; lia).
    rewrite exec_skip. f_equal. lia.
  - rewrite IH by lia. destruct (select_off opts x); cbn; [|done]. f_equal. lia.
Qed.

Lemma exec_bodies opts after x n l s s' :
  select_off opts x = Some n -> swich_select opts x = Some l ->
  exec (plain l) 0 s = BFall 0 s' -> Z.of_nat (bodies_size opts + after) < 2 ^ 15 ->
  exec (bodies_block opts after) n s = BFall after s'.
Proof.
  intros Hn Hs He. revert n Hn Hs. induction opts as [|o opts IH]; intros n Hn Hs Hl; [done|].
  cbn [bodies_block select_off swich_select bodies_size] in *. rewrite exec_app.
  destruct (x =? opt_imm o).
  - injection Hn as <-. injection Hs as <-. rewrite He. cbn [bcont]. unfold jmp_off.
    rewrite ex_ja by lia.
    replace (bodies_size opts + after)%nat with (size (bodies_block opts after) + after)%nat
      by (by rewrite size_bodies).
    apply exec_skip.
  - destruct (select_off opts x) as [m|]; [|done]. injection Hn as <-.
    rewrite <- (size_plain (opt_insns o)), <- Nat.add_assoc, exec_skip. cbn [bcont].
    unfold jmp_off. rewrite (ex_skip1 _ _ _ m). apply IH; [done|done|lia].
Qed.

Lemma select_off_spec opts x :
  match swich_select opts x with Some _ => is_Some (select_off opts x) | None => select_off opts x = None end.
Proof.
  induction opts as [|o opts IH]; cbn; [done|]. destruct (x =? opt_imm o); [by eexists|].
  destruct (swich_select opts x).
  - destruct IH as [? ->]. by eexists.
  - by rewrite IH.
Qed.

(** The switch runs the code of the option for the register's value, or the
    default's, and goes on after the switch. *)
Lemma exec_swich sw d x s s' : swich_default sw = Some d ->
  regs s !! swich_reg sw = Some x -> imms_ok (swich_options sw) ->
  Z.of_nat (length (swich_options sw) + 1 + bodies_size (swich_options sw) + length (opt_insns d)) < 2 ^ 15 ->
  exec (plain (default (opt_insns d) (swich_select (swich_options sw) x))) 0 s = BFall 0 s' ->
  exec (swich_block sw) 0 s = BFall 0 s'.
Proof.
  intros Hd Hr Hi Hl He. unfold swich_block, default_jump, default_insns. rewrite Hd.
  set (opts := swich_options sw) in *. change (length [_]) with 1%nat.
  rewrite exec_app, (exec_cmps _ _ _ _ x) by (done || lia). cbn [app].
  pose proof (select_off_spec opts x) as Hsel.
  destruct (swich_select opts x) as [l|] eqn:E; cbn [default from_option id] in He.
  - destruct Hsel as [n Hn]. rewrite Hn. cbn [bcont]. unfold jmp_off.
    change (1 + 0 + n)%nat with (S n). rewrite ex_skip1, exec_app.
    rewrite (exec_bodies opts _ x n l s s') by (done || lia). cbn [bcont].
    rewrite <- (size_plain (opt_insns d)). apply exec_skip_full.
  - rewrite Hsel. cbn [bcont]. unfold jmp_off. rewrite ex_ja by lia. rewrite exec_app.
    rewrite <- (size_bodies opts (length (opt_insns d))), exec_skip_full. done.
Qed.
End Semantics.
