(* ===== verification/Flavors.v ===== *)
(** What depends on the program's flavor, apart from the prologues: reading and
    writing the packet's mark, and the return value of a verdict.
    [src/bpfilter/cgen/nf.c], [tc.c], [xdp.c], [cgroup.c]. *)

From S2P Require Import Prelude Bytes Bpf Helper Hook Matcher BfSet Rule Chain Printer Btf Program.
From S2P Require Import Block BlockExec Context Symbolic Match.

(** * Verdicts *)

Definition NF_DROP : Z := 0.
Definition NF_ACCEPT : Z := 1.
Definition TC_ACT_OK : Z := 0.
Definition TC_ACT_SHOT : Z := 2.
Definition XDP_DROP : Z := 1.
Definition XDP_PASS : Z := 2.

(** The tables have an entry per terminal verdict; reading past them has no
    result. *)
Definition _bf_nf_get_verdict (verdict : bf_verdict) : option Z :=
  match verdict with
  | BF_VERDICT_ACCEPT => Some NF_ACCEPT
  | BF_VERDICT_DROP => Some NF_DROP
  | _ => None
  end.

Definition _bf_tc_get_verdict (verdict : bf_verdict) : option Z :=
  match verdict with
  | BF_VERDICT_ACCEPT => Some TC_ACT_OK
  | BF_VERDICT_DROP => Some TC_ACT_SHOT
  | _ => None
  end.

Definition _bf_xdp_get_verdict (verdict : bf_verdict) : option Z :=
  match verdict with
  | BF_VERDICT_ACCEPT => Some XDP_PASS
  | BF_VERDICT_DROP => Some XDP_DROP
  | _ => None
  end.

Definition _bf_cgroup_get_verdict (verdict : bf_verdict) : option Z :=
  match verdict with
  | BF_VERDICT_ACCEPT => Some 1
  | BF_VERDICT_DROP => Some 0
  | _ => None
  end.

Definition get_verdict (fl : bf_flavor) : bf_verdict -> option Z :=
  match fl with
  | BF_FLAVOR_NF => _bf_nf_get_verdict
  | BF_FLAVOR_TC => _bf_tc_get_verdict
  | BF_FLAVOR_XDP => _bf_xdp_get_verdict
  | BF_FLAVOR_CGROUP => _bf_cgroup_get_verdict
  end.

(** * The mark *)

Definition offsetof_sk_buff_mark : Z := 8.

Section Mark.
Context `{CgenEnv}.

Definition _bf_nf_gen_inline_get_mark (reg : Z) : gen unit :=
  EMIT (BPF_LDX_MEM BPF_DW BPF_REG_1 BPF_REG_10 (BF_PROG_CTX_OFF RT_arg)) ;;
  offset ← gen_lift (bf_btf_get_field_off "bpf_nf_ctx" "skb");
  EMIT (BPF_LDX_MEM BPF_DW BPF_REG_2 BPF_REG_1 offset) ;;
  offset ← gen_lift (bf_btf_get_field_off "sk_buff" "mark");
  EMIT (BPF_LDX_MEM BPF_W reg BPF_REG_2 offset).

Definition _bf_tc_gen_inline_set_mark (mark : Z) : gen unit :=
  EMIT (BPF_LDX_MEM BPF_DW BPF_REG_1 BPF_REG_10 (BF_PROG_CTX_OFF RT_arg)) ;;
  EMIT (BPF_MOV64_IMM BPF_REG_2 mark) ;;
  EMIT (BPF_STX_MEM BPF_W BPF_REG_1 BPF_REG_2 offsetof_sk_buff_mark).

Definition _bf_tc_gen_inline_get_mark (reg : Z) : gen unit :=
  EMIT (BPF_LDX_MEM BPF_DW BPF_REG_1 BPF_REG_10 (BF_PROG_CTX_OFF RT_arg)) ;;
  EMIT (BPF_LDX_MEM BPF_W reg BPF_REG_1 offsetof_sk_buff_mark).

Definition _bf_cgroup_gen_inline_set_mark (mark : Z) : gen unit :=
  EMIT (BPF_LDX_MEM BPF_DW BPF_REG_1 BPF_REG_10 (BF_PROG_CTX_OFF RT_arg)) ;;
  EMIT (BPF_MOV64_IMM BPF_REG_2 mark) ;;
  EMIT (BPF_STX_MEM BPF_W BPF_REG_1 BPF_REG_2 offsetof_sk_buff_mark).

Definition _bf_cgroup_gen_inline_get_mark (reg : Z) : gen unit :=
  EMIT (BPF_LDX_MEM BPF_DW BPF_REG_1 BPF_REG_10 (BF_PROG_CTX_OFF RT_arg)) ;;
  EMIT (BPF_LDX_MEM BPF_W reg BPF_REG_1 offsetof_sk_buff_mark).

(** The members of [struct bf_flavor_ops]; a callback that is not set is NULL. *)
Definition gen_inline_get_mark (fl : bf_flavor) : option (Z -> gen unit) :=
  match fl with
  | BF_FLAVOR_NF => Some _bf_nf_gen_inline_get_mark
  | BF_FLAVOR_TC => Some _bf_tc_gen_inline_get_mark
  | BF_FLAVOR_CGROUP => Some _bf_cgroup_gen_inline_get_mark
  | BF_FLAVOR_XDP => None
  end.

Definition gen_inline_set_mark (fl : bf_flavor) : option (Z -> gen unit) :=
  match fl with
  | BF_FLAVOR_TC => Some _bf_tc_gen_inline_set_mark
  | BF_FLAVOR_CGROUP => Some _bf_cgroup_gen_inline_set_mark
  | _ => None
  end.

Definition _bf_nf_gen_inline_epilogue : gen unit := mret tt.
Definition _bf_tc_gen_inline_epilogue : gen unit := mret tt.
Definition _bf_xdp_gen_inline_epilogue : gen unit := mret tt.
Definition _bf_cgroup_gen_inline_epilogue : gen unit := mret tt.

Definition gen_inline_epilogue (fl : bf_flavor) : gen unit :=
  match fl with
  | BF_FLAVOR_NF => _bf_nf_gen_inline_epilogue
  | BF_FLAVOR_TC => _bf_tc_gen_inline_epilogue
  | BF_FLAVOR_XDP => _bf_xdp_gen_inline_epilogue
  | BF_FLAVOR_CGROUP => _bf_cgroup_gen_inline_epilogue
  end.

(** * Correctness *)

(** Where the mark is: in [struct __sk_buff] for the TC and CGROUP programs,
    in the [struct sk_buff] their argument points to for the NF programs. *)
Definition mark_layout (fl : bf_flavor) (lo : layout) : Prop :=
  match fl with
  | BF_FLAVOR_TC | BF_FLAVOR_CGROUP =>
      lo_deref lo = None /\ lo_mark lo = lo_skb lo + offsetof_sk_buff_mark
  | BF_FLAVOR_NF => exists o o',
      bf_btf_get_field_off "bpf_nf_ctx" "skb" = Ok o /\ bf_btf_get_field_off "sk_buff" "mark" = Ok o' /\
      lo_deref lo = Some o /\ lo_mark lo = lo_skb lo + s16 o'
  | BF_FLAVOR_XDP => False
  end.

Context {W : Type} `{Kernel W} (c : bf_chain) (fl : bf_flavor) (lo : layout).

Lemma arg_load pk (s : vm W) : ctx_rel lo pk s ->
  load (mem s) (size_bytes BPF_DW) (lo_fp lo + s16 (BF_PROG_CTX_OFF RT_arg)) = Some (lo_arg lo).
Proof. intros Hc. rewrite ctx_off_s16. apply Hc. Qed.

(** Reading the mark in R1. *)
Lemma gen_get_mark g : mark_layout fl lo -> gen_inline_get_mark fl = Some g ->
  exists b, gemits c fl (g BPF_REG_1) b /\
    forall pk (s : vm W) b', ctx_rel lo pk s ->
      exists s', exec (b ++ b') 0 s = exec b' 0 s' /\ ctx_rel lo pk s' /\ world s' = world s /\
        regs s' !! 1 = Some (pk_mark pk).
Proof.
  assert (exists b, gemits c fl (_bf_tc_gen_inline_get_mark BPF_REG_1) b /\
    (lo_deref lo = None /\ lo_mark lo = lo_skb lo + offsetof_sk_buff_mark ->
     forall pk (s : vm W) b', ctx_rel lo pk s ->
      exists s', exec (b ++ b') 0 s = exec b' 0 s' /\ ctx_rel lo pk s' /\ world s' = world s /\
        regs s' !! 1 = Some (pk_mark pk))) as (b1 & Hb1 & He1).
  { eexists. split; [unfold _bf_tc_gen_inline_get_mark; gen_emit|]. intros [Hd Hm] pk s b' Hc.
    cbn [app]. erewrite ex_ldx; [|code_tac|apply Hc|by eapply arg_load].
    pose proof (cr_path _ _ _ Hc) as Hp. rewrite Hd in Hp.
    erewrite ex_ldx; [|code_tac|reg_tac|].
    2:{ vm_simpl. rewrite <- Hp. change (s16 offsetof_sk_buff_mark) with offsetof_sk_buff_mark.
        rewrite <- Hm. apply Hc. }
    eexists. split; [reflexivity|]. split_and!; [ctx_tac|done|reg_tac]. }
  intros Hl Hg. destruct fl; cbn [gen_inline_get_mark] in Hg; try discriminate Hg;
    injection Hg as Hg; subst g.
  - exists b1. auto.
  - destruct Hl as (o & o' & E1 & E2 & Hd & Hm). eexists. split.
    { unfold _bf_nf_gen_inline_get_mark. eapply gemits_seq; [gen_emit|].
      eapply gemits_lift; [exact E1|]. eapply gemits_seq; [gen_emit|].
      eapply gemits_lift; [exact E2|gen_emit]. }
    intros pk s b' Hc. cbn [app].
    erewrite ex_ldx; [|code_tac|apply Hc|by eapply arg_load].
    pose proof (cr_path _ _ _ Hc) as Hp. rewrite Hd in Hp.
    erewrite ex_ldx; [|code_tac|reg_tac|vm_simpl; exact Hp].
    erewrite ex_ldx; [|code_tac|reg_tac|vm_simpl; rewrite <- Hm; apply Hc].
    eexists. split; [reflexivity|]. split_and!; [ctx_tac|done|reg_tac].
  - exists b1. auto.
Qed.

(** Writing it. *)
Lemma gen_set_mark g mark : mark_layout fl lo -> gen_inline_set_mark fl = Some g ->
  0 <= mark < 2 ^ 32 ->
  exists b, gemits c fl (g mark) b /\ (size b = 3)%nat /\
    forall pk (s : vm W), ctx_rel lo pk s ->
      exists s', exec b 0 s = BFall 0 s' /\ ctx_rel lo (with_mark mark pk) s' /\ world s' = world s.
Proof.
  intros Hl Hg Hm.
  assert (fl = BF_FLAVOR_TC \/ fl = BF_FLAVOR_CGROUP) as Hfl
    by (destruct fl; try discriminate Hg; auto).
  assert (lo_deref lo = None /\ lo_mark lo = lo_skb lo + offsetof_sk_buff_mark) as [Hd Hmk]
    by (destruct Hfl as [-> | ->]; exact Hl).
  assert (g = _bf_tc_gen_inline_set_mark) as ->
    by (destruct Hfl as [-> | ->]; by injection Hg as <-).
  eexists. split; [unfold _bf_tc_gen_inline_set_mark; gen_emit|]. split; [done|].
  intros pk s Hc. cbn [app]. erewrite ex_ldx; [|code_tac|apply Hc|by eapply arg_load].
  rewrite ex_mov64_imm.
  set (s1 := set_reg BPF_REG_2 _ _). assert (ctx_rel lo pk s1) as Hc1 by (subst s1; ctx_tac).
  destruct (mark_store lo pk s1 mark Hc1 Hm) as (m & Hst & Hc2).
  pose proof (cr_path _ _ _ Hc) as Hp. rewrite Hd in Hp.
  erewrite ex_stx; [|code_tac|subst s1; reg_tac|subst s1; reg_tac|].
  2:{ rewrite <- Hp. change (s16 offsetof_sk_buff_mark) with offsetof_sk_buff_mark. rewrite <- Hmk.
      rewrite <- Hst. unfold store. f_equal. change (size_bytes BPF_W) with 4%nat.
      apply le_split_ext. change (256 ^ Z.of_nat 4) with (2 ^ 32).
      transitivity (u32 (u64 (s32 mark))); [done|]. unfold u32, u64.
      change (2 ^ 64) with (2 ^ 32 * 2 ^ 32).
      rewrite Z.rem_mul_r, Z.mul_comm, Z_mod_plus_full, Z.mod_mod by lia. apply (u32_s32 mark). }
  eexists. split; [reflexivity|]. done.
Qed.
End Mark.
