(* ===== verification/GenMeta.v ===== *)
(** Meta matchers: [src/bpfilter/cgen/matcher/meta.c].

    The specification [match_meta] is exact.  Where it departs from what the
    matcher's name promises (a comparison with a sign-extended immediate, an
    interface index read on 16 bits, a port 0), [match_meta_intended] gives the
    range where the two agree, and the theorems after it what happens outside. *)

From S2P Require Import Prelude Bytes Bpf Helper Hook Matcher BfSet Rule Chain Printer Program.
From S2P Require Import Block BlockExec Context Symbolic Match Stubs KernelSpec Swich Flavors GenL4.
From Stdlib Require Import SpecFloat.

(** * Generation *)

(** IEEE double precision, rounding to nearest. *)
Definition f64 (z : Z) : spec_float := binary_normalize 53 1024 z 0 false.
Definition f64_mul : spec_float -> spec_float -> spec_float := SFmul 53 1024.
Definition f64_div : spec_float -> spec_float -> spec_float := SFdiv 53 1024.

(** Conversion to an integer truncates. *)
Definition f64_trunc (f : spec_float) : Z :=
  match f with
  | S754_finite s m e =>
      let v := if 0 <=? e then Z.pos m * 2 ^ e else Z.pos m / 2 ^ (- e) in
      if s then - v else v
  | _ => 0
  end.

(** [(uint32_t)((uint64_t)UINT32_MAX * (proba / 100.0))] *)
Definition proba_threshold (proba : Z) : Z :=
  u32 (f64_trunc (f64_mul (f64 UINT32_MAX) (f64_div (f64 proba) (f64 100)))).

Definition _bf_matcher_generate_meta_iface (m : bf_matcher) : gen unit :=
  payload_read 4 m ;;
  EMIT (BPF_LDX_MEM BPF_H BPF_REG_1 BPF_REG_10 (BF_PROG_CTX_OFF RT_ifindex)) ;;
  EMIT_FIXUP_JMP_NEXT_RULE (BPF_JMP_IMM BPF_JNE BPF_REG_1 (payload_u32 m) 0).

Definition _bf_matcher_generate_meta_l3_proto (m : bf_matcher) : gen unit :=
  payload_read 2 m ;;
  EMIT_FIXUP_JMP_NEXT_RULE (BPF_JMP_IMM BPF_JNE BPF_REG_7 (htobe16 (payload_u16 m)) 0).

Definition _bf_matcher_generate_meta_l4_proto (m : bf_matcher) : gen unit :=
  payload_read 1 m ;;
  EMIT_FIXUP_JMP_NEXT_RULE
    (BPF_JMP_IMM (if decide (matcher_op m = BF_MATCHER_EQ) then BPF_JNE else BPF_JEQ)
                 BPF_REG_8 (payload_u8 m) 0).

Definition _bf_matcher_generate_meta_probability (m : bf_matcher) : gen unit :=
  payload_read 1 m ;;
  let proba := payload_u8 m in
  EMIT (BPF_EMIT_CALL BPF_FUNC_get_prandom_u32) ;;
  EMIT_FIXUP_JMP_NEXT_RULE (BPF_JMP_IMM BPF_JGT BPF_REG_0 (proba_threshold proba) 0).

Definition meta_port_swich (m : bf_matcher) : bf_swich :=
  let offset := if decide (matcher_type m = BF_MATCHER_META_SPORT)
                then offsetof_l4_source else offsetof_l4_dest in
  let swich := bf_swich_init BPF_REG_8 in
  let swich := bf_swich_add_option swich IPPROTO_TCP [BPF_LDX_MEM BPF_H BPF_REG_1 BPF_REG_6 offset] in
  let swich := bf_swich_add_option swich IPPROTO_UDP [BPF_LDX_MEM BPF_H BPF_REG_1 BPF_REG_6 offset] in
  bf_swich_set_default swich [BPF_MOV64_IMM BPF_REG_1 0].

Definition _bf_matcher_generate_meta_port (m : bf_matcher) : gen unit :=
  payload_read (port_payload m) m ;;
  let port := payload_u16 m in
  EMIT (BPF_LDX_MEM BPF_DW BPF_REG_6 BPF_REG_10 (BF_PROG_CTX_OFF RT_l4_hdr)) ;;
  bf_swich_generate (meta_port_swich m) ;;
  EMIT_FIXUP_JMP_NEXT_RULE (BPF_JMP_IMM BPF_JEQ BPF_REG_1 0 0) ;;
  match matcher_op m with
  | BF_MATCHER_EQ => EMIT_FIXUP_JMP_NEXT_RULE (BPF_JMP_IMM BPF_JNE BPF_REG_1 port 0)
  | BF_MATCHER_NE => EMIT_FIXUP_JMP_NEXT_RULE (BPF_JMP_IMM BPF_JEQ BPF_REG_1 port 0)
  | BF_MATCHER_RANGE =>
      EMIT (BPF_BSWAP BPF_REG_1 16) ;;
      EMIT_FIXUP_JMP_NEXT_RULE (BPF_JMP_IMM BPF_JLT BPF_REG_1 (payload_u16_at 0 m) 0) ;;
      EMIT_FIXUP_JMP_NEXT_RULE (BPF_JMP_IMM BPF_JGT BPF_REG_1 (payload_u16_at 1 m) 0)
  | _ => gen_err (- EINVAL)
  end.

Section Generate.
Context `{CgenEnv}.

(** Calling a callback that is not set has no result. *)
Definition _bf_matcher_generate_meta_mark (m : bf_matcher) : gen unit :=
  payload_read 4 m ;;
  let mark := payload_u32 m in
  p ← gen_get;
  (match gen_inline_get_mark (prog_flavor p) with
   | Some get_mark => get_mark BPF_REG_1
   | None => gen_err (- BF_CRASH)
   end) ;;
  match matcher_op m with
  | BF_MATCHER_EQ => EMIT_FIXUP_JMP_NEXT_RULE (BPF_JMP_IMM BPF_JNE BPF_REG_1 mark 0)
  | BF_MATCHER_NE => EMIT_FIXUP_JMP_NEXT_RULE (BPF_JMP_IMM BPF_JEQ BPF_REG_1 mark 0)
  | _ => gen_err (- EINVAL)
  end.

Definition bf_matcher_generate_meta (m : bf_matcher) : gen unit :=
  match matcher_type m with
  | BF_MATCHER_META_IFACE => _bf_matcher_generate_meta_iface m
  | BF_MATCHER_META_L3_PROTO => _bf_matcher_generate_meta_l3_proto m
  | BF_MATCHER_META_L4_PROTO => _bf_matcher_generate_meta_l4_proto m
  | BF_MATCHER_META_PROBABILITY => _bf_matcher_generate_meta_probability m
  | BF_MATCHER_META_SPORT | BF_MATCHER_META_DPORT => _bf_matcher_generate_meta_port m
  | BF_MATCHER_META_MARK => _bf_matcher_generate_meta_mark m
  | _ => gen_err (- EINVAL)
  end.
End Generate.

(** * Meaning *)

(** What a 64-bit comparison with a 32-bit immediate compares with. *)
Definition imm_value (imm : Z) : Z := u64 (s32 imm).

Definition is_l4_port (pk : pkt) : bool :=
  (pk_l4proto pk =? IPPROTO_TCP) || (pk_l4proto pk =? IPPROTO_UDP).

Definition meta_port_field (t : bf_matcher_type) (pk : pkt) : list Z :=
  l4_field (if decide (t = BF_MATCHER_META_SPORT) then 0 else 2) 2 pk.

Definition match_meta_pkt (pk : pkt) (m : bf_matcher) : bool :=
  match matcher_type m with
  | BF_MATCHER_META_IFACE => u16 (pk_ifindex pk) =? imm_value (payload_u32 m)
  | BF_MATCHER_META_L3_PROTO => pk_l3proto pk =? htobe16 (payload_u16 m)
  | BF_MATCHER_META_L4_PROTO => eq_or_ne (matcher_op m) (pk_l4proto pk =? payload_u8 m)
  | BF_MATCHER_META_SPORT | BF_MATCHER_META_DPORT =>
      let field := meta_port_field (matcher_type m) pk in
      is_l4_port pk && negb (be16 field =? 0) && match_port (matcher_op m) field m
  | BF_MATCHER_META_MARK => eq_or_ne (matcher_op m) (pk_mark pk =? imm_value (payload_u32 m))
  | _ => false
  end.

Section Meaning.
Context {W : Type} `{Kernel W} (c : bf_chain) `{!StubHelpers W} `{!KernelSpec W c}.

Definition match_meta (m : bf_matcher) : mspec W := fun pk w =>
  match matcher_type m with
  | BF_MATCHER_META_PROBABILITY =>
      (fst (k_prandom w) <=? imm_value (proba_threshold (payload_u8 m)), snd (k_prandom w))
  | _ => (match_meta_pkt pk m, w)
  end.
End Meaning.

(** What the names of the matchers promise. *)
Definition match_meta_intended (pk : pkt) (m : bf_matcher) : bool :=
  match matcher_type m with
  | BF_MATCHER_META_IFACE => pk_ifindex pk =? payload_u32 m
  | BF_MATCHER_META_L3_PROTO => pk_l3proto pk =? htobe16 (payload_u16 m)
  | BF_MATCHER_META_L4_PROTO => eq_or_ne (matcher_op m) (pk_l4proto pk =? payload_u8 m)
  | BF_MATCHER_META_SPORT | BF_MATCHER_META_DPORT =>
      is_l4_port pk && match_port (matcher_op m) (meta_port_field (matcher_type m) pk) m
  | BF_MATCHER_META_MARK => eq_or_ne (matcher_op m) (pk_mark pk =? payload_u32 m)
  | _ => false
  end.

Lemma imm_value_small z : 0 <= z < 2 ^ 31 -> imm_value z = z.
Proof. apply u64_s32_small. Qed.

Lemma u32_imm_value z : u32 (imm_value z) = u32 z.
Proof.
  unfold imm_value, u64. rewrite <- (u32_s32 z). unfold u32. apply Z.mod_mod_divide. by exists (2 ^ 32).
Qed.

Lemma imm_value_large z : 2 ^ 31 <= z < 2 ^ 32 -> 2 ^ 64 - 2 ^ 31 <= imm_value z.
Proof. intros H. unfold imm_value. rewrite u64_s32_large by done. lia. Qed.

Lemma payload_u32_range m : matcher_wf m -> (4 <= length (matcher_payload m))%nat -> 0 <= payload_u32 m < 2 ^ 32.
Proof.
  intros Hwf Hl. unfold payload_u32.
  pose proof (le_combine_bound (take 4 (matcher_payload m)) ltac:(apply is_bytes_take, Hwf)) as B.
  rewrite length_take, Nat.min_l in B by lia. exact B.
Qed.

(** * Correctness *)

Lemma load_low m a n k v : (n <= k)%nat -> load m k a = Some v -> mem_bytes m ->
  load m n a = Some (v mod 256 ^ Z.of_nat n).
Proof.
  intros Hn Hl Hm. replace k with (n + (k - n))%nat in Hl by lia. unfold load in *.
  rewrite load_bytes_app in Hl. destruct (load_bytes m a n) as [x|] eqn:E; [|done].
  destruct (load_bytes m (a + Z.of_nat n) (k - n)); [|done].
  injection Hl as <-. cbn [fmap option_fmap option_map]. f_equal.
  pose proof (load_bytes_is_bytes _ _ _ _ Hm E) as Hb.
  pose proof (load_bytes_length _ _ _ _ E) as Hlx.
  rewrite le_combine_app, Hlx, Z.mul_comm, Z_mod_plus_full.
  symmetry. apply Z.mod_small. rewrite <- Hlx. by apply le_combine_bound.
Qed.

Lemma be16_zero bs : is_bytes bs -> length bs = 2%nat -> (le_combine bs =? 0) = (be16 bs =? 0).
Proof.
  intros Hb Hl. destruct bs as [|h [|l []]]; try done.
  apply Forall_cons in Hb as [Hh Hb]. apply Forall_cons in Hb as [Hlo _].
  unfold is_byte in *. cbn [le_combine be16].
  destruct (Z.eqb_spec (h + 256 * (l + 256 * 0)) 0), (Z.eqb_spec (256 * h + l) 0); lia.
Qed.

Definition is_meta_type (t : bf_matcher_type) : bool :=
  match t with
  | BF_MATCHER_META_IFACE | BF_MATCHER_META_L3_PROTO | BF_MATCHER_META_L4_PROTO
  | BF_MATCHER_META_PROBABILITY | BF_MATCHER_META_SPORT | BF_MATCHER_META_DPORT
  | BF_MATCHER_META_MARK => true
  | _ => false
  end.

Section Correct.
Context `{CgenEnv} {W : Type} `{Kernel W} (c : bf_chain) `{!StubHelpers W} `{!KernelSpec W c}
  (fl : bf_flavor) (lo : layout).

Lemma block_iface (imm : Z) :
  block_matches lo [ISingle (BPF_LDX_MEM BPF_H BPF_REG_1 BPF_REG_10 (BF_PROG_CTX_OFF RT_ifindex)) None;
                    ISingle (BPF_JMP_IMM BPF_JNE BPF_REG_1 imm 0) JMP]
    (pure_match (W := W) (fun pk => u16 (pk_ifindex pk) =? imm_value imm)).
Proof.
  intros pk s Hc. cbn [pure_match fst snd].
  erewrite ex_ldx; [|code_tac|apply Hc|].
  2:{ rewrite ctx_off_s16. change (size_bytes BPF_H) with 2%nat.
      apply (load_low _ _ _ 4); [lia|apply (cr_ifindex _ _ _ Hc)|apply Hc]. }
  erewrite ex_jmp_imm_rule; [|code_tac|reg_tac|done].
  change (256 ^ Z.of_nat 2) with (2 ^ 16). fold (u16 (pk_ifindex pk)). fold (imm_value imm).
  eexists. split; [|split; [|destruct (u16 (pk_ifindex pk) =? imm_value imm); reflexivity]];
    [ctx_tac|done].
Qed.

Lemma block_reg_eq_or_ne (reg imm : Z) op (f : pkt -> Z) : 0 <= imm < 2 ^ 31 ->
  (forall pk (s : vm W), ctx_rel lo pk s -> regs s !! reg = Some (f pk)) ->
  block_matches lo
    [ISingle (BPF_JMP_IMM (if decide (op = BF_MATCHER_EQ) then BPF_JNE else BPF_JEQ) reg imm 0) JMP]
    (pure_match (W := W) (fun pk => eq_or_ne op (f pk =? imm))).
Proof.
  intros Hi Hr pk s Hc. cbn [pure_match fst snd]. exists s. split_and!; [done..|].
  erewrite ex_jmp_imm_rule; [|apply op_jmp_code|by apply Hr|apply op_jcc].
  rewrite u64_s32_small by done. by destruct (eq_or_ne op _).
Qed.

Lemma block_probability (t : Z) :
  block_matches lo [ISingle (BPF_EMIT_CALL BPF_FUNC_get_prandom_u32) None;
                    ISingle (BPF_JMP_IMM BPF_JGT BPF_REG_0 t 0) JMP]
    (fun (pk : pkt) w => (fst (k_prandom w) <=? imm_value t, snd (k_prandom w))).
Proof.
  intros pk s Hc. cbn [fst snd]. erewrite ex_helper; [|done|apply k_prandom_ext].
  erewrite ex_jmp_imm_rule; [|code_tac|reg_tac|done]. fold (imm_value t). rewrite Z.ltb_antisym.
  eexists. split; [|split; [|destruct (fst (k_prandom (world s)) <=? imm_value t); reflexivity]].
  - by apply ctx_rel_clobber.
  - done.
Qed.

Lemma block_mark b0 imm op : eq_ne_op op = true ->
  (forall pk (s : vm W) b', ctx_rel lo pk s ->
      exists s', exec (b0 ++ b') 0 s = exec b' 0 s' /\ ctx_rel lo pk s' /\ world s' = world s /\
        regs s' !! 1 = Some (pk_mark pk)) ->
  block_matches lo
    (b0 ++ [ISingle (BPF_JMP_IMM (if decide (op = BF_MATCHER_EQ) then BPF_JNE else BPF_JEQ)
                                 BPF_REG_1 imm 0) JMP])
    (pure_match (W := W) (fun pk => eq_or_ne op (pk_mark pk =? imm_value imm))).
Proof.
  intros Ho Hb pk s Hc. cbn [pure_match fst snd].
  edestruct (Hb pk s) as (s' & -> & Hc' & <- & Hr); [done|].
  exists s'. split_and!; [done..|].
  erewrite ex_jmp_imm_rule; [|apply op_jmp_code|exact Hr|apply op_jcc].
  fold (imm_value imm). by destruct (eq_or_ne op _).
Qed.

(** ** The ports *)

Lemma meta_port_swich_fields m :
  swich_reg (meta_port_swich m) = 8 /\
  swich_default (meta_port_swich m) = Some (mk_swich_option 0 [BPF_MOV64_IMM BPF_REG_1 0]) /\
  imms_ok (swich_options (meta_port_swich m)).
Proof. split; [done|]. split; [done|]. repeat (apply Forall_cons_2; [by vm_compute|]). constructor. Qed.

(** R1 after the switch: the port, or 0 without a transport header. *)
Lemma exec_meta_port_swich pk (s : vm W) m b : ctx_rel lo pk s ->
  (is_l4_port pk = true -> regs s !! 6 = Some (lo_l4 lo)) ->
  exists s', exec (swich_block (meta_port_swich m) ++ b) 0 s = exec b 0 s' /\ ctx_rel lo pk s' /\
    world s' = world s /\
    regs s' !! 1 = Some (if is_l4_port pk then le_combine (meta_port_field (matcher_type m) pk) else 0).
Proof.
  intros Hc H6. pose proof (meta_port_swich_fields m) as (Hr & Hd & Hi).
  assert (exists v s', exec (plain (default [BPF_MOV64_IMM BPF_REG_1 0]
      (swich_select (swich_options (meta_port_swich m)) (pk_l4proto pk)))) 0 s = BFall 0 s' /\
      s' = set_reg 1 v s /\
      v = if is_l4_port pk then le_combine (meta_port_field (matcher_type m) pk) else 0)
    as (v & s' & He & -> & Hv).
  { unfold is_l4_port in *. cbn [meta_port_swich swich_options bf_swich_set_default bf_swich_add_option
      bf_swich_init app swich_select _bf_swich_option_new opt_imm opt_insns].
    change (u32 IPPROTO_TCP) with IPPROTO_TCP. change (u32 IPPROTO_UDP) with IPPROTO_UDP.
    assert (forall o : nat, (o = 0 \/ o = 2)%nat ->
      (pk_l4proto pk =? IPPROTO_TCP) || (pk_l4proto pk =? IPPROTO_UDP) = true ->
      exec [ISingle (BPF_LDX_MEM BPF_H BPF_REG_1 BPF_REG_6 (Z.of_nat o)) None] 0 s =
      BFall 0 (set_reg 1 (le_combine (l4_field o 2 pk)) s)) as Hld.
    { intros o Ho Hp. specialize (H6 Hp). erewrite ex_ldx; [|code_tac|exact H6|apply l4_load; [done|lia|]].
      - by rewrite Nat2Z.id.
      - change (size_bytes BPF_H) with 2%nat. apply orb_prop in Hp as [Hp|Hp]; apply Z.eqb_eq in Hp.
        + pose proof (pw_tcp _ (cr_pkt _ _ _ Hc) Hp). lia.
        + pose proof (pw_udp _ (cr_pkt _ _ _ Hc) Hp). lia. }
    unfold meta_port_field, offsetof_l4_source, offsetof_l4_dest.
    destruct (pk_l4proto pk =? IPPROTO_TCP) eqn:Et; [|destruct (pk_l4proto pk =? IPPROTO_UDP) eqn:Eu];
      cbn [orb default from_option id fmap list_fmap].
    - case_decide; eexists _, _; (split; [first [apply (Hld 0%nat)|apply (Hld 2%nat)]; auto|done]).
    - case_decide; eexists _, _; (split; [first [apply (Hld 0%nat)|apply (Hld 2%nat)]; auto|done]).
    - by eexists _, _. }
  exists (set_reg 1 v s). rewrite exec_app.
  rewrite (exec_swich _ _ (pk_l4proto pk) s (set_reg 1 v s) Hd); [|rewrite Hr; apply Hc|done|done|done].
  split_and!; [done|ctx_tac|done|]. rewrite <- Hv. reg_tac.
Qed.

Lemma block_meta_port m : matcher_wf m -> (2 <= length (matcher_payload m))%nat ->
  port_op (matcher_op m) = true ->
  block_matches lo
    ([ISingle (BPF_LDX_MEM BPF_DW BPF_REG_6 BPF_REG_10 (BF_PROG_CTX_OFF RT_l4_hdr)) None] ++
     swich_block (meta_port_swich m) ++
     [ISingle (BPF_JMP_IMM BPF_JEQ BPF_REG_1 0 0) JMP] ++ port_block m)
    (pure_match (W := W) (fun pk => let field := meta_port_field (matcher_type m) pk in
       is_l4_port pk && negb (be16 field =? 0) && match_port (matcher_op m) field m)).
Proof.
  intros Hwf Hl Hop pk s Hc. cbn [app pure_match fst snd].
  assert (exists v, load (mem s) (size_bytes BPF_DW) (lo_fp lo + s16 (BF_PROG_CTX_OFF RT_l4_hdr)) = Some v /\
    (is_l4_port pk = true -> v = lo_l4 lo)) as (v & Hv & Hv4).
  { rewrite ctx_off_s16. destruct (is_l4_port pk) eqn:E.
    - exists (lo_l4 lo). split; [|done]. apply (cr_l4_hdr _ _ _ Hc). intros E0.
      unfold is_l4_port in E. by rewrite E0 in E.
    - destruct (stack_load lo pk s (BF_PROG_CTX_OFF RT_l4_hdr) 8 Hc) as (bs & Hbs & _); [done|done|].
      exists (le_combine bs). split; [|done]. unfold load. change (size_bytes BPF_DW) with 8%nat. by rewrite Hbs. }
  erewrite ex_ldx; [|code_tac|apply Hc|exact Hv].
  edestruct (exec_meta_port_swich pk (set_reg BPF_REG_6 v s) m) as (s1 & -> & Hc1 & Hw1 & Hr1).
  { ctx_tac. }
  { intros E. vm_simpl. rewrite lookup_insert_eq. by rewrite Hv4. }
  erewrite ex_jmp_imm_rule; [|code_tac|exact Hr1|done]. change (u64 (s32 0)) with 0.
  destruct (is_l4_port pk) eqn:E; cbn [andb].
  - set (field := meta_port_field (matcher_type m) pk) in *.
    assert (length field = 2%nat /\ is_bytes field) as [Hfl Hfb].
    { unfold field, meta_port_field, l4_field. split; [|apply is_bytes_sub, Hc].
      apply length_sub_bytes. unfold is_l4_port in E.
      apply orb_prop in E as [Hp|Hp]; apply Z.eqb_eq in Hp;
        [pose proof (pw_tcp _ (cr_pkt _ _ _ Hc) Hp)|pose proof (pw_udp _ (cr_pkt _ _ _ Hc) Hp)];
        case_decide; lia. }
    rewrite be16_zero by done. destruct (be16 field =? 0); cbn [negb andb].
    + exists s1. by rewrite Hw1.
    + destruct (exec_port_block lo pk s1 m field) as (s2 & ? & Hw2 & ->);
        [done|done|done|done|apply Hwf|done|done|].
      exists s2. by rewrite Hw2, Hw1.
  - exists s1. by rewrite Hw1.
Qed.

(** ** The generator *)

Lemma gemits_meta_port m : (port_payload m <= length (matcher_payload m))%nat -> port_op (matcher_op m) = true ->
  gemits c fl (_bf_matcher_generate_meta_port m)
    ([ISingle (BPF_LDX_MEM BPF_DW BPF_REG_6 BPF_REG_10 (BF_PROG_CTX_OFF RT_l4_hdr)) None] ++
     swich_block (meta_port_swich m) ++
     [ISingle (BPF_JMP_IMM BPF_JEQ BPF_REG_1 0 0) JMP] ++ port_block m).
Proof.
  intros Hl Ho. unfold _bf_matcher_generate_meta_port. apply gemits_payload; [done|].
  apply gemits_seq; [gen_emit|]. apply gemits_seq; [apply gemits_swich|].
  apply gemits_seq; [gen_emit|]. by apply gemits_port_cmp.
Qed.

Lemma gen_meta_mark_matches m : matcher_wf m -> matcher_type m = BF_MATCHER_META_MARK ->
  eq_ne_op (matcher_op m) = true -> mark_layout fl lo ->
  gen_matches c fl lo (_bf_matcher_generate_meta_mark m) (match_meta c m).
Proof.
  intros Hwf Ht Ho Hl.
  assert (exists g, gen_inline_get_mark fl = Some g) as [g Hg] by (destruct fl; first [by destruct Hl | by eexists]).
  destruct (gen_get_mark (W := W) c fl lo g Hl Hg) as (b0 & Hb0 & He0).
  exists (b0 ++ [ISingle (BPF_JMP_IMM (if decide (matcher_op m = BF_MATCHER_EQ) then BPF_JNE else BPF_JEQ)
                                      BPF_REG_1 (payload_u32 m) 0) JMP]).
  split.
  - apply gemits_payload; [rewrite (matcher_len m Hwf), Ht; done|].
    intros p Hp. unfold mbind at 1, gen_bind at 1, gen_get.
    replace (prog_flavor p) with fl by (symmetry; apply Hp). rewrite Hg.
    revert p Hp. apply gemits_seq; [done|].
    destruct (matcher_op m); try discriminate Ho; gen_emit.
  - intros pk s Hc. unfold match_meta. rewrite Ht.
    unfold match_meta_pkt. rewrite Ht. by apply (block_mark b0 (payload_u32 m) (matcher_op m) Ho He0 pk s).
Qed.

Lemma gen_meta_matches m : matcher_wf m -> is_meta_type (matcher_type m) = true ->
  (matcher_type m = BF_MATCHER_META_MARK -> mark_layout fl lo) ->
  gen_matches c fl lo (bf_matcher_generate_meta m) (match_meta c m).
Proof.
  intros Hwf Ht Hl. pose proof (matcher_len m Hwf) as Hlen.
  assert (matcher_op m <> BF_MATCHER_IN) as Hin.
  { pose proof (matcher_op_supported m Hwf) as Hs. intros E. rewrite E in Hs.
    destruct (matcher_type m); try discriminate Ht; by specialize (Hs ltac:(done)). }
  pose proof (op_of_meta m Hwf Hin) as Hop. pose proof (mw_bytes m Hwf) as Hb.
  unfold bf_matcher_generate_meta, match_meta, match_meta_pkt.
  destruct (matcher_type m) eqn:E; try discriminate Ht; cbn in Hlen.
  - eexists. split; [unfold _bf_matcher_generate_meta_iface; gen_emit|]. apply block_iface.
  - eexists. split; [unfold _bf_matcher_generate_meta_l3_proto; gen_emit|].
    pose proof (bswap16_range (payload_u16 m)).
    apply (block_reg_eq_or_ne BPF_REG_7 (htobe16 (payload_u16 m)) BF_MATCHER_EQ pk_l3proto).
    + unfold htobe16. lia.
    + intros pk s Hc. apply Hc.
  - eexists. split; [unfold _bf_matcher_generate_meta_l4_proto; gen_emit|].
    pose proof (le_combine_u8 (take 1 (matcher_payload m)) ltac:(auto with bf) ltac:(rewrite length_take; lia)).
    apply (block_reg_eq_or_ne BPF_REG_8 (payload_u8 m) (matcher_op m) pk_l4proto).
    + unfold payload_u8. lia.
    + intros pk s Hc. apply Hc.
  - eexists. split; [unfold _bf_matcher_generate_meta_probability; gen_emit|]. apply block_probability.
  - eexists. split; [apply gemits_meta_port; [apply port_payload_fits; [done|by rewrite E]|done]|].
    rewrite <- E. apply (block_meta_port m); [done| |done].
    rewrite Hlen. case_decide; lia.
  - eexists. split; [apply gemits_meta_port; [apply port_payload_fits; [done|by rewrite E]|done]|].
    rewrite <- E. apply (block_meta_port m); [done| |done].
    rewrite Hlen. case_decide; lia.
  - pose proof (gen_meta_mark_matches m Hwf E Hop (Hl eq_refl)) as Hm.
    unfold match_meta, match_meta_pkt in Hm. by rewrite E in Hm.
Qed.
End Correct.
