(* ===== verification/Stub.v ===== *)
(** The pieces of code shared by the prologues and the matchers:
    [src/bpfilter/cgen/stub.c]. *)

From S2P Require Import Prelude Bytes Bpf Helper Hook Matcher BfSet Rule Chain Printer Program.
From S2P Require Import Block BlockExec Context Symbolic Match Swich Flavors.

Definition sizeof_ethhdr : Z := 14.
Definition sizeof_iphdr : Z := 20.
Definition sizeof_ipv6hdr : Z := 40.
Definition sizeof_tcphdr : Z := 20.
Definition sizeof_udphdr : Z := 8.
Definition sizeof_icmphdr : Z := 8.
Definition sizeof_icmp6hdr : Z := 8.
Definition offsetof_ethhdr_h_proto : Z := 12.

Definition _BF_LOW_EH_BITMASK : Z := 0x1801800000000801.

(** * Parsing the headers *)

Section Stubs.
Context `{CgenEnv}.

(** [program->runtime.ops->get_verdict(verdict)]: the verdict is read out of a
    table. *)
Definition gen_verdict (verdict : bf_verdict) : gen Z :=
  p ← gen_get; gen_lift (of_option (- BF_CRASH) (get_verdict (prog_flavor p) verdict)).

(** Count an error, print the message in verbose mode, and accept. *)
Definition gen_quit (msg : string) : gen unit :=
  EMIT (BPF_MOV64_REG BPF_REG_1 BPF_REG_10) ;;
  EMIT (BPF_ALU64_IMM BPF_ADD BPF_REG_1 (BF_PROG_CTX_OFF RT_arg)) ;;
  EMIT_LOAD_COUNTERS_FD_FIXUP BPF_REG_2 ;;
  p ← gen_get;
  EMIT (BPF_MOV32_IMM BPF_REG_3 (bf_program_error_counter_idx p)) ;;
  EMIT_FIXUP_ELFSTUB BF_ELFSTUB_UPDATE_COUNTERS ;;
  (if bf_opts_is_verbose_bpf then EMIT_PRINT msg else mret tt) ;;
  verdict ← gen_verdict BF_VERDICT_ACCEPT;
  EMIT (BPF_MOV64_IMM BPF_REG_0 verdict) ;;
  EMIT BPF_EXIT_INSN.

Definition _bf_stub_make_ctx_dynptr (arg_reg : Z) (kfunc : string) : gen unit :=
  (if decide (arg_reg = BPF_REG_1) then mret tt
   else EMIT (BPF_MOV64_IMM BPF_REG_1 arg_reg)) ;;
  EMIT (BPF_MOV64_IMM BPF_REG_2 0) ;;
  EMIT (BPF_MOV64_REG BPF_REG_3 BPF_REG_10) ;;
  EMIT (BPF_ALU64_IMM BPF_ADD BPF_REG_3 (BF_PROG_CTX_OFF RT_dynptr)) ;;
  bf_program_emit_kfunc_call kfunc ;;
  with_jmpctx (BPF_JMP_IMM BPF_JEQ BPF_REG_0 0 0)
    (gen_quit "failed to create a new dynamic pointer").

Definition bf_stub_make_ctx_xdp_dynptr (md_reg : Z) : gen unit :=
  _bf_stub_make_ctx_dynptr md_reg "bpf_dynptr_from_xdp".

Definition bf_stub_make_ctx_skb_dynptr (skb_reg : Z) : gen unit :=
  _bf_stub_make_ctx_dynptr skb_reg "bpf_dynptr_from_skb".

Definition bf_stub_parse_l2_ethhdr : gen unit :=
  EMIT (BPF_MOV64_REG BPF_REG_1 BPF_REG_10) ;;
  EMIT (BPF_ALU64_IMM BPF_ADD BPF_REG_1 (BF_PROG_CTX_OFF RT_dynptr)) ;;
  EMIT (BPF_MOV64_IMM BPF_REG_2 0) ;;
  EMIT (BPF_MOV64_REG BPF_REG_3 BPF_REG_10) ;;
  EMIT (BPF_ALU64_IMM BPF_ADD BPF_REG_3 (BF_PROG_CTX_OFF RT_l2)) ;;
  EMIT (BPF_MOV64_IMM BPF_REG_4 sizeof_ethhdr) ;;
  EMIT (BPF_STX_MEM BPF_B BPF_REG_10 BPF_REG_4 (BF_PROG_CTX_OFF RT_l2_size)) ;;
  bf_program_emit_kfunc_call "bpf_dynptr_slice" ;;
  with_jmpctx (BPF_JMP_IMM BPF_JNE BPF_REG_0 0 0)
    (gen_quit "failed to create L2 dynamic pointer slice") ;;
  EMIT (BPF_STX_MEM BPF_DW BPF_REG_10 BPF_REG_0 (BF_PROG_CTX_OFF RT_l2_hdr)) ;;
  EMIT (BPF_LDX_MEM BPF_H BPF_REG_7 BPF_REG_0 offsetof_ethhdr_h_proto) ;;
  EMIT (BPF_ST_MEM BPF_W BPF_REG_10 (BF_PROG_CTX_OFF RT_l3_offset) sizeof_ethhdr).

Definition l3_hdr_swich : bf_swich :=
  let swich := bf_swich_init BPF_REG_7 in
  let swich := bf_swich_add_option swich (htobe16 ETH_P_IP) [BPF_MOV64_IMM BPF_REG_4 sizeof_iphdr] in
  let swich := bf_swich_add_option swich (htobe16 ETH_P_IPV6) [BPF_MOV64_IMM BPF_REG_4 sizeof_ipv6hdr] in
  bf_swich_set_default swich [BPF_MOV64_IMM BPF_REG_7 0].

(** The IPv4 scope: the header's length gives the transport header. *)
Definition parse_l3_ip4 : gen unit :=
  EMIT (BPF_LDX_MEM BPF_B BPF_REG_1 BPF_REG_0 0) ;;
  EMIT (BPF_ALU64_IMM BPF_AND BPF_REG_1 0x0f) ;;
  EMIT (BPF_ALU64_IMM BPF_LSH BPF_REG_1 2) ;;
  EMIT (BPF_LDX_MEM BPF_W BPF_REG_2 BPF_REG_10 (BF_PROG_CTX_OFF RT_l3_offset)) ;;
  EMIT (BPF_ALU64_REG BPF_ADD BPF_REG_1 BPF_REG_2) ;;
  EMIT (BPF_STX_MEM BPF_W BPF_REG_10 BPF_REG_1 (BF_PROG_CTX_OFF RT_l4_offset)) ;;
  EMIT (BPF_LDX_MEM BPF_B BPF_REG_8 BPF_REG_0 offsetof_iphdr_protocol).

(** The IPv6 scope: TCP and UDP go the fast way, next headers that are
    extension headers call the stub that walks them. *)
Definition parse_l3_ip6 : gen unit :=
  let ld64 := BPF_LD_IMM64 BPF_REG_2 _BF_LOW_EH_BITMASK in
  EMIT (BPF_LDX_MEM BPF_B BPF_REG_8 BPF_REG_0 offsetof_ipv6hdr_nexthdr) ;;
  tcpjmp ← bf_jmpctx_get (BPF_JMP_IMM BPF_JEQ BPF_REG_8 IPPROTO_TCP 0);
  udpjmp ← bf_jmpctx_get (BPF_JMP_IMM BPF_JEQ BPF_REG_8 IPPROTO_UDP 0);
  emit_all ld64 ;;
  EMIT (BPF_JMP_IMM BPF_JGE BPF_REG_8 64 4) ;;
  EMIT (BPF_MOV64_IMM BPF_REG_3 1) ;;
  EMIT (BPF_ALU64_REG BPF_LSH BPF_REG_3 BPF_REG_8) ;;
  EMIT (BPF_ALU64_REG BPF_AND BPF_REG_3 BPF_REG_2) ;;
  EMIT (BPF_JMP_IMM BPF_JNE BPF_REG_3 0 4) ;;
  EMIT (BPF_JMP_IMM BPF_JEQ BPF_REG_8 135 3) ;;
  EMIT (BPF_JMP_IMM BPF_JEQ BPF_REG_8 139 2) ;;
  EMIT (BPF_JMP_IMM BPF_JEQ BPF_REG_8 140 1) ;;
  noehjmp ← bf_jmpctx_get (BPF_JMP_A 0);
  EMIT (BPF_MOV64_REG BPF_REG_1 BPF_REG_10) ;;
  EMIT (BPF_ALU64_IMM BPF_ADD BPF_REG_1 (BF_PROG_CTX_OFF RT_arg)) ;;
  p ← gen_get;
  (if chain_has (prog_chain p) BF_CHAIN_STORE_NEXTHDR
   then EMIT_FIXUP_ELFSTUB BF_ELFSTUB_PARSE_IPV6_NH
   else EMIT_FIXUP_ELFSTUB BF_ELFSTUB_PARSE_IPV6_EH) ;;
  EMIT (BPF_MOV64_REG BPF_REG_8 BPF_REG_0) ;;
  ehjmp ← bf_jmpctx_get (BPF_JMP_A 0);
  bf_jmpctx_cleanup tcpjmp ;;
  bf_jmpctx_cleanup udpjmp ;;
  bf_jmpctx_cleanup noehjmp ;;
  EMIT (BPF_LDX_MEM BPF_W BPF_REG_2 BPF_REG_10 (BF_PROG_CTX_OFF RT_l3_offset)) ;;
  EMIT (BPF_ALU64_IMM BPF_ADD BPF_REG_2 sizeof_ipv6hdr) ;;
  EMIT (BPF_STX_MEM BPF_W BPF_REG_10 BPF_REG_2 (BF_PROG_CTX_OFF RT_l4_offset)) ;;
  bf_jmpctx_cleanup ehjmp.

(** The slice's buffer is [l2], as the source has it. *)
Definition bf_stub_parse_l3_hdr : gen unit :=
  bf_swich_generate l3_hdr_swich ;;
  with_jmpctx (BPF_JMP_IMM BPF_JEQ BPF_REG_7 0 0) (
    EMIT (BPF_STX_MEM BPF_B BPF_REG_10 BPF_REG_4 (BF_PROG_CTX_OFF RT_l3_size)) ;;
    EMIT (BPF_MOV64_REG BPF_REG_1 BPF_REG_10) ;;
    EMIT (BPF_ALU64_IMM BPF_ADD BPF_REG_1 (BF_PROG_CTX_OFF RT_dynptr)) ;;
    EMIT (BPF_LDX_MEM BPF_W BPF_REG_2 BPF_REG_10 (BF_PROG_CTX_OFF RT_l3_offset)) ;;
    EMIT (BPF_MOV64_REG BPF_REG_3 BPF_REG_10) ;;
    EMIT (BPF_ALU64_IMM BPF_ADD BPF_REG_3 (BF_PROG_CTX_OFF RT_l2)) ;;
    bf_program_emit_kfunc_call "bpf_dynptr_slice" ;;
    with_jmpctx (BPF_JMP_IMM BPF_JNE BPF_REG_0 0 0)
      (gen_quit "failed to create L3 dynamic pointer slice") ;;
    EMIT (BPF_STX_MEM BPF_DW BPF_REG_10 BPF_REG_0 (BF_PROG_CTX_OFF RT_l3_hdr)) ;;
    with_jmpctx (BPF_JMP_IMM BPF_JNE BPF_REG_7 (htobe16 ETH_P_IP) 0) parse_l3_ip4 ;;
    with_jmpctx (BPF_JMP_IMM BPF_JNE BPF_REG_7 (htobe16 ETH_P_IPV6) 0) parse_l3_ip6).

Definition l4_hdr_swich : bf_swich :=
  let swich := bf_swich_init BPF_REG_8 in
  let swich := bf_swich_add_option swich IPPROTO_TCP [BPF_MOV64_IMM BPF_REG_4 sizeof_tcphdr] in
  let swich := bf_swich_add_option swich IPPROTO_UDP [BPF_MOV64_IMM BPF_REG_4 sizeof_udphdr] in
  let swich := bf_swich_add_option swich IPPROTO_ICMP [BPF_MOV64_IMM BPF_REG_4 sizeof_icmphdr] in
  let swich := bf_swich_add_option swich IPPROTO_ICMPV6 [BPF_MOV64_IMM BPF_REG_4 sizeof_icmp6hdr] in
  bf_swich_set_default swich [BPF_MOV64_IMM BPF_REG_8 0].

Definition bf_stub_parse_l4_hdr : gen unit :=
  bf_swich_generate l4_hdr_swich ;;
  with_jmpctx (BPF_JMP_IMM BPF_JEQ BPF_REG_8 0 0) (
    EMIT (BPF_STX_MEM BPF_B BPF_REG_10 BPF_REG_4 (BF_PROG_CTX_OFF RT_l4_size)) ;;
    EMIT (BPF_MOV64_REG BPF_REG_1 BPF_REG_10) ;;
    EMIT (BPF_ALU64_IMM BPF_ADD BPF_REG_1 (BF_PROG_CTX_OFF RT_dynptr)) ;;
    EMIT (BPF_LDX_MEM BPF_W BPF_REG_2 BPF_REG_10 (BF_PROG_CTX_OFF RT_l4_offset)) ;;
    EMIT (BPF_MOV64_REG BPF_REG_3 BPF_REG_10) ;;
    EMIT (BPF_ALU64_IMM BPF_ADD BPF_REG_3 (BF_PROG_CTX_OFF RT_l4)) ;;
    bf_program_emit_kfunc_call "bpf_dynptr_slice" ;;
    with_jmpctx (BPF_JMP_IMM BPF_JNE BPF_REG_0 0 0)
      (gen_quit "failed to create L4 dynamic pointer slice") ;;
    EMIT (BPF_STX_MEM BPF_DW BPF_REG_10 BPF_REG_0 (BF_PROG_CTX_OFF RT_l4_hdr))).
End Stubs.

(** * For the matchers *)

(** The conversions are [(uint16_t)] and [(uint8_t)] of the header's id. *)
Definition bf_stub_rule_check_protocol (meta : bf_matcher_meta) : gen unit :=
  match meta_layer meta with
  | BF_MATCHER_LAYER_3 =>
      EMIT_FIXUP_JMP_NEXT_RULE (BPF_JMP_IMM BPF_JNE BPF_REG_7 (htobe16 (u16 (meta_hdr_id meta))) 0)
  | BF_MATCHER_LAYER_4 =>
      EMIT_FIXUP_JMP_NEXT_RULE (BPF_JMP_IMM BPF_JNE BPF_REG_8 (u8 (meta_hdr_id meta)) 0)
  | _ => gen_err (- EINVAL)
  end.

Definition bf_stub_load_header (meta : bf_matcher_meta) (reg : Z) : gen unit :=
  match meta_layer meta with
  | BF_MATCHER_LAYER_3 => EMIT (BPF_LDX_MEM BPF_DW reg BPF_REG_10 (BF_PROG_CTX_OFF RT_l3_hdr))
  | BF_MATCHER_LAYER_4 => EMIT (BPF_LDX_MEM BPF_DW reg BPF_REG_10 (BF_PROG_CTX_OFF RT_l4_hdr))
  | _ => gen_err (- EINVAL)
  end.

(** The size of the next copy: the alignment tested is the one of the payload's
    offset in the key. *)
Definition stx_chunk (offset : Z) (remaining : nat) : Z * nat :=
  if (offset mod 8 =? 0) && (8 <=? remaining)%nat then (BPF_DW, 8%nat)
  else if (offset mod 4 =? 0) && (4 <=? remaining)%nat then (BPF_W, 4%nat)
  else if (offset mod 2 =? 0) && (2 <=? remaining)%nat then (BPF_H, 2%nat)
  else (BPF_B, 1%nat).

(** The loop; [fuel] bounds the number of copies and [remaining] is enough. *)
Fixpoint stx_payload_loop (meta : bf_matcher_meta) (offset : Z) (fuel remaining : nat)
    (src_offset dst_offset : Z) : gen unit :=
  match remaining with
  | O => mret tt
  | S _ =>
      match fuel with
      | O => gen_err (- EINVAL)
      | S fuel =>
          let '(bpf_size, copy_bytes) := stx_chunk offset remaining in
          EMIT (BPF_LDX_MEM bpf_size BPF_REG_1 BPF_REG_6 (meta_hdr_payload_offset meta + src_offset)) ;;
          EMIT (BPF_STX_MEM bpf_size BPF_REG_10 BPF_REG_1 (BF_PROG_SCR_OFF dst_offset)) ;;
          stx_payload_loop meta offset fuel (remaining - copy_bytes)
            (src_offset + Z.of_nat copy_bytes) (dst_offset + Z.of_nat copy_bytes)
      end
  end.

Definition bf_stub_stx_payload (meta : bf_matcher_meta) (offset : Z) : gen unit :=
  let n := Z.to_nat (meta_hdr_payload_size meta) in
  stx_payload_loop meta offset n n 0 offset.
