(* ===== verification/GenSet.v ===== *)
(** Set matchers: [src/bpfilter/cgen/matcher/set.c].

    The key is built in the scratch area of the runtime context out of the
    packet's fields, then looked up in the set's map. *)

From S2P Require Import Prelude Bytes Bpf Helper Hook Matcher BfSet Rule Chain Printer Program.
From S2P Require Import Block BlockExec Context Symbolic Match Stubs KernelSpec Swich Flavors Stub.

(** * Generation *)

Definition is_trie4 (t : bf_matcher_type) : bool :=
  negb (Z.land (type_flag t)
          (BF_FLAGS [bf_matcher_type_to_Z BF_MATCHER_IP4_SNET; bf_matcher_type_to_Z BF_MATCHER_IP4_DNET]) =? 0).
Definition is_trie6 (t : bf_matcher_type) : bool :=
  negb (Z.land (type_flag t)
          (BF_FLAGS [bf_matcher_type_to_Z BF_MATCHER_IP6_SNET; bf_matcher_type_to_Z BF_MATCHER_IP6_DNET]) =? 0).

(** The lookup both kinds of map end with; the key is at [off] of the scratch
    area. *)
Definition set_lookup (m : bf_matcher) (off : Z) : gen unit :=
  EMIT_LOAD_SET_FD_FIXUP BPF_REG_1 (payload_u32 m) ;;
  EMIT (BPF_MOV64_REG BPF_REG_2 BPF_REG_10) ;;
  EMIT (BPF_ALU64_IMM BPF_ADD BPF_REG_2 (BF_PROG_SCR_OFF off)) ;;
  EMIT (BPF_EMIT_CALL BPF_FUNC_map_lookup_elem) ;;
  EMIT_FIXUP_JMP_NEXT_RULE (BPF_JMP_IMM BPF_JEQ BPF_REG_0 0 0).

(** The key of the set is read before the test that there is one, and the
    metadata of its type is not tested. *)
Definition _bf_matcher_generate_set_trie (m : bf_matcher) : gen unit :=
  payload_read 4 m ;;
  p ← gen_get;
  match bf_chain_get_set_for_matcher (prog_chain p) m with
  | None => gen_err (- BF_CRASH)
  | Some set =>
      match set_key set with
      | [] => gen_err (- BF_CRASH)
      | type :: _ =>
          match bf_matcher_get_meta type with
          | None => gen_err (- BF_CRASH)
          | Some meta =>
              bf_stub_rule_check_protocol meta ;;
              bf_stub_load_header meta BPF_REG_6 ;;
              (if is_trie4 type then
                 EMIT (BPF_MOV64_IMM BPF_REG_1 32) ;;
                 EMIT (BPF_STX_MEM BPF_W BPF_REG_10 BPF_REG_1 (BF_PROG_SCR_OFF 4)) ;;
                 EMIT (BPF_LDX_MEM BPF_W BPF_REG_1 BPF_REG_6 (meta_hdr_payload_offset meta)) ;;
                 EMIT (BPF_STX_MEM BPF_W BPF_REG_10 BPF_REG_1 (BF_PROG_SCR_OFF 8))
               else if is_trie6 type then
                 EMIT (BPF_MOV64_IMM BPF_REG_1 128) ;;
                 EMIT (BPF_STX_MEM BPF_W BPF_REG_10 BPF_REG_1 (BF_PROG_SCR_OFF 4)) ;;
                 EMIT (BPF_LDX_MEM BPF_DW BPF_REG_1 BPF_REG_6 (meta_hdr_payload_offset meta)) ;;
                 EMIT (BPF_STX_MEM BPF_DW BPF_REG_10 BPF_REG_1 (BF_PROG_SCR_OFF 8)) ;;
                 EMIT (BPF_LDX_MEM BPF_DW BPF_REG_1 BPF_REG_6 (meta_hdr_payload_offset meta + 8)) ;;
                 EMIT (BPF_STX_MEM BPF_DW BPF_REG_10 BPF_REG_1 (BF_PROG_SCR_OFF 16))
               else gen_err (- EINVAL)) ;;
              set_lookup m 4
          end
      end
  end.

(** The first loop over the components. *)
Fixpoint set_check_protocols (key : list bf_matcher_type) : gen unit :=
  match key with
  | [] => mret tt
  | type :: key =>
      match bf_matcher_get_meta type with
      | None => gen_err (- ENOENT)
      | Some meta => bf_stub_rule_check_protocol meta ;; set_check_protocols key
      end
  end.

(** The second, which copies each field at its offset in the key. *)
Fixpoint set_build_key (key : list bf_matcher_type) (offset : Z) : gen unit :=
  match key with
  | [] => mret tt
  | type :: key =>
      match bf_matcher_get_meta type with
      | None => gen_err (- ENOENT)
      | Some meta =>
          bf_stub_load_header meta BPF_REG_6 ;;
          bf_stub_stx_payload meta offset ;;
          set_build_key key (offset + meta_hdr_payload_size meta)
      end
  end.

Definition bf_matcher_generate_set (m : bf_matcher) : gen unit :=
  payload_read 4 m ;;
  p ← gen_get;
  match bf_chain_get_set_for_matcher (prog_chain p) m with
  | None => gen_err (- ENOENT)
  | Some set =>
      if set_use_trie set then _bf_matcher_generate_set_trie m
      else
        set_check_protocols (set_key set) ;;
        set_build_key (set_key set) 0 ;;
        set_lookup m 0
  end.

(** * Meaning *)

Definition comp_proto_ok (pk : pkt) (t : bf_matcher_type) : bool :=
  match bf_matcher_get_meta t with
  | Some meta =>
      match meta_layer meta with
      | BF_MATCHER_LAYER_3 => pk_l3proto pk =? htobe16 (meta_hdr_id meta)
      | BF_MATCHER_LAYER_4 => pk_l4proto pk =? meta_hdr_id meta
      | _ => false
      end
  | None => false
  end.

Definition comp_field (pk : pkt) (t : bf_matcher_type) : list Z :=
  match bf_matcher_get_meta t with
  | Some meta =>
      sub_bytes (Z.to_nat (meta_hdr_payload_offset meta)) (Z.to_nat (meta_hdr_payload_size meta))
        (match meta_layer meta with BF_MATCHER_LAYER_3 => pk_l3 pk | _ => pk_l4 pk end)
  | None => []
  end.

(** A network element covers an address. *)
Definition net_covers (field elem : list Z) : bool :=
  let p := le_combine (take 4 elem) in
  (p <=? 8 * Z.of_nat (length field)) &&
  same_prefix (Z.to_nat p) field (sub_bytes 4 (length field) elem).

(** The packet has every protocol of the key, and the fields are an element of
    the set, or the address is in one of its networks. *)
Definition match_set (set : bf_set) (pk : pkt) : bool :=
  forallb (comp_proto_ok pk) (set_key set) &&
  let fields := concat (comp_field pk <$> set_key set) in
  if set_use_trie set then existsb (net_covers fields) (set_elems set)
  else bool_decide (fields ∈ set_elems set).

(** The fields of a key that is not a network. *)
Definition key_fields_size (key : list bf_matcher_type) : Z :=
  foldr (fun t n => match bf_matcher_get_meta t with Some m => meta_hdr_payload_size m | None => 0 end + n) 0 key.

(** * Correctness *)

Lemma le_split_sub o n bs : is_bytes bs -> (o + n <= length bs)%nat ->
  le_split n (le_combine (sub_bytes o n bs)) = sub_bytes o n bs.
Proof.
  intros Hb Hl. rewrite <- (length_sub_bytes o n bs Hl) at 1. apply le_split_combine. auto with bf.
Qed.

(** Components of a key: what the metadata says of a type that supports [in]. *)
Record comp_ok (t : bf_matcher_type) (meta : bf_matcher_meta) : Prop := mk_comp_ok {
  co_meta : bf_matcher_get_meta t = Some meta;
  co_layer : meta_layer meta = BF_MATCHER_LAYER_3 \/ meta_layer meta = BF_MATCHER_LAYER_4;
  co_id : match meta_layer meta with
          | BF_MATCHER_LAYER_3 => 0 < htobe16 (meta_hdr_id meta) < 2 ^ 16 /\ u16 (meta_hdr_id meta) = meta_hdr_id meta
          | _ => 0 < meta_hdr_id meta < 2 ^ 8
          end;
  co_size : 1 <= meta_hdr_payload_size meta <= 16;
  co_off : 0 <= meta_hdr_payload_offset meta <= 24;
  co_fits pk : pkt_wf pk -> comp_proto_ok pk t = true ->
    (Z.to_nat (meta_hdr_payload_offset meta) + Z.to_nat (meta_hdr_payload_size meta) <=
     length (match meta_layer meta with BF_MATCHER_LAYER_3 => pk_l3 pk | _ => pk_l4 pk end))%nat
}.

Lemma comp_ok_in t : is_Some (bf_matcher_get_ops t BF_MATCHER_IN) -> exists meta, comp_ok t meta.
Proof.
  intros [ops Hops]. destruct t; try discriminate Hops;
    (eexists; constructor; [done|cbn; tauto|by vm_compute|by vm_compute|by vm_compute|]);
    intros pk Hp Hok; unfold comp_proto_ok in Hok; cbn in Hok; apply Z.eqb_eq in Hok;
    first [pose proof (pw_ip4 pk Hp Hok) | pose proof (pw_ip6 pk Hp Hok) | pose proof (pw_tcp pk Hp Hok)
          |pose proof (pw_udp pk Hp Hok) | pose proof (pw_icmp pk Hp Hok) | pose proof (pw_icmpv6 pk Hp Hok)];
    match goal with |- (?a + ?b <= _)%nat =>
      let a' := eval vm_compute in a in let b' := eval vm_compute in b in
      change a with a'; change b with b' end; cbn; lia.
Qed.

Section Correct.
Context {W : Type} `{Kernel W} (c : bf_chain) `{!StubHelpers W} `{!KernelSpec W c} (fl : bf_flavor) (lo : layout).
Implicit Types (s : vm W).

(** ** Protocols *)

Definition check_item (meta : bf_matcher_meta) : item :=
  match meta_layer meta with
  | BF_MATCHER_LAYER_3 => ISingle (BPF_JMP_IMM BPF_JNE BPF_REG_7 (htobe16 (u16 (meta_hdr_id meta))) 0) JMP
  | _ => ISingle (BPF_JMP_IMM BPF_JNE BPF_REG_8 (u8 (meta_hdr_id meta)) 0) JMP
  end.

Lemma gemits_check t meta : comp_ok t meta ->
  gemits c fl (bf_stub_rule_check_protocol meta) [check_item meta].
Proof.
  intros Hm. unfold bf_stub_rule_check_protocol, check_item.
  destruct (co_layer _ _ Hm) as [-> | ->]; gen_emit.
Qed.

Lemma exec_check t meta pk s b : comp_ok t meta -> ctx_rel lo pk s ->
  exec (check_item meta :: b) 0 s = if comp_proto_ok pk t then exec b 0 s else BRule s.
Proof.
  intros Hm Hc. unfold check_item, comp_proto_ok. rewrite (co_meta _ _ Hm).
  pose proof (co_id _ _ Hm) as Hid. destruct (co_layer _ _ Hm) as [E|E]; rewrite E in *.
  - destruct Hid as [Hid Hu]. erewrite ex_jmp_imm_rule; [|code_tac|apply Hc|done].
    rewrite Hu, u64_s32_small by lia. by destruct (pk_l3proto pk =? _).
  - erewrite ex_jmp_imm_rule; [|code_tac|apply Hc|done].
    assert (u8 (meta_hdr_id meta) = meta_hdr_id meta) as -> by (apply Z.mod_small; lia).
    rewrite u64_s32_small by lia. by destruct (pk_l4proto pk =? _).
Qed.

(** The key's components and their metadata. *)
Definition key_ok (key : list bf_matcher_type) (metas : list bf_matcher_meta) : Prop :=
  Forall2 comp_ok key metas.

Lemma key_ok_in key : Forall (fun t => is_Some (bf_matcher_get_ops t BF_MATCHER_IN)) key ->
  exists metas, key_ok key metas.
Proof.
  induction 1 as [|t key Ht _ (metas & IH)]; [exists []; constructor|].
  destruct (comp_ok_in t Ht) as [meta Hm]. exists (meta :: metas). by constructor.
Qed.

Lemma gemits_checks key metas : key_ok key metas ->
  gemits c fl (set_check_protocols key) (check_item <$> metas).
Proof.
  induction 1 as [|t meta key metas Hm _ IH]; cbn [set_check_protocols fmap list_fmap]; [apply gemits_ret|].
  rewrite (co_meta _ _ Hm). apply (gemits_seq _ _ _ _ [_]); [by eapply gemits_check|done].
Qed.

Lemma exec_checks key metas pk s b : key_ok key metas -> ctx_rel lo pk s ->
  exec ((check_item <$> metas) ++ b) 0 s = if forallb (comp_proto_ok pk) key then exec b 0 s else BRule s.
Proof.
  intros Hk Hc. induction Hk as [|t meta key metas Hm _ IH]; [done|]. cbn [fmap list_fmap app forallb].
  erewrite exec_check by done. destruct (comp_proto_ok pk t); [|done]. apply IH.
Qed.

(** ** Loading a header *)

Definition hdr_addr (meta : bf_matcher_meta) : Z :=
  match meta_layer meta with BF_MATCHER_LAYER_3 => lo_l3 lo | _ => lo_l4 lo end.
Definition hdr_bytes (meta : bf_matcher_meta) (pk : pkt) : list Z :=
  match meta_layer meta with BF_MATCHER_LAYER_3 => pk_l3 pk | _ => pk_l4 pk end.
Definition ld_item (meta : bf_matcher_meta) : item :=
  ISingle (BPF_LDX_MEM BPF_DW BPF_REG_6 BPF_REG_10
    (BF_PROG_CTX_OFF (match meta_layer meta with BF_MATCHER_LAYER_3 => RT_l3_hdr | _ => RT_l4_hdr end))) None.

Lemma gemits_load t meta : comp_ok t meta ->
  gemits c fl (bf_stub_load_header meta BPF_REG_6) [ld_item meta].
Proof.
  intros Hm. unfold bf_stub_load_header, ld_item. destruct (co_layer _ _ Hm) as [-> | ->]; gen_emit.
Qed.

Lemma exec_load t meta pk s b : comp_ok t meta -> ctx_rel lo pk s -> comp_proto_ok pk t = true ->
  exec (ld_item meta :: b) 0 s = exec b 0 (set_reg BPF_REG_6 (hdr_addr meta) s).
Proof.
  intros Hm Hc Hp. unfold ld_item, hdr_addr. unfold comp_proto_ok in Hp. rewrite (co_meta _ _ Hm) in Hp.
  pose proof (co_id _ _ Hm) as Hid. destruct (co_layer _ _ Hm) as [E|E]; rewrite E in *; apply Z.eqb_eq in Hp.
  - erewrite ex_ldx; [done|code_tac|apply Hc|]. rewrite ctx_off_s16.
    apply (cr_l3_hdr _ _ _ Hc). lia.
  - erewrite ex_ldx; [done|code_tac|apply Hc|]. rewrite ctx_off_s16.
    apply (cr_l4_hdr _ _ _ Hc). lia.
Qed.

Lemma hdr_load meta pk s n o : ctx_rel lo pk s -> 0 <= o < 2 ^ 15 ->
  (Z.to_nat o + n <= length (hdr_bytes meta pk))%nat ->
  load (mem s) n (hdr_addr meta + s16 o) = Some (le_combine (sub_bytes (Z.to_nat o) n (hdr_bytes meta pk))).
Proof.
  intros Hc Ho Hl. unfold hdr_addr, hdr_bytes in *.
  destruct (meta_layer meta); first [by apply l3_load | by apply l4_load].
Qed.

(** ** The scratch area *)

Definition scratch (s : vm W) (o n : nat) : option (list Z) :=
  load_bytes (mem s) (lo_fp lo + BF_PROG_SCR_OFF (Z.of_nat o)) n.

Lemma scr_off_s16 i : 0 <= i < 64 -> s16 (BF_PROG_SCR_OFF i) = BF_PROG_SCR_OFF i.
Proof.
  intros Hi. apply s16_neg. unfold BF_PROG_SCR_OFF, sizeof_bf_runtime, offsetof_bf_runtime. lia.
Qed.

Lemma scratch_app s o n k : scratch s o (n + k) =
  match scratch s o n, scratch s (o + n) k with Some x, Some y => Some (x ++ y) | _, _ => None end.
Proof.
  unfold scratch. rewrite load_bytes_app.
  replace (lo_fp lo + BF_PROG_SCR_OFF (Z.of_nat o) + Z.of_nat n)
    with (lo_fp lo + BF_PROG_SCR_OFF (Z.of_nat (o + n))); [done|]. unfold BF_PROG_SCR_OFF. lia.
Qed.

(** Storing [sz] bytes of R1 at [i] of the scratch area. *)
Lemma exec_scratch_store pk s sz i v b : ctx_rel lo pk s -> mem_size sz -> regs s !! 1 = Some v ->
  (i + size_bytes sz <= 64)%nat ->
  exists s', exec (ISingle (BPF_STX_MEM sz BPF_REG_10 BPF_REG_1 (BF_PROG_SCR_OFF (Z.of_nat i))) None :: b) 0 s =
      exec b 0 s' /\ ctx_rel lo pk s' /\ world s' = world s /\ regs s' = regs s /\
    scratch s' i (size_bytes sz) = Some (le_split (size_bytes sz) v) /\
    (forall j k, (j + k <= 64)%nat -> (j + k <= i \/ i + size_bytes sz <= j)%nat ->
       scratch s' j k = scratch s j k).
Proof.
  intros Hc Hsz Hv Hi. destruct (scratch_store lo pk s (size_bytes sz) (Z.of_nat i) v Hc) as (m & Hm & Hc' & Hl & Hk);
    [lia|lia|].
  assert (size_bytes sz <= 8 /\ 1 <= size_bytes sz)%nat as [? ?] by (destruct Hsz as [->|[->|[->| ->]]]; cbn; lia).
  erewrite ex_stx; [|done|apply Hc|exact Hv|rewrite scr_off_s16 by lia; exact Hm].
  exists (set_mem m s). split_and!; [done|done|done|done|done|].
  intros j k Hjk Hd. unfold scratch. cbn [set_mem mem]. apply Hk; lia.
Qed.

(** ** Copying a field *)

Fixpoint stx_block (meta : bf_matcher_meta) (offset : Z) (fuel remaining : nat) (src dst : Z) : block :=
  match remaining, fuel with
  | S _, S fuel =>
      let '(sz, n) := stx_chunk offset remaining in
      [ISingle (BPF_LDX_MEM sz BPF_REG_1 BPF_REG_6 (meta_hdr_payload_offset meta + src)) None;
       ISingle (BPF_STX_MEM sz BPF_REG_10 BPF_REG_1 (BF_PROG_SCR_OFF dst)) None] ++
      stx_block meta offset fuel (remaining - n) (src + Z.of_nat n) (dst + Z.of_nat n)
  | _, _ => []
  end.

Lemma stx_chunk_spec offset remaining : (0 < remaining)%nat ->
  mem_size (fst (stx_chunk offset remaining)) /\
  size_bytes (fst (stx_chunk offset remaining)) = snd (stx_chunk offset remaining) /\
  (1 <= snd (stx_chunk offset remaining) <= remaining)%nat.
Proof.
  intros Hr. unfold stx_chunk.
  destruct ((offset mod 8 =? 0) && (8 <=? remaining)%nat) eqn:E8; cbn [fst snd].
  { apply andb_prop in E8 as [_ E8]. apply Nat.leb_le in E8. split; [code_tac|split; [done|lia]]. }
  destruct ((offset mod 4 =? 0) && (4 <=? remaining)%nat) eqn:E4; cbn [fst snd].
  { apply andb_prop in E4 as [_ E4]. apply Nat.leb_le in E4. split; [code_tac|split; [done|lia]]. }
  destruct ((offset mod 2 =? 0) && (2 <=? remaining)%nat) eqn:E2; cbn [fst snd].
  { apply andb_prop in E2 as [_ E2]. apply Nat.leb_le in E2. split; [code_tac|split; [done|lia]]. }
  split; [code_tac|split; [done|lia]].
Qed.

Lemma gemits_stx meta offset fuel remaining src dst : (remaining <= fuel)%nat ->
  gemits c fl (stx_payload_loop meta offset fuel remaining src dst)
              (stx_block meta offset fuel remaining src dst).
Proof.
  revert remaining src dst. induction fuel as [|fuel IH]; intros [|r] src dst Hr;
    cbn [stx_payload_loop stx_block]; [apply gemits_ret|lia|apply gemits_ret|].
  pose proof (stx_chunk_spec offset (S r) ltac:(lia)) as (_ & _ & Hn).
  destruct (stx_chunk offset (S r)) as [sz n]. cbn [fst snd] in *.
  apply (gemits_seq _ _ _ _ [_]); [gen_emit|]. apply (gemits_seq _ _ _ _ [_]); [gen_emit|].
  apply IH. lia.
Qed.

Lemma exec_stx meta offset fuel remaining (src dst : nat) pk s b acc :
  (remaining <= fuel)%nat -> ctx_rel lo pk s -> regs s !! 6 = Some (hdr_addr meta) ->
  0 <= meta_hdr_payload_offset meta <= 24 ->
  (Z.to_nat (meta_hdr_payload_offset meta) + src + remaining <= length (hdr_bytes meta pk))%nat ->
  (src + remaining <= 16)%nat -> (dst + remaining <= 64)%nat -> scratch s 0 dst = Some acc ->
  exists s', exec (stx_block meta offset fuel remaining (Z.of_nat src) (Z.of_nat dst) ++ b) 0 s = exec b 0 s' /\
    ctx_rel lo pk s' /\ world s' = world s /\
    scratch s' 0 (dst + remaining) =
      Some (acc ++ sub_bytes (Z.to_nat (meta_hdr_payload_offset meta) + src) remaining (hdr_bytes meta pk)).
Proof.
  revert remaining src dst s acc.
  induction fuel as [|fuel IH]; intros [|r] src dst s acc Hr Hc H6 Ho Hl Hs Hd Ha; try lia;
    cbn [stx_block].
  1, 2: exists s; split_and!; [done..|]; by rewrite Nat.add_0_r, Ha; unfold sub_bytes; rewrite firstn_O, app_nil_r.
  pose proof (stx_chunk_spec offset (S r) ltac:(lia)) as (Hm & Hsz & Hn).
  destruct (stx_chunk offset (S r)) as [sz n]. cbn [fst snd app] in *.
  set (o := (Z.to_nat (meta_hdr_payload_offset meta) + src)%nat).
  assert (Z.to_nat (meta_hdr_payload_offset meta + Z.of_nat src) = o) as Eo by (unfold o; lia).
  erewrite ex_ldx; [|done|exact H6|apply hdr_load; [done|lia|rewrite Hsz, Eo; unfold o; lia]].
  rewrite Eo, Hsz. set (v := le_combine (sub_bytes o n (hdr_bytes meta pk))).
  edestruct (exec_scratch_store pk (set_reg BPF_REG_1 v s) sz dst v)
    as (s1 & -> & Hc1 & Hw1 & Hr1 & Hst & Hk); [ctx_tac|done|reg_tac|lia|].
  replace (Z.of_nat src + Z.of_nat n) with (Z.of_nat (src + n)) by lia.
  replace (Z.of_nat dst + Z.of_nat n) with (Z.of_nat (dst + n)) by lia.
  assert (is_bytes (hdr_bytes meta pk)) as Hbb
    by (unfold hdr_bytes; destruct (meta_layer meta); apply Hc).
  assert (scratch s1 0 (dst + n) = Some (acc ++ sub_bytes o n (hdr_bytes meta pk))) as Hacc.
  { rewrite scratch_app, Hk by lia. change (scratch (set_reg BPF_REG_1 v s) 0 dst) with (scratch s 0 dst).
    change (0 + dst)%nat with dst. rewrite Ha, <- Hsz, Hst, Hsz. do 2 f_equal. unfold v.
    apply le_split_sub; [done|unfold o; lia]. }
  destruct (IH (S r - n)%nat (src + n)%nat (dst + n)%nat s1
    (acc ++ sub_bytes o n (hdr_bytes meta pk)) ltac:(lia) Hc1) as (s2 & -> & Hc2 & Hw2 & Hs2);
    [rewrite Hr1; reg_tac|done|lia|lia|lia|exact Hacc|].
  exists s2. split_and!; [done|done|by rewrite Hw2, Hw1|].
  replace (dst + n + (S r - n))%nat with (dst + S r)%nat in Hs2 by lia. rewrite Hs2.
  f_equal. rewrite <- app_assoc. f_equal. unfold sub_bytes.
  replace (Z.to_nat (meta_hdr_payload_offset meta) + (src + n))%nat with (o + n)%nat by (unfold o; lia).
  replace (take (S r) (drop o (hdr_bytes meta pk)))
    with (take (n + (S r - n)) (drop o (hdr_bytes meta pk))) by (f_equal; lia).
  by rewrite <- take_take_drop, drop_drop.
Qed.

(** ** Building the key *)

Fixpoint key_block (metas : list bf_matcher_meta) (offset : Z) : block :=
  match metas with
  | [] => []
  | meta :: metas =>
      [ld_item meta] ++
      stx_block meta offset (Z.to_nat (meta_hdr_payload_size meta)) (Z.to_nat (meta_hdr_payload_size meta))
        0 offset ++
      key_block metas (offset + meta_hdr_payload_size meta)
  end.

Lemma gemits_build_key key metas offset : key_ok key metas ->
  gemits c fl (set_build_key key offset) (key_block metas offset).
Proof.
  intros Hk. revert offset. induction Hk as [|t meta key metas Hm _ IH]; intros offset;
    cbn [set_build_key key_block]; [apply gemits_ret|].
  rewrite (co_meta _ _ Hm). apply gemits_seq; [by eapply gemits_load|].
  apply gemits_seq; [by apply gemits_stx|apply IH].
Qed.

Lemma comp_field_eq t meta pk : comp_ok t meta ->
  comp_field pk t = sub_bytes (Z.to_nat (meta_hdr_payload_offset meta))
                      (Z.to_nat (meta_hdr_payload_size meta)) (hdr_bytes meta pk).
Proof. intros Hm. unfold comp_field. by rewrite (co_meta _ _ Hm). Qed.

Lemma exec_build_key key metas (off : nat) pk s b acc : key_ok key metas -> ctx_rel lo pk s ->
  forallb (comp_proto_ok pk) key = true ->
  Z.of_nat off + key_fields_size key <= 64 -> scratch s 0 off = Some acc ->
  exists s' n, exec (key_block metas (Z.of_nat off) ++ b) 0 s = exec b 0 s' /\ ctx_rel lo pk s' /\
    world s' = world s /\ Z.of_nat n = Z.of_nat off + key_fields_size key /\
    scratch s' 0 n = Some (acc ++ concat (comp_field pk <$> key)).
Proof.
  intros Hk. revert off s acc.
  induction Hk as [|t meta key metas Hm Hks IH]; intros off s acc Hc Hp Hsz Ha; cbn [key_block].
  { exists s, off. split_and!; [done|done|done|cbn; lia|]. cbn. by rewrite app_nil_r. }
  cbn [forallb] in Hp. apply andb_prop in Hp as [Hp1 Hp2].
  assert (key_fields_size (t :: key) = meta_hdr_payload_size meta + key_fields_size key) as Ek
    by (cbn; by rewrite (co_meta _ _ Hm)).
  assert (0 <= key_fields_size key) as Hk0.
  { clear - Hks. induction Hks as [|t' meta' key' metas' Hm' _ IH']; [done|]. cbn.
    rewrite (co_meta _ _ Hm'). pose proof (co_size _ _ Hm'). unfold key_fields_size in IH'. lia. }
  pose proof (co_size _ _ Hm) as Hs. pose proof (co_off _ _ Hm) as Ho.
  pose proof (co_fits _ _ Hm pk (cr_pkt _ _ _ Hc) Hp1) as Hfit. fold (hdr_bytes meta pk) in Hfit.
  cbn [app]. rewrite (exec_load t meta pk s) by done. rewrite <- app_assoc.
  destruct (exec_stx meta (Z.of_nat off) (Z.to_nat (meta_hdr_payload_size meta))
    (Z.to_nat (meta_hdr_payload_size meta)) 0 off pk (set_reg BPF_REG_6 (hdr_addr meta) s)
    (key_block metas (Z.of_nat off + meta_hdr_payload_size meta) ++ b) acc)
    as (s1 & E & Hc1 & Hw1 & Hs1); [done|ctx_tac|reg_tac|done|lia|lia|lia|done|].
  change (Z.of_nat 0) with 0 in E. rewrite E. rewrite Nat.add_0_r, <- (comp_field_eq t) in Hs1 by done.
  replace (Z.of_nat off + meta_hdr_payload_size meta)
    with (Z.of_nat (off + Z.to_nat (meta_hdr_payload_size meta))) by lia.
  destruct (IH (off + Z.to_nat (meta_hdr_payload_size meta))%nat s1 (acc ++ comp_field pk t) Hc1 Hp2)
    as (s2 & n & E2 & Hc2 & Hw2 & Hn & Hs2); [lia|done|].
  exists s2, n. split_and!; [done|done|by rewrite Hw2, Hw1|lia|].
  rewrite Hs2. cbn [fmap list_fmap concat]. by rewrite <- app_assoc.
Qed.

(** ** The lookup *)

Definition lookup_block (m : bf_matcher) (off : Z) : block :=
  [ld_map_item BF_FIXUP_TYPE_SET_MAP_FD BPF_REG_1 (AttrSet (Z.to_nat (payload_u32 m)));
   ISingle (BPF_MOV64_REG BPF_REG_2 BPF_REG_10) None;
   ISingle (BPF_ALU64_IMM BPF_ADD BPF_REG_2 (BF_PROG_SCR_OFF off)) None;
   ISingle (BPF_EMIT_CALL BPF_FUNC_map_lookup_elem) None;
   ISingle (BPF_JMP_IMM BPF_JEQ BPF_REG_0 0 0) JMP].

Lemma gemits_lookup m off : gemits c fl (set_lookup m off) (lookup_block m off).
Proof.
  unfold set_lookup, lookup_block. apply (gemits_seq _ _ _ _ [_]); [gen_emit|].
  apply (gemits_seq _ _ _ _ [_]); [gen_emit|]. apply (gemits_seq _ _ _ _ [_]); [gen_emit|].
  apply (gemits_seq _ _ _ _ [_]); gen_emit.
Qed.

(** Adding a negative stack offset to the frame pointer. *)
Lemma fp_add pk s o : ctx_rel lo pk s -> - sizeof_bf_runtime <= o < 0 ->
  alu_op BPF_ADD (lo_fp lo) (u64 (s32 o)) 64 = Some (lo_fp lo + o).
Proof.
  intros Hc Ho. destruct (cr_lay _ _ _ Hc) as [Hfp _ _ _ _ _]. unfold sizeof_bf_runtime in *.
  unfold alu_op. cbn. f_equal. unfold uw, u64.
  assert (s32 o = o) as ->.
  { unfold s32, sw. assert (o mod 2 ^ 32 = o + 2 ^ 32) as ->.
    { rewrite <- (Z_mod_plus_full o 1), Z.mul_1_l. apply Z.mod_small. lia. }
    rewrite decide_False by lia. lia. }
  rewrite Z.add_mod_idemp_r by lia. apply Z.mod_small. lia.
Qed.

Lemma exec_lookup m set (off : nat) pk s key : ctx_rel lo pk s ->
  chain_sets c !! Z.to_nat (payload_u32 m) = Some set -> (off < 64)%nat ->
  scratch s off (Z.to_nat (set_elem_size set)) = Some key ->
  exists s', ctx_rel lo pk s' /\ world s' = world s /\
    exec (lookup_block m (Z.of_nat off)) 0 s =
    if set_contains set key then BFall 0 s' else BRule s'.
Proof.
  intros Hc Hset Ho Hkey. unfold lookup_block.
  rewrite ex_ld_map by done. erewrite ex_mov64_reg; [|reg_tac; apply Hc].
  erewrite ex_alu64_imm; [|code_tac|reg_tac|].
  2:{ apply (fp_add pk s); [done|]. unfold BF_PROG_SCR_OFF, sizeof_bf_runtime, offsetof_bf_runtime. lia. }
  destruct (k_lookup_ext (Z.to_nat (payload_u32 m)) set
    (regs (set_reg BPF_REG_2 (lo_fp lo + BF_PROG_SCR_OFF (Z.of_nat off)) (set_reg BPF_REG_2 (lo_fp lo)
      (set_reg BPF_REG_1 (k_map BF_FIXUP_TYPE_SET_MAP_FD (AttrSet (Z.to_nat (payload_u32 m)))) s))))
    (mem s) (world s) (lo_fp lo + BF_PROG_SCR_OFF (Z.of_nat off)) key Hset) as (r & Hr & Hr0);
    [reg_tac|reg_tac|done|].
  erewrite ex_helper; [|done|exact Hr].
  erewrite ex_jmp_imm_rule; [|code_tac|reg_tac|done]. change (u64 (s32 0)) with 0. rewrite Hr0.
  eexists. split; [|split; [|destruct (set_contains set key); reflexivity]]; [|done].
  apply (ctx_rel_clobber lo pk (set_reg _ _ (set_reg _ _ (set_reg _ _ s)))). ctx_tac.
Qed.

Lemma prog_get {A} (k : bf_program -> gen A) p : (gen_get ≫= k) p = k p p.
Proof. done. Qed.

(** ** Hash sets *)

Lemma comp_size_fields key : Forall (fun t => is_net_type t = false) key ->
  Forall (fun t => is_Some (bf_matcher_get_ops t BF_MATCHER_IN)) key ->
  key_size key = key_fields_size key.
Proof.
  induction 1 as [|t key Ht _ IH]; [done|]. intros [Hi Hk]%Forall_cons.
  change (key_size (t :: key)) with (comp_size t + key_size key). rewrite IH by done. cbn. f_equal.
  destruct Hi as [ops Hops]. by destruct t.
Qed.

Definition hash_block (m : bf_matcher) (metas : list bf_matcher_meta) : block :=
  (check_item <$> metas) ++ key_block metas 0 ++ lookup_block m 0.

Lemma block_hash m set metas : key_ok (set_key set) metas ->
  chain_sets c !! Z.to_nat (payload_u32 m) = Some set -> set_wf set -> set_use_trie set = false ->
  key_fields_size (set_key set) <= 64 ->
  block_matches lo (hash_block m metas) (pure_match (W := W) (match_set set)).
Proof.
  intros Hk Hset Hwf Ht Hsz pk s Hc. cbn [pure_match fst snd]. unfold hash_block, match_set. rewrite Ht.
  erewrite exec_checks by done. destruct (forallb (comp_proto_ok pk) (set_key set)) eqn:Hp; cbn [andb];
    [|by exists s].
  destruct (exec_build_key (set_key set) metas 0 pk s (lookup_block m 0) [] Hk Hc Hp)
    as (s1 & n & E & Hc1 & Hw1 & Hn & Hs1); [lia|done|].
  change (Z.of_nat 0) with 0 in E. rewrite E. cbn [app] in Hs1.
  assert (n = Z.to_nat (set_elem_size set)) as ->.
  { rewrite (set_wf_size _ Hwf), comp_size_fields; [lia| |apply Hwf].
    pose proof (set_wf_trie _ Hwf) as Hx. rewrite Ht in Hx.
    apply Forall_forall. intros t Hin. apply not_true_is_false. intros Hnt.
    apply diff_true_false. rewrite Hx. symmetry. apply existsb_exists. exists t.
    by rewrite <- list_elem_of_In. }
  destruct (exec_lookup m set 0 pk s1 _ Hc1 Hset ltac:(lia) Hs1) as (s2 & Hc2 & Hw2 & E2).
  change (Z.of_nat 0) with 0 in E2. exists s2. split_and!; [done|by rewrite Hw2, Hw1|].
  rewrite E2. unfold set_contains. by rewrite Ht.
Qed.

(** ** Tries *)

Lemma length_bytes_bits bs : length (bytes_bits bs) = (8 * length bs)%nat.
Proof.
  induction bs as [|b bs IH]; [done|]. change (bytes_bits (b :: bs)) with (byte_bits b ++ bytes_bits bs).
  rewrite length_app, IH, length_byte_bits. cbn [length]. lia.
Qed.

(** Bytes after the prefix do not matter. *)
Lemma same_prefix_app p a b x y : (p <= 8 * length a)%nat -> length a = length b ->
  same_prefix p (a ++ x) (b ++ y) = same_prefix p a b.
Proof.
  intros Hp Hl. unfold same_prefix, bytes_bits. rewrite !bind_app.
  rewrite !take_app_le by (change (mbind byte_bits) with bytes_bits; rewrite length_bytes_bits; lia).
  done.
Qed.

Lemma lpm_covers_spec (n : nat) field pad elem : (n = 4 \/ n = 16)%nat -> length field = n ->
  (4 + n <= length elem)%nat -> is_bytes (take 4 elem) ->
  lpm_covers (le_split 4 (8 * Z.of_nat n) ++ field ++ pad) elem = net_covers field elem.
Proof.
  intros Hn Hf He Hb. unfold lpm_covers, net_covers. rewrite Hf.
  rewrite take_app_length', drop_app_length' by (by rewrite length_le_split).
  rewrite le_combine_split.
  assert ((8 * Z.of_nat n) mod 256 ^ Z.of_nat 4 = 8 * Z.of_nat n) as -> by (destruct Hn as [->| ->]; done).
  destruct (Z.leb_spec (le_combine (take 4 elem)) (8 * Z.of_nat n)); [|done]. cbn [andb].
  assert (drop 4 elem = sub_bytes 4 n elem ++ drop n (drop 4 elem)) as ->
    by (unfold sub_bytes; by rewrite take_drop).
  pose proof (le_combine_bound _ Hb).
  apply same_prefix_app; [lia|]. rewrite length_sub_bytes by lia. done.
Qed.

Definition trie_fill (type : bf_matcher_type) (off : Z) : block :=
  if is_trie4 type then
    [ISingle (BPF_MOV64_IMM BPF_REG_1 32) None;
     ISingle (BPF_STX_MEM BPF_W BPF_REG_10 BPF_REG_1 (BF_PROG_SCR_OFF 4)) None;
     ISingle (BPF_LDX_MEM BPF_W BPF_REG_1 BPF_REG_6 off) None;
     ISingle (BPF_STX_MEM BPF_W BPF_REG_10 BPF_REG_1 (BF_PROG_SCR_OFF 8)) None]
  else
    [ISingle (BPF_MOV64_IMM BPF_REG_1 128) None;
     ISingle (BPF_STX_MEM BPF_W BPF_REG_10 BPF_REG_1 (BF_PROG_SCR_OFF 4)) None;
     ISingle (BPF_LDX_MEM BPF_DW BPF_REG_1 BPF_REG_6 off) None;
     ISingle (BPF_STX_MEM BPF_DW BPF_REG_10 BPF_REG_1 (BF_PROG_SCR_OFF 8)) None;
     ISingle (BPF_LDX_MEM BPF_DW BPF_REG_1 BPF_REG_6 (off + 8)) None;
     ISingle (BPF_STX_MEM BPF_DW BPF_REG_10 BPF_REG_1 (BF_PROG_SCR_OFF 16)) None].

(** The key in the scratch area, from byte 4: the prefix length and the
    address; for IPv6, the size of the key includes padding. *)
Lemma exec_trie_fill type meta pk s b : comp_ok type meta -> is_net_type type = true ->
  comp_proto_ok pk type = true -> ctx_rel lo pk s -> regs s !! 6 = Some (hdr_addr meta) ->
  exists s' n pad, exec (trie_fill type (meta_hdr_payload_offset meta) ++ b) 0 s = exec b 0 s' /\
    ctx_rel lo pk s' /\ world s' = world s /\ (n = 4 \/ n = 16)%nat /\
    length (comp_field pk type) = n /\ Z.of_nat (4 + n) <= comp_size type /\
    scratch s' 4 (Z.to_nat (comp_size type)) =
      Some (le_split 4 (8 * Z.of_nat n) ++ comp_field pk type ++ pad).
Proof.
  intros Hm Hnet Hp Hc H6. pose proof (co_fits _ _ Hm pk (cr_pkt _ _ _ Hc) Hp) as Hfit.
  fold (hdr_bytes meta pk) in Hfit. pose proof (co_off _ _ Hm) as Hoff.
  rewrite (comp_field_eq type meta) by done.
  assert (is_bytes (hdr_bytes meta pk)) as Hbb
    by (unfold hdr_bytes; destruct (meta_layer meta); apply Hc).
  set (o := meta_hdr_payload_offset meta) in *. set (h := hdr_bytes meta pk) in *.
  assert ((is_trie4 type = true /\ meta_hdr_payload_size meta = 4 /\ comp_size type = 8) \/
          (is_trie4 type = false /\ meta_hdr_payload_size meta = 16 /\ comp_size type = 24)) as Hk.
  { pose proof (co_meta _ _ Hm) as E. destruct type; try discriminate Hnet; cbn in E; injection E as <-;
      first [left; by vm_compute|right; by vm_compute]. }
  unfold trie_fill. destruct Hk as [(-> & Esz & ->)|(-> & Esz & ->)]; rewrite Esz in *; cbn [app].
  - rewrite ex_mov64_imm. change (u64 (s32 32)) with 32.
    edestruct (exec_scratch_store pk (set_reg BPF_REG_1 32 s) BPF_W 4 32)
      as (s1 & E1 & Hc1 & Hw1 & Hr1 & Hs1 & _); [ctx_tac|code_tac|reg_tac|cbn; lia|].
    change (Z.of_nat 4) with 4 in E1. rewrite E1.
    erewrite ex_ldx; [|code_tac|rewrite Hr1; reg_tac|apply hdr_load; [exact Hc1|lia|cbn; fold h o; lia]].
    fold h. change (size_bytes BPF_W) with 4%nat in *.
    edestruct (exec_scratch_store pk (set_reg BPF_REG_1 (le_combine (sub_bytes (Z.to_nat o) 4 h)) s1) BPF_W 8)
      as (s2 & E2 & Hc2 & Hw2 & Hr2 & Hs2 & Hk2); [ctx_tac|code_tac|reg_tac|cbn; lia|].
    change (Z.of_nat 8) with 8 in E2. rewrite E2. change (size_bytes BPF_W) with 4%nat in *.
    exists s2, 4%nat, []. split_and!; [done|done|by rewrite Hw2; cbn; rewrite Hw1|by left| |done|].
    + by apply length_sub_bytes.
    + change (Z.to_nat 8) with (4 + 4)%nat. rewrite scratch_app, Hk2 by lia.
      change (scratch (set_reg BPF_REG_1 _ s1) 4 4) with (scratch s1 4 4). rewrite Hs1.
      change (4 + 4)%nat with 8%nat. rewrite Hs2. rewrite app_nil_r. do 2 f_equal.
      apply (le_split_sub (Z.to_nat o) 4); [done|]. cbn in Hfit. lia.
  - rewrite ex_mov64_imm. change (u64 (s32 128)) with 128.
    edestruct (exec_scratch_store pk (set_reg BPF_REG_1 128 s) BPF_W 4 128)
      as (s1 & E1 & Hc1 & Hw1 & Hr1 & Hs1 & _); [ctx_tac|code_tac|reg_tac|cbn; lia|].
    change (Z.of_nat 4) with 4 in E1. rewrite E1.
    erewrite ex_ldx; [|code_tac|rewrite Hr1; reg_tac|apply hdr_load; [exact Hc1|lia|cbn; fold h o; lia]].
    fold h. change (size_bytes BPF_DW) with 8%nat in *. change (size_bytes BPF_W) with 4%nat in *.
    edestruct (exec_scratch_store pk (set_reg BPF_REG_1 (le_combine (sub_bytes (Z.to_nat o) 8 h)) s1) BPF_DW 8)
      as (s2 & E2 & Hc2 & Hw2 & Hr2 & Hs2 & Hk2); [ctx_tac|code_tac|reg_tac|cbn; lia|].
    change (Z.of_nat 8) with 8 in E2. rewrite E2. change (size_bytes BPF_DW) with 8%nat in *.
    erewrite ex_ldx; [|code_tac|rewrite Hr2; vm_simpl; rewrite lookup_insert_ne, Hr1 by done; reg_tac
      |apply hdr_load; [exact Hc2|lia|cbn; fold h o; lia]].
    fold h. change (size_bytes BPF_DW) with 8%nat in *.
    replace (Z.to_nat (o + 8)) with (Z.to_nat o + 8)%nat by lia.
    edestruct (exec_scratch_store pk (set_reg BPF_REG_1 (le_combine (sub_bytes (Z.to_nat o + 8) 8 h)) s2) BPF_DW 16)
      as (s3 & E3 & Hc3 & Hw3 & Hr3 & Hs3 & Hk3); [ctx_tac|code_tac|reg_tac|cbn; lia|].
    change (Z.of_nat 16) with 16 in E3. rewrite E3. change (size_bytes BPF_DW) with 8%nat in *.
    destruct (stack_load lo pk s3 (BF_PROG_SCR_OFF 24) 4 Hc3) as (pad & Hpad & _); [done|done|].
    exists s3, 16%nat, pad.
    split_and!; [done|done|by rewrite Hw3; cbn; rewrite Hw2; cbn; rewrite Hw1|by right| |done|].
    + by apply length_sub_bytes.
    + change (Z.to_nat 24) with (4 + (8 + (8 + 4)))%nat. rewrite !scratch_app.
      rewrite (Hk3 4 4)%nat, (Hk3 (4 + 4) 8)%nat by lia.
      change (scratch (set_reg BPF_REG_1 _ s2) ?j ?k) with (scratch s2 j k).
      rewrite (Hk2 4 4)%nat by lia. change (scratch (set_reg BPF_REG_1 _ s1) 4 4) with (scratch s1 4 4).
      rewrite Hs1. change (4 + 4)%nat with 8%nat. rewrite Hs2. change (8 + 8)%nat with 16%nat. rewrite Hs3.
      unfold scratch at 1. change (Z.of_nat (16 + 8)) with 24. rewrite Hpad. f_equal. f_equal.
      assert (sub_bytes (Z.to_nat o) (Z.to_nat 16) h = sub_bytes (Z.to_nat o) 8 h ++ sub_bytes (Z.to_nat o + 8) 8 h) as ->.
      { unfold sub_bytes. rewrite <- drop_drop. by rewrite take_take_drop. }
      rewrite <- app_assoc. f_equal.
      * apply le_split_sub; [done|]. cbn in Hfit. lia.
      * f_equal. apply le_split_sub; [done|]. cbn in Hfit. lia.
Qed.

Lemma trie_key set : set_wf set -> set_use_trie set = true ->
  exists t, set_key set = [t] /\ is_net_type t = true.
Proof.
  intros Hwf Ht. rewrite (set_wf_trie _ Hwf) in Ht. pose proof (set_wf_comps _ Hwf) as Hl.
  pose proof (set_wf_net _ Hwf) as Hn. destruct (set_key set) as [|t [|t' key]]; cbn in *; [lia| |].
  - exists t. split; [done|]. by rewrite orb_false_r in Ht.
  - specialize (Hn ltac:(lia)). exfalso.
    assert (forall l, Forall (fun t => is_net_type t = false) l -> existsb is_net_type l = false) as Hx.
    { induction 1 as [|x l Hx _ IH]; cbn; [done|]. by rewrite Hx. }
    pose proof (Hx _ Hn) as E. cbn in E. congruence.
Qed.

Definition trie_block (m : bf_matcher) (type : bf_matcher_type) (meta : bf_matcher_meta) : block :=
  [check_item meta] ++ [ld_item meta] ++ trie_fill type (meta_hdr_payload_offset meta) ++ lookup_block m 4.

Lemma block_trie m set type meta : set_key set = [type] -> is_net_type type = true -> comp_ok type meta ->
  chain_sets c !! Z.to_nat (payload_u32 m) = Some set -> set_wf set -> set_use_trie set = true ->
  Forall is_bytes (set_elems set) ->
  block_matches lo (trie_block m type meta) (pure_match (W := W) (match_set set)).
Proof.
  intros Hkey Hnet Hm Hset Hwf Ht Hbytes pk s Hc. cbn [pure_match fst snd].
  unfold trie_block, match_set. rewrite Ht, Hkey. cbn [app forallb fmap list_fmap concat].
  erewrite exec_check by done. rewrite andb_true_r, app_nil_r.
  destruct (comp_proto_ok pk type) eqn:Hp; cbn [andb]; [|by exists s].
  rewrite (exec_load type meta pk s) by done.
  destruct (exec_trie_fill type meta pk (set_reg BPF_REG_6 (hdr_addr meta) s) (lookup_block m 4))
    as (s1 & n & pad & -> & Hc1 & Hw1 & Hn & Hf & Hsz & Hs1); [done|done|done|ctx_tac|reg_tac|].
  assert (set_elem_size set = comp_size type) as Esz
    by (rewrite (set_wf_size _ Hwf), Hkey; cbn; lia).
  rewrite <- Esz in Hs1, Hsz.
  destruct (exec_lookup m set 4 pk s1 _ Hc1 Hset ltac:(lia) Hs1) as (s2 & Hc2 & Hw2 & E2).
  change (Z.of_nat 4) with 4 in E2. exists s2. split_and!; [done|by rewrite Hw2, Hw1|].
  rewrite E2. unfold set_contains. rewrite Ht.
  assert (existsb (lpm_covers (le_split 4 (8 * Z.of_nat n) ++ comp_field pk type ++ pad)) (set_elems set) =
          existsb (net_covers (comp_field pk type)) (set_elems set)) as ->; [|done].
  pose proof (set_wf_elems _ Hwf) as Hel. revert Hel Hbytes.
  generalize (set_elems set). induction l as [|e l IH]; [done|].
  intros [He Hel]%Forall_cons [Hbe Hb]%Forall_cons. cbn [existsb]. rewrite IH by done. f_equal.
  apply (lpm_covers_spec n); [done|done|lia|auto with bf].
Qed.

Lemma gemits_set_trie m set type meta : (4 <= length (matcher_payload m))%nat -> set_key set = [type] -> is_net_type type = true -> comp_ok type meta ->
  bf_chain_get_set_for_matcher c m = Some set ->
  gemits c fl (_bf_matcher_generate_set_trie m) (trie_block m type meta).
Proof.
  intros Hl Hkey Hnet Hm Hset. unfold _bf_matcher_generate_set_trie. apply gemits_payload; [done|].
  intros p Hp. rewrite prog_get.
  replace (prog_chain p) with c by (symmetry; apply Hp). rewrite Hset, Hkey, (co_meta _ _ Hm).
  revert p Hp. unfold trie_block.
  apply gemits_seq; [by eapply gemits_check|]. apply gemits_seq; [by eapply gemits_load|].
  apply gemits_seq; [|apply gemits_lookup]. unfold trie_fill.
  assert (is_trie4 type = false -> is_trie6 type = true) as H6 by (by destruct type).
  destruct (is_trie4 type); [|rewrite H6 by done];
    repeat (apply (gemits_seq _ _ _ _ [_]); [gen_emit|]); gen_emit.
Qed.

(** ** The generator *)

Lemma gen_set_matches m set : (4 <= length (matcher_payload m))%nat -> matcher_type m = BF_MATCHER_SET ->
  chain_sets c !! Z.to_nat (payload_u32 m) = Some set -> set_wf set ->
  Forall is_bytes (set_elems set) ->
  (set_use_trie set = false -> key_fields_size (set_key set) <= 64) ->
  gen_matches c fl lo (bf_matcher_generate_set m) (pure_match (W := W) (match_set set)).
Proof.
  intros Hl Hmt Hset Hwf Hb Hsz.
  assert (bf_chain_get_set_for_matcher c m = Some set) as Hget
    by (unfold bf_chain_get_set_for_matcher; by rewrite decide_True by done).
  destruct (set_use_trie set) eqn:Ht.
  - destruct (trie_key set Hwf Ht) as (t & Hkey & Hnet).
    assert (is_Some (bf_matcher_get_ops t BF_MATCHER_IN)) as Hops
      by (pose proof (set_wf_ops _ Hwf) as Ho; rewrite Hkey in Ho; by inversion Ho).
    destruct (comp_ok_in t Hops) as [meta Hm].
    exists (trie_block m t meta). split; [|by eapply block_trie].
    apply gemits_payload; [done|]. intros p Hp. rewrite prog_get.
    replace (prog_chain p) with c by (symmetry; apply Hp). rewrite Hget, Ht.
    by eapply gemits_set_trie.
  - destruct (key_ok_in (set_key set) (set_wf_ops _ Hwf)) as [metas Hk].
    exists (hash_block m metas). split; [|apply (block_hash m set metas); auto].
    apply gemits_payload; [done|]. intros p Hp. rewrite prog_get.
    replace (prog_chain p) with c by (symmetry; apply Hp). rewrite Hget, Ht.
    revert p Hp. apply gemits_seq; [by apply gemits_checks|].
    apply gemits_seq; [by apply gemits_build_key|apply gemits_lookup].
Qed.
End Correct.
