(* ===== verification/Prologue.v ===== *)
(** The prologues of the four flavors: [src/bpfilter/cgen/nf.c], [tc.c],
    [xdp.c], [cgroup.c].  They fill the runtime context and leave the network
    protocol in R7 and the transport protocol in R8. *)

From S2P Require Import Prelude Bytes Bpf Helper Hook Matcher BfSet Sys Map Rule Chain Printer.
From S2P Require Import Btf Program Block BlockExec Fixups Context Symbolic Match Swich Flavors Stub.

(** The two slots of a wide immediate are one item. *)
Lemma gemits_ld_imm64 c fl d v : gemits c fl (emit_all (BPF_LD_IMM64 d v))
  [ILd64 (mk_insn 0x18 d 0 0 (s32 v)) (mk_insn 0 0 0 0 (s32 (u64 v / 2 ^ 32))) None].
Proof.
  intros p Hp. destruct (gemits_emit_all c fl (BPF_LD_IMM64 d v) p Hp) as (q & E & cap & ->).
  exists (with_img p (prog_img p ++ flat ((fun i => ISingle i None) <$> BPF_LD_IMM64 d v)) cap
            (prog_fixups p ++ fixups (img_size p) ((fun i => ISingle i None) <$> BPF_LD_IMM64 d v))).
  split; [exact E|]. by exists cap.
Qed.

Definition AF_INET : Z := 2.
Definition AF_INET6 : Z := 10.
Definition ETH_HLEN : Z := 14.
Definition offsetof_sk_buff_len : Z := 0.
Definition offsetof_xdp_md_data : Z := 0.
Definition offsetof_xdp_md_data_end : Z := 4.
Definition offsetof_xdp_md_ingress_ifindex : Z := 12.

Definition _bf_nf_hook_is_ingress (hook : bf_hook) : bool :=
  match hook with
  | BF_HOOK_NF_PRE_ROUTING | BF_HOOK_NF_LOCAL_IN | BF_HOOK_NF_FORWARD => true
  | _ => false
  end.

(** The address family in [reg] to the ethertype in R7. *)
Definition family_swich (reg : Z) : bf_swich :=
  let swich := bf_swich_init reg in
  let swich := bf_swich_add_option swich AF_INET [BPF_MOV64_IMM BPF_REG_7 (htobe16 ETH_P_IP)] in
  let swich := bf_swich_add_option swich AF_INET6 [BPF_MOV64_IMM BPF_REG_7 (htobe16 ETH_P_IPV6)] in
  bf_swich_set_default swich [BPF_MOV64_IMM BPF_REG_7 0].

Section Prologues.
Context `{CgenEnv}.

Definition _bf_nf_gen_inline_prologue : gen unit :=
  offset ← gen_lift (bf_btf_get_field_off "bpf_nf_ctx" "state");
  EMIT (BPF_LDX_MEM BPF_DW BPF_REG_2 BPF_REG_1 offset) ;;
  p ← gen_get;
  offset ← gen_lift (bf_btf_get_field_off "nf_hook_state"
                       (if _bf_nf_hook_is_ingress (chain_hook (prog_chain p)) then "in" else "out"));
  EMIT (BPF_LDX_MEM BPF_DW BPF_REG_3 BPF_REG_2 offset) ;;
  offset ← gen_lift (bf_btf_get_field_off "net_device" "ifindex");
  EMIT (BPF_LDX_MEM BPF_W BPF_REG_4 BPF_REG_3 offset) ;;
  EMIT (BPF_STX_MEM BPF_W BPF_REG_10 BPF_REG_4 (BF_PROG_CTX_OFF RT_ifindex)) ;;
  offset ← gen_lift (bf_btf_get_field_off "nf_hook_state" "pf");
  EMIT (BPF_LDX_MEM BPF_B BPF_REG_3 BPF_REG_2 offset) ;;
  bf_swich_generate (family_swich BPF_REG_3) ;;
  EMIT (BPF_ST_MEM BPF_W BPF_REG_10 (BF_PROG_CTX_OFF RT_l3_offset) 0) ;;
  offset ← gen_lift (bf_btf_get_field_off "bpf_nf_ctx" "skb");
  EMIT (BPF_LDX_MEM BPF_DW BPF_REG_1 BPF_REG_1 offset) ;;
  offset ← gen_lift (bf_btf_get_field_off "sk_buff" "len");
  EMIT (BPF_LDX_MEM BPF_W BPF_REG_2 BPF_REG_1 offset) ;;
  EMIT (BPF_ALU64_IMM BPF_ADD BPF_REG_2 ETH_HLEN) ;;
  EMIT (BPF_STX_MEM BPF_DW BPF_REG_10 BPF_REG_2 (BF_PROG_CTX_OFF RT_pkt_size)) ;;
  bf_stub_make_ctx_skb_dynptr BPF_REG_1 ;;
  bf_stub_parse_l3_hdr ;;
  bf_stub_parse_l4_hdr.

Definition _bf_tc_gen_inline_prologue : gen unit :=
  EMIT (BPF_LDX_MEM BPF_W BPF_REG_3 BPF_REG_1 offsetof_sk_buff_len) ;;
  EMIT (BPF_STX_MEM BPF_DW BPF_REG_10 BPF_REG_3 (BF_PROG_CTX_OFF RT_pkt_size)) ;;
  r ← gen_lift (bf_btf_get_field_off "__sk_buff" "ifindex");
  EMIT (BPF_LDX_MEM BPF_W BPF_REG_2 BPF_REG_1 r) ;;
  EMIT (BPF_STX_MEM BPF_W BPF_REG_10 BPF_REG_2 (BF_PROG_CTX_OFF RT_ifindex)) ;;
  bf_stub_make_ctx_skb_dynptr BPF_REG_1 ;;
  bf_stub_parse_l2_ethhdr ;;
  bf_stub_parse_l3_hdr ;;
  bf_stub_parse_l4_hdr.

Definition _bf_xdp_gen_inline_prologue : gen unit :=
  EMIT (BPF_LDX_MEM BPF_W BPF_REG_2 BPF_REG_1 offsetof_xdp_md_data) ;;
  EMIT (BPF_LDX_MEM BPF_W BPF_REG_3 BPF_REG_1 offsetof_xdp_md_data_end) ;;
  EMIT (BPF_ALU64_REG BPF_SUB BPF_REG_3 BPF_REG_2) ;;
  EMIT (BPF_STX_MEM BPF_DW BPF_REG_10 BPF_REG_3 (BF_PROG_CTX_OFF RT_pkt_size)) ;;
  EMIT (BPF_LDX_MEM BPF_W BPF_REG_2 BPF_REG_1 offsetof_xdp_md_ingress_ifindex) ;;
  EMIT (BPF_STX_MEM BPF_W BPF_REG_10 BPF_REG_2 (BF_PROG_CTX_OFF RT_ifindex)) ;;
  bf_stub_make_ctx_xdp_dynptr BPF_REG_1 ;;
  bf_stub_parse_l2_ethhdr ;;
  bf_stub_parse_l3_hdr ;;
  bf_stub_parse_l4_hdr.

Definition _bf_cgroup_gen_inline_prologue : gen unit :=
  EMIT (BPF_LDX_MEM BPF_W BPF_REG_3 BPF_REG_1 offsetof_sk_buff_len) ;;
  EMIT (BPF_ALU64_IMM BPF_ADD BPF_REG_3 ETH_HLEN) ;;
  EMIT (BPF_STX_MEM BPF_DW BPF_REG_10 BPF_REG_3 (BF_PROG_CTX_OFF RT_pkt_size)) ;;
  r ← gen_lift (bf_btf_get_field_off "__sk_buff" "ifindex");
  EMIT (BPF_LDX_MEM BPF_W BPF_REG_2 BPF_REG_1 r) ;;
  EMIT (BPF_STX_MEM BPF_W BPF_REG_10 BPF_REG_2 (BF_PROG_CTX_OFF RT_ifindex)) ;;
  offset ← gen_lift (bf_btf_get_field_off "__sk_buff" "family");
  EMIT (BPF_LDX_MEM BPF_W BPF_REG_2 BPF_REG_1 offset) ;;
  bf_swich_generate (family_swich BPF_REG_2) ;;
  EMIT (BPF_ST_MEM BPF_W BPF_REG_10 (BF_PROG_CTX_OFF RT_l3_offset) 0) ;;
  bf_stub_make_ctx_skb_dynptr BPF_REG_1 ;;
  bf_stub_parse_l3_hdr ;;
  bf_stub_parse_l4_hdr.

Definition gen_inline_prologue (fl : bf_flavor) : gen unit :=
  match fl with
  | BF_FLAVOR_NF => _bf_nf_gen_inline_prologue
  | BF_FLAVOR_TC => _bf_tc_gen_inline_prologue
  | BF_FLAVOR_XDP => _bf_xdp_gen_inline_prologue
  | BF_FLAVOR_CGROUP => _bf_cgroup_gen_inline_prologue
  end.
End Prologues.

(** * Emission

    With the kernel's BTF known and without messages, every prologue emits a
    block. *)

(** [gen_emits g] : [g] appends some block, the same from any program, without
    jumps to the next rule. *)
Definition gen_emits (c : bf_chain) (fl : bf_flavor) (g : gen unit) : Prop :=
  exists b, gemits c fl g b /\ forallb no_rule b = true.

(** Every block a generator appends has the same fixups. *)
Lemma gen_emits_no_rule c fl g b p : prog_of c fl p -> gemits c fl g b -> gen_emits c fl g ->
  forallb no_rule b = true.
Proof.
  intros Hp Hb (b' & Hb' & N). destruct (Hb p Hp) as (q & E & [cap Eq]).
  destruct (Hb' p Hp) as (q' & E' & [cap' Eq']). rewrite E' in E. injection E as ->.
  apply (no_rule_fixups b (img_size p)). rewrite Eq' in Eq.
  assert (fixups (img_size p) b' = fixups (img_size p) b) as <-.
  { apply (f_equal prog_fixups) in Eq. cbn in Eq. by apply app_inv_head in Eq. }
  by apply no_rule_fixups.
Qed.

(** The fields of the kernel that the prologues and the mark read. *)
Definition used_fields : list (string * string) :=
  [("bpf_nf_ctx", "state"); ("bpf_nf_ctx", "skb"); ("nf_hook_state", "in"); ("nf_hook_state", "out");
   ("nf_hook_state", "pf"); ("net_device", "ifindex"); ("sk_buff", "len"); ("sk_buff", "mark");
   ("__sk_buff", "ifindex"); ("__sk_buff", "family")]%string.

(** The functions of the kernel that the programs call. *)
Definition used_kfuncs : list string :=
  ["bpf_dynptr_from_xdp"; "bpf_dynptr_from_skb"; "bpf_dynptr_slice"]%string.

Record env_ok `{CgenEnv} : Prop := mk_env_ok {
  env_kfunc name : name ∈ used_kfuncs -> exists id, bf_btf_get_id name = Ok id;
  env_btf_off s f : (s, f) ∈ used_fields -> exists o, bf_btf_get_field_off s f = Ok o;
  env_quiet : bf_opts_is_verbose_bpf = false
}.

Section Emission.
Context `{CgenEnv} (Henv : env_ok) (c : bf_chain) (fl : bf_flavor).

Abbreviation emitted g := (gen_emits c fl g).

Lemma emitted_seq g1 g2 : emitted g1 -> emitted g2 -> emitted (g1 ;; g2).
Proof.
  intros (b1 & H1 & N1) (b2 & H2 & N2). exists (b1 ++ b2). split; [by apply gemits_seq|].
  by rewrite forallb_app, N1, N2.
Qed.

Lemma emitted_off s f k : (s, f) ∈ used_fields -> (forall o, emitted (k o)) ->
  emitted (gen_lift (bf_btf_get_field_off s f) ≫= k).
Proof.
  intros Hin Hk. destruct (env_btf_off Henv s f Hin) as [o Ho]. destruct (Hk o) as (b & Hb & N).
  exists b. split; [by eapply gemits_lift|done].
Qed.

(** Generators that read the program read its chain and its flavor. *)
Definition prog0 : bf_program := 
  let map := mk_map BF_MAP_TYPE_LOG BF_BPF_MAP_TYPE_RINGBUF EmptyString 0 0 0 (-1) in
  mk_program fl c [] map map map [] (bf_link_new EmptyString) (fun _ => O) [] 0 [] (-1).

Lemma emitted_get k : (forall p, prog_of c fl p -> k p = k prog0) -> emitted (k prog0) ->
  emitted (gen_get ≫= k).
Proof.
  intros Hk (b & Hb & N). exists b. split; [|done]. intros p Hp. unfold mbind, gen_bind, gen_get.
  rewrite (Hk p Hp). by apply Hb.
Qed.

Lemma emitted_jmpctx i g : emitted g -> emitted (with_jmpctx i g).
Proof. intros (b & Hb & N). eexists. split; [by apply gemits_with_jmpctx|done]. Qed.

Lemma emitted_kfunc name : name ∈ used_kfuncs -> emitted (bf_program_emit_kfunc_call name).
Proof.
  intros Hin. destruct (env_kfunc Henv name Hin) as [id Hid]. eexists. split; [|shelve]. unfold bf_program_emit_kfunc_call.
  eapply gemits_lift; [exact Hid|apply gemits_EMIT]. Unshelve. done.
Qed.

Lemma emitted_EMIT i : emitted (EMIT i).
Proof. eexists. split; [apply gemits_EMIT|done]. Qed.
Lemma emitted_swich sw : emitted (bf_swich_generate sw).
Proof. eexists. split; [apply gemits_swich|apply swich_no_rule]. Qed.
Lemma emitted_ret : emitted (mret tt).
Proof. eexists. split; [apply gemits_ret|done]. Qed.
Lemma emitted_counters r : emitted (EMIT_LOAD_COUNTERS_FD_FIXUP r).
Proof. eexists. split; [apply gemits_emit_load_fd|done]. Qed.
Lemma emitted_log r : emitted (EMIT_LOAD_LOG_FD_FIXUP r).
Proof. eexists. split; [apply gemits_emit_load_fd|done]. Qed.
Lemma emitted_stub id : emitted (EMIT_FIXUP_ELFSTUB id).
Proof. eexists. split; [apply gemits_EMIT_FIXUP_ELFSTUB|done]. Qed.
Lemma emitted_verdict v k : is_Some (get_verdict fl v) -> (forall x, emitted (k x)) -> emitted (gen_verdict v ≫= k).
Proof.
  intros [x Hx] Hk. destruct (Hk x) as (b & Hb & N). exists b. split; [|done]. intros p Hp.
  unfold gen_verdict, mbind, gen_bind, gen_get, gen_lift, of_option.
  destruct Hp as [Hc Hf]. rewrite Hf, Hx. by apply Hb.
Qed.

Ltac emitted_step :=
  lazymatch goal with
  | |- gen_emits _ _ (gen_lift (bf_btf_get_field_off _ _) ≫= _) =>
      apply emitted_off; [repeat case_match; by apply (bool_decide_eq_true_1 _)|intros ?]
  | |- gen_emits _ _ (gen_get ≫= _) =>
      apply emitted_get;
        [intros ? [Hp ?]; cbn beta; unfold bf_program_error_counter_idx; rewrite ?Hp; reflexivity|]
  | |- gen_emits _ _ (gen_verdict _ ≫= _) => apply emitted_verdict; [by destruct fl; eexists|intros ?]
  | |- gen_emits _ _ (_ ≫= _) => apply emitted_seq
  | |- gen_emits _ _ (with_jmpctx _ _) => apply emitted_jmpctx
  | |- gen_emits _ _ (EMIT _) => apply emitted_EMIT
  | |- gen_emits _ _ (bf_swich_generate _) => apply emitted_swich
  | |- gen_emits _ _ (bf_program_emit_kfunc_call _) => apply emitted_kfunc; [first [done | by apply (bool_decide_eq_true_1 _)]]
  | |- gen_emits _ _ (EMIT_LOAD_COUNTERS_FD_FIXUP _) => apply emitted_counters
  | |- gen_emits _ _ (EMIT_FIXUP_ELFSTUB _) => apply emitted_stub
  | |- gen_emits _ _ (EMIT_LOAD_LOG_FD_FIXUP _) => apply emitted_log
  | |- gen_emits _ _ (mret tt) => apply emitted_ret
  end.
Ltac emitted_tac := cbn zeta; repeat emitted_step.

Lemma emitted_quit msg : emitted (gen_quit msg).
Proof. unfold gen_quit. rewrite (env_quiet Henv). emitted_tac. Qed.

Lemma emitted_dynptr kfunc : kfunc ∈ used_kfuncs -> emitted (_bf_stub_make_ctx_dynptr BPF_REG_1 kfunc).
Proof. intros Hin. unfold _bf_stub_make_ctx_dynptr. rewrite decide_True by done. emitted_tac. apply emitted_quit. Qed.

Lemma emitted_l2 : emitted bf_stub_parse_l2_ethhdr.
Proof. unfold bf_stub_parse_l2_ethhdr. emitted_tac. apply emitted_quit. Qed.

Lemma emitted_no_rule g b : gemits c fl g b -> emitted g -> forallb no_rule b = true.
Proof. by apply (gen_emits_no_rule c fl g b prog0). Qed.

(** The stub the IPv6 scope calls depends on the chain's flags. *)
Definition eh_stub : bf_elfstub_id :=
  if chain_has c BF_CHAIN_STORE_NEXTHDR then BF_ELFSTUB_PARSE_IPV6_NH else BF_ELFSTUB_PARSE_IPV6_EH.

Definition ip6_block : block :=
  let jmp op d imm (o : nat) := ISingle (set_insn_off (s16 (Z.of_nat o)) (BPF_JMP_IMM op d imm 0)) None in
  [ISingle (BPF_LDX_MEM BPF_B BPF_REG_8 BPF_REG_0 offsetof_ipv6hdr_nexthdr) None;
   jmp BPF_JEQ BPF_REG_8 IPPROTO_TCP 17%nat; jmp BPF_JEQ BPF_REG_8 IPPROTO_UDP 16%nat;
   ILd64 (mk_insn 0x18 BPF_REG_2 0 0 (s32 _BF_LOW_EH_BITMASK))
         (mk_insn 0 0 0 0 (s32 (u64 _BF_LOW_EH_BITMASK / 2 ^ 32))) None;
   ISingle (BPF_JMP_IMM BPF_JGE BPF_REG_8 64 4) None;
   ISingle (BPF_MOV64_IMM BPF_REG_3 1) None;
   ISingle (BPF_ALU64_REG BPF_LSH BPF_REG_3 BPF_REG_8) None;
   ISingle (BPF_ALU64_REG BPF_AND BPF_REG_3 BPF_REG_2) None;
   ISingle (BPF_JMP_IMM BPF_JNE BPF_REG_3 0 4) None;
   ISingle (BPF_JMP_IMM BPF_JEQ BPF_REG_8 135 3) None;
   ISingle (BPF_JMP_IMM BPF_JEQ BPF_REG_8 139 2) None;
   ISingle (BPF_JMP_IMM BPF_JEQ BPF_REG_8 140 1) None;
   ISingle (set_insn_off (s16 (Z.of_nat 5%nat)) (BPF_JMP_A 0)) None;
   ISingle (BPF_MOV64_REG BPF_REG_1 BPF_REG_10) None;
   ISingle (BPF_ALU64_IMM BPF_ADD BPF_REG_1 (BF_PROG_CTX_OFF RT_arg)) None;
   ISingle (BPF_CALL_REL 0) (Some (BF_FIXUP_ELFSTUB_CALL, AttrStub eh_stub));
   ISingle (BPF_MOV64_REG BPF_REG_8 BPF_REG_0) None;
   ISingle (set_insn_off (s16 (Z.of_nat 3%nat)) (BPF_JMP_A 0)) None;
   ISingle (BPF_LDX_MEM BPF_W BPF_REG_2 BPF_REG_10 (BF_PROG_CTX_OFF RT_l3_offset)) None;
   ISingle (BPF_ALU64_IMM BPF_ADD BPF_REG_2 sizeof_ipv6hdr) None;
   ISingle (BPF_STX_MEM BPF_W BPF_REG_10 BPF_REG_2 (BF_PROG_CTX_OFF RT_l4_offset)) None].

Lemma gemits_ip6 : gemits c fl parse_l3_ip6 ip6_block.
Proof.
  apply gtriple_gemits. intros p0 Hp0. unfold parse_l3_ip6. cbn zeta.
  eapply gtriple_bind; [done|apply gemits_triple, gemits_EMIT|]. intros [] ? ->.
  eapply (gtriple_bind _ _ _ _ _ _ (fun k b => k = (img_size p0 + 1)%nat /\ b = _)); [done| |].
  { by apply gtriple_jmpctx_get. }
  intros ? ? [-> ->].
  eapply (gtriple_bind _ _ _ _ _ _ (fun k b => k = (img_size p0 + 2)%nat /\ b = _)); [done| |].
  { by apply gtriple_jmpctx_get. }
  intros ? ? [-> ->].
  eapply gtriple_bind; [done|apply gemits_triple, gemits_ld_imm64|]. intros [] ? ->.
  do 8 (eapply gtriple_bind; [done|apply gemits_triple, gemits_EMIT|]; intros [] ? ->).
  eapply (gtriple_bind _ _ _ _ _ _ (fun k b => k = (img_size p0 + 13)%nat /\ b = _)); [done| |].
  { by apply gtriple_jmpctx_get. }
  intros ? ? [-> ->].
  do 2 (eapply gtriple_bind; [done|apply gemits_triple, gemits_EMIT|]; intros [] ? ->).
  apply gtriple_get. intros p [Hc _]. rewrite Hc. clear p Hc.
  eapply gtriple_bind; [done| |].
  { apply (gemits_triple _ _ _ [ISingle (BPF_CALL_REL 0) (Some (BF_FIXUP_ELFSTUB_CALL, AttrStub eh_stub))]).
    unfold eh_stub. destruct (chain_has c _); apply gemits_EMIT_FIXUP_ELFSTUB. }
  intros [] ? ->.
  eapply gtriple_bind; [done|apply gemits_triple, gemits_EMIT|]. intros [] ? ->.
  eapply (gtriple_bind _ _ _ _ _ _ (fun k b => k = (img_size p0 + 18)%nat /\ b = _)); [done| |].
  { by apply gtriple_jmpctx_get. }
  intros ? ? [-> ->].
  do 3 (eapply (gtriple_bind _ _ _ _ _ _ (fun _ b => b = _)); [done|by apply gtriple_jmpctx_cleanup|];
    intros [] ? ->).
  do 3 (eapply gtriple_bind; [done|apply gemits_triple, gemits_EMIT|]; intros [] ? ->).
  apply gtriple_jmpctx_cleanup. reflexivity.
Qed.

Lemma emitted_l3 : emitted bf_stub_parse_l3_hdr.
Proof.
  unfold bf_stub_parse_l3_hdr, parse_l3_ip4. emitted_tac; [apply emitted_quit|].
  eexists. split; [apply gemits_ip6|done].
Qed.

Lemma emitted_l4 : emitted bf_stub_parse_l4_hdr.
Proof. unfold bf_stub_parse_l4_hdr. emitted_tac. apply emitted_quit. Qed.

Ltac prologue_tac :=
  emitted_tac;
  lazymatch goal with
  | |- gen_emits _ _ bf_stub_parse_l2_ethhdr => apply emitted_l2
  | |- gen_emits _ _ bf_stub_parse_l3_hdr => apply emitted_l3
  | |- gen_emits _ _ bf_stub_parse_l4_hdr => apply emitted_l4
  | |- _ => apply emitted_dynptr; by apply (bool_decide_eq_true_1 _)
  end.

Lemma emitted_nf : emitted _bf_nf_gen_inline_prologue.
Proof. unfold _bf_nf_gen_inline_prologue, bf_stub_make_ctx_skb_dynptr. prologue_tac. Qed.
Lemma emitted_tc : emitted _bf_tc_gen_inline_prologue.
Proof. unfold _bf_tc_gen_inline_prologue, bf_stub_make_ctx_skb_dynptr. prologue_tac. Qed.
Lemma emitted_xdp : emitted _bf_xdp_gen_inline_prologue.
Proof. unfold _bf_xdp_gen_inline_prologue, bf_stub_make_ctx_xdp_dynptr. prologue_tac. Qed.
Lemma emitted_cgroup : emitted _bf_cgroup_gen_inline_prologue.
Proof. unfold _bf_cgroup_gen_inline_prologue, bf_stub_make_ctx_skb_dynptr. prologue_tac. Qed.
End Emission.

Lemma gen_inline_prologue_emits `{CgenEnv} c fl : env_ok -> gen_emits c fl (gen_inline_prologue fl).
Proof.
  intros Henv. destruct fl; [by apply emitted_tc|by apply emitted_nf|by apply emitted_xdp|by apply emitted_cgroup].
Qed.
