(* ===== verification/Ipv6.v ===== *)
(** What the IPv6 part of the layer 3 parser does ([bf_stub_parse_l3_hdr] of
    [src/bpfilter/cgen/stub.c]): which next headers are handed to the stub that
    walks the extension headers. *)

From S2P Require Import Prelude Bytes Bpf Helper Hook Matcher BfSet Sys Map Rule Chain Printer.
From S2P Require Import Program Block BlockExec Fixups Context Symbolic Match Swich Flavors Stub.
From S2P Require Import Prologue.

(** The next headers of the mask, and the three tested one by one.  The
    source's comment on the mask lists hop-by-hop (0), routing (43), fragment
    (44), ESP (50), AH (51) and destination options (60). *)
Definition eh_walked (nexthdr : Z) : bool :=
  (nexthdr =? 0) || (nexthdr =? 11) || (nexthdr =? 47) || (nexthdr =? 48) || (nexthdr =? 59) ||
  (nexthdr =? 60) || (nexthdr =? 135) || (nexthdr =? 139) || (nexthdr =? 140).

(** What the code tests. *)
Definition eh_masked (n : Z) : bool :=
  negb (Z.land (u64 (Z.shiftl 1 (n mod 64))) (u64 _BF_LOW_EH_BITMASK) =? 0).

Definition eh_code (n : Z) : bool :=
  if (n =? IPPROTO_TCP) || (n =? IPPROTO_UDP) then false
  else if (n <? 64) && eh_masked n then true
  else (n =? 135) || (n =? 139) || (n =? 140).

Lemma eh_code_walked n : 0 <= n < 2 ^ 8 -> eh_code n = eh_walked n.
Proof.
  intros Hn. assert (forallb (fun k => Bool.eqb (eh_code (Z.of_nat k)) (eh_walked (Z.of_nat k))) (seq 0 256) = true)
    as Hall by (by vm_compute).
  rewrite forallb_forall in Hall. specialize (Hall (Z.to_nat n)). rewrite Z2Nat.id in Hall by lia.
  apply Bool.eqb_prop, Hall, in_seq. lia.
Qed.

Section Exec.
Context {W : Type} `{Kernel W} (c : bf_chain).
Implicit Types (s : vm W).

Lemma ex_ld64 d v b s :
  exec (ILd64 (mk_insn 0x18 d 0 0 (s32 v)) (mk_insn 0 0 0 0 (s32 (u64 v / 2 ^ 32))) None :: b) 0 s =
  exec b 0 (set_reg d (u32 (s32 v) + 2 ^ 32 * u32 (s32 (u64 v / 2 ^ 32))) s).
Proof. done. Qed.

(** The call of the stub. *)
Definition eh_call : block :=
  [ISingle (BPF_MOV64_REG BPF_REG_1 BPF_REG_10) None;
   ISingle (BPF_ALU64_IMM BPF_ADD BPF_REG_1 (BF_PROG_CTX_OFF RT_arg)) None;
   ISingle (BPF_CALL_REL 0) (Some (BF_FIXUP_ELFSTUB_CALL, AttrStub (eh_stub c)));
   ISingle (BPF_MOV64_REG BPF_REG_8 BPF_REG_0) None;
   ISingle (set_insn_off (s16 (Z.of_nat 3%nat)) (BPF_JMP_A 0)) None].

Definition eh_none : block :=
  [ISingle (BPF_LDX_MEM BPF_W BPF_REG_2 BPF_REG_10 (BF_PROG_CTX_OFF RT_l3_offset)) None;
   ISingle (BPF_ALU64_IMM BPF_ADD BPF_REG_2 sizeof_ipv6hdr) None;
   ISingle (BPF_STX_MEM BPF_W BPF_REG_10 BPF_REG_2 (BF_PROG_CTX_OFF RT_l4_offset)) None].

Definition eh_tests : block := take 13 (ip6_block c).

Lemma ip6_block_split : ip6_block c = eh_tests ++ eh_call ++ eh_none.
Proof. reflexivity. Qed.

(** A jump whose offset is a literal. *)
Lemma jmp_lit op d imm (n : nat) : Z.of_nat n < 2 ^ 15 ->
  BPF_JMP_IMM op d imm (Z.of_nat n) = set_insn_off (s16 (Z.of_nat n)) (BPF_JMP_IMM op d imm (Z.of_nat n)).
Proof. intros Hn. unfold BPF_JMP_IMM, set_insn_off. cbn. by rewrite !s16_small by lia. Qed.

Definition eh_last : block :=
  [ISingle (BPF_JMP_IMM BPF_JEQ BPF_REG_8 135 3) None;
   ISingle (BPF_JMP_IMM BPF_JEQ BPF_REG_8 139 2) None;
   ISingle (BPF_JMP_IMM BPF_JEQ BPF_REG_8 140 1) None;
   ISingle (set_insn_off (s16 (Z.of_nat 5%nat)) (BPF_JMP_A 0)) None].

Lemma exec_eh_last s n : regs s !! 8 = Some n -> 
  exec eh_last 0 s = BFall (if (n =? 135) || (n =? 139) || (n =? 140) then 0 else 5) s.
Proof.
  intros H8. unfold eh_last. change 3 with (Z.of_nat 3). change 2 with (Z.of_nat 2) at 1. change 1 with (Z.of_nat 1).
  rewrite jmp_lit by lia. erewrite ex_jmp_imm; [|code_tac|exact H8|done|lia].
  change (u64 (s32 135)) with 135. destruct (n =? 135); [done|]. cbn [orb].
  rewrite jmp_lit by lia. erewrite ex_jmp_imm; [|code_tac|exact H8|done|lia].
  change (u64 (s32 139)) with 139. destruct (n =? 139); [done|]. cbn [orb].
  rewrite jmp_lit by lia. erewrite ex_jmp_imm; [|code_tac|exact H8|done|lia].
  change (u64 (s32 140)) with 140. destruct (n =? 140); [done|].
  by rewrite ex_ja by lia.
Qed.

(** The tests fall through to the call, or jump over it. *)
Lemma exec_eh_tests s h n : regs s !! 0 = Some h -> load (mem s) 1 (h + 6) = Some n -> 0 <= n < 2 ^ 8 ->
  exists s', exec eh_tests 0 s = BFall (if eh_walked n then 0 else 5) s' /\
    mem s' = mem s /\ world s' = world s /\ regs s' !! 8 = Some n /\ regs s' !! 10 = regs s !! 10.
Proof.
  intros H0 Hl Hn. rewrite <- eh_code_walked by done. unfold eh_tests.
  cbn [take ip6_block].
  erewrite ex_ldx; [|code_tac|exact H0|exact Hl].
  erewrite ex_jmp_imm; [|code_tac|reg_tac|done|lia]. change (u64 (s32 IPPROTO_TCP)) with IPPROTO_TCP.
  unfold eh_code. destruct (n =? IPPROTO_TCP); cbn [orb].
  { eexists. split; [reflexivity|]. split_and!; [done|done|reg_tac|reg_tac]. }
  erewrite ex_jmp_imm; [|code_tac|reg_tac|done|lia]. change (u64 (s32 IPPROTO_UDP)) with IPPROTO_UDP.
  destruct (n =? IPPROTO_UDP); cbn [orb].
  { eexists. split; [reflexivity|]. split_and!; [done|done|reg_tac|reg_tac]. }
  rewrite ex_ld64. change 4 with (Z.of_nat 4). rewrite jmp_lit by lia.
  erewrite ex_jmp_imm; [|code_tac|reg_tac|done|lia]. change (u64 (s32 64)) with 64.
  rewrite Z.ltb_antisym. destruct (64 <=? n); cbn [negb andb].
  - rewrite !ex_skip1. fold eh_last. erewrite exec_eh_last by reg_tac.
    eexists. split; [reflexivity|]. split_and!; [done|done|reg_tac|reg_tac].
  - rewrite ex_mov64_imm. erewrite ex_alu64_reg; [|code_tac|reg_tac|reg_tac|done].
    erewrite ex_alu64_reg; [|code_tac|reg_tac|reg_tac|done].
    rewrite jmp_lit by lia. erewrite ex_jmp_imm; [|code_tac|reg_tac|done|lia].
    fold eh_last. change (u64 (s32 0)) with 0.
    change (negb (Z.land _ _ =? 0)) with (eh_masked n). destruct (eh_masked n).
    + eexists. split; [reflexivity|]. split_and!; [done|done|reg_tac|reg_tac].
    + erewrite exec_eh_last by reg_tac.
      eexists. split; [reflexivity|]. split_and!; [done|done|reg_tac|reg_tac].
Qed.

(** An extension header: the stub is called on the runtime context and
    returns the transport protocol. *)
Lemma exec_ip6_walked s h fp n : regs s !! 0 = Some h -> regs s !! 10 = Some fp ->
  load (mem s) 1 (h + 6) = Some n -> 0 <= n < 2 ^ 8 -> eh_walked n = true ->
  exists rs, rs !! 1 = Some (u64 (fp + BF_PROG_CTX_OFF RT_arg)) /\
    forall r0 m w, k_stub (eh_stub c) rs (mem s) (world s) = Some (r0, m, w) ->
      exists s', exec (ip6_block c) 0 s = BFall 0 s' /\ regs s' !! 8 = Some r0 /\ mem s' = m /\ world s' = w.
Proof.
  intros H0 H10 Hl Hn Hw. destruct (exec_eh_tests s h n H0 Hl Hn) as (s1 & E & Hm & Hwd & H8 & Hfp).
  rewrite Hw in E. rewrite H10 in Hfp.
  exists (regs (set_reg BPF_REG_1 (u64 (fp + BF_PROG_CTX_OFF RT_arg)) (set_reg BPF_REG_1 fp s1))).
  split; [reg_tac|]. intros r0 m w Hk.
  rewrite ip6_block_split, exec_app, E. cbn [bcont]. rewrite exec_app. unfold eh_call.
  erewrite ex_mov64_reg by exact Hfp.
  erewrite (ex_alu64_imm _ _ _ _ _ fp (u64 (fp + BF_PROG_CTX_OFF RT_arg)));
    [|code_tac|reg_tac|exact (f_equal Some (eq_trans (f_equal u64 (Z.add_comm _ _))
      (eq_trans (u64_add_l (- 240) fp) (f_equal u64 (Z.add_comm _ _)))))].
  erewrite ex_stub; [|vm_simpl; rewrite Hm, Hwd; exact Hk].
  erewrite ex_mov64_reg by reg_tac. rewrite ex_ja by lia. cbn [exec bcont].
  eexists. split; [reflexivity|]. split_and!; [reg_tac|done|done].
Qed.

(** Another next header is the transport protocol, and the transport header
    follows the IPv6 header. *)
Lemma exec_ip6_direct s h fp n o m : regs s !! 0 = Some h -> regs s !! 10 = Some fp ->
  load (mem s) 1 (h + 6) = Some n -> 0 <= n < 2 ^ 8 -> eh_walked n = false ->
  load (mem s) 4 (fp + BF_PROG_CTX_OFF RT_l3_offset) = Some o ->
  store (mem s) 4 (fp + BF_PROG_CTX_OFF RT_l4_offset) (u64 (o + 40)) = Some m ->
  exists s', exec (ip6_block c) 0 s = BFall 0 s' /\ regs s' !! 8 = Some n /\ mem s' = m /\ world s' = world s.
Proof.
  intros H0 H10 Hl Hn Hw Ho Hs. destruct (exec_eh_tests s h n H0 Hl Hn) as (s1 & E & Hm & Hwd & H8 & Hfp).
  rewrite Hw in E. rewrite H10 in Hfp.
  rewrite ip6_block_split, exec_app, E. cbn [bcont]. rewrite exec_app.
  change 5%nat with (size eh_call). rewrite exec_skip_full. cbn [bcont]. unfold eh_none.
  erewrite ex_ldx; [|code_tac|exact Hfp|rewrite Hm, ctx_off_s16; exact Ho].
  erewrite ex_alu64_imm; [|code_tac|reg_tac|reflexivity].
  erewrite ex_stx; [|code_tac|reg_tac|reg_tac|vm_simpl; rewrite Hm, ctx_off_s16; exact Hs].
  eexists. split; [reflexivity|]. split_and!; [reg_tac|done|done].
Qed.
End Exec.
