(* ===== verification/Load.v ===== *)
(** The life of a program: creation, loading of its maps and of its image,
    attachment, pinning ([src/bpfilter/cgen/program.c]).

    The state of an operation is the program and the kernel.  The image of a
    program whose fixups could not be resolved is not used again, so the
    partial writes are not kept. *)

From S2P Require Import Prelude Bytes Bpf Helper Hook Hookopts Matcher BfSet Sys Map Rule.
From S2P Require Import Chain Printer Program Block BlockExec Fixups.
From Stdlib Require Import Ascii.

(** * Creation *)

Definition sizeof_bf_counter : Z := 16.
Definition sizeof_bf_log : Z := 104.
Definition _BF_LOG_MAP_N_ENTRIES : Z := 1000.
Definition _BF_LOG_MAP_SIZE : Z := _bf_round_next_power_of_2 (sizeof_bf_log * _BF_LOG_MAP_N_ENTRIES).

Definition hex_digit (n : Z) : ascii :=
  ascii_of_nat (Z.to_nat (if n <? 10 then 48 + n else 87 + n)).

(** [snprintf(name, BPF_OBJ_NAME_LEN, "set_%04x", (uint8_t)set_idx)] *)
Definition set_map_name (set_idx : nat) : string :=
  let i := u8 (Z.of_nat set_idx) in
  String.append "set_00" (String (hex_digit (i / 16)) (String (hex_digit (i mod 16)) EmptyString)).

Fixpoint set_maps_new (set_idx : nat) (sets : list bf_set) : res (list bf_map) :=
  match sets with
  | [] => Ok []
  | set :: sets =>
      let! map := bf_map_new_from_set (set_map_name set_idx) set in
      let! maps := set_maps_new (S set_idx) sets in
      Ok (map :: maps)
  end.

(** The flavor of the chain's hook, and its operations, are read out of tables. *)
Definition bf_program_new (chain : bf_chain) : res bf_program :=
  let! flavor := of_option (- BF_CRASH) (bf_hook_to_flavor (chain_hook chain)) in
  let! cmap := bf_map_new "counters_map" BF_MAP_TYPE_COUNTERS 4 sizeof_bf_counter 1 in
  let! pmap := bf_map_new "printer_map" BF_MAP_TYPE_PRINTER 4 BF_MAP_VALUE_SIZE_UNKNOWN 1 in
  let! lmap := bf_map_new "log_map" BF_MAP_TYPE_LOG 0 0 _BF_LOG_MAP_SIZE in
  let! sets := set_maps_new 0 (chain_sets chain) in
  Ok (mk_program flavor chain bf_printer_new cmap pmap lmap sets (bf_link_new "bf_link")
        (fun _ => O) [] 0 [] (-1)).

Definition prog_name : string := "bf_prog".

(** * Loading *)

Section Load.
Context {K : Type} `{Sys K} (bf_ctx_token : Z).

Abbreviation M A := (st (bf_program * K) A).

Definition prog_fixup (type : bf_fixup_type) : M unit :=
  fun '(p, k) => match _bf_program_fixup p type with
                 | Ok p => (Ok tt, (p, k))
                 | Err e => (Err e, (p, k))
                 end.

Definition set_cmap (m : bf_map) : M unit :=
  obj_modify (fun p => with_maps p m (prog_pmap p) (prog_lmap p) (prog_sets p)).
Definition set_pmap (m : bf_map) : M unit :=
  obj_modify (fun p => with_maps p (prog_cmap p) m (prog_lmap p) (prog_sets p)).
Definition set_lmap (m : bf_map) : M unit :=
  obj_modify (fun p => with_maps p (prog_cmap p) (prog_pmap p) m (prog_sets p)).
Definition set_sets (ms : list bf_map) : M unit :=
  obj_modify (fun p => with_maps p (prog_cmap p) (prog_pmap p) (prog_lmap p) ms).

(** Create the map of the [i]-th set and fill it: the elements one after the
    other, and as many values 1. *)
Definition load_set_map (i : nat) (set : bf_set) (map : bf_map) : M unit :=
  map ← bf_map_create bf_ctx_token map;
  p ← obj_get;
  set_sets (<[i := map]> (prog_sets p)) ;;
  bf_bpf_map_update_batch (map_fd map) (concat (set_elems set))
    (replicate (length (set_elems set)) 1) (Z.of_nat (length (set_elems set))) BPF_ANY ;;
  mret tt.

(** The sets of the chain and the maps of the program are walked together. *)
Fixpoint load_set_maps (i : nat) (sets : list bf_set) (maps : list bf_map) : M unit :=
  match sets, maps with
  | set :: sets, map :: maps => load_set_map i set map ;; load_set_maps (S i) sets maps
  | _, _ => mret tt
  end.

Fixpoint destroy_maps (maps : list bf_map) (k : K) : list bf_map * K :=
  match maps with
  | [] => ([], k)
  | m :: maps =>
      let '(m, k) := bf_map_destroy m k in
      let '(maps, k) := destroy_maps maps k in
      (m :: maps, k)
  end.

Definition destroy_sets : bf_program * K -> bf_program * K :=
  fun '(p, k) => let '(maps, k) := destroy_maps (prog_sets p) k in
                 (with_maps p (prog_cmap p) (prog_pmap p) (prog_lmap p) maps, k).

Definition _bf_program_load_sets_maps : M unit :=
  st_onerr
    (p ← obj_get;
     load_set_maps 0 (chain_sets (prog_chain p)) (prog_sets p) ;;
     prog_fixup BF_FIXUP_TYPE_SET_MAP_FD)
    destroy_sets.

Definition _bf_program_load_counters_map : M unit :=
  p ← obj_get;
  cmap ← st_lift (bf_map_set_n_elems (prog_cmap p) (Z.of_nat (length (chain_rules (prog_chain p))) + 2));
  set_cmap cmap ;;
  cmap ← bf_map_create bf_ctx_token cmap;
  set_cmap cmap ;;
  st_onerr (prog_fixup BF_FIXUP_TYPE_COUNTERS_MAP_FD)
    (fun '(p, k) => let '(m, k) := bf_map_destroy (prog_cmap p) k in
                    (with_maps p m (prog_pmap p) (prog_lmap p) (prog_sets p), k)).

(** The buffer the string is assembled in has as many bytes as the string;
    its contents before do not matter. *)
Definition printer_string (pr : bf_printer) : list Z :=
  bf_printer_assemble (replicate (Z.to_nat (_bf_printer_total_size pr)) 0) pr.

Definition _bf_program_load_printer_map : M unit :=
  p ← obj_get;
  let pstr := printer_string (prog_printer p) in
  pmap ← st_lift (bf_map_set_value_size (prog_pmap p) (Z.of_nat (length pstr)));
  set_pmap pmap ;;
  pmap ← bf_map_create bf_ctx_token pmap;
  set_pmap pmap ;;
  bf_map_set_elem pmap [0; 0; 0; 0] pstr ;;
  st_onerr (prog_fixup BF_FIXUP_TYPE_PRINTER_MAP_FD)
    (fun '(p, k) => let '(m, k) := bf_map_destroy (prog_pmap p) k in
                    (with_maps p (prog_cmap p) m (prog_lmap p) (prog_sets p), k)).

Definition _bf_program_load_log_map : M unit :=
  p ← obj_get;
  lmap ← bf_map_create bf_ctx_token (prog_lmap p);
  set_lmap lmap ;;
  st_onerr (prog_fixup BF_FIXUP_TYPE_LOG_MAP_FD)
    (fun '(p, k) => let '(m, k) := bf_map_destroy (prog_lmap p) k in
                    (with_maps p (prog_cmap p) (prog_pmap p) m (prog_sets p), k)).

Definition bf_program_load : M unit :=
  _bf_program_load_sets_maps ;;
  _bf_program_load_counters_map ;;
  _bf_program_load_printer_map ;;
  _bf_program_load_log_map ;;
  p ← obj_get;
  prog_type ← st_lift (of_option (- BF_CRASH) (bf_hook_to_bpf_prog_type (chain_hook (prog_chain p))));
  attach_type ← st_lift (of_option (- BF_CRASH) (bf_hook_to_bpf_attach_type (chain_hook (prog_chain p))));
  fd ← bf_bpf_prog_load prog_name prog_type (prog_img p) attach_type bf_ctx_token;
  obj_modify (fun p => with_fd p fd).

(** * After loading *)

(** An operation on the program's link. *)
Definition on_link {A} (m : st (bf_link * K) A) : M A :=
  fun '(p, k) => let '(r, (l, k)) := m (prog_link p, k) in (r, (with_link p l, k)).

Definition bf_program_attach (hookopts : bf_hookopts) : M unit :=
  p ← obj_get;
  on_link (bf_link_attach (chain_hook (prog_chain p)) hookopts (prog_fd p)).

Definition bf_program_detach (p : bf_program) (k : K) : bf_program * K :=
  let '(l, k) := bf_link_detach (prog_link p) k in (with_link p l, k).

Definition bf_program_unload (p : bf_program) (k : K) : bf_program * K :=
  let '(fd, k) := closep (prog_fd p) k in
  let '(l, k) := bf_link_detach (prog_link p) k in
  let '(c, k) := bf_map_destroy (prog_cmap p) k in
  let '(pm, k) := bf_map_destroy (prog_pmap p) k in
  let '(lm, k) := bf_map_destroy (prog_lmap p) k in
  let '(sets, k) := destroy_maps (prog_sets p) k in
  (with_fd (with_link (with_maps p c pm lm sets) l) fd, k).

(** The key is the index in host order. *)
Definition bf_program_get_counter (counter_idx : Z) : M Z :=
  p ← obj_get; bf_bpf_map_lookup_elem (prog_cmap_fd p) (le_split 4 counter_idx).

Definition bf_cgen_set_counters : res unit := Err (- ENOTSUP).

Fixpoint unpin_maps (maps : list bf_map) (dir_fd : Z) (k : K) : K :=
  match maps with [] => k | m :: maps => unpin_maps maps dir_fd (bf_map_unpin m dir_fd k) end.

Definition bf_program_unpin (p : bf_program) (dir_fd : Z) (k : K) : K :=
  let k := bf_map_unpin (prog_cmap p) dir_fd k in
  let k := bf_map_unpin (prog_pmap p) dir_fd k in
  let k := bf_map_unpin (prog_lmap p) dir_fd k in
  let k := unpin_maps (prog_sets p) dir_fd k in
  let k := bf_link_unpin (prog_link p) dir_fd k in
  snd (sys_call (SysUnlinkat dir_fd prog_name) k).

(** Everything is unpinned when pinning one object fails. *)
Definition bf_program_pin (dir_fd : Z) : M unit :=
  st_onerr
    (p ← obj_get;
     bf_bpf_obj_pin prog_name (prog_fd p) dir_fd ;;
     bf_map_pin (prog_cmap p) dir_fd ;;
     bf_map_pin (prog_pmap p) dir_fd ;;
     bf_map_pin (prog_lmap p) dir_fd ;;
     st_iter (fun m => bf_map_pin m dir_fd) (prog_sets p) ;;
     match link_hookopts (prog_link p) with
     | Some _ => bf_link_pin (prog_link p) dir_fd
     | None => mret tt
     end)
    (fun '(p, k) => (p, bf_program_unpin p dir_fd k)).
End Load.

(** * What loading does to the program *)

Section LoadOk.
Context {K : Type} `{Sys K} (tok : Z).

Lemma prog_fixup_ok t (p q : bf_program) (k k' : K) :
  prog_fixup t (p, k) = (Ok tt, (q, k')) -> _bf_program_fixup p t = Ok q.
Proof. unfold prog_fixup. destruct (_bf_program_fixup p t); [by intros [= <- <-]|done]. Qed.

Lemma load_set_map_ok i set map (p q : bf_program) (k k' : K) :
  load_set_map tok i set map (p, k) = (Ok tt, (q, k')) ->
  exists s, q = with_maps p (prog_cmap p) (prog_pmap p) (prog_lmap p) s.
Proof.
  unfold load_set_map. intros E. st_inv E. destruct st as [p1 k1].
  apply bf_map_create_ok in E0 as [-> _]. injection E1 as <- <-. injection E2 as <-.
  destruct st2 as [p3 k3]. apply bf_bpf_obj in E3 as ->. injection E as <- <-. by eexists.
Qed.

Lemma with_maps_id p : with_maps p (prog_cmap p) (prog_pmap p) (prog_lmap p) (prog_sets p) = p.
Proof. by destruct p. Qed.

Lemma load_set_maps_ok sets i maps (p q : bf_program) (k k' : K) :
  load_set_maps tok i sets maps (p, k) = (Ok tt, (q, k')) ->
  exists s, q = with_maps p (prog_cmap p) (prog_pmap p) (prog_lmap p) s.
Proof.
  revert i maps p k. induction sets as [|set sets IH]; intros i maps p k; cbn [load_set_maps].
  - intros [= <- <-]. exists (prog_sets p). by rewrite with_maps_id.
  - destruct maps as [|map maps].
    + intros [= <- <-]. exists (prog_sets p). by rewrite with_maps_id.
    + intros E. st_inv E. destruct st as [p1 k1]. apply load_set_map_ok in E0 as [s ->].
      apply IH in E as [s' ->]. by exists s'.
Qed.

Lemma load_sets_maps_ok (p q : bf_program) (k k' : K) :
  _bf_program_load_sets_maps tok (p, k) = (Ok tt, (q, k')) ->
  exists s, _bf_program_fixup (with_maps p (prog_cmap p) (prog_pmap p) (prog_lmap p) s)
              BF_FIXUP_TYPE_SET_MAP_FD = Ok q.
Proof.
  intros E%st_onerr_ok. st_inv E. injection E0 as <- <-. destruct st0 as [p1 k1].
  apply load_set_maps_ok in E1 as [s ->]. apply prog_fixup_ok in E. by exists s.
Qed.

Lemma load_counters_map_ok (p q : bf_program) (k k' : K) :
  _bf_program_load_counters_map tok (p, k) = (Ok tt, (q, k')) ->
  exists m, _bf_program_fixup (with_maps p m (prog_pmap p) (prog_lmap p) (prog_sets p))
              BF_FIXUP_TYPE_COUNTERS_MAP_FD = Ok q.
Proof.
  unfold _bf_program_load_counters_map. intros E. st_inv E. injection E0 as <- <-.
  injection E1 as E1 <-. injection E2 as <-. destruct st2 as [p2 k2].
  apply bf_map_create_ok in E3 as [-> _]. injection E4 as <-.
  apply st_onerr_ok, prog_fixup_ok in E. by eexists.
Qed.

Lemma load_printer_map_ok (p q : bf_program) (k k' : K) :
  _bf_program_load_printer_map tok (p, k) = (Ok tt, (q, k')) ->
  exists m, _bf_program_fixup (with_maps p (prog_cmap p) m (prog_lmap p) (prog_sets p))
              BF_FIXUP_TYPE_PRINTER_MAP_FD = Ok q.
Proof.
  unfold _bf_program_load_printer_map. intros E. st_inv E. injection E0 as <- <-.
  injection E1 as E1 <-. injection E2 as <-. destruct st2 as [p2 k2].
  apply bf_map_create_ok in E3 as [-> _]. injection E4 as <-.
  destruct st4 as [p4 k4]. apply bf_bpf_obj in E5 as ->.
  apply st_onerr_ok, prog_fixup_ok in E. by eexists.
Qed.

Lemma load_log_map_ok (p q : bf_program) (k k' : K) :
  _bf_program_load_log_map tok (p, k) = (Ok tt, (q, k')) ->
  exists m, _bf_program_fixup (with_maps p (prog_cmap p) (prog_pmap p) m (prog_sets p))
              BF_FIXUP_TYPE_LOG_MAP_FD = Ok q.
Proof.
  unfold _bf_program_load_log_map. intros E. st_inv E. injection E0 as <- <-.
  destruct st0 as [p2 k2]. apply bf_map_create_ok in E1 as [-> _]. injection E2 as <-.
  apply st_onerr_ok, prog_fixup_ok in E. by eexists.
Qed.
End LoadOk.
