(* ===== verification/Fds.v ===== *)
(** File descriptors: which ones a program owns along its life, and what the
    operations of [src/bpfilter/cgen/program.c], [prog/map.c] and
    [prog/link.c] open and close.

    A kernel that implements [FdSys] keeps a set of open descriptors.  The
    invariant [fds_inv G] says that the open descriptors are those of [G] and
    those the program owns.  The operations are specified by triples [hoare],
    whose last component is what holds when an error is returned. *)

From S2P Require Import Prelude Bytes Bpf Helper Hook Hookopts Matcher BfSet Sys Io Map Rule.
From S2P Require Import Chain Printer Program Block BlockExec Fixups Load.

(** * Kernels with descriptors *)

Definition opens (c : syscall) : bool :=
  match c with
  | SysProgLoad _ _ _ _ _ _ | SysMapCreate _ _ _ _ _ _ _ _ | SysObjGet _ _ _ | SysTokenCreate _
  | SysBtfLoad _ _ _ | SysLinkCreate _ _ _ _ _ | SysOpen _ | SysOpenDir _ | SysOpenat _ _
  | SysOpenFile _ _ | SysOpenFileAt _ _ | SysOpenLock _ | SysSocket | SysAccept _ => true
  | _ => false
  end.

(** A call that opens returns a descriptor that was not open, or fails. *)
Class FdSys (K : Type) `{Sys K} : Type := {
  fd_open : K -> gset Z;
  fd_close fd k : fd_open (snd (sys_call (SysClose fd) k)) = fd_open k ∖ {[fd]};
  fd_opens c k : opens c = true -> 0 <= fst (sys_call c k) ->
    (fst (sys_call c k) ∉ fd_open k) /\ fd_open (snd (sys_call c k)) = {[fst (sys_call c k)]} ∪ fd_open k;
  fd_fails c k : opens c = true -> fst (sys_call c k) < 0 -> fd_open (snd (sys_call c k)) = fd_open k;
  fd_same c k : opens c = false -> (forall fd, c <> SysClose fd) ->
    fd_open (snd (sys_call c k)) = fd_open k
}.

(** * What a program owns *)

Definition own (fd : Z) : list Z := if fd =? -1 then [] else [fd].

Definition own_maps (maps : list bf_map) : list Z := maps ≫= (fun m => own (map_fd m)).

Definition owned (p : bf_program) : list Z :=
  own (prog_cmap_fd p) ++ own (prog_pmap_fd p) ++ own (prog_lmap_fd p) ++ own_maps (prog_sets p) ++
  own (link_fd (prog_link p)) ++ own (prog_fd p).

Lemma own_none : own (-1) = [].
Proof. done. Qed.

Lemma own_some fd : 0 <= fd -> own fd = [fd].
Proof. intros H. unfold own. destruct (Z.eqb_spec fd (-1)); [lia|done]. Qed.

(** Putting a descriptor in a map that had none. *)
Lemma own_maps_insert l i m m' : l !! i = Some m -> map_fd m = -1 ->
  own_maps (<[i := m']> l) ≡ₚ own (map_fd m') ++ own_maps l.
Proof.
  intros Hi E. assert (i < length l)%nat as Hl by (by eapply lookup_lt_Some).
  rewrite <- (take_drop_middle l i m Hi) at 2. rewrite insert_take_drop by done.
  unfold own_maps. rewrite !bind_app, !bind_cons, E, own_none. solve_Permutation.
Qed.

Lemma own_maps_closed l : Forall (fun m => map_fd m = -1) l -> own_maps l = [].
Proof. induction 1 as [|m l E _ IH]; [done|]. unfold own_maps in *. by rewrite bind_cons, E, IH. Qed.

(** No descriptor. *)
Record closed (p : bf_program) : Prop := mk_closed {
  cl_cmap : prog_cmap_fd p = -1;
  cl_pmap : prog_pmap_fd p = -1;
  cl_lmap : prog_lmap_fd p = -1;
  cl_sets : Forall (fun m => map_fd m = -1) (prog_sets p);
  cl_link : link_fd (prog_link p) = -1;
  cl_fd : prog_fd p = -1
}.

Lemma closed_owned p : closed p -> owned p = [].
Proof.
  intros [H1 H2 H3 H4 H5 H6]. unfold owned. by rewrite H1, H2, H3, H5, H6, (own_maps_closed _ H4).
Qed.

(** * The invariant *)

(** The open descriptors are those of [G] and those of the program, each owned
    once. *)
Definition fds_inv (G : gset Z) (p : bf_program) (X : gset Z) : Prop :=
  X = G ∪ list_to_set (owned p) /\ NoDup (owned p) /\ G ## list_to_set (owned p).

(** At most one more descriptor. *)
Definition leak (G G' : gset Z) : Prop := G ⊆ G' /\ (base.size (G' ∖ G) <= 1)%nat.

Lemma leak_refl G : leak G G.
Proof. split; [done|]. rewrite difference_diag_L, size_empty. lia. Qed.

Lemma leak_add G b : leak G ({[b]} ∪ G).
Proof.
  split; [set_solver|].
  transitivity (base.size ({[b]} : gset Z)); [apply subseteq_size; set_solver|by rewrite size_singleton].
Qed.

(** The same, but for one more descriptor at most. *)
Definition fds_leak (G : gset Z) (p : bf_program) (X : gset Z) : Prop :=
  exists G', leak G G' /\ fds_inv G' p X.

Lemma fds_leak_refl G p X : fds_inv G p X -> fds_leak G p X.
Proof. intros HI. exists G. split; [apply leak_refl|done]. Qed.

Lemma fds_inv_perm G p q X : owned q ≡ₚ owned p -> fds_inv G p X -> fds_inv G q X.
Proof. intros E (HX & Hn & Hd). unfold fds_inv. rewrite E. by rewrite HX. Qed.

Lemma fds_inv_add G p q X fd : owned q ≡ₚ fd :: owned p -> fd ∉ X -> fds_inv G p X ->
  fds_inv G q ({[fd]} ∪ X).
Proof.
  intros E Hfd (-> & Hn & Hd). unfold fds_inv. rewrite E. cbn [list_to_set].
  split_and!; [set_solver| |set_solver]. constructor; [|done].
  intros Hin. apply Hfd. set_solver.
Qed.

Lemma fds_inv_remove G p q X l : owned p ≡ₚ l ++ owned q -> fds_inv G p X ->
  fds_inv G q (X ∖ list_to_set l).
Proof.
  unfold fds_inv. intros E (-> & Hn & Hd). rewrite E in *. rewrite list_to_set_app_L in *.
  apply NoDup_app in Hn as (_ & Hl & Hn). split_and!; [|done|set_solver].
  assert (list_to_set l ## (list_to_set (owned q) : gset Z)) by set_solver. set_solver.
Qed.

Lemma fds_inv_leaked G p X B : B ## X -> fds_inv G p X -> fds_inv (B ∪ G) p (B ∪ X).
Proof. unfold fds_inv. intros HB (-> & Hn & Hd). split_and!; [set_solver|done|set_solver]. Qed.

(** * Triples *)

Definition hoare {S A} (P : S -> Prop) (m : st S A) (Q : A -> S -> Prop) (E : S -> Prop) : Prop :=
  forall s r s', P s -> m s = (r, s') -> match r with Ok a => Q a s' | Err _ => E s' end.

Section Triples.
Context {S : Type}.
Implicit Types (P E : S -> Prop).

Lemma h_ret {A} (a : A) P E : hoare P (mret a) (fun _ => P) E.
Proof. intros s r s' Hp [= <- <-]. exact Hp. Qed.

Lemma h_bind {A B} (m : st S A) (k : A -> st S B) P Q R E :
  hoare P m Q E -> (forall a, hoare (Q a) (k a) R E) -> hoare P (m ≫= k) R E.
Proof.
  intros Hm Hk s r s' Hp. unfold mbind, st_bind. destruct (m s) as [[a|e] s1] eqn:Em.
  - intros Er. exact (Hk a s1 r s' (Hm s (Ok a) s1 Hp Em) Er).
  - intros [= <- <-]. exact (Hm s (Err e) s1 Hp Em).
Qed.

Lemma h_err {A} e P (Q : A -> S -> Prop) : hoare P (st_err e) Q P.
Proof. by intros s r s' Hp [= <- <-]. Qed.

Lemma h_lift {A} (x : res A) P E : (forall s, P s -> E s) -> hoare P (st_lift x) (fun _ => P) E.
Proof. intros HE s r s' Hp [= <- <-]. destruct x; [exact Hp|by apply HE]. Qed.

Lemma h_conseq {A} (m : st S A) P P' (Q Q' : A -> S -> Prop) E E' : hoare P' m Q' E' ->
  (forall s, P s -> P' s) -> (forall a s, Q' a s -> Q a s) -> (forall s, E' s -> E s) -> hoare P m Q E.
Proof.
  intros Hm HP HQ HE s r s' Hp Er. specialize (Hm s r s' (HP s Hp) Er). destruct r; auto.
Qed.

Lemma h_onerr {A} (m : st S A) h P (Q : A -> S -> Prop) E' E : hoare P m Q E' ->
  (forall s, E' s -> E (h s)) -> hoare P (st_onerr m h) Q E.
Proof.
  intros Hm HE s r s' Hp. unfold st_onerr. destruct (m s) as [[a|e] s1] eqn:Em; intros [= <- <-].
  - exact (Hm s (Ok a) s1 Hp Em).
  - apply HE. exact (Hm s (Err e) s1 Hp Em).
Qed.

Lemma h_exists {A X} (m : st S A) (P : X -> S -> Prop) (Q : A -> S -> Prop) E :
  (forall x, hoare (P x) m Q E) -> hoare (fun s => exists x, P x s) m Q E.
Proof. intros Hm s r s' [x Hp] Er. exact (Hm x s r s' Hp Er). Qed.

Lemma h_pure {A} (m : st S A) P (F : Prop) (Q : A -> S -> Prop) E : (F -> hoare P m Q E) ->
  hoare (fun s => P s /\ F) m Q E.
Proof. intros Hm s r s' [Hp HF] Er. exact (Hm HF s r s' Hp Er). Qed.
End Triples.

Section Calls.
Context {K : Type} `{FdSys K} {O : Type}.

(** Assertions on the object and the open descriptors. *)
Definition on_fds (P : O -> gset Z -> Prop) : O * K -> Prop := fun '(o, k) => P o (fd_open k).

(** A new descriptor. *)
Definition opened (fd : Z) (P : O -> gset Z -> Prop) : O -> gset Z -> Prop :=
  fun o X => exists Y, P o Y /\ 0 <= fd /\ (fd ∉ Y) /\ X = {[fd]} ∪ Y.

Lemma h_other c P : opens c = false -> (forall fd, c <> SysClose fd) ->
  hoare (on_fds P) (bf_bpf c) (fun _ => on_fds P) (on_fds P).
Proof.
  intros Ho Hc [o k] r s' HP. unfold bf_bpf. pose proof (fd_same c k Ho Hc) as Hs.
  destruct (sys_call c k) as [x k']. intros [= <- <-]. cbn in *.
  destruct (x <? 0); cbn; by rewrite Hs.
Qed.

Lemma h_open c P : opens c = true ->
  hoare (on_fds P) (bf_bpf c) (fun fd => on_fds (opened fd P)) (on_fds P).
Proof.
  intros Ho [o k] r s' HP. unfold bf_bpf. pose proof (fd_opens c k Ho) as Hs. pose proof (fd_fails c k Ho) as Hf.
  destruct (sys_call c k) as [x k']. intros [= <- <-]. cbn in *. destruct (Z.ltb_spec x 0); cbn.
  - by rewrite Hf.
  - destruct Hs as [Hn ->]; [done|]. by exists (fd_open k).
Qed.

Lemma closep_open fd k : fd_open (snd (closep fd k)) = fd_open k ∖ list_to_set (own fd).
Proof.
  unfold closep, own. destruct (fd =? -1); cbn [fst snd list_to_set].
  - by rewrite difference_empty_L.
  - rewrite fd_close. by rewrite union_empty_r_L.
Qed.
End Calls.

(** * Maps *)

Section Maps.
Context {K : Type} `{FdSys K} {O : Type} (tok : Z).

(** The descriptors of [B] were opened and belong to no one. *)
Definition leaked (B : gset Z) (P : O -> gset Z -> Prop) : O -> gset Z -> Prop :=
  fun o X => exists Y, P o Y /\ B ## Y /\ X = B ∪ Y.

Definition btf_leak (m : bf_map) (B : gset Z) : Prop :=
  B = ∅ \/ map_type m = BF_MAP_TYPE_COUNTERS /\ exists b, 0 <= b /\ B = {[b]}.

Lemma leaked_none P o X : P o X -> leaked ∅ P o X.
Proof. intros HP. exists X. split; [done|]. set_solver. Qed.

Lemma h_make_btf m (P : O -> gset Z -> Prop) :
  hoare (on_fds P) (_bf_map_make_btf tok m)
    (fun _ => on_fds (fun o X => exists B, btf_leak m B /\ leaked B P o X)) (fun _ => False).
Proof.
  unfold _bf_map_make_btf. destruct (map_type m) eqn:Et.
  2-5: intros [o k] r s' HP [= <- <-]; exists ∅; split; [by left|by apply leaked_none].
  intros [o k] r s' HP. unfold bf_bpf_btf_load. destruct (token_flags tok 0) as [t f].
  pose proof (h_open (SysBtfLoad (map_name m) t f) P eq_refl (o, k)) as Hb.
  destruct (bf_bpf _ (o, k)) as [[fd|e] [o1 k1]]; intros [= <- <-];
    specialize (Hb _ _ HP eq_refl); cbn in Hb |- *.
  - destruct Hb as (Y & HY & Hfd & Hn & ->). exists {[fd]}. split; [right; eauto|].
    exists Y. split; [done|]. set_solver.
  - exists ∅. split; [by left|by apply leaked_none].
Qed.

(** A map that is created has a new descriptor; the BTF object of the
    counters is left open, whether the map could be created or not. *)
Lemma h_map_create m (P : O -> gset Z -> Prop) :
  hoare (on_fds P) (bf_map_create tok m)
    (fun m' => on_fds (fun o X => exists fd B, m' = with_map_fd fd m /\ btf_leak m B /\
                                               opened fd (leaked B P) o X))
    (on_fds (fun o X => exists B, btf_leak m B /\ leaked B P o X)).
Proof.
  assert (forall e, hoare (on_fds P) (@st_err (O * K) bf_map e)
    (fun m' => on_fds (fun o X => exists fd B, m' = with_map_fd fd m /\ btf_leak m B /\
                                               opened fd (leaked B P) o X))
    (on_fds (fun o X => exists B, btf_leak m B /\ leaked B P o X))) as Herr.
  { intros e [o k] r s' HP [= <- <-]. exists ∅. split; [by left|by apply leaked_none]. }
  unfold bf_map_create. do 3 (case_match; [apply Herr|]). clear Herr.
  eapply h_bind.
  { eapply h_conseq; [apply h_make_btf|intros s Hs; exact Hs|intros a s Hs; exact Hs|by intros ? []]. }
  intros btf. unfold bf_bpf_map_create. destruct (token_flags _ _) as [t f].
  eapply h_bind; [by apply h_open|]. intros fd [o k] r s' HX [= <- <-].
  destruct HX as (Y & (B & HB & HP) & Hfd & Hn & HX). exists fd, B. split_and!; [done|done|].
  by exists Y.
Qed.

Lemma map_destroy_open m (k : K) : 
  map_fd (fst (bf_map_destroy m k)) = -1 /\
  fd_open (snd (bf_map_destroy m k)) = fd_open k ∖ list_to_set (own (map_fd m)).
Proof.
  unfold bf_map_destroy. pose proof (closep_open (map_fd m) k) as Ho. pose proof (closep_fd (map_fd m) k) as Hf.
  destruct (closep (map_fd m) k) as [fd k']. by split.
Qed.

Lemma destroy_maps_open maps (k : K) :
  Forall (fun m => map_fd m = -1) (fst (destroy_maps maps k)) /\
  fd_open (snd (destroy_maps maps k)) = fd_open k ∖ list_to_set (own_maps maps).
Proof.
  revert k. induction maps as [|m maps IH]; intros k; cbn [destroy_maps fst snd].
  - split; [constructor|]. cbn [own_maps mbind list_bind list_to_set]. by rewrite difference_empty_L.
  - destruct (map_destroy_open m k) as [Hf Ho]. destruct (bf_map_destroy m k) as [m' k1].
    destruct (IH k1) as [Hfs Hos]. destruct (destroy_maps maps k1) as [ms k2]. cbn [fst snd] in *.
    split; [by constructor|]. rewrite Hos, Ho. unfold own_maps. rewrite bind_cons, list_to_set_app_L. set_solver.
Qed.
End Maps.

(** * Programs *)

Section Stages.
Context {K : Type} `{FdSys K} (tok : Z).

Abbreviation pre := (bf_program -> gset Z -> Prop).
Abbreviation htriple P m Q E := (hoare (on_fds (K := K) P) m (fun a => on_fds (Q a)) (on_fds E)).

Definition maps_fds (p : bf_program) : Z * Z * Z * list Z * Z * Z :=
  (prog_cmap_fd p, prog_pmap_fd p, prog_lmap_fd p, map_fd <$> prog_sets p, link_fd (prog_link p), prog_fd p).

Lemma owned_fds p q : maps_fds p = maps_fds q -> owned p = owned q.
Proof.
  unfold maps_fds, owned, own_maps. intros [= -> -> -> E -> ->].
  assert (forall l, l ≫= (fun m => own (map_fd m)) = (map_fd <$> l) ≫= own) as Hb.
  { intros l. induction l as [|m l IH]; [done|]. by rewrite fmap_cons, !bind_cons, IH. }
  by rewrite !Hb, E.
Qed.

(** Fixups leave the maps alone. *)
Lemma same_env_fds p q : same_env p q -> maps_fds q = maps_fds p.
Proof.
  intros (_ & _ & _ & E1 & E2 & E3 & E4 & _ & _ & E5 & E6).
  unfold maps_fds, prog_cmap_fd, prog_pmap_fd, prog_lmap_fd. by rewrite E1, E2, E3, E4, E5, E6.
Qed.

(** The objects other than the maps of the sets. *)
Definition others (p : bf_program) : bf_map * bf_map * bf_map * bf_link * Z :=
  (prog_cmap p, prog_pmap p, prog_lmap p, prog_link p, prog_fd p).

(** Assertions that fixups preserve. *)
Definition env_only (P : pre) : Prop := forall p q X, same_env p q -> P p X -> P q X.

Lemma env_only_inv G (R : bf_map * bf_map * bf_map * bf_link * Z -> Prop) :
  env_only (fun p X => fds_inv G p X /\ R (others p)).
Proof.
  intros p q X E [HI HR]. split.
  - eapply fds_inv_perm, HI. by rewrite (owned_fds q p (same_env_fds p q E)).
  - destruct E as (_ & _ & _ & E1 & E2 & E3 & _ & _ & _ & E5 & E6). unfold others. by rewrite E1, E2, E3, E5, E6.
Qed.

Lemma h_fixup t P : env_only P -> htriple P (prog_fixup t) (fun _ => P) P.
Proof.
  intros HP [p k] r s' Hp. unfold prog_fixup. destruct (_bf_program_fixup p t) as [q|e] eqn:E; intros [= <- <-].
  - eapply HP; [|exact Hp]. eapply fixup_env, E.
  - exact Hp.
Qed.

Lemma h_get (P : pre) E : htriple P obj_get (fun p q X => P q X /\ p = q) E.
Proof. by intros [p k] r s' Hp [= <- <-]. Qed.

Lemma h_modify (f : bf_program -> bf_program) (P Q : pre) E : (forall p X, P p X -> Q (f p) X) ->
  htriple P (obj_modify f) (fun _ => Q) E.
Proof. intros HQ [p k] r s' Hp [= <- <-]. by apply HQ. Qed.

Definition with_sets (s : list bf_map) (p : bf_program) : bf_program :=
  with_maps p (prog_cmap p) (prog_pmap p) (prog_lmap p) s.

(** A new map takes the place of one without a descriptor. *)
Lemma owned_set i map fd p : prog_sets p !! i = Some map -> map_fd map = -1 -> 0 <= fd ->
  owned (with_sets (<[i := with_map_fd fd map]> (prog_sets p)) p) ≡ₚ fd :: owned p.
Proof.
  intros Hi Hm Hfd. unfold owned, with_sets. cbn [prog_sets with_maps prog_cmap_fd prog_pmap_fd prog_lmap_fd
    prog_cmap prog_pmap prog_lmap prog_link prog_fd]. rewrite (own_maps_insert _ _ _ _ Hi Hm).
  cbn [map_fd with_map_fd]. rewrite (own_some fd Hfd). solve_Permutation.
Qed.

(** Maps of sets not created yet. *)
Definition pending (ms : list bf_map) : Prop :=
  Forall (fun m => map_fd m = -1 /\ map_type m = BF_MAP_TYPE_SET) ms.

Lemma h_load_set_map G (R : bf_map * bf_map * bf_map * bf_link * Z -> Prop) i set map ms :
  htriple (fun p X => (fds_inv G p X /\ R (others p)) /\ drop i (prog_sets p) = map :: ms /\ pending (map :: ms))
    (load_set_map tok i set map)
    (fun _ p X => (fds_inv G p X /\ R (others p)) /\ drop (S i) (prog_sets p) = ms /\ pending ms)
    (fds_inv G).
Proof.
  unfold load_set_map. eapply h_bind.
  { eapply h_conseq; [apply h_map_create|intros s Hs; exact Hs|intros a s Hs; exact Hs|].
    intros [p k] (B & HB & Y & ((HI & _) & _ & Hp) & _ & HX). apply Forall_cons in Hp as [[_ Ht] _].
    destruct HB as [->|[Ht' _]]; [|congruence]. cbn in HX |- *. by rewrite HX, union_empty_l_L. }
  intros map'. eapply h_bind; [apply h_get|]. intros p0. eapply h_bind.
  { apply (h_modify _ _ (fun p X => (fds_inv G p X /\ R (others p)) /\ drop (S i) (prog_sets p) = ms /\ pending ms)).
    intros p X [(fd & B & -> & HB & Y & (Z & [[HI HR] [Hd Hp]] & _ & HY) & Hfd & Hn & ->) ->].
    apply Forall_cons in Hp as [[Hm Ht] Hp].
    destruct HB as [->|[Ht' _]]; [|congruence]. rewrite union_empty_l_L in HY. subst Z.
    assert (prog_sets p !! i = Some map) as Hi.
    { rewrite <- (Nat.add_0_r i), <- lookup_drop, Hd. done. }
    split_and!; [by eapply fds_inv_add, HI; [apply owned_set|]|exact HR| |exact Hp].
    cbn [prog_sets with_maps]. rewrite drop_insert_lt by lia.
    rewrite <- (Nat.add_1_r i), <- drop_drop, Hd. done. }
  intros []. eapply h_bind; [|intros z; apply h_ret].
  eapply h_conseq; [apply h_other; done|intros s Hs; exact Hs|intros a s Hs; exact Hs|].
  by intros [p k] [[HI _] _].
Qed.

Lemma h_load_set_maps G R sets i ms :
  htriple (fun p X => (fds_inv G p X /\ R (others p)) /\ drop i (prog_sets p) = ms /\ pending ms)
    (load_set_maps tok i sets ms)
    (fun _ p X => fds_inv G p X /\ R (others p)) (fds_inv G).
Proof.
  revert i ms. induction sets as [|set sets IH]; intros i ms; cbn [load_set_maps].
  2: destruct ms as [|map ms].
  1-2: eapply h_conseq; [apply h_ret with (E := fun _ => False)|intros s Hs; exact Hs|by intros ? [p k] [? _]|done].
  eapply h_bind; [apply h_load_set_map|]. intros []. apply IH.
Qed.

(** Closing the maps of the sets. *)
Lemma destroy_sets_inv G p k : fds_inv G p (fd_open k) ->
  let '(q, k') := destroy_sets (p, k) in
  fds_inv G q (fd_open k') /\ Forall (fun m => map_fd m = -1) (prog_sets q) /\ others q = others p.
Proof.
  intros HI. unfold destroy_sets. destruct (destroy_maps_open (prog_sets p) k) as [Hf Ho].
  destruct (destroy_maps (prog_sets p) k) as [ms k']. cbn [fst snd] in *. split; [|by split].
  rewrite Ho. eapply fds_inv_remove, HI. unfold owned. cbn [prog_sets with_maps prog_cmap_fd prog_pmap_fd prog_lmap_fd
    prog_cmap prog_pmap prog_lmap prog_link prog_fd]. rewrite (own_maps_closed _ Hf). solve_Permutation.
Qed.

Lemma h_load_sets G R :
  htriple (fun p X => (fds_inv G p X /\ R (others p)) /\ pending (prog_sets p))
    (_bf_program_load_sets_maps tok)
    (fun _ p X => fds_inv G p X /\ R (others p)) (fds_inv G).
Proof.
  unfold _bf_program_load_sets_maps. eapply h_onerr with (E' := on_fds (fds_inv G)).
  2:{ intros [p k] HI. pose proof (destroy_sets_inv G p k HI) as Hd. destruct (destroy_sets (p, k)) as [q k'].
      apply Hd. }
  eapply h_bind; [apply h_get|]. intros p0. eapply h_bind.
  { eapply (h_conseq _ _ _ _ _ _ _ (h_load_set_maps G R _ _ _)).
    - intros [p k] [[HI Hp] ->]. exact (conj HI (conj eq_refl Hp)).
    - intros a s Hs. exact Hs.
    - done. }
  intros []. eapply h_conseq; [apply h_fixup, (env_only_inv G R)|done|done|by intros [p k] [? _]].
Qed.

(** ** The maps of the program *)

(** A map of the program: how to read it and how to change it. *)
Record slot : Type := mk_slot {
  slot_get : bf_program -> bf_map;
  slot_put : bf_map -> bf_program -> bf_program;
  slot_same : forall m p, slot_get (slot_put m p) = m;
  slot_owned : forall m p,
    own (map_fd (slot_get p)) ++ owned (slot_put m p) ≡ₚ own (map_fd m) ++ owned p
}.

Ltac slot_tac :=
  intros m p; unfold owned; cbn [prog_sets with_maps prog_cmap_fd prog_pmap_fd prog_lmap_fd
    prog_cmap prog_pmap prog_lmap prog_link prog_fd]; unfold prog_cmap_fd, prog_pmap_fd, prog_lmap_fd;
  cbn [prog_sets with_maps prog_cmap prog_pmap prog_lmap prog_link prog_fd]; solve_Permutation.

Definition cmap_slot : slot.
Proof.
  refine (mk_slot prog_cmap (fun m p => with_maps p m (prog_pmap p) (prog_lmap p) (prog_sets p))
    (fun _ _ => eq_refl) _). abstract slot_tac.
Defined.

Definition pmap_slot : slot.
Proof.
  refine (mk_slot prog_pmap (fun m p => with_maps p (prog_cmap p) m (prog_lmap p) (prog_sets p))
    (fun _ _ => eq_refl) _). abstract slot_tac.
Defined.

Definition lmap_slot : slot.
Proof.
  refine (mk_slot prog_lmap (fun m p => with_maps p (prog_cmap p) (prog_pmap p) m (prog_sets p))
    (fun _ _ => eq_refl) _). abstract slot_tac.
Defined.

Definition slot_destroy (sl : slot) : bf_program * K -> bf_program * K :=
  fun '(p, k) => let '(m, k) := bf_map_destroy (slot_get sl p) k in (slot_put sl m p, k).

Lemma slot_destroy_inv sl G p k : fds_inv G p (fd_open k) ->
  let '(q, k') := slot_destroy sl (p, k) in fds_inv G q (fd_open k').
Proof.
  intros HI. unfold slot_destroy. destruct (map_destroy_open (slot_get sl p) k) as [Hf Ho].
  destruct (bf_map_destroy (slot_get sl p) k) as [m k']. cbn [fst snd] in *. rewrite Ho.
  eapply fds_inv_remove, HI. rewrite slot_owned, Hf. done.
Qed.

(** Putting a map without a descriptor in the place of another. *)
Lemma slot_replace sl G p X m : map_fd (slot_get sl p) = -1 -> map_fd m = -1 -> fds_inv G p X ->
  fds_inv G (slot_put sl m p) X.
Proof.
  intros Hp Hm. apply fds_inv_perm. pose proof (slot_owned sl m p) as E. by rewrite Hp, Hm in E.
Qed.

(** Creating the map of a slot; only the counters' map leaves a descriptor
    behind. *)
Definition maybe_leak (m : bf_map) (G G' : gset Z) : Prop :=
  leak G G' /\ (map_type m <> BF_MAP_TYPE_COUNTERS -> G' = G).

Lemma btf_leak_maybe m B G : btf_leak m B -> maybe_leak m G (B ∪ G).
Proof.
  intros [->|[Ht (b & _ & ->)]].
  - rewrite union_empty_l_L. split; [apply leak_refl|done].
  - split; [apply leak_add|congruence].
Qed.

Lemma h_slot_create sl G (R : bf_program -> Prop) m :
  hoare (on_fds (fun p X => fds_inv G p X /\ R p /\ map_fd (slot_get sl p) = -1)) (bf_map_create tok m)
    (fun m' => on_fds (fun p X => exists G', maybe_leak m G G' /\ fds_inv G' (slot_put sl m' p) X /\ R p))
    (on_fds (fds_leak G)).
Proof.
  eapply h_conseq; [apply h_map_create|intros s Hs; exact Hs| |].
  - intros m' [p k] (fd & B & -> & HB & Y & (X & (HI & HR & Hm) & HBZ & ->) & Hfd & Hn & HX). cbn in HX |- *.
    exists (B ∪ G). split; [by apply btf_leak_maybe|]. split; [|done]. rewrite HX.
    eapply fds_inv_add, fds_inv_leaked, HI; [|done|done].
    pose proof (slot_owned sl (with_map_fd fd m) p) as E. rewrite Hm in E. cbn [map_fd with_map_fd] in E.
    by rewrite (own_some fd Hfd) in E.
  - intros [p k] (B & HB & X & (HI & _) & HBZ & HX). cbn in HX |- *. rewrite HX.
    exists (B ∪ G). split; [apply (btf_leak_maybe m B G HB)|]. by apply fds_inv_leaked.
Qed.

Lemma h_slot_fixup sl t G R :
  htriple (fun p X => fds_inv G p X /\ R (others p)) (st_onerr (prog_fixup t) (slot_destroy sl))
    (fun _ p X => fds_inv G p X /\ R (others p)) (fds_inv G).
Proof.
  eapply h_onerr; [apply h_fixup, (env_only_inv G R)|]. intros [p k] [HI _].
  pose proof (slot_destroy_inv sl G p k HI) as Hd. by destruct (slot_destroy sl (p, k)).
Qed.

(** ** The stages of loading *)

Definition no_btf (m : bf_map) : Prop := map_fd m = -1 /\ map_type m <> BF_MAP_TYPE_COUNTERS.

(** What is left to create before each stage. *)
Abbreviation objs := (bf_map * bf_map * bf_map * bf_link * Z)%type.
Definition left_prog (o : objs) : Prop := let '(_, _, _, l, f) := o in link_fd l = -1 /\ f = -1.
Definition left_log (o : objs) : Prop := let '(_, _, m, _, _) := o in no_btf m /\ left_prog o.
Definition left_printer (o : objs) : Prop := let '(_, m, _, _, _) := o in no_btf m /\ left_log o.
Definition left_counters (o : objs) : Prop := let '(m, _, _, _, _) := o in map_fd m = -1 /\ left_printer o.

Lemma n_elems_fd m n m' : bf_map_set_n_elems m n = Ok m' -> map_fd m' = map_fd m /\ map_type m' = map_type m.
Proof. unfold bf_map_set_n_elems. case_match; [done|]. by intros [= <-]. Qed.

Lemma value_size_fd m n m' : bf_map_set_value_size m n = Ok m' -> map_fd m' = map_fd m /\ map_type m' = map_type m.
Proof. unfold bf_map_set_value_size. case_match; [done|]. by intros [= <-]. Qed.

Lemma h_load_counters G :
  htriple (fun p X => fds_inv G p X /\ left_counters (others p)) (_bf_program_load_counters_map tok)
    (fun _ p X => exists G', leak G G' /\ fds_inv G' p X /\ left_printer (others p)) (fds_leak G).
Proof.
  unfold _bf_program_load_counters_map. eapply h_bind; [apply h_get|]. intros p0.
  apply (h_bind _ _ _ (fun m => on_fds (fun p X =>
    fds_inv G p X /\ left_printer (others p) /\ map_fd (prog_cmap p) = -1 /\ map_fd m = -1))).
  { intros [p k] r s' [[HI [Hm HR]] ->] [= <- <-].
    destruct (bf_map_set_n_elems _ _) as [m|] eqn:E; [|by apply fds_leak_refl].
    apply n_elems_fd in E as [E _]. cbn. by rewrite E. }
  intros m. apply (h_bind _ _ _ (fun _ => on_fds (fun p X =>
    fds_inv G p X /\ left_printer (others p) /\ map_fd (slot_get cmap_slot p) = -1))).
  { apply h_modify. intros p X (HI & HR & Hp & Hm). split_and!; [|exact HR|exact Hm].
    by apply (slot_replace cmap_slot G p X m). }
  intros []. eapply h_bind; [apply (h_slot_create cmap_slot G (fun p => left_printer (others p)))|]. intros m'.
  apply (h_bind _ _ _ (fun _ => on_fds (fun p X =>
    exists G', leak G G' /\ fds_inv G' p X /\ left_printer (others p)))).
  { apply h_modify. intros p X (G' & [HG _] & HI & HR). by exists G'. }
  intros [] [p k] r s' (G' & HG & HI & HR) E.
  pose proof (h_slot_fixup cmap_slot BF_FIXUP_TYPE_COUNTERS_MAP_FD G' left_printer (p, k) r s' (conj HI HR) E) as Hf.
  destruct r as [[]|e], s' as [q k']; cbn in Hf |- *; by exists G'.
Qed.

(** The printer's and the log's maps leave nothing behind. *)
Lemma h_slot_create_clean sl G (R : bf_program -> Prop) m : no_btf m ->
  hoare (on_fds (fun p X => fds_inv G p X /\ R p /\ map_fd (slot_get sl p) = -1)) (bf_map_create tok m)
    (fun m' => on_fds (fun p X => fds_inv G (slot_put sl m' p) X /\ R p))
    (on_fds (fds_inv G)).
Proof.
  intros [Hm Ht]. eapply h_conseq; [apply h_map_create|intros s Hs; exact Hs| |].
  - intros m' [p k] (fd & B & -> & HB & Y & (X & (HI & HR & Hs) & HBZ & ->) & Hfd & Hn & HX). cbn in HX |- *.
    destruct HB as [->|[Ht' _]]; [|congruence]. split; [|done]. rewrite HX, union_empty_l_L.
    eapply fds_inv_add, HI; [|set_solver].
    pose proof (slot_owned sl (with_map_fd fd m) p) as E. rewrite Hs in E. cbn [map_fd with_map_fd] in E.
    by rewrite (own_some fd Hfd) in E.
  - intros [p k] (B & HB & X & (HI & _) & HBZ & HX). cbn in HX |- *. rewrite HX.
    destruct HB as [->|[Ht' _]]; [|congruence]. by rewrite union_empty_l_L.
Qed.

Lemma h_load_printer G :
  htriple (fun p X => fds_inv G p X /\ left_printer (others p)) (_bf_program_load_printer_map tok)
    (fun _ p X => fds_inv G p X /\ left_log (others p)) (fds_inv G).
Proof.
  unfold _bf_program_load_printer_map. eapply h_bind; [apply h_get|]. intros p0. cbn zeta.
  apply (h_bind _ _ _ (fun m => on_fds (fun p X =>
    (fds_inv G p X /\ left_log (others p) /\ map_fd (prog_pmap p) = -1) /\ no_btf m))).
  { intros [p k] r s' [[HI [[Hm Ht] HR]] ->] [= <- <-].
    destruct (bf_map_set_value_size _ _) as [m|] eqn:E; [|exact HI].
    apply value_size_fd in E as [E Et]. cbn. unfold no_btf. by rewrite E, Et. }
  intros m. apply (h_bind _ _ _ (fun _ s => on_fds (fun p X =>
    fds_inv G p X /\ left_log (others p) /\ map_fd (slot_get pmap_slot p) = -1) s /\ no_btf m)).
  { intros [p k] r s' ((HI & HR & Hp) & Hm) [= <- <-]. split; [|exact Hm]. split_and!; [|exact HR|exact (proj1 Hm)].
    by apply (slot_replace pmap_slot G p (fd_open k) m); [..|apply Hm|]. }
  intros []. apply h_pure. intros Hm.
  eapply h_bind; [apply (h_slot_create_clean pmap_slot G (fun p => left_log (others p))), Hm|]. intros m'.
  apply (h_bind _ _ _ (fun _ => on_fds (fun p X => fds_inv G p X /\ left_log (others p)))).
  { apply h_modify. intros p X (HI & HR). by split. }
  intros []. apply (h_bind _ _ _ (fun _ => on_fds (fun p X => fds_inv G p X /\ left_log (others p)))).
  { eapply h_conseq; [apply h_other; done|intros s Hs; exact Hs|intros a s Hs; exact Hs|]. by intros [p k] [? _]. }
  intros _. apply (h_slot_fixup pmap_slot).
Qed.

Lemma h_load_log G :
  htriple (fun p X => fds_inv G p X /\ left_log (others p)) (_bf_program_load_log_map tok)
    (fun _ p X => fds_inv G p X /\ left_prog (others p)) (fds_inv G).
Proof.
  unfold _bf_program_load_log_map. eapply h_bind; [apply h_get|]. intros p0.
  apply (h_conseq _ _ (fun s => on_fds (fun p X => fds_inv G p X /\ left_prog (others p) /\
             map_fd (slot_get lmap_slot p) = -1) s /\ no_btf (prog_lmap p0))
           _ (fun _ => on_fds (fun p X => fds_inv G p X /\ left_prog (others p)))
           _ (on_fds (fds_inv G))); [|by intros [p k] [[HI [[Hm Ht] HR]] ->]|done|done].
  apply h_pure. intros Hm.
  eapply h_bind; [apply (h_slot_create_clean lmap_slot G (fun p => left_prog (others p))), Hm|]. intros m'.
  apply (h_bind _ _ _ (fun _ => on_fds (fun p X => fds_inv G p X /\ left_prog (others p)))).
  { apply h_modify. intros p X (HI & HR). by split. }
  intros []. apply (h_slot_fixup lmap_slot).
Qed.

(** ** Loading, attaching, unloading *)

(** A program whose maps have been described and not created. *)
Definition unloaded (p : bf_program) : Prop := left_counters (others p) /\ pending (prog_sets p).

Lemma h_prog_load name prog_type img attach G :
  htriple (fun p X => fds_inv G p X /\ left_prog (others p))
    (bf_bpf_prog_load name prog_type img attach tok)
    (fun fd p X => fds_inv G (with_fd p fd) X /\ link_fd (prog_link p) = -1) (fds_inv G).
Proof.
  unfold bf_bpf_prog_load. destruct (token_flags tok 0) as [t f].
  eapply h_conseq; [by apply h_open|intros s Hs; exact Hs| |by intros [p k] [? _]].
  intros fd [p k] (Y & (HI & Hl & Hp) & Hfd & Hn & HX). cbn in HX |- *. split; [|exact Hl]. rewrite HX.
  eapply fds_inv_add, HI; [|done]. unfold owned. cbn [prog_sets with_fd prog_cmap_fd prog_pmap_fd prog_lmap_fd
    prog_cmap prog_pmap prog_lmap prog_link prog_fd]. rewrite Hp, own_none, (own_some fd Hfd). solve_Permutation.
Qed.

Lemma h_load G :
  htriple (fun p X => fds_inv G p X /\ unloaded p) (bf_program_load tok)
    (fun _ p X => exists G', leak G G' /\ fds_inv G' p X /\ link_fd (prog_link p) = -1) (fds_leak G).
Proof.
  unfold bf_program_load. eapply h_bind.
  { eapply h_conseq; [apply (h_load_sets G left_counters)| |intros a s Hs; exact Hs|].
    - by intros [p k] (HI & Hl & Hp).
    - intros [p k]. apply fds_leak_refl. }
  intros []. eapply h_bind; [apply h_load_counters|]. intros [].
  assert (forall G', leak G G' -> htriple (fun p X => fds_inv G' p X /\ left_printer (others p))
    (_bf_program_load_printer_map tok ;; _bf_program_load_log_map tok ;;
     p ← obj_get;
     prog_type ← st_lift (of_option (- BF_CRASH) (bf_hook_to_bpf_prog_type (chain_hook (prog_chain p))));
     attach_type ← st_lift (of_option (- BF_CRASH) (bf_hook_to_bpf_attach_type (chain_hook (prog_chain p))));
     fd ← bf_bpf_prog_load prog_name prog_type (prog_img p) attach_type tok;
     obj_modify (fun p => with_fd p fd))
    (fun _ p X => fds_inv G' p X /\ link_fd (prog_link p) = -1) (fds_inv G')) as Hrest.
  { intros G' HG. eapply h_bind; [apply h_load_printer|]. intros [].
    eapply h_bind; [apply h_load_log|]. intros []. eapply h_bind; [apply h_get|]. intros p0.
    do 2 (eapply h_bind; [apply h_lift; by intros [p k] [[? _] _]|intros ?]).
    eapply h_bind.
    { eapply h_conseq; [apply h_prog_load|by intros [p k] [? _]|intros a' s Hs; exact Hs|done]. }
    intros fd. apply h_modify. by intros p X [HI Hl]. }
  intros [p k] r s' (G' & HG & HI & Hl) E. specialize (Hrest G' HG (p, k) r s' (conj HI Hl) E).
  destruct r as [[]|e], s' as [q k']; cbn in *; by exists G'.
Qed.

(** Calls that return a new descriptor, or fail and change nothing. *)
Definition fresh_fd {O} (m : st (O * K) Z) : Prop :=
  forall P : O -> gset Z -> Prop, hoare (on_fds P) m (fun fd => on_fds (opened fd P)) (on_fds P).

Lemma fresh_open {O} c : opens c = true -> fresh_fd (O := O) (bf_bpf c).
Proof. intros Hc P. by apply h_open. Qed.

Lemma fresh_err {O} e : fresh_fd (O := O) (st_err e).
Proof. intros P s r s' HP [= <- <-]. exact HP. Qed.

Lemma fresh_link_create {O} prog_fd target hook opts flags :
  fresh_fd (O := O) (bf_bpf_link_create prog_fd target hook opts flags).
Proof.
  unfold bf_bpf_link_create. destruct (bf_hook_to_bpf_attach_type hook) as [[]|]; [..|apply fresh_err];
    try (by apply fresh_open). destruct opts; [by apply fresh_open|apply fresh_err].
Qed.

(** The descriptor of the scope is closed again. *)
Lemma fresh_scope {O} (dir : st (O * K) Z) m : fresh_fd dir -> (forall fd, fresh_fd (O := O) (m fd)) ->
  fresh_fd (with_dir dir m).
Proof.
  intros Hdir Hm P [o k] r s' HP. unfold with_dir.
  pose proof (Hdir P (o, k)) as Ho.
  destruct (dir (o, k)) as [[fd|e] [o1 k1]]; specialize (Ho _ _ HP eq_refl);
    [|intros [= <- <-]; exact Ho]. cbn in Ho.
  pose proof (Hm fd (opened fd P) (o1, k1)) as Hr. destruct (m fd (o1, k1)) as [x [o2 k2]].
  specialize (Hr _ _ Ho eq_refl). intros [= <- <-]. destruct x as [x|e]; cbn in Hr |- *; rewrite closep_open.
  - destruct Hr as (Y & (Z & HZ & Hfd & Hn & ->) & Hx & Hnx & ->). exists Z. rewrite (own_some fd Hfd).
    split_and!; [exact HZ|exact Hx|set_solver|set_solver].
  - destruct Hr as (Z & HZ & Hfd & Hn & ->). rewrite (own_some fd Hfd).
    assert (({[fd]} ∪ Z) ∖ list_to_set [fd] = Z) as -> by set_solver. exact HZ.
Qed.

Lemma fresh_with_cgroup {O} path m : (forall fd, fresh_fd (O := O) (m fd)) -> fresh_fd (with_cgroup path m).
Proof. by apply fresh_scope, fresh_open. Qed.

(** The call that attaches a program. *)
Lemma fresh_attach {O} hook ho fd :
  fresh_fd (O := O)
    match bf_hook_to_flavor hook with
    | Some BF_FLAVOR_XDP => bf_bpf_link_create fd (ho_ifindex ho) hook (Some ho) XDP_FLAGS_SKB_MODE
    | Some BF_FLAVOR_TC => bf_bpf_link_create fd (ho_ifindex ho) hook (Some ho) 0
    | Some BF_FLAVOR_CGROUP =>
        with_cgroup (default EmptyString (ho_cgpath ho)) (fun cgroup_fd =>
          bf_bpf_link_create fd cgroup_fd hook (Some ho) 0)
    | Some BF_FLAVOR_NF => bf_bpf_link_create fd 0 hook (Some ho) 0
    | None => st_err (- BF_CRASH)
    end.
Proof.
  repeat case_match; try apply fresh_link_create; [|apply fresh_err].
  apply fresh_with_cgroup. intros cgroup_fd. apply fresh_link_create.
Qed.

Lemma h_attach G ho :
  htriple (fun p X => fds_inv G p X /\ link_fd (prog_link p) = -1) (bf_program_attach ho)
    (fun _ => fds_inv G) (fds_inv G).
Proof.
  unfold bf_program_attach. eapply h_bind; [apply h_get|]. intros p0 [p k] r s' [[HI Hl] ->].
  unfold on_link, bf_link_attach.
  set (m := match bf_hook_to_flavor _ with Some _ => _ | None => _ end).
  assert (fresh_fd m) as Hm by apply fresh_attach.
  unfold mbind, st_bind.
  pose proof (Hm (fun l X => l = prog_link p /\ X = fd_open k) (prog_link p, k)) as Hr.
  destruct (m (prog_link p, k)) as [[fd|e] [l k1]]; specialize (Hr _ _ (conj eq_refl eq_refl) eq_refl); cbn in Hr.
  - destruct Hr as (Y & [-> ->] & Hfd & Hn & HX). intros [= <- <-]. cbn. rewrite HX.
    eapply fds_inv_add, HI; [|done]. unfold owned. cbn [prog_sets with_link prog_cmap_fd prog_pmap_fd prog_lmap_fd
      prog_cmap prog_pmap prog_lmap prog_link prog_fd link_fd]. rewrite Hl, own_none, (own_some fd Hfd).
    unfold prog_cmap_fd, prog_pmap_fd, prog_lmap_fd. cbn [with_link prog_cmap prog_pmap prog_lmap]. solve_Permutation.
  - destruct Hr as [-> HX]. intros [= <- <-]. cbn. rewrite HX. by destruct p.
Qed.

(** Unloading closes everything. *)
Lemma link_detach_open l (k : K) :
  link_fd (fst (bf_link_detach l k)) = -1 /\
  fd_open (snd (bf_link_detach l k)) = fd_open k ∖ list_to_set (own (link_fd l)).
Proof.
  unfold bf_link_detach.
  pose proof (fd_same (SysLinkDetach (link_fd l)) k eq_refl ltac:(done)) as Hs.
  set (k1 := snd (sys_call _ k)) in *. pose proof (closep_open (link_fd l) k1) as Ho.
  pose proof (closep_fd (link_fd l) k1) as Hf. destruct (closep (link_fd l) k1) as [fd k2].
  cbn in *. by rewrite Ho, Hs.
Qed.

Lemma unload_open p (k : K) :
  closed (fst (bf_program_unload p k)) /\
  fd_open (snd (bf_program_unload p k)) = fd_open k ∖ list_to_set (owned p).
Proof.
  unfold bf_program_unload.
  pose proof (closep_open (prog_fd p) k) as H1. pose proof (closep_fd (prog_fd p) k) as F1.
  destruct (closep (prog_fd p) k) as [fd k1].
  pose proof (link_detach_open (prog_link p) k1) as [F2 H2]. destruct (bf_link_detach (prog_link p) k1) as [l k2].
  pose proof (map_destroy_open (prog_cmap p) k2) as [F3 H3]. destruct (bf_map_destroy (prog_cmap p) k2) as [c k3].
  pose proof (map_destroy_open (prog_pmap p) k3) as [F4 H4]. destruct (bf_map_destroy (prog_pmap p) k3) as [pm k4].
  pose proof (map_destroy_open (prog_lmap p) k4) as [F5 H5]. destruct (bf_map_destroy (prog_lmap p) k4) as [lm k5].
  pose proof (destroy_maps_open (prog_sets p) k5) as [F6 H6]. destruct (destroy_maps (prog_sets p) k5) as [ms k6].
  cbn [fst snd] in *. split; [by constructor|].
  rewrite H6, H5, H4, H3, H2, H1. unfold owned. rewrite !list_to_set_app_L.
  unfold prog_cmap_fd, prog_pmap_fd, prog_lmap_fd. set_solver.
Qed.
End Stages.

Lemma unloaded_owned p : unloaded p -> owned p = [].
Proof.
  intros [(Hc & [Hp _] & [Hl _] & Hk & Hf) Hs]. unfold owned.
  unfold prog_cmap_fd, prog_pmap_fd, prog_lmap_fd. rewrite Hc, Hp, Hl, Hk, Hf.
  rewrite own_maps_closed; [done|]. eapply Forall_impl; [exact Hs|by intros m [? _]].
Qed.

(** Whatever happens while a program is loaded and attached, unloading it
    closes every descriptor it opened, but for one at most. *)
Lemma load_attach_unload {K : Type} `{FdSys K} tok ho p (k : K) r p1 k1 : unloaded p -> 
  (bf_program_load tok ;; bf_program_attach ho) (p, k) = (r, (p1, k1)) ->
  closed (fst (bf_program_unload p1 k1)) /\ leak (fd_open k) (fd_open (snd (bf_program_unload p1 k1))).
Proof.
  intros Hu E.
  pose proof (unloaded_owned _ Hu) as Ho.
  assert (fds_inv (fd_open k) p (fd_open k)) as HI.
  { unfold fds_inv. rewrite Ho. split_and!; [set_solver|constructor|set_solver]. }
  destruct (unload_open p1 k1) as [Hcl ->]. split; [exact Hcl|].
  assert (fds_leak (fd_open k) p1 (fd_open k1)) as (G' & HG & HX & _ & Hd).
  { pose proof (h_bind _ (fun _ => bf_program_attach ho) _ _ (fun _ => on_fds (fds_leak (fd_open k))) _
      (h_load tok (fd_open k))) as Hb.
    specialize (Hb ltac:(clear; intros [] [p k'] r s' (G' & HG & HI & Hl) E;
      pose proof (h_attach G' ho (p, k') r s' (conj HI Hl) E); destruct r as [[]|], s'; cbn in *; by exists G')).
    specialize (Hb (p, k) r (p1, k1) (conj HI Hu) E). by destruct r. }
  rewrite HX. assert ((G' ∪ list_to_set (owned p1)) ∖ list_to_set (owned p1) = G') as -> by set_solver. done.
Qed.

(** * Creation *)

(** The map a set is given. *)
Definition set_map_ok (set : bf_set) (m : bf_map) : Prop :=
  map_type m = BF_MAP_TYPE_SET /\ map_fd m = -1 /\
  map_bpf_type m = (if set_use_trie set then BF_BPF_MAP_TYPE_LPM_TRIE else BF_BPF_MAP_TYPE_HASH) /\
  map_key_size m = set_elem_size set /\ map_value_size m = 1 /\
  map_n_elems m = Z.of_nat (length (set_elems set)).

Lemma set_maps_new_ok i sets :
  match set_maps_new i sets with
  | Ok ms => Forall2 set_map_ok sets ms
  | Err _ => Exists (fun s => set_elems s = []) sets
  end /\ (Exists (fun s => set_elems s = []) sets -> exists e, set_maps_new i sets = Err e).
Proof.
  revert i. induction sets as [|set sets IH]; intros i; cbn [set_maps_new].
  - split; [constructor|]. intros Hx. inversion Hx.
  - unfold bf_map_new_from_set, _bf_map_new.
    rewrite bool_decide_eq_false_2 by done.
    destruct (set_elems set) as [|e l] eqn:Es.
    + cbn. split; [by apply Exists_cons_hd|]. intros _. by eexists.
    + destruct (Z.eqb_spec (Z.of_nat (length (e :: l))) 0); [cbn in *; lia|]. cbn [rbind].
      destruct (IH (S i)) as [H1 H2]. destruct (set_maps_new (S i) sets) as [ms|e']; cbn [rbind].
      * split.
        -- constructor; [|exact H1]. unfold set_map_ok. cbn. by rewrite Es.
        -- intros [Hx|Hx]%Exists_cons; [congruence|]. by destruct (H2 Hx).
      * split; [by apply Exists_cons_tl|]. intros _. by eexists.
Qed.

Lemma set_maps_pending i sets ms : set_maps_new i sets = Ok ms -> pending ms.
Proof.
  intros E. pose proof (proj1 (set_maps_new_ok i sets)) as H1. rewrite E in H1.
  clear E. unfold pending. induction H1 as [|set m sets' ms' Hm _ IH]; constructor; [|done]. split; apply Hm.
Qed.

Lemma program_new_unloaded c p : bf_program_new c = Ok p -> unloaded p.
Proof.
  unfold bf_program_new. destruct (bf_hook_to_flavor (chain_hook c)) as [fl|]; cbn [of_option rbind]; [|done].
  destruct (set_maps_new 0 (chain_sets c)) as [ms|e] eqn:Es; cbn; [|done].
  intros [= <-]. split; [by split_and!|]. cbn [prog_sets]. by eapply set_maps_pending.
Qed.
