(* ===== verification/Generate.v ===== *)
(** Generation of a chain's program: [_bf_program_generate_rule],
    [_bf_program_generate_elfstubs] and [bf_program_generate] of
    [src/bpfilter/cgen/program.c], with the meaning of rules and chains and the
    correctness of the generated blocks. *)

From S2P Require Import Prelude Bytes Bpf Helper Hook Matcher BfSet Sys Map Rule Chain Printer.
From S2P Require Import Program Block BlockExec Fixups Context Symbolic Match Stubs KernelSpec GenIp4.
From S2P Require Import GenIp6 GenL4 Swich Flavors GenMeta Stub GenSet Prologue.

(** * Generation *)

Section Generate.
Context `{CgenEnv}.

Definition bf_matcher_generate (m : bf_matcher) : gen unit :=
  match matcher_type m with
  | BF_MATCHER_META_IFACE | BF_MATCHER_META_L3_PROTO | BF_MATCHER_META_L4_PROTO
  | BF_MATCHER_META_PROBABILITY | BF_MATCHER_META_SPORT | BF_MATCHER_META_DPORT
  | BF_MATCHER_META_MARK => bf_matcher_generate_meta m
  | BF_MATCHER_IP4_SADDR | BF_MATCHER_IP4_SNET | BF_MATCHER_IP4_DADDR | BF_MATCHER_IP4_DNET
  | BF_MATCHER_IP4_PROTO => bf_matcher_generate_ip4 m
  | BF_MATCHER_IP6_SADDR | BF_MATCHER_IP6_SNET | BF_MATCHER_IP6_DADDR | BF_MATCHER_IP6_DNET
  | BF_MATCHER_IP6_NEXTHDR => bf_matcher_generate_ip6 m
  | BF_MATCHER_TCP_SPORT | BF_MATCHER_TCP_DPORT | BF_MATCHER_TCP_FLAGS => bf_matcher_generate_tcp m
  | BF_MATCHER_UDP_SPORT | BF_MATCHER_UDP_DPORT => bf_matcher_generate_udp m
  | BF_MATCHER_ICMP_TYPE | BF_MATCHER_ICMP_CODE | BF_MATCHER_ICMPV6_TYPE
  | BF_MATCHER_ICMPV6_CODE => bf_matcher_generate_icmp m
  | BF_MATCHER_SET => bf_matcher_generate_set m
  | bf_matcher_type_other _ => gen_err (- EINVAL)
  end.

Fixpoint generate_matchers (ms : list bf_matcher) : gen unit :=
  match ms with
  | [] => mret tt
  | m :: ms => bf_matcher_generate m ;; generate_matchers ms
  end.

Definition generate_mark (rule : bf_rule) : gen unit :=
  if bf_rule_mark_is_set rule then
    p ← gen_get;
    match gen_inline_set_mark (prog_flavor p) with
    | None => gen_err (- ENOTSUP)
    | Some set_mark => set_mark (bf_rule_mark_get rule)
    end
  else mret tt.

Definition generate_log (rule : bf_rule) : gen unit :=
  if rule_log rule =? 0 then mret tt
  else
    EMIT (BPF_MOV64_REG BPF_REG_1 BPF_REG_10) ;;
    EMIT (BPF_ALU64_IMM BPF_ADD BPF_REG_1 (BF_PROG_CTX_OFF RT_arg)) ;;
    EMIT (BPF_MOV64_IMM BPF_REG_2 (rule_index rule)) ;;
    EMIT (BPF_MOV64_IMM BPF_REG_3 (rule_log rule)) ;;
    EMIT (BPF_MOV64_REG BPF_REG_4 BPF_REG_7) ;;
    EMIT (BPF_MOV64_REG BPF_REG_5 BPF_REG_8) ;;
    EMIT_FIXUP_ELFSTUB BF_ELFSTUB_LOG.

(** Count the packet in the counter [idx]. *)
Definition generate_count (idx : Z) : gen unit :=
  EMIT (BPF_MOV64_REG BPF_REG_1 BPF_REG_10) ;;
  EMIT (BPF_ALU64_IMM BPF_ADD BPF_REG_1 (BF_PROG_CTX_OFF RT_arg)) ;;
  EMIT_LOAD_COUNTERS_FD_FIXUP BPF_REG_2 ;;
  EMIT (BPF_MOV32_IMM BPF_REG_3 idx) ;;
  EMIT_FIXUP_ELFSTUB BF_ELFSTUB_UPDATE_COUNTERS.

Definition generate_return (verdict : bf_verdict) : gen unit :=
  ret ← gen_verdict verdict;
  EMIT (BPF_MOV64_IMM BPF_REG_0 ret) ;;
  EMIT BPF_EXIT_INSN.

(** A verdict out of the enumeration aborts the daemon. *)
Definition generate_rule_verdict (verdict : bf_verdict) : gen unit :=
  match verdict with
  | BF_VERDICT_ACCEPT | BF_VERDICT_DROP => generate_return verdict
  | BF_VERDICT_CONTINUE => mret tt
  | bf_verdict_other _ => gen_err (- BF_CRASH)
  end.

Definition rule_body (rule : bf_rule) : gen unit :=
  generate_matchers (rule_matchers rule) ;;
  generate_mark rule ;;
  generate_log rule ;;
  (if rule_counters rule then generate_count (rule_index rule) else mret tt) ;;
  generate_rule_verdict (rule_verdict rule).

Definition _bf_program_generate_rule (rule : bf_rule) : gen unit :=
  rule_body rule ;;
  gen_fixup BF_FIXUP_TYPE_JMP_NEXT_RULE.

Fixpoint generate_rules (rules : list bf_rule) : gen unit :=
  match rules with
  | [] => mret tt
  | r :: rules => _bf_program_generate_rule r ;; generate_rules rules
  end.

(** Replace the call to [bpf_trace_printk]'s string of a stub by the address
    of the message in the printer's map.  Instructions out of the image would
    be out of the allocation. *)
Definition elfstub_str (start_at : nat) (pstr : bf_printk_str) : gen unit :=
  fun p =>
    let insn_idx := (start_at + printk_insn_idx pstr)%nat in
    let '(msg, pr) := bf_printer_add_msg (prog_printer p) (printk_str pstr) in
    let p := with_printer p pr in
    match BPF_PSEUDO_MAP_VALUE_LOAD BPF_REG_1 (bf_printer_msg_offset msg) with
    | [i0; i1] =>
        if (S insn_idx <? img_size p)%nat then
          let img := <[S insn_idx := i1]> (<[insn_idx := i0]> (prog_img p)) in
          Ok (tt, with_img p img (prog_img_cap p)
                    (prog_fixups p ++ [bf_fixup_new BF_FIXUP_TYPE_PRINTER_MAP_FD insn_idx AttrNone]))
        else Err (- BF_CRASH)
    | _ => Err (- EINVAL)
    end.

Fixpoint elfstub_strs (start_at : nat) (strs : list bf_printk_str) : gen unit :=
  match strs with
  | [] => mret tt
  | s :: strs => elfstub_str start_at s ;; elfstub_strs start_at strs
  end.

Definition gen_set_stub (id : bf_elfstub_id) (off : nat) : gen unit :=
  fun p => Ok (tt, with_stub p id off).

Definition generate_elfstub (id : bf_elfstub_id) : gen unit :=
  p ← gen_get;
  if (elfstubs_location p id =? 0)%nat then
    match bf_ctx_get_elfstub id with
    | None => gen_err (- ENOENT)
    | Some stub =>
        let off := img_size p in
        emit_all (stub_insns stub) ;;
        elfstub_strs off (stub_strs stub) ;;
        gen_set_stub id off
    end
  else mret tt.

(** The fixups added by the loop are not calls. *)
Fixpoint generate_elfstubs (fxs : list bf_fixup) : gen unit :=
  match fxs with
  | [] => mret tt
  | fx :: fxs =>
      (if decide (fixup_type fx = BF_FIXUP_ELFSTUB_CALL)
       then generate_elfstub (attr_stub (fixup_attr fx)) else mret tt) ;;
      generate_elfstubs fxs
  end.

Definition _bf_program_generate_elfstubs : gen unit :=
  p ← gen_get; generate_elfstubs (prog_fixups p).

Definition generate_start : gen unit :=
  EMIT (BPF_STX_MEM BPF_DW BPF_REG_10 BPF_REG_1 (BF_PROG_CTX_OFF RT_arg)) ;;
  EMIT (BPF_MOV64_IMM BPF_REG_7 0) ;;
  EMIT (BPF_MOV64_IMM BPF_REG_8 0) ;;
  p ← gen_get;
  (if chain_has (prog_chain p) BF_CHAIN_LOG then
     EMIT_LOAD_LOG_FD_FIXUP BPF_REG_2 ;;
     EMIT (BPF_STX_MEM BPF_DW BPF_REG_10 BPF_REG_2 (BF_PROG_CTX_OFF RT_log_map))
   else mret tt) ;;
  (if chain_has (prog_chain p) BF_CHAIN_STORE_NEXTHDR then
     EMIT (BPF_STX_MEM BPF_DW BPF_REG_10 BPF_REG_7 (BF_PROG_CTX_OFF RT_ipv6_eh))
   else mret tt) ;;
  gen_inline_prologue (prog_flavor p).

Definition generate_policy : gen unit :=
  p ← gen_get;
  generate_count (bf_program_chain_counter_idx p) ;;
  generate_return (chain_policy (prog_chain p)).

Definition bf_program_generate : gen unit :=
  p ← gen_get;
  generate_start ;;
  generate_rules (chain_rules (prog_chain p)) ;;
  gen_inline_epilogue (prog_flavor p) ;;
  generate_policy ;;
  _bf_program_generate_elfstubs ;;
  gen_fixup BF_FIXUP_ELFSTUB_CALL.
End Generate.

(** * Meaning *)

Section Meaning.
Context {W : Type} `{Kernel W} (c : bf_chain) `{!StubHelpers W} `{!KernelSpec W c}.

Definition matcher_spec (m : bf_matcher) : mspec W :=
  match matcher_type m with
  | BF_MATCHER_META_IFACE | BF_MATCHER_META_L3_PROTO | BF_MATCHER_META_L4_PROTO
  | BF_MATCHER_META_PROBABILITY | BF_MATCHER_META_SPORT | BF_MATCHER_META_DPORT
  | BF_MATCHER_META_MARK => match_meta c m
  | BF_MATCHER_IP4_SADDR | BF_MATCHER_IP4_SNET | BF_MATCHER_IP4_DADDR | BF_MATCHER_IP4_DNET
  | BF_MATCHER_IP4_PROTO => pure_match (fun pk => match_ip4 pk m)
  | BF_MATCHER_IP6_SADDR | BF_MATCHER_IP6_SNET | BF_MATCHER_IP6_DADDR | BF_MATCHER_IP6_DNET
  | BF_MATCHER_IP6_NEXTHDR => pure_match (fun pk => match_ip6 pk m)
  | BF_MATCHER_TCP_SPORT | BF_MATCHER_TCP_DPORT | BF_MATCHER_TCP_FLAGS =>
      pure_match (fun pk => match_tcp pk m)
  | BF_MATCHER_UDP_SPORT | BF_MATCHER_UDP_DPORT => pure_match (fun pk => match_udp pk m)
  | BF_MATCHER_ICMP_TYPE | BF_MATCHER_ICMP_CODE | BF_MATCHER_ICMPV6_TYPE
  | BF_MATCHER_ICMPV6_CODE => pure_match (fun pk => match_icmp pk m)
  | BF_MATCHER_SET =>
      match bf_chain_get_set_for_matcher c m with
      | Some set => pure_match (match_set set)
      | None => pure_match (fun _ => false)
      end
  | bf_matcher_type_other _ => pure_match (fun _ => false)
  end.

(** All the matchers, in order, stopping at the first that does not match. *)
Fixpoint matchers_spec (ms : list bf_matcher) : mspec W :=
  match ms with
  | [] => fun _ w => (true, w)
  | m :: ms => spec_seq (matcher_spec m) (matchers_spec ms)
  end.

(** What is done to a packet and to the kernel's state. *)
Abbreviation effect := (pkt -> W -> pkt * W).

Definition eff_seq (f g : effect) : effect := fun pk w => let '(pk, w) := f pk w in g pk w.

Definition mark_effect (rule : bf_rule) : effect := fun pk w =>
  (if bf_rule_mark_is_set rule then with_mark (bf_rule_mark_get rule) pk else pk, w).

(** Immediates are sign-extended. *)
Definition log_effect (rule : bf_rule) : effect := fun pk w =>
  (pk, if rule_log rule =? 0 then w
       else log_packet (pk_log_map pk) (imm_value (rule_index rule)) (imm_value (rule_log rule))
              (pk_l3proto pk) (pk_l4proto pk) (pk_size pk) (pk_slice pk) w).

Definition count_effect (idx : Z) : effect := fun pk w => (pk, count_packet (u32 idx) (pk_size pk) w).

Definition rule_effect (rule : bf_rule) : effect :=
  eff_seq (mark_effect rule)
    (eff_seq (log_effect rule)
      (if rule_counters rule then count_effect (rule_index rule) else fun pk w => (pk, w))).

Definition rule_terminal (rule : bf_rule) : option bf_verdict :=
  match rule_verdict rule with
  | BF_VERDICT_ACCEPT => Some BF_VERDICT_ACCEPT
  | BF_VERDICT_DROP => Some BF_VERDICT_DROP
  | _ => None
  end.

(** A rule: whether the packet matched, the verdict if it is final, the packet
    and the state after. *)
Definition rule_sem (rule : bf_rule) (pk : pkt) (w : W) : bool * option bf_verdict * (pkt * W) :=
  let '(matched, w) := matchers_spec (rule_matchers rule) pk w in
  if matched then (true, rule_terminal rule, rule_effect rule pk w)
  else (false, None, (pk, w)).

(** The rules in order: the first verdict. *)
Fixpoint rules_sem (rules : list bf_rule) (pk : pkt) (w : W) : option bf_verdict * (pkt * W) :=
  match rules with
  | [] => (None, (pk, w))
  | r :: rules =>
      match rule_sem r pk w with
      | (_, Some v, pw) => (Some v, pw)
      | (_, None, (pk, w)) => rules_sem rules pk w
      end
  end.

(** No verdict: the packet is counted and the policy applies. *)
Definition chain_sem (pk : pkt) (w : W) : bf_verdict * (pkt * W) :=
  match rules_sem (chain_rules c) pk w with
  | (Some v, pw) => (v, pw)
  | (None, (pk, w)) =>
      (chain_policy c, count_effect (Z.of_nat (length (chain_rules c))) pk w)
  end.
End Meaning.

(** * Correctness *)

(** What the proofs need of a matcher: the operators and the set its generator
    accepts, and the place of the mark. *)
Record matcher_ok `{CgenEnv} (c : bf_chain) (fl : bf_flavor) (lo : layout) (m : bf_matcher) : Prop :=
  mk_matcher_ok {
  mo_known : forall n, matcher_type m <> bf_matcher_type_other n;
  mo_wf : matcher_wf m;
  mo_op : matcher_type m <> BF_MATCHER_SET -> matcher_op m <> BF_MATCHER_IN;
  mo_mark : matcher_type m = BF_MATCHER_META_MARK -> mark_layout fl lo;
  mo_set : matcher_type m = BF_MATCHER_SET -> exists set,
    bf_chain_get_set_for_matcher c m = Some set /\ set_wf set /\ Forall is_bytes (set_elems set) /\
    (set_use_trie set = false -> key_fields_size (set_key set) <= 64)
}.

Record rule_ok `{CgenEnv} (c : bf_chain) (fl : bf_flavor) (lo : layout) (r : bf_rule) : Prop :=
  mk_rule_ok {
  ro_matchers : Forall (matcher_ok c fl lo) (rule_matchers r);
  ro_mark : bf_rule_mark_is_set r = true -> gen_inline_set_mark fl <> None /\ mark_layout fl lo;
  ro_verdict : forall n, rule_verdict r <> bf_verdict_other n
}.

Section Correct.
Context `{CgenEnv} {W : Type} `{Kernel W} (c : bf_chain) `{!StubHelpers W} `{!KernelSpec W c}
  (fl : bf_flavor) (lo : layout).

Lemma gen_matcher_matches m : matcher_ok c fl lo m ->
  gen_matches c fl lo (bf_matcher_generate m) (matcher_spec c m).
Proof.
  intros [Hk Hwf Hop Hmk Hset]. unfold bf_matcher_generate, matcher_spec.
  destruct (decide (matcher_type m = BF_MATCHER_SET)) as [Es|Es].
  - destruct (Hset Es) as (set & Hg & Hw & Hb & Hsz). rewrite Es, Hg.
    eapply gen_set_matches; try done; [by rewrite (matcher_len m Hwf), Es|]. unfold bf_chain_get_set_for_matcher in Hg.
    by rewrite decide_True in Hg by done.
  - specialize (Hop Es).
    destruct (matcher_type m) eqn:Et; try done; try (by destruct (Hk n));
      first [ apply gen_meta_matches; [done|by rewrite Et|rewrite Et; done]
            | apply gen_ip4_matches; [done|by rewrite Et]
            | apply gen_ip6_matches; [done|by rewrite Et|done]
            | apply gen_tcp_matches; [done|by rewrite Et|done]
            | apply gen_udp_matches; [done|by rewrite Et|done]
            | apply gen_icmp_matches; [done|by rewrite Et|done] ].
Qed.

Lemma gen_matchers_match ms : Forall (matcher_ok c fl lo) ms ->
  gen_matches c fl lo (generate_matchers ms) (matchers_spec c ms).
Proof.
  induction 1 as [|m ms Hm _ IH]; cbn [generate_matchers matchers_spec].
  - exists []. split; [apply gemits_ret|]. intros pk s Hc. by exists s.
  - apply gen_matches_seq; [by apply gen_matcher_matches|done].
Qed.

(** ** Effects *)

Definition gen_does (g : gen unit) (f : pkt -> W -> pkt * W) : Prop :=
  exists b, gemits c fl g b /\ forall pk (s : vm W), ctx_rel lo pk s ->
    exists s', exec b 0 s = BFall 0 s' /\ ctx_rel lo (fst (f pk (world s))) s' /\
      world s' = snd (f pk (world s)).

Lemma gen_does_seq g1 g2 f1 f2 : gen_does g1 f1 -> gen_does g2 f2 ->
  gen_does (g1 ;; g2) (eff_seq f1 f2).
Proof.
  intros (b1 & E1 & H1) (b2 & E2 & H2). exists (b1 ++ b2). split; [by apply gemits_seq|].
  intros pk s Hc. destruct (H1 pk s Hc) as (s1 & X1 & Hc1 & Hw1).
  destruct (H2 _ s1 Hc1) as (s2 & X2 & Hc2 & Hw2). exists s2.
  rewrite exec_app, X1. cbn [bcont]. unfold eff_seq. rewrite Hw1 in Hc2, Hw2.
  by destruct (f1 pk (world s)).
Qed.

Lemma gen_does_ret : gen_does (mret tt) (fun pk w => (pk, w)).
Proof. exists []. split; [apply gemits_ret|]. intros pk s Hc. by exists s. Qed.

Lemma gen_mark_does r : rule_ok c fl lo r -> gen_does (generate_mark r) (mark_effect r).
Proof.
  intros [_ Hm _]. unfold generate_mark, mark_effect. destruct (bf_rule_mark_is_set r) eqn:E.
  - destruct (Hm eq_refl) as [Hs Hl]. destruct (gen_inline_set_mark fl) as [g|] eqn:Eg; [|done].
    assert (0 <= bf_rule_mark_get r < 2 ^ 32) as Hr.
    { unfold bf_rule_mark_get. change BF_RULE_MARK_MASK with (Z.ones 32). rewrite Z.land_ones by lia.
      apply Z.mod_pos_bound. lia. }
    destruct (gen_set_mark (W := W) c fl lo g _ Hl Eg Hr) as (b & Hb & _ & Hx).
    exists b. split.
    + intros p Hp. unfold mbind, gen_bind, gen_get. pose proof Hp as [_ Hfl]. rewrite Hfl, Eg. by apply Hb.
    + intros pk s Hc. destruct (Hx pk s Hc) as (s' & ? & ? & ?). by exists s'.
  - apply gen_does_ret.
Qed.

Lemma ctx_ptr pk (s : vm W) : ctx_rel lo pk s ->
  alu_op BPF_ADD (lo_fp lo) (u64 (s32 (BF_PROG_CTX_OFF RT_arg))) 64 = Some (ctx_addr lo RT_arg).
Proof.
  intros Hc. pose proof (lw_fp _ _ (cr_lay _ _ _ Hc)) as [H1 H2]. unfold alu_op. cbn [Z.eqb BPF_ADD].
  change (uw 64) with u64. unfold ctx_addr, sizeof_bf_runtime in *. f_equal.
  change (u64 (s32 (BF_PROG_CTX_OFF RT_arg))) with (2 ^ 64 - 240).
  change (BF_PROG_CTX_OFF RT_arg) with (-240).
  replace (lo_fp lo + (2 ^ 64 - 240)) with (lo_fp lo + -240 + 1 * 2 ^ 64) by lia.
  unfold u64. rewrite Z_mod_plus_full. apply Z.mod_small. lia.
Qed.

(** The packet is still there after a call. *)
Ltac call_tac :=
  cbn [fst];
  lazymatch goal with
  | |- ctx_rel ?lo ?pk (mk_vm (clobber (regs ?s) ?r) _ ?w) => apply (ctx_rel_clobber lo pk s r w); ctx_tac
  end.

Lemma gen_log_does r : gen_does (generate_log r) (log_effect r).
Proof.
  unfold generate_log, log_effect. destruct (rule_log r =? 0); [apply gen_does_ret|].
  eexists. split; [gen_emit|]. intros pk s Hc. cbn [app].
  erewrite ex_mov64_reg by apply Hc.
  erewrite ex_alu64_imm; [|code_tac|reg_tac|by eapply ctx_ptr].
  rewrite !ex_mov64_imm.
  erewrite ex_mov64_reg; [|reg_tac; apply Hc].
  erewrite ex_mov64_reg; [|reg_tac; apply Hc].
  destruct (log_stub c
    (regs (set_reg BPF_REG_5 (pk_l4proto pk) (set_reg BPF_REG_4 (pk_l3proto pk)
      (set_reg BPF_REG_3 (u64 (s32 (rule_log r))) (set_reg BPF_REG_2 (u64 (s32 (rule_index r)))
        (set_reg BPF_REG_1 (ctx_addr lo RT_arg) (set_reg BPF_REG_1 (lo_fp lo) s)))))))
    (mem s) (world s) (ctx_addr lo RT_arg) (u64 (s32 (rule_index r))) (u64 (s32 (rule_log r)))
    (pk_l3proto pk) (pk_l4proto pk) (pk_log_map pk) (pk_size pk) (pk_slice pk)) as [r0 Hr0];
    try reg_tac; rewrite ?ctx_addr_arg; try apply Hc.
  erewrite ex_stub by exact Hr0. rewrite ex_nil.
  eexists. split; [reflexivity|]. split; [call_tac|done].
Qed.

Lemma gen_count_does idx : gen_does (generate_count idx) (count_effect idx).
Proof.
  unfold generate_count, count_effect. eexists. split; [gen_emit|]. intros pk s Hc. cbn [app].
  erewrite ex_mov64_reg by apply Hc.
  erewrite ex_alu64_imm; [|code_tac|reg_tac|by eapply ctx_ptr].
  rewrite ex_ld_map by done. rewrite ex_mov32_imm.
  destruct (count_stub c
    (regs (set_reg BPF_REG_3 (u32 idx) (set_reg BPF_REG_2 (k_map BF_FIXUP_TYPE_COUNTERS_MAP_FD AttrNone)
        (set_reg BPF_REG_1 (ctx_addr lo RT_arg) (set_reg BPF_REG_1 (lo_fp lo) s)))))
    (mem s) (world s) (ctx_addr lo RT_arg) (u32 idx) (pk_size pk)) as [r0 Hr0]; try reg_tac.
  { rewrite ctx_addr_arg. apply Hc. }
  erewrite ex_stub by exact Hr0. rewrite ex_nil.
  eexists. split; [reflexivity|]. split; [call_tac|done].
Qed.

(** ** Rules *)

Definition verdict_ret (v : bf_verdict) : Z := default 0 (get_verdict fl v).

Lemma verdict_ret_imm v : u64 (s32 (verdict_ret v)) = verdict_ret v.
Proof. unfold verdict_ret. by destruct fl, v. Qed.

(** How a rule's block ends: with a verdict, at its end, or by a jump to the
    next rule. *)
Definition rule_out (matched : bool) (v : option bf_verdict) (s : vm W) : bout W :=
  match v with
  | Some v => BExit (verdict_ret v) s
  | None => if matched then BFall 0 s else BRule s
  end.

Abbreviation osem := (pkt -> W -> bool * option bf_verdict * (pkt * W)).

Definition block_outs (b : block) (sem : osem) : Prop :=
  forall pk (s : vm W), ctx_rel lo pk s ->
    exists s', exec b 0 s = rule_out (fst (fst (sem pk (world s)))) (snd (fst (sem pk (world s)))) s' /\
      ctx_rel lo (fst (snd (sem pk (world s)))) s' /\ world s' = snd (snd (sem pk (world s))).

Definition gen_outs (g : gen unit) (sem : osem) : Prop :=
  exists b, gemits c fl g b /\ block_outs b sem.

Lemma gen_outs_ext g sem sem' : (forall pk w, sem pk w = sem' pk w) -> gen_outs g sem -> gen_outs g sem'.
Proof.
  intros He (b & Hb & Hx). exists b. split; [done|]. intros pk s Hc. rewrite <- !He. by apply Hx.
Qed.

Lemma gen_outs_does g1 g2 f sem : gen_does g1 f -> gen_outs g2 sem ->
  gen_outs (g1 ;; g2) (fun pk w => let '(pk, w) := f pk w in sem pk w).
Proof.
  intros (b1 & E1 & H1) (b2 & E2 & H2). exists (b1 ++ b2). split; [by apply gemits_seq|].
  intros pk s Hc. destruct (H1 pk s Hc) as (s1 & X1 & Hc1 & Hw1).
  destruct (H2 _ s1 Hc1) as (s2 & X2 & Hc2 & Hw2). exists s2.
  rewrite exec_app, X1. cbn [bcont]. rewrite Hw1 in X2, Hc2, Hw2.
  by destruct (f pk (world s)).
Qed.

Lemma gen_outs_match g1 g2 f sem : gen_matches c fl lo g1 f -> gen_outs g2 sem ->
  gen_outs (g1 ;; g2)
    (fun pk w => let '(r, w) := f pk w in if r then sem pk w else (false, None, (pk, w))).
Proof.
  intros (b1 & E1 & H1) (b2 & E2 & H2). exists (b1 ++ b2). split; [by apply gemits_seq|].
  intros pk s Hc. destruct (H1 pk s Hc) as (s1 & Hc1 & Hw1 & X1). rewrite exec_app, X1.
  destruct (f pk (world s)) as [[] w]; cbn [fst snd bcont] in *.
  - destruct (H2 _ s1 Hc1) as (s2 & X2 & Hc2 & Hw2). rewrite Hw1 in X2, Hc2, Hw2. by exists s2.
  - by exists s1.
Qed.

Lemma generate_return_outs v : is_Some (get_verdict fl v) ->
  gen_outs (generate_return v) (fun pk w => (true, Some v, (pk, w))).
Proof.
  intros [ret Hv]. exists ([ISingle (BPF_MOV64_IMM BPF_REG_0 ret) None] ++ [ISingle BPF_EXIT_INSN None]). split.
  - intros p Hp. unfold generate_return, gen_verdict, mbind, gen_bind, gen_get, gen_lift, of_option.
    pose proof Hp as [_ Hfl]. rewrite Hfl, Hv.
    exact (gemits_seq c fl _ _ _ _ (gemits_EMIT c fl _) (gemits_EMIT c fl _) p Hp).
  - intros pk s Hc. cbn [app fst snd]. rewrite ex_mov64_imm. erewrite ex_exit by reg_tac.
    eexists. cbn [rule_out]. split.
    + f_equal. unfold verdict_ret. rewrite Hv. cbn [default].
      transitivity (verdict_ret v); [|by unfold verdict_ret; rewrite Hv].
      rewrite <- (verdict_ret_imm v). unfold verdict_ret. by rewrite Hv.
    + split; [ctx_tac|done].
Qed.

Definition terminal_of (v : bf_verdict) : option bf_verdict :=
  match v with
  | BF_VERDICT_ACCEPT => Some BF_VERDICT_ACCEPT
  | BF_VERDICT_DROP => Some BF_VERDICT_DROP
  | _ => None
  end.

Lemma generate_verdict_outs v : (forall n, v <> bf_verdict_other n) ->
  gen_outs (generate_rule_verdict v) (fun pk w => (true, terminal_of v, (pk, w))).
Proof.
  intros Hv. destruct v; cbn [generate_rule_verdict terminal_of]; try by destruct (Hv n).
  - apply generate_return_outs. destruct fl; by eexists.
  - apply generate_return_outs. destruct fl; by eexists.
  - exists []. split; [apply gemits_ret|]. intros pk s Hc. by exists s.
Qed.

Lemma rule_body_outs r : rule_ok c fl lo r -> gen_outs (rule_body r) (rule_sem c r).
Proof.
  intros Hok. pose proof Hok as [Hm _ Hv]. unfold rule_body.
  eapply gen_outs_ext;
    [|apply gen_outs_match; [by apply gen_matchers_match|];
      apply gen_outs_does; [by apply gen_mark_does|];
      apply gen_outs_does; [by apply gen_log_does|];
      apply gen_outs_does with (f := if rule_counters r then count_effect (rule_index r) else fun pk w => (pk, w));
      [destruct (rule_counters r); [apply gen_count_does|apply gen_does_ret]|by apply generate_verdict_outs]].
  intros pk w. unfold rule_sem, rule_effect, eff_seq, rule_terminal, terminal_of.
  destruct (matchers_spec c (rule_matchers r) pk w) as [[] w1]; [|done].
  cbn [mark_effect]. unfold log_effect, mark_effect. by destruct (rule_counters r).
Qed.

(** ** Chains *)

(** [g] appends [b] to a program without pending next-rule jumps, and leaves
    none. *)
Definition remits (g : gen unit) (b : block) : Prop :=
  forall p, prog_of c fl p -> clean p -> exists p', g p = Ok (tt, p') /\ emits b p p' /\ clean p'.

Lemma remits_seq g1 g2 b1 b2 : remits g1 b1 -> remits g2 b2 -> remits (g1 ;; g2) (b1 ++ b2).
Proof.
  intros H1 H2 p Hp Hc. destruct (H1 p Hp Hc) as (q & E1 & He1 & Hcq).
  destruct (H2 q (emits_prog_of _ _ _ _ _ He1 Hp) Hcq) as (r & E2 & He2 & Hcr).
  exists r. split_and!; [|by eapply emits_trans|done]. unfold mbind, gen_bind. by rewrite E1.
Qed.

Lemma gemits_remits g b : gemits c fl g b -> forallb no_rule b = true -> remits g b.
Proof.
  intros Hg Hn p Hp Hc. destruct (Hg p Hp) as (q & E & He). exists q.
  split_and!; [done|done|by eapply emits_clean].
Qed.

Lemma remits_get {k b} : (forall p, prog_of c fl p -> remits (k p) b) -> remits (gen_get ≫= k) b.
Proof. intros Hk p Hp Hc. exact (Hk p Hp p Hp Hc). Qed.

Lemma remits_rule r b : gemits c fl (rule_body r) b -> remits (_bf_program_generate_rule r) (resolve b).
Proof.
  intros Hb p Hp Hc. destruct (Hb p Hp) as (q & E & He).
  destruct (emits_resolve b p q He Hc) as (q' & Eq & He'). exists q'.
  split_and!; [|done|eapply emits_clean; [done|done|apply resolve_no_rule]].
  unfold _bf_program_generate_rule, mbind, gen_bind. rewrite E. unfold gen_fixup. by rewrite Eq.
Qed.

(** The end of a resolved block: a verdict, or the next rule. *)
Definition chain_out (v : option bf_verdict) (s : vm W) : bout W :=
  match v with Some v => BExit (verdict_ret v) s | None => BFall 0 s end.

Lemma rules_outs rules : Forall (rule_ok c fl lo) rules ->
  exists b, remits (generate_rules rules) b /\ forallb no_rule b = true /\
    (Z.of_nat (size b) < 2 ^ 15 -> forall pk (s : vm W), ctx_rel lo pk s ->
      exists s', exec b 0 s = chain_out (fst (rules_sem c rules pk (world s))) s' /\
        ctx_rel lo (fst (snd (rules_sem c rules pk (world s)))) s' /\
        world s' = snd (snd (rules_sem c rules pk (world s)))).
Proof.
  induction 1 as [|r rules Hr _ (b & Hb & Hn & Hx)]; cbn [generate_rules rules_sem].
  - exists []. split_and!; [apply gemits_remits; [apply gemits_ret|done]|done|].
    intros _ pk s Hc. by exists s.
  - destruct (rule_body_outs r Hr) as (br & Hbr & Hxr). exists (resolve br ++ b).
    split_and!; [by apply remits_seq; [apply remits_rule|]|by rewrite forallb_app, resolve_no_rule, Hn|].
    rewrite size_app, size_resolve. intros Hsz pk s Hc.
    destruct (Hxr pk s Hc) as (s1 & X1 & Hc1 & Hw1).
    destruct (rule_sem c r pk (world s)) as [[m [v|]] [pk1 w1]]; cbn [fst snd] in *.
    + exists s1. split_and!; [|done|done].
      rewrite exec_app, exec_resolve by (lia || by rewrite X1). by rewrite X1.
    + assert (exec (resolve br) 0 s = BFall 0 s1) as X1'.
      { rewrite exec_resolve by (lia || (rewrite X1; by destruct m)). rewrite X1. by destruct m. }
      subst w1. destruct (Hx ltac:(lia) pk1 s1 Hc1) as (s2 & X2 & Hc2 & Hw2). exists s2.
      rewrite exec_app, X1'. cbn [bcont]. done.
Qed.

Lemma emitted_policy : is_Some (get_verdict fl (chain_policy c)) -> gen_emits c fl generate_policy.
Proof.
  intros Hv. unfold generate_policy, bf_program_chain_counter_idx.
  apply emitted_get; [by intros ? [-> _]|].
  apply emitted_seq; [|].
  - unfold generate_count. repeat (apply emitted_seq; [first [apply emitted_EMIT|apply emitted_counters]|]).
    apply emitted_stub.
  - apply emitted_verdict; [done|]. intros x. apply emitted_seq; apply emitted_EMIT.
Qed.

(** Everything between the prologue and the stubs. *)
Definition generate_chain : gen unit :=
  generate_rules (chain_rules c) ;; gen_inline_epilogue fl ;; generate_policy.

Lemma policy_outs : is_Some (get_verdict fl (chain_policy c)) ->
  gen_outs generate_policy (fun pk w =>
    (true, Some (chain_policy c), count_effect (Z.of_nat (length (chain_rules c))) pk w)).
Proof.
  intros Hv.
  destruct (gen_outs_does _ _ _ _ (gen_count_does (Z.of_nat (length (chain_rules c))))
              (generate_return_outs _ Hv)) as (b & Hb & Hx).
  exists b. split; [|exact Hx]. intros p Hp. pose proof Hp as [Hpc _].
  unfold generate_policy, mbind at 1, gen_bind, gen_get, bf_program_chain_counter_idx. rewrite Hpc.
  by apply Hb.
Qed.

Lemma chain_outs : Forall (rule_ok c fl lo) (chain_rules c) ->
  is_Some (get_verdict fl (chain_policy c)) ->
  exists b, remits generate_chain b /\ forallb no_rule b = true /\
    (Z.of_nat (size b) < 2 ^ 15 -> forall pk (s : vm W), ctx_rel lo pk s ->
      exists s', exec b 0 s = BExit (verdict_ret (fst (chain_sem c pk (world s)))) s' /\
        ctx_rel lo (fst (snd (chain_sem c pk (world s)))) s' /\
        world s' = snd (snd (chain_sem c pk (world s)))).
Proof.
  intros Hr Hv. destruct (rules_outs _ Hr) as (b1 & E1 & N1 & X1).
  destruct (policy_outs Hv) as (b2 & E2 & X2).
  assert (forallb no_rule b2 = true) as N2.
  { eapply emitted_no_rule; [exact E2|by apply emitted_policy]. }
  exists (b1 ++ b2). split_and!.
  - apply remits_seq; [done|]. apply (remits_seq _ _ [] b2); [|by apply gemits_remits].
    apply gemits_remits; [|done]. destruct fl; apply gemits_ret.
  - by rewrite forallb_app, N1, N2.
  - rewrite size_app. intros Hsz pk s Hc. destruct (X1 ltac:(lia) pk s Hc) as (s1 & Y1 & Hc1 & Hw1).
    rewrite exec_app, Y1. unfold chain_sem.
    destruct (rules_sem c (chain_rules c) pk (world s)) as [[v|] [pk1 w1]]; cbn [fst snd chain_out bcont] in *.
    + by exists s1.
    + destruct (X2 pk1 s1 Hc1) as (s2 & Y2 & Hc2 & Hw2). exists s2. subst w1. done.
Qed.
End Correct.
