(* ===== verification/Cgen.v ===== *)
(** Code generation contexts: [struct bf_cgen] and its operations,
    [src/bpfilter/cgen/cgen.c], with the daemon's options they depend on
    ([opts.c]) and its pin directory ([ctx.c]).

    A cgen owns a chain and the program made from it.  A program that cannot
    be loaded, attached or pinned is freed, which closes its descriptors.
    Dereferencing the program of a cgen that has none is the error [BF_CRASH],
    and so is aborting the daemon, after which its state does not matter. *)

From S2P Require Import Prelude Bytes Bpf Helper Hook Hookopts Matcher BfSet Sys Io Map Rule.
From S2P Require Import Chain Printer Pack Serial Program Block BlockExec Fixups Flavors Load Generate.

(** What the daemon is started with: its options, its namespaces and the
    descriptor of its BPF token. *)
Record bf_daemon : Type := mk_daemon {
  bf_opts_transient : bool;
  bf_opts_bpffs_path : string;
  ctx_ns : bf_ns;
  ctx_token : Z
}.

Definition bf_opts_persist (d : bf_daemon) : bool := negb (bf_opts_transient d).

Record bf_cgen : Type := mk_cgen {
  cgen_front : bf_front;
  cgen_chain : bf_chain;
  cgen_program : option bf_program
}.

Definition with_program (p : option bf_program) (cg : bf_cgen) : bf_cgen :=
  mk_cgen (cgen_front cg) (cgen_chain cg) p.

(** The chain is taken over when it is valid. *)
Definition bf_cgen_new (front : bf_front) (chain : bf_chain) : res bf_cgen :=
  if bf_chain_validate chain then Ok (mk_cgen front chain None) else Err (- EINVAL).

(** Indices of the counters that belong to no rule. *)
Definition BF_COUNTER_POLICY : Z := -2.
Definition BF_COUNTER_ERRORS : Z := -1.

(** What a lookup in the counters' map copies out. *)
Class CounterSys (K : Type) `{Sys K} : Type := { sys_counter : Z -> Z -> K -> bf_counter }.

Section Cgen.
Context `{CgenEnv} {K : Type} `{Sys K} (d : bf_daemon).

Abbreviation M A := (st (bf_cgen * K) A).

(** * The pin directory *)

(** Attempts to open a directory that may have to be created. *)
Definition OPENDIR_FUEL : nat := 2.

Definition bf_ctx_get_pindir_fd {T} : st (T * K) Z :=
  with_dir (bf_opendir (bf_opts_bpffs_path d)) (fun bpffs_fd =>
    bf_opendir_at OPENDIR_FUEL bpffs_fd "bpfilter" true).

Definition _bf_cgen_get_chain_pindir_fd {T} (name : string) : st (T * K) Z :=
  with_dir bf_ctx_get_pindir_fd (fun bf_fd => bf_opendir_at OPENDIR_FUEL bf_fd name true).

(** The chain's pin directory, open until the end of the scope when the daemon
    is persistent. *)
Definition with_pindir {T A} (name : string) (m : Z -> st (T * K) A) : st (T * K) A :=
  if bf_opts_persist d then with_dir (_bf_cgen_get_chain_pindir_fd name) m else m (-1).

(** * Programs *)

(** Every descriptor that is still open is closed. *)
Definition bf_program_free (p : bf_program) (k : K) : K :=
  let k := snd (closep (prog_fd p) k) in
  let k := snd (closep (prog_cmap_fd p) k) in
  let k := snd (closep (prog_pmap_fd p) k) in
  let k := snd (closep (prog_lmap_fd p) k) in
  let k := snd (destroy_maps (prog_sets p) k) in
  snd (closep (link_fd (prog_link p)) k).

Definition new_program (chain : bf_chain) : res bf_program :=
  let! p := bf_program_new chain in
  let! g := bf_program_generate p in
  Ok (snd g).

(** A program for [chain]: created and generated, then loaded by [m], which
    runs while the pin directory is open; it is freed when [m] fails. *)
Definition build_program {T} (name : string) (chain : bf_chain) (m : Z -> st (bf_program * K) unit) :
    st (T * K) bf_program :=
  fun '(o, k) =>
    match new_program chain with
    | Err e => with_pindir name (fun _ => st_err e) (o, k)
    | Ok p =>
        match with_pindir name m (p, k) with
        | (Ok _, (p, k)) => (Ok p, (o, k))
        | (Err e, (p, k)) => (Err e, (o, bf_program_free p k))
        end
    end.

(** The namespaces of the client, and back to the daemon's: failing to come
    back aborts the daemon. *)
Definition leave_ns {T} (ns : bf_ns) : st (T * K) unit :=
  fun s => match bf_ns_set (ctx_ns d) (Some ns) s with
           | (Ok _, s) => (Ok tt, s)
           | (Err _, s) => (Err (- BF_CRASH), s)
           end.

Definition in_ns {T} (ns : bf_ns) (m : st (T * K) unit) : st (T * K) unit :=
  bf_ns_set ns (Some (ctx_ns d)) ;; m ;; leave_ns ns.

Definition on_program {A} (m : st (bf_program * K) A) : M A :=
  fun '(cg, k) =>
    match cgen_program cg with
    | None => (Err (- BF_CRASH), (cg, k))
    | Some p => let '(r, (p, k)) := m (p, k) in (r, (with_program (Some p) cg, k))
    end.

Definition pin_if_persist (pindir_fd : Z) : st (bf_program * K) unit :=
  if bf_opts_persist d then bf_program_pin pindir_fd else mret tt.

(** * Operations *)

Definition bf_cgen_set (ns : bf_ns) (hookopts : option bf_hookopts) : M unit :=
  cg ← obj_get;
  prog ← build_program (chain_name (cgen_chain cg)) (cgen_chain cg) (fun pindir_fd =>
    bf_program_load (ctx_token d) ;;
    match hookopts with
    | Some ho => in_ns ns (bf_program_attach ho)
    | None => mret tt
    end ;;
    pin_if_persist pindir_fd);
  obj_modify (with_program (Some prog)).

Definition bf_cgen_load : M unit :=
  cg ← obj_get;
  prog ← build_program (chain_name (cgen_chain cg)) (cgen_chain cg) (fun pindir_fd =>
    bf_program_load (ctx_token d) ;;
    pin_if_persist pindir_fd);
  obj_modify (with_program (Some prog)).

Definition bf_cgen_detach (s : bf_cgen * K) : bf_cgen * K :=
  snd (on_program (fun '(p, k) => (Ok tt, bf_program_detach p k)) s).

Definition bf_cgen_attach (ns : bf_ns) (hookopts : bf_hookopts) : M unit :=
  cg ← obj_get;
  with_pindir (chain_name (cgen_chain cg)) (fun pindir_fd =>
    in_ns ns (on_program (bf_program_attach hookopts)) ;;
    if bf_opts_persist d
    then st_onerr (on_program (p ← obj_get; bf_link_pin (prog_link p) pindir_fd)) bf_cgen_detach
    else mret tt).

(** [bf_swap(new_prog->link, old_prog->link)]: the first program is the new
    one. *)
Definition swap_links (ps : bf_program * bf_program) : bf_program * bf_program :=
  (with_link (fst ps) (prog_link (snd ps)), with_link (snd ps) (prog_link (fst ps))).

Definition on_new {A} : st (bf_program * K) A -> st ((bf_program * bf_program) * K) A :=
  on_part fst (fun p ps => (p, snd ps)).
Definition on_old {A} : st (bf_program * K) A -> st ((bf_program * bf_program) * K) A :=
  on_part snd (fun p ps => (fst ps, p)).

(** The new program is loaded, then put in the place of the old one by updating
    the link, which the new program takes over.  The old program is unpinned
    before and pinned again when the link could not be updated. *)
Definition update_programs (hook : bf_hook) (pindir_fd : Z) : st ((bf_program * bf_program) * K) unit :=
  on_new (bf_program_load (ctx_token d)) ;;
  (if bf_opts_persist d then on_old (fun '(p, k) => (Ok tt, (p, bf_program_unpin p pindir_fd k))) else mret tt) ;;
  ps ← obj_get;
  st_onerr (on_old (on_link (bf_link_update hook (prog_fd (fst ps)))))
    (fun s => if bf_opts_persist d then snd (on_old (bf_program_pin pindir_fd) s) else s) ;;
  obj_modify swap_links ;;
  if bf_opts_persist d then st_ignore (on_new (bf_program_pin pindir_fd)) else mret tt.

Definition bf_cgen_update (new_chain : bf_chain) : M unit :=
  fun '(cg, k) =>
    match cgen_program cg, new_program new_chain with
    | None, _ => (Err (- BF_CRASH), (cg, k))
    | Some _, Err e => with_pindir (chain_name new_chain) (fun _ => st_err e) (cg, k)
    | Some old_prog, Ok new_prog =>
        match with_pindir (chain_name new_chain) (update_programs (chain_hook (cgen_chain cg)))
                ((new_prog, old_prog), k) with
        | (Ok _, ((new_prog, old_prog), k)) =>
            (Ok tt, (mk_cgen (cgen_front cg) new_chain (Some new_prog), bf_program_free old_prog k))
        | (Err e, ((new_prog, old_prog), k)) =>
            (Err e, (with_program (Some old_prog) cg, bf_program_free new_prog k))
        end
    end.

(** Nothing is unloaded when the pin directory cannot be opened. *)
Definition bf_cgen_unload (s : bf_cgen * K) : bf_cgen * K :=
  snd (with_dir (_bf_cgen_get_chain_pindir_fd (chain_name (cgen_chain (fst s)))) (fun chain_fd =>
    on_program (fun '(p, k) =>
      let k := bf_program_unpin p chain_fd k in (Ok tt, bf_program_unload p k))) s).

(** The chain's pin directory is removed if it is empty. *)
Definition bf_cgen_free (cg : bf_cgen) (k : K) : K :=
  let free k := match cgen_program cg with Some p => bf_program_free p k | None => k end in
  if bf_opts_persist d then
    match bf_ctx_get_pindir_fd (tt, k) with
    | (Ok pin_fd, (_, k)) =>
        let '(_, (_, k)) := bf_rmdir_at pin_fd (chain_name (cgen_chain cg)) (tt, k) in
        snd (closep pin_fd (free k))
    | (Err _, (_, k)) => free k
    end
  else free k.

(** A cgen whose chain was refused by [bf_cgen_new] has no chain, and is freed
    by the caller: a persistent daemon reads the name of that chain.  The
    descriptors of a daemon that crashes are closed. *)
Definition free_refused {T A} (e : Z) : st (T * K) A :=
  if bf_opts_persist d then
    fun s => match bf_ctx_get_pindir_fd s with
             | (Ok pin_fd, (o, k)) => (Err (- BF_CRASH), (o, snd (closep pin_fd k)))
             | (Err _, s) => (Err e, s)
             end
  else st_err e.

(** * Counters *)

Context `{!CounterSys K}.

Definition read_counter (idx : Z) : st (bf_program * K) bf_counter :=
  fun '(p, k) => (Ok (sys_counter (prog_cmap_fd p) idx k), (p, k)).

Definition bf_cgen_get_counter (counter_idx : Z) : M bf_counter :=
  cg ← obj_get;
  let rule_count := Z.of_nat (length (chain_rules (cgen_chain cg))) in
  idx ← st_lift (if counter_idx =? BF_COUNTER_POLICY then Ok rule_count
                 else if counter_idx =? BF_COUNTER_ERRORS then Ok (rule_count + 1)
                 else if (counter_idx <? 0) || (rule_count <=? counter_idx) then Err (- EINVAL)
                 else Ok counter_idx);
  on_program (bf_program_get_counter idx ;; read_counter idx).

(** The counters of the rules, then the policy's and the errors'. *)
Fixpoint get_counters (idxs : list Z) : M (list bf_counter) :=
  match idxs with
  | [] => mret []
  | idx :: idxs => c ← bf_cgen_get_counter idx; cs ← get_counters idxs; mret (c :: cs)
  end.

Definition counter_indices (n_rules : nat) : list Z :=
  (Z.of_nat <$> seq 0 n_rules) ++ [BF_COUNTER_POLICY; BF_COUNTER_ERRORS].

Definition bf_cgen_get_counters : M (list bf_counter) :=
  cg ← obj_get; get_counters (counter_indices (length (chain_rules (cgen_chain cg)))).
End Cgen.
