(* ===== verification/Frame.v ===== *)
(** What generation leaves alone: the chain, the flavor, the maps, the link and
    the descriptors of the program. *)

From S2P Require Import Prelude Bytes Bpf Helper Hook Matcher BfSet Sys Map Rule Chain Printer.
From S2P Require Import Program Block BlockExec Fixups Context Symbolic Match Stubs KernelSpec GenIp4.
From S2P Require Import GenIp6 GenL4 Swich Flavors GenMeta Stub GenSet Prologue Generate.

Definition frame (p : bf_program) :=
  (prog_chain p, prog_flavor p, prog_cmap p, prog_pmap p, prog_lmap p, prog_sets p, prog_link p, prog_fd p).

Definition keeps {A} (g : gen A) : Prop := forall p a q, g p = Ok (a, q) -> frame q = frame p.

Lemma keeps_ret {A} (a : A) : keeps (mret a).
Proof. by intros p b q [= _ <-]. Qed.

Lemma keeps_bind {A B} (m : gen A) (k : A -> gen B) : keeps m -> (forall a, keeps (k a)) -> keeps (m ≫= k).
Proof.
  intros Hm Hk p b q E. apply gen_bind_ok in E as (a & p' & E1 & E2).
  by rewrite (Hk a _ _ _ E2), (Hm _ _ _ E1).
Qed.

Lemma keeps_err {A} e : keeps (gen_err (A := A) e).
Proof. by intros p a q. Qed.

Lemma keeps_get : keeps gen_get.
Proof. by intros p a q [= _ <-]. Qed.

Lemma keeps_lift {A} (r : res A) : keeps (gen_lift r).
Proof. intros p a q. unfold gen_lift. destruct r; [by intros [= _ <-]|done]. Qed.

Lemma frame_emit p i : frame (bf_program_emit p i) = frame p.
Proof. unfold bf_program_emit. by rewrite ensure_cap_eq. Qed.

Lemma frame_emit_fixup p t i a : frame (bf_program_emit_fixup p t i a) = frame p.
Proof. unfold bf_program_emit_fixup. rewrite frame_emit. by rewrite ensure_cap_eq. Qed.

Lemma frame_emit_fixup_elfstub p id : frame (bf_program_emit_fixup_elfstub p id) = frame p.
Proof. unfold bf_program_emit_fixup_elfstub. rewrite frame_emit. by rewrite ensure_cap_eq. Qed.

Lemma keeps_EMIT i : keeps (EMIT i).
Proof. intros p a q [= _ <-]. apply frame_emit. Qed.

Lemma keeps_EMIT_FIXUP t i : keeps (EMIT_FIXUP t i).
Proof. intros p a q [= _ <-]. apply frame_emit_fixup. Qed.

Lemma keeps_EMIT_FIXUP_ELFSTUB id : keeps (EMIT_FIXUP_ELFSTUB id).
Proof. intros p a q [= _ <-]. apply frame_emit_fixup_elfstub. Qed.

Lemma keeps_emit_load_fd t reg at_ : keeps (emit_load_fd t reg at_).
Proof. intros p a q [= _ <-]. by rewrite frame_emit, frame_emit_fixup. Qed.

Lemma keeps_EMIT_PRINT msg : keeps (EMIT_PRINT msg).
Proof.
  intros p a q. unfold EMIT_PRINT. destruct (bf_printer_add_msg _ _) as [m pr]. intros [= _ <-].
  by rewrite !frame_emit, frame_emit_fixup.
Qed.

Lemma keeps_jmpctx_get i : keeps (bf_jmpctx_get i).
Proof. intros p a q [= _ <-]. apply frame_emit. Qed.

Lemma keeps_jmpctx_cleanup k : keeps (bf_jmpctx_cleanup k).
Proof. by intros p a q [= _ <-]. Qed.

Lemma keeps_fixup t : keeps (gen_fixup t).
Proof.
  intros p a q. unfold gen_fixup. destruct (_bf_program_fixup p t) eqn:E; cbn; [|done]. intros [= _ <-].
  apply fixup_env in E as (_ & E1 & E2 & E3 & E4 & E5 & E6 & _ & _ & E7 & E8).
  unfold frame. by rewrite E1, E2, E3, E4, E5, E6, E7, E8.
Qed.

Create HintDb keeps discriminated.
#[export] Hint Resolve keeps_ret keeps_err keeps_get keeps_lift keeps_EMIT keeps_EMIT_FIXUP
  keeps_EMIT_FIXUP_ELFSTUB keeps_emit_load_fd keeps_EMIT_PRINT keeps_jmpctx_get keeps_jmpctx_cleanup
  keeps_fixup : keeps.

(** Take a generator apart, unfolding its name when it is none of the above. *)
Ltac head t := lazymatch t with ?f _ => head f | _ => t end.
Ltac keeps_tac :=
  intros; cbn zeta beta;
  lazymatch goal with
  | |- keeps (mbind _ _) => apply keeps_bind; keeps_tac
  | |- keeps (if _ then _ else _) => case_match; keeps_tac
  | |- keeps (match _ with _ => _ end) => case_match; keeps_tac
  | |- keeps ?g => first [ solve [eauto 3 with keeps] | let h := head g in unfold h; keeps_tac ]
  end.

Lemma keeps_emit_all l : keeps (emit_all l).
Proof. induction l; cbn [emit_all]; [auto with keeps|]. apply keeps_bind; [auto with keeps|done]. Qed.
#[export] Hint Resolve keeps_emit_all : keeps.

Lemma keeps_swich_cmps reg opts : keeps (swich_gen_cmps reg opts).
Proof. induction opts; cbn [swich_gen_cmps]; keeps_tac. Qed.

Lemma keeps_swich_bodies opts js : keeps (swich_gen_bodies opts js).
Proof. revert js. induction opts; intros js; cbn [swich_gen_bodies]; keeps_tac. Qed.

Lemma keeps_swich_cleanup js : keeps (swich_cleanup_all js).
Proof. induction js; cbn [swich_cleanup_all]; keeps_tac. Qed.
#[export] Hint Resolve keeps_swich_cmps keeps_swich_bodies keeps_swich_cleanup : keeps.

Lemma keeps_swich sw : keeps (bf_swich_generate sw).
Proof. keeps_tac. Qed.
#[export] Hint Resolve keeps_swich : keeps.

Section Generators.
Context `{CgenEnv}.

Lemma keeps_verdict v : keeps (gen_verdict v).
Proof. keeps_tac. Qed.
Hint Resolve keeps_verdict : keeps.

Lemma keeps_quit msg : keeps (gen_quit msg).
Proof. keeps_tac. Qed.
Hint Resolve keeps_quit : keeps.

Lemma keeps_dynptr reg k : keeps (_bf_stub_make_ctx_dynptr reg k).
Proof. keeps_tac. Qed.
Hint Resolve keeps_dynptr : keeps.

Lemma keeps_l2 : keeps bf_stub_parse_l2_ethhdr.
Proof. keeps_tac. Qed.

Lemma keeps_l3 : keeps bf_stub_parse_l3_hdr.
Proof. keeps_tac. Qed.

Lemma keeps_l4 : keeps bf_stub_parse_l4_hdr.
Proof. keeps_tac. Qed.
Hint Resolve keeps_l2 keeps_l3 keeps_l4 : keeps.

Lemma keeps_prologue fl : keeps (gen_inline_prologue fl).
Proof. destruct fl; keeps_tac. Qed.

Lemma keeps_epilogue fl : keeps (gen_inline_epilogue fl).
Proof. destruct fl; keeps_tac. Qed.

Lemma keeps_get_mark fl g r : gen_inline_get_mark fl = Some g -> keeps (g r).
Proof. destruct fl; cbn; intros [= <-]; keeps_tac. Qed.

Lemma keeps_set_mark fl g m : gen_inline_set_mark fl = Some g -> keeps (g m).
Proof. destruct fl; cbn; intros [= <-]; keeps_tac. Qed.
Hint Resolve keeps_prologue keeps_epilogue keeps_get_mark keeps_set_mark : keeps.

Lemma keeps_ip4 m : keeps (bf_matcher_generate_ip4 m).
Proof. keeps_tac. Qed.

Lemma keeps_ip6 m : keeps (bf_matcher_generate_ip6 m).
Proof. keeps_tac. Qed.

Lemma keeps_meta m : keeps (bf_matcher_generate_meta m).
Proof. keeps_tac. Qed.

Lemma keeps_tcp m : keeps (bf_matcher_generate_tcp m).
Proof. keeps_tac. Qed.

Lemma keeps_udp m : keeps (bf_matcher_generate_udp m).
Proof. keeps_tac. Qed.

Lemma keeps_icmp m : keeps (bf_matcher_generate_icmp m).
Proof. keeps_tac. Qed.

Lemma keeps_stx_loop meta off fuel rem so d : keeps (stx_payload_loop meta off fuel rem so d).
Proof.
  revert rem so d. induction fuel as [|fuel IH]; intros rem so d; cbn [stx_payload_loop]; keeps_tac.
Qed.
Hint Resolve keeps_stx_loop : keeps.

Lemma keeps_check_protocols ts : keeps (set_check_protocols ts).
Proof. induction ts; cbn [set_check_protocols]; keeps_tac. Qed.

Lemma keeps_build_key ts off : keeps (set_build_key ts off).
Proof. revert off. induction ts; intros off; cbn [set_build_key]; keeps_tac. Qed.
Hint Resolve keeps_check_protocols keeps_build_key : keeps.

Lemma keeps_set m : keeps (bf_matcher_generate_set m).
Proof. keeps_tac. Qed.
Hint Resolve keeps_ip4 keeps_ip6 keeps_meta keeps_tcp keeps_udp keeps_icmp keeps_set : keeps.

Lemma keeps_matchers ms : keeps (generate_matchers ms).
Proof. induction ms; cbn [generate_matchers]; keeps_tac. Qed.
Hint Resolve keeps_matchers : keeps.

Lemma keeps_rule r : keeps (_bf_program_generate_rule r).
Proof. keeps_tac. Qed.
Hint Resolve keeps_rule : keeps.

Lemma keeps_rules rs : keeps (generate_rules rs).
Proof. induction rs; cbn [generate_rules]; keeps_tac. Qed.

Lemma keeps_elfstub_str start s : keeps (elfstub_str start s).
Proof.
  intros p a q. unfold elfstub_str. destruct (bf_printer_add_msg _ _) as [m pr].
  cbn beta iota zeta delta [BPF_PSEUDO_MAP_VALUE_LOAD BPF_LD_MAP_FD]. repeat case_match; try done.
  all: by intros [= _ <-].
Qed.
Hint Resolve keeps_elfstub_str : keeps.

Lemma keeps_elfstub_strs start l : keeps (elfstub_strs start l).
Proof. induction l; cbn [elfstub_strs]; keeps_tac. Qed.
Hint Resolve keeps_elfstub_strs : keeps.

Lemma keeps_set_stub id off : keeps (gen_set_stub id off).
Proof. by intros p a q [= _ <-]. Qed.
Hint Resolve keeps_set_stub : keeps.

Lemma keeps_elfstubs l : keeps (generate_elfstubs l).
Proof. induction l; cbn [generate_elfstubs]; keeps_tac. Qed.
Hint Resolve keeps_rules keeps_elfstubs : keeps.

(** Generation writes the image, the fixups, the printer and the locations of
    the stubs, and nothing else. *)
Lemma keeps_generate : keeps bf_program_generate.
Proof. keeps_tac. Qed.
End Generators.
