(* ===== verification/Account.v ===== *)
(** Accounting of file descriptors.

    An object owns descriptors.  [spec] says what an operation on it does when
    the open descriptors are those of the object and those of a set [G]: on
    success and on error, the open descriptors are those the object owns then,
    those of [G], and [n] more at most. *)

From S2P Require Import Prelude Bytes Bpf Helper Hook Hookopts Matcher BfSet Sys Io Map Rule.
From S2P Require Import Chain Printer Program Block BlockExec Fixups Load Fds.

(** * Sets *)

(** The open descriptors are those of [G] and of [l], each listed once. *)
Definition owns (G : gset Z) (l : list Z) (X : gset Z) : Prop :=
  X = G ∪ list_to_set l /\ NoDup l /\ G ## list_to_set l.

(** At most [n] more. *)
Definition leaks (n : nat) (G G' : gset Z) : Prop := G ⊆ G' /\ (base.size (G' ∖ G) <= n)%nat.

#[export] Instance owns_proper G : Proper (Permutation ==> eq ==> iff) (owns G).
Proof. intros l l' E X X' <-. unfold owns. by rewrite E. Qed.

Lemma leaks_refl n G : leaks n G G.
Proof. split; [done|]. rewrite difference_diag_L, size_empty. lia. Qed.

Lemma leaks_weaken n m G G' : (n <= m)%nat -> leaks n G G' -> leaks m G G'.
Proof. intros Hn [Hs Hl]. split; [done|lia]. Qed.

Lemma leaks_0 G G' : leaks 0 G G' -> G' = G.
Proof.
  intros [Hs Hl]. assert (G' ∖ G ≡ ∅) as He by (apply size_empty_inv; lia).
  apply set_eq. intros x. destruct (decide (x ∈ G)); set_solver.
Qed.

Lemma leaks_trans n m G G' G'' : leaks n G G' -> leaks m G' G'' -> leaks (n + m) G G''.
Proof.
  intros [H1 L1] [H2 L2]. split; [set_solver|].
  assert (G'' ∖ G ⊆ (G' ∖ G) ∪ (G'' ∖ G')) as Hs.
  { intros x Hx. destruct (decide (x ∈ G')); set_solver. }
  apply subseteq_size in Hs. pose proof (size_union_alt (G' ∖ G) (G'' ∖ G')) as Hu.
  pose proof (subseteq_size ((G'' ∖ G') ∖ (G' ∖ G)) (G'' ∖ G') ltac:(set_solver)). lia.
Qed.

Lemma owns_nil G X : owns G [] X <-> X = G.
Proof.
  unfold owns. split; [intros (-> & _ & _); set_solver|intros ->]. split_and!; [set_solver|constructor|set_solver].
Qed.

(** A part of what is owned, seen from the rest. *)
Lemma owns_part G l r X : owns G (l ++ r) X -> owns (G ∪ list_to_set r) l X.
Proof.
  intros (-> & Hn & Hd). rewrite list_to_set_app_L in *. apply NoDup_app in Hn as (Hl & Hlr & Hr).
  split_and!; [set_solver|done|set_solver].
Qed.

Lemma owns_rest G l r X : owns G (l ++ r) X -> NoDup r /\ G ## list_to_set r.
Proof.
  intros (-> & Hn & Hd). rewrite list_to_set_app_L in *. apply NoDup_app in Hn as (Hl & Hlr & Hr).
  split; [done|set_solver].
Qed.

Lemma owns_back n G G1 l r X : NoDup r -> G ## list_to_set r ->
  leaks n (G ∪ list_to_set r) G1 -> owns G1 l X ->
  leaks n G (G1 ∖ list_to_set r) /\ owns (G1 ∖ list_to_set r) (l ++ r) X.
Proof.
  intros Hr Hd [Hs Hl] (-> & Hn & Hd1). split.
  - split; [set_solver|]. replace (G1 ∖ list_to_set r ∖ G) with (G1 ∖ (G ∪ list_to_set r)) by set_solver. done.
  - unfold owns. rewrite list_to_set_app_L. split_and!.
    + apply set_eq. intros x. destruct (decide (x ∈ (list_to_set r : gset Z))); set_solver.
    + apply NoDup_app. split_and!; [done| |done]. intros x Hx Hxr. set_solver.
    + set_solver.
Qed.

Lemma owns_join G l r X : NoDup r -> G ## list_to_set r -> owns (G ∪ list_to_set r) l X -> owns G (l ++ r) X.
Proof.
  intros Hr Hd HX. destruct (owns_back 0 G _ l r X Hr Hd (leaks_refl 0 _) HX) as [_ HX'].
  replace ((G ∪ list_to_set r) ∖ list_to_set r) with G in HX' by set_solver. exact HX'.
Qed.

Lemma owns_drop G l r X : owns G (l ++ r) X -> owns G r (X ∖ list_to_set l).
Proof.
  intros (-> & Hn & Hd). rewrite list_to_set_app_L in *. apply NoDup_app in Hn as (Hp & Hpl & Hl).
  split_and!; [set_solver|done|set_solver].
Qed.

Lemma owns_insert G l X fd : owns G l X -> fd ∉ X -> owns ({[fd]} ∪ G) l ({[fd]} ∪ X).
Proof. intros (-> & Hn & Hd) Hfd. split_and!; [set_solver|done|set_solver]. Qed.

(** * Objects *)

Class Owner (O : Type) : Type := own_fds : O -> list Z.

#[export] Instance owner_program : Owner bf_program := owned.

Section Spec.
Context {K : Type} `{FdSys K} {O : Type} `{Owner O}.

(** [R] holds of the object. *)
Definition acct (R : O -> Prop) (G : gset Z) (n : nat) : O -> gset Z -> Prop :=
  fun o X => R o /\ exists G', leaks n G G' /\ owns G' (own_fds o) X.

(** [E] may depend on the error. *)
Definition specE {A} (P : O -> Prop) (Q : A -> O -> Prop) (E : Z -> O -> Prop) (n : nat) (m : st (O * K) A) : Prop :=
  forall G s r s', on_fds (fun o X => P o /\ owns G (own_fds o) X) s -> m s = (r, s') ->
    match r with Ok a => on_fds (acct (Q a) G n) s' | Err e => on_fds (acct (E e) G n) s' end.

Definition spec {A} (P : O -> Prop) (Q : A -> O -> Prop) (E : O -> Prop) (n : nat) (m : st (O * K) A) : Prop :=
  specE P Q (fun _ => E) n m.

(** The same for a step that does not fail. *)
Definition step (P Q : O -> Prop) (h : O * K -> O * K) : Prop :=
  forall G o k, P o -> owns G (own_fds o) (fd_open k) ->
    let '(o', k') := h (o, k) in Q o' /\ owns G (own_fds o') (fd_open k').

Lemma acct_weaken R R' G n m o X : (n <= m)%nat -> (R o -> R' o) -> acct R G n o X -> acct R' G m o X.
Proof. intros Hn HR [Ho (G' & Hl & HX)]. split; [auto|]. exists G'. split; [by eapply leaks_weaken|done]. Qed.

Lemma step_conseq (P P' Q Q' : O -> Prop) h :
  step P' Q' h -> (forall o, P o -> P' o) -> (forall o, Q' o -> Q o) -> step P Q h.
Proof.
  intros Hh HP HQ G o k Hp HX. specialize (Hh G o k (HP o Hp) HX). destruct (h (o, k)) as [o' k'].
  destruct Hh. auto.
Qed.

(** Case analysis on the state before. *)
Lemma specE_ex {A X} (P : X -> O -> Prop) (Q : A -> O -> Prop) (E : Z -> O -> Prop) n m :
  (forall x, specE (P x) Q E n m) -> specE (fun o => exists x, P x o) Q E n m.
Proof. intros Hm G [o k] r s' [[x HP] HX]. exact (Hm x G (o, k) r s' (conj HP HX)). Qed.

Lemma specE_pure {A} (F : Prop) (P : O -> Prop) (Q : A -> O -> Prop) (E : Z -> O -> Prop) n m :
  (F -> specE P Q E n m) -> specE (fun o => F /\ P o) Q E n m.
Proof. intros Hm G [o k] r s' [[HF HP] HX]. exact (Hm HF G (o, k) r s' (conj HP HX)). Qed.

Lemma specE_conseq {A} (P P' : O -> Prop) (Q Q' : A -> O -> Prop) (E E' : Z -> O -> Prop) n n' m :
  specE P' Q' E' n' m -> (forall o, P o -> P' o) -> (forall a o, Q' a o -> Q a o) -> (forall e o, E' e o -> E e o) ->
  (n' <= n)%nat -> specE P Q E n m.
Proof.
  intros Hm HP HQ HE Hn G [o k] r [o' k'] [Hp HX] Er.
  specialize (Hm G (o, k) r (o', k') (conj (HP _ Hp) HX) Er). destruct r as [a|e]; (eapply acct_weaken, Hm; [done|auto]).
Qed.

Lemma spec_conseq {A} (P P' : O -> Prop) (Q Q' : A -> O -> Prop) (E E' : O -> Prop) n n' m :
  spec P' Q' E' n' m -> (forall o, P o -> P' o) -> (forall a o, Q' a o -> Q a o) -> (forall o, E' o -> E o) ->
  (n' <= n)%nat -> spec P Q E n m.
Proof. intros Hm HP HQ HE Hn. eapply specE_conseq; [exact Hm|done..| |done]. by intros e0. Qed.

Lemma specE_ret {A} (a : A) (P : O -> Prop) (E : Z -> O -> Prop) : specE P (fun b o => b = a /\ P o) E 0 (mret a).
Proof. intros G [o k] r s' [HP HX] [= <- <-]. split; [done|]. exists G. split; [apply leaks_refl|done]. Qed.

Lemma spec_ret {A} (a : A) (P E : O -> Prop) : spec P (fun b o => b = a /\ P o) E 0 (mret a).
Proof. apply specE_ret. Qed.

Lemma specE_err {A} e (P : O -> Prop) (Q : A -> O -> Prop) : specE P Q (fun e' o => e' = e /\ P o) 0 (st_err e).
Proof. intros G [o k] r s' [HP HX] [= <- <-]. split; [done|]. exists G. split; [apply leaks_refl|done]. Qed.

Lemma spec_err {A} e (P : O -> Prop) (Q : A -> O -> Prop) : spec P Q P 0 (st_err e).
Proof. eapply specE_conseq; [apply specE_err|done..|by intros ? ? [_ ?]|done]. Qed.

Lemma specE_lift {A} (x : res A) (P : O -> Prop) :
  specE P (fun a o => x = Ok a /\ P o) (fun e o => x = Err e /\ P o) 0 (st_lift x).
Proof.
  intros G [o k] r s' [HP HX] [= <- <-]. destruct x; (split; [done|]); exists G; (split; [apply leaks_refl|done]).
Qed.

(** The rest runs on the value of a result, when it has one. *)
Lemma specE_lift_bind {A B} (x : res A) (k : A -> st (O * K) B) P Q (E : Z -> O -> Prop) n :
  match x with Ok a => specE P Q E n (k a) | Err e => forall o, P o -> E e o end -> specE P Q E n (st_lift x ≫= k).
Proof.
  intros Hk G [o w] r s' [HP HX]. unfold mbind, st_bind, st_lift. destruct x as [a|e].
  - intros E1. exact (Hk G (o, w) r s' (conj HP HX) E1).
  - intros [= <- <-]. split; [auto|]. exists G. split; [apply leaks_refl|done].
Qed.

Lemma specE_bind {A B} (m : st (O * K) A) (k : A -> st (O * K) B) P Q R E n n' :
  specE P Q E n m -> (forall a, specE (Q a) R E n' (k a)) -> specE P R E (n + n') (m ≫= k).
Proof.
  intros Hm Hk G [o w] r s' Hp. unfold mbind, st_bind. specialize (Hm G (o, w)).
  destruct (m (o, w)) as [[a|e] [o1 w1]]; specialize (Hm _ _ Hp eq_refl); cbn in Hm.
  - destruct Hm as [HQ (G1 & Hl & HX)]. intros Er. specialize (Hk a G1 (o1, w1) r s' (conj HQ HX) Er).
    destruct r as [b|e], s' as [o2 w2]; cbn in Hk |- *; destruct Hk as [HR (G2 & Hl2 & HX2)]; (split; [done|]);
      exists G2; (split; [by eapply leaks_trans|done]).
  - intros [= <- <-]. cbn. eapply acct_weaken, Hm; [lia|done].
Qed.

(** The counts of a sequence are added up. *)
Lemma specE_seq {A B} (m : st (O * K) A) (k : A -> st (O * K) B) P Q R E n n' s :
  specE P Q E n m -> (forall a, specE (Q a) R E n' (k a)) -> (n + n' <= s)%nat -> specE P R E s (m ≫= k).
Proof.
  intros Hm Hk Hs. eapply (specE_conseq P P R R E E s); [exact (specE_bind m k P Q R E n n' Hm Hk)|done..].
Qed.

Lemma spec_seq {A B} (m : st (O * K) A) (k : A -> st (O * K) B) P Q R E n n' s :
  spec P Q E n m -> (forall a, spec (Q a) R E n' (k a)) -> (n + n' <= s)%nat -> spec P R E s (m ≫= k).
Proof. apply specE_seq. Qed.

Lemma specE_get (P : O -> Prop) (E : Z -> O -> Prop) : specE P (fun a o => a = o /\ P o) E 0 (obj_get (K := K)).
Proof. intros G [o k] r s' [HP HX] [= <- <-]. split; [done|]. exists G. split; [apply leaks_refl|done]. Qed.

Lemma spec_get (P E : O -> Prop) : spec P (fun a o => a = o /\ P o) E 0 (obj_get (K := K)).
Proof. apply specE_get. Qed.

Lemma spec_modify (f : O -> O) (P Q E : O -> Prop) : (forall o, P o -> Q (f o) /\ own_fds (f o) ≡ₚ own_fds o) ->
  spec P (fun _ => Q) E 0 (obj_modify (K := K) f).
Proof.
  intros Hf G [o k] r s' [HP HX] [= <- <-]. destruct (Hf o HP) as [HQ Ho]. split; [done|].
  exists G. split; [apply leaks_refl|]. by rewrite Ho.
Qed.

Lemma specE_onerr {A} (m : st (O * K) A) h P Q (E' E : Z -> O -> Prop) n :
  specE P Q E' n m -> (forall e, step (E' e) (E e) h) -> specE P Q E n (st_onerr m h).
Proof.
  intros Hm Hh G s r s' Hp. unfold st_onerr. destruct (m s) as [[a|e] [o k]] eqn:Em; intros [= <- <-].
  - exact (Hm G s _ _ Hp Em).
  - destruct (Hm G s _ _ Hp Em) as [HE (G' & Hl & HX)].
    specialize (Hh e G' o k HE HX). destruct (h (o, k)) as [o' k']. destruct Hh as [HE' HX'].
    split; [done|]. by exists G'.
Qed.

Lemma spec_onerr {A} (m : st (O * K) A) h P Q E' E n : spec P Q E' n m -> step E' E h -> spec P Q E n (st_onerr m h).
Proof. intros Hm Hh. eapply specE_onerr; [exact Hm|done]. Qed.

Lemma spec_ignore {A} (m : st (O * K) A) (P Q E E' : O -> Prop) n :
  spec P (fun _ => Q) E n m -> (forall o, E o -> Q o) -> spec P (fun _ => Q) E' n (st_ignore m).
Proof.
  intros Hm HE G [o k] r s' Hp. unfold st_ignore. specialize (Hm G (o, k)).
  destruct (m (o, k)) as [x s1]. specialize (Hm x s1 Hp eq_refl). intros [= <- <-].
  destruct x as [a|e], s1 as [o1 k1]; cbn in *; [done|]. eapply acct_weaken, Hm; [lia|auto].
Qed.

Lemma spec_step (h : O * K -> O * K) P Q E : step P Q h -> spec P (fun _ => Q) E 0 (fun s => (Ok tt, h s)).
Proof.
  intros Hh G [o k] r s' [HP HX] [= <- <-]. specialize (Hh G o k HP HX). destruct (h (o, k)) as [o' k'].
  destruct Hh as [HQ HX']. split; [done|]. exists G. split; [apply leaks_refl|done].
Qed.

(** A descriptor that is closed when the scope ends. *)
Lemma specE_scope {A} (dir : st (O * K) Z) (m : Z -> st (O * K) A) P Q (E : Z -> O -> Prop) n : fresh_fd dir ->
  (forall fd, specE P Q E n (m fd)) -> (forall e o, P o -> E e o) -> specE P Q E n (with_dir dir m).
Proof.
  intros Hdir Hm HE G [o k] r s' Hp. unfold with_dir.
  pose proof (Hdir (fun o X => P o /\ owns G (own_fds o) X) (o, k)) as Hd.
  destruct (dir (o, k)) as [[fd|e] [o1 k1]]; specialize (Hd _ _ Hp eq_refl); cbn in Hd.
  - destruct Hd as (Y & [HP HY] & Hfd & Hn & HX). pose proof (owns_insert _ _ _ _ HY Hn) as HI. rewrite <- HX in HI.
    assert (fd ∉ G) as HG by (destruct HY as (-> & _ & _); set_solver).
    specialize (Hm fd ({[fd]} ∪ G) (o1, k1)). destruct (m fd (o1, k1)) as [x [o2 k2]].
    specialize (Hm _ _ (conj HP HI) eq_refl). intros [= <- <-].
    assert (forall R : O -> Prop, acct R ({[fd]} ∪ G) n o2 (fd_open k2) ->
      acct R G n o2 (fd_open (snd (closep fd k2)))) as Hc.
    { intros R [HR (G' & [Hs Hl] & (HX' & Hn' & Hd'))]. split; [done|]. exists (G' ∖ {[fd]}).
      rewrite closep_open, (own_some fd Hfd). cbn [list_to_set].
      split; [split; [set_solver|]|split_and!; [|done|set_solver]].
      - replace (G' ∖ {[fd]} ∖ G) with (G' ∖ ({[fd]} ∪ G)) by set_solver. done.
      - rewrite HX'. set_solver. }
    destruct x as [a|e]; by apply Hc.
  - intros [= <- <-]. destruct Hd as [HP HX]. split; [auto|]. exists G. split; [apply leaks_refl|done].
Qed.

Lemma spec_scope {A} (dir : st (O * K) Z) (m : Z -> st (O * K) A) P Q E n : fresh_fd dir ->
  (forall fd, spec P Q E n (m fd)) -> (forall o, P o -> E o) -> spec P Q E n (with_dir dir m).
Proof. intros Hd Hm HE. by apply specE_scope. Qed.
End Spec.

(** * Parts *)

Section Frame.
Context {K : Type} `{FdSys K} {O : Type} `{Owner O}.

(** A step leaves the descriptors of others alone. *)
Lemma step_frame (P Q : O -> Prop) (h : O * K -> O * K) G o k r : step P Q h -> P o ->
  owns G (own_fds o ++ r) (fd_open k) ->
  let '(o', k') := h (o, k) in Q o' /\ owns G (own_fds o' ++ r) (fd_open k').
Proof.
  intros Hh HP HX. destruct (owns_rest _ _ _ _ HX) as [Hr Hd].
  specialize (Hh (G ∪ list_to_set r) o k HP (owns_part _ _ _ _ HX)). destruct (h (o, k)) as [o' k'].
  destruct Hh as [HQ HX']. split; [done|]. by apply owns_join.
Qed.

Lemma spec_frame {A} (m : st (O * K) A) P Q E n G o k rest r o' k' : specE P Q E n m -> P o ->
  owns G (own_fds o ++ rest) (fd_open k) -> m (o, k) = (r, (o', k')) ->
  match r with Ok a => Q a o' | Err e => E e o' end /\
  exists G', leaks n G G' /\ owns G' (own_fds o' ++ rest) (fd_open k').
Proof.
  intros Hm HP HX Er. destruct (owns_rest _ _ _ _ HX) as [Hr Hd].
  specialize (Hm (G ∪ list_to_set rest) (o, k) r (o', k') (conj HP (owns_part _ _ _ _ HX)) Er).
  destruct r; cbn in Hm; destruct Hm as [HR (G1 & Hl & HX1)]; (split; [done|]);
    destruct (owns_back _ _ _ _ _ _ Hr Hd Hl HX1); eauto.
Qed.
End Frame.

Section Part.
Context {K : Type} `{FdSys K} {O O' : Type} `{Owner O} `{Owner O'}.

(** An operation on a part of an object, the rest of which it leaves alone. *)
Lemma spec_part {A} (get : O -> O') (put : O' -> O -> O) (rest : O -> list Z) (m : st (O' * K) A)
    (P E : O -> Prop) (Q : A -> O -> Prop) (P' : O -> O' -> Prop) (Q' : O -> A -> O' -> Prop) (E' : O -> O' -> Prop) n :
  (forall o, P o -> spec (P' o) (Q' o) (E' o) n m) ->
  (forall o, P o -> P' o (get o) /\ own_fds o ≡ₚ own_fds (get o) ++ rest o) ->
  (forall o x, P o -> own_fds (put x o) ≡ₚ own_fds x ++ rest o) ->
  (forall o x a, P o -> Q' o a x -> Q a (put x o)) -> (forall o x, P o -> E' o x -> E (put x o)) ->
  spec P Q E n (on_part get put m).
Proof.
  intros Hm Hget Hput HQ HE G [o k] r s' [HP HX]. unfold on_part.
  destruct (Hget o HP) as [HP' Ho]. rewrite Ho in HX.
  destruct (owns_rest _ _ _ _ HX) as [Hr Hd]. specialize (Hm o HP (G ∪ list_to_set (rest o)) (get o, k)).
  destruct (m (get o, k)) as [x [p k1]]. specialize (Hm x (p, k1) (conj HP' (owns_part _ _ _ _ HX)) eq_refl).
  intros [= <- <-]. destruct x as [a|e]; cbn in *; destruct Hm as [HR (G1 & Hl & HX1)];
    (split; [by eauto|]); destruct (owns_back _ _ _ _ _ _ Hr Hd Hl HX1) as [Hl' HX'];
    exists (G1 ∖ list_to_set (rest o)); (split; [done|]); by rewrite Hput.
Qed.
End Part.
