(* ===== verification/CgenSpec.v ===== *)
(** What the operations of a code generation context do to descriptors, and
    the state they leave it in.

    A context that is ready has a program, which is the program of its chain
    and whose link has a descriptor only if it is attached. *)

From S2P Require Import Prelude Bytes Bpf Helper Hook Hookopts Matcher BfSet Sys Io Map Rule.
From S2P Require Import Chain Printer Pack Serial Program Block BlockExec Fixups Flavors.
From S2P Require Import Load Fds Generate Frame Account Cgen.

#[export] Instance owner_unit : Owner unit := fun _ => [].
#[export] Instance owner_link : Owner bf_link := fun l => own (link_fd l).
#[export] Instance owner_cgen : Owner bf_cgen :=
  fun cg => match cgen_program cg with Some p => owned p | None => [] end.
#[export] Instance owner_programs : Owner (bf_program * bf_program) := fun ps => owned (fst ps) ++ owned (snd ps).

(** A program of the chain [c], attached with the options [h]. *)
Definition prog_at (c : bf_chain) (h : option bf_hookopts) (p : bf_program) : Prop :=
  prog_chain p = c /\ link_hookopts (prog_link p) = h /\ (h = None -> link_fd (prog_link p) = -1).

(** Before it is loaded. *)
Definition prog_made (c : bf_chain) (p : bf_program) : Prop :=
  unloaded p /\ prog_chain p = c /\ link_hookopts (prog_link p) = None.

(** The options of a link that has been updated. *)
Definition relinked (hook : bf_hook) (ho : bf_hookopts) : bf_hookopts :=
  match bf_hook_to_flavor hook with
  | Some BF_FLAVOR_NF => with_priorities (ho_priority1 ho) (ho_priority0 ho) ho
  | _ => ho
  end.

(** A link attached with the options [ho]. *)
Definition linked (ho : bf_hookopts) (l : bf_link) : Prop := link_hookopts l = Some ho.

Section Programs.
Context {K : Type} `{FdSys K}.

(** * Operations that leave the object and the descriptors alone *)

Definition quiet {O A} (m : st (O * K) A) : Prop :=
  forall o k, fst (snd (m (o, k))) = o /\ fd_open (snd (snd (m (o, k)))) = fd_open k.

Lemma quiet_ret {O A} (a : A) : quiet (O := O) (mret a).
Proof. done. Qed.

Lemma quiet_err {O A} e : quiet (O := O) (A := A) (st_err e).
Proof. done. Qed.

Lemma quiet_get {O} : quiet (O := O) obj_get.
Proof. done. Qed.

Lemma quiet_bind {O A B} (m : st (O * K) A) (k : A -> st (O * K) B) :
  quiet m -> (forall a, quiet (k a)) -> quiet (m ≫= k).
Proof.
  intros Hm Hk o w. unfold mbind, st_bind. specialize (Hm o w). destruct (m (o, w)) as [[a|e] [o1 w1]]; cbn in Hm |- *.
  - destruct Hm as [-> Hm]. specialize (Hk a o w1). destruct (k a (o, w1)) as [r [o2 w2]]. cbn in *.
    destruct Hk as [-> Hk]. by rewrite Hk.
  - done.
Qed.

Lemma quiet_call {O} c : opens c = false -> (forall fd, c <> SysClose fd) -> quiet (O := O) (bf_bpf c).
Proof.
  intros Ho Hc o k. unfold bf_bpf. pose proof (fd_same c k Ho Hc) as Hs. destruct (sys_call c k) as [r k']. by split.
Qed.

Lemma quiet_iter {O A} (f : A -> st (O * K) unit) l : (forall x, quiet (f x)) -> quiet (st_iter f l).
Proof. intros Hf. induction l as [|x l IH]; cbn [st_iter]; [apply quiet_ret|]. by apply quiet_bind. Qed.

Lemma quiet_spec {O A} `{Owner O} (m : st (O * K) A) (P E : O -> Prop) : quiet m -> (forall o, P o -> E o) ->
  spec P (fun _ => P) E 0 m.
Proof.
  intros Hm HE G [o k] r [o' k'] [HP HX] Er. specialize (Hm o k). rewrite Er in Hm. cbn in Hm.
  destruct Hm as [-> Ho]. destruct r; cbn; rewrite Ho; (split; [by auto|]); exists G; (split; [apply leaks_refl|done]).
Qed.

Lemma call_same c k : opens c = false -> (forall fd, c <> SysClose fd) ->
  fd_open (snd (sys_call c k)) = fd_open (K := K) k.
Proof. apply fd_same. Qed.

(** * Pinning *)

Lemma quiet_map_pin {O} m dir : quiet (O := O) (bf_map_pin m dir).
Proof. apply quiet_bind; [by apply quiet_call|]. intros. apply quiet_ret. Qed.

Lemma quiet_link_pin {O} l dir : quiet (O := O) (bf_link_pin l dir).
Proof. apply quiet_bind; [by apply quiet_call|]. intros. apply quiet_ret. Qed.

Lemma unpin_maps_fds ms dir k : fd_open (unpin_maps ms dir k) = fd_open (K := K) k.
Proof.
  revert k. induction ms as [|m ms IH]; intros k; cbn [unpin_maps]; [done|].
  rewrite IH. by apply call_same.
Qed.

Lemma unpin_fds p dir k : fd_open (bf_program_unpin p dir k) = fd_open (K := K) k.
Proof.
  unfold bf_program_unpin, bf_link_unpin, bf_map_unpin.
  rewrite !(call_same (SysUnlinkat _ _)) by done. rewrite unpin_maps_fds. by rewrite !(call_same (SysUnlinkat _ _)).
Qed.

Lemma quiet_pin dir : quiet (bf_program_pin dir).
Proof.
  intros p k. unfold bf_program_pin, st_onerr.
  match goal with |- context [match ?m (p, k) with _ => _ end] => assert (quiet m) as Hq end.
  { apply quiet_bind; [apply quiet_get|]. intros q. apply quiet_bind; [by apply quiet_call|]. intros _.
    do 3 (apply quiet_bind; [apply quiet_map_pin|intros _]).
    apply quiet_bind; [apply quiet_iter; intros; apply quiet_map_pin|]. intros _.
    destruct (link_hookopts (prog_link q)); [apply quiet_link_pin|apply quiet_ret]. }
  specialize (Hq p k). match goal with |- context [match ?m (p, k) with _ => _ end] => destruct (m (p, k)) as [[a|e] [q k1]] end;
    cbn in *; [done|]. destruct Hq as [-> Hq]. by rewrite unpin_fds.
Qed.

Lemma unpin_step (P : bf_program -> Prop) dir : step P P (fun '(p, k) => (p, bf_program_unpin (K := K) p dir k)).
Proof. intros G p k HP HX. split; [done|]. by rewrite unpin_fds. Qed.

Lemma quiet_setns {O} fd t : quiet (O := O) (setns fd t).
Proof.
  intros o k. unfold setns. pose proof (quiet_call (O := O) (SysSetns fd t) eq_refl ltac:(done) o k) as Hq.
  destruct (bf_bpf _ (o, k)) as [[z|e] s]; exact Hq.
Qed.

Lemma quiet_ns_set {O} ns old : quiet (O := O) (bf_ns_set ns old).
Proof.
  unfold bf_ns_set. apply quiet_bind; [case_match; [apply quiet_setns|apply quiet_ret]|]. intros _.
  case_match; [apply quiet_setns|apply quiet_ret].
Qed.

(** * Programs *)

Lemma same_env_made c p q : same_env p q -> prog_chain p = c /\ prog_link p = prog_link q -> prog_chain q = c.
Proof. intros (_ & E & _) [<- _]. exact E. Qed.

(** Loading keeps the chain and the link. *)
Lemma load_keeps tok (p q : bf_program) (k k' : K) : bf_program_load tok (p, k) = (Ok tt, (q, k')) ->
  prog_chain q = prog_chain p /\ prog_link q = prog_link p.
Proof.
  unfold bf_program_load. intros E. st_inv E.
  destruct st as [p1 k1]. apply load_sets_maps_ok in E0 as [s1 E0].
  destruct st0 as [p2 k2]. apply load_counters_map_ok in E1 as [s2 E1].
  destruct st1 as [p3 k3]. apply load_printer_map_ok in E2 as [s3 E2].
  destruct st2 as [p4 k4]. apply load_log_map_ok in E3 as [s4 E3].
  injection E4 as <- <-. destruct (bf_hook_to_bpf_prog_type _); [|done]. injection E5 as <- <-.
  destruct (bf_hook_to_bpf_attach_type _); [|done]. injection E6 as <- <-.
  unfold bf_bpf_prog_load in E7. destruct (token_flags _ _). destruct st6 as [p5 k5]. apply bf_bpf_obj in E7 as ->.
  injection E as <- <-.
  apply fixup_env in E0 as (_ & C0 & _ & _ & _ & _ & _ & _ & _ & L0 & _).
  apply fixup_env in E1 as (_ & C1 & _ & _ & _ & _ & _ & _ & _ & L1 & _).
  apply fixup_env in E2 as (_ & C2 & _ & _ & _ & _ & _ & _ & _ & L2 & _).
  apply fixup_env in E3 as (_ & C3 & _ & _ & _ & _ & _ & _ & _ & L3 & _).
  cbn [prog_chain prog_link with_maps with_fd] in *. by rewrite C3, C2, C1, C0, L3, L2, L1, L0.
Qed.

Lemma spec_load tok c : spec (prog_made c) (fun _ => prog_at c None) (fun _ => True) 1 (bf_program_load (K := K) tok).
Proof.
  intros G [p k] r [q k'] [(Hu & Hc & Hl) HX] E. pose proof (h_load tok G (p, k) r (q, k') (conj HX Hu) E) as Hr.
  destruct r as [[]|e]; cbn in *.
  - destruct Hr as (G' & HG & HI & Hf). apply load_keeps in E as [E1 E2]. split; [|by exists G'].
    split_and!; [by rewrite E1|by rewrite E2|done].
  - destruct Hr as (G' & HG & HI). split; [done|]. by exists G'.
Qed.

Lemma spec_attach ho c :
  spec (prog_at c None) (fun _ => prog_at c (Some ho)) (prog_at c None) 0 (bf_program_attach (K := K) ho).
Proof.
  intros G [p k] r [q k'] [(Hc & Hl & Hf) HX] E. specialize (Hf eq_refl). pose proof (h_attach G ho (p, k) r (q, k') (conj HX Hf) E) as Hr.
  assert (match r with Ok _ => prog_at c (Some ho) q | Err _ => q = p end) as Hq.
  { revert E. unfold bf_program_attach, on_link, bf_link_attach. unfold mbind at 1, st_bind at 1, obj_get.
    set (m := match bf_hook_to_flavor _ with Some _ => _ | None => _ end).
    assert (fresh_fd m) as Hm by apply fresh_attach.
    unfold mbind, st_bind. pose proof (Hm (fun l X => l = prog_link p) (prog_link p, k)) as Hx.
    destruct (m (prog_link p, k)) as [[fd|e] [l k1]]; specialize (Hx _ _ eq_refl eq_refl); cbn in Hx.
    - intros [= <- <- <-]. by split.
    - subst l. intros [= <- <- <-]. by destruct p. }
  destruct r as [[]|e]; cbn in *.
  - split; [done|]. exists G. split; [apply leaks_refl|done].
  - subst q. split; [done|]. exists G. split; [apply leaks_refl|done].
Qed.

(** Everything that is still open is closed. *)
Lemma free_open p (k : K) : fd_open (bf_program_free p k) = fd_open k ∖ list_to_set (owned p).
Proof.
  unfold bf_program_free. rewrite closep_open. destruct (destroy_maps_open (prog_sets p)
    (snd (closep (prog_lmap_fd p) (snd (closep (prog_pmap_fd p) (snd (closep (prog_cmap_fd p)
      (snd (closep (prog_fd p) k))))))))) as [_ ->].
  rewrite !closep_open. unfold owned. rewrite !list_to_set_app_L. set_solver.
Qed.

Lemma free_owns G p l (k : K) : owns G (owned p ++ l) (fd_open k) -> owns G l (fd_open (bf_program_free p k)).
Proof.
  rewrite free_open. apply owns_drop.
Qed.

(** * Links *)

Lemma spec_link_update hook fd ho :
  spec (O := bf_link) (linked ho) (fun _ => linked (relinked hook ho)) (linked ho) 0 (bf_link_update (K := K) hook fd).
Proof.
  unfold bf_link_update, relinked. destruct (bf_hook_to_flavor hook) as [[]|].
  2: {
    intros G [l k] r [l' k'] [Hs HX]. unfold _bf_link_update_nf. rewrite Hs.
    match goal with |- context [bf_bpf_link_create ?a ?b ?c ?e ?f ?s] =>
      pose proof (fresh_link_create (O := bf_link) a b c e f (fun x X => x = l /\ X = fd_open k) s) as Hr;
      destruct (bf_bpf_link_create a b c e f s) as [[x|e'] [l1 k1]] end;
      specialize (Hr _ _ (conj eq_refl eq_refl) eq_refl); cbn in Hr.
    - destruct Hr as (Y & [-> ->] & Hf & Hn & HY). pose proof (closep_open (link_fd l) k1) as Hc.
      destruct (closep (link_fd l) k1) as [z k2]. intros [= <- <- <-]. cbn in *. split; [done|].
      exists G. split; [apply leaks_refl|]. unfold own_fds, owner_link in *. cbn [link_fd]. rewrite Hc, HY, (own_some x Hf).
      destruct HX as (HX & Hnd & Hd). rewrite HX in *. split_and!; [set_solver|apply NoDup_singleton|set_solver].
    - destruct Hr as [-> HY]. intros [= <- <- <-]. split; [done|]. exists G. split; [apply leaks_refl|].
      by rewrite HY. }
  1-3: eapply spec_seq with (n := 0%nat) (n' := 0%nat); [apply (spec_get (linked ho))| |lia];
    intros l0; eapply spec_conseq; [apply (quiet_spec _ (fun l => l0 = l /\ linked ho l));
      [apply quiet_bind; [by apply quiet_call|intros; apply quiet_ret]|intros l Hl; exact Hl]|done|by intros ? ? [_ ?]|by intros ? [_ ?]|lia].
  apply spec_err.
Qed.
End Programs.

(** * Building a program *)

Section Build.
Context `{CgenEnv} {K : Type} `{FdSys K} (d : bf_daemon).

Lemma fresh_opendir_at {O} fuel fd name mk : fresh_fd (O := O) (K := K) (bf_opendir_at fuel fd name mk).
Proof.
  induction fuel as [|fuel IH]; cbn [bf_opendir_at]; [apply fresh_err|].
  intros P s r s' HP E. pose proof (fresh_open (O := O) (K := K) (SysOpenat fd name) eq_refl P s) as Ho.
  destruct (bf_bpf (SysOpenat fd name) s) as [[x|e] s1]; specialize (Ho _ _ HP eq_refl).
  { by injection E as <- <-. }
  destruct (negb (e =? - ENOENT) || negb mk); [by injection E as <- <-|].
  pose proof (h_other (O := O) (K := K) (SysMkdirat fd name) P eq_refl ltac:(done) s1) as Hm.
  destruct (bf_bpf (SysMkdirat fd name) s1) as [[y|e'] s2]; specialize (Hm _ _ Ho eq_refl).
  - by apply (IH P s2 r s').
  - by injection E as <- <-.
Qed.

Lemma fresh_pindir {T} : fresh_fd (O := T) (K := K) (bf_ctx_get_pindir_fd d).
Proof. apply fresh_scope; [by apply fresh_open|]. intros fd. apply fresh_opendir_at. Qed.

Lemma fresh_chain_pindir {T} name : fresh_fd (O := T) (K := K) (_bf_cgen_get_chain_pindir_fd d name).
Proof. apply fresh_scope; [apply fresh_pindir|]. intros fd. apply fresh_opendir_at. Qed.

Lemma specE_pindir {T A} `{Owner T} name (m : Z -> st (T * K) A) P Q (E : Z -> T -> Prop) n :
  (forall fd, specE P Q E n (m fd)) -> (forall e o, P o -> E e o) -> specE P Q E n (with_pindir d name m).
Proof.
  intros Hm HE. unfold with_pindir. destruct (bf_opts_persist d); [|apply Hm].
  by apply specE_scope; [apply fresh_chain_pindir| |].
Qed.

Lemma spec_pindir {T A} `{Owner T} name (m : Z -> st (T * K) A) P Q E n : (forall fd, spec P Q E n (m fd)) ->
  (forall o, P o -> E o) -> spec P Q E n (with_pindir d name m).
Proof. intros Hm HE. by apply specE_pindir. Qed.

(** The daemon does not survive when it cannot come back to its namespaces. *)
Lemma specE_ns {T} `{Owner T} ns (m : st (T * K) unit) P Q (E : Z -> T -> Prop) n : specE P (fun _ => Q) E n m ->
  (forall e o, P o -> E e o) -> (forall o, Q o -> E (- BF_CRASH) o) -> specE P (fun _ => Q) E n (in_ns d ns m).
Proof.
  intros Hm HP HQ. unfold in_ns. eapply specE_seq with (n := 0%nat) (n' := n) (Q := fun _ => P); [| |done].
  { eapply specE_conseq; [apply (quiet_spec _ P P); [apply quiet_ns_set|done]|done..|auto|done]. }
  intros []. eapply specE_seq with (n := n) (n' := 0%nat); [exact Hm| |lia]. intros [].
  intros G [o k] r s' [Hq HX]. unfold leave_ns.
  pose proof (quiet_ns_set (O := T) (ctx_ns d) (Some ns) o k) as Hn.
  destruct (bf_ns_set _ _ (o, k)) as [[u|e] [o' k']]; cbn in Hn; destruct Hn as [-> Hn]; intros [= <- <-]; cbn; rewrite Hn;
    (split; [auto|]); exists G; (split; [apply leaks_refl|done]).
Qed.

Lemma spec_ns {T} `{Owner T} ns (m : st (T * K) unit) P Q E n : spec P (fun _ => Q) E n m ->
  (forall o, P o -> E o) -> (forall o, Q o -> E o) -> spec P (fun _ => Q) E n (in_ns d ns m).
Proof. intros Hm HP HQ. by apply specE_ns. Qed.

Lemma new_program_made chain p : new_program chain = Ok p -> prog_made chain p.
Proof.
  unfold new_program. destruct (bf_program_new chain) as [p0|e] eqn:Hn; [|done]. cbn [rbind].
  destruct (bf_program_generate p0) as [[[] p1]|e] eqn:Hg; [|done]. intros [= <-]. cbn [snd].
  pose proof (program_new_unloaded _ _ Hn) as Hu. pose proof (keeps_generate _ _ _ Hg) as Hf.
  unfold frame in Hf. injection Hf as E0 _ E1 E2 E3 E4 E5 E6.
  unfold bf_program_new in Hn. inv_res Hn. injection Hn as <-. cbn in E0, E5.
  split_and!; [|done|by rewrite E5]. destruct Hu as [Hl Hp]. split; [|by rewrite E4].
  unfold others. by rewrite E1, E2, E3, E5, E6.
Qed.

(** A program of its own, next to what the object owns. *)
Lemma build_spec {T} `{Owner T} name chain (m : Z -> st (bf_program * K) unit) R (P E : T -> Prop) G :
  (forall fd, spec (prog_made chain) (fun _ => R) (fun _ => True) 1 (m fd)) -> (forall o, P o -> E o) ->
  hoare (on_fds (fun o X => P o /\ owns G (own_fds o) X)) (build_program d name chain m)
    (fun p => on_fds (fun o X => P o /\ R p /\ exists G', leaks 1 G G' /\ owns G' (owned p ++ own_fds o) X))
    (on_fds (acct E G 1)).
Proof.
  intros Hm HE [o k] r s' [HP HX]. unfold build_program. destruct (new_program chain) as [p|e] eqn:En.
  - apply new_program_made in En. assert (owned p = []) as Hown by apply unloaded_owned, En.
    destruct (owns_rest G (owned p) (own_fds o) _ ltac:(by rewrite Hown)) as [Hr Hd].
    pose proof (owns_part G (owned p) (own_fds o) (fd_open k) ltac:(by rewrite Hown)) as HI.
    pose proof (spec_pindir name m (prog_made chain) (fun _ => R) (fun _ => True) 1 Hm ltac:(done)
      (G ∪ list_to_set (own_fds o)) (p, k)) as Hs.
    destruct (with_pindir d name m (p, k)) as [[[]|e] [q k1]]; specialize (Hs _ _ (conj En HI) eq_refl);
      cbn in Hs; destruct Hs as [HR (G1 & Hl & HX1)];
      destruct (owns_back _ _ _ _ _ _ Hr Hd Hl HX1) as [Hl' HX']; intros [= <- <-].
    + split_and!; [done|done|]. by eexists.
    + split; [by apply HE|]. eexists. split; [exact Hl'|]. by apply free_owns.
  - intros Er.
    assert (forall fd : Z, spec P (fun _ _ => False) E 1 (@st_err (T * K) bf_program e)) as Hs.
    { intros _. eapply spec_conseq; [apply (spec_err e P (fun _ _ => False))|auto..]. }
    pose proof (spec_pindir name _ P _ E 1 Hs HE G (o, k) r s' (conj HP HX) Er) as Hr.
    destruct r as [p|e']; [|exact Hr]. destruct s'. by destruct Hr.
Qed.
End Build.

(** * Contexts *)

(** The context of a chain whose program satisfies [R]. *)
Definition has (f : bf_front) (c : bf_chain) (R : bf_program -> Prop) (cg : bf_cgen) : Prop :=
  cgen_front cg = f /\ cgen_chain cg = c /\ exists p, cgen_program cg = Some p /\ R p.

(** A new one, and one that is ready. *)
Definition blank (f : bf_front) (c : bf_chain) (cg : bf_cgen) : Prop :=
  cgen_front cg = f /\ cgen_chain cg = c /\ cgen_program cg = None.
Definition ready (f : bf_front) (c : bf_chain) (h : option bf_hookopts) : bf_cgen -> Prop := has f c (prog_at c h).

Lemma has_impl f c (R R' : bf_program -> Prop) cg : (forall p, R p -> R' p) -> has f c R cg -> has f c R' cg.
Proof. intros HR (Hf & Hc & p & Hp & Hr). split_and!; [done|done|]. exists p. auto. Qed.

Section Cgens.
Context `{CgenEnv} {K : Type} `{FdSys K} (d : bf_daemon).

Lemma spec_program {A} f c (m : st (bf_program * K) A) (P' E' : bf_program -> Prop) (Q' : A -> bf_program -> Prop) n :
  spec P' Q' E' n m -> spec (has f c P') (fun a => has f c (Q' a)) (has f c E') n (on_program m).
Proof.
  intros Hm G [cg k] r s' [(Hf & Hc & p & Hp & HP) HX]. unfold on_program. rewrite Hp.
  unfold own_fds, owner_cgen in HX. rewrite Hp in HX.
  specialize (Hm G (p, k)). destruct (m (p, k)) as [x [q k1]]. specialize (Hm _ _ (conj HP HX) eq_refl).
  intros [= <- <-]. destruct x as [a|e]; cbn in *; destruct Hm as [HR HG]; (split; [|exact HG]);
    (split_and!; [done|done|by exists q]).
Qed.

Lemma step_program f c (P' Q' : bf_program -> Prop) (h : bf_program * K -> bf_program * K) : step P' Q' h ->
  step (has f c P') (has f c Q') (fun s => snd (on_program (fun s => (Ok tt, h s)) s)).
Proof.
  intros Hh G cg k (Hf & Hc & p & Hp & HP) HX. unfold on_program. rewrite Hp.
  unfold own_fds, owner_cgen in HX. rewrite Hp in HX. specialize (Hh G p k HP HX).
  destruct (h (p, k)) as [q k1]. destruct Hh as [HQ HX']. cbn. split; [|exact HX']. split_and!; [done|done|by exists q].
Qed.

(** Descriptors that were the program's are closed. *)
Lemma step_close (P' Q' : bf_program -> Prop) (h : bf_program * K -> bf_program * K) :
  (forall p k, P' p -> Q' (fst (h (p, k))) /\ exists l, owned p ≡ₚ l ++ owned (fst (h (p, k))) /\
     fd_open (snd (h (p, k))) = fd_open k ∖ list_to_set l) -> step P' Q' h.
Proof.
  intros Hh G p k HP HX. destruct (Hh p k HP) as (HQ & l & Hl & Ho). destruct (h (p, k)) as [q k']. cbn in *.
  split; [done|]. rewrite Ho. by eapply fds_inv_remove, HX.
Qed.

Lemma step_detach c h : step (prog_at c h) (prog_at c None) (fun '(p, k) => bf_program_detach (K := K) p k).
Proof.
  apply step_close. intros p k (Hc & Hh & Hl). unfold bf_program_detach. destruct (link_detach_open (prog_link p) k) as [Hf Ho].
  assert (link_hookopts (fst (bf_link_detach (prog_link p) k)) = None) as Hn.
  { unfold bf_link_detach. by destruct (closep _ _). }
  destruct (bf_link_detach (prog_link p) k) as [l k']. cbn in *. split; [by split_and!|].
  exists (own (link_fd (prog_link p))). split; [|done]. unfold owned. cbn [prog_sets with_link prog_cmap_fd prog_pmap_fd
    prog_lmap_fd prog_cmap prog_pmap prog_lmap prog_link prog_fd]. rewrite Hf, own_none. cbn [app].
  unfold prog_cmap_fd, prog_pmap_fd, prog_lmap_fd. cbn [with_link prog_cmap prog_pmap prog_lmap]. solve_Permutation.
Qed.

Lemma step_unload c h : step (prog_at c h) (prog_at c None) (fun '(p, k) => bf_program_unload (K := K) p k).
Proof.
  apply step_close. intros p k (Hc & Hh & Hl). pose proof (unload_open p k) as [Hcl Ho].
  assert (prog_chain (fst (bf_program_unload p k)) = prog_chain p /\
          link_hookopts (prog_link (fst (bf_program_unload p k))) = None) as [Hp Hn].
  { unfold bf_program_unload, bf_link_detach.
    repeat match goal with |- context [let '(_, _) := ?x in _] =>
      lazymatch x with context [match _ with _ => _ end] => fail | _ => destruct x end end. by split. }
  split; [split_and!; [by rewrite Hp|done|by intros _; apply cl_link]|].
  exists (owned p). by rewrite (closed_owned _ Hcl), app_nil_r.
Qed.

Lemma step_seq {O} `{Owner O} (P Q R : O -> Prop) (h h' : O * K -> O * K) :
  step P Q h -> step Q R h' -> step P R (fun s => h' (h s)).
Proof.
  intros Hh Hh' G o k HP HX. specialize (Hh G o k HP HX). destruct (h (o, k)) as [o1 k1].
  destruct Hh as [HQ HX1]. exact (Hh' G o1 k1 HQ HX1).
Qed.

(** ** Making a context ready *)

Lemma spec_make f c h m : (forall fd, spec (prog_made c) (fun _ => prog_at c h) (fun _ => True) 1 (m fd)) ->
  spec (blank f c) (fun _ => ready f c h) (blank f c) 1
    (prog ← build_program (K := K) d (chain_name c) c m; obj_modify (with_program (Some prog))).
Proof.
  intros Hm G. eapply h_bind.
  { eapply h_conseq; [apply (build_spec d (chain_name c) c m (prog_at c h) (blank f c) (blank f c) G Hm ltac:(done))
                     |intros s Hs; exact Hs|intros a s Hs; exact Hs|intros s Hs; exact Hs]. }
  intros p [cg k] r s' ((Hf & Hc & Hn) & HR & G' & Hl & HX) [= <- <-]. cbn. split.
  - split_and!; [done|done|by exists p].
  - exists G'. split; [done|]. unfold own_fds, owner_cgen in *. rewrite Hn, app_nil_r in HX. exact HX.
Qed.

Lemma spec_pin_persist (P E : bf_program -> Prop) fd : (forall p, P p -> E p) ->
  spec P (fun _ => P) E 0 (pin_if_persist (K := K) d fd).
Proof.
  intros HE. unfold pin_if_persist. destruct (bf_opts_persist d); [apply quiet_spec; [apply quiet_pin|done]|].
  apply quiet_spec; [apply quiet_ret|done].
Qed.

Lemma spec_set f c ns ho :
  spec (blank f c) (fun _ => ready f c ho) (blank f c) 1 (bf_cgen_set (K := K) d ns ho).
Proof.
  intros G [cg k] r s' [Hb HX]. unfold bf_cgen_set. unfold mbind at 1, st_bind at 1, obj_get.
  destruct Hb as (Hf & Hc & Hn). rewrite Hc. intros E.
  eapply (spec_make f c _ _ ltac:(idtac) G (cg, k) r s' (conj _ HX) E). Unshelve. 2: by split_and!.
  intros fd. eapply spec_seq with (n := 1%nat) (n' := 0%nat); [apply spec_load| |lia]. intros [].
  eapply spec_seq with (n := 0%nat) (n' := 0%nat) (Q := fun _ => prog_at c ho); [| |lia].
  - destruct ho as [ho|].
    + eapply spec_conseq; [apply (spec_ns d ns _ (prog_at c None) (prog_at c (Some ho)) (fun _ => True) 0)|auto..]; [|done..].
      eapply spec_conseq; [apply (spec_attach ho c)|auto..].
    + apply (quiet_spec _ (prog_at c None) (fun _ => True)); [apply quiet_ret|done].
  - intros []. by apply spec_pin_persist.
Qed.

Lemma spec_load_cgen f c :
  spec (blank f c) (fun _ => ready f c None) (blank f c) 1 (bf_cgen_load (K := K) d).
Proof.
  intros G [cg k] r s' [Hb HX]. unfold bf_cgen_load. unfold mbind at 1, st_bind at 1, obj_get.
  destruct Hb as (Hf & Hc & Hn). rewrite Hc. intros E.
  eapply (spec_make f c _ _ ltac:(idtac) G (cg, k) r s' (conj _ HX) E). Unshelve. 2: by split_and!.
  intros fd. eapply spec_seq with (n := 1%nat) (n' := 0%nat); [apply spec_load| |lia]. intros [].
  by apply (spec_pin_persist (prog_at c None) (fun _ => True)).
Qed.

Lemma step_detach_cgen f c h : step (ready f c h) (ready f c None) (bf_cgen_detach (K := K)).
Proof.
  intros G cg k Hr HX. pose proof (step_program f c _ _ _ (step_detach c h) G cg k Hr HX) as Hs.
  destruct Hr as (Hf & Hc & p & Hp & Hr). unfold bf_cgen_detach, on_program in *. rewrite Hp in *. exact Hs.
Qed.

(** When attaching fails the program is not attached, unless the daemon could
    not come back to its namespaces. *)
Lemma spec_attach_cgen f c ns ho :
  specE (ready f c None) (fun _ => ready f c (Some ho))
    (fun e cg => ready f c None cg \/ e = - BF_CRASH /\ ready f c (Some ho) cg) 0 (bf_cgen_attach (K := K) d ns ho).
Proof.
  intros G [cg k] r s' [Hb HX]. unfold bf_cgen_attach. unfold mbind at 1, st_bind at 1, obj_get.
  intros E. refine (specE_pindir d _ _ (ready f c None) _ _ 0 _ _ G (cg, k) r s' (conj Hb HX) E); [|by left].
  intros fd. eapply specE_seq with (n := 0%nat) (n' := 0%nat) (Q := fun _ => ready f c (Some ho)); [| |lia].
  - apply specE_ns; [|by left|by right].
    eapply specE_conseq; [apply (spec_program f c), (spec_attach ho c)|done|done|by left|done].
  - intros []. destruct (bf_opts_persist d).
    + eapply specE_onerr with (E' := fun _ => ready f c (Some ho)).
      * apply (spec_program f c _ (prog_at c (Some ho)) (prog_at c (Some ho)) (fun _ => prog_at c (Some ho))), quiet_spec; [|done].
        apply quiet_bind; [apply quiet_get|]. intros p. apply quiet_link_pin.
      * intros e. eapply step_conseq; [apply (step_detach_cgen f c (Some ho))|done|by left].
    + eapply specE_conseq; [apply (specE_ret tt (ready f c (Some ho)) (fun _ _ => False))|done|by intros a cg1 [_ ?]|done|done].
Qed.

(** ** Replacing the program *)

Lemma spec_new {A} (m : st (bf_program * K) A) (P E R : bf_program -> Prop) (Q : A -> bf_program -> Prop) n :
  spec P Q E n m ->
  spec (fun ps => P (fst ps) /\ R (snd ps)) (fun a ps => Q a (fst ps) /\ R (snd ps))
    (fun ps => E (fst ps) /\ R (snd ps)) n (on_new m).
Proof.
  intros Hm. unfold on_new. apply (spec_part fst _ (fun ps => owned (snd ps)) m _ _ _ (fun _ => P) (fun _ => Q) (fun _ => E)).
  - by intros ps _.
  - by intros ps [HP _].
  - done.
  - by intros ps x a [_ HR] HQ.
  - by intros ps x [_ HR] HE.
Qed.

Lemma spec_old {A} (m : st (bf_program * K) A) (P E R : bf_program -> Prop) (Q : A -> bf_program -> Prop) n :
  spec P Q E n m ->
  spec (fun ps => R (fst ps) /\ P (snd ps)) (fun a ps => R (fst ps) /\ Q a (snd ps))
    (fun ps => R (fst ps) /\ E (snd ps)) n (on_old m).
Proof.
  intros Hm. unfold on_old. apply (spec_part snd _ (fun ps => owned (fst ps)) m _ _ _ (fun _ => P) (fun _ => Q) (fun _ => E)).
  - by intros ps _.
  - intros ps [_ HP]. split; [done|]. apply Permutation_app_comm.
  - intros ps x _. apply Permutation_app_comm.
  - by intros ps x a [HR _] HQ.
  - by intros ps x [HR _] HE.
Qed.

Lemma spec_on_link {A} (m : st (bf_link * K) A) (P E : bf_link -> Prop) (Q : A -> bf_link -> Prop) n c : spec P Q E n m ->
  spec (fun p => prog_chain p = c /\ P (prog_link p)) (fun a p => prog_chain p = c /\ Q a (prog_link p))
    (fun p => prog_chain p = c /\ E (prog_link p)) n (on_link m).
Proof.
  intros Hm. apply (spec_part prog_link (fun l p => with_link p l)
    (fun p => own (prog_cmap_fd p) ++ own (prog_pmap_fd p) ++ own (prog_lmap_fd p) ++ own_maps (prog_sets p) ++ own (prog_fd p))
    m _ _ _ (fun _ => P) (fun _ => Q) (fun _ => E)).
  - by intros p _.
  - intros p [_ HP]. split; [done|]. unfold own_fds, owner_program, owner_link, owned. solve_Permutation.
  - intros p x _. unfold own_fds, owner_program, owner_link, owned.
    cbn [prog_sets with_link prog_link prog_fd]. unfold prog_cmap_fd, prog_pmap_fd, prog_lmap_fd.
    cbn [with_link prog_cmap prog_pmap prog_lmap]. solve_Permutation.
  - by intros p x a [Hc _] HQ.
  - by intros p x [Hc _] HE.
Qed.

Lemma owned_swap ps : owned (fst (swap_links ps)) ++ owned (snd (swap_links ps)) ≡ₚ owned (fst ps) ++ owned (snd ps).
Proof.
  destruct ps as [p q]. unfold swap_links, owned. cbn [fst snd prog_sets with_link prog_link prog_fd].
  unfold prog_cmap_fd, prog_pmap_fd, prog_lmap_fd. cbn [with_link prog_cmap prog_pmap prog_lmap]. solve_Permutation.
Qed.

Abbreviation pair_of P R := (fun ps : bf_program * bf_program => P (fst ps) /\ R (snd ps)).
Abbreviation some_prog := (fun _ : bf_program => True).

Lemma spec_update c c' ho fd :
  spec (pair_of (prog_made c') (prog_at c (Some ho))) (fun _ => pair_of (prog_at c' (Some (relinked (chain_hook c) ho))) some_prog)
    (pair_of some_prog (prog_at c (Some ho))) 1 (update_programs (K := K) d (chain_hook c) fd).
Proof.
  set (A := prog_at c (Some ho)). set (B := fun p => prog_chain p = c /\ linked (relinked (chain_hook c) ho) (prog_link p)).
  set (D := prog_at c' (Some (relinked (chain_hook c) ho))).
  unfold update_programs. eapply spec_seq with (n := 1%nat) (n' := 0%nat); [| |lia].
  { apply (spec_new _ _ _ A _ _ (spec_load (ctx_token d) c')). }
  intros []. eapply spec_seq with (n := 0%nat) (n' := 0%nat) (Q := fun _ => pair_of (prog_at c' None) A); [| |lia].
  { destruct (bf_opts_persist d).
    - eapply spec_conseq; [apply (spec_old _ A A (prog_at c' None) (fun _ => A) 0)|auto..].
      + apply quiet_spec; [|done]. intros p k. split; [done|]. apply unpin_fds.
      + by intros ps [_ ?].
    - apply quiet_spec; [apply quiet_ret|]. by intros ps [_ ?]. }
  intros []. eapply spec_seq with (n := 0%nat) (n' := 0%nat); [apply spec_get| |lia]. intros ps0.
  eapply spec_seq with (n := 0%nat) (n' := 0%nat) (Q := fun _ => pair_of (prog_at c' None) B); [| |lia].
  { eapply spec_onerr with (E' := pair_of some_prog A).
    - eapply spec_conseq; [apply (spec_old _ (fun p => prog_chain p = c /\ linked ho (prog_link p))
        (fun p => prog_chain p = c /\ linked ho (prog_link p)) (prog_at c' None) (fun _ => B) 0)|auto..].
      + apply (spec_on_link _ (linked ho) (linked ho) (fun _ => linked (relinked (chain_hook c) ho)) 0 c), spec_link_update.
      + by intros ps [_ [? (? & ? & ?)]].
      + intros ps [_ [? ?]]. by split_and!.
    - intros G ps k HP HX. destruct (bf_opts_persist d); [|done].
      pose proof (spec_old (bf_program_pin (K := K) fd) A A some_prog (fun _ => A) 0
        (quiet_spec _ _ _ (quiet_pin fd) ltac:(done)) G (ps, k)) as Hs.
      destruct (on_old (bf_program_pin fd) (ps, k)) as [r [ps' k']]. specialize (Hs _ _ (conj HP HX) eq_refl).
      destruct r as [a|e]; cbn in *; destruct Hs as [HR (G' & ->%leaks_0 & HX')]; by split. }
  intros []. eapply spec_seq with (n := 0%nat) (n' := 0%nat) (Q := fun _ => pair_of D some_prog); [| |lia].
  { apply spec_modify. intros ps [(Hc & _ & _) [_ Ho]]. split; [|apply owned_swap].
    split; [|done]. by split_and!. }
  intros []. destruct (bf_opts_persist d).
  - eapply spec_ignore with (E := pair_of D some_prog); [|done].
    apply (spec_new _ D D some_prog (fun _ => D)), quiet_spec; [apply quiet_pin|done].
  - eapply spec_conseq; [apply (spec_ret tt (pair_of D some_prog) (pair_of some_prog A))|by intros ? ?|by intros ? ? [_ ?]|done|lia].
Qed.

Lemma spec_update_cgen f c c' ho :
  spec (ready f c (Some ho)) (fun _ => ready f c' (Some (relinked (chain_hook c) ho))) (ready f c (Some ho)) 1
    (bf_cgen_update (K := K) d c').
Proof.
  intros G [cg k] r s' Hpre E. pose proof Hpre as [(Hf & Hc & p & Hp & Ha) HX]. unfold bf_cgen_update in E. rewrite Hp in E.
  unfold own_fds, owner_cgen in HX. rewrite Hp in HX.
  destruct (new_program c') as [q|e] eqn:En.
  - apply new_program_made in En. assert (owned q = []) as Hq by apply unloaded_owned, En.
    assert (owns G (own_fds (q, p)) (fd_open k)) as HX0 by (unfold own_fds, owner_programs; cbn [fst snd]; by rewrite Hq).
    pose proof (spec_pindir d (chain_name c') _ _ _ _ 1 (spec_update c c' ho)
      (fun ps (Hps : pair_of (prog_made c') (prog_at c (Some ho)) ps) => conj I (proj2 Hps)) G ((q, p), k)) as Hs.
    rewrite Hc in E. destruct (with_pindir d (chain_name c') _ ((q, p), k)) as [x [[q' p'] k']].
    specialize (Hs x _ (conj (conj En Ha) HX0) eq_refl).
    destruct x as [[]|e]; injection E as <- <-; cbn in *; destruct Hs as [[HR1 HR2] (G' & Hl & HX')].
    + split; [split_and!; [done|done|by exists q']|]. exists G'. split; [done|].
      apply (free_owns G' p' (owned q')). unfold own_fds, owner_programs in HX'. cbn in HX'.
      by rewrite (Permutation_app_comm (owned p')).
    + split; [split_and!; [done|done|]; by exists p'|]. exists G'. split; [done|].
      by apply (free_owns G' q' (owned p')).
  - assert (forall fd : Z, spec (ready f c (Some ho)) (fun _ _ => False) (ready f c (Some ho)) 1 (@st_err (bf_cgen * K) unit e)) as Hs.
    { intros _. eapply spec_conseq; [apply (spec_err e (ready f c (Some ho)) (fun _ _ => False))|auto..]. }
    pose proof (spec_pindir d (chain_name c') _ _ _ _ 1 Hs (fun cg' Hr => Hr) G (cg, k) r s' Hpre E) as Hx.
    destruct r, s'; [by destruct Hx|exact Hx].
Qed.

(** ** Unloading and freeing *)

Lemma step_of_spec {O A} `{Owner O} (m : st (O * K) A) (P Q : O -> Prop) : spec P (fun _ => Q) Q 0 m ->
  step P Q (fun s => snd (m s)).
Proof.
  intros Hm G o k HP HX. specialize (Hm G (o, k)). destruct (m (o, k)) as [r [o' k']].
  specialize (Hm _ _ (conj HP HX) eq_refl). destruct r; cbn in *; destruct Hm as [HR (G' & ->%leaks_0 & HX')]; by split.
Qed.

Lemma step_unload_cgen f c h :
  step (ready f c h) (fun cg => exists h', ready f c h' cg) (bf_cgen_unload (K := K) d).
Proof.
  intros G cg k Hr HX. unfold bf_cgen_unload. cbn [fst].
  apply (step_of_spec (with_dir _ _) (ready f c h) _); [|done|done].
  apply spec_scope; [apply fresh_chain_pindir| |by intros cg' ?; exists h]. intros fd.
  eapply spec_conseq; [apply (spec_program f c _ (prog_at c h) (prog_at c h) (fun _ => prog_at c None) 0)|auto..].
  - intros G1 [p k1] r s' [HP HX1] [= <- <-]. pose proof (step_unload c h G1 p (bf_program_unpin p fd k1) HP) as Hs.
    rewrite unpin_fds in Hs. specialize (Hs HX1). cbn in Hs. destruct (bf_program_unload _ _) as [q k2].
    destruct Hs as [HQ HX2]. split; [done|]. exists G1. split; [apply leaks_refl|done].
  - intros [] cg' Hc. by exists None.
  - intros cg' Hc. by exists h.
Qed.

Lemma cgen_free_open cg (k : K) : fd_open (bf_cgen_free d cg k) = fd_open k ∖ list_to_set (own_fds cg).
Proof.
  assert (forall k : K, fd_open (match cgen_program cg with Some p => bf_program_free p k | None => k end) =
    fd_open k ∖ list_to_set (own_fds cg)) as Hfree.
  { intros k0. unfold own_fds, owner_cgen. destruct (cgen_program cg); [apply free_open|].
    cbn [list_to_set]. by rewrite difference_empty_L. }
  unfold bf_cgen_free. cbv zeta.
  destruct (bf_opts_persist d); [|apply Hfree].
  pose proof (fresh_pindir (T := unit) (K := K) d (fun _ X => X = fd_open k) (tt, k)) as Hd.
  destruct (bf_ctx_get_pindir_fd d (tt, k)) as [[fd|e] [u k1]]; specialize (Hd _ _ eq_refl eq_refl); cbn in Hd.
  - destruct Hd as (Y & -> & Hfd & Hn & HX).
    assert (quiet (O := unit) (K := K) (bf_rmdir_at fd (chain_name (cgen_chain cg)))) as Hq
      by (apply quiet_bind; [by apply quiet_call|intros; apply quiet_ret]).
    specialize (Hq tt k1). destruct (bf_rmdir_at fd _ (tt, k1)) as [r [u' k2]]. destruct Hq as [_ Hq]. cbn in Hq.
    rewrite closep_open, Hfree, Hq, HX, (own_some fd Hfd). set_solver.
  - by rewrite Hfree, Hd.
Qed.

Lemma cgen_free_owns G cg l (k : K) : owns G (own_fds cg ++ l) (fd_open k) -> owns G l (fd_open (bf_cgen_free d cg k)).
Proof. rewrite cgen_free_open. apply owns_drop. Qed.
End Cgens.
