(* ===== verification/Request.v ===== *)
(** Requests and responses: [src/libbpfilter/request.c], [response.c] and their
    transport over a socket, in [io.c].

    A request and a response are sent as the bytes of their structures, in
    messages of at most [BF_MSG_BUF_SIZE] bytes, each preceded by the number of
    bytes that are left to send. *)

From S2P Require Import Prelude Helper Hook Pack Io.

(** * Requests *)

Inductive bf_request_cmd : Type :=
| BF_REQ_RULESET_FLUSH
| BF_REQ_RULESET_GET
| BF_REQ_RULESET_SET
| BF_REQ_CHAIN_SET
| BF_REQ_CHAIN_GET
| BF_REQ_CHAIN_PROG_FD
| BF_REQ_CHAIN_LOGS_FD
| BF_REQ_CHAIN_LOAD
| BF_REQ_CHAIN_ATTACH
| BF_REQ_CHAIN_UPDATE
| BF_REQ_CHAIN_FLUSH
| BF_REQ_COUNTERS_SET
| BF_REQ_COUNTERS_GET
| BF_REQ_CUSTOM
| bf_request_cmd_other (n : Z).

#[global] Instance bf_request_cmd_eq_dec : EqDecision bf_request_cmd.
Proof. solve_decision. Defined.

Definition bf_request_cmd_to_Z (cmd : bf_request_cmd) : Z :=
  match cmd with
  | BF_REQ_RULESET_FLUSH => 0 | BF_REQ_RULESET_GET => 1 | BF_REQ_RULESET_SET => 2 | BF_REQ_CHAIN_SET => 3
  | BF_REQ_CHAIN_GET => 4 | BF_REQ_CHAIN_PROG_FD => 5 | BF_REQ_CHAIN_LOGS_FD => 6 | BF_REQ_CHAIN_LOAD => 7
  | BF_REQ_CHAIN_ATTACH => 8 | BF_REQ_CHAIN_UPDATE => 9 | BF_REQ_CHAIN_FLUSH => 10 | BF_REQ_COUNTERS_SET => 11
  | BF_REQ_COUNTERS_GET => 12 | BF_REQ_CUSTOM => 13 | bf_request_cmd_other n => n
  end.

Definition bf_request_cmd_of_Z (z : Z) : bf_request_cmd :=
  match z with
  | 0 => BF_REQ_RULESET_FLUSH | 1 => BF_REQ_RULESET_GET | 2 => BF_REQ_RULESET_SET | 3 => BF_REQ_CHAIN_SET
  | 4 => BF_REQ_CHAIN_GET | 5 => BF_REQ_CHAIN_PROG_FD | 6 => BF_REQ_CHAIN_LOGS_FD | 7 => BF_REQ_CHAIN_LOAD
  | 8 => BF_REQ_CHAIN_ATTACH | 9 => BF_REQ_CHAIN_UPDATE | 10 => BF_REQ_CHAIN_FLUSH | 11 => BF_REQ_COUNTERS_SET
  | 12 => BF_REQ_COUNTERS_GET | 13 => BF_REQ_CUSTOM | _ => bf_request_cmd_other z
  end.

Definition bf_request_cmd_to_str (cmd : bf_request_cmd) : option string :=
  match cmd with
  | BF_REQ_RULESET_FLUSH => Some "BF_REQ_RULESET_FLUSH"%string
  | BF_REQ_RULESET_GET => Some "BF_REQ_RULESET_GET"%string
  | BF_REQ_RULESET_SET => Some "BF_REQ_RULESET_SET"%string
  | BF_REQ_CHAIN_SET => Some "BF_REQ_CHAIN_SET"%string
  | BF_REQ_CHAIN_GET => Some "BF_REQ_CHAIN_GET"%string
  | BF_REQ_CHAIN_LOAD => Some "BF_REQ_CHAIN_LOAD"%string
  | BF_REQ_CHAIN_ATTACH => Some "BF_REQ_CHAIN_ATTACH"%string
  | BF_REQ_CHAIN_UPDATE => Some "BF_REQ_CHAIN_UPDATE"%string
  | BF_REQ_CHAIN_PROG_FD => Some "BF_REQ_CHAIN_PROG_FD"%string
  | BF_REQ_CHAIN_LOGS_FD => Some "BF_REQ_CHAIN_LOGS_FD"%string
  | BF_REQ_CHAIN_FLUSH => Some "BF_REQ_CHAIN_FLUSH"%string
  | BF_REQ_COUNTERS_SET => Some "BF_REQ_COUNTERS_SET"%string
  | BF_REQ_COUNTERS_GET => Some "BF_REQ_COUNTERS_GET"%string
  | BF_REQ_CUSTOM => Some "BF_REQ_CUSTOM"%string
  | bf_request_cmd_other _ => None
  end.

Definition bf_front_to_Z (front : bf_front) : Z :=
  match front with BF_FRONT_IPT => 0 | BF_FRONT_NFT => 1 | BF_FRONT_CLI => 2 | bf_front_other n => n end.

Definition bf_front_of_Z (z : Z) : bf_front :=
  match z with 0 => BF_FRONT_IPT | 1 => BF_FRONT_NFT | 2 => BF_FRONT_CLI | _ => bf_front_other z end.

(** The namespaces are a pointer, which is NULL until the daemon sets it. *)
Record bf_request : Type := mk_request {
  bf_request_front : bf_front;
  request_cmd : bf_request_cmd;
  bf_request_ns : option bf_ns;
  bf_request_fd : Z;
  bf_request_ipt_cmd : Z;
  bf_request_data : list Z
}.

Definition bf_request_data_len (request : bf_request) : Z := Z.of_nat (length (bf_request_data request)).

Definition bf_request_new (front : bf_front) (cmd : bf_request_cmd) (data : list Z) : bf_request :=
  mk_request front cmd None 0 0 data.

Definition bf_request_set_ns (request : bf_request) (ns : bf_ns) : bf_request :=
  mk_request (bf_request_front request) (request_cmd request) (Some ns) (bf_request_fd request)
    (bf_request_ipt_cmd request) (bf_request_data request).

Definition bf_request_set_fd (request : bf_request) (fd : Z) : bf_request :=
  mk_request (bf_request_front request) (request_cmd request) (bf_request_ns request) fd
    (bf_request_ipt_cmd request) (bf_request_data request).

Definition bf_request_set_ipt_cmd (request : bf_request) (ipt_cmd : Z) : bf_request :=
  mk_request (bf_request_front request) (request_cmd request) (bf_request_ns request) (bf_request_fd request)
    ipt_cmd (bf_request_data request).

(** The document of the pack, as bytes. *)
Definition bf_wpack_bytes `{Mpack} (pack : bf_wpack) : res (list Z) :=
  if negb (bf_wpack_is_valid pack) then Err (- EINVAL)
  else let! n := bf_wpack_get_data pack in Ok (mpack_write n).

Definition bf_request_new_from_pack `{Mpack} (front : bf_front) (cmd : bf_request_cmd) (pack : bf_wpack) :
    res bf_request :=
  let! data := bf_wpack_bytes pack in Ok (bf_request_new front cmd data).

(** * Responses *)

Record bf_response : Type := mk_response { bf_response_status : Z; bf_response_data : list Z }.

Definition bf_response_data_len (response : bf_response) : Z := Z.of_nat (length (bf_response_data response)).

Definition bf_response_new_success (data : list Z) : bf_response := mk_response 0 data.
Definition bf_response_new_failure (error : Z) : bf_response := mk_response error [].

Definition bf_response_new_from_pack `{Mpack} (pack : bf_wpack) : res bf_response :=
  let! data := bf_wpack_bytes pack in Ok (bf_response_new_success data).

(** * The structures in memory *)

Definition sizeof_bf_request : Z := 32.
Definition sizeof_bf_response : Z := 16.

Definition bf_request_size (request : bf_request) : Z := u64 (sizeof_bf_request + bf_request_data_len request).
Definition bf_response_size (response : bf_response) : Z := u64 (sizeof_bf_response + bf_response_data_len response).

(** A client's request has no namespaces: its pointer is NULL. *)
Definition request_bytes (request : bf_request) : list Z :=
  le_split 4 (bf_front_to_Z (bf_request_front request)) ++
  le_split 4 (bf_request_cmd_to_Z (request_cmd request)) ++
  le_split 8 0 ++ le_split 4 (bf_request_fd request) ++ le_split 4 (bf_request_ipt_cmd request) ++
  le_split 8 (bf_request_data_len request) ++ bf_request_data request.

Definition response_bytes (response : bf_response) : list Z :=
  le_split 4 (bf_response_status response) ++ le_split 4 0 ++
  le_split 8 (bf_response_data_len response) ++ bf_response_data response.

Definition field (o n : nat) (bytes : list Z) : Z := le_combine (sub_bytes o n bytes).

(** Whatever pointer the bytes hold is replaced before it is read. *)
Definition bf_request_new_from_dynbuf (dynbuf : bf_dynbuf) : res bf_request :=
  if buf_len dynbuf <? sizeof_bf_request then Err (- EINVAL)
  else
    let data := buf_data dynbuf in
    if negb (u64 (sizeof_bf_request + field 24 8 data) =? buf_len dynbuf) then Err (- EINVAL)
    else Ok (mk_request (bf_front_of_Z (s32 (field 0 4 data))) (bf_request_cmd_of_Z (s32 (field 4 4 data))) None
               (s32 (field 16 4 data)) (s32 (field 20 4 data)) (drop 32 data)).

Definition bf_response_new_from_dynbuf (dynbuf : bf_dynbuf) : res bf_response :=
  if buf_len dynbuf <? sizeof_bf_response then Err (- EINVAL)
  else
    let data := buf_data dynbuf in
    if negb (u64 (sizeof_bf_response + field 8 8 data) =? buf_len dynbuf) then Err (- EINVAL)
    else Ok (mk_response (s32 (field 0 4 data)) (drop 16 data)).

(** * Transport *)

Definition BF_MSG_BUF_SIZE : nat := 1024.

(** The messages [sendmsg] is called with: what is left to send, then the next
    bytes. *)
Fixpoint _bf_send_from_buff (fuel : nat) (buf : list Z) : list (list Z) :=
  match fuel, buf with
  | _, [] => []
  | O, _ => []
  | S fuel, _ =>
      let rem := drop BF_MSG_BUF_SIZE buf in
      (le_split 8 (Z.of_nat (length rem)) ++ take BF_MSG_BUF_SIZE buf) :: _bf_send_from_buff fuel rem
  end.

(** [msgs]: what the calls to [recvmsg] return, one after the other; nothing
    is received once the socket is closed. *)
Fixpoint _bf_recv_in_buff (msgs : list (list Z)) (buf : bf_dynbuf) : res (bf_dynbuf * list (list Z)) :=
  match msgs with
  | [] => Err (- EIO)
  | msg :: msgs =>
      if (length msg <? 8)%nat then Err (- EIO)
      else
        let remaining := field 0 8 msg in
        let buf := bf_dynbuf_write buf (drop 8 msg) in
        if 0 <? remaining then _bf_recv_in_buff msgs buf else Ok (buf, msgs)
  end.

(** Every message carries a byte at least. *)
Definition bf_send_request (request : bf_request) : list (list Z) :=
  _bf_send_from_buff (length (request_bytes request)) (request_bytes request).

Definition bf_send_response (response : bf_response) : list (list Z) :=
  _bf_send_from_buff (length (response_bytes response)) (response_bytes response).

Definition bf_recv_request (msgs : list (list Z)) : res (bf_request * list (list Z)) :=
  let! x := _bf_recv_in_buff msgs bf_dynbuf_default in
  let! request := bf_request_new_from_dynbuf (fst x) in
  Ok (request, snd x).

Definition bf_recv_response (msgs : list (list Z)) : res (bf_response * list (list Z)) :=
  let! x := _bf_recv_in_buff msgs bf_dynbuf_default in
  let! response := bf_response_new_from_dynbuf (fst x) in
  Ok (response, snd x).

(** * Theorems *)

(** ** Messages *)

(** A number that fits comes first in a message. *)
Lemma message_head n data : 0 <= n < 2 ^ 64 -> field 0 8 (le_split 8 n ++ data) = n /\ drop 8 (le_split 8 n ++ data) = data.
Proof.
  intros Hn. unfold field, sub_bytes. rewrite drop_0. split.
  - rewrite take_app_length' by (by rewrite length_le_split). rewrite le_combine_split. by rewrite Z.mod_small by (cbn; lia).
  - by rewrite drop_app_length' by (by rewrite length_le_split).
Qed.

(** Bytes are received as they were sent, and what follows them is left. *)
Lemma recv_sent fuel data later buf : data <> [] -> (length data <= fuel)%nat -> dynbuf_tight buf ->
  buf_len buf + Z.of_nat (length data) <= 2 ^ 29 ->
  exists buf', _bf_recv_in_buff (_bf_send_from_buff fuel data ++ later) buf = Ok (buf', later) /\
    buf_data buf' = buf_data buf ++ data /\ buf_len buf' = buf_len buf + Z.of_nat (length data).
Proof.
  revert data buf. induction fuel as [|fuel IH]; intros data buf Hd Hf Hb Hl; [destruct data; [done|cbn in Hf; lia]|].
  destruct data as [|x data]; [done|]. cbn [_bf_send_from_buff].
  pose proof (proj1 (proj1 Hb)) as Hlen. set (l := x :: data) in *. pose proof (take_drop BF_MSG_BUF_SIZE l) as Etd.
  pose proof (f_equal (fun l => Z.of_nat (length l)) Etd) as El. cbn beta in El. rewrite length_app in El.
  assert (length (take BF_MSG_BUF_SIZE l) <> 0)%nat as Hne by done.
  cbn [app _bf_recv_in_buff]. rewrite length_app, length_le_split. rewrite (proj2 (Nat.ltb_ge _ _)) by lia.
  destruct (message_head (Z.of_nat (length (drop BF_MSG_BUF_SIZE l))) (take BF_MSG_BUF_SIZE l)) as [-> ->]; [lia|].
  destruct (dynbuf_write_tight buf (take BF_MSG_BUF_SIZE l) Hb) as (Hb' & Hd' & Hl'); [lia|].
  destruct (drop BF_MSG_BUF_SIZE l) as [|y rem] eqn:Er.
  - change (0 <? Z.of_nat (length (@nil Z))) with false. cbv iota. rewrite app_nil_r in Etd.
    assert (_bf_send_from_buff fuel [] = []) as -> by (by destruct fuel). rewrite Etd in Hd', Hl' |- *.
    eexists. by split_and!.
  - rewrite (proj2 (Z.ltb_lt _ _)) by (cbn; lia).
    destruct (IH (y :: rem) (bf_dynbuf_write buf (take BF_MSG_BUF_SIZE l))) as (buf' & -> & Hdb & Hlb); [done|lia|done|lia|].
    eexists. split_and!; [done| |].
    + rewrite Hdb, Hd'. rewrite <- app_assoc. by rewrite Etd.
    + rewrite Hlb, Hl'. lia.
Qed.

(** No message is empty, nor longer than the receiver's buffers. *)
Lemma sent_sizes fuel data :
  Forall (fun msg => (8 < length msg <= 8 + BF_MSG_BUF_SIZE)%nat) (_bf_send_from_buff fuel data).
Proof.
  revert data. induction fuel as [|fuel IH]; intros [|x data]; cbn [_bf_send_from_buff]; try constructor; [|apply IH].
  rewrite length_app, length_le_split, length_take. unfold BF_MSG_BUF_SIZE. cbn [length]. lia.
Qed.

(** ** Structures *)

Lemma field_next o n m z bytes : (m <= o)%nat -> field o n (le_split m z ++ bytes) = field (o - m) n bytes.
Proof. intros Hm. unfold field, sub_bytes. by rewrite drop_app_ge, length_le_split by (by rewrite length_le_split). Qed.

Lemma field_here n z bytes : field 0 n (le_split n z ++ bytes) = z mod 256 ^ Z.of_nat n.
Proof.
  unfold field, sub_bytes. rewrite drop_0, take_app_length' by (by rewrite length_le_split). apply le_combine_split.
Qed.

Lemma drop_field k m z bytes : (m <= k)%nat -> drop k (le_split m z ++ bytes) = drop (k - m) bytes.
Proof. intros Hm. by rewrite drop_app_ge, length_le_split by (by rewrite length_le_split). Qed.

Lemma s32_stored z : - 2 ^ 31 <= z < 2 ^ 31 -> s32 (z mod 256 ^ Z.of_nat 4) = z.
Proof.
  intros Hz. change (256 ^ Z.of_nat 4) with (2 ^ 32). unfold s32, sw. cbv zeta. rewrite Z.mod_mod by done.
  change (2 ^ (32 - 1)) with (2 ^ 31). case_decide;
    pose proof (Z.div_mod z (2 ^ 32) ltac:(done)); pose proof (Z.mod_pos_bound z (2 ^ 32) ltac:(done)); lia.
Qed.

(** What a request or a response has to be to travel as it is: its integers
    are C integers, its enumerators are named once, and it fits the receiver's
    buffer. *)
Record request_sendable (request : bf_request) : Prop := mk_request_sendable {
  rs_front : bf_front_of_Z (bf_front_to_Z (bf_request_front request)) = bf_request_front request;
  rs_front_int : - 2 ^ 31 <= bf_front_to_Z (bf_request_front request) < 2 ^ 31;
  rs_cmd : bf_request_cmd_of_Z (bf_request_cmd_to_Z (request_cmd request)) = request_cmd request;
  rs_cmd_int : - 2 ^ 31 <= bf_request_cmd_to_Z (request_cmd request) < 2 ^ 31;
  rs_fd : - 2 ^ 31 <= bf_request_fd request < 2 ^ 31;
  rs_ipt_cmd : - 2 ^ 31 <= bf_request_ipt_cmd request < 2 ^ 31;
  rs_data : bf_request_data_len request <= 2 ^ 29 - sizeof_bf_request
}.

Record response_sendable (response : bf_response) : Prop := mk_response_sendable {
  rs_status : - 2 ^ 31 <= bf_response_status response < 2 ^ 31;
  rs_response_data : bf_response_data_len response <= 2 ^ 29 - sizeof_bf_response
}.

(** The request without the namespaces of its sender. *)
Definition request_sent (request : bf_request) : bf_request :=
  mk_request (bf_request_front request) (request_cmd request) None (bf_request_fd request)
    (bf_request_ipt_cmd request) (bf_request_data request).

Ltac read_fields := repeat (rewrite field_next by lia; cbn [Nat.sub]); rewrite field_here.

Lemma length_request_bytes request : Z.of_nat (length (request_bytes request)) = sizeof_bf_request + bf_request_data_len request.
Proof. unfold request_bytes, bf_request_data_len, sizeof_bf_request. rewrite !length_app, !length_le_split. lia. Qed.

Lemma length_response_bytes response :
  Z.of_nat (length (response_bytes response)) = sizeof_bf_response + bf_response_data_len response.
Proof. unfold response_bytes, bf_response_data_len, sizeof_bf_response. rewrite !length_app, !length_le_split. lia. Qed.

Lemma request_from_bytes request buf : request_sendable request -> buf_data buf = request_bytes request ->
  buf_len buf = Z.of_nat (length (request_bytes request)) -> bf_request_new_from_dynbuf buf = Ok (request_sent request).
Proof.
  intros [Hf Hfi Hc Hci Hfd Hic Hd] Eb El. rewrite length_request_bytes in El.
  assert (0 <= bf_request_data_len request) as Hn by (unfold bf_request_data_len; lia).
  unfold bf_request_new_from_dynbuf. rewrite El, Eb. unfold sizeof_bf_request in *.
  rewrite (proj2 (Z.ltb_ge _ _)) by lia. unfold request_bytes.
  read_fields. rewrite Z.mod_small by (cbn; lia). rewrite u64_small, Z.eqb_refl by lia. cbn [negb].
  rewrite field_here, s32_stored, Hf by done. do 3 (read_fields; rewrite s32_stored by done). rewrite Hc.
  repeat (rewrite drop_field by lia; cbn [Nat.sub]). by rewrite drop_0.
Qed.

Lemma response_from_bytes response buf : response_sendable response -> buf_data buf = response_bytes response ->
  buf_len buf = Z.of_nat (length (response_bytes response)) -> bf_response_new_from_dynbuf buf = Ok response.
Proof.
  intros [Hs Hd] Eb El. rewrite length_response_bytes in El.
  assert (0 <= bf_response_data_len response) as Hn by (unfold bf_response_data_len; lia).
  unfold bf_response_new_from_dynbuf. rewrite El, Eb. unfold sizeof_bf_response in *.
  rewrite (proj2 (Z.ltb_ge _ _)) by lia. unfold response_bytes.
  read_fields. rewrite Z.mod_small by (cbn; lia). rewrite u64_small, Z.eqb_refl by lia. cbn [negb].
  rewrite field_here, s32_stored by done. repeat (rewrite drop_field by lia; cbn [Nat.sub]). rewrite drop_0. by destruct response.
Qed.

Lemma dynbuf_default_tight : dynbuf_tight bf_dynbuf_default.
Proof. split; [apply dynbuf_default_wf|done]. Qed.

(** Requests and responses are received as they were sent. *)
Lemma recv_send_request request later : request_sendable request ->
  bf_recv_request (bf_send_request request ++ later) = Ok (request_sent request, later).
Proof.
  intros Hr. pose proof (length_request_bytes request) as Hl. unfold bf_recv_request, bf_send_request.
  destruct (recv_sent (length (request_bytes request)) (request_bytes request) later bf_dynbuf_default)
    as (buf & -> & Hd & Hn); [done|lia|apply dynbuf_default_tight|cbn [buf_len bf_dynbuf_default]; destruct Hr; lia|].
  cbn [rbind fst snd]. by rewrite (request_from_bytes request).
Qed.

Lemma recv_send_response response later : response_sendable response ->
  bf_recv_response (bf_send_response response ++ later) = Ok (response, later).
Proof.
  intros Hr. pose proof (length_response_bytes response) as Hl. unfold bf_recv_response, bf_send_response.
  destruct (recv_sent (length (response_bytes response)) (response_bytes response) later bf_dynbuf_default)
    as (buf & -> & Hd & Hn); [done|lia|apply dynbuf_default_tight|cbn [buf_len bf_dynbuf_default]; destruct Hr; lia|].
  cbn [rbind fst snd]. by rewrite (response_from_bytes response).
Qed.
