(* ===== verification/Client.v ===== *)
(** The client library: [src/libbpfilter/cli.c], [generic.c] and [nft.c];
    [ipt.c] is in [Ipt], with the structures it sends.

    A function of the library makes a request, sends it to the daemon over a
    socket, and reads its response.  The daemon at the other end is a
    parameter: it answers messages with messages, some of which carry a file
    descriptor, or cannot be reached. *)

From S2P Require Import Prelude Helper Hook Hookopts Matcher BfSet Io Rule Chain Sys Pack Serial Request.

(** A message received, with the descriptor that comes with it. *)
Abbreviation packet := (list Z * option Z)%type.

Section Client.
Context `{Mpack} {S : Type} (peer : list (list Z) -> S -> res (list packet) * S).

(** * Exchanges *)

(** The descriptor of the first packet, which is one byte long. *)
Definition bf_recv_fd (packets : list packet) : res (Z * list packet) :=
  match packets with
  | [] => Err (- ENOENT)
  | (_, Some fd) :: packets => Ok (fd, packets)
  | (_, None) :: _ => Err (- ENOENT)
  end.

Definition bf_send (request : bf_request) : st S bf_response :=
  packets ← peer (bf_send_request request);
  x ← st_lift (bf_recv_response (fst <$> packets));
  mret (fst x).

(** The descriptor is received before the response. *)
Definition bf_send_with_fd (request : bf_request) : st S (Z * bf_response) :=
  packets ← peer (bf_send_request request);
  x ← st_lift (bf_recv_fd packets);
  y ← st_lift (bf_recv_response (fst <$> snd x));
  mret (fst x, fst y).

(** The status of a response, as a result. *)
Definition status (response : bf_response) : res unit :=
  if bf_response_status response =? 0 then Ok tt else Err (bf_response_status response).

Definition bf_send_pack (cmd : bf_request_cmd) (pack : bf_wpack) : st S bf_response :=
  request ← st_lift (bf_request_new_from_pack BF_FRONT_CLI cmd pack);
  bf_send request.

(** * Documents *)

Definition name_pack (name : string) : bf_wpack := bf_wpack_kv_str "name" name bf_wpack_new.

Definition chain_pack (chain : bf_chain) (pack : bf_wpack) : bf_wpack :=
  bf_wpack_close_object (bf_chain_pack chain (bf_wpack_open_object (Some "chain"%string) pack)).

Definition hookopts_pack (hookopts : option bf_hookopts) (pack : bf_wpack) : bf_wpack :=
  match hookopts with
  | Some ho => bf_wpack_close_object (bf_hookopts_pack ho (bf_wpack_open_object (Some "hookopts"%string) pack))
  | None => bf_wpack_kv_nil "hookopts" pack
  end.

Definition chain_set_pack (chain : bf_chain) (hookopts : option bf_hookopts) (pack : bf_wpack) : bf_wpack :=
  hookopts_pack hookopts (chain_pack chain pack).

Definition ruleset_set_pack (chains : list bf_chain) (hookopts : list (option bf_hookopts)) (pack : bf_wpack) :
    bf_wpack :=
  let pack := bf_wpack_open_array (Some "ruleset"%string) pack in
  let pack := foldl (fun pack '(chain, ho) =>
    bf_wpack_close_object (chain_set_pack chain ho (bf_wpack_open_object None pack))) pack (zip chains hookopts) in
  bf_wpack_close_array pack.

Definition read_hookopts_kv (root : mnode) : res (option bf_hookopts) :=
  let! child := bf_rpack_kv_node root "hookopts" in
  if bf_rpack_is_nil child then Ok None
  else let! ho := bf_hookopts_new_from_pack child in Ok (Some ho).

Definition read_counters (nodes : list mnode) : res (list bf_counter) := rpack_each bf_counter_new_from_pack nodes.

Definition read_chain_get (root : mnode) : res (bf_chain * option bf_hookopts * list bf_counter) :=
  let! child := bf_rpack_kv_obj root "chain" in
  let! chain := bf_chain_new_from_pack child in
  let! hookopts := read_hookopts_kv root in
  let! nodes := bf_rpack_kv_array root "counters" in
  let! counters := read_counters nodes in
  Ok (chain, hookopts, counters).

Definition read_opt_hookopts (node : mnode) : res (option bf_hookopts) :=
  if bf_rpack_is_nil node then Ok None
  else let! ho := bf_hookopts_new_from_pack node in Ok (Some ho).

Definition read_nested_counters (node : mnode) : res (list bf_counter) :=
  match node with MArray nodes => read_counters nodes | _ => Err (- EDOM) end.

Definition read_ruleset_get (root : mnode) :
    res (list bf_chain * list (option bf_hookopts) * list (list bf_counter)) :=
  let! root := bf_rpack_kv_obj root "ruleset" in
  let! nodes := bf_rpack_kv_array root "chains" in
  let! chains := rpack_each bf_chain_new_from_pack nodes in
  let! nodes := bf_rpack_kv_array root "hookopts" in
  let! hookopts := rpack_each read_opt_hookopts nodes in
  let! nodes := bf_rpack_kv_array root "counters" in
  let! counters := rpack_each read_nested_counters nodes in
  Ok (chains, hookopts, counters).

(** * Rulesets *)

(** The document is freed at the end, and it is not initialised before the
    response has been parsed. *)
Definition bf_ruleset_get : st S (list bf_chain * list (option bf_hookopts) * list (list bf_counter)) :=
  root ← st_fatal (
    response ← bf_send (bf_request_new BF_FRONT_CLI BF_REQ_RULESET_GET []);
    st_lift (status response) ;;
    st_lift (bf_rpack_new (bf_response_data response)));
  st_lift (read_ruleset_get root).

Definition bf_ruleset_set (chains : list bf_chain) (hookopts : list (option bf_hookopts)) : st S unit :=
  (if (length chains =? length hookopts)%nat then mret tt else st_err (- EINVAL)) ;;
  response ← bf_send_pack BF_REQ_RULESET_SET (ruleset_set_pack chains hookopts bf_wpack_new);
  st_lift (status response).

Definition bf_ruleset_flush : st S unit :=
  response ← bf_send (bf_request_new BF_FRONT_CLI BF_REQ_RULESET_FLUSH []);
  st_lift (status response).

(** * Chains *)

Definition bf_chain_set (chain : bf_chain) (hookopts : option bf_hookopts) : st S unit :=
  response ← bf_send_pack BF_REQ_CHAIN_SET (chain_set_pack chain hookopts bf_wpack_new);
  st_lift (status response).

Definition bf_chain_get (name : string) : st S (bf_chain * option bf_hookopts * list bf_counter) :=
  response ← bf_send_pack BF_REQ_CHAIN_GET (name_pack name);
  st_lift (status response) ;;
  root ← st_lift (bf_rpack_new (bf_response_data response));
  st_lift (read_chain_get root).

(** [bf_chain_prog_fd] and [bf_chain_logs_fd] differ in the command. *)
Definition request_fd (cmd : bf_request_cmd) (name : string) : st S Z :=
  request ← st_lift (bf_request_new_from_pack BF_FRONT_CLI cmd (name_pack name));
  x ← bf_send_with_fd request;
  let r := bf_response_status (snd x) in
  if r =? 0 then mret (fst x) else st_err (- Z.abs r).

Definition bf_chain_prog_fd : string -> st S Z := request_fd BF_REQ_CHAIN_PROG_FD.
Definition bf_chain_logs_fd : string -> st S Z := request_fd BF_REQ_CHAIN_LOGS_FD.

Definition bf_chain_load (chain : bf_chain) : st S unit :=
  response ← bf_send_pack BF_REQ_CHAIN_LOAD (chain_pack chain bf_wpack_new);
  st_lift (status response).

Definition bf_chain_attach (name : string) (hookopts : bf_hookopts) : st S unit :=
  response ← bf_send_pack BF_REQ_CHAIN_ATTACH (hookopts_pack (Some hookopts) (name_pack name));
  st_lift (status response).

Definition bf_chain_update (chain : bf_chain) : st S unit :=
  response ← bf_send_pack BF_REQ_CHAIN_UPDATE (chain_pack chain bf_wpack_new);
  st_lift (status response).

Definition bf_chain_flush (name : string) : st S unit :=
  response ← bf_send_pack BF_REQ_CHAIN_FLUSH (name_pack name);
  st_lift (status response).

(** * nftables *)

Definition NLMSG_HDRLEN : Z := 16.

(** The command of these requests is 0. *)
Definition nft_request (data : list Z) : bf_request := bf_request_new BF_FRONT_NFT (bf_request_cmd_of_Z 0) data.

Definition bf_nft_send (data : list Z) : st S unit :=
  (if (length data =? 0)%nat then st_err (- EINVAL) else mret tt) ;;
  response ← bf_send (nft_request data);
  st_lift (status response).

(** [res_len] is the room for the answer; what is left in it comes with the
    result.  The length of a Netlink message is its first word. *)
Definition nft_answer (data : list Z) (res_len : Z) : res (list Z) * Z :=
  let len := Z.of_nat (length data) in
  if len <? NLMSG_HDRLEN then (Err (- EMSGSIZE), res_len)
  else if negb (field 0 4 data =? len) then (Err (- EMSGSIZE), res_len)
  else if res_len <? len then (Err (- EMSGSIZE), len)
  else (Ok data, len).

Definition bf_nft_sendrecv (req : list Z) (res_len : Z) : st S (res (list Z) * Z) :=
  if (length req =? 0)%nat then mret (Err (- EINVAL), res_len)
  else if (length req <? 4)%nat then st_err (- BF_CRASH)
  else if negb (Z.of_nat (length req) =? field 0 4 req) then mret (Err (- EINVAL), res_len)
  else
    response ← bf_send (nft_request req);
    match status response with
    | Err e => mret (Err e, res_len)
    | Ok _ => mret (nft_answer (bf_response_data response) res_len)
    end.
End Client.
