(* ===== verification/Tool.v ===== *)
(** The commands of the tool: [src/bfcli/chain.c], [ruleset.c], [helper.c] and
    [main.c].

    A command reads its source with the parser that the build generates from
    the grammar, talks to the daemon through the client library, and prints
    what it receives.  The parser is a parameter, and so are the files and the
    ring buffer the logs are read from. *)

From S2P Require Import Prelude Helper CString Printf Inet Hook Hookopts Matcher Payload BfSet Rule Chain Sys Pack Serial Request Client.
From S2P Require Import Dump Log ToolOpts.
From Stdlib Require Import Ascii.

(** * Sources *)

(** A chain that is parsed has its options beside it, or none. *)
Record bfc_ruleset : Type := mk_ruleset {
  rs_chains : list bf_chain;
  rs_hookopts : list (option bf_hookopts);
  rs_sets : list bf_set
}.

Definition bfc_ruleset_default : bfc_ruleset := mk_ruleset [] [] [].

Definition _BF_LEX_MIN_BUF_POW : Z := 14.
Definition _BF_LEX_MAX_BUF_POW : Z := 20.

(** [__builtin_clzl] of a value that is not 0. *)
Definition clzl (z : Z) : Z := 63 - Z.log2 z.

Definition _bf_compute_lexer_buf_size (len : Z) : Z :=
  let val :=
    if len =? 0 then _BF_LEX_MIN_BUF_POW
    else Z.min (Z.max (64 - clzl len - 3) _BF_LEX_MIN_BUF_POW) _BF_LEX_MAX_BUF_POW in
  Z.shiftl 1 val.

(** The generated parser is given a text and the size of its buffer; it returns
    its status, and adds what it parsed to the ruleset. *)
Class Parser : Type := { yyparse : Z -> string -> bfc_ruleset -> Z * bfc_ruleset }.

(** [stat] and [fopen] fail with the value of [errno]. *)
Class Source : Type := {
  src_stat : string -> res Z;
  src_fopen : string -> res string
}.

Section Tool.
Context `{Parser} `{Source} `{Ifaces} `{Mpack} {S : Type} (peer : list (list Z) -> S -> res (list packet) * S).

Abbreviation M A := (st S A).

(** 1 is a syntax error, 2 the lack of memory. *)
Definition yyparse_status (p : Z * bfc_ruleset) : res bfc_ruleset :=
  if fst p =? 1 then Err (- EINVAL)
  else if fst p =? 2 then Err (- ENOMEM)
  else if fst p =? 0 then Ok (snd p) else Err (fst p).

Definition bfc_parse_file (file : string) (ruleset : bfc_ruleset) : res bfc_ruleset :=
  match src_stat file with
  | Err errno => Err (bf_err_r errno)
  | Ok size =>
      match src_fopen file with
      | Err errno => Err (bf_err_r errno)
      | Ok rules => yyparse_status (yyparse (_bf_compute_lexer_buf_size size) rules ruleset)
      end
  end.

Definition bfc_parse_str (str : string) (ruleset : bfc_ruleset) : res bfc_ruleset :=
  yyparse_status (yyparse (_bf_compute_lexer_buf_size (Z.of_nat (String.length str))) str ruleset).

(** A null pointer that would be read. *)
Definition deref {A} (p : option A) : res A := of_option (- BF_CRASH) p.

(** The two orders the source is looked for in: the string first for a chain,
    the file first for a ruleset. *)
Definition parse_chain_source (opts : bfc_opts) : res bfc_ruleset :=
  match o_from_str opts with
  | Some str => bfc_parse_str str bfc_ruleset_default
  | None => let! file := deref (o_from_file opts) in bfc_parse_file file bfc_ruleset_default
  end.

Definition parse_ruleset_source (opts : bfc_opts) : res bfc_ruleset :=
  match o_from_file opts with
  | Some file => bfc_parse_file file bfc_ruleset_default
  | None => let! str := deref (o_from_str opts) in bfc_parse_str str bfc_ruleset_default
  end.

(** The first chain of the name, with the options at its place. *)
Fixpoint find_named (name : option string) (chains : list bf_chain) (hookopts : list (option bf_hookopts)) :
    option (bf_chain * option bf_hookopts) :=
  match chains, hookopts with
  | chain :: chains, ho :: hookopts =>
      if bf_streq (Some (chain_name chain)) name then Some (chain, ho) else find_named name chains hookopts
  | _, _ => None
  end.

Definition _bfc_get_chain_from_ruleset (ruleset : bfc_ruleset) (name : option string) : res (bf_chain * option bf_hookopts) :=
  let n := length (rs_chains ruleset) in
  match rs_chains ruleset, name with
  | [], _ => Err (- ENOENT)
  | chain :: chains, None =>
      if (1 <? n)%nat then Err (- E2BIG)
      else let! ho := deref (head (rs_hookopts ruleset)) in Ok (chain, ho)
  | _, Some _ => of_option (- ENOENT) (find_named name (rs_chains ruleset) (rs_hookopts ruleset))
  end.

(** The chain a command is about, from its source. *)
Definition source_chain (opts : bfc_opts) : res (bf_chain * option bf_hookopts) :=
  let! ruleset := parse_chain_source opts in
  _bfc_get_chain_from_ruleset ruleset (o_name opts).

(** * Chains *)

(** What a command prints is its result. *)
Definition bfc_chain_set (opts : bfc_opts) : M string :=
  p ← st_lift (source_chain opts);
  bf_chain_set peer (fst p) (snd p) ;;
  mret EmptyString.

Definition bfc_chain_get (opts : bfc_opts) : M string :=
  name ← st_lift (deref (o_name opts));
  p ← bf_chain_get peer name;
  st_lift (bfc_chain_dump (fst (fst p)) (snd (fst p)) (snd p)).

(** The options are ignored. *)
Definition bfc_chain_load (opts : bfc_opts) : M string :=
  p ← st_lift (source_chain opts);
  bf_chain_load peer (fst p) ;;
  mret EmptyString.

Definition bfc_chain_attach (opts : bfc_opts) : M string :=
  name ← st_lift (deref (o_name opts));
  bf_chain_attach peer name (o_hookopts opts) ;;
  mret EmptyString.

Definition bfc_chain_update (opts : bfc_opts) : M string :=
  p ← st_lift (source_chain opts);
  bf_chain_update peer (fst p) ;;
  mret EmptyString.

Definition bfc_chain_flush (opts : bfc_opts) : M string :=
  name ← st_lift (deref (o_name opts));
  bf_chain_flush peer name ;;
  mret EmptyString.

(** ** Logs *)

Section Logs.
Variable can_print_color : bool.
Variable local_time : Z -> string.

(** The buffer of a descriptor, or none; each time it is polled, the logs that
    are there are handled, then the status is returned. *)
Variable ring_buffer__new : Z -> option (list (list bf_log * Z)).

Definition _bf_handle_rb_log (log : bf_log) : string := bfc_print_log can_print_color local_time log.

Definition EINTR : Z := 4.

(** The loop goes on until a poll fails, but for an interruption.  It is still
    waiting at the end of the polls that are known. *)
Fixpoint poll_logs (polls : list (list bf_log * Z)) (printed : string) : string * option Z :=
  match polls with
  | [] => (printed, None)
  | (logs, r) :: polls =>
      let printed := foldl (fun text log => text +s+ _bf_handle_rb_log log) printed logs in
      if r =? - EINTR then poll_logs polls printed
      else if r <? 0 then (printed, Some r)
      else poll_logs polls printed
  end.

Definition bfc_chain_logs (opts : bfc_opts) : M (string * option Z) :=
  name ← st_lift (deref (o_name opts));
  fd ← bf_chain_logs_fd peer name;
  polls ← st_lift (of_option (- EINVAL) (ring_buffer__new fd));
  mret (poll_logs polls EmptyString).
End Logs.

(** * Rulesets *)

Definition bfc_ruleset_clean (ruleset : bfc_ruleset) : bfc_ruleset := bfc_ruleset_default.

Definition bfc_ruleset_set (opts : bfc_opts) : M string :=
  ruleset ← st_lift (parse_ruleset_source opts);
  bf_ruleset_set peer (rs_chains ruleset) (rs_hookopts ruleset) ;;
  mret EmptyString.

(** Only a negative status is an error: with another one, the lists, which are
    empty, are printed. *)
Definition received_ruleset : M (list bf_chain * list (option bf_hookopts) * list (list bf_counter)) :=
  fun s =>
    match bf_ruleset_get peer s with
    | (Err e, s) => (if e <? 0 then Err e else Ok ([], [], []), s)
    | (Ok p, s) => (Ok p, s)
    end.

Definition bfc_ruleset_get (opts : bfc_opts) : M string :=
  p ← received_ruleset;
  st_lift (bfc_ruleset_dump (fst (fst p)) (snd (fst p)) (snd p)).

Definition bfc_ruleset_flush (opts : bfc_opts) : M string :=
  bf_ruleset_flush peer ;;
  mret EmptyString.

(** * The program *)

Definition run_cb (print_logs : bfc_opts -> M string) (cb : bfc_cb) : bfc_opts -> M string :=
  match cb with
  | CB_ruleset_set => bfc_ruleset_set
  | CB_ruleset_get => bfc_ruleset_get
  | CB_ruleset_flush => bfc_ruleset_flush
  | CB_chain_set => bfc_chain_set
  | CB_chain_get => bfc_chain_get
  | CB_chain_logs => print_logs
  | CB_chain_load => bfc_chain_load
  | CB_chain_attach => bfc_chain_attach
  | CB_chain_update => bfc_chain_update
  | CB_chain_flush => bfc_chain_flush
  end.

(** [print_logs] is [bfc_chain_logs], for as long as it runs. *)
Definition main `{Argp} (print_logs : bfc_opts -> M string) (argv : list string) : M string :=
  opts ← st_lift (bfc_opts_parse argv bfc_opts_default);
  cmd ← st_lift (deref (o_cmd opts));
  run_cb print_logs (cmd_cb cmd) opts.
End Tool.
