(* ===== verification/ToolSpec.v ===== *)
(** What the command line promises to the commands: a command that runs has the
    options it reads, and no other; and what a chain that is printed shows. *)

From S2P Require Import Prelude Bytes Helper CString Printf Inet Hook Hookopts Matcher Payload PayloadSpec BfSet Rule Chain Sys Pack Serial Request Client.
From S2P Require Import Dump RawSetSpec Log ToolOpts Tool.
From Stdlib Require Import Ascii.

(** * Flags of options *)

Lemma has_opt_testbit flags id : has_opt flags id = Z.testbit flags (option_to_Z id).
Proof.
  unfold has_opt, BF_FLAG. assert (0 <= option_to_Z id) as Hid by by destruct id.
  destruct (Z.testbit flags (option_to_Z id)) eqn:E.
  - apply negb_true_iff, Z.eqb_neq. intros H0. apply (f_equal (fun z => Z.testbit z (option_to_Z id))) in H0.
    rewrite Z.land_spec, E, Z.shiftl_spec, Z.sub_diag, Z.bits_0 in H0 by done. done.
  - apply negb_false_iff, Z.eqb_eq, Z.bits_inj'. intros n Hn. rewrite Z.bits_0, Z.land_spec.
    destruct (decide (n = option_to_Z id)) as [->|Hne]; [by rewrite E|]. apply andb_false_iff. right.
    rewrite Z.shiftl_spec by done. destruct (Z.ltb_spec n (option_to_Z id)); [by apply Z.testbit_neg_r; lia|].
    change 1 with (2 ^ 0). apply Z.pow2_bits_false. lia.
Qed.

Lemma has_opt_set flags id id' : has_opt (Z.lor flags (BF_FLAG (option_to_Z id))) id' = has_opt flags id' || bool_decide (id = id').
Proof.
  rewrite !has_opt_testbit, Z.lor_spec. f_equal. unfold BF_FLAG. rewrite Z.shiftl_spec by by destruct id'. by destruct id, id'.
Qed.

Lemma has_opt_0 id : has_opt 0 id = false.
Proof. by destruct id. Qed.

(** * What the options of a command say of its fields *)

Definition source_opts_str : list bfc_opts_option_id := [BFC_OPT_RULESET_FROM_STR; BFC_OPT_CHAIN_FROM_STR].
Definition source_opts_file : list bfc_opts_option_id := [BFC_OPT_RULESET_FROM_FILE; BFC_OPT_CHAIN_FROM_FILE].

Definition any_set (flags : Z) (ids : list bfc_opts_option_id) : bool := existsb (has_opt flags) ids.

(** A field is given exactly when one of its options is. *)
Record fields_ok (cmd : bfc_opts_cmd) (o : bfc_opts) : Prop := mk_fields_ok {
  fields_cmd : o_cmd o = Some cmd;
  fields_object : o_object o = Some (cmd_object cmd);
  fields_action : o_action o = Some (cmd_action cmd);
  fields_valid : forall id, has_opt (o_set_opts o) id = true -> has_opt (cmd_valid_opts cmd) id = true;
  fields_str : bool_decide (is_Some (o_from_str o)) = any_set (o_set_opts o) source_opts_str;
  fields_file : bool_decide (is_Some (o_from_file o)) = any_set (o_set_opts o) source_opts_file;
  fields_name : bool_decide (is_Some (o_name o)) = has_opt (o_set_opts o) BFC_OPT_CHAIN_NAME;
  fields_name_text : o_name o <> Some EmptyString;
  fields_hookopts : has_opt (o_set_opts o) BFC_OPT_CHAIN_HOOK_OPTS = false -> o_hookopts o = bf_hookopts_new
}.

Lemma opt_of_key_valid cmd key id : opt_of_key cmd key = Some id -> has_opt (cmd_valid_opts cmd) id = true.
Proof. intros [_ [Hv _]%andb_true_iff]%find_some. done. Qed.

Lemma is_Some_true {A} (x : A) : bool_decide (is_Some (Some x)) = true.
Proof. by apply bool_decide_eq_true. Qed.

(** An option of the command sets its field. *)
Lemma cmd_parser_fields cmd key arg opts last opts' : fields_ok cmd opts ->
  _bfc_opts_cmd_parser cmd (ARGP_KEY_OPT key arg) opts = ARGP_OK last opts' -> fields_ok cmd opts' /\ last = false.
Proof.
  intros Hf. cbn [_bfc_opts_cmd_parser]. destruct (opt_of_key cmd key) as [id|] eqn:E; [|done]. apply opt_of_key_valid in E.
  destruct (opt_run _ _ _) as [l o| |] eqn:Er; try done. intros [= <- <-].
  assert (forall id', has_opt (Z.lor (o_set_opts opts) (BF_FLAG (option_to_Z id))) id' = true -> has_opt (cmd_valid_opts cmd) id' = true) as Hvalid.
  { intros id'. rewrite has_opt_set. intros [Hs|<-%bool_decide_eq_true]%orb_true_iff; [by apply Hf|done]. }
  destruct Hf as [Hc Ho Ha Hv Hstr Hfile Hn Hnt Hh].
  destruct id; cbn in Er; unfold _bfc_opts_from_str_cb, _bfc_opts_from_file_cb, _bfc_opts_chain_name_cb, _bfc_opts_chain_hook_opts_cb in Er;
    repeat case_match; simplify_eq; (split; [|done]); constructor; cbn [with_set_opts with_from_str with_from_file with_opt_name with_opt_hookopts
      o_cmd o_object o_action o_set_opts o_from_str o_from_file o_name o_hookopts] in *; try done; try (by intros [= ->]);
    unfold any_set, source_opts_str, source_opts_file in *; cbn [existsb] in *; rewrite ?has_opt_set, ?Hstr, ?Hfile, ?Hn, ?is_Some_true;
    repeat (rewrite bool_decide_false by done); repeat (rewrite bool_decide_true by done); rewrite ?orb_true_r, ?orb_false_r; try done.
Qed.

Lemma cmd_calls_fields cmd keys opts opts' : fields_ok cmd opts -> argp_calls (_bfc_opts_cmd_parser cmd) keys opts = Ok opts' ->
  fields_ok cmd opts' /\ argp_end (_bfc_opts_cmd_parser cmd) opts' = Ok opts'.
Proof.
  assert (forall opts, fields_ok cmd opts -> argp_end (_bfc_opts_cmd_parser cmd) opts = Ok opts' ->
    fields_ok cmd opts' /\ argp_end (_bfc_opts_cmd_parser cmd) opts' = Ok opts') as Hend.
  { intros o Hf. unfold argp_end. destruct (_bfc_opts_cmd_parser cmd ARGP_KEY_END o) as [l o'| |] eqn:E; try done.
    - cbn [_bfc_opts_cmd_parser] in E. destruct (List.filter _ _) eqn:E1; [|done]. destruct (opt_conflicts _) as [|[]] eqn:E2; [|done].
      simplify_eq. intros [= <-]. split; [done|]. cbn [_bfc_opts_cmd_parser]. by rewrite E1, E2.
    - cbn [_bfc_opts_cmd_parser] in E. destruct (List.filter _ _); [|done]. by destruct (opt_conflicts _) as [|[]]. }
  revert opts. induction keys as [|key keys IH]; intros opts Hf; cbn [argp_calls]; [by apply Hend|].
  destruct (_bfc_opts_cmd_parser cmd key opts) as [l o| |] eqn:E; try done.
  destruct key as [n arg|c arg|]; [done| |].
  - apply cmd_parser_fields in E as [Hf' ->]; [|done]. by apply IH.
  - cbn [_bfc_opts_cmd_parser] in E. destruct (List.filter _ _); [|done]. destruct (opt_conflicts _) as [|[]]; [|done]. injection E as <- <-. by apply IH.
Qed.

(** * What a command is given *)

(** One of the two sources, and only one. *)
Definition one_source (o : bfc_opts) : Prop :=
  match o_from_str o, o_from_file o with Some _, None | None, Some _ => True | _, _ => False end.

Definition no_source (o : bfc_opts) : Prop := o_from_str o = None /\ o_from_file o = None.

Definition has_name (o : bfc_opts) : Prop := exists name, o_name o = Some name /\ name <> EmptyString.

(** What the functions of the commands read of the options. *)
Definition cb_reads (cb : bfc_cb) (o : bfc_opts) : Prop :=
  match cb with
  | CB_ruleset_set => one_source o /\ o_name o = None /\ o_hookopts o = bf_hookopts_new
  | CB_ruleset_get | CB_ruleset_flush => no_source o /\ o_name o = None /\ o_hookopts o = bf_hookopts_new
  | CB_chain_set | CB_chain_load | CB_chain_update => one_source o /\ o_name o <> Some EmptyString /\ o_hookopts o = bf_hookopts_new
  | CB_chain_get | CB_chain_logs | CB_chain_flush => no_source o /\ has_name o /\ o_hookopts o = bf_hookopts_new
  | CB_chain_attach => no_source o /\ has_name o
  end.

Lemma any_set_none {A} (x : option A) b : bool_decide (is_Some x) = b -> b = false -> x = None.
Proof. intros <- Hb%bool_decide_eq_false. by apply eq_None_not_Some. Qed.

Lemma end_checked cmd opts opts' : argp_end (_bfc_opts_cmd_parser cmd) opts = Ok opts' ->
  Forall (fun id => opt_missing cmd (o_set_opts opts) id = false) option_vals /\ opt_conflicts (o_set_opts opts) = [].
Proof.
  unfold argp_end. cbn [_bfc_opts_cmd_parser]. destruct (List.filter _ _) eqn:E1; [|done]. destruct (opt_conflicts _) as [|[]]; [|done].
  intros _. split; [|done]. apply Forall_forall. intros id Hid%list_elem_of_In. destruct (opt_missing cmd (o_set_opts opts) id) eqn:Em; [|done].
  assert (In id (List.filter (opt_missing cmd (o_set_opts opts)) option_vals)) as Hin by (by apply filter_In). by rewrite E1 in Hin.
Qed.

(** The bits of the options that are set. *)
Definition set_bits (flags : Z) : list bool := has_opt flags <$> option_vals.

Lemma has_opt_land flags ids : (Z.land flags (opt_flags ids) =? 0) = forallb (fun id => negb (has_opt flags id)) ids.
Proof.
  unfold opt_flags. induction ids as [|id ids IH]; cbn [fmap list_fmap BF_FLAGS foldr forallb]; [by rewrite Z.land_0_r|].
  rewrite Z.land_lor_distr_r. unfold BF_FLAGS in IH. rewrite <- IH. unfold has_opt. rewrite negb_involutive.
  apply eq_bool_prop_intro. rewrite andb_True, !Is_true_true, !Z.eqb_eq. apply Z.lor_eq_0_iff.
Qed.

(** At the end, one source is set and not the other. *)
Lemma sources_checked cmd flags (a b : bfc_opts_option_id) :
  Forall (fun id => opt_missing cmd flags id = false) option_vals -> opt_conflicts flags = [] ->
  has_opt (cmd_required_opts cmd) a = true ->
  opt_rejects (_bfc_options a) = opt_flags [b] -> has_opt flags a = negb (has_opt flags b).
Proof.
  intros Hm Hc Ha Er.
  assert (forall id, id ∈ option_vals) as Hall by (intros id; apply list_elem_of_In; destruct id; cbn; tauto).
  rewrite Forall_forall in Hm. pose proof (Hm a (Hall a)) as Hma. unfold opt_missing in Hma. rewrite Ha, Er, has_opt_land in Hma.
  cbn [forallb] in Hma. rewrite andb_true_r in Hma.
  destruct (has_opt flags a) eqn:Ea, (has_opt flags b) eqn:Eb; try done.
  assert ((a, b) ∈ opt_conflicts flags) as Hin; [|rewrite Hc in Hin; by apply not_elem_of_nil in Hin].
  unfold opt_conflicts. apply list_elem_of_bind. exists a. split; [|apply Hall]. rewrite Ea. cbn [negb].
  apply list_elem_of_bind. exists b. split; [|apply Hall]. rewrite Er, Eb.
  assert (has_opt (opt_flags [b]) b = true) as -> by by destruct b. cbn. by left.
Qed.

(** An option that the command does not have is not set. *)
Lemma not_valid cmd o id : fields_ok cmd o -> has_opt (cmd_valid_opts cmd) id = false -> has_opt (o_set_opts o) id = false.
Proof. intros Hf Hv. destruct (has_opt (o_set_opts o) id) eqn:E; [|done]. apply (fields_valid _ _ Hf) in E. congruence. Qed.

Lemma source_str cmd o : fields_ok cmd o -> any_set (o_set_opts o) source_opts_str = false -> o_from_str o = None.
Proof. intros Hf. by apply any_set_none, Hf. Qed.

Lemma source_file cmd o : fields_ok cmd o -> any_set (o_set_opts o) source_opts_file = false -> o_from_file o = None.
Proof. intros Hf. by apply any_set_none, Hf. Qed.

(** One of the two fields, when exactly one has an option. *)
Lemma one_of_two cmd o : fields_ok cmd o ->
  any_set (o_set_opts o) source_opts_str = negb (any_set (o_set_opts o) source_opts_file) -> one_source o.
Proof.
  intros Hf E. unfold one_source. pose proof (fields_str _ _ Hf) as Hs. pose proof (fields_file _ _ Hf) as Hfl.
  rewrite E in Hs. destruct (any_set _ source_opts_file); cbn [negb] in Hs.
  - apply bool_decide_eq_false in Hs. apply bool_decide_eq_true in Hfl. apply eq_None_not_Some in Hs as ->. by destruct Hfl as [? ->].
  - apply bool_decide_eq_true in Hs. apply bool_decide_eq_false in Hfl. apply eq_None_not_Some in Hfl as ->. by destruct Hs as [? ->].
Qed.

Lemma no_name cmd o : fields_ok cmd o -> has_opt (o_set_opts o) BFC_OPT_CHAIN_NAME = false -> o_name o = None.
Proof. intros Hf. by apply any_set_none, Hf. Qed.

(** A name that is required is there. *)
Lemma name_there cmd o : fields_ok cmd o -> Forall (fun id => opt_missing cmd (o_set_opts o) id = false) option_vals ->
  has_opt (cmd_required_opts cmd) BFC_OPT_CHAIN_NAME = true -> has_name o.
Proof.
  intros Hf Hm Hr. rewrite Forall_forall in Hm.
  pose proof (Hm BFC_OPT_CHAIN_NAME ltac:(apply list_elem_of_In; cbn; tauto)) as Hn. unfold opt_missing in Hn. rewrite Hr in Hn.
  cbn [_bfc_options opt_rejects] in Hn. rewrite Z.land_0_r in Hn. cbn [Z.eqb] in Hn. rewrite andb_true_r in Hn. cbn [andb] in Hn.
  apply negb_false_iff in Hn. pose proof (fields_name _ _ Hf) as He. rewrite Hn in He. apply bool_decide_eq_true in He as [name Ename].
  exists name. split; [done|]. intros ->. by apply (fields_name_text _ _ Hf).
Qed.

Ltac not_given H :=
  unfold any_set, source_opts_str, source_opts_file; cbn [existsb];
  repeat (rewrite (not_valid _ _ _ H) by reflexivity); reflexivity.

Lemma cmd_reads cmd o : In cmd _bfc_opts_cmds -> fields_ok cmd o -> argp_end (_bfc_opts_cmd_parser cmd) o = Ok o -> cb_reads (cmd_cb cmd) o.
Proof.
  intros Hin Hf He. destruct (end_checked _ _ _ He) as [Hm Hc].
  assert (forall a b, has_opt (cmd_required_opts cmd) a = true -> opt_rejects (_bfc_options a) = opt_flags [b] ->
    has_opt (o_set_opts o) a = negb (has_opt (o_set_opts o) b)) as Hsrc by (intros a b; by apply sources_checked).
  assert (has_opt (cmd_valid_opts cmd) BFC_OPT_CHAIN_HOOK_OPTS = false -> o_hookopts o = bf_hookopts_new) as Hho.
  { intros Hv. apply (fields_hookopts _ _ Hf). by apply (not_valid _ _ _ Hf). }
  assert (has_opt (cmd_required_opts cmd) BFC_OPT_RULESET_FROM_STR = true -> has_opt (cmd_valid_opts cmd) BFC_OPT_CHAIN_FROM_STR = false ->
    has_opt (cmd_valid_opts cmd) BFC_OPT_CHAIN_FROM_FILE = false -> one_source o) as Hrs.
  { intros Hr Hv1 Hv2. eapply one_of_two; [exact Hf|]. unfold any_set, source_opts_str, source_opts_file. cbn [existsb].
    rewrite (not_valid _ _ _ Hf Hv1), (not_valid _ _ _ Hf Hv2), !orb_false_r. by apply Hsrc. }
  assert (has_opt (cmd_required_opts cmd) BFC_OPT_CHAIN_FROM_STR = true -> has_opt (cmd_valid_opts cmd) BFC_OPT_RULESET_FROM_STR = false ->
    has_opt (cmd_valid_opts cmd) BFC_OPT_RULESET_FROM_FILE = false -> one_source o) as Hcs.
  { intros Hr Hv1 Hv2. eapply one_of_two; [exact Hf|]. unfold any_set, source_opts_str, source_opts_file. cbn [existsb].
    rewrite (not_valid _ _ _ Hf Hv1), (not_valid _ _ _ Hf Hv2), !orb_false_r. cbn [orb]. by apply Hsrc. }
  pose proof (fields_name_text _ _ Hf) as Hnt. pose proof (name_there _ _ Hf Hm) as Hname.
  unfold _bfc_opts_cmds in Hin. repeat (destruct Hin as [<-|Hin]; [|]); [..|done]; cbn [cmd_cb cb_reads];
    repeat split; try done; try (by apply Hrs); try (by apply Hcs); try (by apply Hho); try (by apply Hname);
    first [ eapply source_str; [exact Hf|not_given Hf] | eapply source_file; [exact Hf|not_given Hf]
          | eapply no_name; [exact Hf|by apply (not_valid _ _ _ Hf)] ].
Qed.

(** * The object and the action *)

Lemma get_cmd_in object action cmd : _bfc_opts_get_cmd object action = Some cmd ->
  In cmd _bfc_opts_cmds /\ cmd_object cmd = object /\ cmd_action cmd = action.
Proof.
  intros [Hin [Ho%bool_decide_eq_true Ha%bool_decide_eq_true]%andb_true_iff]%find_some. done.
Qed.

Lemma first_fields cmd object action : cmd_object cmd = object -> cmd_action cmd = action ->
  fields_ok cmd (with_action action cmd (with_object object bfc_opts_default)).
Proof. intros <- <-. constructor; try done. Qed.

Lemma first_calls_object object keys o : numbered 1 keys -> argp_calls _bfc_opts_parser keys (with_object object bfc_opts_default) = Ok o ->
  exists cmd, In cmd _bfc_opts_cmds /\ fields_ok cmd o.
Proof.
  destruct keys as [|[n arg|c arg|] keys]; cbn [numbered argp_calls]; try done. intros [-> _].
  cbn [_bfc_opts_parser]. destruct (bfc_action_from_str arg) as [action|]; [|done]. cbn [with_object o_object].
  destruct (_bfc_opts_get_cmd object action) as [cmd|] eqn:E; [|done]. apply get_cmd_in in E as (Hin & Ho & Ha). cbn. intros [= <-].
  exists cmd. split; [done|]. by apply first_fields.
Qed.

Lemma first_calls keys o : numbered 0 keys -> argp_calls _bfc_opts_parser keys bfc_opts_default = Ok o ->
  exists cmd, In cmd _bfc_opts_cmds /\ fields_ok cmd o.
Proof.
  destruct keys as [|[n arg|c arg|] keys]; cbn [numbered argp_calls]; try done. intros [-> Hn].
  cbn [_bfc_opts_parser]. destruct (bfc_object_from_str arg) as [object|]; [|done]. by apply first_calls_object.
Qed.

Lemma command_ready `{ArgpSpec} argv o : bfc_opts_parse argv bfc_opts_default = Ok o ->
  exists cmd, In cmd _bfc_opts_cmds /\ o_cmd o = Some cmd /\ o_object o = Some (cmd_object cmd) /\ o_action o = Some (cmd_action cmd) /\
    cb_reads (cmd_cb cmd) o.
Proof.
  unfold bfc_opts_parse. destruct (argp_runs _bfc_opts_parser [] (drop 1 argv)) as (keys & Hn & E). rewrite E.
  destruct (argp_calls _ keys _) as [o1|] eqn:E1; cbn [rbind]; [|done]. apply first_calls in E1 as (cmd & Hin & Hf); [|done].
  rewrite (fields_cmd _ _ Hf). destruct (argp_runs (_bfc_opts_cmd_parser cmd) (suboptions cmd) (drop 3 argv)) as (keys2 & _ & E2). rewrite E2.
  intros Hc. apply cmd_calls_fields in Hc as [Hf' He]; [|done]. exists cmd. split; [done|]. split; [apply Hf'|]. split; [apply Hf'|].
  split; [apply Hf'|]. by apply cmd_reads.
Qed.

(** * The buffer of the parser *)

Lemma lexer_buf_range len : 2 ^ 14 <= _bf_compute_lexer_buf_size len <= 2 ^ 20.
Proof.
  unfold _bf_compute_lexer_buf_size, _BF_LEX_MIN_BUF_POW, _BF_LEX_MAX_BUF_POW. set (val := if len =? 0 then 14 else _).
  assert (14 <= val <= 20) as Hv by (subst val; destruct (len =? 0); lia).
  rewrite Z.shiftl_1_l. split; apply Z.pow_le_mono_r; lia.
Qed.

(** * What is shown of a chain *)

(** Texts one after the other. *)
Abbreviation joined := (foldr String.append EmptyString).

Lemma print_each_texts {A} (print : A -> res string) l text : print_each print l = Ok text ->
  exists texts, Forall2 (fun a t => print a = Ok t) l texts /\ text = joined texts.
Proof.
  revert text. induction l as [|a l IH]; intros text; cbn [print_each]; [intros <-%Ok_inj; by exists []|].
  destruct (print a) as [t|] eqn:Ea; cbn [rbind]; [|done]. destruct (print_each print l) as [ts|]; cbn [rbind]; [|done].
  intros <-%Ok_inj. destruct (IH ts eq_refl) as (texts & H2 & ->). exists (t :: texts). split; [by constructor|done].
Qed.

(** The options that are used, by name; the priorities are shown when the family
    is. *)
Definition opts_shown (ho : bf_hookopts) : list string :=
  let used t := bf_hookopts_is_used ho t in
  (if used BF_HOOKOPTS_IFINDEX then ["ifindex=" +s+ fmt_d (ho_ifindex ho)] else []) ++
  (if used BF_HOOKOPTS_CGPATH then ["cgpath=" +s+ default "(null)" (ho_cgpath ho)] else []) ++
  (if used BF_HOOKOPTS_FAMILY
   then ["family=" +s+ (if ho_family ho =? PF_INET then "inet4" else "inet6");
         "priorities=" +s+ fmt_d (ho_priority0 ho) +s+ "-" +s+ fmt_d (ho_priority1 ho)] else []).

Lemma hookopts_text_shown ho : hookopts_text ho = "{" +s+ String.concat "," (opts_shown ho) +s+ "}".
Proof.
  unfold hookopts_text, opts_shown. cbn [print_opts].
  destruct (bf_hookopts_is_used ho BF_HOOKOPTS_IFINDEX), (bf_hookopts_is_used ho BF_HOOKOPTS_CGPATH),
    (bf_hookopts_is_used ho BF_HOOKOPTS_FAMILY); cbn [app String.concat]; rewrite ?append_nil, ?append_assoc; reflexivity.
Qed.

Section Shown.
Context `{Ifaces}.

(** The key and the elements of a set are read back into the set; a set without
    elements is two braces. *)
Record set_shown (set : bf_set) (key elems : string) : Prop := mk_set_shown {
  ss_key : key = "(" +s+ String.concat ", " (bf_matcher_type_to_str <$> set_key set) +s+ ")";
  ss_elems : set_elems set <> [] -> forall heap, bf_set_new_from_raw heap (set_name set) key elems =
    Ok (mk_set (set_name set) (set_key set) (refilled heap (set_key set) 0 (set_elems set)) (set_elem_size set) (set_use_trie set));
  ss_none : set_elems set = [] -> exists indent, elems = "{" +s+ nl +s+ indent +s+ "}"
}.

Definition named_set_shown (set : bf_set) (text : string) : Prop := exists name key elems,
  set_name set = Some name /\ set_shown set key elems /\ text = "    set " +s+ name +s+ " " +s+ key +s+ " in " +s+ elems +s+ nl.

(** A matcher of a set is the key of the set with its name, or its elements; of
    another matcher, the names and the payload are read back into it. *)
Definition matcher_shown (c : bf_chain) (m : bf_matcher) (text : string) : Prop :=
  if decide (matcher_type m = BF_MATCHER_SET) then
    exists set key elems, bf_chain_get_set_for_matcher c m = Some set /\ set_shown set key elems /\
      text = "        " +s+ key +s+ " in " +s+ default elems (set_name set) +s+ nl
  else
    exists type op payload ops, bf_matcher_type_from_str type = Ok (matcher_type m) /\
      bf_matcher_op_from_str op = Ok (matcher_op m) /\ bf_matcher_get_ops (matcher_type m) (matcher_op m) = Some ops /\
      (forall memory, (Z.to_nat (ref_payload_size ops) <= length memory)%nat ->
         bf_matcher_new_from_raw memory (matcher_type m) (matcher_op m) payload =
         Ok (mk_matcher (matcher_type m) (matcher_op m)
               (take (written (ops_parse ops)) (matcher_payload m) ++
                drop (written (ops_parse ops)) (take (Z.to_nat (ref_payload_size ops)) memory)))) /\
      text = "        " +s+ type +s+ " " +s+ op +s+ " " +s+ payload +s+ nl.

(** The headers that a rule logs. *)
Definition log_shown (rule : bf_rule) : string :=
  if rule_log rule =? 0 then EmptyString
  else "        log " +s+
    String.concat "," (omap bf_pkthdr_to_str (filter (fun hdr => Z.testbit (rule_log rule) (bf_pkthdr_to_Z hdr) = true) bf_pkthdr_vals)) +s+ nl.

Definition mark_shown (rule : bf_rule) : string :=
  if bf_rule_mark_is_set rule then "        mark 0x" +s+ number 16 (bf_rule_mark_get rule) +s+ nl else EmptyString.

(** The rule that has the counter [counter]. *)
Definition rule_shown (c : bf_chain) (rule : bf_rule) (counter : bf_counter) (text : string) : Prop :=
  exists matchers verdict, Forall2 (matcher_shown c) (rule_matchers rule) matchers /\
    bf_verdict_from_str verdict = Ok (rule_verdict rule) /\
    text = "    rule" +s+ nl +s+ joined matchers +s+ log_shown rule +s+ mark_shown rule +s+
      (if rule_counters rule then "        counters " +s+ counter_text counter +s+ nl else EmptyString) +s+
      "        " +s+ verdict +s+ nl.

(** The chain, with its options and its counters: those of its rules in their
    order, the one of the policy and the one of the errors. *)
Definition chain_shown (c : bf_chain) (ho : option bf_hookopts) (cs : list bf_counter) (text : string) : Prop :=
  exists hook policy counters policy_counter err_counter sets rules,
    bf_hook_from_str hook = chain_hook c /\ bf_verdict_from_str policy = Ok (chain_policy c) /\
    cs = counters ++ [policy_counter; err_counter] /\
    Forall2 named_set_shown (filter (fun set => is_Some (set_name set)) (chain_sets c)) sets /\
    Forall3 (rule_shown c) (chain_rules c) counters rules /\
    text = "chain " +s+ chain_name c +s+ " " +s+ hook +s+
      match ho with Some ho => "{" +s+ String.concat "," (opts_shown ho) +s+ "}" | None => EmptyString end +s+
      " " +s+ policy +s+ nl +s+
      "    counters policy " +s+ counter_text policy_counter +s+ "; error " +s+ counter_text err_counter +s+ nl +s+
      joined sets +s+ joined rules.

(** ** What a chain needs to be shown *)

(** The set of a matcher is there; another matcher is one that its text can be
    read back to. *)
Definition matcher_printable (c : bf_chain) (m : bf_matcher) : Prop :=
  if decide (matcher_type m = BF_MATCHER_SET)
  then (4 <= length (matcher_payload m))%nat /\ is_Some (bf_chain_get_set_for_matcher c m)
  else exists ops, matcher_text_ok m ops.

Record rule_printable (c : bf_chain) (r : bf_rule) : Prop := mk_rule_printable {
  rp_verdict : is_Some (bf_verdict_to_str (rule_verdict r));
  rp_log : 0 <= rule_log r < 2 ^ 3;
  rp_matchers : Forall (matcher_printable c) (rule_matchers r)
}.

Record chain_printable (c : bf_chain) : Prop := mk_chain_printable {
  cp_hook : is_Some (bf_hook_to_str (chain_hook c));
  cp_policy : is_Some (bf_verdict_to_str (chain_policy c));
  cp_sets : Forall set_wf (chain_sets c);
  cp_elems : Forall (fun set => Forall (elem_of_key (set_key set)) (set_elems set)) (chain_sets c);
  cp_rules : Forall (rule_printable c) (chain_rules c)
}.

Lemma verdict_shown v : is_Some (bf_verdict_to_str v) -> exists s, bf_verdict_to_str v = Some s /\ bf_verdict_from_str s = Ok v.
Proof. intros [s E]. exists s. split; [done|]. destruct v; try discriminate E; by injection E as <-. Qed.

Lemma hook_shown h : is_Some (bf_hook_to_str h) -> exists s, bf_hook_to_str h = Some s /\ bf_hook_from_str s = h.
Proof. intros [s E]. exists s. split; [done|]. destruct h; try discriminate E; by injection E as <-. Qed.

Lemma print_key_concat key : print_key key = String.concat ", " (bf_matcher_type_to_str <$> key).
Proof.
  induction key as [|t key IH]; [done|]. cbn [print_key fmap list_fmap]. rewrite IH. destruct key as [|t' key]; [|done].
  cbn. by rewrite append_nil.
Qed.

Lemma set_is_shown indent close set : set_wf set -> Forall (elem_of_key (set_key set)) (set_elems set) ->
  indentation indent = true -> indentation close = true -> exists elems,
  print_elems indent close set = Ok elems /\ set_shown set ("(" +s+ print_key (set_key set) +s+ ")") elems.
Proof.
  intros Hwf He Hi Hc. destruct (print_lines_ok indent set Hwf) as [texts Et].
  assert (print_elems indent close set = Ok ("{" +s+ nl +s+ texts +s+ close +s+ "}")) as Ep by (unfold print_elems; by rewrite Et).
  eexists. split; [exact Ep|]. constructor.
  - by rewrite print_key_concat.
  - intros Hn heap. by apply (set_read_back heap set indent close).
  - intros Hn. rewrite Hn in Et. apply Ok_inj in Et as <-. by exists close.
Qed.

Lemma named_sets_shown sets texts : Forall set_wf sets -> Forall (fun set => Forall (elem_of_key (set_key set)) (set_elems set)) sets ->
  Forall2 (fun set t => print_named_set set = Ok t) sets texts ->
  exists named, Forall2 named_set_shown (filter (fun set => is_Some (set_name set)) sets) named /\ joined texts = joined named.
Proof.
  intros Hw He Ht. induction Ht as [|set t sets texts Et _ IH]; [by exists []|].
  apply Forall_cons in Hw as [Hw Hws], He as [He Hes]. destruct (IH Hws Hes) as (named & H2 & E).
  destruct (set_is_shown "        " "    " set Hw He eq_refl eq_refl) as (elems & Ep & Hs).
  unfold print_named_set in Et. destruct (set_name set) as [name|] eqn:En.
  - rewrite Ep in Et. apply Ok_inj in Et as <-. rewrite filter_cons_True by (by rewrite En).
    eexists (_ :: named). split; [constructor; [|exact H2]|cbn [foldr]; by rewrite E].
    exists name, ("(" +s+ print_key (set_key set) +s+ ")"), elems. split_and!; [done|done|]. by rewrite !append_assoc.
  - apply Ok_inj in Et as <-. rewrite filter_cons_False by (rewrite En; by intros [? ?]). exists named. by split.
Qed.

Lemma matcher_is_shown c m : Forall set_wf (chain_sets c) ->
  Forall (fun set => Forall (elem_of_key (set_key set)) (set_elems set)) (chain_sets c) ->
  matcher_printable c m -> exists text, print_matcher c m = Ok text /\ matcher_shown c m text.
Proof.
  intros Hw He. unfold matcher_printable, matcher_shown, print_matcher, bf_matcher_get_type, bf_matcher_get_op.
  destruct (decide (matcher_type m = BF_MATCHER_SET)) as [Ht|Ht].
  - intros [Hl [set Es]]. unfold print_set_matcher, payload_has. rewrite (proj2 (Nat.leb_le _ _) Hl), Es. cbn [rbind].
    assert (chain_sets c !! Z.to_nat (payload_u32 m) = Some set) as Ei
      by (unfold bf_chain_get_set_for_matcher in Es; by rewrite decide_True in Es).
    destruct (set_is_shown "            " "        " set (Forall_lookup_1 _ _ _ _ Hw Ei) (Forall_lookup_1 _ _ _ _ He Ei) eq_refl eq_refl)
      as (elems & Ep & Hs).
    rewrite Ep. exists ("        " +s+ ("(" +s+ print_key (set_key set) +s+ ")") +s+ " in " +s+ default elems (set_name set) +s+ nl).
    split; [|by exists set, ("(" +s+ print_key (set_key set) +s+ ")"), elems].
    destruct (set_name set); cbn [rbind default]; by rewrite !append_assoc.
  - intros [ops Hok]. pose proof Hok as [Eo _ Hs _ _]. pose proof (written_fits _ _ _ Eo) as Hwr. unfold payload_has.
    destruct (bf_matcher_op_to_str (matcher_op m)) as [op|] eqn:Eop; [|by destruct m as [[] [] pl]].
    rewrite Eo, (proj2 (Nat.leb_le _ _)) by lia. cbn [rbind of_option name_of]. eexists. split; [by rewrite !append_assoc|].
    exists (bf_matcher_type_to_str (matcher_type m)), op, (print_with (ops_parse ops) (matcher_payload m)), ops.
    split; [by destruct m as [[] mop pl]|]. split; [by destruct m as [[] [] pl]; try done; injection Eop as <-|].
    split; [done|]. split; [intros memory Hm; by apply matcher_read_back|done].
Qed.

Lemma log_is_shown r : 0 <= rule_log r < 2 ^ 3 ->
  (if rule_log r =? 0 then EmptyString else "        log " +s+ print_log_headers bf_pkthdr_vals (rule_log r)) = log_shown r.
Proof.
  intros Hl. unfold log_shown. generalize dependent (rule_log r). intros z Hz. clear r.
  assert (z = 0 \/ z = 1 \/ z = 2 \/ z = 3 \/ z = 4 \/ z = 5 \/ z = 6 \/ z = 7) as Hc by lia.
  by repeat destruct Hc as [->|Hc]; try subst z.
Qed.

Lemma matchers_shown c ms : Forall (fun m => exists text, print_matcher c m = Ok text /\ matcher_shown c m text) ms ->
  exists texts, print_each (print_matcher c) ms = Ok (joined texts) /\ Forall2 (matcher_shown c) ms texts.
Proof.
  induction 1 as [|m ms (t & Et & Hs) _ (ts & E & H2)]; [by exists []|]. exists (t :: ts). split; [|by constructor].
  cbn [print_each]. by rewrite Et, E.
Qed.

Lemma rule_is_shown c r counter : Forall set_wf (chain_sets c) ->
  Forall (fun set => Forall (elem_of_key (set_key set)) (set_elems set)) (chain_sets c) ->
  rule_printable c r -> exists text, print_rule c r (Some counter) = Ok text /\ rule_shown c r counter text.
Proof.
  intros Hw He [Hv Hl Hm]. unfold print_rule. destruct (matchers_shown c (rule_matchers r)) as (texts & -> & H2).
  { eapply Forall_impl; [exact Hm|]. intros m. by apply matcher_is_shown. }
  destruct (verdict_shown _ Hv) as (v & Ev & Hback). rewrite Ev. cbn [rbind of_option name_of]. rewrite log_is_shown by done.
  destruct (rule_counters r) eqn:Ec; cbn [rbind]; (eexists; split; [done|]; exists texts, v; split; [done|]; split; [done|]; by rewrite Ec).
Qed.

Lemma rules_shown c rules counters rest : Forall set_wf (chain_sets c) ->
  Forall (fun set => Forall (elem_of_key (set_key set)) (set_elems set)) (chain_sets c) ->
  Forall (rule_printable c) rules -> length counters = length rules ->
  exists texts, print_rules c rules (counters ++ rest) = Ok (joined texts) /\ Forall3 (rule_shown c) rules counters texts.
Proof.
  intros Hw He Hr. revert counters. induction Hr as [|r rules Hr _ IH]; intros [|counter counters] Hl; try done;
    [exists []; split; [done|constructor]|]. injection Hl as Hl. destruct (IH counters Hl) as (texts & E & H3).
  destruct (rule_is_shown c r counter Hw He Hr) as (text & Et & Hs). exists (text :: texts). split; [|by constructor].
  cbn [print_rules app head tail]. by rewrite Et, E.
Qed.

(** A chain that has a counter for each rule, for the policy and for the errors
    is shown. *)
Lemma dump_shown c ho cs : chain_printable c -> length cs = (length (chain_rules c) + 2)%nat ->
  exists text, bfc_chain_dump c ho cs = Ok text /\ chain_shown c ho cs text.
Proof.
  intros [Hh Hp Hw He Hr] Hl. unfold bfc_chain_dump. rewrite (proj2 (Nat.eqb_eq _ _) Hl). cbn [negb].
  destruct (hook_shown _ Hh) as (hook & -> & Ehook), (verdict_shown _ Hp) as (policy & -> & Epolicy).
  set (n := length (chain_rules c)) in *. pose proof (take_drop n cs) as Ecs.
  assert (length (drop n cs) = 2%nat) as Hd by (rewrite length_drop; lia).
  destruct (drop n cs) as [|pc [|ec []]]; try discriminate Hd. assert (length (take n cs) = n) as Ht by (rewrite length_take; lia).
  set (counters := take n cs) in *. rewrite <- Ecs. rewrite length_app, Ht. cbn [length].
  rewrite !lookup_app_r by lia. rewrite Ht. replace (n + 2 - 2 - n)%nat with 0%nat by lia. replace (n + 2 - 1 - n)%nat with 1%nat by lia.
  cbn [lookup list_lookup of_option name_of rbind].
  destruct (print_each_ok print_named_set (chain_sets c)) as [stext Es].
  { apply Forall_forall. intros set Hin. rewrite Forall_forall in Hw, He.
    destruct (set_is_shown "        " "    " set (Hw _ Hin) (He _ Hin) eq_refl eq_refl) as (elems & Ep & _).
    unfold print_named_set. rewrite Ep. destruct (set_name set); by eexists. }
  rewrite Es. cbn [rbind]. apply print_each_texts in Es as (stexts & Hs & ->).
  destruct (named_sets_shown _ _ Hw He Hs) as (named & Hnamed & ->).
  destruct (rules_shown c (chain_rules c) counters [pc; ec] Hw He Hr Ht) as (rtexts & -> & Hrules). cbn [rbind].
  eexists. split; [reflexivity|]. exists hook, policy, counters, pc, ec, named, rtexts. split_and!; try done.
  destruct ho; [|done]. by rewrite hookopts_text_shown.
Qed.
End Shown.
