(* ===== verification/Ctx.v ===== *)
(** The daemon's context: [src/bpfilter/ctx.c].

    The global context holds the code generation contexts, in the order they
    were added; the namespaces, the token and the stubs do not change
    ([bf_daemon] of [Cgen.v], and the stubs of [CgenEnv]).  A cgen of the
    context is named by its index, where the code has a pointer to it. *)

From S2P Require Import Prelude Bytes Bpf Helper Hook Hookopts Matcher BfSet Sys Io Map Rule.
From S2P Require Import Chain Printer Pack Serial Program Block BlockExec Fixups Flavors Load Generate Cgen.

Abbreviation bf_ctx := (list bf_cgen).

Definition cgen_name (cg : bf_cgen) : string := chain_name (cgen_chain cg).

(** The first cgen with that name. *)
Fixpoint _bf_ctx_get_cgen (ctx : bf_ctx) (name : string) : option nat :=
  match ctx with
  | [] => None
  | cg :: ctx =>
      if bf_streq (Some (cgen_name cg)) (Some name) then Some O
      else match _bf_ctx_get_cgen ctx name with Some i => Some (S i) | None => None end
  end.

Definition of_front (front : bf_front) (cg : bf_cgen) : bool := bool_decide (cgen_front cg = front).

Definition _bf_ctx_get_cgens_for_front (ctx : bf_ctx) (front : bf_front) : list bf_cgen :=
  List.filter (of_front front) ctx.

Section Ctx.
Context `{CgenEnv} {K : Type} `{Sys K} (d : bf_daemon).

Abbreviation M A := (st (bf_ctx * K) A).

Definition _bf_ctx_set_cgen (cg : bf_cgen) : M unit :=
  fun '(ctx, k) =>
    match _bf_ctx_get_cgen ctx (cgen_name cg) with
    | Some _ => (Err (- EEXIST), (ctx, k))
    | None => (Ok tt, (ctx ++ [cg], k))
    end.

(** Removing a cgen from the list frees it. *)
Definition _bf_ctx_delete_cgen (i : nat) (unload : bool) : M unit :=
  fun '(ctx, k) =>
    match ctx !! i with
    | None => (Err (- ENOENT), (ctx, k))
    | Some cg =>
        let '(cg, k) := if unload then bf_cgen_unload d (cg, k) else (cg, k) in
        (Ok tt, (delete i ctx, bf_cgen_free d cg k))
    end.

Fixpoint _bf_ctx_flush (front : bf_front) (ctx : bf_ctx) (k : K) : bf_ctx * K :=
  match ctx with
  | [] => ([], k)
  | cg :: ctx =>
      if of_front front cg then
        let '(cg, k) := bf_cgen_unload d (cg, k) in
        _bf_ctx_flush front ctx (bf_cgen_free d cg k)
      else
        let '(ctx, k) := _bf_ctx_flush front ctx k in (cg :: ctx, k)
  end.

Definition bf_ctx_flush (front : bf_front) : M unit :=
  fun '(ctx, k) => (Ok tt, _bf_ctx_flush front ctx k).

Definition bf_ctx_is_empty (ctx : bf_ctx) : bool := match ctx with [] => true | _ => false end.

(** * The end of the daemon *)

Fixpoint unload_cgens (ctx : bf_ctx) (k : K) : bf_ctx * K :=
  match ctx with
  | [] => ([], k)
  | cg :: ctx =>
      let '(cg, k) := bf_cgen_unload d (cg, k) in
      let '(ctx, k) := unload_cgens ctx k in (cg :: ctx, k)
  end.

Fixpoint free_cgens (ctx : bf_ctx) (k : K) : K :=
  match ctx with [] => k | cg :: ctx => free_cgens ctx (bf_cgen_free d cg k) end.

Definition _bf_ctx_free (ctx : bf_ctx) (k : K) : K :=
  let k := bf_ns_clean (ctx_ns d) k in
  let k := snd (closep (ctx_token d) k) in
  free_cgens ctx k.

Definition bf_ctx_teardown (clear : bool) (ctx : bf_ctx) (k : K) : K :=
  let '(ctx, k) := if clear then unload_cgens ctx k else (ctx, k) in
  _bf_ctx_free ctx k.

Definition ENOTEMPTY : Z := 39.

Definition bf_ctx_rm_pindir {T} : st (T * K) unit :=
  with_dir (bf_opendir (bf_opts_bpffs_path d)) (fun bpffs_fd s =>
    match bf_rmdir_at bpffs_fd "bpfilter" s with
    | (Ok _, s) => (Ok tt, s)
    | (Err r, s) => if negb (r =? - ENOTEMPTY) && negb (r =? - ENOENT) then (Err r, s) else (Ok tt, s)
    end).
End Ctx.
