(* ===== verification/Save.v ===== *)
(** Saving the daemon's context and loading it again: the serialisation of
    maps ([cgen/prog/map.c]), links ([cgen/prog/link.c]), programs
    ([cgen/program.c]), code generation contexts ([cgen/cgen.c]) and of the
    context ([ctx.c]), all under [src/bpfilter].

    Descriptors are not saved: the maps, the link and the program were pinned,
    and are opened again by name in the pin directory of their chain. *)

From S2P Require Import Prelude Bytes Bpf Helper Hook Hookopts Matcher BfSet Sys Io Map Rule.
From S2P Require Import Chain Printer Pack Serial Program Block BlockExec Fixups Flavors Load Cgen Request Ctx.

(** * Instructions in memory *)

Definition sizeof_bpf_insn : nat := 8.

Definition insn_bytes (i : bpf_insn) : list Z :=
  [u8 (insn_code i); Z.lor (Z.land (insn_dst i) 15) (Z.shiftl (Z.land (insn_src i) 15) 4)] ++
  le_split 2 (insn_off i) ++ le_split 4 (insn_imm i).

Definition insn_of_bytes (bytes : list Z) : bpf_insn :=
  let regs := field 1 1 bytes in
  mk_insn (field 0 1 bytes) (Z.land regs 15) (Z.shiftr regs 4) (s16 (field 2 2 bytes)) (s32 (field 4 4 bytes)).

(** The bytes that do not make an instruction are dropped. *)
Definition insns_of_bytes (bytes : list Z) : list bpf_insn :=
  (fun i => insn_of_bytes (sub_bytes (i * sizeof_bpf_insn) sizeof_bpf_insn bytes)) <$>
    seq 0 (length bytes / sizeof_bpf_insn).

(** * Enumerations *)

Definition bf_map_type_to_Z (t : bf_map_type) : Z :=
  match t with
  | BF_MAP_TYPE_COUNTERS => 0 | BF_MAP_TYPE_PRINTER => 1 | BF_MAP_TYPE_LOG => 2 | BF_MAP_TYPE_SET => 3
  | bf_map_type_other n => n
  end.

Definition bf_map_type_of_Z (z : Z) : bf_map_type :=
  match z with
  | 0 => BF_MAP_TYPE_COUNTERS | 1 => BF_MAP_TYPE_PRINTER | 2 => BF_MAP_TYPE_LOG | 3 => BF_MAP_TYPE_SET
  | _ => bf_map_type_other z
  end.

Definition bf_bpf_map_type_to_Z (t : bf_bpf_map_type) : Z :=
  match t with
  | BF_BPF_MAP_TYPE_HASH => 1 | BF_BPF_MAP_TYPE_ARRAY => 2 | BF_BPF_MAP_TYPE_LPM_TRIE => 11
  | BF_BPF_MAP_TYPE_RINGBUF => 27 | bf_bpf_map_type_other n => n
  end.

Definition bf_bpf_map_type_of_Z (z : Z) : bf_bpf_map_type :=
  match z with
  | 1 => BF_BPF_MAP_TYPE_HASH | 2 => BF_BPF_MAP_TYPE_ARRAY | 11 => BF_BPF_MAP_TYPE_LPM_TRIE
  | 27 => BF_BPF_MAP_TYPE_RINGBUF | _ => bf_bpf_map_type_other z
  end.

(** * Writing *)

Definition bf_map_pack (map : bf_map) (pack : bf_wpack) : bf_wpack :=
  let pack := bf_wpack_kv_str "name" (map_name map) pack in
  let pack := bf_wpack_kv_enum "type" (bf_map_type_to_Z (map_type map)) pack in
  let pack := bf_wpack_kv_enum "bpf_type" (bf_bpf_map_type_to_Z (map_bpf_type map)) pack in
  let pack := bf_wpack_kv_u64 "key_size" (map_key_size map) pack in
  let pack := bf_wpack_kv_u64 "value_size" (map_value_size map) pack in
  bf_wpack_kv_u64 "n_elems" (map_n_elems map) pack.

(** An object of its own, under a key. *)
Definition kv_object {A} (key : string) (ops_pack : A -> bf_wpack -> bf_wpack) (x : A) (pack : bf_wpack) : bf_wpack :=
  bf_wpack_close_object (ops_pack x (bf_wpack_open_object (Some key) pack)).

Definition bf_link_pack (link : bf_link) (pack : bf_wpack) : bf_wpack :=
  let pack := bf_wpack_kv_str "name" (link_name link) pack in
  match link_hookopts link with
  | Some ho => kv_object "hookopts" bf_hookopts_pack ho pack
  | None => bf_wpack_kv_nil "hookopts" pack
  end.

Definition bf_program_pack (program : bf_program) (pack : bf_wpack) : bf_wpack :=
  let pack := kv_object "cmap" bf_map_pack (prog_cmap program) pack in
  let pack := kv_object "pmap" bf_map_pack (prog_pmap program) pack in
  let pack := kv_object "lmap" bf_map_pack (prog_lmap program) pack in
  let pack := bf_wpack_kv_list "sets" bf_map_pack (Some <$> prog_sets program) pack in
  let pack := kv_object "link" bf_link_pack (prog_link program) pack in
  let pack := kv_object "printer" bf_printer_pack (prog_printer program) pack in
  bf_wpack_kv_bin "img" (prog_img program ≫= insn_bytes) pack.

Definition bf_cgen_pack (cgen : bf_cgen) (pack : bf_wpack) : bf_wpack :=
  let pack := bf_wpack_kv_enum "front" (bf_front_to_Z (cgen_front cgen)) pack in
  let pack := kv_object "chain" bf_chain_pack (cgen_chain cgen) pack in
  match cgen_program cgen with
  | Some p => kv_object "program" bf_program_pack p pack
  | None => bf_wpack_kv_nil "program" pack
  end.

Definition _bf_ctx_pack (ctx : bf_ctx) (pack : bf_wpack) : bf_wpack :=
  bf_wpack_kv_list "cgens" bf_cgen_pack (Some <$> ctx) pack.

Definition bf_ctx_save (ctx : bf_ctx) (pack : bf_wpack) : res bf_wpack :=
  let pack := _bf_ctx_pack ctx pack in
  if bf_wpack_is_valid pack then Ok pack else Err (- EINVAL).

(** * Reading *)

Section Load.
Context `{CgenEnv} {K : Type} `{Sys K} (d : bf_daemon).

(** What the memory of a new map holds: its descriptor, until it is set. *)
Context (malloc_fd : Z).

Section Objects.
Context {T : Type}.

Definition read_map (node : mnode) : res bf_map :=
  let! name := bf_rpack_kv_str node "name" in
  if (String.length name =? 0)%nat then Err (- EINVAL)
  else
    let! type := bf_rpack_kv_enum node "type" in
    let! bpf_type := bf_rpack_kv_enum node "bpf_type" in
    let! key_size := bf_rpack_kv_u64 node "key_size" in
    let! value_size := bf_rpack_kv_u64 node "value_size" in
    let! n_elems := bf_rpack_kv_u64 node "n_elems" in
    if n_elems =? 0 then Err (- EINVAL)
    else Ok (mk_map (bf_map_type_of_Z type) (bf_bpf_map_type_of_Z bpf_type) (obj_name name) key_size value_size
               n_elems malloc_fd).

(** A map that cannot be read is freed, which closes whatever descriptor its
    memory holds. *)
Definition bf_map_new_from_pack (dir_fd : Z) (node : mnode) : st (T * K) bf_map :=
  st_onerr
    (m ← st_lift (read_map node);
     if negb (dir_fd =? -1) then
       fd ← bf_bpf_obj_get (map_name m) dir_fd;
       mret (with_map_fd fd m)
     else mret (with_map_fd (-1) m))
    (fun '(o, k) => (o, snd (closep malloc_fd k))).

Definition read_link (node : mnode) : res bf_link :=
  let! name := bf_rpack_kv_str node "name" in
  let link := bf_link_new name in
  let! child := bf_rpack_kv_node node "hookopts" in
  if bf_rpack_is_nil child then Ok link
  else let! ho := bf_hookopts_new_from_pack child in Ok (mk_link (link_name link) (Some ho) (-1)).

Definition bf_link_new_from_pack (dir_fd : Z) (node : mnode) : st (T * K) bf_link :=
  link ← st_lift (read_link node);
  if negb (dir_fd =? -1) then
    fd ← bf_bpf_obj_get (link_name link) dir_fd;
    mret (mk_link (link_name link) (link_hookopts link) fd)
  else mret link.
End Objects.

(** ** Programs *)

Abbreviation P A := (st (bf_program * K) A).

Definition restore_map (set : bf_map -> P unit) (dir_fd : Z) (node : mnode) (key : string) : P unit :=
  child ← st_lift (bf_rpack_kv_obj node key);
  m ← bf_map_new_from_pack dir_fd child;
  set m.

Definition add_set (m : bf_map) : P unit := p ← obj_get; set_sets (prog_sets p ++ [m]).

Definition match_link (m : P bf_link) : P unit :=
  fun s => match m s with
           | (Ok link, s) => obj_modify (fun p => with_link p link) s
           | (Err r, s) => if r =? - ENOENT then (Ok tt, s) else (Err r, s)
           end.

(** A link that does not exist is that of a program that is not attached. *)
Definition restore_link (dir_fd : Z) (node : mnode) : P unit :=
  child ← st_lift (bf_rpack_kv_obj node "link");
  match_link (bf_link_new_from_pack dir_fd child).

Definition restore_program (dir_fd : Z) (node : mnode) : P unit :=
  restore_map set_cmap dir_fd node "cmap" ;;
  restore_map set_pmap dir_fd node "pmap" ;;
  restore_map set_lmap dir_fd node "lmap" ;;
  set_sets [] ;;
  nodes ← st_lift (bf_rpack_kv_array node "sets");
  st_iter (fun n => m ← bf_map_new_from_pack dir_fd n; add_set m) nodes ;;
  restore_link dir_fd node ;;
  child ← st_lift (bf_rpack_kv_obj node "printer");
  printer ← st_lift (bf_printer_new_from_pack child);
  obj_modify (fun p => with_printer p printer) ;;
  img ← st_lift (bf_rpack_kv_bin node "img");
  let insns := insns_of_bytes img in
  obj_modify (fun p => with_img p insns (Z.of_nat (length insns)) (prog_fixups p)) ;;
  fd ← bf_bpf_obj_get prog_name dir_fd;
  obj_modify (fun p => with_fd p fd).

Definition bf_program_new_from_pack {T} (chain : bf_chain) (dir_fd : Z) (node : mnode) : st (T * K) bf_program :=
  fun '(o, k) =>
    match bf_program_new chain with
    | Err e => (Err e, (o, k))
    | Ok p =>
        match restore_program dir_fd node (p, k) with
        | (Ok _, (p, k)) => (Ok p, (o, k))
        | (Err e, (p, k)) => (Err e, (o, bf_program_free p k))
        end
    end.

(** ** Contexts *)

(** A cgen that has no chain yet is freed with an uninitialised pointer to
    one. *)
Definition bf_cgen_new_from_pack {T} (node : mnode) : st (T * K) bf_cgen :=
  fun '(o, k) =>
    match (let! front := bf_rpack_kv_enum node "front" in
           let! child := bf_rpack_kv_obj node "chain" in
           let! chain := bf_chain_new_from_pack child in
           Ok (mk_cgen (bf_front_of_Z front) chain None)) with
    | Err _ => (Err (- BF_CRASH), (o, k))
    | Ok cgen =>
        match (if bf_chain_validate (cgen_chain cgen) then bf_rpack_kv_node node "program" else Err (- EINVAL)) with
        | Err e => (Err e, (o, bf_cgen_free d cgen k))
        | Ok child =>
            if bf_rpack_is_nil child then (Ok cgen, (o, k))
            else
              match with_dir (_bf_cgen_get_chain_pindir_fd d (chain_name (cgen_chain cgen))) (fun dir_fd =>
                      bf_program_new_from_pack (cgen_chain cgen) dir_fd child) (o, k) with
              | (Ok p, (o, k)) => (Ok (with_program (Some p) cgen), (o, k))
              | (Err e, (o, k)) => (Err e, (o, bf_cgen_free d cgen k))
              end
        end
    end.

Definition add_cgen_tail (cg : bf_cgen) : st (bf_ctx * K) unit := obj_modify (fun ctx => ctx ++ [cg]).

(** The context of a daemon that starts: its namespaces, token and stubs are
    those of [d]. *)
Definition _bf_ctx_new_from_pack (node : mnode) : st (bf_ctx * K) unit :=
  nodes ← st_lift (bf_rpack_kv_array node "cgens");
  st_iter (fun n => cg ← bf_cgen_new_from_pack n; add_cgen_tail cg) nodes.

(** The context is freed when one of its cgens cannot be read. *)
Definition bf_ctx_load (node : mnode) (k : K) : res bf_ctx * K :=
  match _bf_ctx_new_from_pack node ([], k) with
  | (Ok _, (ctx, k)) => (Ok ctx, k)
  | (Err e, (ctx, k)) => (Err e, _bf_ctx_free d ctx k)
  end.
End Load.
