(* ===== verification/Cli.v ===== *)
(** The handlers of the requests of the command line tool:
    [src/bpfilter/xlate/cli.c].

    A handler works on the daemon's context; it returns a response of its own,
    or none when its status says it all.  Its scoped objects are freed when it
    returns, whatever the result. *)

From S2P Require Import Prelude Bytes Bpf Helper Hook Hookopts Matcher BfSet Sys Io Map Rule.
From S2P Require Import Chain Printer Pack Serial Program Block BlockExec Fixups Flavors Load Generate Cgen.
From S2P Require Import Request Ctx.

(** * Requests *)

Definition parse_name (root : mnode) : res string := bf_rpack_kv_str root "name".

Definition parse_chain (root : mnode) : res bf_chain :=
  let! child := bf_rpack_kv_obj root "chain" in bf_chain_new_from_pack child.

(** The hook options are nil, or an object. *)
Definition parse_hookopts (root : mnode) : res (option bf_hookopts) :=
  let! child := bf_rpack_kv_node root "hookopts" in
  if bf_rpack_is_nil child then Ok None
  else let! ho := bf_hookopts_new_from_pack child in Ok (Some ho).

Definition parse_attach_hookopts (root : mnode) : res bf_hookopts :=
  let! child := bf_rpack_kv_obj root "hookopts" in bf_hookopts_new_from_pack child.

Section Cli.
Context `{CgenEnv} `{Mpack} {K : Type} `{Sys K} (d : bf_daemon).

Abbreviation M A := (st (bf_ctx * K) A).

Definition request_pack (request : bf_request) : M mnode := st_lift (bf_rpack_new (bf_request_data request)).

(** A request without namespaces does not reach a handler. *)
Definition request_ns (request : bf_request) : bf_ns := default (ctx_ns d) (bf_request_ns request).

(** * The context *)

Definition find_cgen (name : string) : M nat :=
  fun '(ctx, k) => (of_option (- ENOENT) (_bf_ctx_get_cgen ctx name), (ctx, k)).

(** An operation on the [i]-th cgen, which is there. *)
Definition on_cgen {A} (i : nat) (m : st (bf_cgen * K) A) : M A :=
  fun '(ctx, k) =>
    match ctx !! i with
    | None => (Err (- BF_CRASH), (ctx, k))
    | Some cg => let '(r, (cg, k)) := m (cg, k) in (r, (<[i := cg]> ctx, k))
    end.

(** The options of the link of a cgen's program. *)
Definition link_options : st (bf_cgen * K) (option bf_hookopts) :=
  on_program (p ← obj_get; mret (link_hookopts (prog_link p))).

Definition new_cgen (chain : bf_chain) : M bf_cgen :=
  match bf_cgen_new BF_FRONT_CLI chain with
  | Ok cg => mret cg
  | Err e => free_refused d e
  end.

(** A new cgen is made ready by [m], then added to the context.  It is freed
    when it could not be, and unloaded before if it was ready. *)
Definition add_cgen (cg : bf_cgen) (m : st (bf_cgen * K) unit) : M unit :=
  fun '(ctx, k) =>
    match m (cg, k) with
    | (Err e, (cg, k)) => (Err e, (ctx, bf_cgen_free d cg k))
    | (Ok _, (cg, k)) =>
        match _bf_ctx_set_cgen cg (ctx, k) with
        | (Ok _, s) => (Ok tt, s)
        | (Err e, (ctx, k)) =>
            let '(cg, k) := bf_cgen_unload d (cg, k) in (Err e, (ctx, bf_cgen_free d cg k))
        end
    end.

(** * Rulesets *)

Definition _bf_cli_ruleset_flush (request : bf_request) : M (option bf_response) :=
  bf_ctx_flush d BF_FRONT_CLI ;; mret None.

(** An operation that only reads a cgen. *)
Definition reading {T A} (cg : bf_cgen) (m : st (bf_cgen * K) A) : st (T * K) A :=
  on_part (fun _ => cg) (fun _ o => o) m.

Context `{!CounterSys K}.

Fixpoint collect_cgens (cgens : list bf_cgen) : M (list (option bf_hookopts * list bf_counter)) :=
  match cgens with
  | [] => mret []
  | cg :: cgens =>
      ho ← reading cg link_options;
      counters ← reading cg bf_cgen_get_counters;
      rest ← collect_cgens cgens;
      mret ((ho, counters) :: rest)
  end.

Definition ruleset_pack (chains : list bf_chain) (hookopts : list (option bf_hookopts))
    (counters : list (list bf_counter)) (pack : bf_wpack) : bf_wpack :=
  let pack := bf_wpack_open_object (Some "ruleset"%string) pack in
  let pack := bf_wpack_kv_list "chains" bf_chain_pack (Some <$> chains) pack in
  let pack := bf_wpack_kv_list "hookopts" bf_hookopts_pack hookopts pack in
  let pack := bf_wpack_kv_list_list "counters" bf_counter_pack ((fun cs : list bf_counter => Some <$> cs) <$> counters) pack in
  bf_wpack_close_object pack.

Definition _bf_cli_ruleset_get (request : bf_request) : M (option bf_response) :=
  ctx ← obj_get;
  let cgens := _bf_ctx_get_cgens_for_front ctx BF_FRONT_CLI in
  parts ← collect_cgens cgens;
  response ← st_lift (bf_response_new_from_pack
    (ruleset_pack (cgen_chain <$> cgens) (fst <$> parts) (snd <$> parts) bf_wpack_new));
  mret (Some response).

(** A chain of the ruleset, with its hook options. *)
Definition ruleset_entry (ns : bf_ns) (node : mnode) : M unit :=
  chain ← st_lift (parse_chain node);
  hookopts ← st_lift (parse_hookopts node);
  cgen ← new_cgen chain;
  add_cgen cgen (bf_cgen_set d ns hookopts).

(** The whole ruleset is dropped when one chain cannot be set.  It is dropped
    first, and left empty when the request cannot be read. *)
(** The document is freed at the end, and it is not initialised when the
    request cannot be parsed. *)
Definition _bf_cli_ruleset_set (request : bf_request) : M (option bf_response) :=
  bf_ctx_flush d BF_FRONT_CLI ;;
  root ← st_fatal (request_pack request);
  nodes ← st_lift (bf_rpack_kv_array root "ruleset");
  st_onerr (st_iter (ruleset_entry (request_ns request)) nodes)
    (fun '(ctx, k) => _bf_ctx_flush d BF_FRONT_CLI ctx k) ;;
  mret None.

(** * Chains *)

(** The chain that has the name already is removed before the new one is
    loaded. *)
Definition _bf_cli_chain_set (request : bf_request) : M (option bf_response) :=
  root ← request_pack request;
  chain ← st_lift (parse_chain root);
  hookopts ← st_lift (parse_hookopts root);
  new_cgen ← new_cgen chain;
  ctx ← obj_get;
  match _bf_ctx_get_cgen ctx (cgen_name new_cgen) with
  | Some i => st_ignore (_bf_ctx_delete_cgen d i true)
  | None => mret tt
  end ;;
  add_cgen new_cgen (bf_cgen_set d (request_ns request) hookopts) ;;
  mret None.

Definition chain_get_pack (chain : bf_chain) (hookopts : option bf_hookopts) (counters : list bf_counter)
    (pack : bf_wpack) : bf_wpack :=
  let pack := bf_wpack_open_object (Some "chain"%string) pack in
  let pack := bf_chain_pack chain pack in
  let pack := bf_wpack_close_object pack in
  let pack := match hookopts with
              | Some ho =>
                  let pack := bf_wpack_open_object (Some "hookopts"%string) pack in
                  let pack := bf_hookopts_pack ho pack in
                  bf_wpack_close_object pack
              | None => bf_wpack_kv_nil "hookopts" pack
              end in
  bf_wpack_kv_list "counters" bf_counter_pack (Some <$> counters) pack.

Definition _bf_cli_chain_get (request : bf_request) : M (option bf_response) :=
  root ← request_pack request;
  name ← st_lift (parse_name root);
  i ← find_cgen name;
  counters ← on_cgen i bf_cgen_get_counters;
  cgen ← on_cgen i obj_get;
  hookopts ← on_cgen i link_options;
  response ← st_lift (bf_response_new_from_pack (chain_get_pack (cgen_chain cgen) hookopts counters bf_wpack_new));
  mret (Some response).

Definition bf_send_fd {T} (sock_fd fd : Z) : st (T * K) unit := bf_bpf (SysSendFd sock_fd fd) ;; mret tt.

Definition _bf_cli_chain_prog_fd (request : bf_request) : M (option bf_response) :=
  root ← request_pack request;
  name ← st_lift (parse_name root);
  i ← find_cgen name;
  cgen ← on_cgen i obj_get;
  match cgen_program cgen with
  | None => st_err (- ENODEV)
  | Some p => if prog_fd p =? -1 then st_err (- ENODEV) else bf_send_fd (bf_request_fd request) (prog_fd p)
  end ;;
  mret None.

(** A map that does not exist has the descriptor -1, which is sent. *)
Definition _bf_cli_chain_logs_fd (request : bf_request) : M (option bf_response) :=
  root ← request_pack request;
  name ← st_lift (parse_name root);
  i ← find_cgen name;
  cgen ← on_cgen i obj_get;
  match cgen_program cgen with
  | None => st_err (- ENOENT)
  | Some p => if prog_lmap_fd p =? 0 then st_err (- ENOENT) else bf_send_fd (bf_request_fd request) (prog_lmap_fd p)
  end ;;
  mret None.

Definition _bf_cli_chain_load (request : bf_request) : M (option bf_response) :=
  root ← request_pack request;
  chain ← st_lift (parse_chain root);
  ctx ← obj_get;
  match _bf_ctx_get_cgen ctx (chain_name chain) with Some _ => st_err (- EEXIST) | None => mret tt end ;;
  cgen ← new_cgen chain;
  add_cgen cgen (bf_cgen_load d) ;;
  mret None.

Definition _bf_cli_chain_attach (request : bf_request) : M (option bf_response) :=
  root ← request_pack request;
  name ← st_lift (parse_name root);
  hookopts ← st_lift (parse_attach_hookopts root);
  i ← find_cgen name;
  linked ← on_cgen i link_options;
  match linked with Some _ => st_err (- EBUSY) | None => mret tt end ;;
  cgen ← on_cgen i obj_get;
  st_lift (bf_hookopts_validate hookopts (chain_hook (cgen_chain cgen))) ;;
  on_cgen i (bf_cgen_attach d (request_ns request) hookopts) ;;
  mret None.

(** Failing to update is always the same error, if it is one. *)
Definition update_error {S} (m : st S unit) : st S unit :=
  fun s => match m s with
           | (Ok _, s) => (Ok tt, s)
           | (Err e, s) => (Err (if e =? - BF_CRASH then e else - EINVAL), s)
           end.

Definition _bf_cli_chain_update (request : bf_request) : M (option bf_response) :=
  root ← request_pack request;
  chain ← st_lift (parse_chain root);
  i ← find_cgen (chain_name chain);
  linked ← on_cgen i link_options;
  match linked with Some _ => mret tt | None => st_err (- EINVAL) end ;;
  update_error (on_cgen i (bf_cgen_update d chain)) ;;
  mret None.

Definition _bf_cli_chain_flush (request : bf_request) : M (option bf_response) :=
  root ← request_pack request;
  name ← st_lift (parse_name root);
  i ← find_cgen name;
  _bf_ctx_delete_cgen d i true ;;
  mret None.

(** * Dispatch *)

Definition cli_command (request : bf_request) : M (option bf_response) :=
  match request_cmd request with
  | BF_REQ_RULESET_FLUSH => _bf_cli_ruleset_flush request
  | BF_REQ_RULESET_SET => _bf_cli_ruleset_set request
  | BF_REQ_RULESET_GET => _bf_cli_ruleset_get request
  | BF_REQ_CHAIN_SET => _bf_cli_chain_set request
  | BF_REQ_CHAIN_GET => _bf_cli_chain_get request
  | BF_REQ_CHAIN_PROG_FD => _bf_cli_chain_prog_fd request
  | BF_REQ_CHAIN_LOGS_FD => _bf_cli_chain_logs_fd request
  | BF_REQ_CHAIN_LOAD => _bf_cli_chain_load request
  | BF_REQ_CHAIN_ATTACH => _bf_cli_chain_attach request
  | BF_REQ_CHAIN_UPDATE => _bf_cli_chain_update request
  | BF_REQ_CHAIN_FLUSH => _bf_cli_chain_flush request
  | _ => st_err (- EINVAL)
  end.

(** A response is made of the status when the handler did not make one. *)
Definition _bf_cli_request_handler (request : bf_request) : M bf_response :=
  fun s =>
    match cli_command request s with
    | (Ok (Some response), s) => (Ok response, s)
    | (Ok None, s) => (Ok (bf_response_new_success []), s)
    | (Err e, s) => ((if e =? - BF_CRASH then Err e else Ok (bf_response_new_failure e)), s)
    end.
End Cli.
