(* ===== verification/Ipt.v ===== *)
(** The iptables front end: [src/bpfilter/xlate/ipt/ipt.c] and [helpers.h], and
    its client, [src/libbpfilter/ipt.c].

    [iptables] sends and receives the structures of the kernel: a ruleset is an
    [ipt_replace] followed by the entries of its chains, each an [ipt_entry]
    and its target.  A request's data is read at offsets it holds itself: a read
    outside of it, and whatever else C leaves undefined, is [BF_CRASH]. *)

From S2P Require Import Prelude Bytes Bpf Helper Pack Hook Hookopts Matcher BfSet Sys Io Map Rule.
From S2P Require Import Chain Printer Serial Program Block BlockExec Fixups Flavors Load Cgen Request.
From S2P Require Import Ctx Client.

(** * Structures *)

Definition sizeof_ipt_replace : nat := 96.
Definition sizeof_ipt_entry : nat := 112.
Definition sizeof_xt_standard_target : nat := 40.
Definition sizeof_xt_error_target : nat := 64.
Definition sizeof_ipt_getinfo : nat := 84.
Definition sizeof_ipt_get_entries : nat := 40.
Definition NF_INET_NUMHOOKS : nat := 5.

Definition IPT_INV_SRCIP : Z := 0x08.
Definition IPT_INV_DSTIP : Z := 0x10.

Definition BF_IPT_PRIO_0 : Z := 1000.
Definition BF_IPT_PRIO_1 : Z := 1001.

(** [n] bytes at the offset [o]. *)
Definition rd (data : list Z) (o n : nat) : res Z :=
  if (o + n <=? length data)%nat then Ok (field o n data) else Err (- BF_CRASH).

Definition rd_bytes (data : list Z) (o n : nat) : res (list Z) :=
  if (o + n <=? length data)%nat then Ok (sub_bytes o n data) else Err (- BF_CRASH).

(** Offsets of [struct ipt_replace], of [struct ipt_entry] and of the
    target. *)
Definition replace_valid_hooks : nat := 32.
Definition replace_size : nat := 40.
Definition replace_hook_entry (hook : nat) : nat := 44 + 4 * hook.
Definition replace_underflow (hook : nat) : nat := 64 + 4 * hook.
Definition entry_src : nat := 0.
Definition entry_dst : nat := 4.
Definition entry_smsk : nat := 8.
Definition entry_dmsk : nat := 12.
Definition entry_iniface : nat := 16.
Definition entry_outiface : nat := 32.
Definition entry_proto : nat := 80.
Definition entry_invflags : nat := 83.
Definition entry_target_offset : nat := 88.
Definition entry_next_offset : nat := 90.
Definition target_name : nat := 2.
Definition target_verdict : nat := 32.

Definition nf_hooks : list bf_nf_inet_hooks :=
  [BF_NF_INET_PRE_ROUTING; BF_NF_INET_LOCAL_IN; BF_NF_INET_FORWARD; BF_NF_INET_LOCAL_OUT; BF_NF_INET_POST_ROUTING].

Definition nf_hook_index (hook : bf_nf_inet_hooks) : option nat :=
  match hook with
  | BF_NF_INET_PRE_ROUTING => Some 0%nat
  | BF_NF_INET_LOCAL_IN => Some 1%nat
  | BF_NF_INET_FORWARD => Some 2%nat
  | BF_NF_INET_LOCAL_OUT => Some 3%nat
  | BF_NF_INET_POST_ROUTING => Some 4%nat
  | bf_nf_inet_hooks_other _ => None
  end.

(** * Targets *)

(** The verdict of the target at the offset [t]. *)
Definition _bf_ipt_target_to_verdict (data : list Z) (t : nat) : res bf_verdict :=
  let! name0 := rd data (t + target_name) 1 in
  if negb (name0 =? 0) then Err (- ENOTSUP)
  else
    let! raw := rd data (t + target_verdict) 4 in
    let verdict := s32 raw in
    if 0 <=? verdict then Err (- ENOTSUP)
    else
      let v := s32 (s32 (- verdict) - 1) in
      if v =? NF_ACCEPT then Ok BF_VERDICT_ACCEPT
      else if v =? NF_DROP then Ok BF_VERDICT_DROP
      else Err (- ENOTSUP).

Definition _bf_verdict_to_ipt_target (verdict : bf_verdict) : res Z :=
  match verdict with
  | BF_VERDICT_ACCEPT => Ok (-2)
  | BF_VERDICT_DROP => Ok (-1)
  | _ => Err (- ENOTSUP)
  end.

(** * From entries to rules *)

Fixpoint ctz_pos (p : positive) : Z := match p with xO p => 1 + ctz_pos p | _ => 0 end.

(** [__builtin_ctz], which is undefined for 0. *)
Definition ctz (z : Z) : res Z := match z with Zpos p => Ok (ctz_pos p) | _ => Err (- BF_CRASH) end.

Definition ip4_host : Z := UINT32_MAX.

Definition inverted (invflags flag : Z) : bf_matcher_op := if Z.land invflags flag =? 0 then BF_MATCHER_EQ else BF_MATCHER_NE.

(** A matcher for an address, or for a network when the mask is not full. *)
Definition ipt_addr (data : list Z) (o : nat) (addr_off mask_off : nat) (flag : Z)
    (addr_type net_type : bf_matcher_type) (rule : bf_rule) : res bf_rule :=
  let! addr := rd data (o + addr_off) 4 in
  let! mask := rd data (o + mask_off) 4 in
  if (addr =? 0) && (mask =? 0) then Ok rule
  else
    let! invflags := rd data (o + entry_invflags) 1 in
    let op := inverted invflags flag in
    if mask =? ip4_host then Ok (bf_rule_add_matcher rule addr_type op (le_split 4 addr))
    else let! prefixlen := ctz mask in
         Ok (bf_rule_add_matcher rule net_type op (le_split 4 prefixlen ++ le_split 4 addr)).

Definition with_counters (rule : bf_rule) : bf_rule :=
  mk_rule (rule_index rule) (rule_matchers rule) (rule_log rule) (rule_mark rule) true (rule_verdict rule).

Definition with_verdict (v : bf_verdict) (rule : bf_rule) : bf_rule :=
  mk_rule (rule_index rule) (rule_matchers rule) (rule_log rule) (rule_mark rule) (rule_counters rule) v.

(** The rule of the entry at the offset [o]. *)
Definition _bf_ipt_entry_to_rule (data : list Z) (o : nat) : res bf_rule :=
  let! target_offset := rd data (o + entry_target_offset) 2 in
  if Z.of_nat sizeof_ipt_entry <? target_offset then Err (- ENOTSUP)
  else
    let! iniface := rd data (o + entry_iniface) 1 in
    let! outiface := if negb (iniface =? 0) then Ok 0 else rd data (o + entry_outiface) 1 in
    if negb (iniface =? 0) || negb (outiface =? 0) then Err (- ENOTSUP)
    else
      let rule := with_counters bf_rule_new in
      let! rule := ipt_addr data o entry_src entry_smsk IPT_INV_SRCIP BF_MATCHER_IP4_SADDR BF_MATCHER_IP4_SNET rule in
      let! rule := ipt_addr data o entry_dst entry_dmsk IPT_INV_DSTIP BF_MATCHER_IP4_DADDR BF_MATCHER_IP4_DNET rule in
      let! proto := rd data (o + entry_proto) 2 in
      let! rule := (if proto =? 0 then Ok rule
                    else if negb (u8 proto =? proto) then Err (- EINVAL)
                    else Ok (bf_rule_add_matcher rule BF_MATCHER_IP4_PROTO BF_MATCHER_EQ [proto])) in
      let! verdict := _bf_ipt_target_to_verdict data (o + Z.to_nat target_offset) in
      Ok (with_verdict verdict rule).

(** The entries from [first] to [last].  An entry that is followed by itself is
    read for ever, until memory is exhausted; otherwise each one is closer to
    the last. *)
Fixpoint entries_to_rules (fuel : nat) (data : list Z) (first last : nat) (chain : bf_chain) : res bf_chain :=
  if (last <=? first)%nat then Ok chain
  else
    match fuel with
    | O => Err (- BF_CRASH)
    | S fuel =>
        let! rule := _bf_ipt_entry_to_rule data first in
        let! next_offset := rd data (first + entry_next_offset) 2 in
        if next_offset =? 0 then Err (- BF_CRASH)
        else entries_to_rules fuel data (first + Z.to_nat next_offset) last (bf_chain_add_rule chain rule)
    end.

Definition _bf_ipt_entries_to_chain (data : list Z) (hook : bf_nf_inet_hooks) (first last : nat) : res bf_chain :=
  let! target_offset := rd data (last + entry_target_offset) 2 in
  let! policy := _bf_ipt_target_to_verdict data (last + Z.to_nat target_offset) in
  let! name := of_option (- BF_CRASH) (bf_nf_hook_to_str hook) in
  entries_to_rules (last - first) data first last (bf_chain_new name (bf_hook_from_nf_hook hook) policy [] []).

(** The chains of the request, one at most for each hook. *)
Definition xlate_hook (data : list Z) (i : nat) (hook : bf_nf_inet_hooks) : res (option bf_chain) :=
  let! valid_hooks := rd data replace_valid_hooks 4 in
  if negb (Z.testbit valid_hooks (Z.of_nat i)) then Ok None
  else
    let! first := rd data (replace_hook_entry i) 4 in
    let! last := rd data (replace_underflow i) 4 in
    let! chain := _bf_ipt_entries_to_chain data hook (sizeof_ipt_replace + Z.to_nat first)
                    (sizeof_ipt_replace + Z.to_nat last) in
    Ok (Some chain).

Fixpoint xlate_hooks (data : list Z) (i : nat) (hooks : list bf_nf_inet_hooks) : res (list (option bf_chain)) :=
  match hooks with
  | [] => Ok []
  | hook :: hooks =>
      let! chain := xlate_hook data i hook in
      let! chains := xlate_hooks data (S i) hooks in
      Ok (chain :: chains)
  end.

Definition _bf_ipt_xlate_ruleset_set (data : list Z) : res (list (option bf_chain)) := xlate_hooks data 0 nf_hooks.

(** * From rules to entries *)

(** What is set in an entry: the other fields are zero. *)
Record ipt_entry : Type := mk_ipt_entry {
  ie_src : Z;
  ie_dst : Z;
  ie_smsk : Z;
  ie_dmsk : Z;
  ie_proto : Z;
  ie_invflags : Z;
  ie_next_offset : Z;
  ie_pcnt : Z;
  ie_bcnt : Z
}.

Definition with_src (op : bf_matcher_op) (addr mask : Z) (e : ipt_entry) : ipt_entry :=
  mk_ipt_entry addr (ie_dst e) mask (ie_dmsk e) (ie_proto e)
    (if decide (op = BF_MATCHER_NE) then Z.lor (ie_invflags e) IPT_INV_SRCIP else ie_invflags e)
    (ie_next_offset e) (ie_pcnt e) (ie_bcnt e).

Definition with_dst (op : bf_matcher_op) (addr mask : Z) (e : ipt_entry) : ipt_entry :=
  mk_ipt_entry (ie_src e) addr (ie_smsk e) mask (ie_proto e)
    (if decide (op = BF_MATCHER_NE) then Z.lor (ie_invflags e) IPT_INV_DSTIP else ie_invflags e)
    (ie_next_offset e) (ie_pcnt e) (ie_bcnt e).

Definition with_proto (proto : Z) (e : ipt_entry) : ipt_entry :=
  mk_ipt_entry (ie_src e) (ie_dst e) (ie_smsk e) (ie_dmsk e) proto (ie_invflags e) (ie_next_offset e) (ie_pcnt e) (ie_bcnt e).

Definition with_xt_counters (c : bf_counter) (e : ipt_entry) : ipt_entry :=
  mk_ipt_entry (ie_src e) (ie_dst e) (ie_smsk e) (ie_dmsk e) (ie_proto e) (ie_invflags e) (ie_next_offset e)
    (counter_packets c) (counter_bytes c).

(** [(~0) << (32 - prefixlen)], undefined when 32 bits are shifted or more. *)
Definition prefix_mask (prefixlen : Z) : res Z :=
  if (0 <? prefixlen) && (prefixlen <=? 32) then Ok (u32 (Z.shiftl UINT32_MAX (32 - prefixlen))) else Err (- BF_CRASH).

Definition net_prefixlen (m : bf_matcher) : Z := field 0 4 (matcher_payload m).
Definition net_data (m : bf_matcher) : Z := field 4 4 (matcher_payload m).

Definition matcher_to_entry (m : bf_matcher) (e : ipt_entry) : res ipt_entry :=
  match matcher_type m with
  | BF_MATCHER_IP4_SADDR => let! _ := payload_has 4 m in Ok (with_src (matcher_op m) (payload_u32 m) ip4_host e)
  | BF_MATCHER_IP4_SNET =>
      let! _ := payload_has 8 m in
      let! mask := prefix_mask (net_prefixlen m) in Ok (with_src (matcher_op m) (net_data m) mask e)
  | BF_MATCHER_IP4_DADDR => let! _ := payload_has 4 m in Ok (with_dst (matcher_op m) (payload_u32 m) ip4_host e)
  | BF_MATCHER_IP4_DNET =>
      let! _ := payload_has 8 m in
      let! mask := prefix_mask (net_prefixlen m) in Ok (with_dst (matcher_op m) (net_data m) mask e)
  | BF_MATCHER_IP4_PROTO => let! _ := payload_has 1 m in Ok (with_proto (payload_u8 m) e)
  | _ => Err (- ENOTSUP)
  end.

Fixpoint matchers_to_entry (ms : list bf_matcher) (e : ipt_entry) : res ipt_entry :=
  match ms with [] => Ok e | m :: ms => let! e := matcher_to_entry m e in matchers_to_entry ms e end.

(** The entry, and the verdict of its target. *)
Definition _bf_rule_to_ipt_entry (rule : bf_rule) (entry : ipt_entry) : res (ipt_entry * Z) :=
  let! entry := matchers_to_entry (rule_matchers rule) entry in
  let! verdict := _bf_verdict_to_ipt_target (rule_verdict rule) in
  Ok (entry, verdict).

Definition entry_bytes (e : ipt_entry) : list Z :=
  le_split 4 (ie_src e) ++ le_split 4 (ie_dst e) ++ le_split 4 (ie_smsk e) ++ le_split 4 (ie_dmsk e) ++
  replicate 64 0 ++ le_split 2 (ie_proto e) ++ [0; ie_invflags e] ++
  le_split 4 0 ++ le_split 2 (Z.of_nat sizeof_ipt_entry) ++ le_split 2 (ie_next_offset e) ++ le_split 4 0 ++
  le_split 8 (ie_pcnt e) ++ le_split 8 (ie_bcnt e).

Definition standard_target_bytes (verdict : Z) : list Z :=
  le_split 2 (Z.of_nat sizeof_xt_standard_target) ++ replicate 30 0 ++ le_split 4 verdict ++ replicate 4 0.

(** The characters of a string in a buffer of [n] bytes. *)
Definition name_bytes (n : nat) (name : string) : list Z := take n (str_bytes name ++ replicate n 0).

Definition error_entry_bytes : list Z :=
  entry_bytes (mk_ipt_entry 0 0 0 0 0 0 (Z.of_nat (sizeof_ipt_entry + sizeof_xt_error_target)) 0 0) ++
  le_split 2 (Z.of_nat sizeof_xt_error_target) ++ name_bytes 30 "ERROR" ++ name_bytes 32 "ERROR".

(** The structure being generated: for each hook, the offsets of its first
    entry and of its policy. *)
Record ipt_replace : Type := mk_ipt_replace {
  ir_valid_hooks : Z;
  ir_num_entries : Z;
  ir_size : Z;
  ir_hook_entry : list Z;
  ir_underflow : list Z;
  ir_entries : list Z
}.

Definition rule_size : nat := sizeof_ipt_entry + sizeof_xt_standard_target.

Section Ipt.
Context `{CgenEnv} {K : Type} `{Sys K} `{!CounterSys K} (d : bf_daemon).

Abbreviation M A := (st (bf_ctx * K) A).

(** * Getting the ruleset *)

(** The chains of the front end by hook, with the index of their cgen. *)
Definition ipt_slot : Type := option nat * option bf_chain.

Fixpoint collect_ipt (i : nat) (ctx : bf_ctx) (ruleset : list ipt_slot) (nrules : nat) :
    res (list ipt_slot * nat) :=
  match ctx with
  | [] => Ok (ruleset, nrules)
  | cg :: ctx =>
      if of_front BF_FRONT_IPT cg then
        match nf_hook_index (bf_hook_to_nf_hook (chain_hook (cgen_chain cg))) with
        | None => Err (- BF_CRASH)
        | Some h => collect_ipt (S i) ctx (<[h := (Some i, Some (cgen_chain cg))]> ruleset)
                      (nrules + (length (chain_rules (cgen_chain cg)) + 1))
        end
      else collect_ipt (S i) ctx ruleset nrules
  end.

(** INPUT, FORWARD and OUTPUT are always there. *)
Definition dummy_chain (hook : bf_nf_inet_hooks) : res bf_chain :=
  let! name := of_option (- BF_CRASH) (bf_nf_hook_to_str hook) in
  Ok (bf_chain_new name (bf_hook_from_nf_hook hook) BF_VERDICT_ACCEPT [] []).

Fixpoint add_dummies (hooks : list (nat * bf_nf_inet_hooks)) (ruleset : list ipt_slot) (nrules : nat) :
    res (list ipt_slot * nat) :=
  match hooks with
  | [] => Ok (ruleset, nrules)
  | (i, hook) :: hooks =>
      match ruleset !! i with
      | Some (Some _, _) => add_dummies hooks ruleset nrules
      | _ => let! chain := dummy_chain hook in
             add_dummies hooks (<[i := (None, Some chain)]> ruleset) (S nrules)
      end
  end.

Definition _bf_ipt_gen_get_ruleset (ctx : bf_ctx) : res (list ipt_slot * nat) :=
  let! x := collect_ipt 0 ctx (replicate NF_INET_NUMHOOKS (None, None)) 0 in
  add_dummies [(1, BF_NF_INET_LOCAL_IN); (2, BF_NF_INET_FORWARD); (3, BF_NF_INET_LOCAL_OUT)]%nat (fst x) (snd x).

Definition zero_entry : ipt_entry := mk_ipt_entry 0 0 0 0 0 0 (Z.of_nat rule_size) 0 0.

(** The counter [idx] of the cgen, when it is wanted. *)
Definition entry_counter (counters : bool) (cgen : option nat) (idx : Z) (e : ipt_entry) : M ipt_entry :=
  match (if counters then cgen else None) with
  | None => mret e
  | Some i => fun '(ctx, k) =>
      match ctx !! i with
      | None => (Err (- BF_CRASH), (ctx, k))
      | Some cg => let '(r, (_, k)) := bf_cgen_get_counter idx (cg, k) in
                   ((let! c := r in Ok (with_xt_counters c e)), (ctx, k))
      end
  end.

Fixpoint gen_rules (counters : bool) (cgen : option nat) (rules : list bf_rule) : M (list Z) :=
  match rules with
  | [] => mret []
  | rule :: rules =>
      x ← st_lift (_bf_rule_to_ipt_entry rule zero_entry);
      entry ← entry_counter counters cgen (rule_index rule) (fst x);
      rest ← gen_rules counters cgen rules;
      mret (entry_bytes entry ++ standard_target_bytes (snd x) ++ rest)
  end.

(** The entries of a chain, the policy's last. *)
Definition gen_chain (counters : bool) (cgen : option nat) (chain : bf_chain) : M (list Z) :=
  rules ← gen_rules counters cgen (chain_rules chain);
  entry ← entry_counter counters cgen BF_COUNTER_POLICY zero_entry;
  verdict ← st_lift (_bf_verdict_to_ipt_target (chain_policy chain));
  mret (rules ++ entry_bytes entry ++ standard_target_bytes verdict).

Fixpoint gen_chains (counters : bool) (hook : nat) (ruleset : list ipt_slot) (off : Z) (replace : ipt_replace) :
    M ipt_replace :=
  match ruleset with
  | [] => mret replace
  | (_, None) :: ruleset => gen_chains counters (S hook) ruleset off replace
  | (cgen, Some chain) :: ruleset =>
      let n := Z.of_nat (length (chain_rules chain)) in
      let sz := Z.of_nat rule_size in
      entries ← gen_chain counters cgen chain;
      gen_chains counters (S hook) ruleset (off + (n + 1) * sz)
        (mk_ipt_replace (Z.lor (ir_valid_hooks replace) (2 ^ Z.of_nat hook)) (ir_num_entries replace) (ir_size replace)
           (<[hook := u32 off]> (ir_hook_entry replace)) (<[hook := u32 (off + n * sz)]> (ir_underflow replace))
           (ir_entries replace ++ entries))
  end.

Definition _bf_ipt_gen_ipt_replace (counters : bool) : M ipt_replace :=
  ctx ← obj_get;
  x ← st_lift (_bf_ipt_gen_get_ruleset ctx);
  let nrules := snd x in
  let size := Z.of_nat (nrules * rule_size + (sizeof_ipt_entry + sizeof_xt_error_target)) in
  replace ← gen_chains counters 0 (fst x) 0
    (mk_ipt_replace 0 (u32 (Z.of_nat nrules + 1)) (u32 size) (replicate 5 0) (replicate 5 0) []);
  mret (mk_ipt_replace (ir_valid_hooks replace) (ir_num_entries replace) (ir_size replace) (ir_hook_entry replace)
          (ir_underflow replace)
          (let entries := ir_entries replace ++ error_entry_bytes in
           entries ++ replicate (Z.to_nat size - length entries) 0)).

(** The C string at the beginning of [data] is "filter". *)
Definition is_filter (data : list Z) : bool := bool_decide (take 7 data = str_bytes "filter" ++ [0]).

Definition _bf_ipt_get_info_handler (request : bf_request) : M bf_response :=
  let info := bf_request_data request in
  if negb (length info =? sizeof_ipt_getinfo)%nat then st_err (- BF_CRASH)
  else if negb (is_filter info) then st_err (- EINVAL)
  else
    replace ← _bf_ipt_gen_ipt_replace false;
    mret (bf_response_new_success (take 32 info ++ le_split 4 (ir_valid_hooks replace) ++
      (ir_hook_entry replace ≫= le_split 4) ++ (ir_underflow replace ≫= le_split 4) ++
      le_split 4 (ir_num_entries replace) ++ le_split 4 (ir_size replace))).

(** The entries are copied after the header of the request, which has to leave
    room for them. *)
Definition _bf_ipt_get_entries_handler (request : bf_request) : M bf_response :=
  let entries := bf_request_data request in
  if (length entries <? sizeof_ipt_get_entries)%nat then st_err (- BF_CRASH)
  else if negb (is_filter entries) then st_err (- EINVAL)
  else
    replace ← _bf_ipt_gen_ipt_replace true;
    if negb (field 32 4 entries =? ir_size replace) then st_err (- EINVAL)
    else if (length entries <? sizeof_ipt_get_entries + length (ir_entries replace))%nat then st_err (- BF_CRASH)
    else mret (bf_response_new_success (take sizeof_ipt_get_entries entries ++ ir_entries replace)).

(** * Setting the ruleset *)

Definition ipt_hookopts : bf_hookopts :=
  hookopts_use BF_HOOKOPTS_PRIORITIES (hookopts_use BF_HOOKOPTS_FAMILY
    (with_priorities BF_IPT_PRIO_0 BF_IPT_PRIO_1 (with_family PF_INET bf_hookopts_new))).

(** The cgen of each hook. *)
Fixpoint current_cgens (i : nat) (ctx : bf_ctx) (cur : list (option nat)) : res (list (option nat)) :=
  match ctx with
  | [] => Ok cur
  | cg :: ctx =>
      if of_front BF_FRONT_IPT cg then
        match nf_hook_index (bf_hook_to_nf_hook (chain_hook (cgen_chain cg))) with
        | None => Err (- BF_CRASH)
        | Some h =>
            match cur !! h with
            | Some (Some _) => Err (- EEXIST)
            | _ => current_cgens (S i) ctx (<[h := Some i]> cur)
            end
        end
      else current_cgens (S i) ctx cur
  end.

(** A step that is skipped when it fails: its status is kept, and the cgen is
    freed, but not unloaded. *)
Definition or_skip (cg : bf_cgen) (m : st (bf_cgen * K) unit) (next : bf_cgen -> M (res unit)) : M (res unit) :=
  fun '(ctx, k) =>
    match m (cg, k) with
    | (Ok _, (cg, k)) => next cg (ctx, k)
    | (Err e, (cg, k)) =>
        if e =? - BF_CRASH then (Err e, (ctx, bf_cgen_free d cg k)) else (Ok (Err e), (ctx, bf_cgen_free d cg k))
    end.

Definition new_ipt_cgen (ns : bf_ns) (chain : bf_chain) : M (res unit) :=
  match bf_cgen_new BF_FRONT_IPT chain with
  | Err e => free_refused d e
  | Ok cg =>
      or_skip cg (bf_cgen_load d) (fun cg =>
      or_skip cg (bf_cgen_attach d ns ipt_hookopts) (fun cg '(ctx, k) =>
        match _bf_ctx_set_cgen cg (ctx, k) with
        | (Ok _, s) => (Ok (Ok tt), s)
        | (Err e, (ctx, k)) => (Ok (Err e), (ctx, bf_cgen_free d cg k))
        end))
  end.

Definition update_ipt_cgen (i : nat) (chain : bf_chain) : M (res unit) :=
  fun '(ctx, k) =>
    match ctx !! i with
    | None => (Err (- BF_CRASH), (ctx, k))
    | Some cg =>
        let '(r, (cg, k)) := bf_cgen_update d chain (cg, k) in
        match r with
        | Err e => if e =? - BF_CRASH then (Err e, (<[i := cg]> ctx, k)) else (Ok (Err e), (<[i := cg]> ctx, k))
        | Ok _ => (Ok (Ok tt), (<[i := cg]> ctx, k))
        end
    end.

(** One hook: [status] is that of the hooks before.  A cgen whose hook has no
    chain in the request is freed although the context still has it. *)
Definition set_hook (ns : bf_ns) (cgen : option nat) (chain : option bf_chain) (status : res unit) : M (res unit) :=
  match chain, cgen with
  | None, None => mret status
  | None, Some _ => st_err (- BF_CRASH)
  | Some chain, None => new_ipt_cgen ns chain
  | Some chain, Some i => update_ipt_cgen i chain
  end.

Fixpoint set_hooks (ns : bf_ns) (cgens : list (option nat)) (chains : list (option bf_chain)) (status : res unit) :
    M (res unit) :=
  match cgens, chains with
  | cgen :: cgens, chain :: chains =>
      status ← set_hook ns cgen chain status;
      set_hooks ns cgens chains status
  | _, _ => mret status
  end.

Definition _bf_ipt_ruleset_set (request : bf_request) : M unit :=
  let data := bf_request_data request in
  size ← st_lift (rd data replace_size 4);
  if negb (Z.of_nat sizeof_ipt_replace + size =? bf_request_data_len request) then st_err (- EINVAL)
  else
    chains ← st_lift (_bf_ipt_xlate_ruleset_set data);
    ctx ← obj_get;
    cgens ← st_lift (current_cgens 0 ctx (replicate NF_INET_NUMHOOKS None));
    status ← set_hooks (default (ctx_ns d) (bf_request_ns request)) cgens chains (Ok tt);
    st_lift status.

Definition _bf_ipt_set_counters_handler (data : list Z) : res unit := Ok tt.

(** * Dispatch *)

Definition IPT_SO_GET_INFO : Z := 64.
Definition IPT_SO_GET_ENTRIES : Z := 65.

Definition _bf_ipt_request_handler (request : bf_request) : M bf_response :=
  match request_cmd request with
  | BF_REQ_RULESET_SET =>
      _bf_ipt_ruleset_set request ;;
      mret (bf_response_new_success (bf_request_data request))
  | BF_REQ_COUNTERS_SET =>
      st_lift (_bf_ipt_set_counters_handler (bf_request_data request)) ;;
      mret (bf_response_new_success (bf_request_data request))
  | BF_REQ_CUSTOM =>
      if bf_request_ipt_cmd request =? IPT_SO_GET_INFO then _bf_ipt_get_info_handler request
      else if bf_request_ipt_cmd request =? IPT_SO_GET_ENTRIES then _bf_ipt_get_entries_handler request
      else st_err (- ENOTSUP)
  | _ => st_err (- ENOTSUP)
  end.
End Ipt.

(** * The client *)

Definition sizeof_xt_counters_info : nat := 40.
Definition sizeof_xt_counters : nat := 16.

Section IptClient.
Context {S : Type} (peer : list (list Z) -> S -> res (list packet) * S).

(** A structure is sent, and replaced by the one of the answer. *)
Definition ipt_exchange (cmd : bf_request_cmd) (ipt_cmd : Z) (data : list Z) : st S (list Z) :=
  let request := bf_request_set_ipt_cmd (bf_request_new BF_FRONT_IPT cmd data) ipt_cmd in
  response ← bf_send peer request;
  st_lift (status response) ;;
  if negb (bf_response_data_len response =? bf_request_data_len request) then st_err (- EINVAL)
  else mret (bf_response_data response).

(** The structure is the beginning of the memory [data]: its size is one of
    its fields. *)
Definition bf_ipt_replace (data : list Z) : st S (list Z) :=
  size ← st_lift (rd data replace_size 4);
  bytes ← st_lift (rd_bytes data 0 (sizeof_ipt_replace + Z.to_nat size));
  ipt_exchange BF_REQ_RULESET_SET 0 bytes.

Definition bf_ipt_add_counters (data : list Z) : st S (list Z) :=
  num_counters ← st_lift (rd data 32 4);
  bytes ← st_lift (rd_bytes data 0 (sizeof_xt_counters_info + Z.to_nat num_counters * sizeof_xt_counters));
  ipt_exchange BF_REQ_COUNTERS_SET 0 bytes.

Definition bf_ipt_get_info (data : list Z) : st S (list Z) :=
  bytes ← st_lift (rd_bytes data 0 sizeof_ipt_getinfo);
  ipt_exchange BF_REQ_CUSTOM IPT_SO_GET_INFO bytes.

Definition bf_ipt_get_entries (data : list Z) : st S (list Z) :=
  size ← st_lift (rd data 32 4);
  bytes ← st_lift (rd_bytes data 0 (sizeof_ipt_get_entries + Z.to_nat size));
  ipt_exchange BF_REQ_CUSTOM IPT_SO_GET_ENTRIES bytes.

(** What is written over the structure has its size. *)
Lemma ipt_exchange_length cmd ipt_cmd data s data' s' :
  ipt_exchange cmd ipt_cmd data s = (Ok data', s') -> length data' = length data.
Proof.
  unfold ipt_exchange. intros E. st_inv E.
  destruct (Z.eqb_spec (bf_response_data_len a)
    (bf_request_data_len (bf_request_set_ipt_cmd (bf_request_new BF_FRONT_IPT cmd data) ipt_cmd))) as [Hl|]; [|done].
  injection E as <- _. unfold bf_response_data_len, bf_request_data_len in Hl. cbn in Hl. lia.
Qed.
End IptClient.

(** * The loop over the entries as a step relation *)

Section Entries.
Context (data : list Z) (last : nat).

(** One turn of the loop: the entry is added, and the next one is further. *)
Inductive entry_step : nat * bf_chain -> nat * bf_chain -> Prop :=
  | entry_step_next first chain rule next_offset :
      (first < last)%nat -> _bf_ipt_entry_to_rule data first = Ok rule ->
      rd data (first + entry_next_offset) 2 = Ok next_offset -> 0 < next_offset ->
      entry_step (first, chain) (first + Z.to_nat next_offset, bf_chain_add_rule chain rule)%nat.

(** Where no turn leads further: the last entry, an entry that is refused, one
    whose offset is outside of the request, and one that is followed by
    itself, which the loop adds for ever. *)
Inductive entry_ends : nat * bf_chain -> res bf_chain -> Prop :=
  | entry_ends_last first chain : (last <= first)%nat -> entry_ends (first, chain) (Ok chain)
  | entry_ends_refused first chain e :
      (first < last)%nat -> _bf_ipt_entry_to_rule data first = Err e -> entry_ends (first, chain) (Err e)
  | entry_ends_outside first chain rule e :
      (first < last)%nat -> _bf_ipt_entry_to_rule data first = Ok rule ->
      rd data (first + entry_next_offset) 2 = Err e -> entry_ends (first, chain) (Err e)
  | entry_ends_stays first chain rule :
      (first < last)%nat -> _bf_ipt_entry_to_rule data first = Ok rule ->
      rd data (first + entry_next_offset) 2 = Ok 0 -> entry_ends (first, chain) (Err (- BF_CRASH)).

Lemma rd_nonneg o n v : is_bytes data -> rd data o n = Ok v -> 0 <= v.
Proof.
  unfold rd, field. intros Hb E. destruct (_ <=? _)%nat; [|done]. injection E as <-.
  apply le_combine_bound. by apply is_bytes_sub.
Qed.

(** A turn gets closer to the last entry, and nowhere else. *)
Lemma entry_step_measure s t : entry_step s t -> (last - fst t < last - fst s)%nat.
Proof. destruct 1; cbn; lia. Qed.

Lemma entry_step_rules s t : entry_step s t -> length (chain_rules (snd t)) = S (length (chain_rules (snd s))).
Proof. destruct 1; cbn. rewrite length_app. cbn. lia. Qed.

Lemma entry_step_det s t u : entry_step s t -> entry_step s u -> t = u.
Proof. intros Ht Hu. inversion Ht; subst. inversion Hu; subst. repeat f_equal; congruence. Qed.

Lemma entry_ends_stuck s r t : entry_ends s r -> ~ entry_step s t.
Proof. intros He Ht. inversion Ht; subst. inversion He; subst; try congruence; try lia.
  assert (next_offset = 0) by congruence. lia.
Qed.

Lemma entry_steps_measure n s t : nsteps entry_step n s t -> (n <= last - fst s)%nat.
Proof.
  revert s. induction n as [|n IH]; intros s Hs; [lia|].
  inversion Hs as [|? ? u ? Hu Ht]; subst. specialize (IH u Ht). pose proof (entry_step_measure s u Hu). lia.
Qed.

Lemma entry_steps_rules n s t : nsteps entry_step n s t ->
  length (chain_rules (snd t)) = (length (chain_rules (snd s)) + n)%nat.
Proof. induction 1 as [s|n s u t Hu _ IH]; [lia|]. rewrite IH, (entry_step_rules s u Hu). lia. Qed.

(** No run is longer than one that is stuck. *)
Lemma entry_steps_longest n m s t u r : nsteps entry_step n s t -> entry_ends t r ->
  nsteps entry_step m s u -> (m <= n)%nat.
Proof.
  intros Ht He. revert m u. induction Ht as [s|n s v t Hv _ IH]; intros m u Hu.
  - destruct Hu as [|m s v u Hv _]; [done|]. by destruct (entry_ends_stuck _ _ _ He Hv).
  - destruct Hu as [|m s w u Hw Hu]; [lia|]. apply le_n_S.
    apply (IH He m u). by rewrite (entry_step_det _ _ _ Hv Hw).
Qed.

(** Fuel that reaches the last entry is never missed. *)
Lemma entries_run fuel first chain : is_bytes data -> (last - first <= fuel)%nat ->
  exists n t, nsteps entry_step n (first, chain) t /\ entry_ends t (entries_to_rules fuel data first last chain).
Proof.
  intros Hb. revert first chain. induction fuel as [|fuel IH]; intros first chain Hf; cbn [entries_to_rules];
    destruct (Nat.leb_spec last first) as [Hl|Hl]; try lia.
  1,2: by exists 0%nat; eexists; split; [constructor|by constructor].
  destruct (_bf_ipt_entry_to_rule data first) as [rule|e] eqn:Er; cbn [rbind].
  2: by exists 0%nat; eexists; split; [constructor|by econstructor].
  destruct (rd data (first + entry_next_offset) 2) as [off|e] eqn:Eo; cbn [rbind].
  2: by exists 0%nat; eexists; split; [constructor|by econstructor].
  destruct (Z.eqb_spec off 0) as [->|Hne].
  { exists 0%nat. eexists. split; [constructor|by econstructor]. }
  pose proof (rd_nonneg _ _ _ Hb Eo).
  destruct (IH (first + Z.to_nat off)%nat (bf_chain_add_rule chain rule)) as (n & t & Ht & He); [lia|].
  exists (S n), t. split; [|done]. eapply nsteps_l; [|done]. by constructor; [..|lia].
Qed.
End Entries.
