(* ===== verification/IptSpec.v ===== *)
(** The rulesets of iptables: what [_bf_ipt_gen_ipt_replace] generates is read
    by [_bf_ipt_xlate_ruleset_set] as the chains it was made of.

    A rule is written as an entry and its target ([block_bytes]), and read back
    ([entry_to_rule]); a chain as its rules and its policy ([chain_bytes],
    [chain_entries_read]); the structure says where the chain of each hook begins and
    where its policy is ([slot_written], [hook_read]). *)

From S2P Require Import Prelude Bytes Bpf Helper Pack Hook Hookopts Matcher BfSet Sys Io Map Rule.
From S2P Require Import Chain Printer Serial Program Block BlockExec Fixups Flavors Load Cgen Request.
From S2P Require Import Ctx Client Ipt.

(** * What iptables can have set

    A rule has at most an address of the source, one of the destination and a
    protocol, in this order; networks are left out, since their masks are not
    what the code takes them for. *)
Record ipt_rule : Type := mk_ipt_rule {
  it_src : option (bf_matcher_op * list Z);
  it_dst : option (bf_matcher_op * list Z);
  it_proto : option Z;
  it_verdict : bf_verdict
}.

Definition address_ok (a : option (bf_matcher_op * list Z)) : Prop :=
  match a with
  | Some (op, addr) => (op = BF_MATCHER_EQ \/ op = BF_MATCHER_NE) /\ is_bytes addr /\ length addr = 4%nat
  | None => True
  end.

Record ipt_rule_ok (t : ipt_rule) : Prop := mk_ipt_rule_ok {
  io_src : address_ok (it_src t);
  io_dst : address_ok (it_dst t);
  io_proto : match it_proto t with Some p => 0 < p < 2 ^ 8 | None => True end;
  io_verdict : it_verdict t = BF_VERDICT_ACCEPT \/ it_verdict t = BF_VERDICT_DROP
}.

Definition address_matcher (type : bf_matcher_type) (a : option (bf_matcher_op * list Z)) : list bf_matcher :=
  match a with Some (op, addr) => [bf_matcher_new type op addr] | None => [] end.

Definition rule_of (t : ipt_rule) : bf_rule :=
  mk_rule 0
    (address_matcher BF_MATCHER_IP4_SADDR (it_src t) ++ address_matcher BF_MATCHER_IP4_DADDR (it_dst t) ++
     match it_proto t with Some p => [bf_matcher_new BF_MATCHER_IP4_PROTO BF_MATCHER_EQ [p]] | None => [] end)
    0 0 true (it_verdict t).

(** The chains of the front end: the rules are of this kind. *)
Definition ipt_chain (name : string) (hook : bf_hook) (policy : bf_verdict) (ts : list ipt_rule) : bf_chain :=
  bf_chain_new name hook policy [] (rule_of <$> ts).

(** * Reading what was written *)

Lemma rd_sub data o len bs k n : sub_bytes o len data = bs -> length bs = len -> (0 < n)%nat -> (k + n <= len)%nat ->
  rd data (o + k) n = Ok (field k n bs).
Proof.
  intros Hs Hl Hn Hk.
  pose proof (f_equal length Hs) as Hlen. unfold sub_bytes in Hlen. rewrite length_take, length_drop, Hl in Hlen.
  unfold rd, field. destruct (Nat.leb_spec (o + k + n) (length data)) as [_|]; [|lia].
  subst bs. by rewrite sub_bytes_sub.
Qed.

(** The fields of an entry, and of its target. *)
Record entry_ok (e : ipt_entry) : Prop := mk_entry_ok {
  eo_src : 0 <= ie_src e < 2 ^ 32;
  eo_smsk : 0 <= ie_smsk e < 2 ^ 32;
  eo_dst : 0 <= ie_dst e < 2 ^ 32;
  eo_dmsk : 0 <= ie_dmsk e < 2 ^ 32;
  eo_proto : 0 <= ie_proto e < 2 ^ 8;
  eo_invflags : 0 <= ie_invflags e < 2 ^ 8;
  eo_next : 0 <= ie_next_offset e < 2 ^ 16
}.

Section Reads.
Context (data : list Z) (o : nat) (e : ipt_entry) (v : Z).
Context (He : entry_ok e) (Hb : sub_bytes o rule_size data = entry_bytes e ++ standard_target_bytes v).

Lemma rd_entry k n : (0 < n)%nat -> (k + n <= rule_size)%nat ->
  rd data (o + k) n = Ok (field k n (entry_bytes e ++ standard_target_bytes v)).
Proof using Hb. intros Hn Hk. by apply (rd_sub _ _ _ _ _ _ Hb). Qed.

Lemma field_split k n z (bs : list Z) : sub_bytes k n bs = le_split n z -> field k n bs = z mod 256 ^ Z.of_nat n.
Proof. intros E. unfold field. by rewrite E, le_combine_split. Qed.

Lemma rd_fields :
  rd data (o + entry_src) 4 = Ok (ie_src e) /\ rd data (o + entry_dst) 4 = Ok (ie_dst e) /\
  rd data (o + entry_smsk) 4 = Ok (ie_smsk e) /\ rd data (o + entry_dmsk) 4 = Ok (ie_dmsk e) /\
  rd data (o + entry_iniface) 1 = Ok 0 /\ rd data (o + entry_outiface) 1 = Ok 0 /\
  rd data (o + entry_proto) 2 = Ok (ie_proto e) /\ rd data (o + entry_invflags) 1 = Ok (ie_invflags e) /\
  rd data (o + entry_target_offset) 2 = Ok (Z.of_nat sizeof_ipt_entry) /\
  rd data (o + entry_next_offset) 2 = Ok (ie_next_offset e).
Proof using He Hb.
  destruct He. unfold entry_src, entry_dst, entry_smsk, entry_dmsk, entry_iniface, entry_outiface, entry_proto,
    entry_invflags, entry_target_offset, entry_next_offset.
  split_and!; rewrite rd_entry by (unfold rule_size, sizeof_ipt_entry, sizeof_xt_standard_target; lia); f_equal.
  - rewrite (field_split _ _ (ie_src e)) by reflexivity. by apply Z.mod_small.
  - rewrite (field_split _ _ (ie_dst e)) by reflexivity. by apply Z.mod_small.
  - rewrite (field_split _ _ (ie_smsk e)) by reflexivity. by apply Z.mod_small.
  - rewrite (field_split _ _ (ie_dmsk e)) by reflexivity. by apply Z.mod_small.
  - rewrite (field_split _ _ (ie_proto e)) by reflexivity. apply Z.mod_small. change (256 ^ Z.of_nat 2) with (2 ^ 16). lia.
  - unfold field. change (sub_bytes 83 1 _) with [ie_invflags e]. cbn. lia.
  - rewrite (field_split _ _ (ie_next_offset e)) by reflexivity. by apply Z.mod_small.
Qed.

(** The target follows the entry. *)
Lemma rd_target verdict : _bf_verdict_to_ipt_target verdict = Ok v ->
  _bf_ipt_target_to_verdict data (o + sizeof_ipt_entry) = Ok verdict.
Proof using Hb.
  intros Hv. unfold _bf_ipt_target_to_verdict, target_name, target_verdict, sizeof_ipt_entry.
  rewrite <- !Nat.add_assoc. rewrite !rd_entry by (unfold rule_size, sizeof_ipt_entry, sizeof_xt_standard_target; lia).
  change (field (112 + 2) 1 (entry_bytes e ++ standard_target_bytes v)) with 0. cbn [rbind negb Z.eqb].
  rewrite (field_split (112 + 32) 4 v) by reflexivity.
  destruct verdict; cbn in Hv; try done; injection Hv as <-; reflexivity.
Qed.
End Reads.

(** * A rule *)

Definition address_word (a : option (bf_matcher_op * list Z)) : Z :=
  match a with Some (_, addr) => le_combine addr | None => 0 end.
Definition address_mask (a : option (bf_matcher_op * list Z)) : Z :=
  match a with Some _ => ip4_host | None => 0 end.
Definition address_flag (flag : Z) (a : option (bf_matcher_op * list Z)) : Z :=
  match a with Some (BF_MATCHER_NE, _) => flag | _ => 0 end.

Definition entry_of (t : ipt_rule) : ipt_entry :=
  mk_ipt_entry (address_word (it_src t)) (address_word (it_dst t)) (address_mask (it_src t)) (address_mask (it_dst t))
    (default 0 (it_proto t)) (Z.lor (address_flag IPT_INV_SRCIP (it_src t)) (address_flag IPT_INV_DSTIP (it_dst t)))
    (Z.of_nat rule_size) 0 0.

Definition verdict_of (v : bf_verdict) : Z := match v with BF_VERDICT_ACCEPT => -2 | _ => -1 end.

Lemma verdict_to_target v : v = BF_VERDICT_ACCEPT \/ v = BF_VERDICT_DROP -> _bf_verdict_to_ipt_target v = Ok (verdict_of v).
Proof. by intros [-> | ->]. Qed.

Lemma take_all_addr (addr : list Z) : length addr = 4%nat -> take 4 addr = addr.
Proof. intros <-. apply firstn_all. Qed.

Lemma rule_to_entry r t : ipt_rule_ok t -> rule_matchers r = rule_matchers (rule_of t) -> rule_verdict r = it_verdict t ->
  _bf_rule_to_ipt_entry r zero_entry = Ok (entry_of t, verdict_of (it_verdict t)).
Proof.
  intros [Hs Hd Hp Hv] Hm Hrv. unfold _bf_rule_to_ipt_entry. rewrite Hm, Hrv, verdict_to_target by done.
  destruct t as [src dst proto v]. cbn [rule_of rule_matchers it_src it_dst it_proto it_verdict] in *.
  unfold entry_of. cbn [it_src it_dst it_proto].
  destruct src as [[sop saddr]|], dst as [[dop daddr]|], proto as [p|]; cbn [address_ok] in Hs, Hd;
    repeat match goal with H : (_ \/ _) /\ _ /\ _ |- _ => destruct H as ([-> | ->] & ? & ?) end;
    cbn [address_matcher app matchers_to_entry matcher_to_entry matcher_type matcher_op matcher_payload bf_matcher_new rbind];
    unfold payload_has, payload_u32, payload_u8; cbn [matcher_payload bf_matcher_new];
    repeat match goal with H : length ?a = 4%nat |- context [(4 <=? length ?a)%nat] => rewrite H end;
    cbn [Nat.leb length rbind matchers_to_entry]; rewrite ?take_all_addr by done;
    cbn; rewrite ?Z.add_0_r; reflexivity.
Qed.

Lemma address_word_range a : address_ok a -> 0 <= address_word a < 2 ^ 32.
Proof.
  destruct a as [[op addr]|]; cbn; [|lia]. intros (_ & Hb & Hl). pose proof (le_combine_bound addr Hb) as H.
  rewrite Hl in H. exact H.
Qed.

Lemma entry_of_ok t c : ipt_rule_ok t -> entry_ok (with_xt_counters c (entry_of t)).
Proof.
  intros [Hs Hd Hp Hv]. constructor; cbn.
  - by apply address_word_range.
  - destruct (it_src t); cbn; unfold ip4_host, UINT32_MAX; lia.
  - by apply address_word_range.
  - destruct (it_dst t); cbn; unfold ip4_host, UINT32_MAX; lia.
  - destruct (it_proto t); cbn; lia.
  - destruct (it_src t) as [[[] ?]|], (it_dst t) as [[[] ?]|]; by vm_compute.
  - by vm_compute.
Qed.

Lemma address_read data o addr_off mask_off flag t nt a invflags rule :
  address_ok a -> rd data (o + addr_off) 4 = Ok (address_word a) -> rd data (o + mask_off) 4 = Ok (address_mask a) ->
  rd data (o + entry_invflags) 1 = Ok invflags -> (Z.land invflags flag =? 0) = (address_flag flag a =? 0) -> flag <> 0 ->
  ipt_addr data o addr_off mask_off flag t nt rule =
  Ok (mk_rule (rule_index rule) (rule_matchers rule ++ address_matcher t a) (rule_log rule) (rule_mark rule)
        (rule_counters rule) (rule_verdict rule)).
Proof.
  intros Ha Hw Hm Hi Hf Hne. unfold ipt_addr. rewrite Hw, Hm. cbn [rbind]. destruct a as [[op addr]|]; cbn [address_mask address_word].
  - change (ip4_host =? 0) with false. rewrite andb_false_r, Hi. cbn [rbind]. change (ip4_host =? ip4_host) with true.
    destruct Ha as (Hop & Hb & Hl). unfold bf_rule_add_matcher. cbn [address_matcher]. 
    assert (le_split 4 (le_combine addr) = addr) as -> by (rewrite <- Hl; by apply le_split_combine).
    unfold inverted. rewrite Hf. cbn [address_flag]. destruct Hop as [-> | ->]; [done|].
    by rewrite (proj2 (Z.eqb_neq _ _) Hne).
  - cbn. rewrite app_nil_r. by destruct rule.
Qed.

(** An entry is read as the rule it was made of. *)
Lemma entry_to_rule data o t c : ipt_rule_ok t ->
  sub_bytes o rule_size data = entry_bytes (with_xt_counters c (entry_of t)) ++ standard_target_bytes (verdict_of (it_verdict t)) ->
  _bf_ipt_entry_to_rule data o = Ok (rule_of t) /\ rd data (o + entry_next_offset) 2 = Ok (Z.of_nat rule_size).
Proof.
  intros Ht Hb. pose proof Ht as [Hs Hd Hp Hv].
  destruct (rd_fields _ _ _ _ (entry_of_ok t c Ht) Hb) as (R1 & R2 & R3 & R4 & R5 & R6 & R7 & R8 & R9 & R10).
  split; [|exact R10]. unfold _bf_ipt_entry_to_rule. rewrite R9. cbn [rbind]. rewrite Z.ltb_irrefl, R5. cbn [rbind negb Z.eqb].
  rewrite R6. cbn [rbind negb Z.eqb orb].
  cbn [with_xt_counters entry_of ie_src ie_dst ie_smsk ie_dmsk ie_proto ie_invflags] in *.
  rewrite (address_read _ _ _ _ _ _ _ (it_src t) _ _ Hs R1 R3 R8);
    [|by destruct (it_src t) as [[[] ?]|], (it_dst t) as [[[] ?]|]|done].
  cbn [rbind]. rewrite (address_read _ _ _ _ _ _ _ (it_dst t) _ _ Hd R2 R4 R8);
    [|by destruct (it_src t) as [[[] ?]|], (it_dst t) as [[[] ?]|]|done].
  cbn [rbind]. rewrite R7. cbn [rbind]. rewrite Nat2Z.id.
  rewrite (rd_target _ _ _ _ Hb (it_verdict t)) by (by apply verdict_to_target).
  destruct t as [src dst [p|] v]; cbn [from_option id it_proto it_src it_dst it_verdict] in *.
  - rewrite (proj2 (Z.eqb_neq p 0)) by lia. unfold u8. rewrite Z.mod_small, Z.eqb_refl by lia. cbn [rbind negb].
    unfold rule_of, with_verdict, bf_rule_add_matcher, with_counters, bf_rule_new. cbn. do 2 f_equal. by rewrite <- app_assoc.
  - cbn [Z.eqb rbind]. unfold rule_of, with_verdict, with_counters, bf_rule_new. cbn. by rewrite app_nil_r.
Qed.

(** * The entries of a chain *)

Definition block_bytes (t : ipt_rule) (c : bf_counter) : list Z :=
  entry_bytes (with_xt_counters c (entry_of t)) ++ standard_target_bytes (verdict_of (it_verdict t)).

(** Rules are written one after the other, whatever their counters. *)
Inductive rules_bytes : list ipt_rule -> list Z -> Prop :=
  | rules_bytes_nil : rules_bytes [] []
  | rules_bytes_cons t ts c bs : rules_bytes ts bs -> rules_bytes (t :: ts) (block_bytes t c ++ bs).

(** The policy is that of a rule without matchers. *)
Definition policy_rule (policy : bf_verdict) : ipt_rule := mk_ipt_rule None None None policy.

Definition chain_bytes (ts : list ipt_rule) (policy : bf_verdict) (bs : list Z) : Prop :=
  exists rules c, bs = rules ++ block_bytes (policy_rule policy) c /\ rules_bytes ts rules.

Lemma length_block_bytes t c : length (block_bytes t c) = rule_size.
Proof. reflexivity. Qed.

Lemma length_rules_bytes ts bs : rules_bytes ts bs -> length bs = (length ts * rule_size)%nat.
Proof.
  induction 1 as [|t ts c bs _ IH]; [done|]. rewrite length_app, length_block_bytes, IH. cbn [length]. lia.
Qed.

Lemma sub_bytes_middle (pre mid post : list Z) : sub_bytes (length pre) (length mid) (pre ++ mid ++ post) = mid.
Proof. unfold sub_bytes. by rewrite drop_app_length, take_app_length. Qed.

Lemma policy_rule_ok policy : policy = BF_VERDICT_ACCEPT \/ policy = BF_VERDICT_DROP -> ipt_rule_ok (policy_rule policy).
Proof. by constructor. Qed.

Lemma entries_read ts bs pre post fuel chain : rules_bytes ts bs -> Forall ipt_rule_ok ts -> (length bs <= fuel)%nat ->
  entries_to_rules fuel (pre ++ bs ++ post) (length pre) (length pre + length bs) chain =
  Ok (foldl bf_chain_add_rule chain (rule_of <$> ts)).
Proof.
  intros Hb. revert pre fuel chain. induction Hb as [|t ts c bs _ IH]; intros pre fuel chain Hts Hf.
  { destruct fuel; cbn [entries_to_rules length]; by rewrite Nat.add_0_r, Nat.leb_refl. }
  apply Forall_cons in Hts as [Ht Hts]. rewrite length_app, length_block_bytes in *.
  destruct fuel as [|fuel]; [unfold rule_size, sizeof_ipt_entry in Hf; lia|]. cbn [entries_to_rules].
  destruct (Nat.leb_spec (length pre + (rule_size + length bs)) (length pre)) as [H|_];
    [unfold rule_size, sizeof_ipt_entry in H; lia|].
  assert (sub_bytes (length pre) rule_size (pre ++ (block_bytes t c ++ bs) ++ post) = block_bytes t c) as Hsub
    by (rewrite <- app_assoc, <- (length_block_bytes t c); apply sub_bytes_middle).
  destruct (entry_to_rule _ _ _ _ Ht Hsub) as [-> ->]. cbn [rbind].
  change (Z.of_nat rule_size =? 0) with false. cbn [fmap list_fmap foldl]. rewrite Nat2Z.id.
  replace (pre ++ (block_bytes t c ++ bs) ++ post) with ((pre ++ block_bytes t c) ++ bs ++ post) by (by rewrite <- !app_assoc).
  replace (length pre + rule_size)%nat with (length (pre ++ block_bytes t c)) by (by rewrite length_app, length_block_bytes).
  replace (length pre + (rule_size + length bs))%nat with (length (pre ++ block_bytes t c) + length bs)%nat
    by (rewrite length_app, length_block_bytes; lia).
  apply IH; [done|]. unfold rule_size, sizeof_ipt_entry, sizeof_xt_standard_target in *. lia.
Qed.

Lemma index_rules_snoc i rs r :
  chain_index_rules i (rs ++ [r]) = chain_index_rules i rs ++ [rule_set_index (i + Z.of_nat (length rs)) r].
Proof.
  revert i. induction rs as [|r0 rs IH]; intros i; cbn [app chain_index_rules length].
  - by rewrite Z.add_0_r.
  - rewrite IH. do 3 f_equal. by replace (i + 1 + Z.of_nat (length rs)) with (i + Z.of_nat (S (length rs))) by lia.
Qed.

Lemma length_index_rules i rs : length (chain_index_rules i rs) = length rs.
Proof. revert i. induction rs as [|r rs IH]; intros i; cbn; [done|]. by rewrite IH. Qed.

(** Adding rules one by one gives the chain that has all of them. *)
Lemma add_rules_new name hook policy sets rs0 rs :
  foldl bf_chain_add_rule (bf_chain_new name hook policy sets rs0) rs = bf_chain_new name hook policy sets (rs0 ++ rs).
Proof.
  revert rs0. induction rs as [|r rs IH]; intros rs0; cbn [foldl]; [by rewrite app_nil_r|].
  replace (rs0 ++ r :: rs) with ((rs0 ++ [r]) ++ rs) by (by rewrite <- app_assoc). rewrite <- IH. f_equal.
  unfold bf_chain_add_rule, bf_chain_new. cbn [chain_name chain_flags chain_hook chain_policy chain_sets chain_rules].
  by rewrite foldl_app, index_rules_snoc, length_index_rules.
Qed.

Lemma chain_entries_read ts policy bs pre post hook name : chain_bytes ts policy bs -> Forall ipt_rule_ok ts ->
  policy = BF_VERDICT_ACCEPT \/ policy = BF_VERDICT_DROP -> bf_nf_hook_to_str hook = Some name ->
  _bf_ipt_entries_to_chain (pre ++ bs ++ post) hook (length pre) (length pre + length ts * rule_size) =
  Ok (ipt_chain name (bf_hook_from_nf_hook hook) policy ts).
Proof.
  intros (rules & c & -> & Hr) Hts Hp Hn. unfold _bf_ipt_entries_to_chain.
  rewrite <- (length_rules_bytes _ _ Hr).
  replace (pre ++ (rules ++ block_bytes (policy_rule policy) c) ++ post)
    with ((pre ++ rules) ++ block_bytes (policy_rule policy) c ++ post) by (by rewrite <- !app_assoc).
  pose proof (sub_bytes_middle (pre ++ rules) (block_bytes (policy_rule policy) c) post) as Hsub.
  rewrite length_block_bytes, length_app in Hsub.
  destruct (rd_fields _ _ _ _ (entry_of_ok _ c (policy_rule_ok _ Hp)) Hsub) as (_ & _ & _ & _ & _ & _ & _ & _ & -> & _).
  cbn [rbind]. rewrite Nat2Z.id, (rd_target _ _ _ _ Hsub policy) by (by apply verdict_to_target).
  cbn [rbind]. rewrite Hn. cbn [of_option rbind].
  replace (length pre + length rules - length pre)%nat with (length rules) by lia.
  rewrite <- app_assoc, (entries_read ts rules) by (done || lia). f_equal. apply add_rules_new.
Qed.

(** * What is generated *)

(** A chain that can have come from a request: that of its hook. *)
Record front_chain (hook : bf_nf_inet_hooks) (chain : bf_chain) (ts : list ipt_rule) : Prop := mk_front_chain {
  fc_name : exists name, bf_nf_hook_to_str hook = Some name /\
    chain = ipt_chain name (bf_hook_from_nf_hook hook) (chain_policy chain) ts;
  fc_policy : chain_policy chain = BF_VERDICT_ACCEPT \/ chain_policy chain = BF_VERDICT_DROP;
  fc_rules : Forall ipt_rule_ok ts
}.

Definition slot_ok (hook : bf_nf_inet_hooks) (slot : ipt_slot) : Prop :=
  match snd slot with Some chain => exists ts, front_chain hook chain ts | None => True end.

(** Where the chain of a hook is. *)
Definition slot_written (r : ipt_replace) (h : nat) (hook : bf_nf_inet_hooks) (slot : ipt_slot) : Prop :=
  match snd slot with
  | None => Z.testbit (ir_valid_hooks r) (Z.of_nat h) = false
  | Some chain =>
      Z.testbit (ir_valid_hooks r) (Z.of_nat h) = true /\
      exists ts bs pre post, front_chain hook chain ts /\ chain_bytes ts (chain_policy chain) bs /\
        ir_entries r = pre ++ bs ++ post /\
        ir_hook_entry r !! h = Some (u32 (Z.of_nat (length pre))) /\
        ir_underflow r !! h = Some (u32 (Z.of_nat (length pre + length ts * rule_size)))
  end.

Record replace_ok (r : ipt_replace) (h : nat) : Prop := mk_replace_ok {
  ro_valid : 0 <= ir_valid_hooks r < 2 ^ Z.of_nat h;
  ro_entry : length (ir_hook_entry r) = 5%nat;
  ro_underflow : length (ir_underflow r) = 5%nat
}.

(** The hooks below [h] are as they were; the entries are added to. *)
Definition replace_extends (h : nat) (r r' : ipt_replace) : Prop :=
  (exists bs, ir_entries r' = ir_entries r ++ bs) /\ ir_num_entries r' = ir_num_entries r /\ ir_size r' = ir_size r /\
  forall i, (i < h)%nat -> Z.testbit (ir_valid_hooks r') (Z.of_nat i) = Z.testbit (ir_valid_hooks r) (Z.of_nat i) /\
    ir_hook_entry r' !! i = ir_hook_entry r !! i /\ ir_underflow r' !! i = ir_underflow r !! i.

Lemma slot_written_extends h r r' i hook slot : (i < h)%nat -> replace_extends h r r' ->
  slot_written r i hook slot -> slot_written r' i hook slot.
Proof.
  intros Hi ([bs Eb] & _ & _ & Hr). destruct (Hr i Hi) as (E1 & E2 & E3). unfold slot_written. rewrite E1, E2, E3, Eb.
  destruct (snd slot) as [chain|]; [|done]. intros (Ht & ts & cs & pre & post & Hc & Hb & Ee & Eh & Eu).
  split; [done|]. exists ts, cs, pre, (post ++ bs). rewrite Ee. split_and!; try done. by rewrite <- !app_assoc.
Qed.

Lemma replace_extends_trans h h' r1 r2 r3 : (h <= h')%nat ->
  replace_extends h r1 r2 -> replace_extends h' r2 r3 -> replace_extends h r1 r3.
Proof.
  intros Hh ([b1 E1] & N1 & S1 & H1) ([b2 E2] & N2 & S2 & H2). split_and!; [|congruence..|].
  - exists (b1 ++ b2). by rewrite E2, E1, <- app_assoc.
  - intros i Hi. destruct (H1 i Hi) as (? & ? & ?). destruct (H2 i ltac:(lia)) as (? & ? & ?). split_and!; congruence.
Qed.

Lemma replace_extends_refl h r : replace_extends h r r.
Proof. split_and!; [exists []; by rewrite app_nil_r|done..]. Qed.

Definition slot_rules (slot : ipt_slot) : nat :=
  match snd slot with Some chain => S (length (chain_rules chain)) | None => 0 end.

Section Generated.
Context `{CgenEnv} {K : Type} `{Sys K} `{!CounterSys K}.

Lemma entry_counter_ok counters cgen idx e s e' s' : entry_counter counters cgen idx e s = (Ok e', s') ->
  e' = e \/ exists c, e' = with_xt_counters c e.
Proof.
  unfold entry_counter. destruct (if counters then cgen else None) as [i|].
  - destruct s as [ctx k]. destruct (ctx !! i) as [cg|]; [|done].
    destruct (bf_cgen_get_counter idx (cg, k)) as [[c|e0] [cg' k']]; cbn [rbind]; [|done]. intros [= <- _]. right. by exists c.
  - intros [= <- _]. by left.
Qed.

Lemma entry_counter_of counters cgen idx t s e s' : entry_counter counters cgen idx (entry_of t) s = (Ok e, s') ->
  exists c, e = with_xt_counters c (entry_of t).
Proof. intros [-> | [c ->]]%entry_counter_ok; [by exists (mk_counter 0 0)|by exists c]. Qed.

Lemma ok_pair_inj {A S} (a b : A) (s s' : S) : (Ok a, s) = (Ok b, s') -> a = b.
Proof. by intros [= ->]. Qed.

Lemma gen_rules_bytes counters cgen i ts s bs s' : Forall ipt_rule_ok ts ->
  gen_rules counters cgen (chain_index_rules i (rule_of <$> ts)) s = (Ok bs, s') -> rules_bytes ts bs.
Proof.
  intros Hts. revert i s bs s'. induction Hts as [|t ts Ht Hts IH]; intros i s bs s'; cbn [fmap list_fmap chain_index_rules gen_rules].
  { intros [= <- _]. constructor. }
  unfold st_lift. intros E. st_inv E.
  rewrite (rule_to_entry _ t) in E0 by done. injection E0 as <- <-.
  destruct (entry_counter_of _ _ _ _ _ _ _ E1) as [c ->].
  apply ok_pair_inj in E as <-. cbn [snd]. rewrite app_assoc. constructor. by eapply IH.
Qed.

Lemma gen_chain_bytes counters cgen hook chain ts s bs s' : front_chain hook chain ts ->
  gen_chain counters cgen chain s = (Ok bs, s') -> chain_bytes ts (chain_policy chain) bs.
Proof.
  intros [(name & _ & Ec) Hp Hts]. unfold gen_chain, st_lift. rewrite Ec at 1. cbn [ipt_chain bf_chain_new chain_rules].
  intros E. st_inv E. pose proof (gen_rules_bytes _ _ _ _ _ _ _ Hts E0) as Hr.
  change zero_entry with (entry_of (policy_rule (chain_policy chain))) in E1.
  destruct (entry_counter_of _ _ _ _ _ _ _ E1) as [c ->].
  rewrite verdict_to_target in E2 by done. injection E2 as <- <-. apply ok_pair_inj in E as <-. exists a, c. by split.
Qed.

Lemma front_chain_length hook chain ts : front_chain hook chain ts -> length (chain_rules chain) = length ts.
Proof. intros [(? & _ & ->) _ _]. cbn [ipt_chain bf_chain_new chain_rules]. by rewrite length_index_rules, length_fmap. Qed.

Lemma chain_bytes_length ts policy bs : chain_bytes ts policy bs -> length bs = (S (length ts) * rule_size)%nat.
Proof.
  intros (rules & c & -> & Hr). rewrite length_app, length_block_bytes, (length_rules_bytes _ _ Hr). lia.
Qed.

Lemma testbit_low v h : 0 <= v < 2 ^ Z.of_nat h -> Z.testbit v (Z.of_nat h) = false.
Proof.
  intros Hv. destruct (Z.eq_dec v 0) as [->|Hne]; [apply Z.bits_0|]. apply Z.bits_above_log2; [lia|].
  apply Z.log2_lt_pow2; lia.
Qed.

Lemma lor_pow2_range v h : 0 <= v < 2 ^ Z.of_nat h -> 0 <= Z.lor v (2 ^ Z.of_nat h) < 2 ^ Z.of_nat (S h).
Proof.
  intros Hv. assert (0 < 2 ^ Z.of_nat h) by lia. split; [apply Z.lor_nonneg; lia|].
  assert (0 < Z.lor v (2 ^ Z.of_nat h)).
  { assert (0 <= Z.lor v (2 ^ Z.of_nat h)) by (apply Z.lor_nonneg; lia).
    destruct (Z.eq_dec (Z.lor v (2 ^ Z.of_nat h)) 0) as [[_ E]%Z.lor_eq_0_iff|]; lia. }
  apply Z.log2_lt_pow2; [done|]. rewrite Z.log2_lor, Z.log2_pow2 by lia.
  destruct (Z.eq_dec v 0) as [->|]; [cbn; lia|]. assert (Z.log2 v < Z.of_nat h) by (apply Z.log2_lt_pow2; lia). lia.
Qed.

(** One chain more. *)
Lemma slot_added r h hook (cgen : option nat) chain ts bs : replace_ok r h -> (h < 5)%nat ->
  front_chain hook chain ts -> chain_bytes ts (chain_policy chain) bs ->
  let off := Z.of_nat (length (ir_entries r)) in
  let n := Z.of_nat (length (chain_rules chain)) in
  let r' := mk_ipt_replace (Z.lor (ir_valid_hooks r) (2 ^ Z.of_nat h)) (ir_num_entries r) (ir_size r)
              (<[h := u32 off]> (ir_hook_entry r)) (<[h := u32 (off + n * Z.of_nat rule_size)]> (ir_underflow r))
              (ir_entries r ++ bs) in
  replace_ok r' (S h) /\ replace_extends h r r' /\ slot_written r' h hook (cgen, Some chain).
Proof.
  intros [Hv He Hu] Hh Hc Hb off n r'. pose proof (lor_pow2_range _ _ Hv). split_and!.
  - constructor; cbn [r' ir_valid_hooks ir_hook_entry ir_underflow]; rewrite ?length_insert; done.
  - split_and!; [by exists bs|done..|]. intros i Hi. cbn [r' ir_valid_hooks ir_hook_entry ir_underflow].
    rewrite Z.lor_spec, Z.pow2_bits_false, orb_false_r by lia. by rewrite !list_lookup_insert_ne by lia.
  - cbn [slot_written snd r' ir_valid_hooks ir_hook_entry ir_underflow ir_entries].
    rewrite Z.lor_spec, Z.pow2_bits_true, orb_true_r by lia. split; [done|].
    exists ts, bs, (ir_entries r), []. rewrite app_nil_r. split_and!; [done..| |];
      rewrite list_lookup_insert_eq by lia; [done|].
    do 2 f_equal. subst off n. rewrite (front_chain_length _ _ _ Hc). lia.
Qed.

Lemma gen_chains_written counters h hooks ruleset r s r' s' : replace_ok r h -> (h + length ruleset <= 5)%nat ->
  Forall2 slot_ok hooks ruleset ->
  gen_chains counters h ruleset (Z.of_nat (length (ir_entries r))) r s = (Ok r', s') ->
  replace_ok r' (h + length ruleset) /\ replace_extends h r r' /\
  length (ir_entries r') = (length (ir_entries r) + sum_list (slot_rules <$> ruleset) * rule_size)%nat /\
  forall i hook slot, hooks !! i = Some hook -> ruleset !! i = Some slot -> slot_written r' (h + i) hook slot.
Proof.
  intros Hr Hl Hs. revert h r s Hr Hl. induction Hs as [|hook slot hooks ruleset Hslot Hs IH]; intros h r s Hr Hl.
  { cbn [gen_chains length fmap list_fmap sum_list]. intros [= <- _]. rewrite Nat.add_0_r.
    split_and!; [done|apply replace_extends_refl|lia|done]. }
  cbn [length] in *. destruct slot as [cgen [chain|]]; cbn [gen_chains].
  - destruct Hslot as [ts Hc]. intros E. st_inv E. pose proof (gen_chain_bytes _ _ _ _ _ _ _ _ Hc E0) as Hb.
    destruct (slot_added r h hook cgen chain ts a Hr ltac:(lia) Hc Hb) as (Ho & Hx & Hw).
    pose proof (chain_bytes_length _ _ _ Hb) as Hlen.
    match type of E with gen_chains _ _ _ ?off ?r1 _ = _ =>
      replace off with (Z.of_nat (length (ir_entries r1))) in E end.
    2:{ cbn [ir_entries]. rewrite length_app, Hlen, (front_chain_length _ _ _ Hc). lia. }
    destruct (IH (S h) _ _ Ho ltac:(lia) E) as (Ho' & Hx' & Hlen' & Hw').
    split_and!.
    + by replace (h + S (length ruleset))%nat with (S h + length ruleset)%nat by lia.
    + eapply replace_extends_trans; [|done..]. lia.
    + rewrite Hlen'. cbn [ir_entries]. rewrite length_app, Hlen. cbn [fmap list_fmap slot_rules snd sum_list].
      unfold sum_list. cbn. rewrite (front_chain_length _ _ _ Hc). lia.
    + intros [|i] hook' slot; cbn; intros E1 E2.
      * injection E1 as <-. injection E2 as <-. rewrite Nat.add_0_r. eapply slot_written_extends; [|done..]. lia.
      * replace (h + S i)%nat with (S h + i)%nat by lia. by eapply Hw'.
  - intros E.
    assert (replace_ok r (S h)) as Ho.
    { destruct Hr as [Hv ? ?]. constructor; [|done..]. split; [lia|]. etransitivity; [apply Hv|]. apply Z.pow_lt_mono_r; lia. }
    destruct (IH (S h) _ _ Ho ltac:(lia) E) as (Ho' & Hx' & Hlen' & Hw').
    split_and!.
    + by replace (h + S (length ruleset))%nat with (S h + length ruleset)%nat by lia.
    + eapply (replace_extends_trans h (S h)); [lia|apply replace_extends_refl|done].
    + rewrite Hlen'. reflexivity.
    + intros [|i] hook' slot; cbn; intros E1 E2.
      * injection E1 as <-. injection E2 as <-. rewrite Nat.add_0_r.
        eapply (slot_written_extends (S h)); [lia|done|]. cbn. by apply testbit_low, Hr.
      * replace (h + S i)%nat with (S h + i)%nat by lia. by eapply Hw'.
Qed.
End Generated.

(** * The request *)

(** What a client sets: the structure, what it says of the counters, which the
    code does not read, and the entries. *)
Definition replace_bytes (num_counters counters : Z) (r : ipt_replace) : list Z :=
  name_bytes 32 "filter" ++ le_split 4 (ir_valid_hooks r) ++ le_split 4 (ir_num_entries r) ++ le_split 4 (ir_size r) ++
  (ir_hook_entry r ≫= le_split 4) ++ (ir_underflow r ≫= le_split 4) ++
  le_split 4 num_counters ++ le_split 8 counters ++ ir_entries r.

Lemma rd_le pre n z post : rd (pre ++ le_split n z ++ post) (length pre) n = Ok (z mod 256 ^ Z.of_nat n).
Proof.
  unfold rd, field. rewrite !length_app, length_le_split.
  destruct (Nat.leb_spec (length pre + n) (length pre + (n + length post))) as [_|]; [|lia]. f_equal.
  rewrite <- (length_le_split n z) at 1. by rewrite sub_bytes_middle, le_combine_split.
Qed.

Lemma length_words (l : list Z) : length (l ≫= le_split 4) = (4 * length l)%nat.
Proof. induction l as [|z l IH]; [done|]. cbn [mbind list_bind] in *. rewrite length_app, length_le_split, IH. cbn [length]. lia. Qed.

Lemma rd_word pre (l : list Z) i z post : l !! i = Some z -> 0 <= z < 2 ^ 32 ->
  rd (pre ++ (l ≫= le_split 4) ++ post) (length pre + 4 * i) 4 = Ok z.
Proof.
  intros Hl Hz. rewrite <- (take_drop_middle _ _ _ Hl), bind_app. cbn [mbind list_bind].
  assert (length (take i l) = i) as Ei by (apply length_take_le; apply lookup_lt_Some in Hl; lia).
  replace (length pre + 4 * i)%nat with (length (pre ++ (take i l ≫= le_split 4))) by (by rewrite length_app, length_words, Ei).
  match goal with |- rd ?x _ _ = _ =>
    replace x with ((pre ++ (take i l ≫= le_split 4)) ++ le_split 4 z ++ (drop (S i) l ≫= le_split 4) ++ post)
      by (by rewrite <- !app_assoc) end.
  rewrite rd_le, Z.mod_small by done. done.
Qed.

Section Request.
Context (nc ptr : Z) (r : ipt_replace) (Hr : replace_ok r 5).

Lemma request_split : exists header, replace_bytes nc ptr r = header ++ ir_entries r /\ length header = sizeof_ipt_replace.
Proof using Hr.
  destruct Hr as [_ He Hu]. eexists. split.
  - unfold replace_bytes. by rewrite !app_assoc.
  - rewrite !length_app, !length_words, !length_le_split, He, Hu. reflexivity.
Qed.

Lemma rd_valid : rd (replace_bytes nc ptr r) replace_valid_hooks 4 = Ok (ir_valid_hooks r).
Proof using Hr.
  unfold replace_bytes. change replace_valid_hooks with (length (name_bytes 32 "filter")). rewrite rd_le.
  f_equal. apply Z.mod_small. destruct Hr as [Hv _ _]. change (256 ^ Z.of_nat 4) with (2 ^ 32). change (2 ^ Z.of_nat 5) with 32 in Hv. lia.
Qed.

Lemma rd_size : 0 <= ir_size r < 2 ^ 32 -> rd (replace_bytes nc ptr r) replace_size 4 = Ok (ir_size r).
Proof using Type.
  intros Hs. unfold replace_bytes.
  match goal with |- rd (?a ++ ?b ++ ?c ++ ?d) _ _ = _ => replace (a ++ b ++ c ++ d) with ((a ++ b ++ c) ++ d) by (by rewrite <- !app_assoc) end.
  match goal with |- rd (?a ++ _) _ _ = _ => change replace_size with (length a) end.
  rewrite rd_le. f_equal. by apply Z.mod_small.
Qed.

Lemma rd_hook_entry i z : ir_hook_entry r !! i = Some z -> 0 <= z < 2 ^ 32 ->
  rd (replace_bytes nc ptr r) (replace_hook_entry i) 4 = Ok z.
Proof using Type.
  intros Hz Hb. unfold replace_bytes, replace_hook_entry.
  match goal with |- rd (?a ++ ?b ++ ?c ++ ?d ++ ?e) _ _ = _ =>
    replace (a ++ b ++ c ++ d ++ e) with ((a ++ b ++ c ++ d) ++ e) by (by rewrite <- !app_assoc) end.
  match goal with |- rd (?a ++ _) _ _ = _ => change 44%nat with (length a) end. by apply rd_word.
Qed.

Lemma rd_underflow i z : ir_underflow r !! i = Some z -> 0 <= z < 2 ^ 32 ->
  rd (replace_bytes nc ptr r) (replace_underflow i) 4 = Ok z.
Proof using Hr.
  intros Hz Hb. unfold replace_bytes, replace_underflow.
  match goal with |- rd (?a ++ ?b ++ ?c ++ ?d ++ ?h ++ ?e) _ _ = _ =>
    replace (a ++ b ++ c ++ d ++ h ++ e) with ((a ++ b ++ c ++ d ++ h) ++ e) by (by rewrite <- !app_assoc);
    replace 64%nat with (length (a ++ b ++ c ++ d ++ h)) end.
  - by apply rd_word.
  - destruct Hr as [_ He _]. by rewrite !length_app, length_words, He.
Qed.

(** A hook is read as it was written. *)
Lemma hook_read h hook slot : slot_written r h hook slot -> Z.of_nat (length (ir_entries r)) < 2 ^ 32 ->
  xlate_hook (replace_bytes nc ptr r) h hook = Ok (snd slot).
Proof using Hr.
  intros Hw Hl. unfold xlate_hook. rewrite rd_valid. cbn [rbind]. unfold slot_written in Hw.
  destruct (snd slot) as [chain|]; [|by rewrite Hw]. destruct Hw as (-> & ts & bs & pre & post & Hc & Hb & Ee & Eh & Eu). cbn [negb].
  pose proof (chain_bytes_length _ _ _ Hb) as Hlen. rewrite Ee, !length_app in Hl.
  rewrite u32_small in Eh, Eu by lia.
  rewrite (rd_hook_entry _ _ Eh) by lia. cbn [rbind]. rewrite (rd_underflow _ _ Eu) by lia. cbn [rbind]. rewrite !Nat2Z.id.
  destruct request_split as (header & -> & Hh). rewrite Ee, app_assoc, Nat.add_assoc, <- Hh, <- length_app.
  destruct Hc as [(name & En & Ec) Hp Hts]. by rewrite (chain_entries_read ts _ _ _ _ _ name Hb Hts Hp En), <- Ec.
Qed.

Lemma hooks_read i hooks ruleset : length hooks = length ruleset -> Z.of_nat (length (ir_entries r)) < 2 ^ 32 ->
  (forall j hook slot, hooks !! j = Some hook -> ruleset !! j = Some slot -> slot_written r (i + j) hook slot) ->
  xlate_hooks (replace_bytes nc ptr r) i hooks = Ok (snd <$> ruleset).
Proof using Hr.
  intros Hl Hs. revert i ruleset Hl. induction hooks as [|hook hooks IH]; intros i [|slot ruleset] Hl Hw; try done.
  cbn [xlate_hooks fmap list_fmap]. rewrite (hook_read i hook slot); [|rewrite <- (Nat.add_0_r i); by apply Hw|done].
  cbn [rbind]. rewrite (IH (S i) ruleset); [done|cbn in Hl; lia|]. intros j hook' slot' E1 E2.
  replace (S i + j)%nat with (i + S j)%nat by lia. by apply Hw.
Qed.
End Request.

(** * The ruleset *)

(** A cgen of this front end has a chain that came from a request. *)
Definition front_cgen (cg : bf_cgen) : Prop :=
  of_front BF_FRONT_IPT cg = true -> exists hook ts, hook ∈ nf_hooks /\ front_chain hook (cgen_chain cg) ts.

Lemma front_chain_hook hook chain ts : hook ∈ nf_hooks -> front_chain hook chain ts ->
  exists h, nf_hook_index (bf_hook_to_nf_hook (chain_hook chain)) = Some h /\ nf_hooks !! h = Some hook.
Proof.
  intros Hh [(name & _ & ->) _ _]. cbn [ipt_chain bf_chain_new chain_hook]. unfold nf_hooks in Hh.
  repeat (apply elem_of_cons in Hh as [-> | Hh]; [by eexists|]). by apply not_elem_of_nil in Hh.
Qed.

Lemma slots_insert ruleset h hook slot : Forall2 slot_ok nf_hooks ruleset -> nf_hooks !! h = Some hook -> slot_ok hook slot ->
  Forall2 slot_ok nf_hooks (<[h := slot]> ruleset).
Proof.
  intros Hs Hh Hk. rewrite <- (list_insert_id nf_hooks h hook Hh). by apply Forall2_insert.
Qed.

Lemma sum_slots_cons n l : sum_list (n :: l) = (n + sum_list l)%nat.
Proof. reflexivity. Qed.

Lemma sum_insert (ruleset : list ipt_slot) h slot :
  (sum_list (slot_rules <$> <[h := slot]> ruleset) <= sum_list (slot_rules <$> ruleset) + slot_rules slot)%nat.
Proof.
  revert h. induction ruleset as [|s ruleset IH]; intros [|h]; try (cbn; lia).
  specialize (IH h). change (<[S h := slot]> (s :: ruleset)) with (s :: <[h := slot]> ruleset).
  rewrite !fmap_cons, !sum_slots_cons. lia.
Qed.

(** A hook without a cgen has no chain, or one that accepts everything. *)
Definition accepts_all (chain : option bf_chain) : Prop :=
  match chain with Some chain => chain_rules chain = [] /\ chain_policy chain = BF_VERDICT_ACCEPT | None => True end.

(** The chain of each hook: that of the cgen that a request updates. *)
Definition hook_chain (ctx : bf_ctx) (cgen : option nat) (chain : option bf_chain) : Prop :=
  match cgen with
  | Some i => exists cg, ctx !! i = Some cg /\ chain = Some (cgen_chain cg)
  | None => accepts_all chain
  end.

Definition slots_of (ctx : bf_ctx) (cur : list (option nat)) (ruleset : list ipt_slot) : Prop :=
  Forall2 (fun cgen slot => fst slot = cgen /\ hook_chain ctx cgen (snd slot)) cur ruleset.

Lemma collect_ok pre ctx ruleset n : Forall front_cgen ctx -> Forall2 slot_ok nf_hooks ruleset ->
  (sum_list (slot_rules <$> ruleset) <= n)%nat ->
  exists ruleset' n', collect_ipt (length pre) ctx ruleset n = Ok (ruleset', n') /\
    Forall2 slot_ok nf_hooks ruleset' /\ (sum_list (slot_rules <$> ruleset') <= n')%nat /\
    forall cur cur', current_cgens (length pre) ctx cur = Ok cur' -> slots_of (pre ++ ctx) cur ruleset ->
      slots_of (pre ++ ctx) cur' ruleset'.
Proof.
  intros Hc. revert pre ruleset n. induction Hc as [|cg ctx Hcg Hc IH]; intros pre ruleset n Hs Hn; cbn [collect_ipt current_cgens].
  { exists ruleset, n. split_and!; try done. by intros cur cur' [= ->]. }
  replace (pre ++ cg :: ctx) with ((pre ++ [cg]) ++ ctx) by (by rewrite <- app_assoc).
  replace (S (length pre)) with (length (pre ++ [cg])) by (rewrite length_app; cbn; lia).
  destruct (of_front BF_FRONT_IPT cg) eqn:Ef; [|by apply IH].
  destruct (Hcg Ef) as (hook & ts & Hh & Hch). destruct (front_chain_hook _ _ _ Hh Hch) as (h & -> & Hi).
  destruct (IH (pre ++ [cg]) (<[h := (Some (length pre), Some (cgen_chain cg))]> ruleset)
              (n + (length (chain_rules (cgen_chain cg)) + 1))%nat) as (ruleset' & n' & E & Hs' & Hn' & Hcur).
  - eapply slots_insert; [done..|]. by exists ts.
  - etransitivity; [apply sum_insert|]. unfold slot_rules at 2. cbn [snd]. lia.
  - exists ruleset', n'. split_and!; [done..|]. intros cur cur'.
    destruct (cur !! h) as [[j|]|] eqn:Eh; [done| |]; intros Hcc Hof; (eapply Hcur; [done|]); apply Forall2_insert; try done;
      (split; [done|]; exists cg; split; [|done]; rewrite <- app_assoc; by apply (list_lookup_middle pre ctx cg)).
Qed.

Lemma dummy_ok i hook ruleset n hooks : Forall2 slot_ok nf_hooks ruleset -> nf_hooks !! i = Some hook ->
  (sum_list (slot_rules <$> ruleset) <= n)%nat ->
  exists ruleset' n', add_dummies ((i, hook) :: hooks) ruleset n = add_dummies hooks ruleset' n' /\
    Forall2 slot_ok nf_hooks ruleset' /\ (sum_list (slot_rules <$> ruleset') <= n')%nat /\
    forall ctx cur, slots_of ctx cur ruleset -> slots_of ctx cur ruleset'.
Proof.
  intros Hs Hi Hn. cbn [add_dummies]. unfold dummy_chain.
  assert (exists name, bf_nf_hook_to_str hook = Some name) as [name En].
  { apply list_elem_of_lookup_2 in Hi. unfold nf_hooks in Hi.
    repeat (apply elem_of_cons in Hi as [-> | Hi]; [by eexists|]). by apply not_elem_of_nil in Hi. }
  set (slot := (None, Some (bf_chain_new name (bf_hook_from_nf_hook hook) BF_VERDICT_ACCEPT [] [])) : ipt_slot).
  assert (Forall2 slot_ok nf_hooks (<[i := slot]> ruleset)) as Hs'.
  { eapply slots_insert; [done..|]. exists []. constructor; [by exists name|by left|constructor]. }
  assert (sum_list (slot_rules <$> <[i := slot]> ruleset) <= S n)%nat as Hn'
    by (etransitivity; [apply sum_insert|]; change (slot_rules slot) with 1%nat; lia).
  destruct (ruleset !! i) as [[[j|] o]|] eqn:Er; [by exists ruleset, n| |];
    (exists (<[i := slot]> ruleset), (S n); rewrite En; split_and!; [done..|]; intros ctx cur Hof).
  - destruct (Forall2_lookup_r _ _ _ _ _ Hof Er) as (c & Ec & Hc & _). cbn in Hc. subst c.
    rewrite <- (list_insert_id cur i None Ec). by apply Forall2_insert.
  - apply lookup_ge_None in Er. by rewrite list_insert_ge.
Qed.

Lemma get_ruleset_ok ctx : Forall front_cgen ctx ->
  exists ruleset n, _bf_ipt_gen_get_ruleset ctx = Ok (ruleset, n) /\ Forall2 slot_ok nf_hooks ruleset /\
    (sum_list (slot_rules <$> ruleset) <= n)%nat /\
    forall cgens, current_cgens 0 ctx (replicate NF_INET_NUMHOOKS None) = Ok cgens -> slots_of ctx cgens ruleset.
Proof.
  intros Hc. unfold _bf_ipt_gen_get_ruleset.
  destruct (collect_ok [] ctx (replicate NF_INET_NUMHOOKS (None, None)) 0 Hc) as (r1 & n1 & E1 & Hs1 & Hn1 & Hcur).
  { by repeat constructor. } { done. }
  cbn [length] in *. rewrite E1. cbn [rbind fst snd].
  destruct (dummy_ok 1 BF_NF_INET_LOCAL_IN r1 n1 [(2, BF_NF_INET_FORWARD); (3, BF_NF_INET_LOCAL_OUT)]%nat)
    as (r2 & n2 & -> & Hs2 & Hn2 & Hc2); [done..|].
  destruct (dummy_ok 2 BF_NF_INET_FORWARD r2 n2 [(3, BF_NF_INET_LOCAL_OUT)]%nat) as (r3 & n3 & -> & Hs3 & Hn3 & Hc3); [done..|].
  destruct (dummy_ok 3 BF_NF_INET_LOCAL_OUT r3 n3 []) as (r4 & n4 & -> & Hs4 & Hn4 & Hc4); [done..|].
  exists r4, n4. split_and!; [done..|]. intros cgens E. apply Hc4, Hc3, Hc2. eapply (Hcur _ _ E).
  by repeat constructor.
Qed.

Section Whole.
Context `{CgenEnv} {K : Type} `{Sys K} `{!CounterSys K}.

(** Without the counters nothing is read, and the generation succeeds. *)
Lemma gen_rules_plain cgen i ts s : Forall ipt_rule_ok ts ->
  exists bs, gen_rules false cgen (chain_index_rules i (rule_of <$> ts)) s = (Ok bs, s).
Proof.
  intros Hts. revert i. induction Hts as [|t ts Ht Hts IH]; intros i; cbn [fmap list_fmap chain_index_rules gen_rules]; [by eexists|].
  destruct (IH (i + 1)) as [bs E]. unfold mbind, st_bind, st_lift. rewrite (rule_to_entry _ t) by done.
  unfold entry_counter. cbn [mret st_ret fst snd]. rewrite E. by eexists.
Qed.

Lemma gen_chain_plain cgen hook chain ts s : front_chain hook chain ts -> exists bs, gen_chain false cgen chain s = (Ok bs, s).
Proof.
  intros [(name & _ & Ec) Hp Hts]. unfold gen_chain.
  assert (chain_rules chain = chain_index_rules 0 (rule_of <$> ts)) as -> by (by rewrite Ec).
  destruct (gen_rules_plain cgen 0 ts s Hts) as [bs E]. unfold mbind, st_bind, st_lift. rewrite E.
  unfold entry_counter. cbn [mret st_ret]. rewrite verdict_to_target by done. by eexists.
Qed.

Lemma gen_chains_plain h hooks ruleset off r s : Forall2 slot_ok hooks ruleset ->
  exists r', gen_chains false h ruleset off r s = (Ok r', s).
Proof.
  intros Hs. revert h off r. induction Hs as [|hook [cgen [chain|]] hooks ruleset Hslot Hs IH]; intros h off r; cbn [gen_chains];
    [by eexists| |apply IH].
  destruct Hslot as [ts Hc]. destruct (gen_chain_plain cgen hook chain ts s Hc) as [bs E].
  unfold mbind, st_bind at 1. rewrite E. apply IH.
Qed.

Lemma gen_replace_plain ctx k : Forall front_cgen ctx -> exists r, _bf_ipt_gen_ipt_replace false (ctx, k) = (Ok r, (ctx, k)).
Proof.
  intros Hc. destruct (get_ruleset_ok ctx Hc) as (ruleset & n & E & Hs & _). unfold _bf_ipt_gen_ipt_replace.
  unfold mbind, st_bind, obj_get, st_lift. rewrite E. cbn [fst snd].
  match goal with |- context [gen_chains false ?h ?l ?o ?r ?s] => destruct (gen_chains_plain h nf_hooks l o r s Hs) as [r' ->] end.
  by eexists.
Qed.

(** The structure that is generated says where each chain is. *)
Lemma gen_replace_written counters ctx k r s' : Forall front_cgen ctx ->
  _bf_ipt_gen_ipt_replace counters (ctx, k) = (Ok r, s') -> Z.of_nat (length (ir_entries r)) < 2 ^ 32 ->
  exists ruleset, replace_ok r 5 /\ ir_size r = Z.of_nat (length (ir_entries r)) /\ length ruleset = 5%nat /\
    (forall i hook slot, nf_hooks !! i = Some hook -> ruleset !! i = Some slot -> slot_written r i hook slot) /\
    forall cgens, current_cgens 0 ctx (replicate NF_INET_NUMHOOKS None) = Ok cgens -> slots_of ctx cgens ruleset.
Proof.
  intros Hc E Hl. destruct (get_ruleset_ok ctx Hc) as (ruleset & n & Eg & Hs & Hn & Hcur). exists ruleset.
  unfold _bf_ipt_gen_ipt_replace, obj_get, st_lift in E. st_inv E. apply ok_pair_inj in E0 as <-. rewrite Eg in E1. apply ok_pair_inj in E1 as <-.
  cbn [fst snd] in E, E2. apply ok_pair_inj in E.
  pose proof (Forall2_length _ _ _ Hs) as Hlen. cbn [nf_hooks length] in Hlen.
  match type of E2 with gen_chains _ _ _ _ ?r0 _ = _ => assert (replace_ok r0 0) as Hr0 by (constructor; cbn; lia) end.
  destruct (gen_chains_written counters 0 nf_hooks ruleset _ _ _ _ Hr0 ltac:(lia) Hs E2)
    as (Ho & (_ & Enum & Esz & _) & Eent & Hw).
  rewrite <- Hlen in Ho. cbn [ir_size ir_entries length] in Esz, Eent.
  set (size := Z.of_nat (n * rule_size + (sizeof_ipt_entry + sizeof_xt_error_target))) in *.
  assert (length (ir_entries r) = Z.to_nat size) as Er.
  { subst r. cbn [ir_entries]. rewrite !length_app, length_replicate, Eent.
    change (length error_entry_bytes) with (sizeof_ipt_entry + sizeof_xt_error_target)%nat. unfold size. rewrite Nat2Z.id.
    assert (sum_list (slot_rules <$> ruleset) * rule_size <= n * rule_size)%nat by (by apply Nat.mul_le_mono_r). lia. }
  assert (replace_extends 5 a1 r) as Hx.
  { subst r. split_and!; [|done..]. cbn [ir_entries]. rewrite <- app_assoc. by eexists. }
  split_and!; try done.
  - subst r. by destruct Ho.
  - rewrite Er. subst r. cbn [ir_size]. rewrite Esz, Er in *. rewrite Z2Nat.id in * by (unfold size; lia). apply u32_small. lia.
  - intros i hook slot E1 E3. eapply slot_written_extends; [|done|by apply (Hw i hook slot)].
    apply lookup_lt_Some in E1. cbn in E1. lia.
Qed.

(** The client sends the whole of the structure. *)
Lemma replace_sent {S : Type} (peer : list (list Z) -> S -> res (list packet) * S) counters ctx k r s' nc ptr :
  Forall front_cgen ctx ->
  _bf_ipt_gen_ipt_replace counters (ctx, k) = (Ok r, s') -> Z.of_nat (length (ir_entries r)) < 2 ^ 32 ->
  bf_ipt_replace peer (replace_bytes nc ptr r) = ipt_exchange peer BF_REQ_RULESET_SET 0 (replace_bytes nc ptr r).
Proof.
  intros Hc E Hl. destruct (gen_replace_written _ _ _ _ _ Hc E Hl) as (ruleset & Ho & Esz & _).
  unfold bf_ipt_replace, mbind, st_bind, st_lift. rewrite rd_size, Esz, Nat2Z.id by (rewrite Esz; lia).
  destruct (request_split nc ptr r Ho) as (header & Eh & Hh).
  assert (length (replace_bytes nc ptr r) = sizeof_ipt_replace + length (ir_entries r))%nat as El by (by rewrite Eh, length_app, Hh).
  unfold rd_bytes. rewrite Nat.add_0_l, <- El, Nat.leb_refl. unfold sub_bytes. by rewrite firstn_all.
Qed.

(** What is generated is read as the chains it was made of. *)
Lemma replace_read counters ctx k r s' nc ptr : Forall front_cgen ctx ->
  _bf_ipt_gen_ipt_replace counters (ctx, k) = (Ok r, s') -> Z.of_nat (length (ir_entries r)) < 2 ^ 32 ->
  let data := replace_bytes nc ptr r in
  rd data replace_size 4 = Ok (Z.of_nat (length data - sizeof_ipt_replace)) /\
  exists chains, _bf_ipt_xlate_ruleset_set data = Ok chains /\
    forall cgens, current_cgens 0 ctx (replicate NF_INET_NUMHOOKS None) = Ok cgens ->
      Forall2 (hook_chain ctx) cgens chains.
Proof.
  intros Hc E Hl data. destruct (gen_replace_written _ _ _ _ _ Hc E Hl) as (ruleset & Ho & Esz & Hlen & Hw & Hcur). split.
  - subst data. rewrite rd_size by (rewrite Esz; lia). destruct (request_split nc ptr r Ho) as (header & -> & Hh).
    rewrite Esz, length_app, Hh. do 2 f_equal. lia.
  - exists (snd <$> ruleset). split; [by apply (hooks_read nc ptr r Ho 0)|]. intros cgens Ecg.
    specialize (Hcur _ Ecg). apply Forall2_fmap_r. eapply Forall2_impl; [exact Hcur|]. by intros ? ? [_ ?].
Qed.
End Whole.
