(* ===== verification/Daemon.v ===== *)
(** The daemon: [src/bpfilter/main.c], with its options ([opts.c]), the fronts
    it dispatches requests to ([xlate/front.c], [xlate/nft/nft.c]) and the
    creation of its context ([ctx.c]).

    A daemon restores its context or creates one, then answers the clients
    that connect to its socket one after the other until it is told to stop.
    An error ends the connection of one client; [BF_CRASH] ends the daemon. *)

From stdpp Require Import pretty.
From S2P Require Import Prelude Bytes Bpf Helper Hook Hookopts Matcher BfSet Sys Io Map Rule.
From S2P Require Import Chain Printer Pack Serial Btf Program Elf Block BlockExec Fixups Flavors Load Cgen Request Ctx.
From S2P Require Import Save Cli Ipt CString.

(** * Options

    [argp] splits the command line and calls the parser once for each option
    and for each other argument, the key of which is 0. *)

Inductive bf_verbose : Type := BF_VERBOSE_DEBUG | BF_VERBOSE_BPF | BF_VERBOSE_BYTECODE.

Definition bf_verbose_to_Z (v : bf_verbose) : Z :=
  match v with BF_VERBOSE_DEBUG => 0 | BF_VERBOSE_BPF => 1 | BF_VERBOSE_BYTECODE => 2 end.

Definition _bf_verbose_strs (v : bf_verbose) : option string :=
  match v with
  | BF_VERBOSE_DEBUG => Some "debug"%string
  | BF_VERBOSE_BPF => Some "bpf"%string
  | BF_VERBOSE_BYTECODE => Some "bytecode"%string
  end.

Definition bf_verbose_from_str (str : string) : res bf_verbose :=
  of_option (- EINVAL)
    (table_find bf_streq _bf_verbose_strs [BF_VERBOSE_DEBUG; BF_VERBOSE_BPF; BF_VERBOSE_BYTECODE] str).

(** [fronts] and [verbose] are 16-bit sets of flags. *)
Record bf_options : Type := mk_options {
  opt_transient : bool;
  opt_with_bpf_token : bool;
  opt_bpffs_path : string;
  opt_fronts : Z;
  opt_verbose : Z
}.

Definition BF_DEFAULT_BPFFS_PATH : string := "/sys/fs/bpf".

Definition _bf_opts : bf_options := mk_options false false BF_DEFAULT_BPFFS_PATH 0xffff 0.

Definition bf_opts_is_front_enabled (opts : bf_options) (front : bf_front) : bool :=
  Z.testbit (opt_fronts opts) (bf_front_to_Z front).

Definition bf_opts_is_verbose (opts : bf_options) (opt : bf_verbose) : bool :=
  Z.testbit (opt_verbose opts) (bf_verbose_to_Z opt).

Definition without_front (front : bf_front) (args : bf_options) : bf_options :=
  mk_options (opt_transient args) (opt_with_bpf_token args) (opt_bpffs_path args)
    (Z.ldiff (opt_fronts args) (2 ^ bf_front_to_Z front)) (opt_verbose args).

Definition bf_opts_set_verbose (opt : bf_verbose) (args : bf_options) : bf_options :=
  mk_options (opt_transient args) (opt_with_bpf_token args) (opt_bpffs_path args) (opt_fronts args)
    (Z.lor (opt_verbose args) (2 ^ bf_verbose_to_Z opt)).

(** The keys of the options. *)
Definition BF_OPT_NO_IPTABLES_KEY : Z := 0.
Definition BF_OPT_NO_NFTABLES_KEY : Z := 1.
Definition BF_OPT_NO_CLI_KEY : Z := 2.
Definition BF_OPT_WITH_BPF_TOKEN : Z := 3.
Definition BF_OPT_BPFFS_PATH : Z := 4.
Definition KEY_TRANSIENT : Z := 116.
Definition KEY_BUFFER_LEN : Z := 98.
Definition KEY_VERBOSE : Z := 118.

Definition ARGP_ERR_UNKNOWN : Z := 7.

(** The argument of an option that takes none is not read. *)
Definition _bf_opts_parser (key : Z) (arg : string) (args : bf_options) : res bf_options :=
  if key =? KEY_TRANSIENT then
    Ok (mk_options true (opt_with_bpf_token args) (opt_bpffs_path args) (opt_fronts args) (opt_verbose args))
  else if key =? KEY_BUFFER_LEN then Ok args
  else if key =? BF_OPT_NO_IPTABLES_KEY then Ok (without_front BF_FRONT_IPT args)
  else if key =? BF_OPT_NO_NFTABLES_KEY then Ok (without_front BF_FRONT_NFT args)
  else if key =? BF_OPT_NO_CLI_KEY then Ok (without_front BF_FRONT_CLI args)
  else if key =? BF_OPT_WITH_BPF_TOKEN then
    Ok (mk_options (opt_transient args) true (opt_bpffs_path args) (opt_fronts args) (opt_verbose args))
  else if key =? BF_OPT_BPFFS_PATH then
    Ok (mk_options (opt_transient args) (opt_with_bpf_token args) arg (opt_fronts args) (opt_verbose args))
  else if key =? KEY_VERBOSE then
    let! opt := bf_verbose_from_str arg in Ok (bf_opts_set_verbose opt args)
  else Err ARGP_ERR_UNKNOWN.

(** [calls]: what [argp] calls the parser with, until it fails. *)
Fixpoint opts_parse (calls : list (Z * string)) (args : bf_options) : res bf_options :=
  match calls with
  | [] => Ok args
  | (key, arg) :: calls => let! args := _bf_opts_parser key arg args in opts_parse calls args
  end.

Definition bf_opts_init (calls : list (Z * string)) : res bf_options := opts_parse calls _bf_opts.

(** * The kernel *)

(** What comes from the other side of the sockets: what the calls to [recvmsg]
    on a descriptor return, the process connected to it; and whether a signal
    has told the daemon to stop. *)
Class PeerSys (K : Type) `{Sys K} : Type := {
  sys_received : Z -> K -> list (list Z);
  sys_pid : Z -> K -> Z;
  sys_stop : K -> bool
}.

Definition BF_RUNTIME_DIR : string := "/run/bpfilter".
Definition BF_SOCKET_PATH : string := "/run/bpfilter/daemon.sock".
Definition BF_LOCK_PATH : string := "/run/bpfilter/daemon.lock".
Definition ctx_path : string := "/run/bpfilter/data.bin".

Section Daemon.
Context `{CgenEnv} `{Mpack} {K : Type} `{Sys K} `{!CounterSys K} `{!FileSys K} `{!PeerSys K}.

(** [_bf_rawstubs]: the ELF objects of the stubs. *)
Context (_bf_rawstubs : bf_elfstub_id -> list Z).

(** What the memory of a new map holds, see [Save.v]. *)
Context (malloc_fd : Z) (opts : bf_options).

(** * The context *)

Definition _bf_ctx_gen_token {T} : st (T * K) Z :=
  with_dir (bf_bpf (SysOpenDir (opt_bpffs_path opts))) (fun mnt_fd =>
  with_dir (bf_bpf (SysOpenFileAt mnt_fd ".")) (fun bpffs_fd => bf_bpf_token_create bpffs_fd)).

Definition ctx_with (ns : bf_ns) (token : Z) : bf_daemon :=
  mk_daemon (opt_transient opts) (opt_bpffs_path opts) ns token.

(** A context is zeroed before its namespaces are known: freeing it then closes
    descriptor 0. *)
Definition zeroed_ctx : bf_daemon := ctx_with (mk_ns (mk_ns_info 0 0) (mk_ns_info 0 0)) 0.

Definition ctx_token_new {T} : st (T * K) Z :=
  if opt_with_bpf_token opts then st_lift bf_btf_kernel_has_token ;; _bf_ctx_gen_token else mret (-1).

Definition ns_dir_path (pid : Z) : string := ("/proc/" ++ pretty pid ++ "/ns")%string.

(** [pid]: the daemon's own. *)
Definition _bf_ctx_new (pid : Z) (k : K) : res bf_daemon * K :=
  match bf_ns_init (ns_dir_path pid) (tt, k) with
  | (Err e, (_, k)) => (Err e, _bf_ctx_free zeroed_ctx [] k)
  | (Ok ns, (_, k)) =>
      match ctx_token_new (tt, k) with
      | (Err e, (_, k)) => (Err e, _bf_ctx_free (ctx_with ns (-1)) [] k)
      | (Ok token, (_, k)) =>
          match elfstubs_new _bf_rawstubs bf_elfstub_ids with
          | Err e => (Err e, _bf_ctx_free (ctx_with ns token) [] k)
          | Ok _ => (Ok (ctx_with ns token), k)
          end
      end
  end.

(** * Fronts *)

Record bf_front_ops : Type := mk_front_ops {
  front_setup : res unit;
  front_teardown : res unit;
  request_handler : bf_daemon -> bf_request -> st (bf_ctx * K) bf_response;
  front_pack : bf_wpack -> res bf_wpack;
  front_unpack : mnode -> res unit
}.

Definition nft_front : bf_front_ops :=
  mk_front_ops (Ok tt) (Ok tt) (fun _ _ => mret (bf_response_new_failure (- ENOTSUP))) Ok (fun _ => Ok tt).
Definition ipt_front : bf_front_ops :=
  mk_front_ops (Ok tt) (Ok tt) (fun d => _bf_ipt_request_handler (K := K) d) Ok (fun _ => Ok tt).
Definition cli_front : bf_front_ops :=
  mk_front_ops (Ok tt) (Ok tt) (fun d => _bf_cli_request_handler (K := K) d) Ok (fun _ => Ok tt).

Definition fronts : list bf_front := [BF_FRONT_IPT; BF_FRONT_NFT; BF_FRONT_CLI].

(** An index beyond the table is [BF_CRASH]. *)
Definition bf_front_ops_get (front : bf_front) : res bf_front_ops :=
  match front with
  | BF_FRONT_IPT => Ok ipt_front
  | BF_FRONT_NFT => Ok nft_front
  | BF_FRONT_CLI => Ok cli_front
  | bf_front_other _ => Err (- BF_CRASH)
  end.

(** * Saving and restoring the context *)

Fixpoint pack_fronts (l : list bf_front) (pack : bf_wpack) : res bf_wpack :=
  match l with
  | [] => Ok pack
  | front :: l =>
      if bf_opts_is_front_enabled opts front then
        let! ops := bf_front_ops_get front in
        let! pack := front_pack ops (bf_wpack_open_object None pack) in
        pack_fronts l (bf_wpack_close_object pack)
      else pack_fronts l (bf_wpack_nil pack)
  end.

(** The bytes of the saved context. *)
Definition save_pack (ctx : bf_ctx) : res (list Z) :=
  let! pack := bf_ctx_save ctx (bf_wpack_open_object (Some "ctx"%string) bf_wpack_new) in
  let! pack := pack_fronts fronts (bf_wpack_open_array (Some "cache"%string) (bf_wpack_close_object pack)) in
  let! n := bf_wpack_get_data (bf_wpack_close_array pack) in
  Ok (mpack_write n).

Definition unlink {T} (path : string) : st (T * K) unit := fun '(o, k) => (Ok tt, (o, snd (sys_call (SysUnlink path) k))).

Definition _bf_save (path : string) : st (bf_ctx * K) unit :=
  ctx ← obj_get;
  if bf_ctx_is_empty ctx then unlink path
  else
    data ← st_lift (save_pack ctx);
    bf_write_file path data.

Fixpoint unpack_fronts (i : nat) (nodes : list mnode) : res unit :=
  match nodes with
  | [] => Ok tt
  | n :: nodes =>
      if bf_rpack_is_nil n then unpack_fronts (S i) nodes
      else
        let! ops := bf_front_ops_get (bf_front_of_Z (Z.of_nat i)) in
        let! _ := front_unpack ops n in
        unpack_fronts (S i) nodes
  end.

(** The context of the document [data]. *)
Definition load_ctx (pid : Z) (data : list Z) (k : K) : res (bf_daemon * bf_ctx) * K :=
  match (let! root := bf_rpack_new data in
         let! child := bf_rpack_kv_obj root "ctx" in Ok (root, child)) with
  | Err e => (Err e, k)
  | Ok (root, child) =>
      match _bf_ctx_new pid k with
      | (Err e, k) => (Err e, k)
      | (Ok d, k) =>
          match bf_ctx_load d malloc_fd child k with
          | (Err e, k) => (Err e, k)
          | (Ok ctx, k) =>
              ((let! nodes := bf_rpack_kv_array root "cache" in
                let! _ := unpack_fronts 0 nodes in Ok (d, ctx)), k)
          end
      end
  end.

(** No context when there is no file. *)
Definition _bf_load (pid : Z) (path : string) (k : K) : res (option (bf_daemon * bf_ctx)) * K :=
  let '(r, k) := sys_call (SysAccess ctx_path) k in
  if negb (r =? 0) then ((if r =? - ENOENT then Ok None else Err (- Z.abs r)), k)
  else
    match bf_read_file path (tt, k) with
    | (Err e, (_, k)) => (Err e, k)
    | (Ok data, (_, k)) =>
        let '(r, k) := load_ctx pid data k in ((let! x := r in Ok (Some x)), k)
    end.

Fixpoint setup_fronts (l : list bf_front) : res unit :=
  match l with
  | [] => Ok tt
  | front :: l =>
      if bf_opts_is_front_enabled opts front then
        let! ops := bf_front_ops_get front in
        let! _ := front_setup ops in
        setup_fronts l
      else setup_fronts l
  end.

(** The context is restored, or created. *)
Definition ctx_restore (pid : Z) (k : K) : res (bf_daemon * bf_ctx) * K :=
  let '(r, k) := if opt_transient opts then (Ok None, k) else _bf_load pid ctx_path k in
  match r with
  | Err e => (Err e, k)
  | Ok (Some x) => (Ok x, k)
  | Ok None => let '(r, k) := _bf_ctx_new pid k in ((let! d := r in Ok (d, [])), k)
  end.

(** [_bf_init], once the options have been parsed. *)
Definition _bf_init (pid : Z) (k : K) : res (bf_daemon * bf_ctx) * K :=
  match bf_ensure_dir BF_RUNTIME_DIR (tt, k) with
  | (Err e, (_, k)) => (Err e, k)
  | (Ok _, (_, k)) =>
      match ctx_restore pid k with
      | (Err e, k) => (Err e, k)
      | (Ok (d, ctx), k) =>
          match setup_fronts fronts with
          | Err e => (Err e, k)
          | Ok _ =>
              if opt_transient opts then (Ok (d, ctx), k)
              else let '(r, (ctx, k)) := _bf_save ctx_path (ctx, k) in
                   ((let! _ := r in Ok (d, ctx)), k)
          end
      end
  end.

(** * Requests *)

(** The commands after which the context is saved. *)
Definition is_saved_cmd (cmd : bf_request_cmd) : bool :=
  match cmd with
  | BF_REQ_RULESET_FLUSH | BF_REQ_RULESET_SET | BF_REQ_CHAIN_SET | BF_REQ_CHAIN_LOAD | BF_REQ_CHAIN_ATTACH
  | BF_REQ_CHAIN_UPDATE | BF_REQ_CHAIN_FLUSH => true
  | _ => false
  end.

Definition front_known (front : bf_front) : bool :=
  negb ((bf_front_to_Z front <? 0) || (3 <=? bf_front_to_Z front)).

Definition cmd_known (cmd : bf_request_cmd) : bool :=
  negb ((bf_request_cmd_to_Z cmd <? 0) || (14 <=? bf_request_cmd_to_Z cmd)).

(** The response of a front; a failure is a response too. *)
Definition answer (d : bf_daemon) (request : bf_request) : st (bf_ctx * K) bf_response :=
  fun s =>
    match bf_front_ops_get (bf_request_front request) with
    | Err e => (Err e, s)
    | Ok ops =>
        match request_handler ops d request s with
        | (Ok response, s) => (Ok response, s)
        | (Err e, s) => ((if e =? - BF_CRASH then Err e else Ok (bf_response_new_failure e)), s)
        end
    end.

Definition _bf_process_request (d : bf_daemon) (request : bf_request) : st (bf_ctx * K) bf_response :=
  if negb (front_known (bf_request_front request)) then mret (bf_response_new_failure (- EINVAL))
  else if negb (cmd_known (request_cmd request)) then mret (bf_response_new_failure (- EINVAL))
  else if negb (bf_opts_is_front_enabled opts (bf_request_front request)) then
    mret (bf_response_new_failure (- ENOTSUP))
  else
    response ← answer d request;
    (if negb (opt_transient opts) && is_saved_cmd (request_cmd request) then _bf_save ctx_path else mret tt) ;;
    mret response.

(** * Clients *)

(** Each message is sent as a whole. *)
Definition send_msgs {T} (fd : Z) (msgs : list (list Z)) : st (T * K) unit :=
  st_iter (fun msg => r ← bf_bpf (SysSend fd msg);
                      if r =? Z.of_nat (length msg) then mret tt else st_err (- EIO)) msgs.

Definition receive {T} (fd : Z) : st (T * K) bf_request :=
  fun '(o, k) => ((let! x := bf_recv_request (sys_received fd k) in Ok (fst x)), (o, snd (sys_call (SysRecv fd) k))).

Definition read_pid {T} (fd : Z) : st (T * K) Z := fun '(o, k) => (Ok (sys_pid fd k), (o, k)).

Definition peer_pid {T} (fd : Z) : st (T * K) Z :=
  bf_bpf (SysPeercred fd) ;; read_pid fd.

(** The namespaces are closed when the scope ends. *)
Definition with_ns {O A} (init : st (O * K) bf_ns) (m : bf_ns -> st (O * K) A) : st (O * K) A :=
  fun s =>
    match init s with
    | (Err e, s) => (Err e, s)
    | (Ok ns, s) => let '(r, (o, k)) := m ns s in (r, (o, bf_ns_clean ns k))
    end.

Definition exchange (d : bf_daemon) (client_fd : Z) (ns : bf_ns) : st (bf_ctx * K) unit :=
  request ← receive client_fd;
  response ← _bf_process_request d (bf_request_set_fd (bf_request_set_ns request ns) client_fd);
  send_msgs client_fd (bf_send_response response).

Definition serve (d : bf_daemon) (fd : Z) : st (bf_ctx * K) unit :=
  with_dir (bf_bpf (SysAccept fd)) (fun client_fd =>
    pid ← peer_pid client_fd;
    with_ns (bf_ns_init (ns_dir_path pid)) (exchange d client_fd)).

(** The first [turns] turns of the loop; what goes wrong with a client ends its
    connection only. *)
Fixpoint serve_loop (turns : nat) (d : bf_daemon) (fd : Z) : st (bf_ctx * K) unit :=
  match turns with
  | O => mret tt
  | S turns => fun s =>
      if sys_stop (snd s) then (Ok tt, s)
      else match serve d fd s with
           | (Err e, s) => if e =? - BF_CRASH then (Err e, s) else serve_loop turns d fd s
           | (Ok _, s) => serve_loop turns d fd s
           end
  end.

Definition _bf_run (turns : nat) (d : bf_daemon) : st (bf_ctx * K) unit :=
  with_dir (bf_acquire_lock BF_LOCK_PATH) (fun _ =>
  with_dir (bf_bpf SysSocket) (fun fd =>
    unlink BF_SOCKET_PATH ;;
    bf_bpf (SysBind fd BF_SOCKET_PATH) ;;
    bf_bpf (SysListen fd 1) ;;
    serve_loop turns d fd)).

(** What is left is closed; a transient daemon unloads its programs. *)
Definition _bf_clean (d : bf_daemon) (ctx : bf_ctx) (k : K) : res unit * K :=
  let k := bf_ctx_teardown d (opt_transient opts) ctx k in
  let '(r, (_, k)) := bf_ctx_rm_pindir d (tt, k) in
  match r with
  | Ok _ => (Ok tt, k)
  | Err e => ((if negb (e =? - ENOENT) then Err e else Ok tt), k)
  end.

(** [main]: the result of [_bf_clean] is not looked at. *)
Definition daemon_main (turns : nat) (pid : Z) (bf_btf_setup : res unit) (k : K) : res unit * K :=
  match bf_btf_setup with
  | Err e => (Err e, k)
  | Ok _ =>
      match _bf_init pid k with
      | (Err e, k) => (Err e, k)
      | (Ok (d, ctx), k) =>
          match _bf_run turns d (ctx, k) with
          | (Err e, (_, k)) => (Err e, k)
          | (Ok _, (ctx, k)) => (Ok tt, snd (_bf_clean d ctx k))
          end
      end
  end.
End Daemon.
