(* ===== verification/Traffic.v ===== *)
(** What goes through the sockets of the daemon, and which of its operations
    send or receive.

    A kernel that implements [TrafficSys] remembers the messages that were sent
    and received, and the descriptors that were sent along.  An operation is
    [calm] when it leaves that record as it is: of all the operations on the
    context, the programs, the files and the namespaces, only the two handlers that
    send a descriptor are not. *)

From S2P Require Import Prelude Bytes Bpf Helper Hook Hookopts Matcher BfSet Sys Io Map Rule.
From S2P Require Import Chain Printer Pack Serial Program Block BlockExec Fixups Flavors Load Generate.
From S2P Require Import Cgen Request Ctx Save Cli Ipt Daemon.

(** [MsgIn]: what the calls to [recvmsg] on a descriptor returned. *)
Inductive message : Type :=
| MsgOut (fd : Z) (data : list Z)
| FdOut (sock_fd fd : Z)
| MsgIn (fd : Z) (msgs : list (list Z)).

Definition talks (c : syscall) : bool :=
  match c with SysSend _ _ | SysSendFd _ _ | SysRecv _ => true | _ => false end.

(** A record of the messages. *)
Class RecordSys (K : Type) `{Sys K} : Type := {
  traffic : K -> list message;
  traffic_same c k : talks c = false -> traffic (snd (sys_call c k)) = traffic k
}.

(** A call that sends says how many bytes it sent. *)
Class TrafficSys (K : Type) `{Sys K} `{!PeerSys K} `{!RecordSys K} : Prop := {
  traffic_send fd msg k : traffic (snd (sys_call (SysSend fd msg) k)) =
    let r := fst (sys_call (SysSend fd msg) k) in
    traffic k ++ if r <? 0 then [] else [MsgOut fd (take (Z.to_nat r) msg)];
  traffic_send_fd sock_fd fd k : traffic (snd (sys_call (SysSendFd sock_fd fd) k)) =
    traffic k ++ if fst (sys_call (SysSendFd sock_fd fd) k) <? 0 then [] else [FdOut sock_fd fd];
  traffic_recv fd k : traffic (snd (sys_call (SysRecv fd) k)) = traffic k ++ [MsgIn fd (sys_received fd k)]
}.

Create HintDb calm.

Section Calm.
Context {K : Type} `{Sys K} `{!RecordSys K}.

Definition calm {O A} (m : st (O * K) A) : Prop := forall o k, traffic (snd (snd (m (o, k)))) = traffic k.

(** The same of a function of the kernel. *)
Definition still {X} (r : X * K) (k : K) : Prop := traffic (snd r) = traffic k.

(** ** Combinators *)

Lemma calm_pure {O A} (f : O * K -> res A) : calm (fun s => (f s, s)).
Proof. done. Qed.

Lemma calm_ret {O A} (a : A) : calm (O := O) (mret a).
Proof. done. Qed.

Lemma calm_err {O A} e : calm (O := O) (A := A) (st_err e).
Proof. done. Qed.

Lemma calm_lift {O A} (r : res A) : calm (O := O) (st_lift r).
Proof. done. Qed.

Lemma calm_get {O} : calm (O := O) obj_get.
Proof. done. Qed.

Lemma calm_modify {O} (f : O -> O) : calm (obj_modify f).
Proof. done. Qed.

Lemma calm_bind {O A B} (m : st (O * K) A) (k : A -> st (O * K) B) :
  calm m -> (forall a, calm (k a)) -> calm (m ≫= k).
Proof.
  intros Hm Hk o w. specialize (Hm o w). unfold mbind, st_bind.
  destruct (m (o, w)) as [[a|e] [o1 w1]]; cbn in *; [|done]. by rewrite (Hk a o1 w1).
Qed.

Lemma calm_onerr {O A} (m : st (O * K) A) h : calm m ->
  (forall o k, traffic (snd (h (o, k))) = traffic k) -> calm (st_onerr m h).
Proof.
  intros Hm Hh o k. specialize (Hm o k). unfold st_onerr.
  destruct (m (o, k)) as [[a|e] [o1 k1]]; cbn in *; [done|]. by rewrite (Hh o1 k1).
Qed.

Lemma calm_ignore {O A} (m : st (O * K) A) : calm m -> calm (st_ignore m).
Proof. intros Hm o k. specialize (Hm o k). unfold st_ignore. by destruct (m (o, k)). Qed.

Lemma calm_fatal {O A} (m : st (O * K) A) : calm m -> calm (st_fatal m).
Proof. intros Hm o k. specialize (Hm o k). unfold st_fatal. by destruct (m (o, k)) as [[] []]. Qed.

Lemma calm_iter {O A} (f : A -> st (O * K) unit) l : (forall x, calm (f x)) -> calm (st_iter f l).
Proof. intros Hf. induction l as [|x l IH]; cbn [st_iter]; [apply calm_ret|]. apply calm_bind; [apply Hf|by intros []]. Qed.

Lemma calm_call {O} c : talks c = false -> calm (O := O) (bf_bpf c).
Proof.
  intros Hc o k. pose proof (traffic_same c k Hc) as Ht. unfold bf_bpf. by destruct (sys_call c k) as [r k1].
Qed.

Lemma still_closep fd k : still (closep fd k) k.
Proof. unfold still, closep. destruct (fd =? -1); [done|]. by apply traffic_same. Qed.

Lemma calm_with_dir {O A} (dir : st (O * K) Z) (m : Z -> st (O * K) A) :
  calm dir -> (forall fd, calm (m fd)) -> calm (with_dir dir m).
Proof.
  intros Hd Hm o k. specialize (Hd o k). unfold with_dir.
  destruct (dir (o, k)) as [[fd|e] [o1 k1]]; cbn in *; [|done]. specialize (Hm fd o1 k1).
  destruct (m fd (o1, k1)) as [r [o2 k2]]. cbn in *. rewrite (still_closep fd k2). congruence.
Qed.

Lemma calm_on_part {O P A} (get : O -> P) (put : P -> O -> O) (m : st (P * K) A) : calm m -> calm (on_part get put m).
Proof. intros Hm o k. specialize (Hm (get o) k). unfold on_part. by destruct (m (get o, k)) as [r [p k1]]. Qed.
End Calm.

#[export] Hint Resolve calm_pure calm_ret calm_err calm_lift calm_get calm_modify calm_bind calm_onerr calm_ignore
  calm_fatal calm_iter calm_with_dir calm_on_part still_closep : calm.
#[export] Hint Extern 1 (calm (bf_bpf _)) => apply calm_call; reflexivity : calm.
#[export] Hint Extern 2 (calm (match ?x with _ => _ end)) => destruct x : calm.

(** * Maps, links and programs *)

Section Programs.
Context {K : Type} `{Sys K} `{!RecordSys K}.

Lemma calm_load_prog {O} name t img a tok : calm (O := O) (bf_bpf_prog_load name t img a tok).
Proof. unfold bf_bpf_prog_load. destruct (token_flags tok 0). auto with calm. Qed.

Lemma calm_btf_load {O} name tok : calm (O := O) (bf_bpf_btf_load name tok).
Proof. unfold bf_bpf_btf_load. destruct (token_flags tok 0). auto with calm. Qed.

Lemma calm_bpf_map_create {O} name t a b c d tok : calm (O := O) (bf_bpf_map_create name t a b c d tok).
Proof. unfold bf_bpf_map_create. destruct (token_flags tok _). auto with calm. Qed.

Lemma calm_map_create {O} tok m : calm (O := O) (bf_map_create tok m).
Proof.
  unfold bf_map_create. repeat case_match; try apply calm_err. apply calm_bind.
  - unfold _bf_map_make_btf. destruct (map_type m); try apply calm_ret. intros o k.
    pose proof (calm_btf_load (map_name m) tok o k) as Ht. by destruct (bf_bpf_btf_load _ _ _) as [[] []].
  - intros btf. apply calm_bind; [apply calm_bpf_map_create|intros fd; apply calm_ret].
Qed.

Lemma still_map_destroy m k : still (bf_map_destroy m k) k.
Proof. unfold bf_map_destroy. pose proof (still_closep (map_fd m) k). by destruct (closep (map_fd m) k). Qed.

Lemma still_destroy_maps ms k : still (destroy_maps ms k) k.
Proof.
  revert k. induction ms as [|m ms IH]; intros k; cbn [destroy_maps]; [done|]. pose proof (still_map_destroy m k) as H1.
  destruct (bf_map_destroy m k) as [m1 k1]. specialize (IH k1). destruct (destroy_maps ms k1). unfold still in *. cbn in *. congruence.
Qed.

Lemma still_link_detach l k : still (bf_link_detach l k) k.
Proof.
  unfold bf_link_detach. set (k1 := snd (sys_call _ k)). pose proof (still_closep (link_fd l) k1) as Hc.
  destruct (closep (link_fd l) k1). unfold still in *. cbn in *. rewrite Hc. by apply traffic_same.
Qed.

Lemma calm_link_create {O} a b h ho f : calm (O := O) (bf_bpf_link_create a b h ho f).
Proof. unfold bf_bpf_link_create. repeat case_match; auto with calm. Qed.

Lemma calm_link_attach h ho fd : calm (bf_link_attach h ho fd).
Proof.
  unfold bf_link_attach. apply calm_bind; [|intros r; apply calm_modify].
  destruct (bf_hook_to_flavor h) as [[]|]; try apply calm_link_create; [|apply calm_err].
  apply (calm_with_dir (bf_bpf (SysOpen _))); [by apply calm_call|]. intros cgroup_fd. apply calm_link_create.
Qed.

Lemma calm_link_update h fd : calm (bf_link_update h fd).
Proof.
  unfold bf_link_update. assert (calm (_bf_link_update_nf h fd)) as Hn.
  { intros l k. unfold _bf_link_update_nf. destruct (link_hookopts l) as [ho|]; [|done].
    match goal with |- context [bf_bpf_link_create ?a ?b ?c ?d ?e _] => pose proof (calm_link_create (O := bf_link) a b c d e l k) as Ht;
      destruct (bf_bpf_link_create a b c d e (l, k)) as [[fd'|e'] [l1 k1]] end; [|exact Ht].
    pose proof (still_closep (link_fd l) k1) as Hc. destruct (closep (link_fd l) k1). unfold still in Hc. cbn in *. congruence. }
  destruct (bf_hook_to_flavor h) as [[]|]; auto with calm; apply calm_bind; auto with calm; intros l;
    apply calm_bind; auto with calm; by apply calm_call.
Qed.

Lemma calm_fixup t : calm (prog_fixup t).
Proof. intros p k. unfold prog_fixup. by destruct (_bf_program_fixup p t). Qed.

Lemma calm_load_set_maps tok i sets ms : calm (load_set_maps tok i sets ms).
Proof.
  revert i ms. induction sets as [|set sets IH]; intros i [|m ms]; cbn [load_set_maps]; try apply calm_ret.
  apply calm_bind; [|intros []; apply IH]. unfold load_set_map. apply calm_bind; [apply calm_map_create|]. intros m1.
  apply calm_bind; [apply calm_get|]. intros p. apply calm_bind; [apply calm_modify|]. intros [].
  apply calm_bind; [by apply calm_call|]. intros z. apply calm_ret.
Qed.

Lemma calm_map_fixup t (h : bf_program -> bf_map) (f : bf_program -> bf_map -> bf_program) :
  calm (st_onerr (prog_fixup (K := K) t) (fun '(p, k) => let '(m, k) := bf_map_destroy (h p) k in (f p m, k))).
Proof.
  apply calm_onerr; [apply calm_fixup|]. intros p k. pose proof (still_map_destroy (h p) k).
  by destruct (bf_map_destroy (h p) k).
Qed.

Lemma calm_program_load tok : calm (bf_program_load tok).
Proof.
  unfold bf_program_load. apply calm_bind; [|intros []; apply calm_bind; [|intros []; apply calm_bind; [|intros []; apply calm_bind; [|intros []]]]].
  - apply calm_onerr.
    + apply calm_bind; [apply calm_get|]. intros p. apply calm_bind; [apply calm_load_set_maps|]. intros []. apply calm_fixup.
    + intros p k. cbn. pose proof (still_destroy_maps (prog_sets p) k). by destruct (destroy_maps (prog_sets p) k).
  - apply calm_bind; [apply calm_get|]. intros p. apply calm_bind; [apply calm_lift|]. intros m.
    apply calm_bind; [apply calm_modify|]. intros []. apply calm_bind; [apply calm_map_create|]. intros m1.
    apply calm_bind; [apply calm_modify|]. intros []. apply (calm_map_fixup _ prog_cmap).
  - apply calm_bind; [apply calm_get|]. intros p. apply calm_bind; [apply calm_lift|]. intros m.
    apply calm_bind; [apply calm_modify|]. intros []. apply calm_bind; [apply calm_map_create|]. intros m1.
    apply calm_bind; [apply calm_modify|]. intros []. apply calm_bind; [by apply calm_call|]. intros z. apply (calm_map_fixup _ prog_pmap).
  - apply calm_bind; [apply calm_get|]. intros p. apply calm_bind; [apply calm_map_create|]. intros m1.
    apply calm_bind; [apply calm_modify|]. intros []. apply (calm_map_fixup _ prog_lmap).
  - apply calm_bind; [apply calm_get|]. intros p. apply calm_bind; [apply calm_lift|]. intros t.
    apply calm_bind; [apply calm_lift|]. intros a. apply calm_bind; [apply calm_load_prog|]. intros fd. apply calm_modify.
Qed.

Lemma calm_on_link {A} (m : st (bf_link * K) A) : calm m -> calm (on_link m).
Proof. intros Hm p k. specialize (Hm (prog_link p) k). unfold on_link. by destruct (m (prog_link p, k)) as [r [l k1]]. Qed.

Lemma calm_attach ho : calm (bf_program_attach ho).
Proof. apply calm_bind; [apply calm_get|]. intros p. apply calm_on_link, calm_link_attach. Qed.

Lemma still_detach p k : still (bf_program_detach p k) k.
Proof. unfold bf_program_detach. pose proof (still_link_detach (prog_link p) k). by destruct (bf_link_detach (prog_link p) k). Qed.

Lemma still_unload p k : still (bf_program_unload p k) k.
Proof.
  unfold bf_program_unload.
  pose proof (still_closep (prog_fd p) k) as H1. destruct (closep (prog_fd p) k) as [fd k1].
  pose proof (still_link_detach (prog_link p) k1) as H2. destruct (bf_link_detach (prog_link p) k1) as [l k2].
  pose proof (still_map_destroy (prog_cmap p) k2) as H3. destruct (bf_map_destroy (prog_cmap p) k2) as [c k3].
  pose proof (still_map_destroy (prog_pmap p) k3) as H4. destruct (bf_map_destroy (prog_pmap p) k3) as [pm k4].
  pose proof (still_map_destroy (prog_lmap p) k4) as H5. destruct (bf_map_destroy (prog_lmap p) k4) as [lm k5].
  pose proof (still_destroy_maps (prog_sets p) k5) as H6. destruct (destroy_maps (prog_sets p) k5) as [ms k6].
  unfold still in *. cbn in *. congruence.
Qed.

Lemma traffic_unpin_maps ms dir k : traffic (unpin_maps ms dir k) = traffic k.
Proof. revert k. induction ms as [|m ms IH]; intros k; cbn [unpin_maps]; [done|]. rewrite IH. by apply traffic_same. Qed.

Lemma traffic_unpin p dir k : traffic (bf_program_unpin p dir k) = traffic k.
Proof.
  unfold bf_program_unpin, bf_link_unpin, bf_map_unpin. rewrite !traffic_same, traffic_unpin_maps by done.
  by rewrite !traffic_same by done.
Qed.

Lemma calm_map_pin {O} m dir : calm (O := O) (bf_map_pin m dir).
Proof. apply calm_bind; [by apply calm_call|]. intros z. apply calm_ret. Qed.

Lemma calm_link_pin {O} l dir : calm (O := O) (bf_link_pin l dir).
Proof. apply calm_bind; [by apply calm_call|]. intros z. apply calm_ret. Qed.

Lemma calm_pin dir : calm (bf_program_pin dir).
Proof.
  apply calm_onerr; [|intros p k; apply traffic_unpin]. apply calm_bind; [apply calm_get|]. intros p.
  apply calm_bind; [by apply calm_call|]. intros z. do 3 (apply calm_bind; [apply calm_map_pin|]; intros []).
  apply calm_bind; [apply calm_iter; intros m; apply calm_map_pin|]. intros [].
  destruct (link_hookopts (prog_link p)); [apply calm_link_pin|apply calm_ret].
Qed.

Lemma traffic_free p k : traffic (bf_program_free p k) = traffic k.
Proof. unfold bf_program_free. rewrite still_closep, still_destroy_maps, !still_closep. done. Qed.
End Programs.

#[export] Hint Resolve calm_program_load calm_on_link calm_attach calm_map_pin calm_link_pin calm_pin calm_link_update
  still_detach still_unload : calm.

(** * Cgens *)

Section Cgens.
Context `{CgenEnv} {K : Type} `{Sys K} `{!RecordSys K} (d : bf_daemon).

Lemma calm_opendir_at {O} fuel fd name mk : calm (O := O) (bf_opendir_at fuel fd name mk).
Proof.
  induction fuel as [|fuel IH]; [apply calm_err|]. intros o k. cbn [bf_opendir_at].
  pose proof (calm_call (SysOpenat fd name) eq_refl o k) as H1. destruct (bf_bpf (SysOpenat fd name) (o, k)) as [[x|e] [o1 k1]]; [exact H1|].
  destruct (negb (e =? - ENOENT) || negb mk); [exact H1|].
  pose proof (calm_call (SysMkdirat fd name) eq_refl o1 k1) as H2. destruct (bf_bpf (SysMkdirat fd name) (o1, k1)) as [[x|e'] [o2 k2]];
    cbn in *; [|congruence]. rewrite (IH o2 k2). congruence.
Qed.

Lemma calm_pindir {O} : calm (O := O) (bf_ctx_get_pindir_fd d).
Proof. apply calm_with_dir; [by apply calm_call|]. intros fd. apply calm_opendir_at. Qed.

Lemma calm_chain_pindir {O} name : calm (O := O) (_bf_cgen_get_chain_pindir_fd d name).
Proof. apply calm_with_dir; [apply calm_pindir|]. intros fd. apply calm_opendir_at. Qed.

Lemma calm_with_pindir {O A} name (m : Z -> st (O * K) A) : (forall fd, calm (m fd)) -> calm (with_pindir d name m).
Proof. intros Hm. unfold with_pindir. destruct (bf_opts_persist d); [apply calm_with_dir; [apply calm_chain_pindir|done]|apply Hm]. Qed.

Lemma calm_build {O} name chain (m : Z -> st (bf_program * K) unit) : (forall fd, calm (m fd)) ->
  calm (O := O) (build_program d name chain m).
Proof.
  intros Hm o k. unfold build_program. destruct (new_program chain) as [p|e].
  - pose proof (calm_with_pindir name m Hm p k) as Ht. destruct (with_pindir d name m (p, k)) as [[x|e] [p1 k1]]; [exact Ht|].
    cbn in *. by rewrite traffic_free.
  - apply calm_with_pindir. intros fd. apply calm_err.
Qed.

Lemma calm_setns {O} fd t : calm (O := O) (setns fd t).
Proof.
  intros o k. unfold setns. pose proof (calm_call (SysSetns fd t) eq_refl o k) as Ht.
  by destruct (bf_bpf (SysSetns fd t) (o, k)) as [[] []].
Qed.

Lemma calm_ns_set {O} ns old : calm (O := O) (bf_ns_set ns old).
Proof. unfold bf_ns_set. apply calm_bind; [|intros []]; case_match; auto using calm_setns with calm. Qed.

Lemma calm_in_ns {O} ns (m : st (O * K) unit) : calm m -> calm (in_ns d ns m).
Proof.
  intros Hm. apply calm_bind; [apply calm_ns_set|]. intros []. apply calm_bind; [done|]. intros [] o k.
  unfold leave_ns. pose proof (calm_ns_set (ctx_ns d) (Some ns) o k) as Ht. by destruct (bf_ns_set _ _ _) as [[] []].
Qed.

Lemma calm_on_program {A} (m : st (bf_program * K) A) : calm m -> calm (on_program m).
Proof.
  intros Hm cg k. unfold on_program. destruct (cgen_program cg) as [p|]; [|done].
  specialize (Hm p k). by destruct (m (p, k)) as [r [p1 k1]].
Qed.

Lemma calm_pin_if dir : calm (pin_if_persist (K := K) d dir).
Proof. unfold pin_if_persist. destruct (bf_opts_persist d); auto with calm. Qed.

Lemma calm_cgen_set ns ho : calm (bf_cgen_set d ns ho).
Proof.
  apply calm_bind; [apply calm_get|]. intros cg. apply calm_bind; [|intros p; apply calm_modify]. apply calm_build. intros fd.
  apply calm_bind; [apply calm_program_load|]. intros []. apply calm_bind; [|intros []; apply calm_pin_if].
  destruct ho; [apply calm_in_ns, calm_attach|apply calm_ret].
Qed.

Lemma calm_cgen_load : calm (bf_cgen_load d).
Proof.
  apply calm_bind; [apply calm_get|]. intros cg. apply calm_bind; [|intros p; apply calm_modify]. apply calm_build. intros fd.
  apply calm_bind; [apply calm_program_load|]. intros []. apply calm_pin_if.
Qed.

Lemma calm_on_detach : calm (on_program (fun '(p, k) => (Ok tt, bf_program_detach (K := K) p k))).
Proof. apply calm_on_program. intros p k. apply still_detach. Qed.

Lemma calm_cgen_attach ns ho : calm (bf_cgen_attach d ns ho).
Proof.
  apply calm_bind; [apply calm_get|]. intros cg. apply calm_with_pindir. intros fd.
  apply calm_bind; [apply calm_in_ns, calm_on_program, calm_attach|]. intros [].
  destruct (bf_opts_persist d); [|apply calm_ret]. apply calm_onerr; [|exact calm_on_detach].
  apply calm_on_program. auto with calm.
Qed.

Lemma calm_update_programs hook dir : calm (update_programs (K := K) d hook dir).
Proof.
  unfold update_programs. apply calm_bind; [apply calm_on_part, calm_program_load|]. intros [].
  apply calm_bind; [destruct (bf_opts_persist d); [|apply calm_ret]; apply calm_on_part; intros p k; apply traffic_unpin|]. intros [].
  apply calm_bind; [apply calm_get|]. intros ps. apply calm_bind.
  - apply calm_onerr; [apply calm_on_part, calm_on_link, calm_link_update|]. intros o k.
    destruct (bf_opts_persist d); [|done]. apply (calm_on_part snd (fun p ps => (fst ps, p)) _ (calm_pin dir)).
  - intros []. apply calm_bind; [apply calm_modify|]. intros [].
    destruct (bf_opts_persist d); [|apply calm_ret]. apply calm_ignore, calm_on_part, calm_pin.
Qed.

Lemma calm_cgen_update chain : calm (bf_cgen_update d chain).
Proof.
  intros cg k. unfold bf_cgen_update. destruct (cgen_program cg) as [p|]; [|done]. destruct (new_program chain) as [q|e].
  - pose proof (calm_with_pindir (chain_name chain) _ (calm_update_programs (chain_hook (cgen_chain cg))) (q, p) k) as Ht.
    destruct (with_pindir d _ _ _) as [[x|e] [[q1 p1] k1]]; cbn in *; by rewrite traffic_free.
  - apply calm_with_pindir. intros fd. apply calm_err.
Qed.

Lemma traffic_cgen_unload cg k : traffic (snd (bf_cgen_unload d (cg, k))) = traffic k.
Proof.
  unfold bf_cgen_unload. apply calm_with_dir; [apply calm_chain_pindir|]. intros fd. apply calm_on_program. intros p k1. cbn.
  rewrite still_unload. apply traffic_unpin.
Qed.

Lemma traffic_cgen_free cg k : traffic (bf_cgen_free d cg k) = traffic k.
Proof.
  assert (forall k, traffic match cgen_program cg with Some p => bf_program_free p k | None => k end = traffic k) as Hf.
  { intros k1. destruct (cgen_program cg); [apply traffic_free|done]. }
  unfold bf_cgen_free. cbv zeta.
  destruct (bf_opts_persist d); [|apply Hf]. pose proof (calm_pindir tt k) as Hp.
  destruct (bf_ctx_get_pindir_fd d (tt, k)) as [[fd|e] [o1 k1]]; cbn in Hp; [|rewrite Hf; exact Hp].
  assert (calm (bf_rmdir_at (T := unit) fd (chain_name (cgen_chain cg)))) as Hr by (apply calm_bind; [by apply calm_call|intros z; apply calm_ret]).
  specialize (Hr tt k1). destruct (bf_rmdir_at _ _ _) as [r [o2 k2]]. cbn in Hr. rewrite still_closep, Hf. congruence.
Qed.

Lemma calm_free_refused {O A} e : calm (O := O) (A := A) (free_refused d e).
Proof.
  unfold free_refused. destruct (bf_opts_persist d); [|apply calm_err]. intros o k. pose proof (calm_pindir o k) as Hp.
  destruct (bf_ctx_get_pindir_fd d (o, k)) as [[fd|e'] [o1 k1]]; [|exact Hp]. cbn in *. by rewrite still_closep.
Qed.

Context `{!CounterSys K}.

Lemma calm_counter idx : calm (bf_cgen_get_counter (K := K) idx).
Proof.
  apply calm_bind; [apply calm_get|]. intros cg. apply calm_bind; [apply calm_lift|]. intros i. apply calm_on_program.
  apply calm_bind; [|intros z p k; done]. apply calm_bind; [apply calm_get|]. intros p. by apply calm_call.
Qed.

Lemma calm_counters : calm (bf_cgen_get_counters (K := K)).
Proof.
  apply calm_bind; [apply calm_get|]. intros cg. generalize (counter_indices (length (chain_rules (cgen_chain cg)))).
  intros l. induction l as [|idx l IH]; cbn [get_counters]; auto using calm_counter with calm.
Qed.
End Cgens.

#[export] Hint Resolve calm_cgen_set calm_cgen_load calm_cgen_attach calm_cgen_update calm_counter calm_counters
  calm_free_refused calm_on_program : calm.

(** * Handlers *)

Section Handlers.
Context `{CgenEnv} `{Mpack} {K : Type} `{Sys K} `{!RecordSys K} `{!CounterSys K} (d : bf_daemon).

Lemma calm_set_cgen cg : calm (_bf_ctx_set_cgen (K := K) cg).
Proof. intros ctx k. unfold _bf_ctx_set_cgen. by destruct (_bf_ctx_get_cgen ctx _). Qed.

Lemma calm_delete i b : calm (_bf_ctx_delete_cgen d i b).
Proof.
  intros ctx k. unfold _bf_ctx_delete_cgen. destruct (ctx !! i) as [cg|]; [|done].
  pose proof (traffic_cgen_unload d cg k) as Hu. destruct b; [destruct (bf_cgen_unload d (cg, k))|]; cbn in *; by rewrite traffic_cgen_free.
Qed.

Lemma still_flush front ctx k : still (_bf_ctx_flush d front ctx k) k.
Proof.
  unfold still. revert k. induction ctx as [|cg ctx IH]; intros k; cbn [_bf_ctx_flush]; [done|]. destruct (of_front front cg).
  - pose proof (traffic_cgen_unload d cg k) as Hu. destruct (bf_cgen_unload d (cg, k)). cbn in Hu. by rewrite IH, traffic_cgen_free.
  - specialize (IH k). by destruct (_bf_ctx_flush d front ctx k).
Qed.

Lemma calm_on_cgen {A} i (m : st (bf_cgen * K) A) : calm m -> calm (on_cgen i m).
Proof.
  intros Hm ctx k. unfold on_cgen. destruct (ctx !! i) as [cg|]; [|done]. specialize (Hm cg k).
  by destruct (m (cg, k)) as [r [cg1 k1]].
Qed.

Lemma calm_find name : calm (find_cgen (K := K) name).
Proof. done. Qed.

Lemma calm_options : calm (link_options (K := K)).
Proof. apply calm_on_program. auto with calm. Qed.

Lemma calm_new_cgen chain : calm (new_cgen (K := K) d chain).
Proof. unfold new_cgen. destruct (bf_cgen_new _ _); auto with calm. Qed.

Lemma calm_add_cgen cg m : calm m -> calm (add_cgen (K := K) d cg m).
Proof.
  intros Hm ctx k. unfold add_cgen. specialize (Hm cg k). destruct (m (cg, k)) as [[x|e] [cg1 k1]]; cbn in Hm.
  - pose proof (calm_set_cgen cg1 ctx k1) as Hs. destruct (_bf_ctx_set_cgen cg1 (ctx, k1)) as [[y|e] [ctx1 k2]]; cbn in Hs; [cbn; congruence|].
    pose proof (traffic_cgen_unload d cg1 k2) as Hu. destruct (bf_cgen_unload d (cg1, k2)). cbn in *. rewrite traffic_cgen_free. congruence.
  - cbn. by rewrite traffic_cgen_free.
Qed.

Lemma calm_update_error {O} (m : st (O * K) unit) : calm m -> calm (update_error m).
Proof. intros Hm o k. specialize (Hm o k). unfold update_error. by destruct (m (o, k)) as [[] []]. Qed.

Lemma calm_request_pack q : calm (request_pack (K := K) q).
Proof. done. Qed.

Lemma calm_collect cgens : calm (collect_cgens (K := K) cgens).
Proof.
  induction cgens as [|cg cgens IH]; cbn [collect_cgens]; [apply calm_ret|]. unfold reading. auto 10 using calm_options with calm.
Qed.

#[local] Hint Resolve calm_set_cgen calm_delete calm_on_cgen calm_find calm_options calm_new_cgen calm_add_cgen
  calm_update_error calm_request_pack calm_collect : calm.

Lemma calm_ruleset_set q : calm (_bf_cli_ruleset_set (K := K) d q).
Proof.
  unfold _bf_cli_ruleset_set. apply calm_bind; [intros ctx k; apply still_flush|]. intros [].
  apply calm_bind; [auto with calm|]. intros root. apply calm_bind; [apply calm_lift|]. intros nodes.
  apply calm_bind; [|intros []; apply calm_ret]. apply calm_onerr; [|intros ctx k; apply still_flush].
  apply calm_iter. intros node. unfold ruleset_entry. auto 10 with calm.
Qed.

(** The two handlers that send a descriptor. *)
Definition sends_fd (cmd : bf_request_cmd) : bool :=
  match cmd with BF_REQ_CHAIN_PROG_FD | BF_REQ_CHAIN_LOGS_FD => true | _ => false end.

Lemma calm_command q : sends_fd (request_cmd q) = false -> calm (cli_command (K := K) d q).
Proof.
  intros Hc. unfold cli_command. destruct (request_cmd q); try discriminate Hc; try apply calm_err.
  - apply calm_bind; [intros ctx k; apply still_flush|intros []; apply calm_ret].
  - unfold _bf_cli_ruleset_get. auto 10 with calm.
  - apply calm_ruleset_set.
  - unfold _bf_cli_chain_set. repeat (apply calm_bind; [auto with calm; case_match; auto with calm|intros ?]); auto with calm.
  - unfold _bf_cli_chain_get. auto 20 with calm.
  - unfold _bf_cli_chain_load. repeat (apply calm_bind; [auto with calm; case_match; auto with calm|intros ?]); auto with calm.
  - unfold _bf_cli_chain_attach. repeat (apply calm_bind; [auto with calm; case_match; auto with calm|intros ?]); auto with calm.
  - unfold _bf_cli_chain_update. repeat (apply calm_bind; [auto with calm; case_match; auto with calm|intros ?]); auto with calm.
  - unfold _bf_cli_chain_flush. repeat (apply calm_bind; [auto with calm|intros ?]); auto with calm.
Qed.
End Handlers.

(** ** Iptables *)

Section Ipt.
Context `{CgenEnv} {K : Type} `{Sys K} `{!RecordSys K} `{!CounterSys K} (d : bf_daemon).

Lemma calm_entry_counter counters cgen idx e : calm (entry_counter (K := K) counters cgen idx e).
Proof.
  unfold entry_counter. destruct (if counters then cgen else None) as [i|]; [|apply calm_ret]. intros ctx k.
  destruct (ctx !! i) as [cg|]; [|done]. pose proof (calm_counter idx cg k) as Ht. by destruct (bf_cgen_get_counter idx (cg, k)) as [r [cg1 k1]].
Qed.

Lemma calm_gen_chains counters hook ruleset off replace : calm (gen_chains (K := K) counters hook ruleset off replace).
Proof.
  revert hook off replace. induction ruleset as [|[cgen [chain|]] ruleset IH]; intros hook off replace; cbn [gen_chains]; auto with calm.
  apply calm_bind; [|intros x; apply IH]. unfold gen_chain.
  apply calm_bind; [|auto using calm_entry_counter with calm]. generalize (chain_rules chain). intros rules.
  induction rules as [|r rules IHr]; cbn [gen_rules]; auto using calm_entry_counter with calm.
Qed.

Lemma calm_gen_replace counters : calm (_bf_ipt_gen_ipt_replace (K := K) counters).
Proof. unfold _bf_ipt_gen_ipt_replace. auto 10 using calm_gen_chains with calm. Qed.

Lemma calm_or_skip cg m next : calm m -> (forall cg, calm (next cg)) -> calm (or_skip (K := K) d cg m next).
Proof.
  intros Hm Hn ctx k. unfold or_skip. specialize (Hm cg k). destruct (m (cg, k)) as [[x|e] [cg1 k1]]; cbn in Hm.
  - rewrite (Hn cg1 ctx k1). done.
  - destruct (e =? - BF_CRASH); cbn; by rewrite traffic_cgen_free.
Qed.

Lemma calm_new_ipt ns chain : calm (new_ipt_cgen (K := K) d ns chain).
Proof.
  unfold new_ipt_cgen. destruct (bf_cgen_new _ _) as [cg|e]; [|auto with calm]. apply calm_or_skip; [auto with calm|]. intros cg1.
  apply calm_or_skip; [auto with calm|]. intros cg2 ctx k. pose proof (calm_set_cgen cg2 ctx k) as Hs.
  destruct (_bf_ctx_set_cgen cg2 (ctx, k)) as [[x|e] [ctx1 k1]]; cbn in *; [done|]. by rewrite traffic_cgen_free.
Qed.

Lemma calm_update_ipt i chain : calm (update_ipt_cgen (K := K) d i chain).
Proof.
  intros ctx k. unfold update_ipt_cgen. destruct (ctx !! i) as [cg|]; [|done]. pose proof (calm_cgen_update d chain cg k) as Ht.
  destruct (bf_cgen_update d chain (cg, k)) as [[x|e] [cg1 k1]]; [exact Ht|]. by destruct (e =? - BF_CRASH).
Qed.

Lemma calm_set_hooks ns cgens chains status : calm (set_hooks (K := K) d ns cgens chains status).
Proof.
  revert chains status. induction cgens as [|cgen cgens IH]; intros [|chain chains] status; cbn [set_hooks]; auto with calm.
  apply calm_bind; [|intros st; apply IH]. unfold set_hook.
  destruct chain, cgen; auto using calm_update_ipt, calm_new_ipt with calm.
Qed.

Lemma calm_ipt q : calm (_bf_ipt_request_handler (K := K) d q).
Proof.
  unfold _bf_ipt_request_handler. destruct (request_cmd q); auto with calm.
  - apply calm_bind; [|intros []; apply calm_ret]. unfold _bf_ipt_ruleset_set. apply calm_bind; [apply calm_lift|]. intros size.
    destruct (negb _); auto 10 using calm_set_hooks with calm.
  - destruct (_ =? IPT_SO_GET_INFO); [|destruct (_ =? IPT_SO_GET_ENTRIES); [|apply calm_err]].
    + unfold _bf_ipt_get_info_handler. repeat (destruct (negb _); [apply calm_err|]). auto using calm_gen_replace with calm.
    + unfold _bf_ipt_get_entries_handler. destruct (_ <? _)%nat; [apply calm_err|]. destruct (negb _); [apply calm_err|].
      apply calm_bind; [apply calm_gen_replace|]. intros x. repeat case_match; auto with calm.
Qed.
End Ipt.

(** * Requests *)

(** The descriptor that a request is for: the program of the chain it names, or
    the map of its logs. *)
Definition asked_fd `{Mpack} (ctx : bf_ctx) (q : bf_request) : option Z :=
  match (let! root := bf_rpack_new (bf_request_data q) in parse_name root) with
  | Err _ => None
  | Ok name =>
      i ← _bf_ctx_get_cgen ctx name;
      cg ← ctx !! i;
      p ← cgen_program cg;
      Some (if decide (request_cmd q = BF_REQ_CHAIN_PROG_FD) then prog_fd p else prog_lmap_fd p)
  end.

Section Requests.
Context `{CgenEnv} `{Mpack} {K : Type} `{Sys K} `{!CounterSys K} (d : bf_daemon).

Lemma parse_name_error root e : parse_name root = Err e -> e <> 0.
Proof.
  unfold parse_name, bf_rpack_kv_str, rpack_kv. destruct (bf_rpack_kv_node root "name") as [n|e'] eqn:E; cbn [rbind].
  - destruct n; cbn; try (by intros [= <-]). by destruct (has_nul s); [intros [= <-]|].
  - intros [= ->]. destruct root; cbn in E; try (by injection E as <-). destruct (map_lookup _ _); [done|by injection E as <-].
Qed.

(** A handler that finds the program of the chain that is named. *)
Lemma find_program_run q ctx (k : K) (f : option bf_program -> st (bf_ctx * K) unit) r ctx' k' :
  (root ← request_pack q; name ← st_lift (parse_name root); i ← find_cgen name; cgen ← on_cgen i obj_get;
   f (cgen_program cgen) ;; mret (M := st (bf_ctx * K)) (A := option bf_response) None) (ctx, k) = (r, (ctx', k')) ->
  (exists e, r = Err e /\ e <> 0 /\ k' = k) \/
  (exists name i cg, (let! root := bf_rpack_new (bf_request_data q) in parse_name root) = Ok name /\
     _bf_ctx_get_cgen ctx name = Some i /\ ctx !! i = Some cg /\
     (f (cgen_program cg) ;; mret (M := st (bf_ctx * K)) (A := option bf_response) None) (ctx, k) = (r, (ctx', k'))).
Proof.
  unfold request_pack, st_lift. unfold mbind at 1, st_bind at 1. unfold bf_rpack_new.
  destruct (mpack_parse _) as [root|]; cbn [of_option rbind]; [|intros [= <- _ <-]; left; by eexists].
  unfold mbind at 1, st_bind at 1. destruct (parse_name root) as [name|e] eqn:En.
  2: { intros [= <- _ <-]. left. exists e. by split_and!; [|eapply parse_name_error|]. }
  unfold mbind at 1, st_bind at 1. unfold find_cgen. destruct (_bf_ctx_get_cgen ctx name) as [i|] eqn:Ei; cbn [of_option];
    [|intros [= <- _ <-]; left; by eexists].
  unfold mbind at 1, st_bind at 1. unfold on_cgen. destruct (ctx !! i) as [cg|] eqn:Ec; [|intros [= <- _ <-]; left; by eexists].
  cbn [obj_get]. rewrite (list_insert_id ctx i cg Ec). intros E. right. by exists name, i, cg.
Qed.

(** A handler that sends a descriptor does nothing else. *)
Lemma command_sends q ctx (k : K) r ctx' k' : sends_fd (request_cmd q) = true -> cli_command d q (ctx, k) = (r, (ctx', k')) ->
  (exists e, r = Err e /\ e <> 0 /\ k' = k) \/
  exists fd, asked_fd ctx q = Some fd /\
    let '(z, k1) := sys_call (SysSendFd (bf_request_fd q) fd) k in
    k' = k1 /\ r = if z <? 0 then Err z else Ok None.
Proof.
  intros Hc E.
  assert (exists (get : bf_program -> Z) (bad err : Z), err <> 0 /\
    (forall p, (if decide (request_cmd q = BF_REQ_CHAIN_PROG_FD) then prog_fd p else prog_lmap_fd p) = get p) /\
    cli_command (K := K) d q = (root ← request_pack q; name ← st_lift (parse_name root); i ← find_cgen name; cgen ← on_cgen i obj_get;
      match cgen_program cgen with
      | None => st_err err
      | Some p => if get p =? bad then st_err err else bf_send_fd (bf_request_fd q) (get p)
      end ;; mret None)) as (get & bad & err & Herr & Hget & Hcmd).
  { unfold cli_command. destruct (request_cmd q); try discriminate Hc.
    - exists prog_fd, (-1), (- ENODEV). by split_and!.
    - exists prog_lmap_fd, 0, (- ENOENT). by split_and!. }
  rewrite Hcmd in E.
  apply (find_program_run q ctx k (fun p => match p with
    | None => st_err err | Some p => if get p =? bad then st_err err else bf_send_fd (bf_request_fd q) (get p) end)) in E
    as [He|(name & i & cg & Hn & Hi & Hcg & E)]; [by left|].
  destruct (cgen_program cg) as [p|] eqn:Ep; [|injection E as <- _ <-; left; by exists err].
  destruct (get p =? bad); [injection E as <- _ <-; left; by exists err|].
  right. exists (get p). split; [unfold asked_fd, mbind, option_bind; by rewrite Hn, Hi, Hcg, Ep, Hget|].
  revert E. unfold mbind, st_bind, bf_send_fd, bf_bpf, mbind, st_bind. destruct (sys_call _ k) as [z k1].
  destruct (z <? 0); by intros [= <- _ <-].
Qed.

Context `{!PeerSys K} `{!RecordSys K} `{!TrafficSys K}.

(** Its answer says whether it did. *)
Lemma command_traffic q ctx (k : K) r ctx' k' : cli_command d q (ctx, k) = (r, (ctx', k')) ->
  if sends_fd (request_cmd q) then
    match r with
    | Ok _ => r = Ok None /\ exists fd, asked_fd ctx q = Some fd /\ traffic k' = traffic k ++ [FdOut (bf_request_fd q) fd]
    | Err e => e <> 0 /\ traffic k' = traffic k
    end
  else traffic k' = traffic k.
Proof.
  intros E. destruct (sends_fd (request_cmd q)) eqn:Hc.
  2: { pose proof (calm_command d q Hc ctx k) as Ht. by rewrite E in Ht. }
  apply command_sends in E as [(e & -> & He & ->)|(fd & Hfd & E)]; [done| |done].
  pose proof (traffic_send_fd (bf_request_fd q) fd k) as Ht. destruct (sys_call _ k) as [z k1]. cbn [fst snd] in Ht.
  destruct E as [-> ->]. destruct (Z.ltb_spec z 0); [rewrite app_nil_r in Ht; split; [lia|done]|].
  split; [done|]. by exists fd.
Qed.
End Requests.

(** ** The daemon *)

Section Serving.
Context `{CgenEnv} `{Mpack} {K : Type} `{Sys K} `{!RecordSys K} `{!CounterSys K} `{!FileSys K} (opts : bf_options).

Lemma calm_unlink {O} path : calm (O := O) (unlink path).
Proof. intros o k. by apply traffic_same. Qed.

Lemma calm_write_file {O} path data : calm (O := O) (bf_write_file path data).
Proof.
  apply calm_with_dir; [by apply calm_call|]. intros fd. apply calm_bind; [by apply calm_call|]. intros z. case_match; auto with calm.
Qed.

Lemma calm_save path : calm (_bf_save (K := K) opts path).
Proof.
  apply calm_bind; [apply calm_get|]. intros ctx. destruct (bf_ctx_is_empty ctx); [apply calm_unlink|].
  apply calm_bind; [apply calm_lift|]. intros data. apply calm_write_file.
Qed.

(** ** Connections *)

Lemma calm_ns_info {O} name dir : calm (O := O) (_bf_ns_info_init name dir).
Proof.
  intros o k. unfold _bf_ns_info_init. pose proof (calm_call (SysOpenFileAt dir name) eq_refl o k) as Ho.
  destruct (bf_bpf (SysOpenFileAt dir name) (o, k)) as [[fd|e] [o1 k1]]; [|exact Ho]. cbn in Ho.
  pose proof (traffic_same (SysFstat fd) k1 eq_refl) as Hs. destruct (sys_call (SysFstat fd) k1) as [z k2]. cbn in Hs.
  destruct (z =? 0); cbn; [|rewrite still_closep]; congruence.
Qed.

Lemma traffic_ns_clean ns (k : K) : traffic (bf_ns_clean ns k) = traffic k.
Proof. unfold bf_ns_clean. by rewrite !still_closep. Qed.

Lemma calm_ns_init {O} path : calm (O := O) (bf_ns_init path).
Proof.
  apply calm_with_dir; [by apply calm_call|]. intros fd o k. pose proof (calm_ns_info "net" fd o k) as Ht1.
  destruct (_bf_ns_info_init "net" fd (o, k)) as [[net|e] [o1 k1]]; [|exact Ht1]. pose proof (calm_ns_info "mnt" fd o1 k1) as Ht2.
  destruct (_bf_ns_info_init "mnt" fd (o1, k1)) as [[mnt|e] [o2 k2]]; cbn [fst snd] in *; [|rewrite traffic_ns_clean]; congruence.
Qed.

Context `{!PeerSys K}.

Lemma calm_peer_pid {O} fd : calm (O := O) (peer_pid fd).
Proof. apply calm_bind; [by apply calm_call|]. by intros z o k. Qed.

Lemma calm_lock {O} path : calm (O := O) (bf_acquire_lock path).
Proof.
  intros o k. unfold bf_acquire_lock. pose proof (calm_call (SysOpenLock path) eq_refl o k) as Ht1.
  destruct (bf_bpf (SysOpenLock path) (o, k)) as [[fd|e] [o1 k1]]; [|exact Ht1]. pose proof (calm_call (SysFlock fd) eq_refl o1 k1) as Ht2.
  destruct (bf_bpf (SysFlock fd) (o1, k1)) as [[x|e] [o2 k2]]; cbn in *; [|rewrite still_closep]; congruence.
Qed.

(** ** What is sent *)

Context `{!TrafficSys K}.

(** A request whose answer comes with a descriptor. *)
Definition wants_fd (q : bf_request) : bool :=
  bool_decide (bf_request_front q = BF_FRONT_CLI) && bf_opts_is_front_enabled opts BF_FRONT_CLI && sends_fd (request_cmd q).

Definition succeeds (r : res bf_response) : bool := match r with Ok response => bf_response_status response =? 0 | Err _ => false end.

(** Processing a request sends nothing, but the descriptor it is for when it
    succeeds. *)
Definition processed (q : bf_request) (ctx : bf_ctx) (r : res bf_response) (k k' : K) : Prop :=
  if wants_fd q && succeeds r
  then exists fd, asked_fd ctx q = Some fd /\ traffic k' = traffic k ++ [FdOut (bf_request_fd q) fd]
  else traffic k' = traffic k.

Lemma processed_same q ctx r (k k' : K) : wants_fd q = false \/ succeeds r = false -> traffic k' = traffic k -> processed q ctx r k k'.
Proof. intros Hw Ht. unfold processed. destruct Hw as [-> | ->]; [|rewrite andb_false_r]; done. Qed.

Lemma answer_traffic d q ctx (k : K) r ctx' k' : bf_opts_is_front_enabled opts (bf_request_front q) = true ->
  answer d q (ctx, k) = (r, (ctx', k')) -> processed q ctx r k k'.
Proof.
  intros Hen. unfold answer, bf_front_ops_get. destruct (bf_request_front q) eqn:Hf; cbn [request_handler ipt_front nft_front cli_front].
  - pose proof (calm_ipt d q ctx k) as Ht. destruct (_bf_ipt_request_handler d q (ctx, k)) as [x [ctx1 k1]]. intros E.
    apply processed_same; [left; unfold wants_fd; by rewrite Hf|]. destruct x; injection E as _ _ <-; exact Ht.
  - intros [= <- <- <-]. apply processed_same; [left; unfold wants_fd; by rewrite Hf|done].
  - unfold _bf_cli_request_handler. destruct (cli_command d q (ctx, k)) as [x [ctx1 k1]] eqn:Ec. intros E.
    assert (k' = k1) as -> by (destruct x as [[y|]|e]; [| |destruct (e =? - BF_CRASH) eqn:He; cbn in E; rewrite ?He in E]; by injection E as _ _ <-).
    apply (command_traffic d q ctx k) in Ec. destruct (sends_fd (request_cmd q)) eqn:Hs.
    2: { apply processed_same; [left; unfold wants_fd; by rewrite Hs, andb_false_r|done]. }
    assert (wants_fd q = true) as Hw by (unfold wants_fd; by rewrite Hf, Hen, Hs).
    destruct x as [x|e].
    + destruct Ec as [[= ->] Hfd]. injection E as <- _. unfold processed. by rewrite Hw.
    + destruct Ec as [He Ht]. apply processed_same; [|done]. right. destruct (e =? - BF_CRASH) eqn:Hcr; cbn in E; rewrite ?Hcr in E; injection E as <- _; [done|]. by apply Z.eqb_neq.
  - intros [= <- <- <-]. by apply processed_same; [right|].
Qed.

Lemma process_traffic d q ctx (k : K) r ctx' k' :
  _bf_process_request opts d q (ctx, k) = (r, (ctx', k')) -> processed q ctx r k k'.
Proof.
  unfold _bf_process_request.
  destruct (negb (front_known _)); [intros [= <- <- <-]; by apply processed_same; [right|]|].
  destruct (negb (cmd_known _)); [intros [= <- <- <-]; by apply processed_same; [right|]|].
  destruct (bf_opts_is_front_enabled opts (bf_request_front q)) eqn:Hen; cbn [negb];
    [|intros [= <- <- <-]; by apply processed_same; [right|]].
  unfold mbind, st_bind. destruct (answer d q (ctx, k)) as [x [ctx1 k1]] eqn:Ea. apply (answer_traffic d q ctx k x ctx1 k1 Hen) in Ea.
  destruct x as [response|e]; [|intros [= <- <- <-]; exact Ea].
  destruct (negb (opt_transient opts)); cbn [andb]; [|intros [= <- <- <-]; exact Ea].
  destruct (is_saved_cmd (request_cmd q)) eqn:Hs; [|intros [= <- <- <-]; exact Ea].
  pose proof (calm_save ctx_path ctx1 k1) as Ht. destruct (_bf_save opts ctx_path (ctx1, k1)) as [y [ctx2 k2]]. cbn in Ht.
  assert (wants_fd q = false) as Hw by (unfold wants_fd; destruct (request_cmd q); try discriminate Hs; apply andb_false_r).
  unfold processed in Ea. rewrite Hw in Ea. cbn in Ea. intros E.
  apply processed_same; [by left|]. destruct y; injection E as _ _ <-; congruence.
Qed.

Lemma send_traffic {O} fd msgs (o : O) (k : K) : exists sent,
  traffic (snd (snd (send_msgs fd msgs (o, k)))) = traffic k ++ (MsgOut fd <$> sent).
Proof.
  revert o k. induction msgs as [|msg msgs IH]; intros o k; [by exists []; rewrite app_nil_r|].
  change (send_msgs fd (msg :: msgs)) with
    ((r ← bf_bpf (O := O) (SysSend fd msg); if r =? Z.of_nat (length msg) then mret tt else st_err (- EIO)) ;; send_msgs fd msgs).
  unfold mbind, st_bind, bf_bpf. pose proof (traffic_send fd msg k) as Ht.
  destruct (sys_call (SysSend fd msg) k) as [z k1]. cbn [fst snd] in Ht. destruct (z <? 0); [exists []; exact Ht|].
  destruct (z =? Z.of_nat (length msg)); [|by exists [take (Z.to_nat z) msg]].
  destruct (IH o k1) as [sent Hs]. exists (take (Z.to_nat z) msg :: sent). cbn [mret st_ret]. by rewrite Hs, Ht, <- app_assoc.
Qed.
End Serving.
