(* ===== verification/Ruleset.v ===== *)
(** What the daemon promises to the command line tool.

    The state of the daemon is seen as a ruleset: the chains, in order, with
    the front that defined them and the options they are attached with.
    [rs_step] says how a request changes it and which results it may have;
    the handlers of [Cli.v] implement it ([CliSpec.v]). *)

From S2P Require Import Prelude Helper Hook Hookopts Matcher BfSet Sys Rule Chain Pack Serial Request Cgen Cli CgenSpec.

(** * Rulesets *)

Record entry : Type := mk_entry {
  e_front : bf_front;
  e_chain : bf_chain;
  e_hook : option bf_hookopts
}.

Abbreviation ruleset := (list entry).

Definition e_name (e : entry) : string := chain_name (e_chain e).
Definition names (R : ruleset) : list string := e_name <$> R.

Definition remove (name : string) (R : ruleset) : ruleset := List.filter (fun e => negb (e_name e =? name)%string) R.

Definition drop_front (front : bf_front) (R : ruleset) : ruleset :=
  List.filter (fun e => negb (bool_decide (e_front e = front))) R.

Definition replace (e' : entry) (R : ruleset) : ruleset :=
  (fun e => if (e_name e =? e_name e')%string then e' else e) <$> R.

Definition cli_entry (x : bf_chain * option bf_hookopts) : entry := mk_entry BF_FRONT_CLI (fst x) (snd x).

(** * Requests *)

Section Steps.
Context `{Mpack} (request : bf_request).

Definition req_root : res mnode := bf_rpack_new (bf_request_data request).

Definition parse_entry (node : mnode) : res (bf_chain * option bf_hookopts) :=
  let! chain := parse_chain node in let! ho := parse_hookopts node in Ok (chain, ho).

Definition req_entry : res (bf_chain * option bf_hookopts) := let! root := req_root in parse_entry root.
Definition req_chain : res bf_chain := let! root := req_root in parse_chain root.
Definition req_name : res string := let! root := req_root in parse_name root.
Definition req_attach : res (string * bf_hookopts) :=
  let! root := req_root in let! name := parse_name root in let! ho := parse_attach_hookopts root in Ok (name, ho).
Definition req_nodes : res (list mnode) := let! root := req_root in bf_rpack_kv_array root "ruleset".
Definition req_ruleset : res (list (bf_chain * option bf_hookopts)) := let! nodes := req_nodes in rpack_each parse_entry nodes.

(** The result of a request, with the ruleset before and after. *)
Inductive rs_step (R : ruleset) : res (option bf_response) -> ruleset -> Prop :=
(** Rulesets *)
| rs_flush : request_cmd request = BF_REQ_RULESET_FLUSH -> rs_step R (Ok None) (drop_front BF_FRONT_CLI R)
| rs_set l : request_cmd request = BF_REQ_RULESET_SET -> req_ruleset = Ok l ->
    Forall (fun x => bf_chain_validate (fst x) = true) l ->
    NoDup (names (drop_front BF_FRONT_CLI R ++ (cli_entry <$> l))) ->
    rs_step R (Ok None) (drop_front BF_FRONT_CLI R ++ (cli_entry <$> l))
| rs_set_error e : request_cmd request = BF_REQ_RULESET_SET -> rs_step R (Err e) (drop_front BF_FRONT_CLI R)
(** Chains *)
| rs_chain_set c ho : request_cmd request = BF_REQ_CHAIN_SET -> req_entry = Ok (c, ho) -> bf_chain_validate c = true ->
    rs_step R (Ok None) (remove (chain_name c) R ++ [cli_entry (c, ho)])
| rs_chain_set_error c ho e : request_cmd request = BF_REQ_CHAIN_SET -> req_entry = Ok (c, ho) ->
    bf_chain_validate c = true -> rs_step R (Err e) (remove (chain_name c) R)
| rs_chain_refused c ho e : request_cmd request = BF_REQ_CHAIN_SET -> req_entry = Ok (c, ho) ->
    bf_chain_validate c = false -> e = - EINVAL \/ e = - BF_CRASH -> rs_step R (Err e) R
| rs_chain_load c : request_cmd request = BF_REQ_CHAIN_LOAD -> req_chain = Ok c -> chain_name c ∉ names R ->
    bf_chain_validate c = true -> rs_step R (Ok None) (R ++ [cli_entry (c, None)])
| rs_chain_load_exists c : request_cmd request = BF_REQ_CHAIN_LOAD -> req_chain = Ok c -> chain_name c ∈ names R ->
    rs_step R (Err (- EEXIST)) R
| rs_chain_load_error c e : request_cmd request = BF_REQ_CHAIN_LOAD -> req_chain = Ok c -> chain_name c ∉ names R ->
    rs_step R (Err e) R
| rs_chain_attach en ho : request_cmd request = BF_REQ_CHAIN_ATTACH -> req_attach = Ok (e_name en, ho) ->
    en ∈ R -> e_hook en = None -> bf_hookopts_validate ho (chain_hook (e_chain en)) = Ok tt ->
    rs_step R (Ok None) (replace (mk_entry (e_front en) (e_chain en) (Some ho)) R)
| rs_chain_attach_busy en ho : request_cmd request = BF_REQ_CHAIN_ATTACH -> req_attach = Ok (e_name en, ho) ->
    en ∈ R -> is_Some (e_hook en) -> rs_step R (Err (- EBUSY)) R
| rs_chain_attach_error en ho e : request_cmd request = BF_REQ_CHAIN_ATTACH -> req_attach = Ok (e_name en, ho) ->
    en ∈ R -> e_hook en = None -> rs_step R (Err e) R
| rs_chain_attach_crash en ho : request_cmd request = BF_REQ_CHAIN_ATTACH -> req_attach = Ok (e_name en, ho) ->
    en ∈ R -> e_hook en = None ->
    rs_step R (Err (- BF_CRASH)) (replace (mk_entry (e_front en) (e_chain en) (Some ho)) R)
| rs_chain_update c en ho : request_cmd request = BF_REQ_CHAIN_UPDATE -> req_chain = Ok c -> en ∈ R ->
    e_name en = chain_name c -> e_hook en = Some ho ->
    rs_step R (Ok None) (replace (mk_entry (e_front en) c (Some (relinked (chain_hook (e_chain en)) ho))) R)
| rs_chain_update_error c en e : request_cmd request = BF_REQ_CHAIN_UPDATE -> req_chain = Ok c -> en ∈ R ->
    e_name en = chain_name c -> e = - EINVAL \/ e = - BF_CRASH -> rs_step R (Err e) R
| rs_chain_flush name : request_cmd request = BF_REQ_CHAIN_FLUSH -> req_name = Ok name -> name ∈ names R ->
    rs_step R (Ok None) (remove name R)
(** A chain that is not there *)
| rs_unknown name : request_cmd request ∈ [BF_REQ_CHAIN_GET; BF_REQ_CHAIN_PROG_FD; BF_REQ_CHAIN_LOGS_FD; BF_REQ_CHAIN_FLUSH] ->
    req_name = Ok name -> name ∉ names R -> rs_step R (Err (- ENOENT)) R
| rs_unknown_attach name ho : request_cmd request = BF_REQ_CHAIN_ATTACH -> req_attach = Ok (name, ho) -> name ∉ names R ->
    rs_step R (Err (- ENOENT)) R
| rs_unknown_update c : request_cmd request = BF_REQ_CHAIN_UPDATE -> req_chain = Ok c -> chain_name c ∉ names R ->
    rs_step R (Err (- ENOENT)) R
(** Requests that only read the ruleset *)
| rs_get r : request_cmd request = BF_REQ_RULESET_GET -> rs_step R r R
| rs_read name r : request_cmd request ∈ [BF_REQ_CHAIN_GET; BF_REQ_CHAIN_PROG_FD; BF_REQ_CHAIN_LOGS_FD] ->
    req_name = Ok name -> name ∈ names R -> rs_step R r R
(** Requests that cannot be read *)
| rs_bad_entry e : request_cmd request = BF_REQ_CHAIN_SET -> req_entry = Err e -> rs_step R (Err e) R
| rs_bad_chain e : request_cmd request ∈ [BF_REQ_CHAIN_LOAD; BF_REQ_CHAIN_UPDATE] -> req_chain = Err e -> rs_step R (Err e) R
| rs_bad_attach e : request_cmd request = BF_REQ_CHAIN_ATTACH -> req_attach = Err e -> rs_step R (Err e) R
| rs_bad_name e : request_cmd request ∈ [BF_REQ_CHAIN_GET; BF_REQ_CHAIN_PROG_FD; BF_REQ_CHAIN_LOGS_FD; BF_REQ_CHAIN_FLUSH] ->
    req_name = Err e -> rs_step R (Err e) R
| rs_bad_command : request_cmd request ∉ [BF_REQ_RULESET_FLUSH; BF_REQ_RULESET_GET; BF_REQ_RULESET_SET; BF_REQ_CHAIN_SET;
      BF_REQ_CHAIN_GET; BF_REQ_CHAIN_PROG_FD; BF_REQ_CHAIN_LOGS_FD; BF_REQ_CHAIN_LOAD; BF_REQ_CHAIN_ATTACH;
      BF_REQ_CHAIN_UPDATE; BF_REQ_CHAIN_FLUSH] -> rs_step R (Err (- EINVAL)) R.

(** Programs that a request loads. *)
Definition programs_loaded : nat :=
  match request_cmd request with
  | BF_REQ_RULESET_SET => match req_nodes with Ok nodes => length nodes | Err _ => O end
  | BF_REQ_CHAIN_SET | BF_REQ_CHAIN_LOAD | BF_REQ_CHAIN_UPDATE => 1
  | _ => O
  end.
End Steps.

(** * Names stay unique *)

Lemma names_filter f R : NoDup (names R) -> NoDup (names (List.filter f R)).
Proof.
  unfold names. induction R as [|e R IH]; [done|]. cbn. intros [Hn Hd]%NoDup_cons.
  destruct (f e); [|by apply IH]. cbn. apply NoDup_cons. split; [|by apply IH].
  intros Hin. apply Hn. apply list_elem_of_fmap in Hin as (e' & -> & Hin).
  apply list_elem_of_fmap. exists e'. split; [done|]. apply list_elem_of_In. apply list_elem_of_In, filter_In in Hin. by destruct Hin.
Qed.

Lemma names_replace e' R : names (replace e' R) = names R.
Proof.
  unfold names, replace. rewrite <- list_fmap_compose. apply list_fmap_ext. intros i e _. cbn.
  by destruct (String.eqb_spec (e_name e) (e_name e')).
Qed.

Lemma names_remove name R : name ∉ names (remove name R).
Proof.
  unfold names, remove. rewrite list_elem_of_fmap. intros (e & -> & He%list_elem_of_In).
  apply filter_In in He as [_ He]. by rewrite String.eqb_refl in He.
Qed.

Lemma names_snoc R e : NoDup (names R) -> e_name e ∉ names R -> NoDup (names (R ++ [e])).
Proof.
  intros Hd Hn. unfold names in *. rewrite fmap_app. apply NoDup_app. split_and!; [done| |apply NoDup_singleton].
  cbn. intros n Hin ->%list_elem_of_singleton. done.
Qed.
