(* ===== verification/CliSpec.v ===== *)
(** The handlers of [Cli.v] implement [Ruleset.v].

    The context represents a ruleset when each of its cgens is ready, with the
    chain and the options of the entry.  Every command takes a context that
    represents a ruleset to one that represents a ruleset the specification
    allows, and accounts for the descriptors it opens and closes. *)

From S2P Require Import Prelude Bytes Bpf Helper Hook Hookopts Matcher BfSet Sys Io Map Rule.
From S2P Require Import Chain Printer Pack Serial Program Block BlockExec Fixups Flavors Load Fds Generate Frame.
From S2P Require Import Account Cgen CgenSpec Request Ctx Cli Ruleset.

#[export] Instance owner_ctx : Owner bf_ctx := fun ctx => ctx ≫= own_fds.

(** * Representation *)

Definition ready_as (e : entry) : bf_cgen -> Prop := ready (e_front e) (e_chain e) (e_hook e).

Definition rep (R : ruleset) (ctx : bf_ctx) : Prop := NoDup (names R) /\ Forall2 ready_as R ctx.

Lemma ready_name e cg : ready_as e cg -> cgen_name cg = e_name e.
Proof. intros (_ & Hc & _). unfold cgen_name, e_name. by rewrite Hc. Qed.

(** The index of a name. *)
Fixpoint find_name (ns : list string) (name : string) : option nat :=
  match ns with
  | [] => None
  | n :: ns => if (n =? name)%string then Some O else match find_name ns name with Some i => Some (S i) | None => None end
  end.

Lemma find_name_some ns name i : find_name ns name = Some i -> ns !! i = Some name.
Proof.
  revert i. induction ns as [|n ns IH]; intros i; cbn; [done|].
  destruct (String.eqb_spec n name) as [->|]; [by intros [= <-]|].
  destruct (find_name ns name) as [j|]; [|done]. intros [= <-]. by apply IH.
Qed.

Lemma find_name_none ns name : find_name ns name = None <-> name ∉ ns.
Proof.
  induction ns as [|n ns IH]; cbn; [by split; [intros _ ?%elem_of_nil|]|].
  rewrite not_elem_of_cons. destruct (String.eqb_spec n name) as [->|Hn]; [by split; [|intros []]|].
  destruct (find_name ns name); [by split; [|intros [_ ?%IH]]|]. split; [|done]. intros _. split; [congruence|by apply IH].
Qed.

Lemma get_cgen_find R ctx name : Forall2 ready_as R ctx -> _bf_ctx_get_cgen ctx name = find_name (names R) name.
Proof.
  induction 1 as [|e cg R ctx He _ IH]; [done|]. cbn. rewrite (ready_name _ _ He), IH. done.
Qed.

(** With unique names, an entry is found by its name alone. *)
Lemma lookup_replace R i e e' : NoDup (names R) -> R !! i = Some e -> e_name e' = e_name e -> <[i := e']> R = replace e' R.
Proof.
  unfold replace. revert i. induction R as [|e0 R IH]; intros i; [done|]. cbn. intros [Hn Hd]%NoDup_cons. destruct i as [|i]; cbn.
  - intros [= ->] E. rewrite E, String.eqb_refl. f_equal.
    assert (forall e1, e1 ∈ R -> (if (e_name e1 =? e_name e)%string then e' else e1) = e1) as Hid.
    { intros e1 Hin. destruct (String.eqb_spec (e_name e1) (e_name e)) as [E1|]; [|done].
      exfalso. apply Hn. rewrite <- E1. by apply list_elem_of_fmap_2. }
    clear -Hid. induction R as [|e1 R IH]; [done|]. cbn. rewrite Hid by left.
    f_equal. apply IH. intros e2 He2. apply Hid. by right.
  - intros Hi E. rewrite <- (IH i Hd Hi E).
    destruct (String.eqb_spec (e_name e0) (e_name e')) as [E1|]; [|done].
    exfalso. apply Hn. rewrite E1, E. apply list_elem_of_fmap_2. by eapply list_elem_of_lookup_2.
Qed.

Lemma remove_fresh name R : name ∉ names R -> remove name R = R.
Proof.
  unfold names, remove. induction R as [|e R IH]; [done|]. cbn. rewrite not_elem_of_cons. intros [Hn Hr].
  destruct (String.eqb_spec (e_name e) name); [congruence|]. cbn. by rewrite IH.
Qed.

Lemma lookup_remove R i e : NoDup (names R) -> R !! i = Some e -> delete i R = remove (e_name e) R.
Proof.
  revert i. induction R as [|e0 R IH]; intros i; [done|]. cbn. intros [Hn Hd]%NoDup_cons. destruct i as [|i]; cbn.
  - intros [= ->]. rewrite String.eqb_refl. cbn. exact (eq_sym (remove_fresh _ _ Hn)).
  - intros Hi. destruct (String.eqb_spec (e_name e0) (e_name e)) as [E|]; cbn.
    + exfalso. apply Hn. rewrite E. apply list_elem_of_fmap_2. by eapply list_elem_of_lookup_2.
    + f_equal. exact (IH i Hd Hi).
Qed.

(** * Descriptors of the context *)

Abbreviation own_ctx := (own_fds (O := bf_ctx)).

Lemma own_ctx_app (ctx ctx' : list bf_cgen) : own_ctx (ctx ++ ctx') = own_ctx ctx ++ own_ctx ctx'.
Proof. apply bind_app. Qed.

Lemma own_ctx_cons cg (ctx : list bf_cgen) : own_ctx (cg :: ctx) = own_fds cg ++ own_ctx ctx.
Proof. done. Qed.

Lemma own_ctx_split (ctx : list bf_cgen) i cg : ctx !! i = Some cg ->
  own_ctx ctx ≡ₚ own_fds cg ++ own_ctx (delete i ctx).
Proof.
  intros Hi. rewrite <- (take_drop_middle ctx i cg Hi) at 1. rewrite delete_take_drop.
  rewrite !own_ctx_app, own_ctx_cons. solve_Permutation.
Qed.

Lemma own_ctx_insert (ctx : list bf_cgen) i cg cg' : ctx !! i = Some cg ->
  own_ctx (<[i := cg']> ctx) ≡ₚ own_fds cg' ++ own_ctx (delete i ctx).
Proof.
  intros Hi. assert (i < length ctx)%nat as Hl by (by eapply lookup_lt_Some).
  rewrite (own_ctx_split _ i cg') by (by apply list_lookup_insert_eq). f_equiv.
  rewrite !delete_take_drop, take_insert_ge, drop_insert_lt by lia. done.
Qed.

(** * Operations on the context *)

Section Context.
Context `{CgenEnv} `{Mpack} {K : Type} `{FdSys K} (d : bf_daemon).

Abbreviation M A := (st (bf_ctx * K) A).

Lemma rep_lookup R ctx i e : rep R ctx -> R !! i = Some e -> exists cg, (ctx : list bf_cgen) !! i = Some cg /\ ready_as e cg.
Proof. intros [_ HR] Hi. by eapply Forall2_lookup_l. Qed.

Lemma rep_insert R ctx i e e' cg : rep R ctx -> R !! i = Some e -> e_name e' = e_name e -> ready_as e' cg ->
  rep (replace e' R) (<[i := cg]> (ctx : list bf_cgen)).
Proof.
  intros [Hn HR] Hi He Hr. split; [by rewrite names_replace|]. rewrite <- (lookup_replace R i e e') by done.
  by apply Forall2_insert.
Qed.

Lemma spec_on_cgen {A} (m : st (bf_cgen * K) A) R i e (S : A -> entry -> Prop) (T : Z -> entry -> Prop) n :
  R !! i = Some e ->
  specE (ready_as e) (fun a cg => exists e', (e_name e' = e_name e /\ S a e') /\ ready_as e' cg)
    (fun z cg => exists e', (e_name e' = e_name e /\ T z e') /\ ready_as e' cg) n m ->
  specE (rep R) (fun a ctx => exists e', S a e' /\ rep (replace e' R) ctx)
    (fun z ctx => exists e', T z e' /\ rep (replace e' R) ctx) n (on_cgen i m).
Proof.
  intros Hi Hm G [ctx k] r s' [HR HX] E. destruct (rep_lookup _ _ _ _ HR Hi) as (cg & Hcg & Hr).
  unfold on_cgen in E. rewrite Hcg in E. destruct (m (cg, k)) as [x [cg' k']] eqn:Em.
  rewrite (own_ctx_split _ _ _ Hcg) in HX.
  destruct (spec_frame m _ _ _ n G cg k _ x cg' k' Hm Hr HX Em) as [HQ (G' & Hl & HX')].
  injection E as <- <-. destruct x as [a|z]; cbn; destruct HQ as (e' & (He & HS) & Hr');
    (split; [exists e'; split; [done|by eapply rep_insert]|]); exists G'; (split; [done|]);
    by rewrite (own_ctx_insert _ _ _ _ Hcg).
Qed.

Lemma quiet_on_cgen {A} (m : st (bf_cgen * K) A) i : quiet m -> quiet (on_cgen i m).
Proof.
  intros Hm ctx k. unfold on_cgen. destruct ((ctx : list bf_cgen) !! i) as [cg|] eqn:Hi; [|done].
  specialize (Hm cg k). destruct (m (cg, k)) as [r [cg' k']]. cbn in *. destruct Hm as [-> Hm].
  split; [by apply list_insert_id|done].
Qed.

Lemma quiet_on_program {A} (m : st (bf_program * K) A) : quiet m -> quiet (on_program m).
Proof.
  intros Hm cg k. unfold on_program. destruct (cgen_program cg) as [p|] eqn:Hp; [|done].
  specialize (Hm p k). destruct (m (p, k)) as [r [p' k']]. cbn in *. destruct Hm as [-> Hm].
  split; [|done]. destruct cg. cbn in *. by rewrite <- Hp.
Qed.

Lemma specE_find R name :
  specE (rep R) (fun i ctx => (exists e, R !! i = Some e /\ e_name e = name) /\ rep R ctx)
    (fun z ctx => (z = - ENOENT /\ name ∉ names R) /\ rep R ctx) 0 (find_cgen (K := K) name).
Proof.
  intros G [ctx k] r s' [HR HX] E. unfold find_cgen in E. rewrite (get_cgen_find R) in E by apply HR.
  injection E as <- <-. destruct (find_name (names R) name) as [i|] eqn:Ef; cbn.
  - split; [|exists G; split; [apply leaks_refl|done]]. split; [|done]. apply find_name_some in Ef.
    unfold names in Ef. apply list_lookup_fmap_Some in Ef as (e & -> & He). by exists e.
  - apply find_name_none in Ef. split; [done|]. exists G. split; [apply leaks_refl|done].
Qed.

(** Unloading a cgen, then freeing it. *)
Lemma unload_free G e cg k l : ready_as e cg -> owns G (own_fds cg ++ l) (fd_open k) ->
  let '(cg', k') := bf_cgen_unload d (cg, k) in owns G l (fd_open (bf_cgen_free d cg' k')).
Proof.
  intros Hr HX. pose proof (step_frame _ _ _ G cg k l (step_unload_cgen d _ _ _) Hr HX) as Hs.
  destruct (bf_cgen_unload d (cg, k)) as [cg' k']. destruct Hs as [_ Hs]. by apply cgen_free_owns.
Qed.

Lemma spec_delete R i e : R !! i = Some e ->
  specE (rep R) (fun _ => rep (remove (e_name e) R)) (fun _ _ => False) 0 (_bf_ctx_delete_cgen (K := K) d i true).
Proof.
  intros Hi G [ctx k] r s' [HR HX] E. destruct (rep_lookup _ _ _ _ HR Hi) as (cg & Hcg & Hr).
  unfold _bf_ctx_delete_cgen in E. rewrite Hcg in E. rewrite (own_ctx_split _ _ _ Hcg) in HX.
  pose proof (unload_free G e cg k _ Hr HX) as Hf. destruct (bf_cgen_unload d (cg, k)) as [cg' k'].
  injection E as <- <-. cbn. destruct HR as [Hn HR]. split.
  - split; [by apply names_filter|]. rewrite <- (lookup_remove R i e) by done. by apply Forall2_delete.
  - exists G. split; [apply leaks_refl|done].
Qed.

Lemma flush_forall front R ctx k G : Forall2 ready_as R ctx -> owns G (own_ctx ctx) (fd_open k) ->
  let '(ctx', k') := _bf_ctx_flush d front ctx k in
  Forall2 ready_as (drop_front front R) ctx' /\ owns G (own_ctx ctx') (fd_open k').
Proof.
  intros HR. revert k G. induction HR as [|e cg R ctx He HR IH]; intros k G HX; cbn [_bf_ctx_flush drop_front List.filter].
  - by split.
  - assert (of_front front cg = bool_decide (e_front e = front)) as ->.
    { unfold of_front. destruct He as (Hf & _). by rewrite Hf. }
    rewrite own_ctx_cons in HX. destruct (bool_decide (e_front e = front)); cbn [negb].
    + pose proof (unload_free G e cg k _ He HX) as Hf. destruct (bf_cgen_unload d (cg, k)) as [cg' k'].
      exact (IH _ G Hf).
    + rewrite (Permutation_app_comm (own_fds cg)) in HX. destruct (owns_rest _ _ _ _ HX) as [Hr Hd].
      specialize (IH k _ (owns_part _ _ _ _ HX)). destruct (_bf_ctx_flush d front ctx k) as [ctx' k'].
      destruct IH as [HR' HX']. split; [by constructor|]. rewrite own_ctx_cons, Permutation_app_comm.
      by apply owns_join.
Qed.

Lemma step_flush R front : step (rep R) (rep (drop_front front R)) (fun '(ctx, k) => _bf_ctx_flush (K := K) d front ctx k).
Proof.
  intros G ctx k [Hn HR] HX. pose proof (flush_forall front R ctx k G HR HX) as Hf.
  destruct (_bf_ctx_flush d front ctx k) as [ctx' k']. destruct Hf as [HR' HX'].
  split; [split; [by apply names_filter|done]|done].
Qed.

(** A new cgen is added, or nothing changes. *)
Lemma spec_add R f c h cg (m : st (bf_cgen * K) unit) : blank f c cg ->
  spec (blank f c) (fun _ => ready f c h) (blank f c) 1 m ->
  specE (rep R) (fun _ ctx => (chain_name c ∉ names R) /\ rep (R ++ [mk_entry f c h]) ctx) (fun _ => rep R) 1 (add_cgen d cg m).
Proof.
  intros Hb Hm G [ctx k] r s' [HR HX] E. unfold add_cgen in E.
  assert (forall cg, blank f c cg -> own_fds cg = []) as Hown.
  { intros cg0 (_ & _ & Hn). unfold own_fds, owner_cgen. by rewrite Hn. }
  destruct (m (cg, k)) as [x [cg' k']] eqn:Em.
  destruct (spec_frame m _ _ _ 1 G cg k (own_ctx ctx) x cg' k' Hm Hb ltac:(by rewrite Hown) Em) as [HQ (G' & Hl & HX')].
  destruct x as [[]|e].
  - assert (cgen_name cg' = chain_name c) as Hname by (by apply (ready_name (mk_entry f c h))).
    unfold _bf_ctx_set_cgen in E. rewrite Hname, (get_cgen_find R) in E by apply HR.
    destruct (find_name (names R) (chain_name c)) as [i|] eqn:Ef.
    + pose proof (unload_free G' (mk_entry f c h) cg' k' _ HQ HX') as Hf. destruct (bf_cgen_unload d (cg', k')) as [cg2 k2].
      injection E as <- <-. cbn. split; [done|]. by exists G'.
    + apply find_name_none in Ef. injection E as <- <-. cbn. split; [split; [done|split]|].
      * apply names_snoc; [apply HR|done].
      * apply Forall2_app; [apply HR|]. by constructor.
      * exists G'. split; [done|]. rewrite own_ctx_app, Permutation_app_comm, own_ctx_cons.
        cbn [own_fds owner_ctx mbind list_bind]. by rewrite app_nil_r.
  - injection E as <- <-. cbn. split; [done|]. exists G'. split; [done|]. by apply cgen_free_owns.
Qed.

Lemma spec_new_cgen R c :
  specE (rep R) (fun cg ctx => (bf_chain_validate c = true /\ blank BF_FRONT_CLI c cg) /\ rep R ctx)
    (fun z ctx => (bf_chain_validate c = false /\ (z = - EINVAL \/ z = - BF_CRASH)) /\ rep R ctx) 0 (new_cgen (K := K) d c).
Proof.
  unfold new_cgen, bf_cgen_new. destruct (bf_chain_validate c).
  - eapply specE_conseq; [apply (specE_ret _ (rep R) (fun _ _ => False))|done| |done|done].
    by intros cg ctx [-> ?].
  - unfold free_refused. destruct (bf_opts_persist d).
    + intros G [ctx k] r s' [HR HX] E.
      pose proof (fresh_pindir (T := bf_ctx) (K := K) d (fun o X => o = ctx /\ X = fd_open k) (ctx, k)) as Hd.
      destruct (bf_ctx_get_pindir_fd d (ctx, k)) as [[fd|e] [o k1]];
        specialize (Hd _ _ (conj eq_refl eq_refl) eq_refl); cbn in Hd; injection E as <- <-; cbn.
      * destruct Hd as (Y & [-> ->] & Hfd & Hn & Ho). split; [auto|]. exists G. split; [apply leaks_refl|].
        rewrite closep_open, Ho, (own_some fd Hfd). cbn [list_to_set].
        replace (({[fd]} ∪ fd_open k) ∖ ({[fd]} ∪ ∅)) with (fd_open k) by set_solver. done.
      * destruct Hd as [-> ->]. split; [auto|]. exists G. split; [apply leaks_refl|done].
    + eapply specE_conseq; [apply (specE_err _ (rep R) (fun _ _ => False))|done|done| |done].
      intros z ctx [-> HR]. auto.
Qed.

(** * Commands *)

Context `{!CounterSys K}.

(** The request takes a represented ruleset to one the specification allows. *)
Definition outcome (request : bf_request) (R : ruleset) (r : res (option bf_response)) (ctx : bf_ctx) : Prop :=
  exists R', rs_step request R r R' /\ rep R' ctx.

Definition handled_by (n : nat) (request : bf_request) (R : ruleset) (m : M (option bf_response)) : Prop :=
  specE (rep R) (fun r => outcome request R (Ok r)) (fun e => outcome request R (Err e)) n m.

Lemma outcome_same request R r ctx : rs_step request R r R -> rep R ctx -> outcome request R r ctx.
Proof. intros Hs HR. by exists R. Qed.

Lemma replace_id R i e : NoDup (names R) -> R !! i = Some e -> replace e R = R.
Proof. intros Hn Hi. rewrite <- (lookup_replace R i e e) by done. by apply list_insert_id. Qed.

Lemma rep_same R i e ctx : R !! i = Some e -> rep (replace e R) ctx -> rep R ctx.
Proof.
  intros Hi HR. pose proof (proj1 HR) as Hn. rewrite names_replace in Hn. by rewrite (replace_id R i e Hn Hi) in HR.
Qed.

Lemma spec_flush_ctx R front (E : Z -> bf_ctx -> Prop) :
  specE (rep R) (fun _ => rep (drop_front front R)) E 0 (bf_ctx_flush (K := K) d front).
Proof.
  intros G [ctx k] r s' [HR HX] Er. pose proof (step_flush R front G ctx k HR HX) as Hs.
  unfold bf_ctx_flush in Er. cbv beta iota in Hs. destruct (_bf_ctx_flush d front ctx k) as [ctx' k']. injection Er as <- <-.
  destruct Hs as [HR' HX']. split; [done|]. exists G. split; [apply leaks_refl|done].
Qed.

(** Reading a cgen. *)
Lemma spec_on_cgen_read {A} (m : st (bf_cgen * K) A) R i e (S : A -> Prop) (E : Z -> bf_ctx -> Prop) : R !! i = Some e ->
  (forall cg k, ready_as e cg -> exists a, fst (m (cg, k)) = Ok a /\ S a) -> quiet m ->
  specE (rep R) (fun a ctx => S a /\ rep R ctx) E 0 (on_cgen i m).
Proof.
  intros Hi Hm Hq G [ctx k] r s' [HR HX] Er. destruct (rep_lookup _ _ _ _ HR Hi) as (cg & Hcg & Hr).
  destruct (Hm cg k Hr) as (a & Ha & HS). specialize (Hq cg k).
  unfold on_cgen in Er. rewrite Hcg in Er. destruct (m (cg, k)) as [x [cg' k']]. cbn in *. destruct Hq as [-> Hq]. subst x.
  injection Er as <- <-. cbn. rewrite list_insert_id by done. rewrite Hq. split; [done|]. exists G. split; [apply leaks_refl|done].
Qed.

Lemma spec_on_cgen_options R i e (E : Z -> bf_ctx -> Prop) : R !! i = Some e ->
  specE (rep R) (fun a ctx => a = e_hook e /\ rep R ctx) E 0 (on_cgen i (link_options (K := K))).
Proof.
  intros Hi. apply (spec_on_cgen_read _ R i e (fun a => a = e_hook e)); [done| |].
  - intros cg k (Hf & Hc & p & Hp & _ & Hl & _). exists (e_hook e). unfold link_options, on_program. by rewrite Hp, <- Hl.
  - unfold link_options. apply quiet_on_program, quiet_bind; [apply quiet_get|]. intros p. apply quiet_ret.
Qed.

Lemma spec_on_cgen_get R i e (E : Z -> bf_ctx -> Prop) : R !! i = Some e ->
  specE (rep R) (fun cg ctx => ready_as e cg /\ rep R ctx) E 0 (on_cgen i (obj_get (K := K))).
Proof.
  intros Hi. apply (spec_on_cgen_read _ R i e); [done| |apply quiet_get].
  intros cg k Hr. by exists cg.
Qed.

(** ** Steps shared by the commands *)

Lemma handled_ret request R R' (E : Z -> bf_ctx -> Prop) : rs_step request R (Ok None) R' ->
  specE (rep R') (fun r => outcome request R (Ok r)) E 0 (mret (None : option bf_response) : M _).
Proof.
  intros Hs. eapply specE_conseq; [apply (specE_ret None (rep R') (fun _ _ => False))|done| |done|done].
  intros a ctx [-> HR]. by exists R'.
Qed.

Lemma handled_find request R name k n : (name ∉ names R -> rs_step request R (Err (- ENOENT)) R) ->
  (forall i en, R !! i = Some en -> e_name en = name -> en ∈ R -> name ∈ names R -> handled_by n request R (k i)) ->
  handled_by n request R (find_cgen name ≫= k).
Proof.
  intros Hn Hk. eapply specE_seq with (n := 0%nat) (n' := n) (Q := fun i ctx => (exists e, R !! i = Some e /\ e_name e = name) /\ rep R ctx).
  - eapply specE_conseq; [apply (specE_find R name)|done|done| |done].
    intros z ctx [[-> Hnot] HR]. apply outcome_same; auto.
  - intros i. apply specE_pure. intros (en & Hi & He). assert (en ∈ R) as Hin by (by eapply list_elem_of_lookup_2).
    apply (Hk i en Hi He Hin). rewrite <- He. by apply list_elem_of_fmap_2.
  - done.
Qed.

Lemma handled_read {A} request R (m : M A) k n (S : A -> Prop) :
  specE (rep R) (fun a ctx => S a /\ rep R ctx) (fun _ _ => False) 0 m ->
  (forall a, S a -> handled_by n request R (k a)) -> handled_by n request R (m ≫= k).
Proof.
  intros Hm Hk. eapply specE_seq with (n := 0%nat) (n' := n) (Q := fun a ctx => S a /\ rep R ctx).
  - eapply specE_conseq; [exact Hm|done|done|done|done].
  - intros a. apply specE_pure, Hk.
  - done.
Qed.

Lemma handled_err {A} request R e (k : A -> M (option bf_response)) n : rs_step request R (Err e) R ->
  handled_by n request R (st_err e ≫= k).
Proof.
  intros Hs G [ctx w] r s' [HR HX] [= <- <-]. split; [by apply outcome_same|].
  exists G. split; [apply leaks_refl|done].
Qed.

Lemma handled_skip {A} request R (a : A) (k : A -> M (option bf_response)) n : handled_by n request R (k a) ->
  handled_by n request R (mret a ≫= k).
Proof. intros Hk G [ctx w] r s' Hp Er. exact (Hk G (ctx, w) r s' Hp Er). Qed.

(** A new cgen, when the chain is valid. *)
Lemma handled_new_cgen request R c k n :
  (bf_chain_validate c = false -> forall e, e = - EINVAL \/ e = - BF_CRASH -> rs_step request R (Err e) R) ->
  (bf_chain_validate c = true -> forall cg, blank BF_FRONT_CLI c cg -> handled_by n request R (k cg)) ->
  handled_by n request R (new_cgen d c ≫= k).
Proof.
  intros He Hk. eapply specE_seq with (n := 0%nat) (n' := n)
    (Q := fun cg ctx => (bf_chain_validate c = true /\ blank BF_FRONT_CLI c cg) /\ rep R ctx).
  - eapply specE_conseq; [apply (spec_new_cgen R c)|done|done| |done].
    intros z ctx [[Hv Hz] HR]. apply outcome_same; auto.
  - intros cg. apply specE_pure. intros [Hv Hb]. exact (Hk Hv cg Hb).
  - done.
Qed.

(** ** The commands *)

Lemma handled_flush request R : request_cmd request = BF_REQ_RULESET_FLUSH ->
  handled_by 0 request R (_bf_cli_ruleset_flush (K := K) d request).
Proof.
  intros Hc. eapply specE_seq with (n := 0%nat) (n' := 0%nat); [apply spec_flush_ctx|intros []|lia].
  by apply handled_ret, rs_flush.
Qed.

Lemma handled_chain_flush request R : request_cmd request = BF_REQ_CHAIN_FLUSH ->
  handled_by 0 request R (_bf_cli_chain_flush (K := K) d request).
Proof.
  intros Hc. unfold _bf_cli_chain_flush, request_pack.
  assert (request_cmd request ∈ [BF_REQ_CHAIN_GET; BF_REQ_CHAIN_PROG_FD; BF_REQ_CHAIN_LOGS_FD; BF_REQ_CHAIN_FLUSH]) as Hin
    by (rewrite Hc; set_solver).
  apply specE_lift_bind. destruct (bf_rpack_new _) as [root|e] eqn:Hroot.
  2: { intros ctx. apply outcome_same, rs_bad_name; [done|]. unfold req_name, req_root. by rewrite Hroot. }
  apply specE_lift_bind. destruct (parse_name root) as [name|e] eqn:Hname.
  2: { intros ctx. apply outcome_same, rs_bad_name; [done|]. unfold req_name, req_root. by rewrite Hroot; cbn. }
  assert (req_name request = Ok name) as Hreq by (unfold req_name, req_root; by rewrite Hroot; cbn).
  apply handled_find; [by eapply rs_unknown|]. intros i en Hi He Hen Hnames.
  eapply specE_seq with (n := 0%nat) (n' := 0%nat) (Q := fun _ => rep (remove (e_name en) R)); [|intros []|lia].
  { eapply specE_conseq; [apply (spec_delete R i en Hi)|done..]. }
  rewrite He. by apply handled_ret, rs_chain_flush.
Qed.

Lemma handled_chain_set request R : request_cmd request = BF_REQ_CHAIN_SET ->
  handled_by 1 request R (_bf_cli_chain_set (K := K) d request).
Proof.
  intros Hc. unfold _bf_cli_chain_set, request_pack.
  apply specE_lift_bind. destruct (bf_rpack_new _) as [root|e] eqn:Hroot.
  2: { intros ctx. apply outcome_same, rs_bad_entry; [done|]. unfold req_entry, req_root. by rewrite Hroot. }
  apply specE_lift_bind. destruct (parse_chain root) as [c|e] eqn:Hchain.
  2: { intros ctx. apply outcome_same, rs_bad_entry; [done|]. unfold req_entry, req_root, parse_entry. rewrite Hroot. cbn. by rewrite Hchain. }
  apply specE_lift_bind. destruct (parse_hookopts root) as [ho|e] eqn:Hho.
  2: { intros ctx. apply outcome_same, rs_bad_entry; [done|]. unfold req_entry, req_root, parse_entry. rewrite Hroot. cbn. rewrite Hchain. cbn. by rewrite Hho. }
  assert (req_entry request = Ok (c, ho)) as Hreq.
  { unfold req_entry, req_root, parse_entry. rewrite Hroot. cbn. rewrite Hchain. cbn. by rewrite Hho. }
  apply handled_new_cgen; [intros; by eapply rs_chain_refused|]. intros Hv cg Hb.
  assert (cgen_name cg = chain_name c) as Hname by (destruct Hb as (_ & Hcg & _); unfold cgen_name; by rewrite Hcg).
  apply (handled_read _ _ _ _ _ (fun ctx => _bf_ctx_get_cgen ctx (cgen_name cg) = find_name (names R) (chain_name c))).
  { intros G [ctx k] r s' [HR HX] [= <- <-]. split; [|exists G; split; [apply leaks_refl|done]].
    split; [|done]. rewrite Hname. apply get_cgen_find, HR. }
  intros ctx Hfind. rewrite Hfind.
  eapply specE_seq with (n := 0%nat) (n' := 1%nat) (Q := fun _ => rep (remove (chain_name c) R)); [|intros []|lia].
  { destruct (find_name (names R) (chain_name c)) as [i|] eqn:Ef.
    - apply find_name_some, list_lookup_fmap_Some in Ef as (en & En & Hi). rewrite En.
      intros G s r s' Hp Er. unfold st_ignore in Er. pose proof (spec_delete R i en Hi G s) as Hd.
      destruct (_bf_ctx_delete_cgen d i true s) as [x s1]. specialize (Hd _ _ Hp eq_refl). injection Er as <- <-.
      destruct x; [done|]. destruct s1. by destruct Hd.
    - apply find_name_none in Ef. rewrite remove_fresh by done.
      eapply specE_conseq; [apply (specE_ret tt (rep R) (fun _ _ => False))|done|by intros a x [_ ?]|done|done]. }
  eapply specE_seq with (n := 1%nat) (n' := 0%nat)
    (Q := fun _ => rep (remove (chain_name c) R ++ [cli_entry (c, ho)])); [|intros []|lia].
  - eapply specE_conseq; [apply (spec_add (remove (chain_name c) R) BF_FRONT_CLI c ho cg _ Hb (spec_set d _ c (request_ns d request) ho))|done| | |done].
    + by intros a x [_ ?].
    + intros e x HR. exists (remove (chain_name c) R). split; [by eapply rs_chain_set_error|done].
  - by eapply handled_ret, rs_chain_set.
Qed.

Lemma handled_chain_load request R : request_cmd request = BF_REQ_CHAIN_LOAD ->
  handled_by 1 request R (_bf_cli_chain_load (K := K) d request).
Proof.
  intros Hc. unfold _bf_cli_chain_load, request_pack.
  assert (request_cmd request ∈ [BF_REQ_CHAIN_LOAD; BF_REQ_CHAIN_UPDATE]) as Hin by (rewrite Hc; set_solver).
  apply specE_lift_bind. destruct (bf_rpack_new _) as [root|e] eqn:Hroot.
  2: { intros ctx. apply outcome_same, rs_bad_chain; [done|]. unfold req_chain, req_root. by rewrite Hroot. }
  apply specE_lift_bind. destruct (parse_chain root) as [c|e] eqn:Hchain.
  2: { intros ctx. apply outcome_same, rs_bad_chain; [done|]. unfold req_chain, req_root. by rewrite Hroot; cbn. }
  assert (req_chain request = Ok c) as Hreq by (unfold req_chain, req_root; by rewrite Hroot; cbn).
  apply (handled_read _ _ _ _ _ (fun ctx => _bf_ctx_get_cgen ctx (chain_name c) = find_name (names R) (chain_name c))).
  { intros G [ctx k] r s' [HR HX] [= <- <-]. split; [|exists G; split; [apply leaks_refl|done]].
    split; [|done]. apply get_cgen_find, HR. }
  intros ctx Hfind. rewrite Hfind. destruct (find_name (names R) (chain_name c)) as [i|] eqn:Ef.
  { apply handled_err, (rs_chain_load_exists _ _ c); [done|done|].
    apply find_name_some in Ef. by eapply list_elem_of_lookup_2. }
  apply find_name_none in Ef. apply handled_skip.
  apply handled_new_cgen; [intros; by eapply rs_chain_load_error|]. intros Hv cg Hb.
  eapply specE_seq with (n := 1%nat) (n' := 0%nat) (Q := fun _ => rep (R ++ [cli_entry (c, None)])); [|intros []|lia].
  - eapply specE_conseq; [apply (spec_add R BF_FRONT_CLI c None cg _ Hb (spec_load_cgen d _ c))|done| | |done].
    + by intros a x [_ ?].
    + intros e x HR. apply outcome_same; [by eapply rs_chain_load_error|done].
  - by eapply handled_ret, rs_chain_load.
Qed.

Lemma handled_chain_attach request R : request_cmd request = BF_REQ_CHAIN_ATTACH ->
  handled_by 0 request R (_bf_cli_chain_attach (K := K) d request).
Proof.
  intros Hc. unfold _bf_cli_chain_attach, request_pack.
  apply specE_lift_bind. destruct (bf_rpack_new _) as [root|e] eqn:Hroot.
  2: { intros ctx. apply outcome_same, rs_bad_attach; [done|]. unfold req_attach, req_root. by rewrite Hroot. }
  apply specE_lift_bind. destruct (parse_name root) as [name|e] eqn:Hname.
  2: { intros ctx. apply outcome_same, rs_bad_attach; [done|]. unfold req_attach, req_root. rewrite Hroot. cbn. by rewrite Hname. }
  apply specE_lift_bind. destruct (parse_attach_hookopts root) as [ho|e] eqn:Hho.
  2: { intros ctx. apply outcome_same, rs_bad_attach; [done|]. unfold req_attach, req_root. rewrite Hroot. cbn. rewrite Hname. cbn. by rewrite Hho. }
  assert (req_attach request = Ok (name, ho)) as Hreq.
  { unfold req_attach, req_root. rewrite Hroot. cbn. rewrite Hname. cbn. by rewrite Hho. }
  apply handled_find; [by eapply rs_unknown_attach|]. intros i en Hi He Hen Hnames. subst name.
  apply (handled_read _ _ _ _ _ _ (spec_on_cgen_options R i en _ Hi)). intros linked Hl.
  destruct linked as [ho'|].
  { apply handled_err. eapply rs_chain_attach_busy; [done|exact Hreq|done|]. rewrite <- Hl. by eexists. }
  apply handled_skip. apply (handled_read _ _ _ _ _ _ (spec_on_cgen_get R i en _ Hi)). intros cg Hr.
  assert (chain_hook (cgen_chain cg) = chain_hook (e_chain en)) as -> by (by destruct Hr as (_ & -> & _)).
  apply specE_lift_bind. destruct (bf_hookopts_validate ho _) as [[]|e] eqn:Hv.
  2: { intros ctx. by eapply outcome_same, rs_chain_attach_error. }
  eapply specE_seq with (n := 0%nat) (n' := 0%nat)
    (Q := fun _ => rep (replace (mk_entry (e_front en) (e_chain en) (Some ho)) R)); [|intros []|lia].
  2: { by eapply handled_ret, rs_chain_attach. }
  set (e' := mk_entry (e_front en) (e_chain en) (Some ho)).
  eapply specE_conseq; [apply (spec_on_cgen (bf_cgen_attach d (request_ns d request) ho) R i en
    (fun _ x => x = e') (fun z x => x = en \/ z = - BF_CRASH /\ x = e') 0 Hi)|done| | |done].
  - unfold ready_as. rewrite <- Hl. eapply specE_conseq; [apply spec_attach_cgen|done| | |done].
    + intros [] cg' Hr'. by exists e'.
    + intros z cg' [Hr'|[-> Hr']]; [exists en|exists e']; (split; [split; [done|auto]|]); [by rewrite <- Hl|done].
  - by intros [] ctx (x & -> & HR).
  - intros z ctx (x & [->|[-> ->]] & HR).
    + apply (rep_same R i en ctx Hi) in HR. by eapply outcome_same; [eapply rs_chain_attach_error|].
    + exists (replace e' R). split; [by eapply rs_chain_attach_crash|done].
Qed.

Lemma handled_chain_update request R : request_cmd request = BF_REQ_CHAIN_UPDATE ->
  handled_by 1 request R (_bf_cli_chain_update (K := K) d request).
Proof.
  intros Hc. unfold _bf_cli_chain_update, request_pack.
  assert (request_cmd request ∈ [BF_REQ_CHAIN_LOAD; BF_REQ_CHAIN_UPDATE]) as Hin by (rewrite Hc; set_solver).
  apply specE_lift_bind. destruct (bf_rpack_new _) as [root|e] eqn:Hroot.
  2: { intros ctx. apply outcome_same, rs_bad_chain; [done|]. unfold req_chain, req_root. by rewrite Hroot. }
  apply specE_lift_bind. destruct (parse_chain root) as [c|e] eqn:Hchain.
  2: { intros ctx. apply outcome_same, rs_bad_chain; [done|]. unfold req_chain, req_root. by rewrite Hroot; cbn. }
  assert (req_chain request = Ok c) as Hreq by (unfold req_chain, req_root; by rewrite Hroot; cbn).
  apply handled_find; [by eapply rs_unknown_update|]. intros i en Hi He Hen Hnames.
  apply (handled_read _ _ _ _ _ _ (spec_on_cgen_options R i en _ Hi)). intros linked Hl.
  destruct linked as [ho|]; [|by eapply handled_err, rs_chain_update_error; [..|left]]. apply handled_skip.
  set (e' := mk_entry (e_front en) c (Some (relinked (chain_hook (e_chain en)) ho))).
  eapply specE_seq with (n := 1%nat) (n' := 0%nat) (Q := fun _ => rep (replace e' R)); [|intros []|lia].
  2: { by eapply handled_ret, rs_chain_update. }
  assert (specE (rep R) (fun _ => rep (replace e' R)) (fun _ => rep R) 1 (on_cgen i (bf_cgen_update (K := K) d c))) as Hu.
  { eapply specE_conseq; [apply (spec_on_cgen (bf_cgen_update d c) R i en (fun _ x => x = e') (fun _ x => x = en) 1 Hi)|done| | |done].
    - unfold ready_as. rewrite <- Hl. eapply specE_conseq; [apply spec_update_cgen|done| | |done].
      + intros [] cg' Hr'. exists e'. split; [split; [by symmetry|done]|done].
      + intros z cg' Hr'. exists en. split; [done|]. by rewrite <- Hl.
    - by intros [] ctx (x & -> & HR).
    - intros z ctx (x & -> & HR). exact (rep_same R i en ctx Hi HR). }
  intros G s r s' Hp Er. unfold update_error in Er. specialize (Hu G s).
  destruct (on_cgen i (bf_cgen_update d c) s) as [x [ctx k]]. specialize (Hu _ _ Hp eq_refl).
  destruct x as [[]|z]; injection Er as <- <-; [exact Hu|].
  destruct Hu as [HR HG]. split; [|exact HG]. eapply outcome_same; [|exact HR].
  eapply rs_chain_update_error; try done. destruct (Z.eqb_spec z (- BF_CRASH)); [by right|by left].
Qed.

(** ** Commands that only read *)

Lemma handled_quiet request R m : quiet m -> (forall r, rs_step request R r R) -> handled_by 0 request R m.
Proof.
  intros Hm Hs G [ctx k] r [ctx' k'] [HR HX] E. specialize (Hm ctx k). rewrite E in Hm. cbn in Hm. destruct Hm as [-> Ho].
  destruct r; cbn; rewrite Ho; (split; [by apply outcome_same|]); exists G; (split; [apply leaks_refl|done]).
Qed.

Lemma quiet_lift {O A} (x : res A) : quiet (K := K) (O := O) (st_lift x).
Proof. done. Qed.

Lemma quiet_counters : quiet (bf_cgen_get_counters (K := K)).
Proof.
  assert (forall idx, quiet (bf_cgen_get_counter (K := K) idx)) as Hc.
  { intros idx. unfold bf_cgen_get_counter. apply quiet_bind; [apply quiet_get|]. intros cg.
    apply quiet_bind; [apply quiet_lift|]. intros i. apply quiet_on_program, quiet_bind; [|by intros z p k].
    unfold bf_program_get_counter. apply quiet_bind; [apply quiet_get|]. intros p. by apply quiet_call. }
  unfold bf_cgen_get_counters. apply quiet_bind; [apply quiet_get|]. intros cg.
  induction (counter_indices _) as [|i l IH]; cbn [get_counters]; [apply quiet_ret|].
  apply quiet_bind; [apply Hc|]. intros c. apply quiet_bind; [exact IH|]. intros cs. apply quiet_ret.
Qed.

Lemma quiet_options : quiet (link_options (K := K)).
Proof. apply quiet_on_program, quiet_bind; [apply quiet_get|]. intros p. apply quiet_ret. Qed.

Lemma quiet_reading {O A} cg (m : st (bf_cgen * K) A) : quiet m -> quiet (O := O) (reading cg m).
Proof.
  intros Hm o k. unfold reading, on_part. specialize (Hm cg k). destruct (m (cg, k)) as [r [cg' k']]. by destruct Hm.
Qed.

Lemma handled_ruleset_get request R : request_cmd request = BF_REQ_RULESET_GET ->
  handled_by 0 request R (_bf_cli_ruleset_get (K := K) request).
Proof.
  intros Hc. apply handled_quiet; [|by intros; apply rs_get]. unfold _bf_cli_ruleset_get.
  apply quiet_bind; [apply quiet_get|]. intros ctx. apply quiet_bind.
  - induction (_bf_ctx_get_cgens_for_front ctx BF_FRONT_CLI) as [|cg l IH]; cbn [collect_cgens]; [apply quiet_ret|].
    apply quiet_bind; [apply quiet_reading, quiet_options|]. intros ho.
    apply quiet_bind; [apply quiet_reading, quiet_counters|]. intros cs.
    apply quiet_bind; [exact IH|]. intros rest. apply quiet_ret.
  - intros parts. apply quiet_bind; [apply quiet_lift|]. intros resp. apply quiet_ret.
Qed.

Abbreviation read_commands := [BF_REQ_CHAIN_GET; BF_REQ_CHAIN_PROG_FD; BF_REQ_CHAIN_LOGS_FD].

(** A command on the chain of a name. *)
Lemma handled_named request R (k : nat -> M (option bf_response)) : request_cmd request ∈ read_commands ->
  (forall i, quiet (k i)) ->
  handled_by 0 request R (root ← request_pack request; name ← st_lift (parse_name root); i ← find_cgen name; k i).
Proof.
  intros Hc Hk. unfold request_pack.
  assert (request_cmd request ∈ [BF_REQ_CHAIN_GET; BF_REQ_CHAIN_PROG_FD; BF_REQ_CHAIN_LOGS_FD; BF_REQ_CHAIN_FLUSH]) as Hin
    by set_solver.
  apply specE_lift_bind. destruct (bf_rpack_new _) as [root|e] eqn:Hroot.
  2: { intros ctx. apply outcome_same, rs_bad_name; [done|]. unfold req_name, req_root. by rewrite Hroot. }
  apply specE_lift_bind. destruct (parse_name root) as [name|e] eqn:Hname.
  2: { intros ctx. apply outcome_same, rs_bad_name; [done|]. unfold req_name, req_root. by rewrite Hroot; cbn. }
  assert (req_name request = Ok name) as Hreq by (unfold req_name, req_root; by rewrite Hroot; cbn).
  apply handled_find; [by eapply rs_unknown|]. intros i en Hi He Hen Hnames.
  apply handled_quiet; [apply Hk|]. intros r. by eapply rs_read.
Qed.

Lemma handled_chain_get request R : request_cmd request = BF_REQ_CHAIN_GET ->
  handled_by 0 request R (_bf_cli_chain_get (K := K) request).
Proof.
  intros Hc. apply handled_named; [rewrite Hc; set_solver|]. intros i.
  apply quiet_bind; [apply quiet_on_cgen, quiet_counters|]. intros cs.
  apply quiet_bind; [apply quiet_on_cgen, quiet_get|]. intros cg.
  apply quiet_bind; [apply quiet_on_cgen, quiet_options|]. intros ho.
  apply quiet_bind; [apply quiet_lift|]. intros resp. apply quiet_ret.
Qed.

Lemma quiet_send_fd {O} sock fd : quiet (K := K) (O := O) (bf_send_fd sock fd).
Proof. apply quiet_bind; [by apply quiet_call|]. intros z. apply quiet_ret. Qed.

Lemma handled_prog_fd request R : request_cmd request = BF_REQ_CHAIN_PROG_FD ->
  handled_by 0 request R (_bf_cli_chain_prog_fd (K := K) request).
Proof.
  intros Hc. apply handled_named; [rewrite Hc; set_solver|]. intros i.
  apply quiet_bind; [apply quiet_on_cgen, quiet_get|]. intros cg. apply quiet_bind; [|intros []; apply quiet_ret].
  repeat case_match; apply quiet_send_fd || apply quiet_err.
Qed.

Lemma handled_logs_fd request R : request_cmd request = BF_REQ_CHAIN_LOGS_FD ->
  handled_by 0 request R (_bf_cli_chain_logs_fd (K := K) request).
Proof.
  intros Hc. apply handled_named; [rewrite Hc; set_solver|]. intros i.
  apply quiet_bind; [apply quiet_on_cgen, quiet_get|]. intros cg. apply quiet_bind; [|intros []; apply quiet_ret].
  repeat case_match; apply quiet_send_fd || apply quiet_err.
Qed.

(** ** Replacing the ruleset *)

Lemma drop_cli_entries R l : drop_front BF_FRONT_CLI (drop_front BF_FRONT_CLI R ++ (cli_entry <$> l)) = drop_front BF_FRONT_CLI R.
Proof.
  unfold drop_front. rewrite List.filter_app. rewrite <- (app_nil_r (List.filter _ R)) at 2. f_equal.
  - induction R as [|e R IH]; [done|]. cbn. destruct (negb _) eqn:E; cbn; [|exact IH]. by rewrite E, IH.
  - by induction l.
Qed.

Lemma spec_ruleset_entry ns R0 l node :
  specE (rep (R0 ++ (cli_entry <$> l)))
    (fun _ ctx => exists x, parse_entry node = Ok x /\ bf_chain_validate (fst x) = true /\
                            rep (R0 ++ (cli_entry <$> (l ++ [x]))) ctx)
    (fun _ ctx => exists l', rep (R0 ++ (cli_entry <$> l')) ctx) 1 (ruleset_entry (K := K) d ns node).
Proof.
  unfold ruleset_entry. apply specE_lift_bind. destruct (parse_chain node) as [c|e] eqn:Hchain; [|eauto].
  apply specE_lift_bind. destruct (parse_hookopts node) as [ho|e] eqn:Hho; [|eauto].
  eapply specE_seq with (n := 0%nat) (n' := 1%nat)
    (Q := fun cg ctx => (bf_chain_validate c = true /\ blank BF_FRONT_CLI c cg) /\ rep (R0 ++ (cli_entry <$> l)) ctx).
  - eapply specE_conseq; [apply (spec_new_cgen (R0 ++ (cli_entry <$> l)) c)|done|done| |done]. intros z ctx [_ HR]. eauto.
  - intros cg. apply specE_pure. intros [Hv Hb].
    eapply specE_conseq; [apply (spec_add (R0 ++ (cli_entry <$> l)) BF_FRONT_CLI c ho cg _ Hb (spec_set d _ c ns ho))|done| | |done].
    + intros [] ctx [_ HR]. exists (c, ho). split_and!; [|done|].
      * unfold parse_entry. rewrite Hchain. cbn. by rewrite Hho.
      * rewrite fmap_app, app_assoc. exact HR.
    + intros z ctx HR. by exists l.
  - lia.
Qed.

Lemma spec_ruleset_entries ns R0 nodes l :
  specE (rep (R0 ++ (cli_entry <$> l)))
    (fun _ ctx => exists xs, rpack_each parse_entry nodes = Ok xs /\ Forall (fun x => bf_chain_validate (fst x) = true) xs /\
                             rep (R0 ++ (cli_entry <$> (l ++ xs))) ctx)
    (fun _ ctx => exists l', rep (R0 ++ (cli_entry <$> l')) ctx) (length nodes) (st_iter (ruleset_entry (K := K) d ns) nodes).
Proof.
  revert l. induction nodes as [|node nodes IH]; intros l; cbn [st_iter length].
  - eapply specE_conseq; [apply (specE_ret tt _ (fun _ _ => False))|intros ctx Hp; exact Hp| |done|done].
    intros [] ctx [_ HR]. exists []. by rewrite app_nil_r.
  - eapply specE_seq with (n := 1%nat) (n' := length nodes); [apply spec_ruleset_entry|intros []|lia].
    apply specE_ex. intros x. apply specE_pure. intros Hx. apply specE_pure. intros Hv.
    eapply specE_conseq; [apply (IH (l ++ [x]))|done| |done|done].
    intros [] ctx (xs & Hxs & Hvs & HR). exists (x :: xs). split_and!.
    + cbn. by rewrite Hx; cbn; rewrite Hxs.
    + by constructor.
    + by rewrite <- app_assoc in HR.
Qed.

Lemma handled_ruleset_set request R : request_cmd request = BF_REQ_RULESET_SET ->
  handled_by (programs_loaded request) request R (_bf_cli_ruleset_set (K := K) d request).
Proof.
  intros Hc. unfold _bf_cli_ruleset_set, request_pack, programs_loaded. rewrite Hc.
  set (R0 := drop_front BF_FRONT_CLI R).
  assert (forall e ctx, rep R0 ctx -> outcome request R (Err e) ctx) as Herr.
  { intros e ctx HR. exists R0. split; [by apply rs_set_error|done]. }
  eapply specE_seq with (n := 0%nat); [apply spec_flush_ctx|intros []|apply Nat.le_refl].
  unfold req_nodes, req_root. destruct (bf_rpack_new _) as [root|e] eqn:Hroot.
  2: { change (st_fatal _) with (st_lift (S := bf_ctx * K) (A := mnode) (Err (- BF_CRASH))). apply specE_lift_bind. auto. }
  change (st_fatal _) with (st_lift (S := bf_ctx * K) (Ok root)). apply specE_lift_bind.
  apply specE_lift_bind. cbn [rbind]. destruct (bf_rpack_kv_array root "ruleset") as [nodes|e] eqn:Hnodes; [|auto].
  eapply specE_seq with (n := length nodes) (n' := 0%nat)
    (Q := fun _ ctx => exists xs, req_ruleset request = Ok xs /\ Forall (fun x => bf_chain_validate (fst x) = true) xs /\
                                  rep (R0 ++ (cli_entry <$> xs)) ctx); [| |lia].
  - eapply specE_onerr; [eapply specE_conseq; [apply (spec_ruleset_entries _ R0 nodes [])|by rewrite app_nil_r| |done|done]|].
    + intros [] ctx (xs & Hxs & Hv & HR). exists xs. split_and!; [|done|done].
      unfold req_ruleset, req_nodes, req_root. rewrite Hroot. cbn. by rewrite Hnodes.
    + intros e G ctx k [l HR] HX. pose proof (step_flush _ BF_FRONT_CLI G ctx k HR HX) as Hs. cbv beta iota in Hs |- *.
      destruct (_bf_ctx_flush d BF_FRONT_CLI ctx k) as [ctx' k']. destruct Hs as [HR' HX'].
      unfold R0 in HR'. rewrite drop_cli_entries in HR'. auto.
  - intros []. apply specE_ex. intros xs. apply specE_pure. intros Hxs. apply specE_pure. intros Hv.
    intros G [ctx k] r s' [HR HX] E.
    apply (handled_ret request R _ _ (rs_set request R xs Hc Hxs Hv (proj1 HR)) G (ctx, k) r s' (conj HR HX) E).
Qed.

Lemma handled_other request R :
  request_cmd request ∉ [BF_REQ_RULESET_FLUSH; BF_REQ_RULESET_GET; BF_REQ_RULESET_SET; BF_REQ_CHAIN_SET;
    BF_REQ_CHAIN_GET; BF_REQ_CHAIN_PROG_FD; BF_REQ_CHAIN_LOGS_FD; BF_REQ_CHAIN_LOAD; BF_REQ_CHAIN_ATTACH;
    BF_REQ_CHAIN_UPDATE; BF_REQ_CHAIN_FLUSH] ->
  handled_by 0 request R (st_err (- EINVAL)).
Proof.
  intros Hc G [ctx k] r s' [HR HX] [= <- <-]. split; [by apply outcome_same; [apply rs_bad_command|]|].
  exists G. split; [apply leaks_refl|done].
Qed.

(** Every command. *)
Lemma handled_command request R : handled_by (programs_loaded request) request R (cli_command (K := K) d request).
Proof.
  unfold cli_command. destruct (decide (request_cmd request = BF_REQ_RULESET_SET)) as [Hs|Hs].
  { rewrite Hs. by apply handled_ruleset_set. }
  unfold programs_loaded. destruct (request_cmd request) eqn:Hc.
  - by apply handled_flush.
  - by apply handled_ruleset_get.
  - done.
  - by apply handled_chain_set.
  - by apply handled_chain_get.
  - by apply handled_prog_fd.
  - by apply handled_logs_fd.
  - by apply handled_chain_load.
  - by apply handled_chain_attach.
  - by apply handled_chain_update.
  - by apply handled_chain_flush.
  - by apply handled_other; rewrite Hc; set_solver.
  - by apply handled_other; rewrite Hc; set_solver.
  - by apply handled_other; rewrite Hc; set_solver.
  - by apply handled_other; rewrite Hc; set_solver.
Qed.
End Context.
