(* ===== verification/DaemonSpec.v ===== *)
(** What the daemon promises: the ruleset and the descriptors along the
    connections it serves.

    [served qs R R'] is the reachability of the specification: [R'] is [R] after
    the requests [qs].  [requests] are those that the daemon hands over to the
    command line front, among the messages it receives.  [handles qs m] says
    that an operation of the daemon, to which the requests [qs] were given, keeps
    a context that represents the ruleset these requests and those it receives
    lead to, and the account of its descriptors.

    What the kernel remembers of the messages is an interface, [Journal]: the
    record of [TrafficSys] implements it, and so does a kernel that remembers
    nothing, for the properties that hold whatever was received. *)

From S2P Require Import Prelude Bytes Bpf Helper Hook Hookopts Matcher BfSet Sys Io Map Rule.
From S2P Require Import Chain Printer Pack Serial Program Block BlockExec Fixups Flavors Load Fds Generate Frame.
From S2P Require Import Account Cgen CgenSpec Request Ctx Save Cli Ipt Ruleset CliSpec Daemon Traffic.

(** * Reachable rulesets *)

Inductive served `{Mpack} : list bf_request -> ruleset -> ruleset -> Prop :=
| served_none R : served [] R R
| served_request request r qs R R' R'' :
    rs_step request R r R' -> served qs R' R'' -> served (request :: qs) R R''.

(** The programs they load, at most. *)
Definition programs_of `{Mpack} (qs : list bf_request) : nat := list_sum (programs_loaded <$> qs).

Lemma served_one `{Mpack} request r R R' : rs_step request R r R' -> served [request] R R'.
Proof. intros Hs. eapply served_request; [exact Hs|constructor]. Qed.

Lemma served_app `{Mpack} qs qs' R R' R'' : served qs R R' -> served qs' R' R'' -> served (qs ++ qs') R R''.
Proof.
  induction 1 as [|request r qs R R1 R2 Hs _ IH]; [done|]. intros Hm. cbn [app].
  eapply served_request; [exact Hs|auto].
Qed.

Lemma programs_app `{Mpack} qs qs' : programs_of (qs ++ qs') = (programs_of qs + programs_of qs')%nat.
Proof. unfold programs_of. by rewrite fmap_app, list_sum_app. Qed.

(** A request is its command and its data. *)
Lemma rs_step_same `{Mpack} q q' R r R' : request_cmd q = request_cmd q' -> bf_request_data q = bf_request_data q' ->
  rs_step q R r R' -> rs_step q' R r R'.
Proof.
  intros Hc Hd. assert (req_root q = req_root q') as Hr by (unfold req_root; by rewrite Hd).
  assert (req_entry q = req_entry q' /\ req_chain q = req_chain q' /\ req_name q = req_name q' /\ req_attach q = req_attach q' /\
    req_nodes q = req_nodes q') as (H1 & H2 & H3 & H4 & H5).
  { unfold req_entry, req_chain, req_name, req_attach, req_nodes. by rewrite Hr. }
  assert (req_ruleset q = req_ruleset q') as H6 by (unfold req_ruleset; by rewrite H5).
  destruct 1;
    rewrite ?Hc, ?H1, ?H2, ?H3, ?H4, ?H6 in *;
    [ eapply rs_flush
    | eapply rs_set
    | eapply rs_set_error
    | eapply rs_chain_set
    | eapply rs_chain_set_error
    | eapply rs_chain_refused
    | eapply rs_chain_load
    | eapply rs_chain_load_exists
    | eapply rs_chain_load_error
    | eapply rs_chain_attach
    | eapply rs_chain_attach_busy
    | eapply rs_chain_attach_error
    | eapply rs_chain_attach_crash
    | eapply rs_chain_update
    | eapply rs_chain_update_error
    | eapply rs_chain_flush
    | eapply rs_unknown
    | eapply rs_unknown_attach
    | eapply rs_unknown_update
    | eapply rs_get
    | eapply rs_read
    | eapply rs_bad_entry
    | eapply rs_bad_chain
    | eapply rs_bad_attach
    | eapply rs_bad_name
    | eapply rs_bad_command ]; eassumption.
Qed.

Lemma programs_loaded_same `{Mpack} q q' : request_cmd q = request_cmd q' -> bf_request_data q = bf_request_data q' ->
  programs_loaded q = programs_loaded q'.
Proof. intros Hc Hd. unfold programs_loaded, req_nodes, req_root. by rewrite Hc, Hd. Qed.

(** * Requests that are received *)

Section Requests.
Context (opts : bf_options).

(** What the dispatch of the daemon lets through to the command line front. *)
Definition dispatches (q : bf_request) : bool :=
  bool_decide (bf_request_front q = BF_FRONT_CLI) && bf_opts_is_front_enabled opts BF_FRONT_CLI && cmd_known (request_cmd q).

(** The request that messages carry. *)
Definition dispatched (msgs : list (list Z)) : list bf_request :=
  match bf_recv_request msgs with
  | Ok (q, _) => if dispatches q then [q] else []
  | Err _ => []
  end.

Definition requests (l : list message) : list bf_request :=
  l ≫= (fun m => match m with MsgIn _ msgs => dispatched msgs | _ => [] end).
End Requests.

(** [moved qs k k']: between [k] and [k'], the requests [qs] were received. *)
Class Journal (K : Type) `{Sys K} `{!PeerSys K} `{!RecordSys K} (opts : bf_options) : Type := {
  moved : list bf_request -> K -> K -> Prop;
  moved_same k k' : traffic k' = traffic k -> moved [] k k';
  moved_app qs qs' k k' k'' : moved qs k k' -> moved qs' k' k'' -> moved (qs ++ qs') k k'';
  moved_send fd msg k : moved [] k (snd (sys_call (SysSend fd msg) k));
  moved_send_fd sock_fd fd k : moved [] k (snd (sys_call (SysSendFd sock_fd fd) k));
  moved_recv fd k : moved (dispatched opts (sys_received fd k)) k (snd (sys_call (SysRecv fd) k))
}.

(** The record of the messages. *)
Definition traffic_journal (K : Type) `{TrafficSys K} (opts : bf_options) : Journal K opts.
Proof.
  refine {| moved := fun qs k k' => exists l, traffic k' = traffic k ++ l /\ requests opts l = qs |}.
  - intros k k' Ht. exists []. by rewrite app_nil_r.
  - intros qs qs' k k' k'' (l & Hl & <-) (l' & Hl' & <-). exists (l ++ l'). unfold requests.
    by rewrite Hl', Hl, app_assoc, bind_app.
  - intros fd msg k. rewrite traffic_send. cbn zeta. eexists. split; [done|]. by case_match.
  - intros sock_fd fd k. rewrite traffic_send_fd. eexists. split; [done|]. by case_match.
  - intros fd k. rewrite traffic_recv. eexists. split; [done|]. cbn. apply app_nil_r.
Defined.

(** No record. *)
Definition no_record (K : Type) `{Sys K} : RecordSys K := {| traffic := fun _ => []; traffic_same := fun _ _ _ => eq_refl |}.

Definition no_journal (K : Type) `{Sys K} `{!PeerSys K} `{!RecordSys K} (opts : bf_options) : Journal K opts.
Proof. by refine {| moved := fun _ _ _ => True |}. Defined.

Section Spec.
Context `{CgenEnv} `{Mpack} {K : Type} `{FdSys K} `{!CounterSys K} `{!FileSys K} `{!PeerSys K} `{!RecordSys K}.
Context (opts : bf_options) `{!Journal K opts}.

Definition handles {A} (given : list bf_request) (m : st (bf_ctx * K) A) : Prop :=
  forall R G ctx k r ctx' k', rep R ctx -> owns G (own_fds (O := bf_ctx) ctx) (fd_open k) ->
    m (ctx, k) = (r, (ctx', k')) ->
    exists qs R' G', moved qs k k' /\ served (given ++ qs) R R' /\ rep R' ctx' /\ leaks (programs_of (given ++ qs)) G G' /\
      owns G' (own_fds (O := bf_ctx) ctx') (fd_open k').

Abbreviation serves m := (handles [] m).

(** Nothing is received. *)
Definition idle {O A} (m : st (O * K) A) : Prop := forall o k, moved [] k (snd (snd (m (o, k)))).

Lemma idle_calm {O A} (m : st (O * K) A) : calm m -> idle m.
Proof. intros Hm o k. apply moved_same, Hm. Qed.

Lemma idle_bind {O A B} (m : st (O * K) A) (k : A -> st (O * K) B) : idle m -> (forall a, idle (k a)) -> idle (m ≫= k).
Proof.
  intros Hm Hk o w. specialize (Hm o w). unfold mbind, st_bind.
  destruct (m (o, w)) as [[a|e] [o1 w1]]; cbn in *; [|done]. exact (moved_app _ _ _ _ _ Hm (Hk a o1 w1)).
Qed.

Lemma nothing_served R : served [] R R /\ forall G, leaks (programs_of []) G G.
Proof. split; [constructor|]. intros G. apply leaks_refl. Qed.

Lemma serves_pure {A} (f : bf_ctx * K -> res A) : serves (fun s => (f s, s)).
Proof.
  intros R G ctx k r ctx' k' HR HX [= _ <- <-]. exists [], R, G. destruct (nothing_served R). split_and!; auto. by apply moved_same.
Qed.

Lemma serves_ret {A} (a : A) : serves (mret a).
Proof. exact (serves_pure (fun _ => Ok a)). Qed.

Lemma handles_bind {A B} given (m : st (bf_ctx * K) A) (k : A -> st (bf_ctx * K) B) :
  handles given m -> (forall a, serves (k a)) -> handles given (m ≫= k).
Proof.
  intros Hm Hk R G ctx w r ctx' w' HR HX. unfold mbind, st_bind. destruct (m (ctx, w)) as [[a|e] [ctx1 w1]] eqn:E1.
  - destruct (Hm R G _ _ _ _ _ HR HX E1) as (qs & R1 & G1 & Ht1 & Hs1 & HR1 & HL1 & HX1). intros E2.
    destruct (Hk a R1 G1 _ _ _ _ _ HR1 HX1 E2) as (qs2 & R2 & G2 & Ht2 & Hs2 & HR2 & HL2 & HX2).
    exists (qs ++ qs2), R2, G2. rewrite app_assoc, programs_app.
    split_and!; [by eapply moved_app|by eapply served_app|done|by eapply leaks_trans|done].
  - intros [= <- <- <-]. exact (Hm R G _ _ _ _ _ HR HX E1).
Qed.

Lemma serves_quiet {A} (m : st (bf_ctx * K) A) : quiet m -> idle m -> serves m.
Proof.
  intros Hq Hi R G ctx k r ctx' k' HR HX E. specialize (Hq ctx k). specialize (Hi ctx k). rewrite E in Hq, Hi.
  destruct Hq as [Hc Ho]. cbn in Hc, Ho, Hi. subst ctx'. exists [], R, G. rewrite Ho. destruct (nothing_served R). by split_and!.
Qed.

(** ** Scopes *)

(** New descriptors [l], closed when the scope ends. *)
Lemma handles_closing {A} given (m : st (bf_ctx * K) A) (l : list Z) (close : K -> K) : handles given m ->
  (forall k, fd_open (close k) = fd_open k ∖ list_to_set l) -> (forall k, traffic (close k) = traffic k) ->
  forall R G ctx k r ctx' k', rep R ctx -> owns G (own_fds (O := bf_ctx) ctx ++ l) (fd_open k) ->
    m (ctx, k) = (r, (ctx', k')) ->
    exists qs R' G', moved qs k (close k') /\ served (given ++ qs) R R' /\ rep R' ctx' /\ leaks (programs_of (given ++ qs)) G G' /\
      owns G' (own_fds (O := bf_ctx) ctx') (fd_open (close k')).
Proof.
  intros Hm Hclose Ht R G ctx k r ctx' k' HR HX E. destruct (owns_rest _ _ _ _ HX) as [Hl Hd].
  destruct (Hm R _ _ _ _ _ _ HR (owns_part _ _ _ _ HX) E) as (qs & R' & G1 & Hv & Hs & HR' & HL & HX1).
  destruct (owns_back _ _ _ _ _ _ Hl Hd HL HX1) as [HL' HX2].
  exists qs, R', (G1 ∖ list_to_set l). split_and!; [|done|done|done|].
  - rewrite <- (app_nil_r qs). eapply moved_app; [exact Hv|]. apply moved_same, Ht.
  - rewrite Hclose. apply owns_drop. by rewrite Permutation_app_comm.
Qed.

Lemma owns_new G l X fd : owns G l X -> fd ∉ X -> owns G (l ++ [fd]) ({[fd]} ∪ X).
Proof.
  intros (-> & Hn & Hd) Hfd. unfold owns. rewrite list_to_set_app_L. cbn [list_to_set].
  split_and!; [set_solver| |set_solver]. apply NoDup_app. split_and!; [done| |apply NoDup_singleton].
  intros x Hx. set_solver.
Qed.

(** What came before [m] is calm. *)
Lemma moved_first qs (k k1 k2 : K) : traffic k1 = traffic k -> moved qs k1 k2 -> moved qs k k2.
Proof. intros Ht Hm. exact (moved_app [] qs _ _ _ (moved_same _ _ Ht) Hm). Qed.

Lemma serves_scope {A} (dir : st (bf_ctx * K) Z) (m : Z -> st (bf_ctx * K) A) : fresh_fd dir -> calm dir ->
  (forall fd, serves (m fd)) -> serves (with_dir dir m).
Proof.
  intros Hdir Hcalm Hm R G ctx k r ctx' k' HR HX. unfold with_dir. specialize (Hcalm ctx k).
  pose proof (Hdir (fun o X => o = ctx /\ X = fd_open k) (ctx, k)) as Hd.
  destruct (dir (ctx, k)) as [[fd|e] [ctx1 k1]]; specialize (Hd _ _ (conj eq_refl eq_refl) eq_refl); cbn in Hd, Hcalm.
  - destruct Hd as (Y & [-> ->] & Hfd & Hn & HX1). pose proof (owns_new _ _ _ _ HX Hn) as HX2. rewrite <- HX1 in HX2.
    destruct (m fd (ctx, k1)) as [x [ctx2 k2]] eqn:Em. intros [= <- <- <-].
    apply (handles_closing [] (m fd) [fd] (fun k => snd (closep fd k)) (Hm fd)) with (G := G) (R := R) in Em; [| | |done|done].
    + destruct Em as (qs & R' & G' & Hv & Hrest). exists qs, R', G'. split; [by eapply moved_first|exact Hrest].
    + intros k3. by rewrite closep_open, (own_some fd Hfd).
    + intros k3. apply still_closep.
  - destruct Hd as [-> HX1]. intros [= <- <- <-]. exists [], R, G. destruct (nothing_served R).
    rewrite HX1. split_and!; auto. by apply moved_same.
Qed.

(** Opening the namespaces of a process opens two descriptors, or none. *)
Lemma fresh_ns_info {O} name dir (o : O) (k : K) r o' k' : _bf_ns_info_init name dir (o, k) = (r, (o', k')) ->
  o' = o /\ match r with
            | Ok i => 0 <= ns_fd i /\ (ns_fd i ∉ fd_open k) /\ fd_open k' = {[ns_fd i]} ∪ fd_open k
            | Err _ => fd_open k' = fd_open k
            end.
Proof.
  unfold _bf_ns_info_init.
  pose proof (fresh_open (O := O) (K := K) (SysOpenFileAt dir name) eq_refl (fun o1 X => o1 = o /\ X = fd_open k) (o, k)) as Hd.
  destruct (bf_bpf (SysOpenFileAt dir name) (o, k)) as [[fd|e] [o1 k1]]; specialize (Hd _ _ (conj eq_refl eq_refl) eq_refl); cbn in Hd.
  - destruct Hd as (Y & [-> ->] & Hfd & Hn & HX). pose proof (call_same (SysFstat fd) k1 eq_refl ltac:(done)) as Hs.
    destruct (sys_call (SysFstat fd) k1) as [z k2]. cbn [snd] in Hs. destruct (z =? 0); intros [= <- <- <-].
    + split; [done|]. cbn [ns_fd]. by rewrite Hs.
    + split; [done|]. rewrite closep_open, (own_some fd Hfd), Hs, HX. set_solver.
  - destruct Hd as [-> HX]. by intros [= <- <- <-].
Qed.

Lemma ns_clean_open ns (k : K) : fd_open (bf_ns_clean ns k) =
  fd_open k ∖ list_to_set (own (ns_fd (ns_net ns)) ++ own (ns_fd (ns_mnt ns))).
Proof. unfold bf_ns_clean. rewrite !closep_open, list_to_set_app_L. set_solver. Qed.

Lemma ns_init_open {O} path (o : O) (k : K) r o' k' : bf_ns_init path (o, k) = (r, (o', k')) ->
  o' = o /\ match r with
            | Ok ns => exists a b, ns_fd (ns_net ns) = a /\ ns_fd (ns_mnt ns) = b /\ 0 <= a /\ 0 <= b /\ a <> b /\
                         (a ∉ fd_open k) /\ (b ∉ fd_open k) /\ fd_open k' = {[a; b]} ∪ fd_open k
            | Err _ => fd_open k' = fd_open k
            end.
Proof.
  unfold bf_ns_init, with_dir, bf_opendir.
  pose proof (fresh_open (O := O) (K := K) (SysOpenDir path) eq_refl (fun o1 X => o1 = o /\ X = fd_open k) (o, k)) as Hd.
  destruct (bf_bpf (SysOpenDir path) (o, k)) as [[fd|e] [o1 k1]]; specialize (Hd _ _ (conj eq_refl eq_refl) eq_refl); cbn in Hd;
    [|destruct Hd as [-> HX]; by intros [= <- <- <-]].
  destruct Hd as (Y & [-> ->] & Hfd & Hn & HX).
  destruct (_bf_ns_info_init "net" fd (o, k1)) as [[net|e] [o2 k2]] eqn:E2; apply fresh_ns_info in E2 as [-> Hz2];
    [|intros [= <- <- <-]; split; [done|]; rewrite closep_open, (own_some fd Hfd), Hz2, HX; set_solver].
  destruct Hz2 as (Ha & Hna & Hz2).
  destruct (_bf_ns_info_init "mnt" fd (o, k2)) as [[mnt|e] [o3 k3]] eqn:E3; apply fresh_ns_info in E3 as [-> Hz3].
  - destruct Hz3 as (Hb & Hnb & Hz3). intros [= <- <- <-]. split; [done|]. exists (ns_fd net), (ns_fd mnt). cbn [ns_net ns_mnt].
    rewrite closep_open, (own_some fd Hfd), Hz3, Hz2, HX. split_and!; set_solver.
  - intros [= <- <- <-]. split; [done|].
    rewrite closep_open, (own_some fd Hfd), ns_clean_open, Hz3, Hz2, HX. cbn [ns_net ns_mnt ns_fd bf_ns_info_default].
    rewrite (own_some _ Ha), own_none. set_solver.
Qed.

Lemma serves_with_ns {A} path (m : bf_ns -> st (bf_ctx * K) A) : (forall ns, serves (m ns)) ->
  serves (with_ns (bf_ns_init path) m).
Proof.
  intros Hm R G ctx k r ctx' k' HR HX. unfold with_ns. pose proof (calm_ns_init path ctx k) as Hcalm.
  destruct (bf_ns_init path (ctx, k)) as [[ns|e] [ctx1 k1]] eqn:E1; apply ns_init_open in E1 as [-> Hz1]; cbn in Hcalm.
  - destruct Hz1 as (a & b & Ea & Eb & Ha & Hb & Hab & Hna & Hnb & Hz1).
    destruct (m ns (ctx, k1)) as [x [ctx2 k2]] eqn:Em. intros [= <- <- <-].
    apply (handles_closing [] (m ns) [b; a] (bf_ns_clean ns) (Hm ns)) with (G := G) (R := R) in Em; [| | |done|].
    + destruct Em as (qs & R' & G' & Hv & Hrest). exists qs, R', G'. split; [by eapply moved_first|exact Hrest].
    + intros k3. rewrite ns_clean_open, Ea, Eb, (own_some a Ha), (own_some b Hb). set_solver.
    + intros k3. apply traffic_ns_clean.
    + pose proof (owns_new _ _ _ a (owns_new _ _ _ _ HX Hnb) ltac:(set_solver)) as HX2.
      rewrite <- app_assoc in HX2. cbn [app] in HX2. rewrite Hz1. by replace ({[a; b]} ∪ fd_open k) with ({[a]} ∪ ({[b]} ∪ fd_open k)) by set_solver.
  - intros [= <- <- <-]. exists [], R, G. destruct (nothing_served R). rewrite Hz1. split_and!; auto. by apply moved_same.
Qed.

(** ** The context on disk *)

Lemma serves_write_file path data : serves (bf_write_file path data).
Proof.
  apply serves_scope; [by apply fresh_open|by apply calm_call|]. intros fd.
  apply handles_bind; [apply serves_quiet; [by apply quiet_call|by apply idle_calm, calm_call]|].
  intros z. case_match; apply (serves_pure (fun _ => _)).
Qed.

Lemma quiet_unlink {O} path : quiet (O := O) (unlink (K := K) path).
Proof. intros o k. cbn. split; [done|]. by apply call_same. Qed.

Lemma serves_unlink path : serves (unlink path).
Proof. apply serves_quiet; [apply quiet_unlink|apply idle_calm, calm_unlink]. Qed.

Lemma serves_save path : serves (_bf_save opts path).
Proof.
  unfold _bf_save. apply handles_bind; [apply serves_quiet; [apply quiet_get|apply idle_calm, calm_get]|]. intros ctx.
  destruct (bf_ctx_is_empty ctx); [apply serves_unlink|].
  apply handles_bind; [apply serves_pure|]. intros data. apply serves_write_file.
Qed.

(** ** Requests *)

Lemma idle_command d q : idle (cli_command d q).
Proof.
  intros ctx k. destruct (sends_fd (request_cmd q)) eqn:Hc; [|by apply idle_calm, calm_command].
  destruct (cli_command d q (ctx, k)) as [r [ctx' k']] eqn:E. cbn.
  apply command_sends in E as [(e & _ & _ & ->)|(fd & _ & E)]; [by apply moved_same| |done].
  pose proof (moved_send_fd (bf_request_fd q) fd k) as Hm. destruct (sys_call _ k) as [z k1]. by destruct E as [-> _].
Qed.

Lemma handles_command d q : handles [q] (cli_command d q).
Proof.
  intros R G ctx k r ctx' k' HR HX E. pose proof (idle_command d q ctx k) as Hi. rewrite E in Hi.
  pose proof (handled_command (K := K) d q R G (ctx, k) r (ctx', k') (conj HR HX) E) as Hh.
  destruct r as [a|e]; destruct Hh as [(R' & Hs & HR') (G' & Hl & HX')];
    exists [], R', G'; (split_and!; [done|by eapply served_one|done| |done]);
    unfold programs_of; cbn; by rewrite Nat.add_0_r.
Qed.

(** The result is made from that of a step. *)
Lemma handles_result {A B} given (m : st (bf_ctx * K) A) (f : res A -> res B) :
  handles given m -> handles given (fun s => let '(r, s) := m s in (f r, s)).
Proof.
  intros Hm R G ctx k r ctx' k' HR HX. destruct (m (ctx, k)) as [x [ctx1 k1]] eqn:E. intros [= _ <- <-].
  exact (Hm R G _ _ _ _ _ HR HX E).
Qed.

Lemma handles_ext {A} given (m m' : st (bf_ctx * K) A) : (forall s, m s = m' s) -> handles given m' -> handles given m.
Proof. intros He Hm R G ctx k r ctx' k' HR HX E. rewrite He in E. exact (Hm R G _ _ _ _ _ HR HX E). Qed.

Lemma handles_answer d q : bf_request_front q = BF_FRONT_CLI -> handles [q] (answer d q).
Proof.
  intros Hf.
  apply handles_ext with (fun s => let '(r, s) := cli_command d q s in
    (match r with
     | Ok (Some response) => Ok response
     | Ok None => Ok (bf_response_new_success [])
     | Err e => if e =? - BF_CRASH then Err e else Ok (bf_response_new_failure e)
     end, s)); [|by apply handles_result, handles_command].
  intros s. unfold answer. rewrite Hf. cbn. unfold _bf_cli_request_handler.
  destruct (cli_command d q s) as [[[]|e] s']; try done. destruct (e =? - BF_CRASH) eqn:He; [by rewrite He|done].
Qed.

Context (no_ipt : bf_opts_is_front_enabled opts BF_FRONT_IPT = false).

Lemma front_cli_known q : bf_request_front q = BF_FRONT_CLI -> front_known (bf_request_front q) = true.
Proof. by intros ->. Qed.

(** The request that is dispatched, as it was received: the namespaces and the
    descriptor of the client are added to it. *)
Lemma handles_process d q ns fd : let q' := bf_request_set_fd (bf_request_set_ns q ns) fd in
  handles (if dispatches opts q then [q] else []) (_bf_process_request opts d q').
Proof.
  intros q'. assert (bf_request_front q' = bf_request_front q) as Hfq by done. assert (request_cmd q' = request_cmd q) as Hcq by done.
  unfold _bf_process_request, dispatches. rewrite Hfq, Hcq.
  destruct (front_known (bf_request_front q)) eqn:Hk; cbn [negb].
  2: { rewrite bool_decide_eq_false_2 by (intros Hf; by rewrite (front_cli_known q Hf) in Hk). apply serves_ret. }
  destruct (cmd_known (request_cmd q)); cbn [negb]; [|rewrite andb_false_r; apply serves_ret]. rewrite andb_true_r.
  destruct (decide (bf_request_front q = BF_FRONT_CLI)) as [Hf|Hf].
  - rewrite bool_decide_eq_true_2, Hf by done. cbn [andb].
    destruct (bf_opts_is_front_enabled opts BF_FRONT_CLI); cbn [negb]; [|apply serves_ret].
    assert (handles [q] (answer d q')) as Ha.
    { intros R G ctx k r ctx' k' HR HX E.
      destruct (handles_answer d q' Hf R G _ _ _ _ _ HR HX E) as (qs & R' & G' & Hv & Hs & Hrest).
      exists qs, R', G'. split; [done|]. split; [|exact Hrest]. cbn [app] in *. inversion Hs; subst.
      eapply served_request; [|eassumption]. by eapply rs_step_same; [..|eassumption]. }
    apply handles_bind; [exact Ha|]. intros response. apply handles_bind; [|intros []; apply serves_ret].
    destruct (_ && _); [apply serves_save|apply serves_ret].
  - rewrite bool_decide_eq_false_2 by done. cbn [andb].
    destruct (bf_opts_is_front_enabled opts (bf_request_front q)) eqn:Hen; cbn [negb]; [|apply serves_ret].
    apply handles_bind; [|intros response; apply handles_bind; [|intros []; apply serves_ret];
      destruct (_ && _); [apply serves_save|apply serves_ret]].
    unfold answer. rewrite Hfq. destruct (bf_request_front q) eqn:Ef; [congruence| |done|apply (serves_pure (fun _ => Err _))].
    cbn. apply (serves_ret (bf_response_new_failure (- ENOTSUP))).
Qed.

(** ** Connections *)

Lemma quiet_send {O} fd msgs : quiet (O := O) (send_msgs (K := K) fd msgs).
Proof.
  apply quiet_iter. intros msg. apply quiet_bind; [by apply quiet_call|]. intros z. case_match; [apply quiet_ret|apply quiet_err].
Qed.

Lemma idle_send {O} fd msgs : idle (O := O) (send_msgs (K := K) fd msgs).
Proof.
  induction msgs as [|msg msgs IH]; [by apply idle_calm|]. apply (idle_bind (O := O) _ (fun _ => send_msgs fd msgs)); [|by intros []].
  apply idle_bind; [|intros z; case_match; by apply idle_calm]. intros o k. unfold bf_bpf. pose proof (moved_send fd msg k) as Hm.
  by destruct (sys_call (SysSend fd msg) k).
Qed.

Lemma quiet_peer_pid {O} fd : quiet (O := O) (peer_pid (K := K) fd).
Proof. apply quiet_bind; [by apply quiet_call|]. intros z o k. done. Qed.

(** The request that is received is the one that is processed. *)
Lemma serves_exchange d fd ns : serves (exchange opts d fd ns).
Proof.
  intros R G ctx k r ctx' k' HR HX. unfold exchange. unfold mbind at 1, st_bind at 1, receive.
  pose proof (moved_recv fd k) as Hv. unfold dispatched in Hv. set (k1 := snd (sys_call (SysRecv fd) k)) in *.
  assert (fd_open k1 = fd_open k) as Ho by (by apply call_same).
  destruct (bf_recv_request (sys_received fd k)) as [[q later]|e]; cbn [rbind fst].
  - intros E. rewrite <- Ho in HX. eapply handles_bind in E as (qs & R' & G' & Hv' & Hrest); [|apply (handles_process d q ns fd)| |exact HR|exact HX].
    + exists ((if dispatches opts q then [q] else []) ++ qs), R', G'. split; [by eapply moved_app|exact Hrest].
    + intros response. apply serves_quiet; [apply quiet_send|apply idle_send].
  - intros [= <- <- <-]. exists [], R, G. destruct (nothing_served R). rewrite Ho. by split_and!.
Qed.

Lemma serves_serve d fd : serves (serve opts d fd).
Proof.
  apply serves_scope; [by apply fresh_open|by apply calm_call|]. intros client_fd.
  apply handles_bind; [apply serves_quiet; [apply quiet_peer_pid|apply idle_calm, calm_peer_pid]|]. intros pid.
  apply serves_with_ns. intros ns. apply serves_exchange.
Qed.

Lemma serves_loop turns d fd : serves (serve_loop opts turns d fd).
Proof.
  induction turns as [|turns IH]; cbn [serve_loop]; [apply serves_ret|]. intros R G ctx k r ctx' k' HR HX.
  destruct (sys_stop _); [exact (serves_pure (fun _ => Ok tt) R G ctx k r ctx' k' HR HX)|].
  destruct (serve opts d fd (ctx, k)) as [x [ctx1 k1]] eqn:Es. intros E.
  destruct (serves_serve d fd R G _ _ _ _ _ HR HX Es) as (qs & R1 & G1 & Hv & Hs & HR1 & HL & HX1).
  assert (serve_loop opts turns d fd (ctx1, k1) = (r, (ctx', k')) \/ (ctx1, k1) = (ctx', k')) as [E2|E2].
  { destruct x as [[]|e]; [by left|]. destruct (e =? - BF_CRASH); [right; congruence|by left]. }
  - destruct (IH R1 G1 _ _ _ _ _ HR1 HX1 E2) as (qs2 & R2 & G2 & Hv2 & Hs2 & HR2 & HL2 & HX2).
    exists (qs ++ qs2), R2, G2. cbn [app] in *. rewrite programs_app.
    split_and!; [by eapply moved_app|by eapply served_app|done|by eapply leaks_trans|done].
  - injection E2 as <- <-. by exists qs, R1, G1.
Qed.

Lemma fresh_lock {O} path : fresh_fd (O := O) (K := K) (bf_acquire_lock path).
Proof.
  intros P s r s' HP. unfold bf_acquire_lock.
  pose proof (fresh_open (O := O) (K := K) (SysOpenLock path) eq_refl P s) as Ho.
  destruct (bf_bpf (SysOpenLock path) s) as [[fd|e] [o k]]; specialize (Ho _ _ HP eq_refl);
    [|intros [= <- <-]; exact Ho]. cbn in Ho. destruct Ho as (Y & HY & Hfd & Hn & HX).
  pose proof (quiet_call (O := O) (SysFlock fd) eq_refl ltac:(done) o k) as Hq.
  destruct (bf_bpf (SysFlock fd) (o, k)) as [[z|e] [o1 k1]]; destruct Hq as [Hc Hq]; cbn in Hc, Hq; subst o1; intros [= <- <-]; cbn.
  - exists Y. by rewrite Hq.
  - rewrite closep_open, (own_some fd Hfd), Hq, HX. assert (({[fd]} ∪ Y) ∖ list_to_set [fd] = Y) as -> by set_solver. done.
Qed.

Lemma serves_call c : opens c = false -> (forall fd, c <> SysClose fd) -> talks c = false -> serves (bf_bpf c).
Proof. intros Ho Hc Ht. apply serves_quiet; [by apply quiet_call|by apply idle_calm, calm_call]. Qed.

Lemma serves_run turns d : serves (_bf_run opts turns d).
Proof.
  apply serves_scope; [apply fresh_lock|apply calm_lock|]. intros lock.
  apply serves_scope; [by apply fresh_open|by apply calm_call|]. intros fd.
  apply handles_bind; [apply serves_unlink|]. intros [].
  apply handles_bind; [by apply serves_call|]. intros bound.
  apply handles_bind; [by apply serves_call|]. intros listening. apply serves_loop.
Qed.
End Spec.
