(* ===== verification/SaveSpec.v ===== *)
(** Saving the context and restoring it: what the document holds, and that
    what is read from it is what was saved, descriptors apart.

    The kernel of a daemon that restarts still has what the previous one
    pinned ([SavedSys]). *)

From S2P Require Import Prelude Bytes Bpf Helper Hook Hookopts Matcher BfSet Sys Io Map Rule.
From S2P Require Import Chain Printer Pack Serial Program Elf Block BlockExec Fixups Flavors Load Fds Generate Frame.
From S2P Require Import Account Cgen CgenSpec Request Ctx Save Cli Ipt Ruleset CliSpec Daemon DaemonSpec.

(** * What is written *)

Definition map_kvs (m : bf_map) : list (string * mnode) :=
  [("name", MStr (map_name m)); ("type", int_node (bf_map_type_to_Z (map_type m)));
   ("bpf_type", int_node (bf_bpf_map_type_to_Z (map_bpf_type m))); ("key_size", MUint (map_key_size m));
   ("value_size", MUint (map_value_size m)); ("n_elems", MUint (map_n_elems m))]%string.

Definition link_kvs (l : bf_link) : list (string * mnode) :=
  [("name", MStr (link_name l)); ("hookopts", opt_obj hookopts_kvs (link_hookopts l))]%string.

Definition program_kvs (p : bf_program) : list (string * mnode) :=
  [("cmap", obj (map_kvs (prog_cmap p))); ("pmap", obj (map_kvs (prog_pmap p))); ("lmap", obj (map_kvs (prog_lmap p)));
   ("sets", MArray (opt_obj map_kvs <$> (Some <$> prog_sets p))); ("link", obj (link_kvs (prog_link p)));
   ("printer", obj (printer_kvs (prog_printer p))); ("img", MBin (prog_img p ≫= insn_bytes))]%string.

Definition cgen_kvs (cg : bf_cgen) : list (string * mnode) :=
  [("front", int_node (bf_front_to_Z (cgen_front cg))); ("chain", obj (chain_kvs (cgen_chain cg)));
   ("program", opt_obj program_kvs (cgen_program cg))]%string.

Definition ctx_kvs (ctx : bf_ctx) : list (string * mnode) :=
  [("cgens", MArray (opt_obj cgen_kvs <$> (Some <$> ctx)))]%string.

#[local] Opaque wpack_add.

Lemma map_packs : packs bf_map_pack map_kvs.
Proof. done. Qed.

Lemma kv_object_adds {A} key (ops_pack : A -> bf_wpack -> bf_wpack) f x pack : packs ops_pack f -> wopen pack ->
  kv_object key ops_pack x pack = wpack_adds (kvs [(key, obj (f x))]) pack.
Proof. intros Hf Ho. unfold kv_object. rewrite Hf by apply wopen_open. by rewrite wpack_object. Qed.

Lemma link_packs : packs bf_link_pack link_kvs.
Proof.
  intros l pack Ho. unfold bf_link_pack, link_kvs. destruct (link_hookopts l) as [ho|]; [|done].
  by rewrite (kv_object_adds _ _ hookopts_kvs) by (apply hookopts_packs || by wopen_tac).
Qed.

(** The next container of a document being written. *)
Ltac next_kv key f Hf := rewrite (kv_object_adds key _ f) by (exact Hf || by wopen_tac).

Lemma program_packs : packs bf_program_pack program_kvs.
Proof.
  intros p pack Ho. unfold bf_program_pack.
  next_kv "cmap"%string map_kvs map_packs. next_kv "pmap"%string map_kvs map_packs. next_kv "lmap"%string map_kvs map_packs.
  rewrite (wpack_kv_list_adds "sets" _ map_kvs) by (exact map_packs || by wopen_tac).
  next_kv "link"%string link_kvs link_packs. next_kv "printer"%string printer_kvs printer_packs. done.
Qed.

Lemma cgen_packs : packs bf_cgen_pack cgen_kvs.
Proof.
  intros cg pack Ho. unfold bf_cgen_pack, cgen_kvs. next_kv "chain"%string chain_kvs chain_packs.
  destruct (cgen_program cg) as [p|]; [|done]. by rewrite (kv_object_adds _ _ program_kvs) by (exact program_packs || by wopen_tac).
Qed.

Lemma ctx_packs : packs _bf_ctx_pack ctx_kvs.
Proof.
  intros ctx pack Ho. unfold _bf_ctx_pack. by rewrite (wpack_kv_list_adds _ _ cgen_kvs) by (exact cgen_packs || by wopen_tac).
Qed.

(** The node of each front: an empty object when it is enabled. *)
Definition cache_nodes (opts : bf_options) : list mnode :=
  (fun front => if bf_opts_is_front_enabled opts front then MMap [] else MNil) <$> fronts.

Definition saved_node (opts : bf_options) (ctx : bf_ctx) : mnode :=
  obj [("ctx", obj (ctx_kvs ctx)); ("cache", MArray (cache_nodes opts))]%string.

Section Save.
Context `{CgenEnv} `{Mpack} {K : Type} `{Sys K} `{!CounterSys K} `{!FileSys K} `{!PeerSys K} (opts : bf_options).

Lemma pack_fronts_adds pack : wopen pack ->
  pack_fronts (K := K) opts fronts pack = Ok (wpack_adds (cache_nodes opts) pack).
Proof.
  intros Ho. unfold fronts, cache_nodes. cbn [pack_fronts bf_front_ops_get rbind front_pack nft_front ipt_front cli_front fmap list_fmap].
  assert (forall pk, wopen pk -> bf_wpack_close_object (bf_wpack_open_object None pk) = wpack_add (MMap []) pk) as Hobj.
  { intros pk Hpk. exact (wpack_object None [] pk Hpk). }
  assert (forall (b : bool) pk, wopen pk ->
    (if b then bf_wpack_close_object (bf_wpack_open_object None pk) else bf_wpack_nil pk) =
    wpack_add (if b then MMap [] else MNil) pk) as Hnode by (intros [] pk Hpk; [by apply Hobj|done]).
  transitivity (Ok (A := bf_wpack) (foldl (fun pk front => if bf_opts_is_front_enabled opts front
    then bf_wpack_close_object (bf_wpack_open_object None pk) else bf_wpack_nil pk) pack fronts)).
  - cbn [foldl fronts]. by repeat case_match.
  - f_equal. unfold fronts. cbn [foldl]. by rewrite (Hnode _ pack), (Hnode _ (wpack_add _ pack)), (Hnode _ (wpack_add _ (wpack_add _ pack))) by (by wopen_tac).
Qed.

(** Saving writes a document, whatever the context. *)
Lemma save_pack_ok ctx : save_pack (K := K) opts ctx = Ok (mpack_write (saved_node opts ctx)).
Proof.
  unfold save_pack, bf_ctx_save. cbv zeta. rewrite ctx_packs by apply wopen_open.
  assert (bf_wpack_is_valid (wpack_adds (kvs (ctx_kvs ctx)) (bf_wpack_open_object (Some "ctx"%string) bf_wpack_new)) = true) as ->.
  { unfold bf_wpack_open_object, wpack_open. by rewrite wpack_adds_frame. }
  rewrite ctx_packs by apply wopen_open. cbn [rbind]. rewrite wpack_object by done.
  rewrite pack_fronts_adds by apply wopen_open. cbn [rbind]. rewrite wpack_array by (by apply wpack_adds_open).
  rewrite <- wpack_adds_app. unfold bf_wpack_new. rewrite wpack_adds_frame.
  unfold bf_wpack_get_data, wpack_complete. cbn [wp_frames wf_map wf_elems app Bool.eqb negb].
  change ([MStr "ctx"; obj (ctx_kvs ctx); MStr "cache"; MArray (cache_nodes opts)]) with
    (kvs [("ctx", obj (ctx_kvs ctx)); ("cache", MArray (cache_nodes opts))])%string.
  by rewrite pairs_kvs.
Qed.
End Save.

(** * Values of the fields' C types *)

Record map_packable (m : bf_map) : Prop := mk_map_packable {
  map_name_nul : has_nul (map_name m) = false;
  map_name_fits : obj_name (map_name m) = map_name m;
  map_name_some : map_name m <> EmptyString;
  map_type_kept : bf_map_type_of_Z (bf_map_type_to_Z (map_type m)) = map_type m;
  map_type_int : int_ok (bf_map_type_to_Z (map_type m));
  map_bpf_type_kept : bf_bpf_map_type_of_Z (bf_bpf_map_type_to_Z (map_bpf_type m)) = map_bpf_type m;
  map_bpf_type_int : int_ok (bf_bpf_map_type_to_Z (map_bpf_type m));
  map_key_size_64 : 0 <= map_key_size m < 2 ^ 64;
  map_value_size_64 : 0 <= map_value_size m < 2 ^ 64;
  map_n_elems_64 : 0 < map_n_elems m < 2 ^ 64
}.

(** Every program's link has the same name. *)
Record link_packable (l : bf_link) : Prop := mk_link_packable {
  link_name_same : link_name l = "bf_link"%string;
  link_hookopts_packable : from_option hookopts_packable True (link_hookopts l)
}.

Record insn_packable (i : bpf_insn) : Prop := mk_insn_packable {
  insn_code_8 : 0 <= insn_code i < 2 ^ 8;
  insn_dst_4 : 0 <= insn_dst i < 16;
  insn_src_4 : 0 <= insn_src i < 16;
  insn_off_16 : - 2 ^ 15 <= insn_off i < 2 ^ 15;
  insn_imm_32 : - 2 ^ 31 <= insn_imm i < 2 ^ 31
}.

Record program_packable (p : bf_program) : Prop := mk_program_packable {
  pp_cmap : map_packable (prog_cmap p);
  pp_pmap : map_packable (prog_pmap p);
  pp_lmap : map_packable (prog_lmap p);
  pp_sets : Forall map_packable (prog_sets p);
  pp_link : link_packable (prog_link p);
  pp_printer : Forall msg_packable (prog_printer p);
  pp_img : Forall insn_packable (prog_img p);
  pp_new : exists q, bf_program_new (prog_chain p) = Ok q
}.

Record cgen_packable (cg : bf_cgen) : Prop := mk_cgen_packable {
  cgp_front : bf_front_of_Z (bf_front_to_Z (cgen_front cg)) = cgen_front cg;
  cgp_front_int : int_ok (bf_front_to_Z (cgen_front cg));
  cgp_chain : chain_packable (cgen_chain cg);
  cgp_built : chain_built (cgen_chain cg);
  cgp_valid : bf_chain_validate (cgen_chain cg) = true;
  cgp_program : from_option program_packable False (cgen_program cg)
}.

(** * Descriptors apart *)

Definition saved_map (m : bf_map) : bf_map := with_map_fd (-1) m.
Definition saved_link (l : bf_link) : bf_link := mk_link (link_name l) (link_hookopts l) (-1).

(** What a restart keeps of a program. *)
Record saved_program : Type := mk_saved_program {
  sv_chain : bf_chain;
  sv_cmap : bf_map;
  sv_pmap : bf_map;
  sv_lmap : bf_map;
  sv_sets : list bf_map;
  sv_link : bf_link;
  sv_printer : bf_printer;
  sv_img : list bpf_insn
}.

Definition program_saved (p : bf_program) : saved_program :=
  mk_saved_program (prog_chain p) (saved_map (prog_cmap p)) (saved_map (prog_pmap p)) (saved_map (prog_lmap p))
    (saved_map <$> prog_sets p) (saved_link (prog_link p)) (prog_printer p) (prog_img p).

Definition cgen_saved (cg : bf_cgen) : bf_front * bf_chain * option saved_program :=
  (cgen_front cg, cgen_chain cg, program_saved <$> cgen_program cg).

(** * What is read *)

(** ** Instructions *)

Lemma regs_split d s : 0 <= d < 16 -> 0 <= s < 16 ->
  let r := Z.lor (Z.land d 15) (Z.shiftl (Z.land s 15) 4) in
  0 <= r < 256 /\ Z.land r 15 = d /\ Z.shiftr r 4 = s.
Proof.
  intros Hd Hs. assert (Forall (fun d => Forall (fun s => let r := Z.lor (Z.land d 15) (Z.shiftl (Z.land s 15) 4) in
    0 <= r < 256 /\ Z.land r 15 = d /\ Z.shiftr r 4 = s) (seqZ 0 16)) (seqZ 0 16)) as Hall by (by vm_compute; repeat constructor).
  rewrite Forall_forall in Hall. specialize (Hall d ltac:(apply elem_of_seqZ; lia)).
  rewrite Forall_forall in Hall. exact (Hall s ltac:(apply elem_of_seqZ; lia)).
Qed.

Lemma length_insn_bytes i : length (insn_bytes i) = sizeof_bpf_insn.
Proof. done. Qed.

Lemma s16_stored z : - 2 ^ 15 <= z < 2 ^ 15 -> s16 (z mod 256 ^ Z.of_nat 2) = z.
Proof.
  intros Hz. change (256 ^ Z.of_nat 2) with (2 ^ 16). unfold s16, sw. cbv zeta. rewrite Z.mod_mod by done.
  change (2 ^ (16 - 1)) with (2 ^ 15). case_decide;
    pose proof (Z.div_mod z (2 ^ 16) ltac:(done)); pose proof (Z.mod_pos_bound z (2 ^ 16) ltac:(done)); lia.
Qed.

Lemma insn_read_back i : insn_packable i -> insn_of_bytes (insn_bytes i) = i.
Proof.
  intros [Hc Hd Hs Ho Hi]. destruct (regs_split _ _ Hd Hs) as (_ & Ed & Es). cbv zeta in Ed, Es.
  assert (forall o n, (2 <= o)%nat -> field o n (insn_bytes i) = field (o - 2) n (le_split 2 (insn_off i) ++ le_split 4 (insn_imm i))) as Hf.
  { intros o n Hon. destruct o as [|[|o]]; [lia..|]. unfold field, sub_bytes, insn_bytes. cbn [app drop Nat.sub]. by rewrite Nat.sub_0_r. }
  unfold insn_of_bytes. rewrite (Hf 2%nat), (Hf 4%nat) by lia. cbn [Nat.sub]. rewrite field_here, field_next by lia.
  cbn [Nat.sub]. rewrite <- (app_nil_r (le_split 4 _)), field_here, s16_stored, s32_stored by done.
  unfold field, sub_bytes, insn_bytes. cbn [app drop take le_combine]. rewrite !Z.mul_0_r, !Z.add_0_r, Ed, Es.
  unfold u8, uw. rewrite Z.mod_small by done. by destruct i.
Qed.

Lemma img_read_back img : Forall insn_packable img -> insns_of_bytes (img ≫= insn_bytes) = img.
Proof.
  intros Hi. unfold insns_of_bytes.
  assert (length (img ≫= insn_bytes) = (length img * sizeof_bpf_insn)%nat) as ->.
  { clear Hi. induction img as [|i img IH]; [done|]. rewrite bind_cons, length_app, IH. done. }
  rewrite Nat.div_mul by done. induction Hi as [|i img Hi _ IH]; [done|]. rewrite bind_cons. cbn [length seq fmap list_fmap].
  f_equal.
  - by apply insn_read_back.
  - rewrite <- fmap_S_seq, <- list_fmap_compose. rewrite <- IH at 2. apply list_fmap_ext. intros n j _. cbn [compose].
    by f_equal.
Qed.

(** ** Links and maps, before they are opened *)

Lemma read_map_ok fd m : map_packable m -> read_map fd (obj (map_kvs m)) = Ok (with_map_fd fd m).
Proof.
  intros [Hn Hf Hs Ht Hti Hb Hbi Hk Hv He]. unfold read_map. unfold_reads. read_field read_str.
  destruct (map_name m) as [|c s] eqn:En; [done|]. cbn [String.length Nat.eqb].
  read_field read_int. read_field read_int. read_field read_unsigned. read_field read_unsigned. read_field read_unsigned.
  rewrite (proj2 (Z.eqb_neq _ _)) by lia. rewrite Ht, Hb, Hf, <- En. done.
Qed.

Lemma read_link_ok l : link_packable l -> read_link (obj (link_kvs l)) = Ok (saved_link l).
Proof.
  intros [Hn Ho]. unfold read_link. unfold_reads. erewrite rpack_kv_at by reflexivity. rewrite Hn. cbn [bf_rpack_str].
  change (has_nul "bf_link") with false. cbn [rbind]. erewrite rpack_node_at by reflexivity. cbn [rbind].
  unfold saved_link. rewrite Hn. destruct (link_hookopts l) as [ho|]; [|done]. cbn [opt_obj bf_rpack_is_nil obj].
  by rewrite read_hookopts.
Qed.

Lemma rpack_obj_at l key v : map_lookup key ((fun '(k, v) => (MStr k, v)) <$> l) = Some (obj v) ->
  bf_rpack_kv_obj (obj l) key = Ok (obj v).
Proof. intros E. unfold bf_rpack_kv_obj. by rewrite (rpack_kv_at _ _ _ _ E). Qed.

(** * A kernel that still has the pins *)

Section Kernel.
Context `{CgenEnv} `{Mpack} {K : Type} `{FdSys K} `{!CounterSys K} `{!FileSys K} `{!PeerSys K}.

(** [present chain name]: [name] is pinned in the directory of [chain].  The
    directories can be opened, and so can what is pinned in them; what is not
    pinned is reported missing. *)
Class SavedSys (present : string -> string -> Prop) : Type := {
  dir_at : Z -> string -> K -> Prop;
  saved_dir c k : (exists path, c = SysOpenDir path) \/ (exists fd name, c = SysOpenFileAt fd name) -> 0 <= fst (sys_call c k);
  saved_stat fd k : fst (sys_call (SysFstat fd) k) = 0;
  saved_openat fd name k : 0 <= fst (sys_call (SysOpenat fd name) k) /\
    dir_at (fst (sys_call (SysOpenat fd name) k)) name (snd (sys_call (SysOpenat fd name) k));
  saved_stable dir chain c k : c <> SysClose dir -> dir_at dir chain k -> dir_at dir chain (snd (sys_call c k));
  saved_get dir chain name flags k : dir_at dir chain k -> present chain name ->
    0 <= fst (sys_call (SysObjGet name flags dir) k);
  saved_missing dir chain name flags k : dir_at dir chain k -> ~ present chain name ->
    fst (sys_call (SysObjGet name flags dir) k) = - ENOENT
}.

Context (present : string -> string -> Prop) `{!SavedSys present} (d : bf_daemon) (malloc_fd : Z).

(** An operation that succeeds from [o]: [Q] relates its result, the object
    and the descriptors it has opened; [I] holds of the kernel throughout. *)
Definition runs {O A} (I : K -> Prop) (m : st (O * K) A) (o : O) (Q : A -> O -> list Z -> Prop) : Prop :=
  forall k, I k -> exists a o' k' l, m (o, k) = (Ok a, (o', k')) /\ Q a o' l /\ I k' /\
    NoDup l /\ (list_to_set l : gset Z) ## fd_open k /\ fd_open k' = fd_open k ∪ list_to_set l.

Lemma runs_ret {O A} I (a : A) (o : O) (Q : A -> O -> list Z -> Prop) : Q a o [] -> runs I (mret a) o Q.
Proof. intros HQ k Hk. exists a, o, k, []. split_and!; [done|done|done|constructor|set_solver|set_solver]. Qed.

Lemma runs_bind {O A B} I (m : st (O * K) A) (f : A -> st (O * K) B) o Q R : runs I m o Q ->
  (forall a o' l, Q a o' l -> runs I (f a) o' (fun b o'' l' => R b o'' (l ++ l'))) -> runs I (m ≫= f) o R.
Proof.
  intros Hm Hf k Hk. destruct (Hm k Hk) as (a & o1 & k1 & l1 & E1 & HQ & Hk1 & Hn1 & Hd1 & HX1).
  destruct (Hf a o1 l1 HQ k1 Hk1) as (b & o2 & k2 & l2 & E2 & HR & Hk2 & Hn2 & Hd2 & HX2).
  exists b, o2, k2, (l1 ++ l2). unfold mbind, st_bind. rewrite E1. rewrite list_to_set_app_L.
  pose proof Hd2 as Hd3. rewrite HX1 in Hd3. apply disjoint_union_r in Hd3 as [Hd3 Hd4].
  split_and!; [done|done|done| |by apply disjoint_union_l|by rewrite HX2, HX1, (assoc_L (∪))].
  apply NoDup_app. split_and!; [done| |done]. intros x Hx Hx2. apply (Hd4 x); by rewrite elem_of_list_to_set.
Qed.

Lemma runs_lift {O A B} I (r : res A) (f : A -> st (O * K) B) o Q a : r = Ok a -> runs I (f a) o Q ->
  runs I (st_lift r ≫= f) o Q.
Proof. intros ->. exact id. Qed.

Lemma runs_modify {O} I (f : O -> O) o (Q : unit -> O -> list Z -> Prop) : Q tt (f o) [] -> runs I (obj_modify f) o Q.
Proof. intros HQ k Hk. exists tt, (f o), k, []. split_and!; [done|done|done|constructor|set_solver|set_solver]. Qed.

Lemma runs_modify_bind {O B} I (g : O -> O) (f : unit -> st (O * K) B) o Q : runs I (f tt) (g o) Q ->
  runs I (obj_modify g ≫= f) o Q.
Proof. exact id. Qed.

Lemma runs_get_bind {O B} I (f : O -> st (O * K) B) o Q : runs I (f o) o Q -> runs I (obj_get ≫= f) o Q.
Proof. exact id. Qed.

Lemma runs_conseq {O A} I (m : st (O * K) A) o (Q R : A -> O -> list Z -> Prop) : runs I m o Q ->
  (forall a o' l, Q a o' l -> R a o' l) -> runs I m o R.
Proof.
  intros Hm HQ k Hk. destruct (Hm k Hk) as (a & o1 & k1 & l1 & E1 & HQ1 & Hx). exists a, o1, k1, l1. auto.
Qed.

(** The same on a part of the state that is built from nothing. *)
Lemma runs_opens {O} (I : K -> Prop) c (o : O) : opens c = true -> (forall k, I k -> 0 <= fst (sys_call c k)) ->
  (forall k, I k -> I (snd (sys_call c k))) ->
  runs I (bf_bpf c) o (fun fd o' l => o' = o /\ l = [fd] /\ 0 <= fd).
Proof.
  intros Hc Hok HI k Hk. pose proof (fd_opens c k Hc (Hok k Hk)) as [Hn HX]. specialize (HI k Hk). specialize (Hok k Hk).
  unfold bf_bpf. destruct (sys_call c k) as [r k1]. cbn [fst snd] in *. exists r, o, k1, [r].
  rewrite (proj2 (Z.ltb_ge r 0)) by lia. cbn [list_to_set].
  split_and!; [done|done|done|done|done|apply NoDup_singleton|set_solver|set_solver].
Qed.

Section Dir.
Context (dir : Z) (chain : string) (dir_some : (dir =? -1) = false).

Abbreviation here := (dir_at dir chain).

Lemma runs_obj_get {O} name (o : O) : present chain name ->
  runs here (bf_bpf_obj_get name dir) o (fun fd o' l => o' = o /\ l = [fd] /\ 0 <= fd).
Proof.
  intros Hp. unfold bf_bpf_obj_get. apply runs_opens; [done| |].
  - intros k Hk. by eapply saved_get.
  - intros k Hk. by apply saved_stable.
Qed.

Lemma obj_get_missing {O} name (o : O) k : dir_at dir chain k -> ~ present chain name ->
  exists k', bf_bpf_obj_get name dir (o, k) = (Err (- ENOENT), (o, k')) /\ dir_at dir chain k' /\ fd_open k' = fd_open k.
Proof.
  intros Hk Hp. unfold bf_bpf_obj_get, bf_bpf. set (c := SysObjGet name _ dir).
  pose proof (saved_missing dir chain name (if dir =? 0 then 0 else BPF_F_PATH_FD) k Hk Hp) as Hm.
  pose proof (saved_stable dir chain c k ltac:(done) Hk) as Hs. fold c in Hm.
  pose proof (fd_fails c k eq_refl ltac:(rewrite Hm; done)) as Hf.
  destruct (sys_call c k) as [r k1]. cbn [fst snd] in *. subst r. by exists k1.
Qed.

Lemma runs_map {O} m (o : O) : map_packable m -> present chain (map_name m) ->
  runs here (bf_map_new_from_pack malloc_fd dir (obj (map_kvs m))) o
    (fun m' o' l => o' = o /\ exists fd, m' = with_map_fd fd m /\ l = [fd] /\ 0 <= fd).
Proof.
  intros Hm Hp k Hk. destruct (runs_obj_get (map_name m) o Hp k Hk) as (fd & o1 & k1 & l & E & (-> & -> & Hfd) & Hx).
  exists (with_map_fd fd m), o, k1, [fd]. split_and!; [|done|by exists fd|apply Hx..].
  unfold bf_map_new_from_pack, st_onerr. rewrite read_map_ok by done. unfold st_lift, mbind, st_bind. rewrite dir_some. cbn [negb].
  unfold mbind, st_bind. cbn [map_name with_map_fd]. by rewrite E.
Qed.

Lemma runs_link {O} l (o : O) : link_packable l -> present chain (link_name l) ->
  runs here (bf_link_new_from_pack dir (obj (link_kvs l))) o
    (fun l' o' fds => o' = o /\ exists fd, l' = mk_link (link_name l) (link_hookopts l) fd /\ fds = [fd] /\ 0 <= fd).
Proof.
  intros Hl Hp k Hk. destruct (runs_obj_get (link_name l) o Hp k Hk) as (fd & o1 & k1 & fds & E & (-> & -> & Hfd) & Hx).
  exists (mk_link (link_name l) (link_hookopts l) fd), o, k1, [fd]. split_and!; [|done|by exists fd|apply Hx..].
  unfold bf_link_new_from_pack. rewrite read_link_ok by done. unfold st_lift, mbind, st_bind. rewrite dir_some. cbn [negb saved_link link_name].
  unfold mbind, st_bind. by rewrite E.
Qed.

(** ** Programs *)

(** What the previous daemon has pinned for the program. *)
Record program_pinned (p : bf_program) : Prop := mk_program_pinned {
  pin_cmap : present chain (map_name (prog_cmap p));
  pin_pmap : present chain (map_name (prog_pmap p));
  pin_lmap : present chain (map_name (prog_lmap p));
  pin_sets : Forall (fun m => present chain (map_name m)) (prog_sets p);
  pin_prog : present chain prog_name;
  pin_link : present chain (link_name (prog_link p)) <-> is_Some (link_hookopts (prog_link p))
}.

Lemma runs_restore_map set upd key l m (p : bf_program) : (forall m, set m = obj_modify (upd m)) ->
  bf_rpack_kv_obj (obj l) key = Ok (obj (map_kvs m)) -> map_packable m -> present chain (map_name m) ->
  runs here (restore_map malloc_fd set dir (obj l) key) p
    (fun _ p' fds => exists fd, p' = upd (with_map_fd fd m) p /\ fds = [fd] /\ 0 <= fd).
Proof.
  intros Hset Hl Hm Hp. unfold restore_map. eapply runs_lift; [exact Hl|].
  eapply runs_bind; [by apply runs_map|]. intros m' p' fds (-> & fd & -> & -> & Hfd). rewrite Hset.
  apply runs_modify. by exists fd.
Qed.

Definition with_fds (fds : list Z) (ms : list bf_map) : list bf_map := zip_with with_map_fd fds ms.

Lemma runs_sets ms (p : bf_program) : Forall map_packable ms -> Forall (fun m => present chain (map_name m)) ms ->
  runs here (st_iter (fun n => m ← bf_map_new_from_pack malloc_fd dir n; add_set m) (opt_obj map_kvs <$> (Some <$> ms))) p
    (fun _ p' fds => p' = with_maps p (prog_cmap p) (prog_pmap p) (prog_lmap p) (prog_sets p ++ with_fds fds ms) /\
       length fds = length ms /\ Forall (fun fd => 0 <= fd) fds).
Proof.
  intros Hm. revert p. induction Hm as [|m ms Hm _ IH]; intros p Hp; cbn [fmap list_fmap st_iter].
  - apply runs_ret. unfold with_fds. cbn. rewrite app_nil_r. by destruct p.
  - apply Forall_cons in Hp as [Hp Hps].
    eapply (runs_bind _ _ _ _ (fun _ p' fds => exists fd, p' = with_maps p (prog_cmap p) (prog_pmap p) (prog_lmap p)
      (prog_sets p ++ [with_map_fd fd m]) /\ fds = [fd] /\ 0 <= fd)).
    + eapply runs_bind; [by apply runs_map|]. intros m' p' fds (-> & fd & -> & -> & Hfd). unfold add_set.
      apply runs_get_bind, runs_modify. by exists fd.
    + intros [] p' fds (fd & -> & -> & Hfd). eapply runs_conseq; [by apply IH|].
      intros [] p' fds (-> & Hl & Hfds). cbn [with_maps prog_cmap prog_pmap prog_lmap prog_sets app length]. split_and!.
      * unfold with_fds. cbn [zip_with]. by rewrite <- app_assoc.
      * by rewrite Hl.
      * by constructor.
Qed.

(** The link is that of the new program when it is not attached. *)
Lemma runs_restore_link l (p q : bf_program) : bf_rpack_kv_obj (obj l) "link" = Ok (obj (link_kvs (prog_link p))) ->
  link_packable (prog_link p) -> prog_link q = bf_link_new "bf_link" ->
  (present chain (link_name (prog_link p)) <-> is_Some (link_hookopts (prog_link p))) ->
  runs here (restore_link dir (obj l)) q
    (fun _ q' fds => exists fd, q' = with_link q (mk_link (link_name (prog_link p)) (link_hookopts (prog_link p)) fd) /\
       fds = own fd /\ (link_hookopts (prog_link p) = None -> fd = -1)).
Proof.
  intros El Hl Hq Hpin. unfold restore_link. eapply runs_lift; [exact El|]. intros k Hk. unfold match_link.
  destruct (link_hookopts (prog_link p)) as [ho|] eqn:Eh.
  - destruct (runs_link (prog_link p) q Hl (proj2 Hpin ltac:(done)) k Hk) as (l' & q' & k' & fds & E & (-> & fd & -> & -> & Hfd) & Hx).
    rewrite E. eexists tt, _, k', [fd]. split_and!; [done| |apply Hx..].
    exists fd. rewrite Eh. split_and!; [done|by rewrite (own_some fd Hfd)|done].
  - assert (~ present chain (link_name (prog_link p))) as Hmiss by (intros Hp; by destruct (proj1 Hpin Hp)).
    destruct (obj_get_missing (link_name (prog_link p)) q k Hk Hmiss) as (k' & E & Hk' & HX).
    unfold bf_link_new_from_pack. rewrite read_link_ok by done. unfold st_lift, mbind, st_bind. rewrite dir_some.
    cbn [negb saved_link link_name]. unfold mbind, st_bind. rewrite E, Z.eqb_refl.
    exists tt, q, k', []. split_and!; [done| |done|constructor|set_solver|rewrite HX; set_solver].
    exists (-1). rewrite (link_name_same _ Hl). split_and!; [|done|done]. destruct q. cbn in *. by rewrite Hq.
Qed.

(** What the restored program is, from the new one [q]. *)
Definition restored (q p : bf_program) (f1 f2 f3 : Z) (fs : list Z) (fl f : Z) : bf_program :=
  mk_program (prog_flavor q) (prog_chain q) (prog_printer p) (with_map_fd f1 (prog_cmap p)) (with_map_fd f2 (prog_pmap p))
    (with_map_fd f3 (prog_lmap p)) (with_fds fs (prog_sets p))
    (mk_link (link_name (prog_link p)) (link_hookopts (prog_link p)) fl) (elfstubs_location q) (prog_img p)
    (Z.of_nat (length (prog_img p))) (prog_fixups q) f.

Lemma runs_restore_program p q : program_packable p -> program_pinned p -> prog_link q = bf_link_new "bf_link" ->
  runs here (restore_program malloc_fd dir (obj (program_kvs p))) q
    (fun _ p' l => exists f1 f2 f3 fs fl f, p' = restored q p f1 f2 f3 fs fl f /\ l = [f1; f2; f3] ++ fs ++ own fl ++ [f] /\
       0 <= f1 /\ 0 <= f2 /\ 0 <= f3 /\ 0 <= f /\ length fs = length (prog_sets p) /\ Forall (fun fd => 0 <= fd) fs /\
       (link_hookopts (prog_link p) = None -> fl = -1)).
Proof.
  intros [Hc Hp Hl Hs Hk Hpr Hi _] [Pc Pp Pl Ps Pf Pk] Hq. unfold restore_program.
  eapply runs_bind; [by apply (runs_restore_map set_cmap (fun m p => with_maps p m (prog_pmap p) (prog_lmap p) (prog_sets p)) _ _ (prog_cmap p))|].
  intros [] p1 l1 (f1 & -> & -> & Hf1).
  eapply runs_bind; [by apply (runs_restore_map set_pmap (fun m p => with_maps p (prog_cmap p) m (prog_lmap p) (prog_sets p)) _ _ (prog_pmap p))|].
  intros [] p1 l1 (f2 & -> & -> & Hf2).
  eapply runs_bind; [by apply (runs_restore_map set_lmap (fun m p => with_maps p (prog_cmap p) (prog_pmap p) m (prog_sets p)) _ _ (prog_lmap p))|].
  intros [] p1 l1 (f3 & -> & -> & Hf3).
  apply runs_modify_bind.
  eapply runs_lift; [reflexivity|].
  eapply runs_bind; [by apply runs_sets|]. intros [] p1 fs (-> & Hfs & Hfs0). cbn [with_maps prog_cmap prog_pmap prog_lmap prog_sets app].
  eapply runs_bind; [by apply runs_restore_link|]. intros [] p1 l1 (fl & -> & -> & Hfl).
  eapply runs_lift; [reflexivity|]. eapply runs_lift; [by apply read_printer|].
  apply runs_modify_bind. eapply runs_lift; [reflexivity|]. cbn [bf_rpack_bin]. rewrite img_read_back by done.
  apply runs_modify_bind. eapply runs_bind; [by apply runs_obj_get|]. intros f p1 l1 (-> & -> & Hf).
  apply runs_modify. exists f1, f2, f3, fs, fl, f. split_and!; [done| |done..]. by rewrite app_nil_r.
Qed.

Lemma own_with_fds fs ms : length fs = length ms -> Forall (fun fd => 0 <= fd) fs -> own_maps (with_fds fs ms) = fs.
Proof.
  intros Hl Hf. revert ms Hl. induction Hf as [|f fs Hf _ IH]; intros [|m ms] Hl; try done.
  unfold own_maps, with_fds in *. cbn [zip_with]. rewrite bind_cons, IH by (by injection Hl). cbn [map_fd with_map_fd].
  by rewrite (own_some f Hf).
Qed.

Lemma saved_with_fds fs ms : length fs = length ms -> saved_map <$> with_fds fs ms = saved_map <$> ms.
Proof.
  revert ms. induction fs as [|f fs IH]; intros [|m ms] Hl; try done. unfold with_fds in *. cbn [zip_with fmap list_fmap].
  f_equal. apply IH. by injection Hl.
Qed.

Lemma runs_program {O} p c (o : O) : program_packable p -> program_pinned p -> prog_chain p = c ->
  runs here (bf_program_new_from_pack malloc_fd c dir (obj (program_kvs p))) o
    (fun p' o' l => o' = o /\ program_saved p' = program_saved p /\ own_fds p' ≡ₚ l /\
       (link_hookopts (prog_link p) = None -> link_fd (prog_link p') = -1)).
Proof.
  intros Hp Hpin <- k Hk. destruct (pp_new _ Hp) as [q Hq].
  assert (prog_link q = bf_link_new "bf_link" /\ prog_chain q = prog_chain p) as [Hql Hqc].
  { unfold bf_program_new in Hq. destruct (of_option _ _); [|done]. cbn [rbind] in Hq.
    repeat (match type of Hq with context [rbind ?x _] => destruct x; [|done] end; cbn [rbind] in Hq). by injection Hq as <-. }
  destruct (runs_restore_program p q Hp Hpin Hql k Hk) as ([] & p' & k' & l & E & Hp' & Hx).
  destruct Hp' as (f1 & f2 & f3 & fs & fl & f & -> & -> & Hf1 & Hf2 & Hf3 & Hf & Hfs & Hfs0 & Hfl).
  unfold bf_program_new_from_pack. rewrite Hq, E. eexists _, o, k', _. split_and!; [done|done| | | |apply Hx..].
  - unfold program_saved, restored. cbn. by rewrite saved_with_fds, Hqc.
  - unfold own_fds, owner_program, owned, prog_cmap_fd, prog_pmap_fd, prog_lmap_fd, restored.
    cbn [prog_cmap prog_pmap prog_lmap prog_sets prog_link prog_fd map_fd with_map_fd link_fd].
    by rewrite own_with_fds, (own_some f1), (own_some f2), (own_some f3), (own_some f) by done.
  - done.
Qed.
End Dir.

(** ** Contexts *)

Lemma opendir_at_ok {O} fd name (o : O) k : exists r k', bf_opendir_at OPENDIR_FUEL fd name true (o, k) = (Ok r, (o, k')) /\
  0 <= r /\ (r ∉ fd_open k) /\ fd_open k' = {[r]} ∪ fd_open k /\ dir_at r name k'.
Proof.
  destruct (saved_openat fd name k) as [Hr Hd]. pose proof (fd_opens (SysOpenat fd name) k eq_refl Hr) as [Hn HX].
  unfold OPENDIR_FUEL. cbn [bf_opendir_at]. unfold bf_bpf. destruct (sys_call (SysOpenat fd name) k) as [r k1]. cbn [fst snd] in *.
  rewrite (proj2 (Z.ltb_ge r 0)) by lia. by exists r, k1.
Qed.

Lemma closing_keeps dir chain fd k : dir <> fd -> dir_at dir chain k -> dir_at dir chain (snd (closep fd k)).
Proof. intros Hne Hd. unfold closep. destruct (fd =? -1); [done|]. cbn [snd]. apply saved_stable; [|done]. by intros [= ->]. Qed.

Lemma chain_pindir_ok {O} name (o : O) k : exists fd k', _bf_cgen_get_chain_pindir_fd d name (o, k) = (Ok fd, (o, k')) /\
  0 <= fd /\ (fd ∉ fd_open k) /\ fd_open k' = {[fd]} ∪ fd_open k /\ dir_at fd name k'.
Proof.
  unfold _bf_cgen_get_chain_pindir_fd, bf_ctx_get_pindir_fd, with_dir, bf_opendir.
  pose proof (saved_dir (SysOpenDir (bf_opts_bpffs_path d)) k ltac:(by left; eexists)) as Hr.
  pose proof (fd_opens (SysOpenDir (bf_opts_bpffs_path d)) k eq_refl Hr) as [Hn HX].
  unfold bf_bpf at 1. destruct (sys_call (SysOpenDir _) k) as [r k1]. cbn [fst snd] in *. rewrite (proj2 (Z.ltb_ge r 0)) by lia.
  destruct (opendir_at_ok r "bpfilter" o k1) as (b & k2 & -> & Hb & Hnb & HX2 & _).
  destruct (opendir_at_ok b name o (snd (closep r k2))) as (fd & k3 & -> & Hfd & Hnfd & HX3 & Hd).
  rewrite closep_open, (own_some r Hr), HX2, HX in Hnfd, HX3. cbn [list_to_set] in *.
  exists fd, (snd (closep b k3)). rewrite closep_open, (own_some b Hb), HX3. cbn [list_to_set].
  split_and!; [done|done|set_solver|set_solver|]. apply closing_keeps; [set_solver|done].
Qed.

Lemma runs_pindir {O A} name (m : Z -> st (O * K) A) o Q :
  (forall dir, (dir =? -1) = false -> runs (dir_at dir name) (m dir) o Q) ->
  runs (fun _ => True) (with_dir (_bf_cgen_get_chain_pindir_fd d name) m) o Q.
Proof.
  intros Hm k _. destruct (chain_pindir_ok name o k) as (fd & k1 & E & Hfd & Hn & HX & Hd).
  destruct (Hm fd ltac:(apply Z.eqb_neq; lia) k1 Hd) as (a & o2 & k2 & l & Em & HQ & _ & Hl & Hdl & HX2).
  exists a, o2, (snd (closep fd k2)), l. unfold with_dir. rewrite E, Em, closep_open, (own_some fd Hfd), HX2, HX.
  cbn [list_to_set]. rewrite HX in Hdl. split_and!; [done|done|done|done|set_solver|set_solver].
Qed.

(** What was pinned for a cgen. *)
Definition cgen_pinned (cg : bf_cgen) : Prop :=
  from_option (program_pinned (chain_name (cgen_chain cg))) False (cgen_program cg).

(** The cgen that is read represents the same entry, with descriptors of its
    own. *)
Lemma runs_cgen {O} e cg (o : O) : ready_as e cg -> cgen_packable cg -> cgen_pinned cg ->
  runs (fun _ => True) (bf_cgen_new_from_pack d malloc_fd (obj (cgen_kvs cg))) o
    (fun cg' o' l => o' = o /\ cgen_saved cg' = cgen_saved cg /\ ready_as e cg' /\ own_fds cg' ≡ₚ l).
Proof.
  intros (Hf & Hc & p & Hp & Hpc & Hho & _) [Hfr Hfi Hch Hb Hv Hpp] Hpin. unfold cgen_pinned in Hpin. rewrite Hp in Hpp, Hpin.
  cbn [from_option] in Hpp, Hpin. intros k Hk. unfold bf_cgen_new_from_pack, bf_rpack_kv_enum, bf_rpack_kv_int.
  erewrite rpack_kv_at by reflexivity. rewrite read_int by done. cbn [rbind].
  rewrite (rpack_obj_at _ _ (chain_kvs (cgen_chain cg))) by reflexivity. cbn [rbind]. rewrite read_chain by done. cbn [rbind].
  rewrite <- Hb, Hfr. cbn [cgen_chain]. rewrite Hv. erewrite rpack_node_at by reflexivity.
  rewrite Hp. cbn [opt_obj]. change (bf_rpack_is_nil (obj _)) with false. cbv iota.
  destruct (runs_pindir (chain_name (cgen_chain cg)) (fun dir => bf_program_new_from_pack malloc_fd (cgen_chain cg) dir (obj (program_kvs p)))
    o _ ltac:(intros dir Hdir; apply (runs_program dir _ Hdir p (cgen_chain cg) o Hpp Hpin); by rewrite Hpc, Hc) k I)
    as (p' & o' & k' & l & E & (-> & Hs & Ho & Hl) & Hx).
  rewrite E. eexists _, o, k', l. split_and!; [done|done| | |done|apply Hx..].
  - unfold cgen_saved. cbn [cgen_front cgen_chain cgen_program with_program fmap option_fmap option_map]. by rewrite Hp, Hs.
  - split_and!; [done|done|]. exists p'. cbn [cgen_program with_program]. split; [done|].
    pose proof (f_equal sv_chain Hs) as E1. pose proof (f_equal (fun s => link_hookopts (sv_link s)) Hs) as E2. cbn in E1, E2.
    split_and!; [by rewrite E1|by rewrite E2|]. rewrite <- Hho. exact Hl.
Qed.

Lemma runs_cgens R ctx (ctx0 : bf_ctx) : Forall2 ready_as R ctx -> Forall cgen_packable ctx -> Forall cgen_pinned ctx ->
  runs (fun _ => True) (st_iter (fun n => cg ← bf_cgen_new_from_pack d malloc_fd n; add_cgen_tail cg) (opt_obj cgen_kvs <$> (Some <$> ctx))) ctx0
    (fun _ ctx' l => exists new, ctx' = ctx0 ++ new /\ cgen_saved <$> new = cgen_saved <$> ctx /\ Forall2 ready_as R new /\
       own_fds (O := bf_ctx) new ≡ₚ l).
Proof.
  intros HR. revert ctx0. induction HR as [|e cg R ctx Hr _ IH]; intros ctx0 Hp Hpin; cbn [fmap list_fmap st_iter].
  - apply runs_ret. exists []. split_and!; [by rewrite app_nil_r|done|constructor|done].
  - apply Forall_cons in Hp as [Hp Hps]. apply Forall_cons in Hpin as [Hpin Hpins].
    eapply (runs_bind _ _ _ _ (fun _ ctx' l => exists cg', ctx' = ctx0 ++ [cg'] /\ cgen_saved cg' = cgen_saved cg /\ ready_as e cg' /\
      own_fds cg' ≡ₚ l)).
    + eapply runs_bind; [by apply (runs_cgen e cg)|]. intros cg' o' l (-> & Hs & Hre & Ho). apply runs_modify.
      rewrite app_nil_r. by exists cg'.
    + intros [] ctx1 l (cg' & -> & Hs & Hre & Ho). eapply runs_conseq; [by apply IH|].
      intros [] ctx2 l2 (new & -> & Hss & Hres & Hos). exists (cg' :: new). split_and!.
      * by rewrite <- app_assoc.
      * cbn. by rewrite Hs, Hss.
      * by constructor.
      * unfold own_fds, owner_ctx in *. rewrite bind_cons. by rewrite Ho, Hos.
Qed.

(** ** The daemon *)

Lemma ns_info_ok {O} name dir (o : O) k : exists i k', _bf_ns_info_init name dir (o, k) = (Ok i, (o, k')).
Proof.
  unfold _bf_ns_info_init, bf_bpf. pose proof (saved_dir (SysOpenFileAt dir name) k ltac:(right; by eexists _, _)) as Hr.
  destruct (sys_call (SysOpenFileAt dir name) k) as [fd k1]. cbn [fst] in Hr. rewrite (proj2 (Z.ltb_ge fd 0)) by lia.
  pose proof (saved_stat fd k1) as Hs. destruct (sys_call (SysFstat fd) k1) as [z k2]. cbn [fst] in Hs. subst z.
  rewrite Z.eqb_refl. by eexists _, _.
Qed.

Lemma ns_init_ok {O} path (o : O) k : exists ns k', bf_ns_init path (o, k) = (Ok ns, (o, k')).
Proof.
  unfold bf_ns_init, with_dir, bf_opendir, bf_bpf. pose proof (saved_dir (SysOpenDir path) k ltac:(by left; eexists)) as Hr.
  destruct (sys_call (SysOpenDir path) k) as [fd k1]. cbn [fst] in Hr. rewrite (proj2 (Z.ltb_ge fd 0)) by lia.
  destruct (ns_info_ok "net" fd o k1) as (net & k2 & ->). destruct (ns_info_ok "mnt" fd o k2) as (mnt & k3 & ->).
  by eexists _, _.
Qed.

Lemma unpack_cache opts : unpack_fronts (K := K) 0 (cache_nodes opts) = Ok tt.
Proof. unfold cache_nodes, fronts. cbn [fmap list_fmap unpack_fronts]. by repeat case_match. Qed.
End Kernel.

Section Restart.
Context `{CgenEnv} `{Mpack} `{!MpackSpec} {K : Type} `{FdSys K} `{!CounterSys K} `{!FileSys K} `{!PeerSys K}.
Context (present : string -> string -> Prop) `{!SavedSys present}.
Context (opts : bf_options) (malloc_fd : Z) (no_token : opt_with_bpf_token opts = false).
Context (raws : bf_elfstub_id -> list Z) (stubs : list (bf_elfstub_id * bf_elfstub)) (Hstubs : elfstubs_new raws bf_elfstub_ids = Ok stubs).

Lemma ctx_new_ok pid k : exists ns k', _bf_ctx_new raws opts pid k = (Ok (ctx_with opts ns (-1)), k') /\
  bf_ns_init (ns_dir_path pid) (tt, k) = (Ok ns, (tt, k')).
Proof.
  unfold _bf_ctx_new, ctx_token_new. rewrite no_token. destruct (ns_init_ok present (ns_dir_path pid) tt k) as (ns & k' & E).
  exists ns, k'. rewrite E. cbn [fst snd]. by rewrite Hstubs.
Qed.

Lemma ctx_load_ok d R ctx k : rep R ctx -> Forall cgen_packable ctx -> Forall (cgen_pinned present) ctx ->
  exists ctx' k' l, bf_ctx_load d malloc_fd (obj (ctx_kvs ctx)) k = (Ok ctx', k') /\ cgen_saved <$> ctx' = cgen_saved <$> ctx /\
    rep R ctx' /\ own_fds (O := bf_ctx) ctx' ≡ₚ l /\ NoDup l /\ (list_to_set l : gset Z) ## fd_open k /\
    fd_open k' = fd_open k ∪ list_to_set l.
Proof.
  intros [Hn HR] Hp Hpin. destruct (runs_cgens present d malloc_fd R ctx [] HR Hp Hpin k I)
    as ([] & ctx' & k' & l & E & (new & -> & Hs & Hre & Ho) & _ & Hl & Hd & HX). exists new, k', l.
  unfold bf_ctx_load, _bf_ctx_new_from_pack. unfold_reads. erewrite rpack_kv_at by reflexivity. unfold st_lift, mbind at 1, st_bind at 1.
  rewrite E. by split_and!.
Qed.

Lemma load_saved pid R ctx k : rep R ctx -> Forall cgen_packable ctx -> Forall (cgen_pinned present) ctx ->
  exists data ns ctx' k', save_pack (K := K) opts ctx = Ok data /\
    load_ctx raws malloc_fd opts pid data k = (Ok (ctx_with opts ns (-1), ctx'), k') /\
    cgen_saved <$> ctx' = cgen_saved <$> ctx /\ rep R ctx' /\
    owns (fd_open k) (own_fds (O := bf_ctx) ctx' ++ [ns_fd (ns_net ns); ns_fd (ns_mnt ns)]) (fd_open k').
Proof.
  intros HR Hp Hpin. exists (mpack_write (saved_node opts ctx)). destruct (ctx_new_ok pid k) as (ns & k1 & E1 & Ens).
  apply ns_init_open in Ens as (_ & a & b & Ea & Eb & Ha & Hb & Hab & Hna & Hnb & HX1).
  destruct (ctx_load_ok (ctx_with opts ns (-1)) R ctx k1 HR Hp Hpin) as (ctx' & k2 & l & E2 & Hs & HR' & Ho & Hl & Hd & HX2).
  exists ns, ctx', k2. split_and!; [apply save_pack_ok| |done|apply HR'..|].
  - unfold load_ctx, bf_rpack_new. rewrite mpack_roundtrip. cbn [of_option rbind]. unfold saved_node.
    rewrite (rpack_obj_at _ _ (ctx_kvs ctx)) by reflexivity. cbn [rbind]. rewrite E1, E2. unfold_reads.
    erewrite rpack_kv_at by reflexivity. cbn [rbind]. by rewrite unpack_cache.
  - rewrite Ho, Ea, Eb. rewrite HX1 in Hd, HX2. rewrite HX2. unfold owns. rewrite list_to_set_app_L. cbn [list_to_set].
    split_and!; [set_solver| |set_solver]. apply NoDup_app. split_and!; [done| |].
    + intros x Hx Hx2. apply (Hd x); [by apply elem_of_list_to_set|]. set_solver.
    + apply NoDup_cons. split; [set_solver|apply NoDup_singleton].
Qed.
End Restart.
