(* ===== verification/LiveSpec.v ===== *)
(** Every client is answered: in a kernel that accepts connections and sends
    and writes what it is given ([LiveSys]), a request that reaches the daemon
    has one response, and nothing else goes through the sockets of the daemon
    but the descriptor that a request asks for, unless the daemon ends. *)

From S2P Require Import Prelude Bytes Bpf Helper Hook Hookopts Matcher BfSet Sys Io Map Rule.
From S2P Require Import Chain Printer Pack Serial Program Block BlockExec Fixups Flavors Load Fds Generate Frame.
From S2P Require Import Account Cgen CgenSpec Request Ctx Save Cli Ipt Ruleset CliSpec Daemon Traffic DaemonSpec SaveSpec.

(** The calls a connection depends on. *)
Definition lively (c : syscall) : bool :=
  match c with
  | SysAccept _ | SysPeercred _ | SysOpenDir _ | SysOpenFileAt _ _ | SysOpenFile _ _ => true
  | _ => false
  end.

Class LiveSys (K : Type) `{Sys K} : Prop := {
  sent_whole fd msg k : fst (sys_call (SysSend fd msg) k) = Z.of_nat (length msg);
  live_ok c k : lively c = true -> 0 <= fst (sys_call c k);
  live_stat fd k : fst (sys_call (SysFstat fd) k) = 0;
  live_write fd data k : fst (sys_call (SysWrite fd data) k) = Z.of_nat (length data)
}.

Section Live.
Context `{CgenEnv} `{Mpack} {K : Type} `{Sys K} `{!CounterSys K} `{!FileSys K} `{!PeerSys K} `{!LiveSys K}.
Context (opts : bf_options).

Lemma call_ok {O} c (o : O) (k : K) : lively c = true ->
  exists r k', bf_bpf c (o, k) = (Ok r, (o, k')) /\ r = fst (sys_call c k).
Proof.
  intros Hc. pose proof (live_ok c k Hc) as Hr. unfold bf_bpf.
  destruct (sys_call c k) as [r k1]. cbn [fst snd] in *. rewrite (proj2 (Z.ltb_ge r 0)) by lia. by exists r, k1.
Qed.

(** ** Processing *)

Lemma write_file_ok {T} path data (s : T * K) : fst (bf_write_file path data s) = Ok tt.
Proof.
  destruct s as [o k]. unfold bf_write_file, with_dir. destruct (call_ok (SysOpenFile path true) o k eq_refl) as (fd & k1 & -> & _).
  pose proof (live_write fd data k1) as Hw. unfold mbind, st_bind, bf_bpf. destruct (sys_call (SysWrite fd data) k1) as [r k2].
  cbn [fst] in Hw. subst r. rewrite (proj2 (Z.ltb_ge _ 0)) by lia. by rewrite Z.eqb_refl.
Qed.

Lemma save_ok path s : fst (_bf_save (K := K) opts path s) = Ok tt.
Proof.
  destruct s as [ctx k]. unfold _bf_save, mbind, st_bind, obj_get. destruct (bf_ctx_is_empty ctx); [done|].
  unfold st_lift. rewrite save_pack_ok. apply write_file_ok.
Qed.

Lemma save_obj path ctx (k : K) : fst (snd (_bf_save opts path (ctx, k))) = ctx.
Proof.
  unfold _bf_save, mbind, st_bind, obj_get. destruct (bf_ctx_is_empty ctx); [done|].
  unfold st_lift. destruct (save_pack opts ctx) as [data|e]; [|done]. unfold bf_write_file, with_dir.
  destruct (call_ok (SysOpenFile path true) ctx k eq_refl) as (fd & k1 & -> & _).
  unfold mbind, st_bind, bf_bpf. destruct (sys_call (SysWrite fd data) k1) as [r k2].
  destruct (r <? 0); [done|]. by destruct (negb (r =? Z.of_nat (length data))).
Qed.

Lemma answer_crash d request s e s' : answer (K := K) d request s = (Err e, s') -> e = - BF_CRASH.
Proof.
  unfold answer. destruct (bf_front_ops_get (bf_request_front request)) as [ops|e1] eqn:Ef.
  - destruct (request_handler ops d request s) as [[x|e1] s1]; [done|]. destruct (Z.eqb_spec e1 (- BF_CRASH)); congruence.
  - intros [= <- _]. unfold bf_front_ops_get in Ef. by destruct (bf_request_front request); inversion Ef.
Qed.

Lemma process_crash d request s e s' : _bf_process_request (K := K) opts d request s = (Err e, s') -> e = - BF_CRASH.
Proof.
  unfold _bf_process_request. do 3 (destruct (negb _); [done|]). unfold mbind, st_bind.
  destruct (answer d request s) as [[response|e1] s1] eqn:Ea; [|intros [= <- _]; by eapply answer_crash].
  destruct (_ && _); [|done]. pose proof (save_ok ctx_path s1) as Hs.
  destruct (_bf_save opts ctx_path s1) as [r s2]. cbn [fst] in Hs. by subst r.
Qed.

(** ** Connections *)

Lemma ns_info_live {O} name dir (o : O) (k : K) : exists i k', _bf_ns_info_init name dir (o, k) = (Ok i, (o, k')).
Proof.
  unfold _bf_ns_info_init. destruct (call_ok (SysOpenFileAt dir name) o k eq_refl) as (fd & k1 & -> & _).
  pose proof (live_stat fd k1) as Hz. destruct (sys_call (SysFstat fd) k1) as [z k2]. cbn [fst] in Hz. subst z.
  rewrite Z.eqb_refl. by eexists _, k2.
Qed.

Lemma ns_init_live {O} path (o : O) (k : K) : exists ns k', bf_ns_init path (o, k) = (Ok ns, (o, k')).
Proof.
  unfold bf_ns_init, with_dir, bf_opendir. destruct (call_ok (SysOpenDir path) o k eq_refl) as (fd & k1 & -> & _).
  destruct (ns_info_live "net" fd o k1) as (net & k2 & ->). destruct (ns_info_live "mnt" fd o k2) as (mnt & k3 & ->).
  by eexists _, _.
Qed.

Context `{!RecordSys K} `{!TrafficSys K}.

Lemma send_ok {O} fd msgs (o : O) (k : K) : exists k', send_msgs fd msgs (o, k) = (Ok tt, (o, k')) /\
  traffic k' = traffic k ++ (MsgOut fd <$> msgs).
Proof.
  revert k. induction msgs as [|msg msgs IH]; intros k; [exists k; by rewrite app_nil_r|].
  pose proof (sent_whole fd msg k) as Hr. pose proof (traffic_send fd msg k) as Hs.
  unfold send_msgs. cbn [st_iter]. unfold mbind, st_bind, bf_bpf. destruct (sys_call (SysSend fd msg) k) as [r k1]. cbn [fst snd] in Hr, Hs.
  subst r. cbn zeta in Hs. rewrite (proj2 (Z.ltb_ge _ 0)) in * by lia. rewrite Nat2Z.id, take_ge in Hs by done.
  rewrite Z.eqb_refl. destruct (IH k1) as (k2 & E & Hs2). exists k2.
  split; [exact E|]. rewrite Hs2, Hs, <- app_assoc. done.
Qed.

(** The messages of a connection, after its request: the descriptor that a
    request is for, when it succeeds, and the response. *)
Definition answers (request : bf_request) (client : Z) (ctx : bf_ctx) (response : bf_response) (l : list message) : Prop :=
  if wants_fd opts request && (bf_response_status response =? 0)
  then exists fd, asked_fd ctx request = Some fd /\ l = FdOut client fd :: (MsgOut client <$> bf_send_response response)
  else l = MsgOut client <$> bf_send_response response.

(** The exchange with a client whose request can be read. *)
Lemma exchange_answers d client ns request later ctx (k : K) r ctx' k' :
  sys_received client k = bf_send_request request ++ later -> request_sendable request ->
  exchange opts d client ns (ctx, k) = (r, (ctx', k')) ->
  r = Err (- BF_CRASH) \/ r = Ok tt /\ exists response l,
    fst (_bf_process_request opts d (bf_request_set_fd (bf_request_set_ns (request_sent request) ns) client)
           (ctx, snd (sys_call (SysRecv client) k))) = Ok response /\
    fst (snd (_bf_process_request opts d (bf_request_set_fd (bf_request_set_ns (request_sent request) ns) client)
           (ctx, snd (sys_call (SysRecv client) k)))) = ctx' /\
    answers request client ctx response l /\
    traffic k' = traffic k ++ MsgIn client (bf_send_request request ++ later) :: l.
Proof.
  intros Hr Hq. unfold exchange. unfold mbind at 1, st_bind at 1, receive. pose proof (traffic_recv client k) as Ht.
  rewrite Hr in Ht |- *. rewrite recv_send_request by done. cbn [rbind fst].
  set (k1 := snd (sys_call (SysRecv client) k)) in *. unfold mbind, st_bind.
  destruct (_bf_process_request _ _ _ (ctx, k1)) as [[response|e] [ctx2 k2]] eqn:Ep.
  - pose proof (process_traffic opts d _ _ _ _ _ _ Ep) as Hp.
    destruct (send_ok client (bf_send_response response) ctx2 k2) as (k3 & -> & Hs). intros [= <- <- <-].
    right. split; [done|]. exists response. unfold processed, succeeds in Hp. unfold answers.
    change (wants_fd opts (bf_request_set_fd (bf_request_set_ns (request_sent request) ns) client)) with (wants_fd opts request) in Hp.
    destruct (wants_fd opts request && (bf_response_status response =? 0)).
    + destruct Hp as (fd & Hfd & Hp). eexists. split_and!; [done|done|by exists fd|]. by rewrite Hs, Hp, Ht, <- !app_assoc.
    + eexists. split_and!; [done|done|done|]. by rewrite Hs, Hp, Ht, <- app_assoc.
  - intros [= <- <- <-]. left. by rewrite (process_crash _ _ _ _ _ Ep).
Qed.

Lemma serve_answers d fd request later ctx (k : K) r ctx' k' :
  (forall k1, sys_received (fst (sys_call (SysAccept fd) k)) k1 = bf_send_request request ++ later) -> request_sendable request ->
  serve opts d fd (ctx, k) = (r, (ctx', k')) ->
  r = Err (- BF_CRASH) \/ r = Ok tt /\ exists ns response k1 k2 l,
    _bf_process_request opts d (bf_request_set_fd (bf_request_set_ns (request_sent request) ns) (fst (sys_call (SysAccept fd) k))) (ctx, k1) =
      (Ok response, (ctx', k2)) /\
    traffic k1 = traffic k ++ [MsgIn (fst (sys_call (SysAccept fd) k)) (bf_send_request request ++ later)] /\
    answers request (fst (sys_call (SysAccept fd) k)) ctx response l /\
    traffic k' = traffic k ++ MsgIn (fst (sys_call (SysAccept fd) k)) (bf_send_request request ++ later) :: l.
Proof.
  intros Hr Hq. unfold serve, with_dir. pose proof (calm_call (SysAccept fd) eq_refl ctx k) as Ht1.
  destruct (call_ok (SysAccept fd) ctx k eq_refl) as (client & k1 & E1 & Ec). rewrite E1 in *. rewrite <- Ec in *.
  unfold mbind, st_bind, peer_pid. unfold mbind, st_bind. pose proof (calm_call (SysPeercred client) eq_refl ctx k1) as Ht2.
  destruct (call_ok (SysPeercred client) ctx k1 eq_refl) as (z & k2 & E2 & _). rewrite E2 in *.
  unfold read_pid, with_ns. pose proof (calm_ns_init (ns_dir_path (sys_pid client k2)) ctx k2) as Ht3.
  destruct (ns_init_live (ns_dir_path (sys_pid client k2)) ctx k2) as (ns & k3 & E3). rewrite E3 in *. cbn [fst snd] in Ht1, Ht2, Ht3.
  destruct (exchange opts d client ns (ctx, k3)) as [x [ctx4 k4]] eqn:Ex. intros [= <- <- <-].
  apply (exchange_answers d client ns request later) in Ex as [->|(-> & response & l & Ep & Ec4 & Ha & Ht4)]; [by left| |apply Hr|done].
  right. split; [done|]. destruct (_bf_process_request _ _ _ _) as [y [ctx5 k5]] eqn:Epr in Ep, Ec4. cbn [fst snd] in Ep, Ec4. subst y ctx5.
  exists ns, response, (snd (sys_call (SysRecv client) k3)), k5, l. rewrite still_closep, traffic_ns_clean.
  split_and!; [done| |done|congruence]. rewrite traffic_recv, Hr. congruence.
Qed.
End Live.
