(* ===== verification/ClientSpec.v ===== *)
(** The client library and the daemon, end to end: what a client sets is what
    it gets.

    The peer of the client is the daemon itself, as [_bf_run] drives it: it
    receives the request's messages, processes the request for the client's
    namespaces and socket, and sends the messages of the response. *)

From S2P Require Import Prelude Bytes Bpf Helper Hook Hookopts Matcher BfSet Sys Io Map Rule.
From S2P Require Import Chain Printer Pack Serial Program Block BlockExec Fixups Flavors Load Fds Generate Frame.
From S2P Require Import Account Cgen CgenSpec Request Client Ctx Save Cli Ipt Ruleset CliSpec Daemon DaemonSpec SaveSpec.
From S2P Require Import LiveSpec.

(** * Documents *)

Definition hookopts_node (ho : option bf_hookopts) : mnode := opt_obj hookopts_kvs ho.

Definition chain_set_kvs (x : bf_chain * option bf_hookopts) : list (string * mnode) :=
  [("chain", obj (chain_kvs (fst x))); ("hookopts", hookopts_node (snd x))]%string.

Definition chain_get_kvs (x : bf_chain * option bf_hookopts * list bf_counter) : list (string * mnode) :=
  [("chain", obj (chain_kvs (fst (fst x)))); ("hookopts", hookopts_node (snd (fst x)));
   ("counters", MArray (opt_obj counter_kvs <$> (Some <$> snd x)))]%string.

#[local] Opaque wpack_add.

Lemma chain_pack_adds c pack : wopen pack -> chain_pack c pack = wpack_adds (kvs [("chain"%string, obj (chain_kvs c))]) pack.
Proof. intros Ho. unfold chain_pack. rewrite chain_packs by apply wopen_open. by rewrite wpack_object. Qed.

Lemma hookopts_pack_adds ho pack : wopen pack -> hookopts_pack ho pack = wpack_adds (kvs [("hookopts"%string, hookopts_node ho)]) pack.
Proof.
  intros Ho. destruct ho as [ho|]; [|done]. unfold hookopts_pack. rewrite hookopts_packs by apply wopen_open. by rewrite wpack_object.
Qed.

Lemma chain_set_packs : packs (fun x => chain_set_pack (fst x) (snd x)) chain_set_kvs.
Proof.
  intros [c ho] pack Ho. unfold chain_set_pack. cbn [fst snd]. by rewrite chain_pack_adds, hookopts_pack_adds by wopen_tac.
Qed.

Lemma name_packs : packs (fun name => bf_wpack_kv_str "name" name) (fun name => [("name"%string, MStr name)]).
Proof. done. Qed.

Lemma chain_get_packs : packs (fun x => chain_get_pack (fst (fst x)) (snd (fst x)) (snd x)) chain_get_kvs.
Proof.
  intros [[c ho] cs] pack Ho. cbn [fst snd].
  change (chain_get_pack c ho cs pack) with (bf_wpack_kv_list "counters" bf_counter_pack (Some <$> cs) (hookopts_pack ho (chain_pack c pack))).
  rewrite chain_pack_adds, hookopts_pack_adds by wopen_tac. by rewrite (wpack_kv_list_adds _ _ counter_kvs) by (exact counter_packs || wopen_tac).
Qed.

Definition options_packable (ho : option bf_hookopts) : Prop := from_option hookopts_packable True ho.

Lemma read_options ho : options_packable ho ->
  (if bf_rpack_is_nil (hookopts_node ho) then Ok None
   else let! x := bf_hookopts_new_from_pack (hookopts_node ho) in Ok (Some x)) = Ok ho.
Proof. destruct ho as [ho|]; [|done]. intros Hp. cbn [hookopts_node opt_obj bf_rpack_is_nil obj]. by rewrite read_hookopts. Qed.

Lemma parse_chain_set x : chain_packable (fst x) -> chain_built (fst x) -> options_packable (snd x) ->
  parse_entry (obj (chain_set_kvs x)) = Ok x.
Proof.
  intros Hc Hb Ho. unfold parse_entry, parse_chain, parse_hookopts.
  rewrite (rpack_obj_at _ _ (chain_kvs (fst x))) by reflexivity. cbn [rbind]. rewrite read_chain by done. cbn [rbind].
  erewrite rpack_node_at by reflexivity. cbn [rbind]. rewrite read_options by done. cbn [rbind]. rewrite <- Hb. by destruct x.
Qed.

Lemma parse_chain_get x : chain_packable (fst (fst x)) -> chain_built (fst (fst x)) -> options_packable (snd (fst x)) ->
  Forall counter_packable (snd x) -> read_chain_get (obj (chain_get_kvs x)) = Ok x.
Proof.
  intros Hc Hb Ho Hcs. unfold read_chain_get, read_hookopts_kv.
  rewrite (rpack_obj_at _ _ (chain_kvs (fst (fst x)))) by reflexivity. cbn [rbind]. rewrite read_chain by done. cbn [rbind].
  erewrite rpack_node_at by reflexivity. cbn [rbind]. rewrite read_options by done. cbn [rbind]. unfold_reads.
  erewrite rpack_kv_at by reflexivity. cbn [rbind]. unfold read_counters.
  rewrite read_some by (eapply Forall_impl; [exact Hcs|apply Serial.read_counter]). cbn [rbind]. rewrite <- Hb. by destruct x as [[]].
Qed.

(** * The daemon as a peer *)

Section Peer.
Context `{CgenEnv} `{Mpack} `{!MpackSpec} {K : Type} `{FdSys K} `{!CounterSys K} `{!FileSys K} `{!LiveSys K}.
Context (opts : bf_options) (d : bf_daemon) (ns : bf_ns) (client_fd : Z).

Definition served_request (request : bf_request) : bf_request :=
  bf_request_set_fd (bf_request_set_ns (request_sent request) ns) client_fd.

Definition daemon_peer (msgs : list (list Z)) : st (bf_ctx * K) (list packet) :=
  x ← st_lift (bf_recv_request msgs);
  response ← _bf_process_request opts d (bf_request_set_fd (bf_request_set_ns (fst x) ns) client_fd);
  mret ((fun msg => (msg, None)) <$> bf_send_response response).

(** The client receives the response the daemon made. *)
Lemma send_answered request s response s' : request_sendable request ->
  _bf_process_request opts d (served_request request) s = (Ok response, s') -> response_sendable response ->
  bf_send daemon_peer request s = (Ok response, s').
Proof.
  intros Hq E Hp. unfold bf_send, daemon_peer, mbind, st_bind, st_lift.
  rewrite <- (app_nil_r (bf_send_request request)), recv_send_request by done. unfold served_request in E. cbn [fst]. rewrite E.
  unfold mret, st_ret. rewrite <- list_fmap_compose. cbn [compose fst]. rewrite list_fmap_id.
  by rewrite <- (app_nil_r (bf_send_response response)), recv_send_response by done.
Qed.

Context (cli_on : bf_opts_is_front_enabled opts BF_FRONT_CLI = true).

(** A command that succeeds is answered, and the context saved. *)
Lemma process_cli request ctx k r ctx1 k1 : bf_request_front request = BF_FRONT_CLI -> cmd_known (request_cmd request) = true ->
  cli_command d request (ctx, k) = (Ok r, (ctx1, k1)) ->
  exists k2, _bf_process_request opts d request (ctx, k) = (Ok (default (bf_response_new_success []) r), (ctx1, k2)).
Proof.
  intros Hf Hc E. unfold _bf_process_request. rewrite Hc, Hf, cli_on. cbn [front_known bf_front_to_Z negb Z.ltb Z.leb orb].
  change (front_known BF_FRONT_CLI) with true. cbn [negb]. unfold mbind, st_bind.
  assert (answer d request (ctx, k) = (Ok (default (bf_response_new_success []) r), (ctx1, k1))) as ->.
  { unfold answer. rewrite Hf. cbn [bf_front_ops_get request_handler cli_front]. unfold _bf_cli_request_handler. rewrite E. by destruct r. }
  destruct (_ && _); [|by exists k1].
  pose proof (save_ok (K := K) opts ctx_path (ctx1, k1)) as Hs. pose proof (save_obj opts ctx_path ctx1 k1) as Ho.
  destruct (_bf_save opts ctx_path (ctx1, k1)) as [x [ctx2 k2]]. cbn [fst snd] in Hs, Ho. subst x ctx2. by exists k2.
Qed.
End Peer.

(** * Getting a chain *)

(** A kernel in which the counters' maps can be read. *)
Class CounterLive (K : Type) `{Sys K} : Prop := {
  lookup_ok fd key k : 0 <= fst (sys_call (SysMapLookupElem fd key) k)
}.

Section Get.
Context `{CgenEnv} `{Mpack} `{!MpackSpec} {K : Type} `{FdSys K} `{!CounterSys K} `{!CounterLive K}.
Context (d : bf_daemon).

Definition kernel_counter (c : bf_counter) : Prop := exists fd idx (k : K), c = sys_counter fd idx k.

Definition counter_index (n : nat) (idx : Z) : Prop := 0 <= idx < Z.of_nat n \/ idx = BF_COUNTER_POLICY \/ idx = BF_COUNTER_ERRORS.

Lemma get_counter_ok cg p idx (k : K) : cgen_program cg = Some p -> counter_index (length (chain_rules (cgen_chain cg))) idx ->
  exists c k', bf_cgen_get_counter idx (cg, k) = (Ok c, (cg, k')) /\ kernel_counter c.
Proof.
  intros Hp Hi. unfold bf_cgen_get_counter, mbind, st_bind, obj_get, st_lift. cbv zeta.
  assert (exists i, (if idx =? BF_COUNTER_POLICY then Ok (Z.of_nat (length (chain_rules (cgen_chain cg))))
    else if idx =? BF_COUNTER_ERRORS then Ok (Z.of_nat (length (chain_rules (cgen_chain cg))) + 1)
    else if (idx <? 0) || (Z.of_nat (length (chain_rules (cgen_chain cg))) <=? idx) then Err (- EINVAL) else Ok idx) = Ok i) as [i ->].
  { destruct Hi as [Hi|[-> | ->]]; [|by eexists..].
    rewrite (proj2 (Z.eqb_neq idx BF_COUNTER_POLICY)), (proj2 (Z.eqb_neq idx BF_COUNTER_ERRORS)) by (unfold BF_COUNTER_POLICY, BF_COUNTER_ERRORS; lia).
    rewrite (proj2 (Z.ltb_ge _ _)), (proj2 (Z.leb_gt _ _)) by lia. by eexists. }
  unfold on_program. rewrite Hp. unfold bf_program_get_counter, mbind, st_bind, obj_get, bf_bpf_map_lookup_elem, bf_bpf.
  pose proof (lookup_ok (prog_cmap_fd p) (le_split 4 i) k) as Hr. destruct (sys_call (SysMapLookupElem _ _) k) as [r k1]. cbn [fst] in Hr.
  rewrite (proj2 (Z.ltb_ge r 0)) by lia. unfold read_counter. eexists _, k1. split; [|by eexists _, _, _].
  do 2 f_equal. unfold with_program. rewrite <- Hp. by destruct cg.
Qed.

Lemma get_counters_ok cg p idxs (k : K) : cgen_program cg = Some p ->
  Forall (counter_index (length (chain_rules (cgen_chain cg)))) idxs ->
  exists cs k', get_counters idxs (cg, k) = (Ok cs, (cg, k')) /\ length cs = length idxs /\ Forall kernel_counter cs.
Proof.
  intros Hp Hi. revert k. induction Hi as [|idx idxs Hi _ IH]; intros k; [by exists [], k|]. cbn [get_counters].
  destruct (get_counter_ok cg p idx k Hp Hi) as (c & k1 & E1 & Hc). destruct (IH k1) as (cs & k2 & E2 & Hl & Hcs).
  unfold mbind, st_bind. rewrite E1, E2. exists (c :: cs), k2. cbn. split_and!; [done|by rewrite Hl|by constructor].
Qed.

Lemma all_indices n : Forall (counter_index n) (counter_indices n) /\ length (counter_indices n) = (n + 2)%nat.
Proof.
  unfold counter_indices. rewrite length_app, length_fmap, length_seq. split; [|done]. apply Forall_app. split.
  - apply Forall_fmap, Forall_forall. intros i Hi%elem_of_seq. left. cbn. lia.
  - repeat constructor; right; auto.
Qed.

Definition name_node (name : string) : mnode := obj [("name", MStr name)]%string.

Lemma chain_get_ok request R e ctx (k : K) : rep R ctx -> e ∈ R -> request_cmd request = BF_REQ_CHAIN_GET ->
  bf_rpack_new (bf_request_data request) = Ok (name_node (e_name e)) -> has_nul (e_name e) = false ->
  exists cs k', cli_command d request (ctx, k) =
      (Ok (Some (bf_response_new_success (mpack_write (obj (chain_get_kvs (e_chain e, e_hook e, cs)))))), (ctx, k')) /\
    length cs = (length (chain_rules (e_chain e)) + 2)%nat /\ Forall kernel_counter cs.
Proof.
  intros [Hn HR] He Hc Hdata Hnul. unfold cli_command. rewrite Hc. unfold _bf_cli_chain_get.
  unfold request_pack. rewrite Hdata. unfold mbind at 1, st_bind at 1, st_lift at 1.
  unfold parse_name, name_node. unfold_reads. erewrite rpack_kv_at by reflexivity. rewrite read_str by done.
  unfold mbind at 1, st_bind at 1, st_lift at 1. unfold mbind at 1, st_bind at 1, find_cgen at 1. rewrite (get_cgen_find R ctx _ HR).
  destruct (find_name (names R) (e_name e)) as [i|] eqn:Ef; [|by apply find_name_none in Ef; destruct Ef; apply list_elem_of_fmap_2].
  apply find_name_some, list_lookup_fmap_Some in Ef as (e' & Ee & Hi).
  assert (e' = e) as ->.
  { apply list_elem_of_lookup in He as [j Hj]. assert (i = j) as ->; [|congruence].
    apply (NoDup_lookup (names R) i j (e_name e)); [done| |]; unfold names; rewrite list_lookup_fmap, ?Hi, ?Hj; cbn; congruence. }
  destruct (Forall2_lookup_l _ _ _ _ _ HR Hi) as (cg & Hcg & Hf & Hch & p & Hp & Hpc & Hho & _).
  unfold of_option. unfold mbind at 1, st_bind at 1. unfold on_cgen. rewrite Hcg. unfold bf_cgen_get_counters.
  destruct (all_indices (length (chain_rules (cgen_chain cg)))) as [Hall Hlen].
  destruct (get_counters_ok cg p _ k Hp Hall) as (cs & k1 & E1 & Hl & Hcs).
  unfold mbind, st_bind, obj_get. rewrite E1. rewrite (list_insert_id ctx i cg Hcg). rewrite Hcg.
  rewrite (list_insert_id ctx i cg Hcg). rewrite Hcg. unfold Cli.link_options, on_program. rewrite Hp. unfold mbind, st_bind, obj_get, mret, st_ret.
  assert (with_program (Some p) cg = cg) as -> by (unfold with_program; rewrite <- Hp; by destruct cg).
  rewrite (list_insert_id ctx i cg Hcg). unfold bf_response_new_from_pack, bf_wpack_bytes.
  destruct (get_data_packs _ _ (cgen_chain cg, link_hookopts (prog_link p), cs) chain_get_packs) as [Hv Hd]. cbn [fst snd] in Hv, Hd.
  rewrite Hv, Hd. cbn [negb rbind]. unfold st_lift. exists cs, k1. rewrite Hch, Hho. split_and!; [done|by rewrite Hl, Hlen, Hch|done].
Qed.
End Get.

(** * Setting, then getting *)

Lemma step_chain_set `{Mpack} request R R' : request_cmd request = BF_REQ_CHAIN_SET -> rs_step request R (Ok None) R' ->
  exists c ho, req_entry request = Ok (c, ho) /\ R' = remove (chain_name c) R ++ [cli_entry (c, ho)].
Proof.
  intros Hc Hs. inversion Hs; try congruence;
    try (match goal with Hin : request_cmd _ ∈ _ |- _ => rewrite Hc in Hin; set_solver end). eauto.
Qed.

Section EndToEnd.
Context `{CgenEnv} `{Mpack} `{!MpackSpec} {K : Type} `{FdSys K} `{!CounterSys K} `{!FileSys K} `{!LiveSys K} `{!CounterLive K}.
Context (opts : bf_options) (d : bf_daemon) (ns : bf_ns) (client_fd : Z).

Definition set_request (c : bf_chain) (ho : option bf_hookopts) : bf_request :=
  bf_request_new BF_FRONT_CLI BF_REQ_CHAIN_SET (mpack_write (obj (chain_set_kvs (c, ho)))).

Definition get_request (name : string) : bf_request :=
  bf_request_new BF_FRONT_CLI BF_REQ_CHAIN_GET (mpack_write (name_node name)).

(** A chain that can travel both ways, with the counters of the kernel. *)
Record exchangeable (c : bf_chain) (ho : option bf_hookopts) : Prop := mk_exchangeable {
  ex_chain : chain_packable c;
  ex_built : chain_built c;
  ex_options : options_packable ho;
  ex_set : request_sendable (set_request c ho);
  ex_get : request_sendable (get_request (chain_name c));
  ex_counters cs : Forall (kernel_counter (K := K)) cs -> length cs = (length (chain_rules c) + 2)%nat ->
    Forall counter_packable cs /\
    response_sendable (bf_response_new_success (mpack_write (obj (chain_get_kvs (c, ho, cs)))))
}.

Context (cli_on : bf_opts_is_front_enabled opts BF_FRONT_CLI = true).

Abbreviation peer := (daemon_peer (K := K) opts d ns client_fd).

Lemma chain_set_sends c ho s : bf_chain_set peer c ho s =
  (response ← bf_send peer (set_request c ho); st_lift (status response)) s.
Proof.
  unfold bf_chain_set, bf_send_pack, bf_request_new_from_pack, bf_wpack_bytes.
  destruct (get_data_packs _ _ (c, ho) chain_set_packs) as [Hv Hd]. cbn [fst snd] in Hv, Hd. by rewrite Hv, Hd.
Qed.

Lemma chain_get_sends name s : bf_chain_get peer name s =
  (response ← bf_send peer (get_request name); st_lift (status response) ;;
   root ← st_lift (bf_rpack_new (bf_response_data response)); st_lift (read_chain_get root)) s.
Proof.
  unfold bf_chain_get, bf_send_pack, bf_request_new_from_pack, bf_wpack_bytes.
  destruct (get_data_packs _ _ name name_packs) as [Hv Hd]. unfold name_pack. by rewrite Hv, Hd.
Qed.

(** The chain that was set is in the ruleset. *)
Lemma chain_set_there G R c ho ctx (k : K) ctx1 k1 : rep R ctx -> owns G (own_fds (O := bf_ctx) ctx) (fd_open k) ->
  chain_packable c -> chain_built c -> options_packable ho ->
  cli_command d (served_request ns client_fd (set_request c ho)) (ctx, k) = (Ok None, (ctx1, k1)) ->
  exists R1, rep R1 ctx1 /\ cli_entry (c, ho) ∈ R1.
Proof.
  intros HR HX Hc Hb Ho E. set (request := served_request ns client_fd (set_request c ho)) in *.
  pose proof (handled_command (K := K) d request R G (ctx, k) _ (ctx1, k1) (conj HR HX) E) as Hh. cbn in Hh.
  destruct Hh as [(R1 & Hs & HR1) _]. exists R1. split; [done|].
  assert (req_entry request = Ok (c, ho)) as Hreq.
  { unfold req_entry, req_root, bf_rpack_new. change (bf_request_data request) with (mpack_write (obj (chain_set_kvs (c, ho)))).
    rewrite mpack_roundtrip. cbn [of_option rbind]. by apply (parse_chain_set (c, ho)). }
  destruct (step_chain_set request R R1 eq_refl Hs) as (c1 & ho1 & Hreq1 & ->). rewrite Hreq in Hreq1. injection Hreq1 as <- <-.
  apply elem_of_app. right. by left.
Qed.

Lemma set_then_get G R c ho ctx (k : K) ctx1 k1 : rep R ctx -> owns G (own_fds (O := bf_ctx) ctx) (fd_open k) ->
  exchangeable c ho ->
  cli_command d (served_request ns client_fd (set_request c ho)) (ctx, k) = (Ok None, (ctx1, k1)) ->
  exists k2 k3 cs, bf_chain_set peer c ho (ctx, k) = (Ok tt, (ctx1, k2)) /\
    bf_chain_get peer (chain_name c) (ctx1, k2) = (Ok (c, ho, cs), (ctx1, k3)) /\
    length cs = (length (chain_rules c) + 2)%nat /\ Forall (kernel_counter (K := K)) cs.
Proof.
  intros HR HX [Hc Hb Ho Hset Hget Hcs] E.
  destruct (chain_set_there G R c ho ctx k ctx1 k1 HR HX Hc Hb Ho E) as (R1 & HR1 & Hin).
  destruct (process_cli opts d cli_on (served_request ns client_fd (set_request c ho)) ctx k None ctx1 k1 eq_refl eq_refl E) as [k2 E2].
  destruct (chain_get_ok d (served_request ns client_fd (get_request (chain_name c))) R1 (cli_entry (c, ho)) ctx1 k2 HR1 Hin eq_refl)
    as (cs & k3 & E3 & Hl & Hks); [unfold bf_rpack_new; cbn; by rewrite mpack_roundtrip|apply cp_name, Hc|].
  destruct (Hcs cs Hks Hl) as [Hcp Hresp].
  destruct (process_cli opts d cli_on (served_request ns client_fd (get_request (chain_name c))) ctx1 k2 _ ctx1 k3 eq_refl eq_refl E3) as [k4 E4].
  exists k2, k4, cs. split_and!; [| |done|done].
  - rewrite chain_set_sends. unfold mbind, st_bind. by rewrite (send_answered _ _ _ _ _ _ _ _ Hset E2).
  - rewrite chain_get_sends. unfold mbind, st_bind. rewrite (send_answered _ _ _ _ _ _ _ _ Hget E4) by done.
    unfold st_lift. change (status _) with (Ok (A := unit) tt). cbv iota.
    change (bf_rpack_new _) with (bf_rpack_new (mpack_write (obj (chain_get_kvs (c, ho, cs))))).
    unfold bf_rpack_new. rewrite mpack_roundtrip. cbn [of_option]. by rewrite (parse_chain_get (c, ho, cs)).
Qed.
End EndToEnd.
