(* ===== verification/Typed.v ===== *)
(** The type of what the daemon keeps: a chain whose numbers have the width of
    their fields, whose strings are those of C, whose sets are well formed and
    whose flags and indices are those of its rules.  Whatever a client sends,
    what is read from a document has that type, or is refused. *)

From S2P Require Import Prelude Bytes Bpf Helper Hook Hookopts Matcher BfSet Sys Io Map Rule.
From S2P Require Import Chain Printer Pack Serial Program Block BlockExec Fixups Flavors Load Fds Generate Frame.
From S2P Require Import Account Cgen CgenSpec Request Ctx Save Cli Ipt Ruleset CliSpec Daemon DaemonSpec.

(** * Types *)

Record chain_typed (c : bf_chain) : Prop := mk_chain_typed {
  ct_packable : chain_packable c;
  ct_built : chain_built c;
  ct_wf : chain_wf c
}.

Definition options_typed (ho : option bf_hookopts) : Prop := from_option hookopts_packable True ho.

Record entry_typed (e : entry) : Prop := mk_entry_typed {
  et_chain : chain_typed (e_chain e);
  et_hook : options_typed (e_hook e)
}.

(** * Reading *)

(** The steps of a read that succeeded, without those that failed. *)
Ltac read_steps H :=
  repeat match type of H with
         | rbind ?e _ = Ok _ => let E := fresh "E" in destruct e eqn:E; cbn [rbind] in H; [|discriminate H]
         end.

Section Reads.
Lemma rpack_kv_ok {A} (P : A -> Prop) (read : mnode -> res A) node key x :
  (forall n y, read n = Ok y -> P y) -> rpack_kv read node key = Ok x -> P x.
Proof. unfold rpack_kv. intros HP E. read_steps E. by eapply HP. Qed.

Lemma rpack_each_ok {A} (P : A -> Prop) (read : mnode -> res A) l xs :
  (forall n y, read n = Ok y -> P y) -> rpack_each read l = Ok xs -> Forall P xs.
Proof.
  intros HP. revert xs. induction l as [|n l IH]; intros xs E; cbn [rpack_each] in E; [by injection E as <-|].
  read_steps E. injection E as <-. constructor; [by eapply HP|by apply IH].
Qed.

Lemma ranged_ok lo hi v x : ranged lo hi v = Ok x -> lo <= x <= hi.
Proof. unfold ranged. destruct (_ && _) eqn:E; [|done]. intros [= <-]. apply andb_true_iff in E. lia. Qed.

Lemma rpack_int_ok n x : bf_rpack_int n = Ok x -> int_ok x.
Proof. unfold bf_rpack_int, int_ok. destruct n; try done; intros E%ranged_ok; unfold INT_MAX in E; lia. Qed.

Lemma kv_int_ok node key x : bf_rpack_kv_int node key = Ok x -> int_ok x.
Proof. exact (rpack_kv_ok _ _ _ _ _ rpack_int_ok). Qed.

Lemma rpack_unsigned_ok hi n x : rpack_unsigned hi n = Ok x -> 0 <= x <= hi.
Proof. destruct n; try done. apply ranged_ok. Qed.

Lemma rpack_uint_ok n x : bf_rpack_uint n = Ok x -> 0 <= x < 2 ^ 32.
Proof. intros E%rpack_unsigned_ok. unfold UINT32_MAX in E. lia. Qed.

Lemma kv_unsigned_ok hi node key x : rpack_kv (rpack_unsigned hi) node key = Ok x -> 0 <= x < hi + 1.
Proof. apply (rpack_kv_ok (fun y => 0 <= y < hi + 1)). intros n y Hy%rpack_unsigned_ok. lia. Qed.

Lemma rpack_str_ok n s : bf_rpack_str n = Ok s -> has_nul s = false.
Proof. destruct n; try done. cbn. destruct (has_nul _) eqn:E; [done|]. by intros [= <-]. Qed.

Lemma kv_str_ok node key s : bf_rpack_kv_str node key = Ok s -> has_nul s = false.
Proof. exact (rpack_kv_ok _ _ _ _ _ rpack_str_ok). Qed.

Lemma bf_matcher_type_to_of_Z z : bf_matcher_type_to_Z (bf_matcher_type_of_Z z) = z.
Proof. destruct z as [|[[[[[]|[]|]|[[]|[]|]|]|[[[]|[]|]|[[]|[]|]|]|]|[[[[]|[]|]|[[]|[]|]|]|[[[]|[]|]|[[]|[]|]|]|]|]|]; done. Qed.

Lemma bf_matcher_op_to_of_Z z : bf_matcher_op_to_Z (bf_matcher_op_of_Z z) = z.
Proof. destruct z as [|[[[]|[]|]|[[]|[]|]|]|]; done. Qed.

(** ** Matchers and rules *)

Lemma matcher_read node m : bf_matcher_new_from_pack node = Ok m -> matcher_packable m.
Proof.
  unfold bf_matcher_new_from_pack. intros E. read_steps E. injection E as <-.
  split; cbn [matcher_type matcher_op bf_matcher_new];
    rewrite ?bf_matcher_type_to_of_Z, ?bf_matcher_op_to_of_Z; try done; by eapply kv_int_ok.
Qed.

Lemma rule_read node r : bf_rule_new_from_pack node = Ok r -> rule_packable r.
Proof.
  unfold bf_rule_new_from_pack. intros E. read_steps E. injection E as <-.
  split; cbn [rule_index rule_log rule_mark rule_verdict rule_matchers]; rewrite ?bf_verdict_to_of_Z; try done.
  - exact (kv_unsigned_ok UINT32_MAX _ _ _ E0).
  - exact (kv_unsigned_ok UINT8_MAX _ _ _ E1).
  - exact (kv_unsigned_ok (2 ^ 64 - 1) _ _ _ E3).
  - by eapply kv_int_ok.
  - by eapply rpack_each_ok; [apply matcher_read|].
Qed.

(** ** Sets *)

Lemma set_elems_read l s s' : set_wf s -> set_read_elems s l = Ok s' -> set_wf s' /\ set_name s' = set_name s.
Proof.
  revert s. induction l as [|n l IH]; intros s Hs; cbn [set_read_elems]; [by intros [= <-]|].
  intros E. read_steps E. destruct (Z.eqb_spec (Z.of_nat (length a)) (set_elem_size s)) as [Hl|]; cbn [negb] in E; [|done].
  apply bf_set_add_elem_wf in Hl as [Hl _]; [|done]. exact (IH _ Hl E).
Qed.

Lemma set_read node s : bf_set_new_from_pack node = Ok s -> set_packable s.
Proof.
  unfold bf_set_new_from_pack. intros E. read_steps E. apply bf_set_new_wf in E4 as (Hwf & Hn & _).
  apply set_elems_read in E as [Hs Hn']; [|done]. split; [done|]. rewrite Hn', Hn. clear -E1.
  destruct (bf_rpack_is_nil _); [by injection E1 as <-|]. read_steps E1. injection E1 as <-. by eapply rpack_str_ok.
Qed.
End Reads.

(** * Chains *)

Lemma index_rules_packable i rules : Forall rule_packable rules -> Forall rule_packable (chain_index_rules i rules).
Proof.
  intros Hr. revert i. induction Hr as [|r rules [] _ IH]; intros i; constructor; [|apply IH].
  split; try done. apply u32_range.
Qed.

Lemma chain_read node c : bf_chain_new_from_pack node = Ok c -> chain_typed c.
Proof.
  unfold bf_chain_new_from_pack. intros E. read_steps E. injection E as <-.
  split; [|apply bf_chain_new_built|apply bf_chain_new_wf].
  split; cbn [bf_chain_new chain_name chain_hook chain_policy chain_sets chain_rules];
    rewrite ?bf_hook_to_of_Z, ?bf_verdict_to_of_Z; try done.
  - by eapply kv_str_ok.
  - by eapply kv_int_ok.
  - by eapply kv_int_ok.
  - by eapply rpack_each_ok; [apply set_read|].
  - apply index_rules_packable. by eapply rpack_each_ok; [apply rule_read|].
Qed.

(** A typed chain is read again from the document it is written to. *)
Lemma chain_typed_read c : chain_typed c -> bf_chain_new_from_pack (obj (chain_kvs c)) = Ok c.
Proof. intros [Hp Hb _]. by rewrite read_chain, <- Hb. Qed.

(** * Hook options *)

(** An option that is read is used, and the others are as they were. *)
Lemma used_range t u : 0 <= u < 16 -> 0 <= Z.lor u (hookopts_flag t) < 16.
Proof.
  intros Hu. assert (In u (seqZ 0 16)) as Hin by (apply list_elem_of_In, elem_of_seqZ; lia). clear Hu.
  cbn in Hin. repeat (destruct Hin as [<-|Hin]; [by destruct t; vm_compute|]). destruct Hin.
Qed.

Ltac option_read :=
  intros; match goal with Hp : hookopts_packable _ |- _ => destruct Hp end;
  constructor; unfold default_unless in *; rewrite ?hookopts_use_used; [by apply used_range|try done..];
  cbn [bool_decide]; rewrite ?orb_true_r, ?orb_false_r; try done.

Lemma ifindex_packable v ho : hookopts_packable ho -> int_ok v ->
  hookopts_packable (hookopts_use BF_HOOKOPTS_IFINDEX (with_ifindex v ho)).
Proof. option_read. Qed.
Lemma cgpath_packable v ho : hookopts_packable ho -> has_nul v = false ->
  hookopts_packable (hookopts_use BF_HOOKOPTS_CGPATH (with_cgpath (Some v) ho)).
Proof. option_read. Qed.
Lemma family_packable v ho : hookopts_packable ho -> 0 <= v < 2 ^ 32 ->
  hookopts_packable (hookopts_use BF_HOOKOPTS_FAMILY (with_family v ho)).
Proof. option_read. Qed.
Lemma priorities_packable v0 v1 ho : hookopts_packable ho -> int_ok v0 -> int_ok v1 ->
  hookopts_packable (hookopts_use BF_HOOKOPTS_PRIORITIES (with_priorities v0 v1 ho)).
Proof. option_read. Qed.

Lemma hookopts_new_packable : hookopts_packable bf_hookopts_new.
Proof. by split. Qed.

Lemma hookopts_step node key read ho ho' :
  (forall n ho ho', hookopts_packable ho -> read n ho = Ok ho' -> hookopts_packable ho') ->
  hookopts_packable ho -> hookopts_read node key read ho = Ok ho' -> hookopts_packable ho'.
Proof.
  intros Hr Hp. unfold hookopts_read. destruct (bf_rpack_kv_node node key) as [n|]; cbn [rbind]; [|done].
  destruct (bf_rpack_is_nil n); [by intros [= <-]|by apply Hr].
Qed.

Lemma hookopts_read_ok node ho : bf_hookopts_new_from_pack node = Ok ho -> hookopts_packable ho.
Proof.
  unfold bf_hookopts_new_from_pack. intros E. read_steps E.
  assert (hookopts_packable a) as H1.
  { eapply hookopts_step; [|exact hookopts_new_packable|exact E0]. intros n h h' Hh Er. cbn beta in Er. read_steps Er. injection Er as <-.
    apply ifindex_packable; [done|]. by eapply rpack_int_ok. }
  assert (hookopts_packable a0) as H2.
  { eapply hookopts_step; [|exact H1|exact E1]. intros n h h' Hh Er. cbn beta in Er. read_steps Er. injection Er as <-.
    apply cgpath_packable; [done|]. by eapply rpack_str_ok. }
  assert (hookopts_packable a1) as H3.
  { eapply hookopts_step; [|exact H2|exact E2]. intros n h h' Hh Er. cbn beta in Er. read_steps Er. injection Er as <-.
    apply family_packable; [done|]. by eapply rpack_uint_ok. }
  eapply hookopts_step; [|exact H3|exact E]. intros n h h' Hh Er. unfold hookopts_read_priorities in Er.
  destruct n as [| | | | | |[|n0 [|n1 []]]|]; try done. read_steps Er. injection Er as <-.
  apply priorities_packable; [done|by eapply rpack_int_ok..].
Qed.

Lemma relinked_packable hook ho : hookopts_packable ho -> hookopts_packable (relinked hook ho).
Proof.
  unfold relinked. intros Hp. destruct (bf_hook_to_flavor hook) as [[]|]; try done.
  destruct Hp as [? ? ? ? ? ? ? ? ? Np]. split; try done.
  unfold default_unless in *. intros Hu. by injection (Np Hu) as -> ->.
Qed.

(** * Requests *)

Section Requests.
Context `{Mpack}.

Lemma parse_chain_typed root c : parse_chain root = Ok c -> chain_typed c.
Proof. unfold parse_chain. intros E. read_steps E. by eapply chain_read. Qed.

Lemma parse_hookopts_typed root ho : parse_hookopts root = Ok ho -> options_typed ho.
Proof.
  unfold parse_hookopts. intros E. read_steps E. destruct (bf_rpack_is_nil _); [by injection E as <-|].
  read_steps E. injection E as <-. by eapply hookopts_read_ok.
Qed.

Lemma parse_entry_typed root x : parse_entry root = Ok x -> entry_typed (cli_entry x).
Proof.
  unfold parse_entry. intros E. read_steps E. injection E as <-.
  split; [by eapply parse_chain_typed|by eapply parse_hookopts_typed].
Qed.

Lemma req_entry_typed request x : req_entry request = Ok x -> entry_typed (cli_entry x).
Proof. unfold req_entry. intros E. read_steps E. by eapply parse_entry_typed. Qed.

Lemma req_chain_typed request c : req_chain request = Ok c -> chain_typed c.
Proof. unfold req_chain. intros E. read_steps E. by eapply parse_chain_typed. Qed.

Lemma req_attach_typed request name ho : req_attach request = Ok (name, ho) -> hookopts_packable ho.
Proof.
  unfold req_attach, parse_attach_hookopts. intros E. read_steps E. injection E as -> ->. read_steps E2. by eapply hookopts_read_ok.
Qed.

Lemma req_ruleset_typed request l : req_ruleset request = Ok l -> Forall entry_typed (cli_entry <$> l).
Proof.
  unfold req_ruleset. intros E. read_steps E. apply Forall_fmap. eapply rpack_each_ok; [|exact E]. apply parse_entry_typed.
Qed.

Lemma typed_filter f R : Forall entry_typed R -> Forall entry_typed (List.filter f R).
Proof. induction 1 as [|e R He _ IH]; cbn; [constructor|]. destruct (f e); [by constructor|done]. Qed.

Lemma typed_replace e R : entry_typed e -> Forall entry_typed R -> Forall entry_typed (replace e R).
Proof.
  intros He HR. apply Forall_fmap. eapply Forall_impl; [exact HR|]. intros x Hx. cbn. by destruct (_ =? _)%string.
Qed.

(** No request, whatever it holds, leads to a ruleset that is not typed. *)
Lemma rs_step_typed request R r R' : rs_step request R r R' -> Forall entry_typed R -> Forall entry_typed R'.
Proof.
  intros Hs HR. pose proof (Forall_forall entry_typed R) as [Hin _]. specialize (Hin HR).
  destruct Hs as [|l ? Hl| |c ho ? Hc| | |c ? Hc| | |en ho ? Hho Hen| | |en ho ? Hho Hen|c en ho ? Hc Hen ? Hh| | | | | | | | | | | |]; try done;
    unfold remove, drop_front; rewrite ?Forall_app, ?Forall_singleton; try (by apply typed_filter).
  - split; [by apply typed_filter|by eapply req_ruleset_typed].
  - split; [by apply typed_filter|by eapply req_entry_typed].
  - split; [done|]. split; [by eapply req_chain_typed|done].
  - apply typed_replace; [|done]. split; [apply (Hin en Hen)|by eapply req_attach_typed].
  - apply typed_replace; [|done]. split; [apply (Hin en Hen)|by eapply req_attach_typed].
  - apply typed_replace; [|done]. split; [by eapply req_chain_typed|]. apply relinked_packable.
    destruct (Hin en Hen) as [_ He]. by rewrite Hh in He.
Qed.

Lemma served_typed qs R R' : served qs R R' -> Forall entry_typed R -> Forall entry_typed R'.
Proof. induction 1 as [|request r qs R R1 R2 Hs _ IH]; [done|]. intros HR. by eapply IH, rs_step_typed. Qed.
End Requests.

(** * The context *)

Record cgen_typed (cg : bf_cgen) : Prop := mk_cgen_typed {
  gt_chain : chain_typed (cgen_chain cg);
  gt_hook : from_option (fun p => options_typed (link_hookopts (prog_link p))) True (cgen_program cg)
}.

Lemma ready_typed e cg : ready_as e cg -> entry_typed e <-> cgen_typed cg.
Proof.
  intros (_ & Hc & p & Hp & _ & Hl & _). split; intros [Ht Hh]; split.
  1,3: congruence.
  - rewrite Hp. cbn [from_option]. by rewrite Hl.
  - rewrite Hp in Hh. cbn [from_option] in Hh. by rewrite <- Hl.
Qed.

(** A context is typed when the ruleset it represents is. *)
Lemma rep_typed R ctx : rep R ctx -> Forall entry_typed R <-> Forall cgen_typed ctx.
Proof.
  intros [_ Hr]. induction Hr as [|e cg R ctx He _ IH]; [by split|].
  rewrite !Forall_cons, IH. by rewrite (ready_typed e cg He).
Qed.
