(* ===== verification/Correct.v ===== *)
(** The loaded program does what the chain says: the block of a chain, followed
    through the generation of the stubs, the resolution of the fixups and the
    loading of the maps, down to the interpreter running the final image. *)

From S2P Require Import Prelude Bytes Bpf Helper Hook Hookopts Matcher BfSet Sys Map Rule.
From S2P Require Import Chain Printer Serial Log Program Block BlockExec Fixups Context Symbolic Match.
From S2P Require Import Stubs KernelSpec GenMeta GenSet Swich Flavors Stub Prologue Load Generate.

(** * The stubs are added after the chain *)

Lemma fixups_range fx pos b : fx ∈ fixups pos b -> (pos <= fixup_insn fx < pos + size b)%nat.
Proof.
  revert pos. induction b as [|it b IH]; intros pos; cbn [fixups size]; [by intros ?%elem_of_nil|].
  assert (1 <= item_size it)%nat by (destruct it; cbn; lia).
  rewrite elem_of_app. intros [Hin|Hin].
  - unfold item_fixups in Hin. destruct (item_fx it) as [[t a]|]; [|by apply elem_of_nil in Hin].
    apply list_elem_of_singleton in Hin as ->. cbn. lia.
  - apply IH in Hin. lia.
Qed.

Lemma holds_size b p : holds b p -> (size b <= img_size p)%nat.
Proof. intros [[post E] _]. unfold img_size. rewrite E, length_app, length_flat. lia. Qed.

Lemma holds_emits b b' p q : holds b p -> emits b' p q -> holds b q.
Proof.
  intros Hh [cap ->]. pose proof (holds_size _ _ Hh) as Hsz. destruct Hh as [[post Hi] (rest & Hf & Hb)].
  constructor; cbn.
  - exists (post ++ flat b'). by rewrite Hi, app_assoc.
  - exists (rest ++ fixups (img_size p) b'). rewrite Hf, app_assoc. split; [done|].
    apply Forall_app. split; [done|]. apply Forall_forall. intros fx Hfx.
    apply fixups_range in Hfx. lia.
Qed.

Lemma holds_printer b p pr : holds b p -> holds b (with_printer p pr).
Proof. intros [Hi Hf]. by constructor. Qed.
Lemma holds_stub b p id loc : holds b p -> holds b (with_stub p id loc).
Proof. intros [Hi Hf]. by constructor. Qed.
Lemma holds_maps b p c pm l s : holds b p -> holds b (with_maps p c pm l s).
Proof. intros [Hi Hf]. by constructor. Qed.

Lemma holds_insert b p n i fx cap : holds b p -> (size b <= n)%nat ->
  beyond (size b) fx -> holds b (with_img p (<[n := i]> (prog_img p)) cap (prog_fixups p ++ fx)).
Proof.
  intros [[post Hi] (rest & Hf & Hb)] Hn Hfx. constructor; cbn.
  - exists (<[(n - size b)%nat := i]> post). rewrite Hi.
    rewrite insert_app_r_alt by (rewrite length_flat; lia). by rewrite length_flat.
  - exists (rest ++ fx). rewrite Hf, app_assoc. split; [done|]. by apply Forall_app.
Qed.

Section Stubs.
Context `{CgenEnv}.

Lemma holds_elfstub_str b start s p q : holds b p -> (size b <= start)%nat ->
  elfstub_str start s p = Ok (tt, q) -> holds b q.
Proof.
  intros Hh Hs. unfold elfstub_str. destruct (bf_printer_add_msg _ _) as [msg pr].
  destruct (BPF_PSEUDO_MAP_VALUE_LOAD _ _) as [|i0 [|i1 [|]]]; try done.
  destruct (S _ <? _)%nat; [|done]. intros [= <-].
  apply (holds_printer b p pr) in Hh.
  pose proof (holds_insert b _ (start + printk_insn_idx s) i0 [] (prog_img_cap p) Hh
                ltac:(lia) ltac:(constructor)) as H1.
  rewrite app_nil_r in H1.
  apply (holds_insert b _ (S (start + printk_insn_idx s)) i1
           [bf_fixup_new BF_FIXUP_TYPE_PRINTER_MAP_FD (start + printk_insn_idx s) AttrNone]
           (prog_img_cap p)) in H1; [done|lia|].
  constructor; [cbn; lia|constructor].
Qed.

Lemma holds_elfstub_strs b start strs p q : holds b p -> (size b <= start)%nat ->
  elfstub_strs start strs p = Ok (tt, q) -> holds b q.
Proof.
  revert p. induction strs as [|s strs IH]; intros p Hh Hs; cbn [elfstub_strs].
  - by intros [= <-].
  - unfold mbind, gen_bind. destruct (elfstub_str start s p) as [[[] p1]|] eqn:E; [|done].
    apply IH; [|done]. by eapply holds_elfstub_str.
Qed.

Lemma holds_generate_elfstub b id p q : holds b p -> generate_elfstub id p = Ok (tt, q) -> holds b q.
Proof.
  intros Hh. unfold generate_elfstub, mbind at 1, gen_bind, gen_get.
  destruct (elfstubs_location p id =? 0)%nat; [|by intros [= <-]].
  destruct (bf_ctx_get_elfstub id) as [stub|]; [|done].
  destruct (gemits_emit_all (prog_chain p) (prog_flavor p) (stub_insns stub) p ltac:(done)) as (p1 & E1 & He).
  unfold mbind, gen_bind. rewrite E1.
  destruct (elfstub_strs (img_size p) (stub_strs stub) p1) as [[[] p2]|] eqn:E2; [|done].
  intros [= <-]. apply holds_stub.
  eapply holds_elfstub_strs; [|by apply (holds_size b p)|exact E2]. by eapply holds_emits.
Qed.

Lemma holds_generate_elfstubs b fxs p q : holds b p -> generate_elfstubs fxs p = Ok (tt, q) -> holds b q.
Proof.
  revert p. induction fxs as [|fx fxs IH]; intros p Hh; cbn [generate_elfstubs].
  - by intros [= <-].
  - unfold mbind, gen_bind. case_decide.
    + destruct (generate_elfstub _ p) as [[[] p1]|] eqn:E; [|done].
      apply IH. by eapply holds_generate_elfstub.
    + by apply IH.
Qed.
End Stubs.

Lemma emits_holds b p q : prog_img p = [] -> prog_fixups p = [] -> emits b p q -> holds b q.
Proof.
  intros Hi Hf [cap ->]. constructor; cbn; unfold img_size; rewrite ?Hi, ?Hf; cbn.
  - exists []. by rewrite app_nil_r.
  - exists []. split; [by rewrite app_nil_r|constructor].
Qed.

(** * Resolving every fixup *)

(** The descriptors a loaded program has in its image. *)
Definition prog_fds (p : bf_program) (t : bf_fixup_type) (a : bf_fixup_attr) : Z :=
  match t with
  | BF_FIXUP_TYPE_COUNTERS_MAP_FD => prog_cmap_fd p
  | BF_FIXUP_TYPE_PRINTER_MAP_FD => prog_pmap_fd p
  | BF_FIXUP_TYPE_LOG_MAP_FD => prog_lmap_fd p
  | BF_FIXUP_TYPE_SET_MAP_FD => default (-1) (prog_sets_fd p !! attr_set a)
  | _ => 0
  end.

(** The maps and stubs a loaded program has. *)
Definition prog_used (p : bf_program) (t : bf_fixup_type) (a : bf_fixup_attr) : Prop :=
  match t with
  | BF_FIXUP_TYPE_JMP_NEXT_RULE => False
  | BF_FIXUP_TYPE_SET_MAP_FD => is_Some (prog_sets p !! attr_set a)
  | BF_FIXUP_ELFSTUB_CALL => elfstubs_location p (attr_stub a) <> O
  | _ => True
  end.

Definition all_used (p : bf_program) (t : bf_fixup_type) (b : block) : Prop :=
  forall fx, fx ∈ fixups 0 b -> fixup_type fx = t -> prog_used p t (fixup_attr fx).

Lemma item_in_fixups it t a pos b : it ∈ b -> item_fx it = Some (t, a) ->
  exists n, mk_fixup t n a ∈ fixups pos b.
Proof.
  intros Hin Ht. revert pos. induction Hin as [it b|it it' b _ IH]; intros pos; cbn [fixups].
  - exists pos. apply elem_of_app. left. unfold item_fixups. rewrite Ht. by left.
  - destruct (IH Ht (pos + item_size it')%nat) as [n Hn]. exists n. apply elem_of_app. by right.
Qed.

Lemma all_used_items p b : (forall t, t <> BF_FIXUP_TYPE_JMP_NEXT_RULE -> all_used p t b) ->
  forallb no_rule b = true -> Forall (item_used (prog_used p)) b.
Proof.
  intros Hu Hn. apply Forall_forall. intros it Hin. unfold item_used.
  destruct (item_fx it) as [[t a]|] eqn:E; [|done].
  rewrite forallb_forall in Hn. specialize (Hn it ltac:(by apply list_elem_of_In)).
  unfold no_rule in Hn. rewrite E in Hn.
  destruct (item_in_fixups it t a 0 b Hin E) as [n Hfx].
  apply (Hu t ltac:(by intros ->) _ Hfx eq_refl).
Qed.

(** The value of a call's fixup is the distance to the stub. *)
Lemma value_final_call fd p b : Z.of_nat (size b) < 2 ^ 63 ->
  (forall id, Z.of_nat (elfstubs_location p id) < 2 ^ 63) ->
  forall fx, fx ∈ fixups 0 b -> fixup_type fx = BF_FIXUP_ELFSTUB_CALL ->
    res_ok (fixup_value p fx) = true ->
    value_final fd (elfstubs_location p) p BF_FIXUP_ELFSTUB_CALL fx /\
    prog_used p BF_FIXUP_ELFSTUB_CALL (fixup_attr fx).
Proof.
  intros Hsz Hloc fx Hin Ht Hok. apply fixups_range in Hin.
  destruct fx as [t n a]. cbn [fixup_type fixup_attr fixup_insn] in *. subst t.
  unfold fixup_value in *. cbn [fixup_type fixup_attr fixup_insn final_imm] in *.
  fold (attr_stub a) in *. cbv zeta in *. unfold value_final, fixup_value.
  cbn [fixup_type fixup_attr fixup_insn final_imm prog_used]. fold (attr_stub a). cbv zeta.
  destruct (INT_MAX <=? u64 _) eqn:E; [done|]. apply Z.leb_gt in E.
  specialize (Hloc (attr_stub a)).
  set (l := elfstubs_location p (attr_stub a)) in *. unfold u64, INT_MAX in *.
  destruct (Z.le_gt_cases 0 (Z.of_nat l - Z.of_nat n - 1)).
  - split; [|lia]. intros _. do 2 f_equal. apply Z.mod_small. lia.
  - rewrite <- (Z_mod_plus_full _ 1), Z.mod_small in E by lia. lia.
Qed.

(** The other fixups are the descriptors of maps. *)
Lemma value_final_map p loc t b : t <> BF_FIXUP_TYPE_JMP_NEXT_RULE -> t <> BF_FIXUP_ELFSTUB_CALL ->
  forall fx, fx ∈ fixups 0 b -> fixup_type fx = t ->
    res_ok (fixup_value p fx) = true ->
    value_final (prog_fds p) loc p t fx /\ prog_used p t (fixup_attr fx).
Proof.
  intros Hj Hs fx _ Ht Hok. destruct fx as [t' n a]. cbn [fixup_type fixup_attr fixup_insn] in *. subst t'.
  unfold value_final, fixup_value in *. destruct t; try done.
  cbn [fixup_type fixup_attr fixup_insn final_imm prog_fds prog_used] in *.
  fold (attr_set a) in *. cbv zeta in *. unfold prog_sets_fd in *. rewrite list_lookup_fmap in *.
  destruct (prog_sets p !! attr_set a); [|done]. split; [done|by eexists].
Qed.

(** [value_final] depends on the descriptors of its type only. *)
Lemma value_final_fd fd fd' loc p t fx : (forall a, fd t a = fd' t a) ->
  value_final fd loc p t fx -> value_final fd' loc p t fx.
Proof.
  intros Hfd Hv Ht. rewrite (Hv Ht). do 2 f_equal. unfold final_imm. destruct t; by rewrite ?Hfd.
Qed.

(** * Loading *)

Section Loaded.
Context {K : Type} `{Sys K} (tok : Z).

Lemma step_final fd loc p q t dn b :
  _bf_program_fixup p t = Ok q -> holds (pfinal fd loc dn 0 b) p -> dn t = false ->
  t <> BF_FIXUP_TYPE_JMP_NEXT_RULE -> t <> BF_FIXUP_ELFSTUB_CALL ->
  (forall a, prog_fds p t a = fd t a) ->
  holds (pfinal fd loc (fun t' => dn t' || bool_decide (t = t')) 0 b) q /\ all_used p t b.
Proof.
  intros E Hh Hd Hj Hs Hfd. split.
  - eapply holds_pfinal_fix; [exact Hh|exact E|done|].
    intros fx Hin Ht Hok. eapply value_final_fd; [exact Hfd|]. by eapply value_final_map.
  - intros fx Hin Ht. eapply (value_final_map p loc); [done..|]. by eapply holds_values.
Qed.

(** The maps of a stage are those of the loaded program. *)
Ltac fds_tac :=
  lazymatch goal with |- prog_fds ?p ?t ?a = ?fd ?t ?a => subst fd end;
  unfold prog_fds, prog_cmap_fd, prog_pmap_fd, prog_lmap_fd, prog_sets_fd;
  cbn [with_maps prog_cmap prog_pmap prog_lmap prog_sets]; congruence.

(** A loaded program starts with the block, every fixup resolved. *)
Lemma load_final b (p q : bf_program) (k k' : K) :
  (forall fd, holds (pfinal fd (elfstubs_location p) (fun t => bool_decide (BF_FIXUP_ELFSTUB_CALL = t)) 0 b) p) ->
  forallb no_rule b = true ->
  bf_program_load tok (p, k) = (Ok tt, (q, k')) ->
  (exists post, prog_img q = final (prog_fds q) (elfstubs_location p) 0 b ++ post) /\
  elfstubs_location q = elfstubs_location p /\
  forall t, t <> BF_FIXUP_TYPE_JMP_NEXT_RULE -> t <> BF_FIXUP_ELFSTUB_CALL -> all_used q t b.
Proof.
  intros Hh Hn E. unfold bf_program_load in E. st_inv E.
  destruct st as [p1 k1], st0 as [p2 k2], st1 as [p3 k3], st2 as [p4 k4].
  apply load_sets_maps_ok in E0 as [s E0]. apply load_counters_map_ok in E1 as [cm E1].
  apply load_printer_map_ok in E2 as [pm E2]. apply load_log_map_ok in E3 as [lm E3].
  injection E4 as <- <-. injection E5 as _ <-. injection E6 as _ <-.
  destruct st6 as [p6 k6].
  assert (p6 = p4) as ->.
  { unfold bf_bpf_prog_load in E7. destruct (token_flags tok 0). by apply bf_bpf_obj in E7. }
  injection E as <- <-. cbn [prog_img with_fd].
  pose proof (fixup_env _ _ _ E0) as V0. pose proof (fixup_env _ _ _ E1) as V1.
  pose proof (fixup_env _ _ _ E2) as V2. pose proof (fixup_env _ _ _ E3) as V3.
  unfold same_env in V0, V1, V2, V3. cbn in V0, V1, V2, V3.
  destruct_and!.
  change (prog_fds (with_fd p4 a2)) with (prog_fds p4). set (fd := prog_fds p4).
  eapply (step_final fd (elfstubs_location p)) in E0 as [E0 U0];
    [|by apply holds_maps, Hh|done..|intros a; fds_tac].
  eapply (step_final fd (elfstubs_location p)) in E1 as [E1 U1];
    [|by apply holds_maps, E0|done..|intros a; fds_tac].
  eapply (step_final fd (elfstubs_location p)) in E2 as [E2 U2];
    [|by apply holds_maps, E1|done..|intros a; fds_tac].
  eapply (step_final fd (elfstubs_location p)) in E3 as [E3 U3];
    [|by apply holds_maps, E2|done..|intros a; fds_tac].
  split_and!.
  - destruct E3 as [[post Hpost] _]. exists post. rewrite Hpost. f_equal.
    apply pfinal_flat; [|done]. by intros [].
  - cbn. congruence.
  - intros t Hj Hs. destruct t; try done; intros fx Hin Ht; try exact I.
    specialize (U0 fx Hin Ht). cbn in *. congruence.
Qed.
End Loaded.

(** * The theorem *)

Section Chain.
Context `{CgenEnv} {W : Type} `{Kernel W} (c : bf_chain) `{!StubHelpers W} `{!KernelSpec W c} (fl : bf_flavor) (lo : layout).

(** The locations of the stubs are in the image. *)
Definition locs_ok (p : bf_program) : Prop := forall id, (elfstubs_location p id <= img_size p)%nat.

Lemma emits_locs b p q : emits b p q -> locs_ok p -> locs_ok q.
Proof. intros [cap ->] Hl id. unfold img_size. cbn. rewrite length_app. specialize (Hl id). unfold img_size in Hl. lia. Qed.

Lemma generate_start_emits : env_ok -> gen_emits c fl generate_start.
Proof.
  intros Henv. unfold generate_start.
  do 3 (apply emitted_seq; [apply emitted_EMIT|]).
  apply emitted_get; [by intros ? [-> ->]|].
  apply emitted_seq; [case_match; [apply emitted_seq; [apply emitted_log|apply emitted_EMIT]|apply emitted_ret]|].
  apply emitted_seq; [case_match; [apply emitted_EMIT|apply emitted_ret]|].
  by apply gen_inline_prologue_emits.
Qed.

Lemma elfstub_str_size start s p q : elfstub_str start s p = Ok (tt, q) ->
  img_size q = img_size p /\ elfstubs_location q = elfstubs_location p.
Proof.
  unfold elfstub_str. destruct (bf_printer_add_msg _ _) as [msg pr].
  destruct (BPF_PSEUDO_MAP_VALUE_LOAD _ _) as [|i0 [|i1 [|]]]; try done.
  destruct (S _ <? _)%nat; [|done]. intros [= <-]. unfold img_size. cbn. by rewrite !length_insert.
Qed.

Lemma elfstub_strs_size start strs p q : elfstub_strs start strs p = Ok (tt, q) ->
  img_size q = img_size p /\ elfstubs_location q = elfstubs_location p.
Proof.
  revert p. induction strs as [|s strs IH]; intros p; cbn [elfstub_strs]; [by intros [= <-]|].
  intros ([] & p1 & E1 & E2)%gen_bind_ok. apply elfstub_str_size in E1 as [<- <-]. by apply IH.
Qed.

Lemma generate_elfstub_locs id p q : generate_elfstub id p = Ok (tt, q) -> locs_ok p -> locs_ok q.
Proof.
  unfold generate_elfstub. intros (p' & ? & [= <- <-] & E)%gen_bind_ok Hl.
  destruct (elfstubs_location p id =? 0)%nat; [|by injection E as <-].
  destruct (bf_ctx_get_elfstub id) as [stub|]; [|done].
  destruct (gemits_emit_all (prog_chain p) (prog_flavor p) (stub_insns stub) p ltac:(done)) as (p1 & E1 & He).
  apply gen_bind_ok in E as ([] & p1' & E1' & E). rewrite E1 in E1'. injection E1' as <-.
  apply gen_bind_ok in E as ([] & p2 & E2 & E). injection E as <-.
  apply elfstub_strs_size in E2 as [Hs Hloc]. pose proof (emits_img_size _ _ _ He) as Hsz.
  intros i. change (img_size (with_stub p2 id (img_size p))) with (img_size p2).
  cbn [with_stub elfstubs_location]. case_decide; [lia|]. rewrite Hloc, Hs.
  by apply (emits_locs _ _ _ He).
Qed.

Lemma generate_elfstubs_locs fxs p q : generate_elfstubs fxs p = Ok (tt, q) -> locs_ok p -> locs_ok q.
Proof.
  revert p. induction fxs as [|fx fxs IH]; intros p; cbn [generate_elfstubs]; [by intros [= <-]|].
  intros ([] & p1 & E1 & E2)%gen_bind_ok Hl. apply (IH _ E2). case_decide.
  - by eapply generate_elfstub_locs.
  - by injection E1 as <-.
Qed.

(** What generation leaves: the block of the chain after the block of the
    start, the calls resolved. *)
Lemma generate_final p0 p1 : env_ok -> Forall (rule_ok c fl lo) (chain_rules c) ->
  is_Some (get_verdict fl (chain_policy c)) -> prog_of c fl p0 -> prog_img p0 = [] ->
  prog_fixups p0 = [] -> locs_ok p0 -> bf_program_generate p0 = Ok (tt, p1) ->
  Z.of_nat (img_size p1) < 2 ^ 15 ->
  exists ps bs bc, generate_start p0 = Ok (tt, ps) /\ img_size ps = size bs /\
    forallb no_rule (bs ++ bc) = true /\ (size (bs ++ bc) <= img_size p1)%nat /\
    (forall pk (s : vm W), ctx_rel lo pk s ->
      exists s', exec bc 0 s = BExit (verdict_ret fl (fst (chain_sem c pk (world s)))) s' /\
        ctx_rel lo (fst (snd (chain_sem c pk (world s)))) s' /\
        world s' = snd (snd (chain_sem c pk (world s)))) /\
    (forall fd, holds (pfinal fd (elfstubs_location p1)
       (fun t => bool_decide (BF_FIXUP_ELFSTUB_CALL = t)) 0 (bs ++ bc)) p1) /\
    all_used p1 BF_FIXUP_ELFSTUB_CALL (bs ++ bc).
Proof.
  intros Henv Hr Hv Hp Himg Hfx Hl0 E Hsz. unfold bf_program_generate in E.
  apply gen_bind_ok in E as (? & ? & [= <- <-] & E). pose proof Hp as [Hpc Hpf]. rewrite Hpc, Hpf in E.
  destruct (generate_start_emits Henv) as (bs & Hbs & Ns).
  destruct (chain_outs c fl lo Hr Hv) as (bc & Hbc & Nc & Hx).
  apply gen_bind_ok in E as ([] & ps & Es & E).
  destruct (Hbs p0 Hp) as (ps' & Es' & Hes). rewrite Es in Es'. injection Es' as <-.
  assert (clean ps) as Hcs.
  { eapply emits_clean; [exact Hes| |done]. unfold clean. by rewrite Hfx. }
  apply gen_bind_ok in E as ([] & pr & Er & E). apply gen_bind_ok in E as ([] & pe & Ee & E).
  apply gen_bind_ok in E as ([] & pc & Ec & E). apply gen_bind_ok in E as ([] & pt & Et & E).
  destruct (Hbc ps (emits_prog_of _ _ _ _ _ Hes Hp) Hcs) as (pc' & Ec' & Hec & _).
  assert (pc' = pc) as ->.
  { unfold generate_chain, mbind, gen_bind in Ec'. rewrite Er, Ee, Ec in Ec'. by injection Ec'. }
  clear Ec'. pose proof (emits_trans _ _ _ _ _ Hes Hec) as He.
  assert (holds (bs ++ bc) pt /\ locs_ok pt) as [Hh Hl].
  { unfold _bf_program_generate_elfstubs in Et. apply gen_bind_ok in Et as (? & ? & [= <- <-] & Et). split.
    - eapply holds_generate_elfstubs; [|exact Et]. by eapply emits_holds.
    - eapply generate_elfstubs_locs; [exact Et|]. by eapply emits_locs. }
  unfold gen_fixup in E. destruct (_bf_program_fixup pt _) as [p1'|] eqn:Ef; cbn [rbind] in E; [|done].
  injection E as ->. pose proof (fixup_env _ _ _ Ef) as Henv1.
  assert (img_size p1 = img_size pt /\ elfstubs_location p1 = elfstubs_location pt) as [Esz Eloc]
    by (unfold same_env in Henv1; destruct_and!; done).
  pose proof (holds_size _ _ Hh) as Hsz'.
  exists ps, bs, bc. split_and!; [done|..].
  - rewrite (emits_img_size _ _ _ Hes). unfold img_size. by rewrite Himg.
  - by rewrite forallb_app, Ns, Nc.
  - lia.
  - apply Hx. rewrite size_app in Hsz'. lia.
  - intros fd. rewrite Eloc.
    pose proof (holds_pfinal_fix fd (elfstubs_location pt) pt p1 BF_FIXUP_ELFSTUB_CALL (fun _ => false) (bs ++ bc)) as HF.
    rewrite pfinal_id in HF. apply HF; [done|done|done|].
    intros fx Hin Ht Hok. eapply value_final_call; try done; [lia|]. intros id. specialize (Hl id). lia.
  - intros fx Hin Ht.
    assert (prog_used pt BF_FIXUP_ELFSTUB_CALL (fixup_attr fx)) as Hu; [|cbn in *; by rewrite Eloc].
    eapply (value_final_call (fun _ _ => 0)); try done; [lia|intros id; specialize (Hl id); lia|].
    eapply (holds_values (fun _ _ => 0) (elfstubs_location pt) pt p1 BF_FIXUP_ELFSTUB_CALL (fun _ => false));
      [by rewrite pfinal_id|done..].
Qed.

(** From the end of the prologue to the exit. *)
Lemma loaded_chain_runs {K : Type} `{Sys K} (tok : Z) p0 p1 p2 (k k' : K)
    (ext : callee -> call_sem W) (map_ptr map_value_ptr : Z -> Z) :
  env_ok -> Forall (rule_ok c fl lo) (chain_rules c) -> is_Some (get_verdict fl (chain_policy c)) ->
  bf_hook_to_flavor (chain_hook c) = Some fl ->
  bf_program_new c = Ok p0 -> bf_program_generate p0 = Ok (tt, p1) ->
  bf_program_load tok (p1, k) = (Ok tt, (p2, k')) ->
  Z.of_nat (img_size p1) < 2 ^ 15 ->
  sim_env (prog_fds p2) (elfstubs_location p2) ext map_ptr map_value_ptr (prog_used p2) ->
  exists ps, generate_start p0 = Ok (tt, ps) /\
    forall pk (s : vm W), ctx_rel lo pk s ->
      exists fuel s', (fuel <= img_size p1)%nat /\
        run ext map_ptr map_value_ptr fuel (prog_img p2) (img_size ps) s =
          Exited (verdict_ret fl (fst (chain_sem c pk (world s)))) s' /\
        ctx_rel lo (fst (snd (chain_sem c pk (world s)))) s' /\
        world s' = snd (snd (chain_sem c pk (world s))).
Proof.
  intros Henv Hr Hv Hfl Hnew Hgen Hload Hsz Hsim.
  assert (prog_of c fl p0 /\ prog_img p0 = [] /\ prog_fixups p0 = [] /\ locs_ok p0) as (Hp & Hi & Hf & Hl).
  { unfold bf_program_new in Hnew. rewrite Hfl in Hnew. cbn [of_option rbind] in Hnew.
    repeat (match type of Hnew with rbind ?x _ = _ => destruct x; cbn [rbind] in Hnew; [|done] end).
    injection Hnew as <-. split_and!; try done. intros id. cbn. lia. }
  destruct (generate_final p0 p1 Henv Hr Hv Hp Hi Hf Hl Hgen Hsz)
    as (ps & bs & bc & Es & Eps & Hn & Hsb & Hx & Hh & Hu).
  exists ps. split; [done|]. intros pk s Hc. destruct (Hx pk s Hc) as (s' & X & Hc' & Hw).
  destruct (load_final tok (bs ++ bc) p1 p2 k k' Hh Hn Hload) as ([post Himg] & Eloc & Hum).
  assert (Forall (item_used (prog_used p2)) (bs ++ bc)) as Hit.
  { apply all_used_items; [|done]. intros t Hj. destruct (decide (t = BF_FIXUP_ELFSTUB_CALL)) as [->|Hs].
    - intros fx Hin Ht. cbn. rewrite Eloc. by apply (Hu fx Hin Ht).
    - by apply Hum. }
  rewrite forallb_app in Hn. apply andb_prop in Hn as [_ Hnc]. apply Forall_app in Hit as [_ Hitc].
  rewrite size_app in Hsb.
  destruct (sim_block (prog_fds p2) (elfstubs_location p2) ext map_ptr map_value_ptr (prog_used p2) Hsim
              (prog_img p2) (size bs) bc 0 s) as (fuel & Hfu & Ho); [|done|done|by rewrite X|].
  - intros n Hlt. rewrite Himg, Eloc, final_app, <- app_assoc.
    rewrite lookup_app_r by (rewrite length_final; lia). rewrite length_final.
    rewrite lookup_app_l by (rewrite length_final; lia). f_equal. lia.
  - exists fuel, s'. split; [lia|]. rewrite X in Ho. cbn [sim_out] in Ho.
    rewrite Nat.add_0_r in Ho. by rewrite Eps.
Qed.
End Chain.

(** * What the counters count *)

(** The laws of the helpers: a value of a map is what was last written to it,
    and nothing else changes it. *)
Class AccountSpec (W : Type) `{Kernel W} `{!StubHelpers W} (c : bf_chain) `{!KernelSpec W c} : Prop := {
  as_write map key v w map' key' : is_Some (bpf_map_lookup_elem map key w) ->
    bpf_map_lookup_elem map' key' (bpf_map_value_write map key v w) =
    if decide (map' = map /\ key' = key) then Some v else bpf_map_lookup_elem map' key' w;
  as_reserve map w map' key' :
    bpf_map_lookup_elem map' key' (snd (bpf_ringbuf_reserve map w)) = bpf_map_lookup_elem map' key' w;
  as_submit record w map' key' :
    bpf_map_lookup_elem map' key' (bpf_ringbuf_submit record w) = bpf_map_lookup_elem map' key' w;
  as_time w map' key' :
    bpf_map_lookup_elem map' key' (snd (bpf_ktime_get_ns w)) = bpf_map_lookup_elem map' key' w;
  as_printk msg w map' key' :
    bpf_map_lookup_elem map' key' (bpf_printk msg w) = bpf_map_lookup_elem map' key' w;
  as_prandom w map' key' :
    bpf_map_lookup_elem map' key' (snd (k_prandom w)) = bpf_map_lookup_elem map' key' w
}.

Section Accounting.
Context {W : Type} `{Kernel W} `{!StubHelpers W} (c : bf_chain) `{!KernelSpec W c} `{!AccountSpec W c}.

Definition counter_of (key : Z) (w : W) : option bf_counter :=
  bpf_map_lookup_elem (k_map BF_FIXUP_TYPE_COUNTERS_MAP_FD AttrNone) key w.

(** What a packet is counted by, in order: the rules that match it and have
    counters, then the chain's own counter when no rule decides. *)
Definition rule_hit (r : bf_rule) : list Z := if rule_counters r then [u32 (rule_index r)] else [].

Fixpoint rules_hits (rules : list bf_rule) (pk : pkt) (w : W) : list Z :=
  match rules with
  | [] => [u32 (Z.of_nat (length (chain_rules c)))]
  | r :: rules =>
      match rule_sem c r pk w with
      | (matched, v, (pk, w)) =>
          (if matched then rule_hit r else []) ++
          match v with Some _ => [] | None => rules_hits rules pk w end
      end
  end.

Definition chain_hits (pk : pkt) (w : W) : list Z := rules_hits (chain_rules c) pk w.

(** A counter after a packet of [size] bytes has hit it. *)
Definition counter_bump (size : Z) (counter : bf_counter) : bf_counter :=
  mk_counter (u64 (counter_packets counter + 1)) (u64 (counter_bytes counter + size)).

(** What a packet of [size] bytes does to the counter [key]. *)
Definition bump_all (key size : Z) (hits : list Z) (counter : bf_counter) : bf_counter :=
  foldl (fun counter k => if decide (k = key) then counter_bump size counter else counter) counter hits.

(** A program that runs on packets, one after the other. *)
Fixpoint chain_run (pks : list pkt) (w : W) : W :=
  match pks with [] => w | pk :: pks => chain_run pks (snd (snd (chain_sem c pk w))) end.

(** The sizes of the packets that hit a counter, once for every hit. *)
Fixpoint run_hits (key : Z) (pks : list pkt) (w : W) : list Z :=
  match pks with
  | [] => []
  | pk :: pks =>
      ((fun _ => pk_size pk) <$> filter (fun k => k = key) (chain_hits pk w)) ++
      run_hits key pks (snd (snd (chain_sem c pk w)))
  end.

Definition total (sizes : list Z) : Z := foldr Z.add 0 sizes.

(** ** Lemmas *)

Lemma matchers_count ms key pk w : counter_of key (snd (matchers_spec c ms pk w)) = counter_of key w.
Proof.
  revert w. induction ms as [|m ms IH]; intros w; [done|]. cbn [matchers_spec]. unfold spec_seq.
  assert (counter_of key (snd (matcher_spec c m pk w)) = counter_of key w) as Hm.
  { unfold matcher_spec, match_meta, pure_match. destruct (matcher_type m); try done; [|by destruct (bf_chain_get_set_for_matcher c m)].
    apply as_prandom. }
  destruct (matcher_spec c m pk w) as [[] w']; cbn [snd] in *; [|done]. by rewrite IH.
Qed.

Lemma mark_count r key pk w : counter_of key (snd (mark_effect r pk w)) = counter_of key w /\
  pk_size (fst (mark_effect r pk w)) = pk_size pk.
Proof. unfold mark_effect. by destruct (bf_rule_mark_is_set r). Qed.

Lemma log_count r key pk w : counter_of key (snd (log_effect r pk w)) = counter_of key w.
Proof.
  unfold log_effect, counter_of, log_packet. cbn [snd]. destruct (rule_log r =? 0); [done|].
  destruct (bpf_ringbuf_reserve (pk_log_map pk) w) as [[log|] w1] eqn:E;
    (assert (w1 = snd (bpf_ringbuf_reserve (pk_log_map pk) w)) as -> by (by rewrite E)).
  - destruct (bpf_ktime_get_ns _) as [ts w2] eqn:Et.
    rewrite as_submit. change w2 with (snd (ts, w2)). rewrite <- Et. by rewrite as_time, as_reserve.
  - by rewrite as_printk, as_reserve.
Qed.

Lemma u32_idem z : u32 (u32 z) = u32 z.
Proof. unfold u32. by rewrite Z.mod_mod. Qed.

Lemma count_count idx key pk w : counter_of key (snd (count_effect idx pk w)) =
  bump_all key (pk_size pk) [u32 idx] <$> counter_of key w.
Proof.
  unfold count_effect, counter_of, count_packet, bump_all. cbn [snd foldl]. rewrite u32_idem.
  set (map := k_map BF_FIXUP_TYPE_COUNTERS_MAP_FD AttrNone).
  destruct (bpf_map_lookup_elem map (u32 idx) w) as [v|] eqn:E.
  - rewrite as_write by (by eexists). destruct (decide (u32 idx = key)) as [<-|Hne].
    + rewrite decide_True by done. by rewrite E.
    + rewrite decide_False by (intros [_ Heq]; by apply Hne). by destruct (bpf_map_lookup_elem map key w).
  - rewrite as_printk. destruct (decide (u32 idx = key)) as [<-|Hne]; [by rewrite E|].
    by destruct (bpf_map_lookup_elem map key w).
Qed.

Lemma bump_all_app key size h1 h2 counter : bump_all key size (h1 ++ h2) counter =
  bump_all key size h2 (bump_all key size h1 counter).
Proof. apply foldl_app. Qed.

Lemma rule_count r key pk w : let '(matched, _, (pk', w')) := rule_sem c r pk w in
  counter_of key w' = bump_all key (pk_size pk) (if matched : bool then rule_hit r else []) <$> counter_of key w /\
  pk_size pk' = pk_size pk.
Proof.
  unfold rule_sem. pose proof (matchers_count (rule_matchers r) key pk w) as Hm.
  destruct (matchers_spec c (rule_matchers r) pk w) as [[] w1]; cbn [snd] in Hm.
  - unfold rule_effect, eff_seq. pose proof (mark_count r key pk w1) as [Hk Hs].
    destruct (mark_effect r pk w1) as [pk2 w2]; cbn [fst snd] in Hk, Hs.
    pose proof (log_count r key pk2 w2) as Hl. destruct (log_effect r pk2 w2) as [pk3 w3] eqn:El; cbn [fst snd] in Hl.
    assert (pk3 = pk2) as -> by (by injection El).
    unfold rule_hit. destruct (rule_counters r).
    + pose proof (count_count (rule_index r) key pk2 w3) as Hc. 
      destruct (count_effect (rule_index r) pk2 w3) as [pk4 w4] eqn:Ec; cbn [fst snd] in Hc.
      injection Ec as <- <-. split; [|done]. by rewrite Hc, Hl, Hk, Hm, Hs.
    + split; [|done]. rewrite Hl, Hk, Hm. by destruct (counter_of key w).
  - split; [|done]. rewrite Hm. by destruct (counter_of key w).
Qed.

Lemma rules_count rules key pk w :
  counter_of key (snd match rules_sem c rules pk w with
    | (Some v, pw) => pw
    | (None, (pk, w)) => count_effect (Z.of_nat (length (chain_rules c))) pk w
    end) = bump_all key (pk_size pk) (rules_hits rules pk w) <$> counter_of key w.
Proof.
  revert pk w. induction rules as [|r rules IH]; intros pk w; cbn [rules_sem rules_hits].
  - apply count_count.
  - pose proof (rule_count r key pk w) as Hr. destruct (rule_sem c r pk w) as [[matched [v|]] [pk' w']].
    + destruct Hr as [Hr _]. by rewrite app_nil_r.
    + destruct Hr as [Hr Hs]. rewrite IH, Hr, Hs. destruct (counter_of key w); [|done]. cbn. by rewrite bump_all_app.
Qed.

Lemma chain_count key pk w : counter_of key (snd (snd (chain_sem c pk w))) =
  bump_all key (pk_size pk) (chain_hits pk w) <$> counter_of key w.
Proof.
  unfold chain_hits. rewrite <- rules_count. unfold chain_sem. by destruct (rules_sem c (chain_rules c) pk w) as [[v|] [pk' w']].
Qed.

Lemma bump_all_filter key size hits counter : bump_all key size hits counter =
  foldl (fun counter size => counter_bump size counter) counter ((fun _ => size) <$> filter (fun k => k = key) hits).
Proof.
  revert counter. induction hits as [|k hits IH]; intros counter; [done|]. unfold bump_all in *. cbn [foldl].
  rewrite filter_cons. destruct (decide (k = key)); cbn [fmap list_fmap foldl]; apply IH.
Qed.

Lemma run_count key pks w : counter_of key (chain_run pks w) =
  (fun counter => foldl (fun counter size => counter_bump size counter) counter (run_hits key pks w)) <$> counter_of key w.
Proof.
  revert w. induction pks as [|pk pks IH]; intros w; cbn [chain_run run_hits].
  - by destruct (counter_of key w).
  - rewrite IH, chain_count. destruct (counter_of key w); [|done]. cbn. by rewrite foldl_app, bump_all_filter.
Qed.

Lemma bumps_total sizes p b : 0 <= p < 2 ^ 64 -> 0 <= b < 2 ^ 64 ->
  foldl (fun counter size => counter_bump size counter) (mk_counter p b) sizes =
  mk_counter (u64 (p + Z.of_nat (length sizes))) (u64 (b + total sizes)).
Proof.
  intros Hp Hb. cut (forall p b, foldl (fun counter size => counter_bump size counter) (mk_counter (u64 p) (u64 b)) sizes =
    mk_counter (u64 (p + Z.of_nat (length sizes))) (u64 (b + total sizes))).
  { intros Hx. rewrite <- Hx. by rewrite !u64_small. }
  clear. induction sizes as [|size sizes IH]; intros p b; cbn [foldl total foldr length].
  - by rewrite !Z.add_0_r.
  - unfold counter_bump at 2. cbn [counter_packets counter_bytes]. rewrite !u64_add_l. rewrite IH.
    f_equal; f_equal; fold (total sizes); lia.
Qed.
End Accounting.

#[global] Instance KernelAccount c : AccountSpec (H := KernelModel c) kworld c.
Proof.
  constructor; cbn [bpf_map_lookup_elem KernelHelpers].
  - intros map key v [] map' key' [x Hx]. cbn in *. destruct (Z.eqb_spec map 1) as [->|]; [|done].
    destruct (Z.eqb_spec map' 1) as [->|].
    + destruct (decide (key' = key)) as [->|].
      * by rewrite decide_True, lookup_insert_eq.
      * by rewrite decide_False, lookup_insert_ne by naive_solver.
    + by rewrite decide_False by naive_solver.
  - by intros map [? ? [] ? ? ? ?].
  - by intros ? [].
  - by intros [].
  - by intros ? [].
  - by intros [[]].
Qed.
