(* ===== verification/Demo.v ===== *)
(** A concrete chain, packet and kernel, on which the theorems of the
    development are applied: a TC chain with an address matcher, a port range,
    a mark, logs, counters and a set, and a TCP packet over IPv4. And a kernel
    that hands out descriptors, on which the claims about them are applied. *)

From S2P Require Import Prelude Bytes Bpf Helper Pack Hook Hookopts Matcher BfSet Sys Io Map Rule.
From S2P Require Import Chain Printer Serial Btf Program Elf Block BlockExec Fixups Context Match Stubs KernelSpec.
From S2P Require Import Swich Flavors Stub GenSet Prologue Load Fds Generate Cgen Correct.

(** * The environment of generation *)

Definition demo_elfstub (id : bf_elfstub_id) : bf_elfstub :=
  match id with
  | BF_ELFSTUB_LOG =>
      mk_elfstub (BPF_LD_IMM64 BPF_REG_1 0 ++ [BPF_MOV64_IMM BPF_REG_0 0; BPF_EXIT_INSN]) [mk_printk 0 "log"]
  | _ => mk_elfstub [BPF_MOV64_IMM BPF_REG_0 0; BPF_EXIT_INSN] []
  end.

(** Every structure is the same one: an anonymous structure with the fields
    that are read, sixteen bytes further than one another, after the first. *)
Definition demo_fields : list btf_member :=
  imap (fun i name => mk_btf_member name 3 (128 * Z.of_nat i))
    ["state"; "skb"; "in"; "out"; "pf"; "ifindex"; "len"; "mark"; "family"]%string.

Definition DemoBtf : Btf := {|
  btf__find_by_name := fun _ => Ok 42;
  btf__find_by_name_kind := fun _ _ => Ok 1;
  btf__type_by_id := fun id =>
    if id =? 1 then Ok (mk_btf_type BTF_KIND_STRUCT true [mk_btf_member EmptyString 2 128])
    else if id =? 2 then Ok (mk_btf_type BTF_KIND_STRUCT false demo_fields)
    else if id =? 3 then Ok (mk_btf_type 1 false [])
    else Err (- EINVAL);
  btf__type_cnt := 4
|}.

#[export] Instance DemoEnv : CgenEnv := {
  cgen_btf := DemoBtf;
  bf_ctx_get_elfstub := fun id => Some (demo_elfstub id);
  bf_opts_is_verbose_bpf := false
}.

Lemma demo_env_ok : env_ok.
Proof.
  constructor; [by eexists| |done]. intros s f Hin. unfold used_fields in Hin. rewrite !elem_of_cons, elem_of_nil in Hin.
  repeat (destruct Hin as [[= -> ->]|Hin]; [by eexists|]). done.
Qed.

(** An ELF object: a call of [bpf_dynptr_slice], the load of a string, and the
    end; its sections are [.text], [.rodata], the names of the sections, the
    names of the symbols, the symbols and the relocations. *)
Definition demo_shdr (name type offset size link info : Z) : list Z :=
  le_split 4 name ++ le_split 4 type ++ le_split 16 0 ++ le_split 8 offset ++ le_split 8 size ++
  le_split 4 link ++ le_split 4 info ++ le_split 16 0.
Definition demo_chars (s : string) : list Z := (fun c => Z.of_nat (Ascii.nat_of_ascii c)) <$> String.list_ascii_of_string s.

Definition demo_object : list Z :=
  ELFMAG ++ [ELFCLASS64] ++ replicate 35 0 ++ le_split 8 208 ++ replicate 10 0 ++ le_split 2 64 ++ le_split 2 7 ++ le_split 2 3 ++
  [133; 16; 0; 0] ++ le_split 4 (-1) ++ [183; 1; 0; 0; 0; 0; 0; 0] ++ [149; 0; 0; 0; 0; 0; 0; 0] ++
  demo_chars "failed" ++ [0] ++ [0] ++ demo_chars ".text" ++ [0] ++ demo_chars ".rodata" ++ [0] ++
  [0] ++ demo_chars "bpf_dynptr_slice" ++ [0] ++
  replicate 24 0 ++ le_split 4 1 ++ replicate 20 0 ++
  le_split 8 0 ++ le_split 4 R_BPF_64_32 ++ le_split 4 1 ++ le_split 8 8 ++ le_split 4 R_BPF_64_64 ++ le_split 4 1 ++
  demo_shdr 0 0 0 0 0 0 ++ demo_shdr 1 1 64 24 0 0 ++ demo_shdr 7 1 88 7 0 0 ++ demo_shdr 0 3 95 15 0 0 ++
  demo_shdr 0 3 110 18 0 0 ++ demo_shdr 0 SHT_SYMTAB 128 48 4 0 ++ demo_shdr 0 SHT_REL 176 32 5 1.

(** * The chain *)

Definition demo_set : bf_set :=
  match bf_set_new (Some "hosts"%string) [BF_MATCHER_IP4_DADDR] with
  | Ok s => bf_set_add_elem s [198; 51; 100; 7]
  | Err _ => mk_set None [] [] 0 false
  end.

Definition demo_rules : list bf_rule :=
  [mk_rule 0 [bf_matcher_new BF_MATCHER_IP4_SADDR BF_MATCHER_EQ [192; 0; 2; 1]] 0 0 true BF_VERDICT_DROP;
   bf_rule_mark_set
     (mk_rule 1 [bf_matcher_new BF_MATCHER_TCP_DPORT BF_MATCHER_RANGE [80; 0; 187; 1]] 4 0 true BF_VERDICT_CONTINUE) 7;
   mk_rule 2 [bf_matcher_new BF_MATCHER_SET BF_MATCHER_IN [0; 0; 0; 0]] 0 0 false BF_VERDICT_ACCEPT].

Definition demo_chain : bf_chain :=
  bf_chain_new "demo" BF_HOOK_TC_INGRESS BF_VERDICT_DROP [demo_set] demo_rules.

(** * The packet: TCP from 203.0.113.9 to 198.51.100.7, port 443 *)

Definition demo_l3 : list Z :=
  [69; 0; 0; 40; 0; 0; 0; 0; 64; 6; 0; 0; 203; 0; 113; 9; 198; 51; 100; 7].
Definition demo_l4 : list Z :=
  [200; 1; 1; 187; 0; 0; 0; 0; 0; 0; 0; 0; 80; 2; 0; 0; 0; 0; 0; 0].
Definition demo_l2 : list Z := [2; 0; 0; 0; 0; 2; 2; 0; 0; 0; 0; 1; 8; 0].
Definition demo_slice (hdr : bf_pkthdr) : option (list Z) :=
  Some match hdr with BF_PKTHDR_LINK => demo_l2 | BF_PKTHDR_INTERNET => demo_l3 | BF_PKTHDR_TRANSPORT => demo_l4 end.
Definition demo_pkt : pkt :=
  mk_pkt (htobe16 ETH_P_IP) IPPROTO_TCP demo_l3 demo_l4 3 54 0 0 2 demo_slice.

Definition demo_layout : layout := mk_layout 4096 8192 8448 12288 None 12288 12296.

Fixpoint mem_write (a : Z) (bs : list Z) (m : memory) : memory :=
  match bs with [] => m | b :: bs => <[a := b]> (mem_write (a + 1) bs m) end.

(** The runtime context: the fields the matchers read. *)
Definition demo_stack : memory :=
  let at_ f v n m := mem_write (4096 + BF_PROG_CTX_OFF f) (le_split n v) m in
  at_ RT_arg 12288 8%nat (at_ RT_pkt_size 54 8%nat (at_ RT_ipv6_eh 0 1%nat (at_ RT_ifindex 3 4%nat
    (at_ RT_l2_hdr 8704 8%nat (at_ RT_l3_hdr 8192 8%nat (at_ RT_l4_hdr 8448 8%nat
    (at_ RT_l2_size 14 1%nat (at_ RT_l3_size 20 1%nat (at_ RT_l4_size 20 1%nat (at_ RT_log_map 2 8%nat
      (mem_write 3856 (replicate 240 0) ∅))))))))))).

Definition demo_mem : memory :=
  mem_write 8192 demo_l3 (mem_write 8448 demo_l4 (mem_write 8704 demo_l2
    (mem_write 12296 [0; 0; 0; 0] demo_stack))).

(** A counter per rule, then the ones of the policy and of the errors; room for
    one record. *)
Definition demo_counts : gmap Z bf_counter :=
  list_to_map ((fun i => (i, mk_counter 10 1000)) <$> [0; 1; 2; 3; 4]).
Definition demo_world : kworld :=
  mk_kworld [5; 6; 7] demo_counts 1 1000000 [] [] (demo_l2 ++ demo_l3 ++ demo_l4).

Definition demo_vm : vm kworld :=
  mk_vm (<[7 := htobe16 ETH_P_IP]> (<[8 := IPPROTO_TCP]> (<[10 := 4096]> ∅))) demo_mem demo_world.

Lemma demo_mapped o : -240 <= o < 0 -> is_Some (demo_mem !! u64 (4096 + o)).
Proof.
  intros Ho.
  assert (forallb (fun n => match demo_mem !! u64 (4096 - Z.of_nat n) with Some _ => true | None => false end)
            (seq 1 240) = true) as Hall by (by vm_compute).
  rewrite forallb_forall in Hall. specialize (Hall (Z.to_nat (- o)) ltac:(apply in_seq; lia)).
  replace (4096 - Z.of_nat (Z.to_nat (- o))) with (4096 + o) in Hall by lia.
  destruct (demo_mem !! _); [by eexists|done].
Qed.

Lemma demo_bytes : mem_bytes demo_mem.
Proof.
  assert (forallb (fun kv => (0 <=? snd kv) && (snd kv <? 256)) (map_to_list demo_mem) = true) as Hall
    by (by vm_compute).
  intros a b Hb. rewrite forallb_forall in Hall.
  specialize (Hall (a, b) ltac:(by apply list_elem_of_In, elem_of_map_to_list)).
  unfold is_byte. cbn in Hall. lia.
Qed.

Ltac free_tac := intros ? ? ? ?; cbn in *; rewrite !u64_small by lia; lia.

Lemma demo_pkt_wf : pkt_wf demo_pkt.
Proof.
  constructor; cbn [demo_pkt pk_l3proto pk_l4proto pk_l3 pk_l4 pk_ifindex pk_eh pk_mark];
    try (intros _; cbn; lia); try (by vm_compute); unfold demo_l3, demo_l4;
    repeat constructor; unfold is_byte; lia.
Qed.

Lemma demo_layout_wf : layout_wf demo_layout demo_pkt.
Proof.
  constructor; cbn [demo_layout lo_fp lo_l3 lo_l4 lo_arg lo_deref lo_skb lo_mark];
    unfold sizeof_bf_runtime; try exact I; try (split; free_tac); try free_tac. lia.
Qed.

Lemma demo_ctx : ctx_rel demo_layout demo_pkt demo_vm.
Proof.
  constructor.
  - apply demo_pkt_wf.
  - apply demo_layout_wf.
  - reflexivity.
  - reflexivity.
  - reflexivity.
  - apply demo_mapped.
  - apply demo_bytes.
  - vm_compute; reflexivity.
  - intros _. vm_compute; reflexivity.
  - intros _. vm_compute; reflexivity.
  - vm_compute; reflexivity.
  - vm_compute; reflexivity.
  - vm_compute; reflexivity.
  - vm_compute; reflexivity.
  - vm_compute; reflexivity.
  - reflexivity.
  - vm_compute; reflexivity.
  - vm_compute; reflexivity.
  - intros hdr. destruct hdr; (eexists _, _; split; [vm_compute; reflexivity|]; split; [vm_compute; reflexivity|];
      cbn [demo_pkt pk_slice demo_slice]; split_and!; [done|done|cbn; lia|vm_compute; reflexivity]).
  - intros hdr ptr bs Hp [= <-].
    assert (Hp' : Some ptr = Some match hdr with
      | BF_PKTHDR_LINK => 8704 | BF_PKTHDR_INTERNET => 8192 | BF_PKTHDR_TRANSPORT => 8448 end)
      by (rewrite <- Hp; destruct hdr; vm_compute; reflexivity).
    injection Hp' as ->. destruct hdr; split; free_tac.
Qed.

(** * The system *)

(** The kernel hands out descriptors in order; every other call succeeds. *)
#[export] Instance DemoSys : Sys Z := {
  sys_call := fun call k =>
    match call with
    | SysProgLoad _ _ _ _ _ _ | SysMapCreate _ _ _ _ _ _ _ _ | SysBtfLoad _ _ _
    | SysLinkCreate _ _ _ _ _ | SysOpen _ | SysObjGet _ _ _ => (k, k + 1)
    | _ => (0, k)
    end
}.

Definition dummy_program : bf_program := prog0 demo_chain BF_FLAVOR_TC.

Definition demo_p0 : bf_program := match bf_program_new demo_chain with Ok p => p | Err _ => dummy_program end.
Definition demo_p1 : bf_program :=
  match bf_program_generate demo_p0 with Ok (_, p) => p | Err _ => dummy_program end.
Definition demo_load : res unit * (bf_program * Z) := bf_program_load (-1) (demo_p1, 10).
Definition demo_p2 : bf_program := fst (snd demo_load).

Lemma demo_new : bf_program_new demo_chain = Ok demo_p0.
Proof. by vm_compute. Qed.
Lemma demo_generate : bf_program_generate demo_p0 = Ok (tt, demo_p1).
Proof. by vm_compute. Qed.
Lemma demo_loaded : bf_program_load (-1) (demo_p1, 10) = (Ok tt, (demo_p2, snd (snd demo_load))).
Proof. by vm_compute. Qed.

(** * A kernel that hands out descriptors *)

(** A kernel whose descriptors are the positions of a list, open or closed. *)
Abbreviation fd_kernel := (list bool).

#[export] Instance FdKernelSys : Sys fd_kernel := {
  sys_call := fun c k =>
    match c with
    | SysClose fd => (0, if 0 <=? fd then <[Z.to_nat fd := false]> k else k)
    | SysSend _ data | SysWrite _ data => (Z.of_nat (length data), k)
    | c => if opens c then (Z.of_nat (length k), k ++ [true]) else (0, k)
    end
}.

Definition fd_kernel_open (k : fd_kernel) : gset Z :=
  list_to_set (omap id (imap (fun i (b : bool) => if b then Some (Z.of_nat i) else None) k)).

Lemma elem_of_fd_kernel_open z k : z ∈ fd_kernel_open k <-> 0 <= z /\ k !! Z.to_nat z = Some true.
Proof.
  unfold fd_kernel_open. rewrite elem_of_list_to_set, list_elem_of_omap. split.
  - intros (o & Ho & Hz). apply list_elem_of_lookup in Ho as [i Hi].
    rewrite list_lookup_imap in Hi. destruct (k !! i) as [b|] eqn:E; cbn in Hi; [|done].
    injection Hi as <-. destruct b; cbn in Hz; [|done]. injection Hz as <-. rewrite Nat2Z.id. split; [lia|done].
  - intros [Hz Hk]. exists (Some z). split; [|done]. apply list_elem_of_lookup. exists (Z.to_nat z).
    rewrite list_lookup_imap, Hk. cbn. by rewrite Z2Nat.id.
Qed.

#[export] Instance FdKernel : FdSys fd_kernel.
Proof.
  refine {| fd_open := fd_kernel_open |}.
  - intros fd k. apply set_eq. intros z. rewrite elem_of_difference, elem_of_singleton, !elem_of_fd_kernel_open.
    cbn [sys_call FdKernelSys snd]. destruct (Z.leb_spec 0 fd).
    + destruct (decide (z = fd)) as [->|Hne].
      * split; [|naive_solver]. intros [_ E]. destruct (decide (Z.to_nat fd < length k)%nat).
        -- rewrite list_lookup_insert_eq in E by done. done.
        -- rewrite list_insert_ge in E by lia. rewrite lookup_ge_None_2 in E by lia. done.
      * split; intros Hx; (split; [|done || naive_solver]) || idtac.
        -- destruct Hx as [Hz E]. rewrite list_lookup_insert_ne in E by lia. done.
        -- destruct Hx as [[Hz E] _]. by rewrite list_lookup_insert_ne by lia.
    + split; [|naive_solver]. intros [Hz E]. split; [done|]. lia.
  - intros c k Ho _. assert (sys_call c k = (Z.of_nat (length k), k ++ [true])) as -> by (by destruct c).
    cbn [fst snd]. split.
    + rewrite elem_of_fd_kernel_open, Nat2Z.id. intros [_ E]. by rewrite lookup_ge_None_2 in E by lia.
    + apply set_eq. intros z. rewrite elem_of_union, elem_of_singleton, !elem_of_fd_kernel_open. split.
      * intros [Hz E]. apply lookup_app_Some in E as [E|[Hge E]]; [by right|left].
        apply list_lookup_singleton_Some in E as [E _]. lia.
      * intros [->|[Hz E]].
        -- split; [lia|]. rewrite Nat2Z.id. by apply list_lookup_middle.
        -- split; [done|]. by apply lookup_app_l_Some.
  - intros c k Ho Hlt. assert (sys_call c k = (Z.of_nat (length k), k ++ [true])) as E by (by destruct c).
    rewrite E in Hlt. cbn in Hlt. lia.
  - intros c k Ho Hc. assert (snd (sys_call c k) = k) as ->; [|done].
    destruct c; try done. by destruct (Hc fd).
Defined.

#[export] Instance FdCounters : CounterSys fd_kernel := {| sys_counter := fun _ _ _ => bf_counter_new 0 0 |}.

(** The options the example chain is attached with. *)
Definition demo_hookopts : bf_hookopts := mk_hookopts 1 3 None 0 0 0.

#[export] Instance FdFiles : FileSys fd_kernel := {|
  sys_read := fun _ _ _ => []; sys_inode := fun fd _ => fd; sys_isdir := fun _ _ => true
|}.
