(* ===== verification/GenProps.v ===== *)
(** The properties of the code generator, from a whole chain down to the pieces
    of code it is made of.  Each is applied to the concrete chain, packet and
    kernel of [Demo]. *)

From S2P Require Import Prelude Bytes Bpf Helper Hook Hookopts Matcher BfSet Sys Map Rule.
From S2P Require Import Chain Printer Serial Log Btf Program Elf Block BlockExec Fixups Context Symbolic Match.
From S2P Require Import Stubs KernelSpec GenIp4 GenIp6 GenL4 Swich Flavors GenMeta Stub GenSet Prologue.
From S2P Require Import Ipv6 Load Fds Generate Frame Correct Demo.

(** * Chains *)

(** C1: the program generated and loaded for a chain, run by the interpreter
    from the end of its prologue on a packet described by the runtime context,
    exits within as many steps as it has instructions, with the return value
    the hook gives to the verdict of the first rule that decides, or of the
    policy; the packet's mark, the logs and the counters are those of the rules
    that matched. *)
Theorem loaded_chain_correct `{CgenEnv} {W : Type} `{Kernel W} (c : bf_chain) `{!StubHelpers W} `{!KernelSpec W c}
    (fl : bf_flavor) (lo : layout) {K : Type} `{Sys K} (tok : Z) p0 p1 p2 (k k' : K)
    (ext : callee -> call_sem W) (map_ptr map_value_ptr : Z -> Z) :
  env_ok -> Forall (rule_ok c fl lo) (chain_rules c) -> is_Some (get_verdict fl (chain_policy c)) ->
  bf_hook_to_flavor (chain_hook c) = Some fl ->
  bf_program_new c = Ok p0 -> bf_program_generate p0 = Ok (tt, p1) ->
  bf_program_load tok (p1, k) = (Ok tt, (p2, k')) ->
  Z.of_nat (img_size p1) < 2 ^ 15 ->
  sim_env (prog_fds p2) (elfstubs_location p2) ext map_ptr map_value_ptr (prog_used p2) ->
  exists ps, generate_start p0 = Ok (tt, ps) /\
    forall pk (s : vm W), ctx_rel lo pk s ->
      exists fuel s', (fuel <= img_size p1)%nat /\
        run ext map_ptr map_value_ptr fuel (prog_img p2) (img_size ps) s =
          Exited (verdict_ret fl (fst (chain_sem c pk (world s)))) s' /\
        ctx_rel lo (fst (snd (chain_sem c pk (world s)))) s' /\
        world s' = snd (snd (chain_sem c pk (world s))).
Proof. intros. eapply loaded_chain_runs; eassumption. Qed.

(** The demo chain's rules are what the generators accept. *)
Lemma demo_rules_ok : Forall (rule_ok demo_chain BF_FLAVOR_TC demo_layout) (chain_rules demo_chain).
Proof.
  assert (mark_layout BF_FLAVOR_TC demo_layout) as Hm by (by split).
  repeat constructor; try done.
  intros _. exists demo_set. split_and!; [done| |by repeat constructor; unfold is_byte; lia|by vm_compute].
  constructor; try done; try (by vm_compute; lia).
  - repeat constructor. by eexists.
  - repeat constructor.
Qed.

Definition demo_ext (f : callee) : call_sem kworld :=
  match f with
  | Subprog 187 => stub_call BF_ELFSTUB_UPDATE_COUNTERS
  | Subprog 189 => stub_call BF_ELFSTUB_PARSE_IPV6_EH
  | Subprog 191 => stub_call BF_ELFSTUB_LOG
  | f => km_ext demo_chain f
  end.

Definition demo_map_ptr (fd : Z) : Z := if fd =? 10 then 16 else if fd =? 12 then 1 else 2.

Lemma demo_sim_env : sim_env (H := KernelModel demo_chain) (prog_fds demo_p2) (elfstubs_location demo_p2)
  demo_ext demo_map_ptr (fun _ => 0) (prog_used demo_p2).
Proof.
  constructor; try done.
  - intros [|i|[]] Hu; vm_compute in Hu; first [by destruct Hu | done].
  - intros t a Hu. destruct t; try done.
    assert (attr_set a = O) as E.
    { destruct Hu as [m Hm]. change (prog_sets demo_p2) with [default (prog_cmap demo_p2) (head (prog_sets demo_p2))] in Hm.
      destruct (attr_set a); [done|]. destruct n; done. }
    unfold prog_fds. rewrite E. cbn [k_map KernelModel km_map]. rewrite E. by vm_compute.
Qed.

Definition demo_start : nat :=
  match generate_start demo_p0 with Ok (_, p) => img_size p | Err _ => O end.

(** The demo packet goes through the first two rules, which mark, log and count
    it, and is accepted by the set of the third. *)
Lemma loaded_chain_correct_witness :
  exists fuel s', (fuel <= img_size demo_p1)%nat /\
    run demo_ext demo_map_ptr (fun _ => 0) fuel (prog_img demo_p2) demo_start demo_vm = Exited TC_ACT_OK s' /\
    ctx_rel demo_layout (with_mark 7 demo_pkt) s' /\
    world s' = mk_kworld [5; 6; 7] (<[1 := mk_counter 11 1054]> demo_counts) 0 1000001
      [mk_log 1000000 54 1 ETH_P_IP IPPROTO_TCP 4 4 (replicate 16 0) (replicate 40 0) (demo_l4 ++ replicate 4 0)]
      [] (demo_l2 ++ demo_l3 ++ demo_l4).
Proof.
  destruct (loaded_chain_correct (H0 := KernelModel demo_chain) (KernelSpec0 := KernelModelSpec demo_chain)
              demo_chain BF_FLAVOR_TC demo_layout (-1) demo_p0 demo_p1 demo_p2 10
              (snd (snd demo_load)) demo_ext demo_map_ptr (fun _ => 0)
              demo_env_ok demo_rules_ok ltac:(by eexists) eq_refl demo_new demo_generate demo_loaded
              ltac:(by vm_compute) demo_sim_env) as (ps & Hps & Hx).
  destruct (Hx demo_pkt demo_vm demo_ctx) as (fuel & s' & Hf & Hr & Hc & Hw).
  exists fuel, s'. split; [exact Hf|]. split; [|split; [exact Hc|rewrite Hw; vm_compute; reflexivity]].
  assert (demo_start = img_size ps) as -> by (unfold demo_start; by rewrite Hps). exact Hr.
Defined.

(** * Rules *)

(** C2: the code generated for a rule, its jumps to the next rule resolved,
    exits with the rule's verdict when every matcher accepts the packet and the
    verdict is final, and falls through to the next rule otherwise, after the
    mark, the log and the counter of a rule that matched. *)
Theorem rule_generated_correct `{CgenEnv} {W : Type} `{Kernel W} (c : bf_chain) `{!StubHelpers W} `{!KernelSpec W c}
    (fl : bf_flavor) (lo : layout) r : rule_ok c fl lo r ->
  exists b, remits c fl (_bf_program_generate_rule r) b /\
    (Z.of_nat (size b) < 2 ^ 15 -> forall pk (s : vm W), ctx_rel lo pk s ->
      let '(_, v, (pk', w')) := rule_sem c r pk (world s) in
      exists s', exec b 0 s = chain_out fl v s' /\ ctx_rel lo pk' s' /\ world s' = w').
Proof.
  intros Hr. destruct (rule_body_outs c fl lo r Hr) as (b & Hb & Hx). exists (resolve b).
  split; [by apply remits_rule|]. rewrite size_resolve. intros Hsz pk s Hc.
  destruct (Hx pk s Hc) as (s' & X & Hc' & Hw').
  destruct (rule_sem c r pk (world s)) as [[m v] [pk' w']]. cbn [fst snd] in *. exists s'.
  rewrite exec_resolve by (lia || (rewrite X; by destruct v, m)). rewrite X.
  split_and!; [by destruct v, m|done|done].
Qed.

(** The second rule of the demo chain: it matches, and the next rule is tried. *)
Lemma rule_generated_correct_witness :
  exists b, remits demo_chain BF_FLAVOR_TC
      (_bf_program_generate_rule (default bf_rule_new (chain_rules demo_chain !! 1%nat))) b /\
    (Z.of_nat (size b) < 2 ^ 15 -> exists s', exec (H := KernelModel demo_chain) b 0 demo_vm = BFall 0 s' /\
      ctx_rel demo_layout (with_mark 7 demo_pkt) s').
Proof.
  destruct (rule_generated_correct (H0 := KernelModel demo_chain) (KernelSpec0 := KernelModelSpec demo_chain)
              demo_chain BF_FLAVOR_TC demo_layout (default bf_rule_new (chain_rules demo_chain !! 1%nat)))
    as (b & Hb & Hx).
  - exact (proj1 (Forall_lookup _ _) demo_rules_ok 1%nat _ eq_refl).
  - exists b. split; [exact Hb|]. intros Hsz. destruct (Hx Hsz demo_pkt demo_vm demo_ctx) as (s' & X & Hc & _).
    exists s'. by split.
Defined.

(** * Matchers *)

(** C3: the code of an IPv4 matcher (addresses, networks, protocol) goes on
    exactly for the IPv4 packets whose field has, or for the other operator
    does not have, the payload as its value or prefix. *)
Theorem ip4_matcher_correct {W : Type} `{Kernel W} c fl lo m :
  matcher_wf m -> is_ip4_type (matcher_type m) = true ->
  gen_matches c fl lo (bf_matcher_generate_ip4 m) (pure_match (W := W) (fun pk => match_ip4 pk m)).
Proof. apply gen_ip4_matches. Qed.

Definition demo_snet : bf_matcher :=
  bf_matcher_new BF_MATCHER_IP4_SNET BF_MATCHER_EQ [22; 0; 0; 0; 203; 0; 112; 0].

Lemma ip4_matcher_correct_witness :
  exists b s', gemits demo_chain BF_FLAVOR_TC (bf_matcher_generate_ip4 demo_snet) b /\
    exec (H := KernelModel demo_chain) b 0 demo_vm = BFall 0 s'.
Proof.
  destruct (ip4_matcher_correct (H := KernelModel demo_chain) demo_chain BF_FLAVOR_TC demo_layout demo_snet)
    as (b & Hb & Hx); [constructor; [repeat constructor; unfold is_byte; lia|reflexivity|vm_compute; discriminate]
                      |reflexivity|].
  destruct (Hx demo_pkt demo_vm demo_ctx) as (s' & _ & _ & X). exists b, s'. split; [exact Hb|exact X].
Defined.

(** C4: the code of an IPv6 matcher (addresses, networks, next header) goes on
    exactly for the IPv6 packets that match, next headers being looked up in
    the mask of extension headers or compared with the transport protocol. *)
Theorem ip6_matcher_correct {W : Type} `{Kernel W} c fl lo m :
  matcher_wf m -> is_ip6_type (matcher_type m) = true ->
  (matcher_type m = BF_MATCHER_IP6_NEXTHDR -> matcher_op m <> BF_MATCHER_IN) ->
  gen_matches c fl lo (bf_matcher_generate_ip6 m) (pure_match (W := W) (fun pk => match_ip6 pk m)).
Proof. apply gen_ip6_matches. Qed.

Definition demo_nexthdr : bf_matcher := bf_matcher_new BF_MATCHER_IP6_NEXTHDR BF_MATCHER_EQ [44].

(** An IPv4 packet does not match. *)
Lemma ip6_matcher_correct_witness :
  exists b s', gemits demo_chain BF_FLAVOR_TC (bf_matcher_generate_ip6 demo_nexthdr) b /\
    exec (H := KernelModel demo_chain) b 0 demo_vm = BRule s'.
Proof.
  destruct (ip6_matcher_correct (H := KernelModel demo_chain) demo_chain BF_FLAVOR_TC demo_layout demo_nexthdr)
    as (b & Hb & Hx); [constructor; [repeat constructor; unfold is_byte; lia|reflexivity|exact I]
                      |reflexivity|discriminate|].
  destruct (Hx demo_pkt demo_vm demo_ctx) as (s' & _ & _ & X). exists b, s'. split; [exact Hb|exact X].
Defined.

(** What the transport matchers decide. *)
Definition match_l4 (pk : pkt) (m : bf_matcher) : bool :=
  if is_tcp_type (matcher_type m) then match_tcp pk m
  else if is_udp_type (matcher_type m) then match_udp pk m
  else match_icmp pk m.

(** C5: the code of a TCP, UDP or ICMP matcher goes on exactly for the packets
    of the protocol whose port is, is not, or is in the range of the payload,
    whose flags compare as asked, whose type or code is or is not the payload. *)
Theorem l4_matcher_correct `{CgenEnv} {W : Type} `{Kernel W} c fl lo m :
  matcher_wf m -> matcher_op m <> BF_MATCHER_IN ->
  is_tcp_type (matcher_type m) || is_udp_type (matcher_type m) || is_icmp_type (matcher_type m) = true ->
  gen_matches c fl lo (bf_matcher_generate m) (pure_match (W := W) (fun pk => match_l4 pk m)).
Proof.
  intros Hwf Hop Ht. unfold bf_matcher_generate, match_l4.
  destruct (is_tcp_type (matcher_type m)) eqn:Et.
  - pose proof (gen_tcp_matches (W := W) c fl lo m Hwf Et Hop). by destruct (matcher_type m).
  - destruct (is_udp_type (matcher_type m)) eqn:Eu.
    + pose proof (gen_udp_matches (W := W) c fl lo m Hwf Eu Hop). by destruct (matcher_type m).
    + pose proof (gen_icmp_matches (W := W) c fl lo m Hwf Ht Hop). by destruct (matcher_type m).
Qed.

Definition demo_range : bf_matcher := bf_matcher_new BF_MATCHER_TCP_DPORT BF_MATCHER_RANGE [80; 0; 187; 1].

Lemma l4_matcher_correct_witness :
  exists b s', gemits demo_chain BF_FLAVOR_TC (bf_matcher_generate demo_range) b /\
    exec (H := KernelModel demo_chain) b 0 demo_vm = BFall 0 s'.
Proof.
  destruct (l4_matcher_correct (H0 := KernelModel demo_chain) demo_chain BF_FLAVOR_TC demo_layout demo_range)
    as (b & Hb & Hx); [constructor; [repeat constructor; unfold is_byte; lia|reflexivity|exact I]
                      |discriminate|reflexivity|].
  destruct (Hx demo_pkt demo_vm demo_ctx) as (s' & _ & _ & X). exists b, s'. split; [exact Hb|exact X].
Defined.

(** C6: the code of a set matcher goes on exactly for the packets that have the
    protocols of the set's key and whose fields, put together, are an element
    of the set, or whose address is in one of its networks. *)
Theorem set_matcher_correct {W : Type} `{Kernel W} c `{!StubHelpers W} `{!KernelSpec W c} fl lo m set :
  (4 <= length (matcher_payload m))%nat ->
  matcher_type m = BF_MATCHER_SET -> chain_sets c !! Z.to_nat (payload_u32 m) = Some set -> set_wf set ->
  Forall is_bytes (set_elems set) -> (set_use_trie set = false -> key_fields_size (set_key set) <= 64) ->
  gen_matches c fl lo (bf_matcher_generate_set m) (pure_match (W := W) (match_set set)).
Proof. intros. by eapply gen_set_matches. Qed.

Lemma demo_set_wf : set_wf demo_set.
Proof.
  constructor; try done; try (by vm_compute; lia).
  - repeat constructor. by eexists.
  - repeat constructor.
Qed.

Lemma set_matcher_correct_witness :
  exists b s', gemits demo_chain BF_FLAVOR_TC
      (bf_matcher_generate_set (bf_matcher_new BF_MATCHER_SET BF_MATCHER_IN [0; 0; 0; 0])) b /\
    exec (H := KernelModel demo_chain) b 0 demo_vm = BFall 0 s'.
Proof.
  destruct (set_matcher_correct (H := KernelModel demo_chain) (KernelSpec0 := KernelModelSpec demo_chain)
              demo_chain BF_FLAVOR_TC demo_layout (bf_matcher_new BF_MATCHER_SET BF_MATCHER_IN [0; 0; 0; 0]) demo_set)
    as (b & Hb & Hx); [cbn; lia|reflexivity|reflexivity|apply demo_set_wf|repeat constructor; unfold is_byte; lia
                      |vm_compute; discriminate|].
  destruct (Hx demo_pkt demo_vm demo_ctx) as (s' & _ & _ & X). exists b, s'. split; [exact Hb|exact X].
Defined.

(** C7: the code of a meta matcher goes on exactly as [match_meta] says: the
    interface index on 16 bits, the network and transport protocols, the ports
    of TCP and UDP packets other than 0, the mark against the sign-extended
    immediate, and a random number up to the threshold, drawn once. *)
Theorem meta_matcher_correct `{CgenEnv} {W : Type} `{Kernel W} (c : bf_chain) `{!StubHelpers W} `{!KernelSpec W c} fl lo m :
  matcher_wf m -> is_meta_type (matcher_type m) = true ->
  (matcher_type m = BF_MATCHER_META_MARK -> mark_layout fl lo) ->
  gen_matches c fl lo (bf_matcher_generate_meta m) (match_meta c m).
Proof. apply gen_meta_matches. Qed.

Definition demo_sport : bf_matcher := bf_matcher_new BF_MATCHER_META_SPORT BF_MATCHER_NE [0; 22].

Lemma meta_matcher_correct_witness :
  exists b s', gemits demo_chain BF_FLAVOR_TC (bf_matcher_generate_meta demo_sport) b /\
    exec (H := KernelModel demo_chain) b 0 demo_vm = BFall 0 s'.
Proof.
  destruct (meta_matcher_correct (H0 := KernelModel demo_chain) (KernelSpec0 := KernelModelSpec demo_chain)
              demo_chain BF_FLAVOR_TC demo_layout demo_sport)
    as (b & Hb & Hx); [constructor; [repeat constructor; unfold is_byte; lia|reflexivity|exact I]
                      |reflexivity|discriminate|].
  destruct (Hx demo_pkt demo_vm demo_ctx) as (s' & _ & _ & X). exists b, s'. split; [exact Hb|exact X].
Defined.

(** The range where a meta matcher does what its name promises: the interface
    index of the packet fits 16 bits, the mark of the payload is below 2^31, the
    port of the packet is not 0, the probability is at most 50%. *)
Definition meta_in_range (m : bf_matcher) (pk : pkt) : Prop :=
  match matcher_type m with
  | BF_MATCHER_META_IFACE => pk_ifindex pk < 2 ^ 16
  | BF_MATCHER_META_MARK => payload_u32 m < 2 ^ 31
  | BF_MATCHER_META_SPORT | BF_MATCHER_META_DPORT => be16 (meta_port_field (matcher_type m) pk) <> 0
  | BF_MATCHER_META_PROBABILITY => payload_u8 m <= 50
  | _ => True
  end.

(** What the names of all the meta matchers promise: a random number is in the
    first hundredths of its range. *)
Definition meta_intended {W : Type} `{Kernel W} {c : bf_chain} `{!StubHelpers W} `{!KernelSpec W c} (m : bf_matcher) : mspec W := fun pk w =>
  match matcher_type m with
  | BF_MATCHER_META_PROBABILITY =>
      (fst (k_prandom (c := c) w) <=? UINT32_MAX * payload_u8 m / 100, snd (k_prandom (c := c) w))
  | _ => (match_meta_intended pk m, w)
  end.

Lemma match_meta_pkt_intended pk m : pkt_wf pk -> matcher_wf m ->
  matcher_type m <> BF_MATCHER_META_PROBABILITY -> meta_in_range m pk ->
  match_meta_pkt pk m = match_meta_intended pk m.
Proof.
  intros Hpk Hm Hn Hi. pose proof (payload_u32_range m Hm) as Hr. pose proof (matcher_len m Hm) as Hl.
  unfold match_meta_pkt, match_meta_intended, meta_in_range in *.
  destruct (matcher_type m); cbn in Hl; try done.
  - pose proof (pw_ifindex _ Hpk). unfold u16, uw. rewrite Z.mod_small by lia.
    destruct (decide (payload_u32 m < 2 ^ 31)); [by rewrite imm_value_small by lia|].
    pose proof (imm_value_large (payload_u32 m) ltac:(lia)). by rewrite !(proj2 (Z.eqb_neq _ _)) by lia.
  - rewrite (proj2 (Z.eqb_neq _ _) Hi). by rewrite andb_true_r.
  - rewrite (proj2 (Z.eqb_neq _ _) Hi). by rewrite andb_true_r.
  - by rewrite imm_value_small by lia.
Qed.

(** The thresholds of the probabilities up to 50%, and above. *)
Lemma proba_thresholds : forallb (fun p => proba_threshold (Z.of_nat p) =? UINT32_MAX * Z.of_nat p / 100) (seq 0 101) = true.
Proof. by vm_compute. Qed.

Lemma proba_match {W : Type} `{Kernel W} (c : bf_chain) `{!StubHelpers W} `{!KernelSpec W c} w p : 0 <= p <= 100 ->
  (fst (k_prandom w) <=? imm_value (proba_threshold p)) = (fst (k_prandom w) <=? UINT32_MAX * p / 100) || (51 <=? p).
Proof.
  intros Hp.
  assert (proba_threshold p = UINT32_MAX * p / 100) as ->.
  { pose proof proba_thresholds as Hall. rewrite forallb_forall in Hall.
    specialize (Hall (Z.to_nat p)). rewrite Z2Nat.id in Hall by lia.
    apply Z.eqb_eq, Hall, in_seq. lia. }
  pose proof (k_prandom_range w). set (t := UINT32_MAX * p / 100).
  assert (100 * t <= UINT32_MAX * p < 100 * t + 100) as Hd.
  { unfold t. pose proof (Z.div_mod (UINT32_MAX * p) 100). pose proof (Z.mod_pos_bound (UINT32_MAX * p) 100). lia. }
  unfold UINT32_MAX in Hd. destruct (Z.leb_spec 51 p).
  - rewrite orb_true_r. apply Z.leb_le. pose proof (imm_value_large t). lia.
  - by rewrite orb_false_r, imm_value_small by lia.
Qed.

Lemma payload_u8_range m : matcher_wf m -> 0 <= payload_u8 m.
Proof.
  intros Hwf. unfold payload_u8. pose proof (le_combine_bound (take 1 (matcher_payload m)) ltac:(apply is_bytes_take, Hwf)). lia.
Qed.

Lemma match_meta_is_intended {W : Type} `{Kernel W} (c : bf_chain) `{!StubHelpers W} `{!KernelSpec W c} pk w m :
  pkt_wf pk -> matcher_wf m -> meta_in_range m pk -> match_meta c m pk w = meta_intended (c := c) m pk w.
Proof.
  intros Hpk Hm Hr. destruct (decide (matcher_type m = BF_MATCHER_META_PROBABILITY)) as [E|E].
  - unfold meta_in_range in Hr. unfold match_meta, meta_intended. rewrite E in *. f_equal.
    pose proof (payload_u8_range m Hm). rewrite (proba_match c) by lia.
    by rewrite (proj2 (Z.leb_gt 51 _)), orb_false_r by lia.
  - pose proof (match_meta_pkt_intended pk m Hpk Hm E Hr). unfold match_meta, meta_intended.
    destruct (matcher_type m); congruence.
Qed.

(** C8: a meta matcher compiles to code that does what its name promises, the
    rule going on if it matches and being left otherwise, when the packet's
    interface index fits 16 bits, the mark in the payload is below 2^31, the
    packet's port is not 0 and the probability is at most 50%: then the
    interface, the protocols, the ports and the mark of the packet are compared
    with the payload, and a random number with the percentage of its range. *)
Theorem meta_matcher_intended `{CgenEnv} {W : Type} `{Kernel W} (c : bf_chain) `{!StubHelpers W} `{!KernelSpec W c} fl lo m :
  matcher_wf m -> is_meta_type (matcher_type m) = true ->
  (matcher_type m = BF_MATCHER_META_MARK -> mark_layout fl lo) ->
  exists b, gemits c fl (bf_matcher_generate_meta m) b /\
    forall pk s, ctx_rel lo pk s -> meta_in_range m pk ->
      exists s', ctx_rel lo pk s' /\ world s' = snd (meta_intended (c := c) m pk (world s)) /\
        exec b 0 s = if fst (meta_intended (c := c) m pk (world s)) then BFall 0 s' else BRule s'.
Proof.
  intros Hm Ht Hl. destruct (gen_meta_matches c fl lo m Hm Ht Hl) as (b & Hb & Hx).
  exists b. split; [exact Hb|]. intros pk s Hs Hr. rewrite <- (match_meta_is_intended c) by (done || apply Hs). by apply Hx.
Qed.

Lemma meta_matcher_intended_witness :
  exists b s', gemits demo_chain BF_FLAVOR_TC (bf_matcher_generate_meta demo_sport) b /\
    exec (H := KernelModel demo_chain) b 0 demo_vm = BFall 0 s'.
Proof.
  destruct (meta_matcher_intended (H0 := KernelModel demo_chain) (KernelSpec0 := KernelModelSpec demo_chain)
              demo_chain BF_FLAVOR_TC demo_layout demo_sport)
    as (b & Hb & Hx); [constructor; [repeat constructor; unfold is_byte; lia|reflexivity|exact I]
                      |reflexivity|discriminate|].
  destruct (Hx demo_pkt demo_vm demo_ctx) as (s' & _ & _ & X); [vm_compute; discriminate|].
  exists b, s'. split; [exact Hb|exact X].
Defined.

(** What a meta matcher does out of that range: no packet has an interface index
    of 2^16 or more, or a mark of 2^31 or more, and every random number is
    accepted from 51% on. *)
Definition meta_outside (m : bf_matcher) (pk : pkt) : option bool :=
  match matcher_type m with
  | BF_MATCHER_META_IFACE => if (2 ^ 16 <=? pk_ifindex pk) && (payload_u32 m =? pk_ifindex pk) then Some false else None
  | BF_MATCHER_META_MARK => if 2 ^ 31 <=? payload_u32 m then Some (eq_or_ne (matcher_op m) false) else None
  | BF_MATCHER_META_PROBABILITY => if (51 <=? payload_u8 m) && (payload_u8 m <=? 100) then Some true else None
  | _ => None
  end.

Lemma match_meta_outside {W : Type} `{Kernel W} (c : bf_chain) `{!StubHelpers W} `{!KernelSpec W c} pk w m r :
  pkt_wf pk -> matcher_wf m -> meta_outside m pk = Some r -> fst (match_meta c m pk w) = r.
Proof.
  intros Hpk Hm. pose proof (payload_u32_range m Hm) as Hr. pose proof (matcher_len m Hm) as Hl.
  unfold match_meta, meta_outside, match_meta_pkt. destruct (matcher_type m); try done; cbn in Hl; case_match; try done; intros [= <-]; cbn [fst].
  - rewrite andb_true_iff, Z.leb_le, Z.eqb_eq in *. specialize (Hr ltac:(lia)). apply Z.eqb_neq. unfold u16, uw.
    pose proof (Z.mod_pos_bound (pk_ifindex pk) (2 ^ 16) eq_refl).
    destruct (decide (payload_u32 m < 2 ^ 31)); [rewrite imm_value_small by lia; lia|].
    pose proof (imm_value_large (payload_u32 m) ltac:(lia)). lia.
  - rename select (_ = true) into Hc. rewrite andb_true_iff, !Z.leb_le in Hc. pose proof (payload_u8_range m Hm). rewrite (proba_match c) by lia. rewrite (proj2 (Z.leb_le 51 _)) by lia. apply orb_true_r.
  - rewrite Z.leb_le in *. specialize (Hr ltac:(lia)). pose proof (imm_value_large (payload_u32 m) ltac:(lia)). pose proof (pw_mark _ Hpk).
    by rewrite (proj2 (Z.eqb_neq (pk_mark pk) _)) by lia.
Qed.

(** C9: out of that range the code of a meta matcher does not do what its name
    promises: it leaves the rule for a packet of the interface that is asked
    for, when the index is 2^16 or more; it finds a mark of 2^31 or more equal to
    the mark of no packet and different from the mark of every packet; and
    it goes on for every packet from a probability of 51% on. *)
Theorem meta_matcher_out_of_range `{CgenEnv} {W : Type} `{Kernel W} (c : bf_chain) `{!StubHelpers W} `{!KernelSpec W c} fl lo m :
  matcher_wf m -> is_meta_type (matcher_type m) = true ->
  (matcher_type m = BF_MATCHER_META_MARK -> mark_layout fl lo) ->
  exists b, gemits c fl (bf_matcher_generate_meta m) b /\
    forall pk s r, ctx_rel lo pk s -> meta_outside m pk = Some r ->
      exists s', ctx_rel lo pk s' /\ world s' = snd (meta_intended (c := c) m pk (world s)) /\
        exec b 0 s = if r then BFall 0 s' else BRule s'.
Proof.
  intros Hm Ht Hl. destruct (gen_meta_matches c fl lo m Hm Ht Hl) as (b & Hb & Hx).
  exists b. split; [exact Hb|]. intros pk s r Hs Hr. destruct (Hx pk s Hs) as (s' & Hs' & Hw & E). exists s'.
  rewrite E, (match_meta_outside c pk (world s) m r) by (done || apply Hs). split_and!; [done| |done].
  rewrite Hw. unfold match_meta, meta_intended. by destruct (matcher_type m).
Qed.

Definition high_mark : bf_matcher := bf_matcher_new BF_MATCHER_META_MARK BF_MATCHER_EQ [7; 0; 0; 128].

Lemma meta_matcher_out_of_range_witness :
  exists b s', gemits demo_chain BF_FLAVOR_TC (bf_matcher_generate_meta high_mark) b /\
    exec (H := KernelModel demo_chain) b 0 demo_vm = BRule s'.
Proof.
  destruct (meta_matcher_out_of_range (H0 := KernelModel demo_chain) (KernelSpec0 := KernelModelSpec demo_chain)
              demo_chain BF_FLAVOR_TC demo_layout high_mark)
    as (b & Hb & Hx); [constructor; [repeat constructor; unfold is_byte; lia|reflexivity|exact I]
                      |reflexivity|intros _; split; reflexivity|].
  destruct (Hx demo_pkt demo_vm false demo_ctx) as (s' & _ & _ & X); [vm_compute; reflexivity|].
  exists b, s'. split; [exact Hb|exact X].
Defined.

(** * Parsing *)

(** C11: for IPv6, the next headers 0, 11, 47, 48, 59, 60, 135, 139 and 140 call
    the stub that walks the extension headers, on the runtime context, and its
    result is the transport protocol; every other next header is the transport
    protocol, and the transport header follows the IPv6 header. *)
Theorem ipv6_header_parsed {W : Type} `{Kernel W} (c : bf_chain) fl (s : vm W) h fp n : 
  regs s !! 0 = Some h -> regs s !! 10 = Some fp -> load (mem s) 1 (h + 6) = Some n -> 0 <= n < 2 ^ 8 ->
  gemits c fl parse_l3_ip6 (ip6_block c) /\
  if eh_walked n
  then exists rs, rs !! 1 = Some (u64 (fp + BF_PROG_CTX_OFF RT_arg)) /\
    forall r0 m w, k_stub (eh_stub c) rs (mem s) (world s) = Some (r0, m, w) ->
      exists s', exec (ip6_block c) 0 s = BFall 0 s' /\ regs s' !! 8 = Some r0 /\ mem s' = m /\ world s' = w
  else forall o m, load (mem s) 4 (fp + BF_PROG_CTX_OFF RT_l3_offset) = Some o ->
    store (mem s) 4 (fp + BF_PROG_CTX_OFF RT_l4_offset) (u64 (o + 40)) = Some m ->
    exists s', exec (ip6_block c) 0 s = BFall 0 s' /\ regs s' !! 8 = Some n /\ mem s' = m /\ world s' = world s.
Proof.
  intros H0 H10 Hl Hn. split; [apply gemits_ip6|]. destruct (eh_walked n) eqn:E.
  - by eapply exec_ip6_walked.
  - intros o m Ho Hs. by eapply exec_ip6_direct.
Qed.

Definition demo_ip6_vm : vm kworld :=
  mk_vm (<[0 := 8192]> (<[10 := 4096]> ∅)) (mem_write 8198 [58] demo_mem) demo_world.

(** ICMPv6 right after the IPv6 header. *)
Lemma ipv6_header_parsed_witness :
  exists s', exec (H := KernelModel demo_chain) (ip6_block demo_chain) 0 demo_ip6_vm = BFall 0 s' /\
    regs s' !! 8 = Some IPPROTO_ICMPV6.
Proof.
  destruct (ipv6_header_parsed (H := KernelModel demo_chain) demo_chain BF_FLAVOR_TC demo_ip6_vm 8192 4096 58
              eq_refl eq_refl ltac:(by vm_compute) ltac:(lia)) as [_ Hx].
  destruct (Hx 0 (default ∅ (store (mem demo_ip6_vm) 4 (4096 + BF_PROG_CTX_OFF RT_l4_offset) (u64 (0 + 40))))
              ltac:(by vm_compute) ltac:(by vm_compute)) as (s' & E & H8 & _).
  exists s'. split; [exact E|exact H8].
Defined.

(** C10: for an IPv6 packet whose first extension header calls the parser, at
    most six extension headers and two bytes after them, the generated code,
    with the stub that is linked, leaves the protocol that ends the chain of
    headers as the transport protocol and its offset in the context, whatever
    the lengths of the headers; a mask is only stored for the chains that match
    next headers, and then [ip6.nexthdr] matches exactly the headers of the
    chain. *)
Theorem ipv6_headers_walked {W : Type} `{Kernel W} `{!StubHelpers W} (c : bf_chain) (s : vm W) (p : list Z)
    h fp n o3 hs t off :
  (forall id rs m w, k_stub id rs m w = stub_call id rs m w) ->
  slices_of p (world s) -> Z.of_nat (length p) < 2 ^ 32 ->
  regs s !! 0 = Some h -> regs s !! 10 = Some fp -> ctx_mapped (mem s) (fp + BF_PROG_CTX_OFF RT_arg) ->
  load (mem s) 8 (fp + BF_PROG_CTX_OFF RT_l3_hdr) = Some h -> load (mem s) 1 (h + 6) = Some n ->
  load (mem s) 4 (fp + BF_PROG_CTX_OFF RT_l3_offset) = Some o3 -> 0 <= o3 ->
  0 <= n < 2 ^ 8 -> eh_walked n = true ->
  ext_chain p n (o3 + 40) hs t off -> (length hs <= 6)%nat -> off + 2 <= Z.of_nat (length p) ->
  exists s', exec (ip6_block c) 0 s = BFall 0 s' /\ regs s' !! 8 = Some t /\ world s' = world s /\
    load (mem s') 4 (fp + BF_PROG_CTX_OFF RT_l4_offset) = Some off /\
    parser_frame (mem s) (mem s') (fp + BF_PROG_CTX_OFF RT_arg) /\
    (chain_has c BF_CHAIN_STORE_NEXTHDR = true ->
       load (mem s') 1 (fp + BF_PROG_CTX_OFF RT_ipv6_eh) = Some (eh_mask_of hs) /\
       forall pk op nh, pk_l4proto pk = t -> pk_eh pk = eh_mask_of hs ->
         match_nexthdr op pk nh = eq_or_ne op (bool_decide (nh ∈ hs ++ [t]))).
Proof.
  intros Hk Hsl Hp H0 H10 Hm Hh Hl Ho Ho3 Hn Hw Hc Hlen Hend.
  destruct (exec_ip6_walked c s h fp n H0 H10 Hl Hn Hw) as (rs & H1 & Hx).
  pose proof Hm as (Hlo & Hhi & _). rewrite u64_small in H1 by (unfold sizeof_bf_runtime in Hhi; lia).
  set (ctx := fp + BF_PROG_CTX_OFF RT_arg) in *.
  assert (forall f, fp + BF_PROG_CTX_OFF f = ctx + offsetof_bf_runtime f) as Hf.
  { intros f. unfold ctx, BF_PROG_CTX_OFF. cbn [offsetof_bf_runtime]. lia. }
  rewrite !Hf in *. unfold eh_stub in Hx. destruct (chain_has c BF_CHAIN_STORE_NEXTHDR).
  - destruct (bf_parse_ipv6_nh_ok p (world s) ctx Hsl Hp (mem s) h n o3 Hm Hh Hl Ho Ho3 hs t off Hc Hend Hlen)
      as (m' & E & Hfr & Hl4 & Heh).
    destruct (Hx t m' (world s)) as (s' & X & H8 & <- & Hwd).
    { rewrite Hk. unfold stub_call. rewrite H1. cbn [mbind option_bind]. by rewrite E. }
    exists s'. split_and!; [done..|]. intros _. split; [done|].
    intros pk op nh. by apply match_nexthdr_chain with (1 := Hc).
  - destruct (bf_parse_ipv6_eh_ok p (world s) ctx Hsl Hp (mem s) h n o3 Hm Hh Hl Ho Ho3 hs t off Hc Hend Hlen)
      as (m' & E & Hfr & Hl4).
    destruct (Hx t m' (world s)) as (s' & X & H8 & <- & Hwd).
    { rewrite Hk. unfold stub_call. rewrite H1. cbn [mbind option_bind]. by rewrite E. }
    exists s'. by split_and!.
Qed.

(** Hop-by-hop options, then destination options of sixteen bytes, a fragment
    header, and TCP. *)
Definition demo_ip6_packet : list Z :=
  demo_l2 ++ replicate 6 0 ++ [0] ++ replicate 33 0 ++
  [60; 0; 0; 0; 0; 0; 0; 0] ++ [44; 1] ++ replicate 14 0 ++ [6; 0; 0; 0; 0; 0; 0; 0] ++ demo_l4.

Definition demo_ext_vm : vm kworld :=
  mk_vm (<[0 := 8192]> (<[10 := 4096]> ∅))
    (mem_write (4096 + BF_PROG_CTX_OFF RT_l3_offset) (le_split 4 14) (mem_write 8198 [0] demo_mem))
    (mk_kworld [] ∅ 0 0 [] [] demo_ip6_packet).

(** A chain whose rule matches the next header. *)
Definition demo_nexthdr_chain : bf_chain :=
  bf_chain_new "nexthdr" BF_HOOK_TC_INGRESS BF_VERDICT_ACCEPT []
    [mk_rule 0 [bf_matcher_new BF_MATCHER_IP6_NEXTHDR BF_MATCHER_EQ [60]] 0 0 false BF_VERDICT_DROP].

Lemma demo_ext_chain : ext_chain demo_ip6_packet 0 54 [0; 60; 44] 6 86.
Proof.
  apply (chain_ext _ 0 54 60 0); [by eexists|reflexivity|lia|done|].
  apply (chain_ext _ 60 62 44 1); [by eexists|reflexivity|lia|done|].
  apply (chain_ext _ 44 78 6 0); [by eexists|reflexivity|lia|done|].
  by apply chain_end.
Qed.

Lemma demo_ext_mapped : ctx_mapped (mem demo_ext_vm) (4096 + BF_PROG_CTX_OFF RT_arg).
Proof.
  split_and!; [by vm_compute|by vm_compute|]. intros k Hk.
  assert (forallb (fun i => match mem demo_ext_vm !! (3856 + Z.of_nat i) with Some _ => true | None => false end)
            (seq 0 240) = true) as Hall by (by vm_compute).
  rewrite forallb_forall in Hall. specialize (Hall (Z.to_nat k) ltac:(apply in_seq; unfold sizeof_bf_runtime in Hk; lia)).
  rewrite Z2Nat.id in Hall by lia. change (4096 + BF_PROG_CTX_OFF RT_arg) with 3856.
  destruct (mem demo_ext_vm !! _); [by eexists|done].
Qed.

Lemma ipv6_headers_walked_witness :
  chain_has demo_nexthdr_chain BF_CHAIN_STORE_NEXTHDR = true /\
  exists s', exec (H := KernelModel demo_nexthdr_chain) (ip6_block demo_nexthdr_chain) 0 demo_ext_vm = BFall 0 s' /\
    regs s' !! 8 = Some IPPROTO_TCP /\ load (mem s') 4 (4096 + BF_PROG_CTX_OFF RT_l4_offset) = Some 86 /\
    load (mem s') 1 (4096 + BF_PROG_CTX_OFF RT_ipv6_eh) = Some 21.
Proof.
  split; [by vm_compute|].
  destruct (ipv6_headers_walked (H := KernelModel demo_nexthdr_chain) demo_nexthdr_chain demo_ext_vm demo_ip6_packet
              8192 4096 0 14 [0; 60; 44] 6 86) as (s' & X & H8 & _ & Hl & _ & He);
    [done|done|by vm_compute|done|done|exact demo_ext_mapped|by vm_compute|by vm_compute|by vm_compute|lia|lia|done
    |exact demo_ext_chain|cbn; lia|by vm_compute|].
  destruct (He ltac:(by vm_compute)) as [Hm _]. exists s'. split; [exact X|]. split; [exact H8|]. split; [exact Hl|].
  rewrite Hm. by vm_compute.
Defined.

(** * Counters and logs *)

(** Packets that go one after the other through an image, from the instruction
    [pc]: each finds the registers and the memory of its own context, and the
    state of the kernel that the one before left. *)
Fixpoint image_run {W : Type} `{Kernel W} (ext : callee -> call_sem W) (map_ptr map_value_ptr : Z -> Z)
    (fuel : nat) (code : list bpf_insn) (pc : nat) (packets : list (vm W)) (w : W) : option W :=
  match packets with
  | [] => Some w
  | s :: packets =>
      match run ext map_ptr map_value_ptr fuel code pc (mk_vm (regs s) (mem s) w) with
      | Exited _ s' => image_run ext map_ptr map_value_ptr fuel code pc packets (world s')
      | _ => None
      end
  end.

(** C12: after packets have gone through the loaded program of a chain, one
    after the other, a counter of the counters' map has one packet more for
    every hit, and the bytes of the packets that hit it, modulo 2^64: the
    counter of a rule is hit by the packets that match it, and the one of the
    chain by those that no rule decides.  The run of every packet ends within
    as many steps as the program has instructions. *)
Theorem counters_exact `{CgenEnv} {W : Type} `{Kernel W} (c : bf_chain) `{!StubHelpers W} `{!KernelSpec W c}
    `{!AccountSpec W c} (fl : bf_flavor) (lo : layout) {K : Type} `{Sys K} (tok : Z) p0 p1 p2 (k k' : K)
    (ext : callee -> call_sem W) (map_ptr map_value_ptr : Z -> Z) :
  env_ok -> Forall (rule_ok c fl lo) (chain_rules c) -> is_Some (get_verdict fl (chain_policy c)) ->
  bf_hook_to_flavor (chain_hook c) = Some fl ->
  bf_program_new c = Ok p0 -> bf_program_generate p0 = Ok (tt, p1) ->
  bf_program_load tok (p1, k) = (Ok tt, (p2, k')) ->
  Z.of_nat (img_size p1) < 2 ^ 15 ->
  sim_env (prog_fds p2) (elfstubs_location p2) ext map_ptr map_value_ptr (prog_used p2) ->
  exists ps, generate_start p0 = Ok (tt, ps) /\
    forall l (w : W) key packets bytes, Forall (fun x => ctx_rel lo (fst x) (snd x)) l ->
      counter_of key w = Some (mk_counter packets bytes) -> 0 <= packets < 2 ^ 64 -> 0 <= bytes < 2 ^ 64 ->
      exists w', image_run ext map_ptr map_value_ptr (img_size p1) (prog_img p2) (img_size ps) (snd <$> l) w = Some w' /\
        counter_of key w' =
          Some (mk_counter (u64 (packets + Z.of_nat (length (run_hits c key (fst <$> l) w))))
                           (u64 (bytes + total (run_hits c key (fst <$> l) w)))).
Proof.
  intros Henv Hr Hv Hfl Hnew Hgen Hload Hsz Hsim.
  destruct (loaded_chain_runs c fl lo tok p0 p1 p2 k k' ext map_ptr map_value_ptr Henv Hr Hv Hfl Hnew Hgen Hload Hsz Hsim)
    as (ps & Hps & Hx). exists ps. split; [exact Hps|]. intros l w key packets bytes Hl Hw Hp Hb.
  exists (chain_run c (fst <$> l) w). split.
  - clear Hw. revert w. induction Hl as [|[pk s] l Hs _ IH]; intros w; [done|]. cbn [fmap list_fmap image_run chain_run fst snd] in *.
    destruct (Hx pk (mk_vm (regs s) (mem s) w) (ctx_rel_world lo pk s w Hs)) as (fuel & s' & Hf & E & _ & Hw').
    rewrite (run_exited_mono _ _ _ _ _ _ _ _ _ _ Hf E), Hw'. apply IH.
  - rewrite (run_count c), Hw. cbn [fmap option_fmap option_map]. f_equal. by apply bumps_total.
Qed.

(** The demo packet, twice, hits the second rule, whose counter wraps around. *)
Definition demo_counted : kworld :=
  mk_kworld [5; 6; 7] (<[1 := mk_counter (2 ^ 64 - 1) 7]> demo_counts) 2 1000000 [] [] (demo_l2 ++ demo_l3 ++ demo_l4).

Definition demo_packets : list (pkt * vm kworld) := [(demo_pkt, demo_vm); (demo_pkt, demo_vm)].

Lemma demo_packets_ctx : Forall (fun x => ctx_rel demo_layout (fst x) (snd x)) demo_packets.
Proof. apply Forall_cons. split; [exact demo_ctx|]. apply Forall_singleton. exact demo_ctx. Qed.

Lemma counters_exact_witness :
  exists w', image_run (H := KernelModel demo_chain) demo_ext demo_map_ptr (fun _ => 0) (img_size demo_p1) (prog_img demo_p2) demo_start
               [demo_vm; demo_vm] demo_counted = Some w' /\
    counter_of (H := KernelModel demo_chain) 1 w' = Some (mk_counter 1 115).
Proof.
  destruct (counters_exact (H0 := KernelModel demo_chain) (KernelSpec0 := KernelModelSpec demo_chain)
              demo_chain BF_FLAVOR_TC demo_layout (-1) demo_p0 demo_p1 demo_p2 10
              (snd (snd demo_load)) demo_ext demo_map_ptr (fun _ => 0)
              demo_env_ok demo_rules_ok ltac:(by eexists) eq_refl demo_new demo_generate demo_loaded
              ltac:(by vm_compute) demo_sim_env) as (ps & Hps & Hx).
  destruct (Hx demo_packets demo_counted 1 (2 ^ 64 - 1) 7) as (w' & E & Hc);
    [exact demo_packets_ctx|by vm_compute|lia|lia|].
  exists w'. split.
  - assert (demo_start = img_size ps) as -> by (unfold demo_start; by rewrite Hps). exact E.
  - etransitivity; [exact Hc|]. by vm_compute.
Defined.

(** C13: a rule that logs publishes one record when the ring buffer has room:
    the time, the rule, the protocols, the size of the packet and the headers
    that were requested; the headers that are there have their bit and their
    bytes, and the bytes of the others are those of the buffer. *)
Theorem log_recorded `{CgenEnv} {W : Type} `{Kernel W} `{!StubHelpers W} (c : bf_chain) `{!KernelSpec W c} fl lo r :
  0 < rule_log r < 8 ->
  exists b, gemits c fl (generate_log r) b /\ forall pk (s : vm W), ctx_rel lo pk s ->
    exists s', exec b 0 s = BFall 0 s' /\ ctx_rel lo pk s' /\
      match bpf_ringbuf_reserve (pk_log_map pk) (world s) with
      | (None, w) => world s' = bpf_printk "failed to reserve %d bytes in ringbuf" w
      | (Some old, w) => exists record,
          world s' = bpf_ringbuf_submit record (snd (bpf_ktime_get_ns w)) /\
          log_ts record = fst (bpf_ktime_get_ns w) /\ log_pkt_size record = pk_size pk /\
          log_rule_id record = u32 (rule_index r) /\ log_l3_proto record = bswap16 (pk_l3proto pk) /\
          log_l4_proto record = pk_l4proto pk /\ log_req_headers record = rule_log r /\
          forall hdr, log_has (log_headers record) hdr = log_has (rule_log r) hdr && bool_decide (is_Some (pk_slice pk hdr)) /\
            record_slice record hdr =
              match pk_slice pk hdr with
              | Some bs => if log_has (rule_log r) hdr then bs ++ drop (length bs) (record_slice old hdr)
                           else record_slice old hdr
              | None => record_slice old hdr
              end
      end.
Proof.
  intros Hr. destruct (gen_log_does c fl lo r) as (b & Hb & Hx). exists b. split; [done|]. intros pk s Hc.
  destruct (Hx pk s Hc) as (s' & X & Hc' & Hw). exists s'. split; [done|]. split; [done|]. rewrite Hw.
  pose proof (cr_pkt _ _ _ Hc) as Hpk. pose proof (pw_l3proto _ Hpk). pose proof (pw_l4proto _ Hpk).
  unfold log_effect, log_packet. cbn [snd]. rewrite (proj2 (Z.eqb_neq (rule_log r) 0)) by lia.
  destruct (bpf_ringbuf_reserve (pk_log_map pk) (world s)) as [[old|] w1]; [|done].
  destruct (bpf_ktime_get_ns w1) as [ts w2]. cbn [fst snd].
  assert (u8 (imm_value (rule_log r)) = rule_log r) as Ehdrs.
  { rewrite imm_value_small by lia. unfold u8. apply Z.mod_small. lia. }
  rewrite Ehdrs. eexists. split; [reflexivity|].
  cbn [log_ts log_pkt_size log_rule_id log_l3_proto log_l4_proto log_req_headers log_headers].
  split_and!; [done|done|apply u32_imm_value|unfold u16; by rewrite Z.mod_small|unfold u8; by rewrite Z.mod_small
              |by rewrite Z.mod_small by lia|].
  intros hdr. split.
  - rewrite logged_headers. unfold logged. destruct (log_has (rule_log r) hdr); [|done]. cbn [andb].
    destruct (pk_slice pk hdr); [by rewrite bool_decide_eq_true_2 by (by eexists)|by rewrite bool_decide_eq_false_2 by (by intros [? ?])].
  - transitivity (logged_slice (rule_log r) (pk_slice pk) hdr (record_slice old hdr)); [by destruct hdr|].
    unfold logged_slice, logged. destruct (log_has (rule_log r) hdr), (pk_slice pk hdr); done.
Qed.

(** The second rule of the demo chain logs the transport header. *)
Definition demo_log_rule : bf_rule := default (mk_rule 0 [] 0 0 false BF_VERDICT_DROP) (demo_rules !! 1%nat).

Lemma log_recorded_witness :
  exists b s', gemits demo_chain BF_FLAVOR_TC (generate_log demo_log_rule) b /\
    exec (H := KernelModel demo_chain) b 0 demo_vm = BFall 0 s' /\
    exists record, head (kw_log (world s')) = Some record /\ log_rule_id record = 1 /\
      take 20 (log_l4hdr record) = demo_l4.
Proof.
  destruct (log_recorded (H0 := KernelModel demo_chain) (KernelSpec0 := KernelModelSpec demo_chain) demo_chain
              BF_FLAVOR_TC demo_layout demo_log_rule) as (b & Hb & Hx); [by vm_compute|].
  destruct (Hx demo_pkt demo_vm demo_ctx) as (s' & X & _ & record & Hw & _ & _ & Hid & _ & _ & _ & Hh).
  exists b, s'. split; [exact Hb|]. split; [exact X|]. exists record. split; [|split].
  - rewrite Hw. reflexivity.
  - rewrite Hid. reflexivity.
  - destruct (Hh BF_PKTHDR_TRANSPORT) as [_ E]. change (record_slice record BF_PKTHDR_TRANSPORT) with (log_l4hdr record) in E.
    rewrite E. reflexivity.
Defined.

(** * The stubs *)

(** C32: a stub that is read from its ELF object is the code of the section
    [.text], but for the instructions that a relocation names a function for:
    they are calls of this function, by the identifier that the kernel gives it.
    The kernel has every function that a relocation names: the stub is not read
    if it lacks one.  Every string is for an instruction of the stub. *)
Theorem elfstub_linked `{Btf} raw stub : bf_elfstub_new raw = Ok stub ->
  exists e text s rels, elf_open raw = Ok e /\ find_text raw e (shdrs e) = Ok text /\
    find_symbols raw e = Ok s /\ text_rels raw e (shdrs e) = Ok rels /\
    let calls := omap (kfunc_of raw s) rels in
    length (stub_insns stub) = length (elf_insns text) /\
    (forall i, i ∉ calls.*1 -> stub_insns stub !! i = elf_insns text !! i) /\
    (forall i, i ∈ calls.*1 -> exists name id, (i, name) ∈ calls /\ bf_btf_get_id name = Ok id /\
       stub_insns stub !! i = Some (kfunc_call id)) /\
    (forall i name, (i, name) ∈ calls -> exists id, bf_btf_get_id name = Ok id) /\
    Forall (fun str => printk_insn_idx str < length (stub_insns stub))%nat (stub_strs stub).
Proof.
  intros (e & text & s & rels & He & Ht & Hs & Hr & [Hi Hc Hf (strs & Hstrs & Hl)])%bf_elfstub_new_links.
  exists e, text, s, rels. split_and!; [done..|]. cbn zeta. cbn [stub_insns stub_strs app] in *.
  rewrite Forall_forall in Hc, Hf. rewrite Hi, Hstrs, length_link.
  split_and!; [done|intros i; apply link_other| |intros i name Hin; eexists; by apply (Hf _ Hin)|done].
  intros i Hin. destruct (link_call (elf_insns text) _ i Hin) as (name & Hn & E).
  - apply list_elem_of_fmap in Hin as (call & -> & Hin). by apply Hc.
  - exists name, (linked_id name). split_and!; [done|by apply (Hf _ Hn)|done].
Qed.

(** A kernel that has none of the functions. *)
Definition bare_btf : Btf := {|
  btf__find_by_name := fun _ => Err (- ENOENT);
  btf__find_by_name_kind := fun _ _ => Err (- ENOENT);
  btf__type_by_id := fun _ => Err (- EINVAL);
  btf__type_cnt := 0
|}.

(** The kernel of the example has the function; the other one has not. *)
Lemma elfstub_linked_witness :
  (exists text, elf_insns text = [mk_insn 133 0 1 0 (-1); mk_insn 183 1 0 0 0; mk_insn 149 0 0 0 0] /\
     bf_elfstub_new (H := DemoBtf) demo_object =
       Ok (mk_elfstub (<[0%nat := kfunc_call 42]> (elf_insns text)) [mk_printk 1 "failed"])) /\
  bf_elfstub_new (H := bare_btf) demo_object = Err (- ENOENT) /\
  forall stub, bf_elfstub_new (H := DemoBtf) demo_object = Ok stub -> length (stub_insns stub) = 3%nat.
Proof.
  split; [exists (sub_bytes 64 24 demo_object); split; vm_compute; reflexivity|].
  split; [vm_compute; reflexivity|].
  intros stub Hs. destruct (elfstub_linked (H := DemoBtf) demo_object stub Hs) as (e & text & s & rels & He & Ht & _ & _ & Hl & _).
  rewrite Hl. assert (Ee : Ok e = elf_open demo_object) by congruence. vm_compute in Ee. injection Ee as ->.
  assert (Et : Ok text = find_text demo_object (mk_elf 208 7 95) (shdrs (mk_elf 208 7 95))) by congruence.
  vm_compute in Et. injection Et as ->. reflexivity.
Defined.

(** * The pieces *)

(** A block placed in an image with its fixups applied is simulated by the
    interpreter of the whole image: as many steps as the block has slots are
    enough to fall through to its end, or past it, or to exit. *)
Theorem block_simulated {W : Type} `{Kernel W} fd loc (ext : callee -> call_sem W) map_ptr map_value_ptr
    (used : bf_fixup_type -> bf_fixup_attr -> Prop) code pc b k s :
  sim_env fd loc ext map_ptr map_value_ptr used ->
  (forall n, (n < size b)%nat -> code !! (pc + n)%nat = final fd loc pc b !! n) ->
  forallb no_rule b = true -> Forall (item_used used) b -> exec b k s <> BFault ->
  exists fuel, (fuel <= size b)%nat /\
    sim_out (exec b k s) pc (size b) (run ext map_ptr map_value_ptr fuel code (pc + k)%nat s).
Proof. intros Henv. by apply sim_block. Qed.

Definition demo_exit : block :=
  [ISingle (BPF_MOV64_IMM BPF_REG_0 2) None; ISingle BPF_EXIT_INSN None].

(** Two instructions, the second one being skipped. *)
Lemma block_simulated_witness :
  exists fuel, (fuel <= 2)%nat /\
    run (W := kworld) demo_ext demo_map_ptr (fun _ => 0) fuel (flat demo_exit) 0 demo_vm =
      Exited 2 (set_reg 0 2 demo_vm).
Proof.
  destruct (block_simulated (H := KernelModel demo_chain) (prog_fds demo_p2) (elfstubs_location demo_p2)
              demo_ext demo_map_ptr (fun _ => 0) (prog_used demo_p2) (flat demo_exit) 0 demo_exit 0 demo_vm
              demo_sim_env) as (fuel & Hf & Hs).
  - intros [|[|n]] Hn; [reflexivity|reflexivity|cbn in Hn; lia].
  - reflexivity.
  - repeat constructor.
  - discriminate.
  - exists fuel. split; [exact Hf|exact Hs].
Defined.

(** resolving the jumps to the next rule points every one of them at the
    end of the rule, where the rule's block leaves when a matcher refuses the
    packet. *)
Theorem next_rule_resolved {W : Type} `{Kernel W} b p q (s : vm W) : emits b p q -> clean p ->
  Z.of_nat (size b) < 2 ^ 15 -> exec b 0 s <> BFault ->
  exists q', _bf_program_fixup q BF_FIXUP_TYPE_JMP_NEXT_RULE = Ok q' /\ emits (resolve b) p q' /\ clean q' /\
    exec (resolve b) 0 s = match exec b 0 s with BRule s' => BFall 0 s' | o => o end.
Proof.
  intros He Hc Hs Hx. destruct (emits_resolve b p q He Hc) as (q' & E & Hq). exists q'. split_and!; [done|done| |].
  - eapply emits_clean; [exact Hq|exact Hc|apply resolve_no_rule].
  - rewrite exec_resolve by done. by destruct (exec b 0 s).
Qed.

Definition demo_refuse : block :=
  [ISingle (BPF_JMP_IMM BPF_JNE BPF_REG_8 IPPROTO_UDP 0) (Some (BF_FIXUP_TYPE_JMP_NEXT_RULE, AttrNone));
   ISingle (BPF_MOV64_IMM BPF_REG_0 2) None; ISingle BPF_EXIT_INSN None].

Lemma next_rule_resolved_witness :
  exists q, _bf_program_fixup (with_img dummy_program (flat demo_refuse) 64
      [mk_fixup BF_FIXUP_TYPE_JMP_NEXT_RULE 0 AttrNone]) BF_FIXUP_TYPE_JMP_NEXT_RULE = Ok q /\
    clean q /\ exec (H := KernelModel demo_chain) (resolve demo_refuse) 0 demo_vm = BFall 0 demo_vm.
Proof.
  destruct (next_rule_resolved (H := KernelModel demo_chain) demo_refuse dummy_program
     (with_img dummy_program (flat demo_refuse) 64 [mk_fixup BF_FIXUP_TYPE_JMP_NEXT_RULE 0 AttrNone]) demo_vm)
     as (q & E & _ & Hc & Hx).
  - by exists 64.
  - constructor.
  - reflexivity.
  - discriminate.
  - exists q. split; [exact E|]. split; [exact Hc|exact Hx].
Defined.

(** The code generated for a switch runs the instructions of the first
    option equal to the register, or else those of the default, and goes on
    after the switch. *)
Theorem swich_correct {W : Type} `{Kernel W} c fl sw d x (s s' : vm W) : swich_default sw = Some d ->
  regs s !! swich_reg sw = Some x -> imms_ok (swich_options sw) ->
  Z.of_nat (length (swich_options sw) + 1 + bodies_size (swich_options sw) + length (opt_insns d)) < 2 ^ 15 ->
  exec (plain (default (opt_insns d) (swich_select (swich_options sw) x))) 0 s = BFall 0 s' ->
  exists b, gemits c fl (bf_swich_generate sw) b /\ exec b 0 s = BFall 0 s'.
Proof. intros. exists (swich_block sw). split; [apply gemits_swich|by eapply exec_swich]. Qed.

Lemma swich_correct_witness :
  exists b, gemits demo_chain BF_FLAVOR_TC (bf_swich_generate l4_hdr_swich) b /\
    exec (H := KernelModel demo_chain) b 0 demo_vm = BFall 0 (set_reg 4 20 demo_vm).
Proof.
  apply (swich_correct (H := KernelModel demo_chain) demo_chain BF_FLAVOR_TC l4_hdr_swich
           (mk_swich_option 0 [BPF_MOV64_IMM BPF_REG_8 0]) IPPROTO_TCP demo_vm (set_reg 4 20 demo_vm)).
  - reflexivity.
  - reflexivity.
  - repeat constructor; vm_compute; discriminate.
  - reflexivity.
  - reflexivity.
Defined.

(** The image has room for its instructions; its capacity is zero or a power
    of two of at least 64. *)
Definition img_ok (p : bf_program) : Prop :=
  Z.of_nat (img_size p) <= prog_img_cap p /\
  (prog_img_cap p = 0 \/ exists k, 6 <= k <= 31 /\ prog_img_cap p = 2 ^ k).

Lemma ensure_cap_room p : img_ok p -> Z.of_nat (img_size p) < 2 ^ 31 ->
  Z.of_nat (img_size (ensure_cap p)) < prog_img_cap (ensure_cap p) /\ img_ok (ensure_cap p).
Proof.
  intros [Hs Hc] Hl. unfold ensure_cap. destruct (Z.eqb_spec (Z.of_nat (img_size p)) (prog_img_cap p)) as [E|E].
  - unfold bf_program_grow_img, img_ok, img_size. cbn [prog_img prog_img_cap with_img]. fold (img_size p).
    destruct (Z.eqb_spec (prog_img_cap p) 0) as [E0|E0].
    + rewrite E, E0. unfold _BF_PROGRAM_DEFAULT_IMG_SIZE. split; [lia|]. split; [lia|]. right. by exists 6.
    + destruct Hc as [?|(k & Hk & Ek)]; [done|].
      assert (k < 31) by (apply (Z.pow_lt_mono_r_iff 2); lia).
      rewrite Z.shiftl_mul_pow2 by lia. rewrite Ek. replace (2 ^ k * 2 ^ 1) with (2 ^ (k + 1)) by (by rewrite Z.pow_add_r by lia).
      assert (2 ^ (k + 1) <= 2 ^ 31) by (apply Z.pow_le_mono_r; lia).
      assert (2 ^ 7 <= 2 ^ (k + 1)) by (apply Z.pow_le_mono_r; lia).
      rewrite u64_small, round_next_power_of_2_spec by lia. rewrite Z.log2_up_pow2 by lia.
      assert (2 ^ (k + 1) = 2 * 2 ^ k) as E2 by (rewrite Z.pow_add_r by lia; lia).
      split; [lia|]. split; [lia|]. right. exists (k + 1). split; [lia|done].
  - split; [lia|]. by split.
Qed.

(** C15: emitting an instruction, with or without a fixup, first makes room for
    it and writes inside of the image; the capacity stays a power of two. *)
Theorem emit_in_bounds p i t a : img_ok p -> Z.of_nat (img_size p) < 2 ^ 31 ->
  Z.of_nat (img_size (ensure_cap p)) < prog_img_cap (ensure_cap p) /\
  img_ok (bf_program_emit p i) /\ img_ok (bf_program_emit_fixup p t i a) /\
  img_size (bf_program_emit_fixup p t i a) = S (img_size p) /\
  prog_img (bf_program_emit_fixup p t i a) !! img_size p = Some i.
Proof.
  intros Hok Hs. destruct (ensure_cap_room p Hok Hs) as [Hr Hok']. split; [done|].
  assert (img_size (ensure_cap p) = img_size p) as Esz by (by rewrite ensure_cap_eq).
  assert (img_ok (bf_program_emit p i)) as He.
  { destruct Hok' as [H1 H2]. split; [|exact H2].
    unfold bf_program_emit, img_size in *. cbn [prog_img with_img prog_img_cap]. rewrite length_app. cbn. lia. }
  split; [done|].
  destruct (emits_emit_fixup p t i a) as [cap E].
  assert (ensure_cap (add_fixup (ensure_cap p) (bf_fixup_new t (img_size (ensure_cap p)) a)) =
          add_fixup (ensure_cap p) (bf_fixup_new t (img_size (ensure_cap p)) a)) as E2.
  { unfold ensure_cap at 1, img_size at 1. cbn [add_fixup prog_img with_img prog_img_cap].
    fold (img_size (ensure_cap p)). destruct (Z.eqb_spec (Z.of_nat (img_size (ensure_cap p))) (prog_img_cap (ensure_cap p))); [lia|done]. }
  split_and!.
  - unfold bf_program_emit_fixup, bf_program_emit. rewrite E2. destruct Hok' as [H1 H2]. split; [|exact H2].
    unfold img_size in *. cbn [prog_img with_img prog_img_cap add_fixup]. rewrite length_app. cbn. lia.
  - rewrite E. unfold img_size. cbn. rewrite length_app. cbn. lia.
  - rewrite E. cbn. unfold img_size. by rewrite lookup_app_r, Nat.sub_diag by lia.
Qed.

Lemma emit_in_bounds_witness : img_size (bf_program_emit_fixup demo_p1 BF_FIXUP_TYPE_LOG_MAP_FD BPF_EXIT_INSN AttrNone) = 196%nat.
Proof.
  refine (eq_trans (proj1 (proj2 (proj2 (proj2 (emit_in_bounds demo_p1 BPF_EXIT_INSN BF_FIXUP_TYPE_LOG_MAP_FD AttrNone _ _))))) _).
  - split; [vm_compute; discriminate|]. right. exists 8. split; [lia|]. by vm_compute.
  - by vm_compute.
  - by vm_compute.
Defined.
