(* ===== verification/LifeProps.v ===== *)
(** The properties of a program's life: its creation, the descriptors it opens
    and closes, pinning, and the replacement of a Netfilter link. *)

From S2P Require Import Prelude Bytes Bpf Helper Hook Hookopts Matcher BfSet Sys Map Rule.
From S2P Require Import Chain Printer Program Block BlockExec Fixups Context Symbolic Match.
From S2P Require Import Stubs KernelSpec GenIp4 GenIp6 GenL4 Swich Flavors GenMeta Stub GenSet Prologue.
From S2P Require Import Load Fds Generate Frame Correct Demo.

(** * Creation *)

Lemma set_maps_new_err i sets e : set_maps_new i sets = Err e -> e = - EINVAL.
Proof.
  revert i. induction sets as [|set sets IH]; intros i; cbn [set_maps_new]; [done|].
  unfold bf_map_new_from_set, _bf_map_new. rewrite bool_decide_eq_false_2 by done.
  destruct (_ =? 0); cbn [rbind]; [by intros [= <-]|].
  destruct (set_maps_new (S i) sets) as [ms|e'] eqn:E; cbn [rbind]; [done|]. intros [= <-]. by apply (IH (S i)).
Qed.

(** C16: a program is created for the chain of a known hook unless one of its
    sets is empty, which is an invalid argument; it has the flavor of the hook,
    no instruction, no fixup and no descriptor, and one map per set, in order,
    described from the set.  No other chain has one: nothing checks the hook
    before the tables are read. *)
Theorem program_new_ok c :
  match bf_program_new c with
  | Ok p => bf_hook_to_flavor (chain_hook c) = Some (prog_flavor p) /\
            Forall (fun s => set_elems s <> []) (chain_sets c) /\ prog_chain p = c /\
            prog_img p = [] /\ prog_img_cap p = 0 /\ prog_fixups p = [] /\
            (forall id, elfstubs_location p id = O) /\ unloaded p /\
            Forall2 set_map_ok (chain_sets c) (prog_sets p)
  | Err e => bf_hook_to_flavor (chain_hook c) <> None /\ Exists (fun s => set_elems s = []) (chain_sets c) /\ e = - EINVAL \/
             bf_hook_to_flavor (chain_hook c) = None /\ e = - BF_CRASH
  end.
Proof.
  pose proof (program_new_unloaded c) as Hu. revert Hu.
  unfold bf_program_new. destruct (bf_hook_to_flavor (chain_hook c)) as [fl|]; cbn [of_option rbind]; [|by right].
  destruct (set_maps_new_ok 0 (chain_sets c)) as [H1 H2]. pose proof (set_maps_new_err 0 (chain_sets c)) as H3. cbn.
  destruct (set_maps_new 0 (chain_sets c)) as [ms|e]; cbn [rbind]; intros Hu; [|by left; auto].
  split_and!; try done; [|by apply Hu].
  destruct (decide (Exists (fun s => set_elems s = []) (chain_sets c))) as [Hx|Hx]; [by destruct (H2 Hx)|].
  by apply not_Exists_Forall in Hx; [|intros x; destruct (set_elems x); [by left|by right]].
Qed.

(** * Descriptors *)

(** C17: whatever happens while the program of a chain is loaded and attached,
    unloading it closes every descriptor it opened, but for one at most, and
    closes none of those that were open before; it is left without descriptor. *)
Theorem lifecycle_descriptors `{CgenEnv} {K : Type} `{FdSys K} c p0 p tok ho (k : K) r p1 k1 :
  bf_program_new c = Ok p0 -> bf_program_generate p0 = Ok (tt, p) ->
  (bf_program_load tok ;; bf_program_attach ho) (p, k) = (r, (p1, k1)) ->
  closed (fst (bf_program_unload p1 k1)) /\ leak (fd_open k) (fd_open (snd (bf_program_unload p1 k1))).
Proof.
  intros Hn Hg E. pose proof (program_new_unloaded _ _ Hn) as Hu.
  apply (load_attach_unload tok ho p k r p1 k1); [|done].
  pose proof (keeps_generate _ _ _ Hg) as Hf. unfold frame in Hf.
  injection Hf as _ _ E1 E2 E3 E4 E5 E6. destruct Hu as [Hl Hp]. split; [|by rewrite E4].
  unfold others. by rewrite E1, E2, E3, E5, E6.
Qed.

Definition demo_life : res unit * (bf_program * fd_kernel) :=
  (bf_program_load (-1) ;; bf_program_attach demo_hookopts) (demo_p1, [true; true; true]).

Lemma demo_lived : (bf_program_load (-1) ;; bf_program_attach demo_hookopts) (demo_p1, [true; true; true]) =
  (Ok tt, (fst (snd demo_life), snd (snd demo_life))).
Proof. by vm_compute. Qed.

(** Descriptor 4, which the BTF object got, is still open. *)
Lemma lifecycle_descriptors_witness :
  leak (fd_kernel_open [true; true; true])
    (fd_kernel_open [true; true; true; false; true; false; false; false; false; false]).
Proof.
  destruct (lifecycle_descriptors (K := fd_kernel) demo_chain demo_p0 demo_p1 (-1) demo_hookopts
    [true; true; true] (Ok tt) (fst (snd demo_life)) (snd (snd demo_life)) demo_new demo_generate demo_lived) as [_ Hl].
  assert (snd (bf_program_unload (fst (snd demo_life)) (snd (snd demo_life))) =
    [true; true; true; false; true; false; false; false; false; false]) as Ek by (by vm_compute).
  rewrite Ek in Hl. exact Hl.
Defined.

(** The counters' map is created with a BTF object whose descriptor nobody
    keeps: it stays open, whether the map could be created or not, and the map
    of no other kind leaves one behind. *)
Theorem btf_descriptor_lost {K : Type} `{FdSys K} tok m (o : unit) (k : K) fd k1 r o2 k2 :
  map_type m = BF_MAP_TYPE_COUNTERS -> map_key_size m <> SIZE_MAX -> map_value_size m <> SIZE_MAX ->
  map_n_elems m <> SIZE_MAX -> bf_bpf_btf_load (map_name m) tok (o, k) = (Ok fd, (o, k1)) ->
  bf_map_create tok m (o, k) = (r, (o2, k2)) ->
  (fd ∉ fd_open k) /\ (fd ∈ fd_open k2) /\
  match r with
  | Ok m' => map_fd m' <> fd /\ fd_open k2 = {[map_fd m'; fd]} ∪ fd_open k
  | Err _ => fd_open k2 = {[fd]} ∪ fd_open k
  end.
Proof.
  intros Ht H1 H2 H3 Hb E. unfold bf_map_create in E.
  unfold BF_MAP_KEY_SIZE_UNKNOWN, BF_MAP_VALUE_SIZE_UNKNOWN, BF_MAP_N_ELEMS_UNKNOWN in E.
  rewrite !(proj2 (Z.eqb_neq _ _)) in E by done. unfold mbind at 1, st_bind at 1, _bf_map_make_btf in E.
  rewrite Ht, Hb in E.
  assert ((fd ∉ fd_open k) /\ fd_open k1 = {[fd]} ∪ fd_open k) as [Hn Ho].
  { unfold bf_bpf_btf_load in Hb. destruct (token_flags tok 0) as [t f].
    pose proof (h_open (SysBtfLoad (map_name m) t f) (fun (_ : unit) X => X = fd_open k) eq_refl (o, k) _ _ eq_refl Hb)
      as (Y & -> & _ & Hn & Hx). by split. }
  unfold bf_bpf_map_create in E. destruct (token_flags _ _) as [t f].
  unfold mbind, st_bind in E.
  match type of E with match ?b with _ => _ end = _ => destruct b as [x [o3 k3]] eqn:Eb end.
  pose proof (fun h => h_open _ (fun (_ : unit) X => X = fd_open k1) h (o, k1) _ _ eq_refl Eb) as Hr.
  specialize (Hr eq_refl).
  destruct x as [x|e]; cbn in Hr.
  - destruct Hr as (Y & -> & _ & Hx & Hy). injection E as <- <- <-. cbn [map_fd with_map_fd]. rewrite Hy, Ho in *.
    split_and!; [done|set_solver|set_solver|set_solver].
  - injection E as <- <- <-. rewrite Hr, Ho. split_and!; [done|set_solver|done].
Qed.

Definition demo_counters : bf_map :=
  mk_map BF_MAP_TYPE_COUNTERS BF_BPF_MAP_TYPE_ARRAY "counters_map" 4 16 5 (-1).

Lemma btf_descriptor_lost_witness : 1 ∈ fd_kernel_open [true; true; true].
Proof.
  exact (proj1 (proj2 (btf_descriptor_lost (-1) demo_counters tt [true] 1 [true; true]
    (Ok (with_map_fd 2 demo_counters)) tt [true; true; true]
    eq_refl ltac:(discriminate) ltac:(discriminate) ltac:(discriminate) eq_refl eq_refl))).
Defined.

(** * Pinning *)

(** A kernel whose file system keeps the names that are pinned, by directory. *)
Class PinSys (K : Type) `{Sys K} : Type := {
  pinned : K -> gset (Z * string);
  pin_done path fd flags dir k : 0 <= fst (sys_call (SysObjPin path fd flags dir) k) ->
    pinned (snd (sys_call (SysObjPin path fd flags dir) k)) = {[(dir, path)]} ∪ pinned k;
  pin_failed path fd flags dir k : fst (sys_call (SysObjPin path fd flags dir) k) < 0 ->
    pinned (snd (sys_call (SysObjPin path fd flags dir) k)) = pinned k;
  pin_removed dir name k : pinned (snd (sys_call (SysUnlinkat dir name) k)) = pinned k ∖ {[(dir, name)]}
}.

Definition pin_names (p : bf_program) : list string :=
  [prog_name; map_name (prog_cmap p); map_name (prog_pmap p); map_name (prog_lmap p)] ++
  (map_name <$> prog_sets p).

Definition at_dir (dir : Z) (l : list string) : gset (Z * string) := list_to_set (pair dir <$> l).

Section Pin.
Context {K : Type} `{PinSys K}.

Lemma at_dir_app dir l l' : at_dir dir (l ++ l') = at_dir dir l ∪ at_dir dir l'.
Proof. unfold at_dir. by rewrite fmap_app, list_to_set_app_L. Qed.

Lemma at_dir_cons dir x l : at_dir dir (x :: l) = {[(dir, x)]} ∪ at_dir dir l.
Proof. done. Qed.

Lemma at_dir_nil dir : at_dir dir [] = ∅.
Proof. done. Qed.

(** One more name, or nothing. *)
Definition pins (dir : Z) (l : list string) (m : st (bf_program * K) unit) : Prop :=
  forall p (k : K), match m (p, k) with
    | (Ok _, (q, k')) => q = p /\ pinned k' = at_dir dir l ∪ pinned k
    | (Err _, (q, k')) => q = p /\ pinned k ⊆ pinned k' /\ pinned k' ⊆ at_dir dir l ∪ pinned k
    end.

Lemma pins_obj dir path fd l m : pins dir l m -> pins dir (path :: l) (bf_bpf_obj_pin path fd dir ;; m).
Proof.
  intros Hm p k. unfold mbind, st_bind, bf_bpf_obj_pin, bf_bpf. rewrite at_dir_cons.
  set (f := if dir =? 0 then 0 else BPF_F_PATH_FD).
  pose proof (pin_done path fd f dir k) as Hd. pose proof (pin_failed path fd f dir k) as Hf.
  destruct (sys_call _ k) as [r k1]. cbn [fst snd] in *.
  destruct (Z.ltb_spec r 0).
  - rewrite Hf by done. set_solver.
  - specialize (Hd ltac:(done)). specialize (Hm p k1).
    destruct (m (p, k1)) as [[[]|e] [q' k2]]; destruct Hm as [-> Hm]; (split; [done|]); rewrite Hd in Hm; set_solver.
Qed.

Lemma pins_ret dir : pins dir [] (mret tt).
Proof. intros p k. split; [done|]. rewrite at_dir_nil. set_solver. Qed.

Lemma pins_one dir path fd : pins dir [path] (bf_bpf_obj_pin path fd dir ;; mret tt).
Proof. apply pins_obj, pins_ret. Qed.

Lemma pins_seq dir l l' m m' : pins dir l m -> pins dir l' m' -> pins dir (l ++ l') (m ;; m').
Proof.
  intros Hm Hm' p k. unfold mbind, st_bind. specialize (Hm p k). rewrite at_dir_app.
  destruct (m (p, k)) as [[[]|e] [q k1]]; destruct Hm as [-> Hm].
  - specialize (Hm' p k1). destruct (m' (p, k1)) as [[[]|e] [q' k2]]; destruct Hm' as [-> Hm'];
      (split; [done|]); rewrite Hm in Hm'; set_solver.
  - split; [done|]. set_solver.
Qed.

Lemma pins_maps dir ms : pins dir (map_name <$> ms) (st_iter (fun m => bf_map_pin m dir) ms).
Proof.
  induction ms as [|m ms IH]; cbn [st_iter fmap list_fmap]; [apply pins_ret|].
  apply (pins_seq dir [map_name m]); [apply pins_one|exact IH].
Qed.

Lemma unpin_maps_pinned ms dir (k : K) :
  pinned (unpin_maps ms dir k) = pinned k ∖ at_dir dir (map_name <$> ms).
Proof.
  revert k. induction ms as [|m ms IH]; intros k; cbn [unpin_maps].
  - rewrite fmap_nil, at_dir_nil. by rewrite difference_empty_L.
  - rewrite IH, fmap_cons. unfold bf_map_unpin. rewrite pin_removed, at_dir_cons. set_solver.
Qed.

Lemma unpin_pinned p dir (k : K) :
  pinned (bf_program_unpin p dir k) = pinned k ∖ at_dir dir (pin_names p ++ [link_name (prog_link p)]).
Proof.
  unfold bf_program_unpin, bf_link_unpin. rewrite !pin_removed, unpin_maps_pinned. unfold bf_map_unpin.
  rewrite !pin_removed. unfold pin_names. rewrite !at_dir_app, !at_dir_cons, !at_dir_nil. set_solver.
Qed.
End Pin.

(** C19: pinning a program is all or nothing: it adds the names of the program,
    of its maps and, when it is attached, of its link to the directory; when one
    of them cannot be pinned, none of them is left there. *)
Theorem pin_all_or_nothing {K : Type} `{PinSys K} p dir (k : K) :
  match bf_program_pin dir (p, k) with
  | (Ok _, (q, k')) => q = p /\
      pinned k' = at_dir dir (pin_names p) ∪
        match link_hookopts (prog_link p) with Some _ => {[(dir, link_name (prog_link p))]} | None => ∅ end ∪ pinned k
  | (Err _, (q, k')) => q = p /\
      pinned k' = pinned k ∖ at_dir dir (pin_names p ++ [link_name (prog_link p)])
  end.
Proof.
  set (ln := match link_hookopts (prog_link p) with Some _ => [link_name (prog_link p)] | None => [] end).
  assert (pins dir (pin_names p ++ ln)
    (bf_bpf_obj_pin prog_name (prog_fd p) dir ;; bf_map_pin (prog_cmap p) dir ;; bf_map_pin (prog_pmap p) dir ;;
     bf_map_pin (prog_lmap p) dir ;; st_iter (fun m => bf_map_pin m dir) (prog_sets p) ;;
     match link_hookopts (prog_link p) with
     | Some _ => bf_link_pin (K := K) (O := bf_program) (prog_link p) dir
     | None => mret tt
     end)) as Hp.
  { unfold pin_names. cbn [app]. apply pins_obj.
    apply (pins_seq dir [map_name (prog_cmap p)]); [apply pins_one|].
    apply (pins_seq dir [map_name (prog_pmap p)]); [apply pins_one|].
    apply (pins_seq dir [map_name (prog_lmap p)]); [apply pins_one|].
    apply pins_seq; [apply pins_maps|]. unfold ln. destruct (link_hookopts _); [apply pins_one|apply pins_ret]. }
  specialize (Hp p k). rewrite at_dir_app in Hp.
  assert (at_dir dir ln = match link_hookopts (prog_link p) with Some _ => {[(dir, link_name (prog_link p))]} | None => ∅ end) as El.
  { unfold ln. destruct (link_hookopts _); [by rewrite at_dir_cons, at_dir_nil, union_empty_r_L|done]. }
  rewrite El in Hp. clear El ln. unfold bf_program_pin, st_onerr. unfold mbind at 1, st_bind at 1, obj_get.
  match goal with |- context [match ?m (p, k) with _ => _ end] =>
    match type of Hp with context [match ?m' (p, k) with _ => _ end] => change (m (p, k)) with (m' (p, k)) end end.
  match type of Hp with context [match ?m' (p, k) with _ => _ end] =>
    destruct (m' (p, k)) as [[[]|e] [q k']] end; destruct Hp as [-> Hp].
  - by split.
  - split; [done|]. rewrite unpin_pinned, at_dir_app, at_dir_cons, at_dir_nil.
    destruct (link_hookopts _); set_solver.
Qed.

(** A kernel that refuses to pin over a name that exists. *)
#[export] Instance PinKernelSys : Sys (gset (Z * string)) := {
  sys_call := fun c k =>
    match c with
    | SysObjPin path _ _ dir => if decide ((dir, path) ∈ k) then (- EEXIST, k) else (0, {[(dir, path)]} ∪ k)
    | SysUnlinkat dir name => (0, k ∖ {[(dir, name)]})
    | _ => (0, k)
    end
}.

#[export] Instance PinKernel : PinSys (gset (Z * string)).
Proof.
  refine {| pinned := fun k => k |}; [| |done]; cbn [sys_call PinKernelSys]; intros path fd flags dir k;
    by case_decide.
Defined.

(** A name that exists: nothing of the program is left in the directory. *)
Lemma pin_all_or_nothing_witness :
  snd (snd (bf_program_pin 5 (demo_p2, {[(5, "log_map")]} : gset (Z * string)))) =
  ({[(5, "log_map")]} : gset (Z * string)) ∖ at_dir 5 (pin_names demo_p2 ++ [link_name (prog_link demo_p2)]).
Proof.
  pose proof (pin_all_or_nothing demo_p2 5 ({[(5, "log_map")]} : gset (Z * string))) as Hp.
  assert (fst (bf_program_pin 5 (demo_p2, {[(5, "log_map")]} : gset (Z * string))) = Err (- EEXIST)) as E
    by (by vm_compute).
  destruct (bf_program_pin 5 _) as [r [q k']]. cbn [fst snd] in E |- *. rewrite E in Hp. exact (proj2 Hp).
Defined.

(** * Netfilter links *)

Lemma nf_attach_type hook : bf_hook_to_flavor hook = Some BF_FLAVOR_NF ->
  bf_hook_to_bpf_attach_type hook = Some BF_BPF_NETFILTER.
Proof. by destruct hook. Qed.

(** C20: a Netfilter link is updated by asking the kernel for a second link to
    the new program, with the family and the hook of the first one and the other
    of its two priorities.  When the kernel refuses, its error is returned and
    the link is unchanged and still open.  When it accepts, the first link is closed after
    that, and the link has the new descriptor and the options with
    the priorities swapped: the one in use comes first. *)
Theorem link_update_nf_swaps {K : Type} `{FdSys K} hook prog_fd l ho (k : K) :
  bf_hook_to_flavor hook = Some BF_FLAVOR_NF -> link_hookopts l = Some ho -> 0 <= link_fd l -> link_fd l ∈ fd_open k ->
  let '(fd, k1) := sys_call (SysLinkCreate prog_fd 0 BF_BPF_NETFILTER 0
                               (Some (ho_family ho, bf_hook_to_nf_hook hook, ho_priority1 ho))) k in
  if fd <? 0
  then bf_link_update hook prog_fd (l, k) = (Err fd, (l, k1)) /\ fd_open k1 = fd_open k
  else
    let k2 := snd (sys_call (SysClose (link_fd l)) k1) in
    bf_link_update hook prog_fd (l, k) =
      (Ok tt, (mk_link (link_name l) (Some (with_priorities (ho_priority1 ho) (ho_priority0 ho) ho)) fd, k2)) /\
    (fd ∉ fd_open k) /\ fd_open k2 = {[fd]} ∪ (fd_open k ∖ {[link_fd l]}).
Proof.
  intros Hh Ho Hfd Hin. unfold bf_link_update. rewrite Hh. unfold _bf_link_update_nf. rewrite Ho.
  unfold bf_bpf_link_create. rewrite (nf_attach_type hook Hh). unfold with_priorities at 1 2. cbn [ho_family ho_priority0].
  set (c := SysLinkCreate _ _ _ _ _).
  pose proof (h_open (O := bf_link) c (fun x X => x = l /\ X = fd_open k) eq_refl (l, k)) as Hr. unfold bf_bpf in *.
  destruct (sys_call c k) as [fd k1]. specialize (Hr _ _ (conj eq_refl eq_refl) eq_refl).
  destruct (fd <? 0); cbn in Hr; [by destruct Hr as [_ HX]|].
  destruct Hr as (Y & [_ ->] & Hf & Hn & HX). pose proof (closep_open (link_fd l) k1) as Hc.
  unfold closep in *. rewrite (proj2 (Z.eqb_neq (link_fd l) (-1))) in * by lia.
  split_and!; [done|done|]. cbn [snd] in Hc. rewrite Hc, HX, (own_some _ Hfd). set_solver.
Qed.

Definition nf_link : bf_link := mk_link "bf_link" (Some (mk_hookopts 12 0 None 2 101 102)) 1.

Lemma link_update_nf_swaps_witness :
  bf_link_update BF_HOOK_NF_LOCAL_IN 0 (nf_link, [true; true]) =
    (Ok tt, (mk_link "bf_link" (Some (mk_hookopts 12 0 None 2 102 101)) 2, [true; false; true])) /\
  fd_kernel_open [true; false; true] = {[2]} ∪ (fd_kernel_open [true; true] ∖ {[1]}).
Proof.
  pose proof (link_update_nf_swaps BF_HOOK_NF_LOCAL_IN 0 nf_link (mk_hookopts 12 0 None 2 101 102)
    ([true; true] : fd_kernel) eq_refl eq_refl ltac:(discriminate) ltac:(by apply elem_of_fd_kernel_open; split)) as Hu.
  cbn in Hu. destruct Hu as (E & _ & HX). split; [exact E|exact HX].
Defined.
