(* ===== verification/LibProps.v ===== *)
(** The properties of the library, [src/libbpfilter]: buffers and strings,
    rules, sets, chains, hook options, the printer and the tables of names. *)

From S2P Require Import Prelude Bytes Bpf Helper CString Hook Hookopts Matcher BfSet Sys Lists Map.
From S2P Require Import Rule Chain Printer Program Block BlockExec Context Symbolic Match Swich.
From S2P Require Import Flavors Demo.
From Stdlib Require Import Ascii.

(** * Buffers *)

(** C21: a growable buffer holds the bytes written to it, in order, and the
    allocation has room for them and is at most four times their size, for
    every sequence of writes of half a gigabyte at most in total. *)
Theorem dynbuf_writes ws : Z.of_nat (length (concat ws)) <= 2 ^ 29 ->
  let buf := foldl bf_dynbuf_write bf_dynbuf_default ws in
  fst (bf_dynbuf_take buf) = concat ws /\ buf_len buf = Z.of_nat (length (concat ws)) /\
  0 <= buf_rem buf /\ buf_len buf + buf_rem buf = buf_cap buf /\ buf_cap buf <= 4 * buf_len buf.
Proof.
  intros Hl buf.
  assert (dynbuf_tight buf /\ buf_data buf = concat ws /\ buf_len buf = Z.of_nat (length (concat ws))) as
    ([(H1 & H2 & H3) H4] & Hd & He) by (
    unfold buf; clear buf; induction ws as [|w ws IH] using rev_ind;
      [split; [split; [apply dynbuf_default_wf|cbn; lia]|done]|];
    rewrite concat_app, length_app in Hl; cbn [concat] in Hl; rewrite app_nil_r in Hl;
    destruct IH as (Ht & Hd & He); [lia|];
    rewrite foldl_snoc; destruct (dynbuf_write_tight _ w Ht) as (Ht' & Hd' & He'); [lia|];
    rewrite Hd', He', Hd, He, concat_app, length_app; cbn [concat]; rewrite app_nil_r; split_and!; [done|done|lia]).
  by split_and!.
Qed.

Lemma dynbuf_writes_witness : fst (bf_dynbuf_take (foldl bf_dynbuf_write bf_dynbuf_default [[1; 2; 3]; []; [4]])) = [1; 2; 3; 4].
Proof. refine (proj1 (dynbuf_writes [[1; 2; 3]; []; [4]] _)). vm_compute. discriminate. Defined.

(** The size of an allocation is the least power of two not below what is
    asked for, up to 2^32; the shifts stop at 16, so beyond it the result need
    not be a power of two. *)
Theorem round_next_power_of_2_least value : 2 <= value <= 2 ^ 32 ->
  (exists k, 0 <= k /\ _bf_round_next_power_of_2 value = 2 ^ k /\ value <= 2 ^ k /\
             forall j, 0 <= j -> value <= 2 ^ j -> k <= j) /\
  _bf_round_next_power_of_2 (2 ^ 40 + 1) = 2 ^ 41 - 2 ^ 9 + 1.
Proof.
  intros Hv. split; [|by vm_compute]. exists (Z.log2_up value). pose proof (Z.log2_up_nonneg value).
  split_and!; [done|by apply round_next_power_of_2_spec|apply Z.log2_up_spec; lia|].
  intros j Hj Hle. apply Z.log2_up_le_pow2; lia.
Qed.

Lemma round_next_power_of_2_least_witness : exists k, _bf_round_next_power_of_2 104000 = 2 ^ k /\ 104000 <= 2 ^ k.
Proof.
  destruct (round_next_power_of_2_least 104000 ltac:(lia)) as [(k & _ & E & Hle & _) _]. exists k. by split.
Defined.

(** * Strings *)

Abbreviation chars := String.list_ascii_of_string.

Lemma chars_get s n : String.get n s = chars s !! n.
Proof. revert n. induction s as [|c s IH]; intros [|n]; cbn; [done..|by rewrite IH]. Qed.

Lemma chars_substring s n : chars (String.substring 0 n s) = take n (chars s).
Proof. revert n. induction s as [|c s IH]; intros [|n]; cbn; try done. by rewrite IH. Qed.

Lemma chars_length s : String.length s = length (chars s).
Proof. induction s; cbn; congruence. Qed.

(** The characters of [l] are spaces. *)
Abbreviation spaces l := (Forall (fun c => isspace c = true) l).

Lemma ltrim_spec s : exists l, chars s = l ++ chars (bf_ltrim s) /\ spaces l /\
  forall c, head (chars (bf_ltrim s)) = Some c -> isspace c = false.
Proof.
  induction s as [|c s IH]; cbn [bf_ltrim]; [by exists []|].
  destruct (isspace c) eqn:E.
  - destruct IH as (l & Hs & Hl & Ht). exists (c :: l). cbn. rewrite Hs. split_and!; [done|by constructor|done].
  - exists []. split_and!; [done|constructor|]. by intros ? [= <-].
Qed.

Lemma rtrim_end_spec s n : (n <= length (chars s))%nat ->
  (rtrim_end s n <= n)%nat /\ (1 <= n -> 1 <= rtrim_end s n)%nat /\
  spaces (drop (rtrim_end s n) (take n (chars s))) /\
  forall c, (1 < rtrim_end s n)%nat -> chars s !! (rtrim_end s n - 1)%nat = Some c -> isspace c = false.
Proof.
  induction n as [|b IH]; intros Hn; cbn [rtrim_end].
  - split_and!; [lia|lia|constructor|intros; lia].
  - rewrite chars_get. destruct (chars s !! b) as [c|] eqn:Eb; [|apply lookup_ge_None in Eb; lia].
    destruct (Nat.ltb_spec 0 b); cbn [andb]; [destruct (isspace c) eqn:Ec|].
    + destruct (IH ltac:(lia)) as (H1 & H2 & H3 & H4). split_and!; [lia|lia| |done].
      rewrite (take_S_r _ _ c) by done. rewrite drop_app_le by (rewrite length_take; lia).
      apply Forall_app. split; [done|by constructor].
    + split_and!; [lia|lia| |].
      * rewrite drop_ge by (rewrite length_take; lia). constructor.
      * intros c' _. replace (S b - 1)%nat with b by lia. rewrite Eb. by intros [= <-].
    + split_and!; [lia|lia| |intros; lia]. rewrite drop_ge by (rewrite length_take; lia). constructor.
Qed.

(** Trimming removes whitespace from both ends, and stops at the first and
    the last character that is not whitespace. *)
Theorem trim_spec s : exists l r, chars s = l ++ chars (bf_trim s) ++ r /\ spaces l /\ spaces r /\
  (forall c, head (chars (bf_trim s)) = Some c -> isspace c = false) /\
  (forall c, last (chars (bf_trim s)) = Some c -> isspace c = false).
Proof.
  destruct (ltrim_spec s) as (l & Hs & Hl & Hh). unfold bf_trim, bf_rtrim.
  rewrite chars_length. set (t := bf_ltrim s) in *.
  destruct (rtrim_end_spec t (length (chars t)) ltac:(done)) as (H1 & H2 & H3 & H4).
  rewrite take_ge in H3 by done. set (e := rtrim_end t (length (chars t))) in *.
  rewrite chars_substring. exists l, (drop e (chars t)). rewrite take_drop.
  split_and!; [done|done|done| |].
  - intros c Hc. apply Hh. destruct (chars t); [by destruct e|]. by destruct e.
  - intros c Hc. rewrite last_lookup, length_take, Nat.min_l in Hc by done.
    rewrite lookup_take in Hc. case_decide as He; [|done].
    destruct (decide (1 < e)%nat) as [H1e|H1e].
    + apply (H4 c H1e). by rewrite <- Nat.sub_1_r in Hc.
    + apply Hh. destruct e as [|[|e]]; [lia| |lia]. cbn in Hc. by destruct (chars t).
Qed.

(** * Rules and chains *)

(** A rule's mark is not set to begin with; once set to a 32-bit value it
    is read back, whatever it was before, and setting it changes nothing else. *)
Theorem rule_mark_roundtrip rule mark : 0 <= mark < 2 ^ 32 ->
  bf_rule_mark_is_set bf_rule_new = false /\
  bf_rule_mark_is_set (bf_rule_mark_set rule mark) = true /\
  bf_rule_mark_get (bf_rule_mark_set rule mark) = mark /\
  rule_matchers (bf_rule_mark_set rule mark) = rule_matchers rule /\
  rule_verdict (bf_rule_mark_set rule mark) = rule_verdict rule.
Proof. intros Hm. destruct (bf_rule_mark_set_spec rule mark Hm). by split_and!. Qed.

Lemma rule_mark_roundtrip_witness : bf_rule_mark_get (bf_rule_mark_set (bf_rule_mark_set bf_rule_new 7) 0) = 0.
Proof. exact (proj1 (proj2 (proj2 (rule_mark_roundtrip (bf_rule_mark_set bf_rule_new 7) 0 ltac:(lia))))). Defined.

Lemma length_chain_index_rules z rules : length (chain_index_rules z rules) = length rules.
Proof. revert z. induction rules as [|r rules IH]; intros z; cbn; [done|by rewrite IH]. Qed.

Lemma chain_index_rules_app z rules r :
  chain_index_rules z (rules ++ [r]) =
  chain_index_rules z rules ++ [rule_set_index (z + Z.of_nat (length rules)) r].
Proof.
  revert z. induction rules as [|r0 rules IH]; intros z; cbn [chain_index_rules app length].
  - by rewrite Z.add_0_r.
  - rewrite IH. by replace (z + 1 + Z.of_nat (length rules)) with (z + Z.of_nat (S (length rules))) by lia.
Qed.

(** C25: however a chain is built, its flags say exactly which features its
    rules use and every rule has its position as index. *)
Theorem chain_flags_exact name hook policy sets rules added :
  let c := foldl bf_chain_add_rule (bf_chain_new name hook policy sets rules) added in
  (forall f, chain_has c f = existsb (rule_uses f) (rules ++ added)) /\
  (forall i r, chain_rules c !! i = Some r ->
     exists r0, (rules ++ added) !! i = Some r0 /\ r = rule_set_index (Z.of_nat i) r0) /\
  length (chain_rules c) = length (rules ++ added).
Proof.
  intros c.
  assert (chain_wf c /\ chain_rules c = chain_index_rules 0 (rules ++ added)) as [[Hf _] Hr].
  { unfold c. clear c. induction added as [|r added IH] using rev_ind.
    - rewrite app_nil_r. split; [apply bf_chain_new_wf|done].
    - rewrite foldl_snoc. destruct IH as [Hw Hr]. split; [by apply bf_chain_add_rule_wf|].
      cbn [bf_chain_add_rule chain_rules].
      by rewrite Hr, app_assoc, chain_index_rules_app, length_chain_index_rules. }
  split_and!.
  - intros f. by rewrite Hf, Hr, chain_index_rules_uses.
  - intros i r Hi. rewrite Hr, chain_index_rules_lookup in Hi.
    destruct ((rules ++ added) !! i) as [r0|]; [|done]. injection Hi as <-. by exists r0.
  - by rewrite Hr, length_chain_index_rules.
Qed.

(** C26: a chain of a known hook is valid exactly when the hook's flavor has the
    callbacks its rules need to write and read the packet's mark, so that the
    generation of a valid chain never calls a callback that is not set. *)
Theorem chain_validate_callbacks `{CgenEnv} c fl : chain_wf c -> bf_hook_to_flavor (chain_hook c) = Some fl ->
  bf_chain_validate c = true <->
  (forall r, r ∈ chain_rules c -> bf_rule_mark_is_set r = true -> is_Some (gen_inline_set_mark fl)) /\
  (forall r m, r ∈ chain_rules c -> m ∈ rule_matchers r -> matcher_type m = BF_MATCHER_META_MARK ->
     is_Some (gen_inline_get_mark fl)).
Proof.
  intros [Hf _] Hfl. unfold bf_chain_validate. rewrite !Hf.
  assert (existsb (rule_uses BF_CHAIN_SET_MARK) (chain_rules c) = true <->
          exists r, r ∈ chain_rules c /\ bf_rule_mark_is_set r = true) as Hs.
  { rewrite existsb_exists. by setoid_rewrite <- list_elem_of_In. }
  assert (existsb (rule_uses BF_CHAIN_GET_MARK) (chain_rules c) = true <->
          exists r m, r ∈ chain_rules c /\ m ∈ rule_matchers r /\ matcher_type m = BF_MATCHER_META_MARK) as Hg.
  { rewrite existsb_exists. cbn [rule_uses]. setoid_rewrite existsb_exists.
    setoid_rewrite <- list_elem_of_In. setoid_rewrite bool_decide_eq_true. split.
    - intros (r & Hr & m & Hm & Ht). by exists r, m.
    - intros (r & m & Hr & Hm & Ht). exists r. split; [done|]. by exists m. }
  set (sb := existsb (rule_uses BF_CHAIN_SET_MARK) (chain_rules c)) in *.
  set (gb := existsb (rule_uses BF_CHAIN_GET_MARK) (chain_rules c)) in *.
  trans ((sb = true -> is_Some (gen_inline_set_mark fl)) /\ (gb = true -> is_Some (gen_inline_get_mark fl))).
  - clear Hs Hg. clearbody sb gb.
    destruct (chain_hook c); try discriminate Hfl; injection Hfl as <-; destruct sb, gb; cbn;
      unfold is_Some; split; try done; try (intros _; split; intros Hx; first [discriminate Hx | by eexists]);
      try (intros [Hs Hg]; by destruct (Hs eq_refl)); try (intros [Hs Hg]; by destruct (Hg eq_refl)).
  - rewrite Hs, Hg. split; intros [A B]; split.
    + intros r Hr Hm. apply A. by exists r.
    + intros r m Hr Hm Ht. apply B. by exists r, m.
    + intros (r & Hr & Hm). by apply (A r).
    + intros (r & m & Hr & Hm & Ht). by apply (B r m).
Qed.

Lemma chain_validate_callbacks_witness :
  bf_chain_validate (bf_chain_new "xdp" BF_HOOK_XDP BF_VERDICT_ACCEPT [] [bf_rule_mark_set bf_rule_new 1]) = false.
Proof.
  apply not_true_is_false. intros Hv.
  pose proof (proj1 (chain_validate_callbacks _ BF_FLAVOR_XDP (bf_chain_new_wf "xdp" BF_HOOK_XDP BF_VERDICT_ACCEPT []
    [bf_rule_mark_set bf_rule_new 1]) eq_refl) Hv) as [Hs _].
  destruct (Hs (rule_set_index 0 (bf_rule_mark_set bf_rule_new 1)) ltac:(by left) eq_refl) as [x Hx]. discriminate Hx.
Defined.

(** * Sets *)

(** A set is created exactly for a key of 1 to 8 components that can be
    looked up, of which a network is the only one; it is then empty, its
    elements have the size of its components together, and it is a trie exactly
    when it holds networks. *)
Theorem set_new_ok name key :
  match bf_set_new name key with
  | Ok s => set_wf s /\ set_key s = key /\ set_name s = name /\ set_elems s = [] /\ set_elem_size s <= 192
  | Err e =>
      (key = [] /\ e = - EINVAL) \/ ((8 < length key)%nat /\ e = - E2BIG) \/
      (Exists (fun t => bf_matcher_get_ops t BF_MATCHER_IN = None) key /\ e = - ENOTSUP) \/
      ((1 < length key)%nat /\ existsb is_net_type key = true /\ e = - EINVAL)
  end.
Proof.
  destruct (bf_set_new name key) as [s|e] eqn:E.
  - apply bf_set_new_wf in E as (Hw & Hn & Hk & He). split_and!; [done..|].
    pose proof (set_wf_comps _ Hw) as Hc. pose proof (set_wf_size _ Hw) as ->. rewrite Hk in Hc |- *.
    assert (key_size key <= 24 * Z.of_nat (length key)).
    { clear. induction key as [|t key IH]; [done|]. cbn [key_size foldr length]. pose proof (comp_size_range t).
      fold (key_size key). lia. }
    unfold BF_SET_MAX_N_COMPS in Hc. lia.
  - unfold bf_set_new in E. destruct (Nat.eqb_spec (length key) 0) as [Hz|].
    { left. injection E as <-. by destruct key. }
    destruct (Nat.ltb_spec BF_SET_MAX_N_COMPS (length key)) as [Hm|].
    { right. left. injection E as <-. by split. }
    destruct (set_new_comps key 0 0) as [[es mask]|e'] eqn:Ec; cbn [rbind] in E.
    + apply set_new_comps_spec in Ec as (Hf & -> & ->). rewrite Z.lor_0_l, net_mask_spec in E by done.
      right. right. right.
      destruct (Nat.ltb_spec 1 (length key)); cbn [andb] in E; [|done].
      destruct (existsb is_net_type key); [|done]. injection E as <-. by split_and!.
    + right. right. left. injection E as <-. clear -Ec. revert Ec.
      assert (forall es mask, set_new_comps key es mask = Err e' ->
        Exists (fun t => bf_matcher_get_ops t BF_MATCHER_IN = None) key /\ e' = - ENOTSUP) as Hg; [|apply Hg].
      induction key as [|t key IH]; intros es mask; cbn [set_new_comps]; [done|].
      destruct (bf_matcher_get_ops t BF_MATCHER_IN) as [ops|] eqn:Et.
      * intros Ec%IH. destruct Ec as [Ec ->]. split; [by apply Exists_cons_tl|done].
      * intros [= <-]. split; [by apply Exists_cons_hd|done].
Qed.

(** Adding an element of the size of the set's elements puts it last and
    keeps the set well-formed. *)
Theorem set_add_elems s es : set_wf s -> Forall (fun e => Z.of_nat (length e) = set_elem_size s) es ->
  set_wf (foldl bf_set_add_elem s es) /\
  set_elems (foldl bf_set_add_elem s es) = set_elems s ++ es /\
  set_key (foldl bf_set_add_elem s es) = set_key s.
Proof.
  revert s. induction es as [|e es IH]; intros s Hw Hes; cbn [foldl].
  - by rewrite app_nil_r.
  - apply Forall_cons in Hes as [He Hes]. destruct (bf_set_add_elem_wf s e Hw He) as [Hw' He'].
    destruct (IH (bf_set_add_elem s e) Hw' Hes) as (H1 & H2 & H3).
    rewrite H2, He', <- app_assoc. by split_and!.
Qed.

Lemma set_add_elems_witness :
  set_elems (foldl bf_set_add_elem (mk_set None [BF_MATCHER_IP4_SADDR] [] 4 false) [[1; 2; 3; 4]; [5; 6; 7; 8]]) =
  [[1; 2; 3; 4]; [5; 6; 7; 8]].
Proof.
  refine (proj1 (proj2 (set_add_elems (mk_set None [BF_MATCHER_IP4_SADDR] [] 4 false) [[1; 2; 3; 4]; [5; 6; 7; 8]] _ _))).
  - constructor; cbn [set_key set_elems set_elem_size set_use_trie length]; try done.
    + unfold BF_SET_MAX_N_COMPS. lia.
    + repeat constructor. by eexists.
    + lia.
  - repeat constructor.
Defined.

(** * Hook options *)

(** C29: the options are valid for a hook exactly when the options given are
    those its flavor needs: an interface for XDP and TC, a path for CGROUP, a
    family and priorities for Netfilter. *)
Theorem hookopts_validate_iff ho hook :
  bf_hookopts_validate ho hook = Ok tt <->
  exists fl, bf_hook_to_flavor hook = Some fl /\ forall t, bf_hookopts_is_used ho t = flavor_needs fl t.
Proof.
  unfold bf_hookopts_validate. destruct (bf_hook_to_flavor hook) as [fl|].
  - rewrite hookopts_validate_types_ok, Forall_forall. split.
    + intros H. exists fl. split; [done|]. intros t. apply H. destruct t; set_solver.
    + intros (fl' & [= <-] & H) t _. apply H.
  - split; [done|]. by intros (fl & [=] & _).
Qed.

(** The priorities that are accepted are two different integers from 1 to
    [INT_MAX], the interface index is at most [INT_MAX], the family is one of
    the two, and parsing an option marks it used and no other. *)
Theorem hookopts_parse_ranges ho opt ho' : bf_hookopts_parse_opt ho opt = Ok ho' ->
  exists t, (forall t', bf_hookopts_is_used ho' t' = bf_hookopts_is_used ho t' || bool_decide (t = t')) /\
    match t with
    | BF_HOOKOPTS_IFINDEX => 0 <= ho_ifindex ho' <= INT_MAX
    | BF_HOOKOPTS_CGPATH => is_Some (ho_cgpath ho')
    | BF_HOOKOPTS_FAMILY => ho_family ho' = PF_INET \/ ho_family ho' = PF_INET6
    | BF_HOOKOPTS_PRIORITIES =>
        1 <= ho_priority0 ho' <= INT_MAX /\ 1 <= ho_priority1 ho' <= INT_MAX /\
        ho_priority0 ho' <> ho_priority1 ho'
    end.
Proof.
  unfold bf_hookopts_parse_opt. destruct (strchr opt "="%char) as [[key value]|]; [|done].
  unfold _bf_hookopts_get_ops. destruct (find _ _) as [t|]; cbn; [|done].
  intros E. exists t. destruct t; cbn [hop_parse _bf_hookopts_ops] in E.
  - unfold _bf_hookopts_ifindex_parse in E. pose proof (strtoul_range value 0 ltac:(done)).
    destruct (su_erange _); [done|]. destruct (Z.ltb_spec INT_MAX (su_value (strtoul value 0))); [done|].
    injection E as <-. split; [intros t'; by rewrite hookopts_use_used|]. cbn. lia.
  - injection E as <-. split; [intros t'; by rewrite hookopts_use_used|]. by eexists.
  - unfold _bf_hookopts_family_parse in E.
    destruct (bf_streq _ _); [|destruct (bf_streq _ _); [|done]]; injection E as <-;
      (split; [intros t'; by rewrite hookopts_use_used|]); [by left|by right].
  - unfold _bf_hookopts_priorities_parse in E. destruct (strchr value "-"%char) as [[copy rest]|]; [|done].
    pose proof (strtoul_range copy 0 ltac:(done)). pose proof (strtoul_range rest 0 ltac:(done)).
    case_bool_decide; [done|]. destruct (su_erange (strtoul copy 0)); [done|]. destruct (su_erange (strtoul rest 0)); [done|].
    destruct (Z.ltb_spec INT_MAX (su_value (strtoul copy 0))); [done|].
    destruct (Z.ltb_spec INT_MAX (su_value (strtoul rest 0))); [done|]. cbn [orb] in E.
    destruct (Z.eqb_spec (su_value (strtoul copy 0)) (su_value (strtoul rest 0))); [done|].
    destruct (Z.eqb_spec (su_value (strtoul copy 0)) 0); [done|].
    destruct (Z.eqb_spec (su_value (strtoul rest 0)) 0); [done|]. cbn [orb] in E.
    injection E as <-. split; [intros t'; by rewrite hookopts_use_used|]. cbn. lia.
Qed.

Lemma hookopts_parse_ranges_witness : exists ho, bf_hookopts_parse_opt bf_hookopts_new "priorities=0x65-102" = Ok ho /\
  ho_priority0 ho <> ho_priority1 ho.
Proof.
  exists (mk_hookopts 8 0 None 0 101 102). split; [reflexivity|].
  destruct (hookopts_parse_ranges bf_hookopts_new "priorities=0x65-102" (mk_hookopts 8 0 None 0 101 102) eq_refl)
    as (t & Hu & Ht). destruct t.
  - specialize (Hu BF_HOOKOPTS_PRIORITIES). discriminate Hu.
  - specialize (Hu BF_HOOKOPTS_PRIORITIES). discriminate Hu.
  - specialize (Hu BF_HOOKOPTS_PRIORITIES). discriminate Hu.
  - apply Ht.
Defined.

(** * The printer *)

(** What is found at a message's place in the assembled string. *)
Lemma assembled_message (p : bf_printer) off m pre : printer_layout off p -> m ∈ p -> Z.of_nat (length pre) = off ->
  sub_bytes (Z.to_nat (msg_offset m)) (Z.to_nat (msg_len m))
    (pre ++ concat ((fun m => cstr_bytes (msg_str m)) <$> p)) = cstr_bytes (msg_str m).
Proof.
  revert off pre. induction p as [|a p IH]; intros off pre; [by intros _ ?%elem_of_nil|].
  intros (Ho & Hl & Hp) [->|Hm]%elem_of_cons Hlen; rewrite fmap_cons; cbn [concat].
  - unfold sub_bytes. rewrite drop_app_length' by lia.
    pose proof (length_cstr_bytes (msg_str a)). by rewrite take_app_length' by lia.
  - rewrite app_assoc. apply (IH (off + msg_len a)); [done|done|].
    rewrite length_app. pose proof (length_cstr_bytes (msg_str a)). lia.
Qed.

(** C31: adding messages to a printer keeps one copy of each; in the string that
    is assembled from it, every message is found at its offset, whole and with
    its terminating NUL, whatever the buffer held before. *)
Theorem printer_messages strs (junk : list Z) :
  let p := foldl (fun p s => snd (bf_printer_add_msg p s)) bf_printer_new strs in
  Z.of_nat (length junk) = _bf_printer_total_size p ->
  NoDup (msg_str <$> p) /\ (forall s, s ∈ strs <-> s ∈ msg_str <$> p) /\
  (forall m, m ∈ p -> sub_bytes (Z.to_nat (msg_offset m)) (Z.to_nat (msg_len m)) (bf_printer_assemble junk p) =
                      cstr_bytes (msg_str m)).
Proof.
  intros p Hj.
  assert (printer_wf p /\ forall s, s ∈ strs <-> s ∈ msg_str <$> p) as [[Hl Hn] Hs].
  { unfold p. clear Hj p. induction strs as [|s strs IH] using rev_ind.
    - split; [split; [done|constructor]|]. intros s. by rewrite !elem_of_nil.
    - rewrite foldl_snoc. destruct IH as [Hw Hs]. set (q := foldl _ _ _) in *.
      destruct (bf_printer_add_msg q s) as [m q'] eqn:E. cbn [snd].
      destruct (bf_printer_add_msg_wf q s m q' Hw E) as (Hw' & Hm & Es & Hpre). split; [done|].
      intros t. rewrite elem_of_app, list_elem_of_singleton, Hs. split.
      + intros [Ht| ->]; [|rewrite <- Es; by apply list_elem_of_fmap_2].
        destruct Hpre as [l ->]. rewrite fmap_app. apply elem_of_app. by left.
      + unfold bf_printer_add_msg in E. destruct (printer_find s q); injection E as <- <-; [by left|].
        rewrite fmap_app. intros [?|Ht]%elem_of_app; [by left|]. cbn in Ht.
        apply list_elem_of_singleton in Ht. by right. }
  split_and!; [done|done|]. intros m Hm. unfold bf_printer_assemble.
  destruct (Z.eqb_spec (_bf_printer_total_size p) 0) as [E|E].
  - exfalso. rewrite printer_total_end in E by done. clear Hj Hs Hn.
    destruct p as [|a p']; [by apply elem_of_nil in Hm|]. destruct Hl as (Ho & Hl & Hp).
    apply printer_end_ge in Hp. change (printer_end 0 (a :: p')) with (printer_end (0 + msg_len a) p') in E.
    pose proof (strlen_nonneg (msg_str a)). lia.
  - pose proof (printer_fold_spec p [] junk) as Hf. cbn [app length] in Hf. rewrite Hf.
    + by apply (assembled_message p 0 m []).
    + done.
    + by rewrite Hj, printer_total_end.
Qed.

Lemma printer_messages_witness :
  bf_printer_assemble [9; 9; 9; 9; 9] [mk_msg 0 2 "a"; mk_msg 2 3 "bc"] = [97; 0; 98; 99; 0] /\
  NoDup (msg_str <$> foldl (fun p s => snd (bf_printer_add_msg p s)) bf_printer_new ["a"; "bc"; "a"]%string).
Proof.
  split; [reflexivity|]. exact (proj1 (printer_messages ["a"; "bc"; "a"]%string [9; 9; 9; 9; 9] eq_refl)).
Defined.

(** * Names *)

(** A table in which no two names are equal finds back every name. *)
Definition names_ok {A} (eq : option string -> option string -> bool) (name : A -> option string) (vals : list A)
    `{EqDecision A} : bool :=
  forallb (fun a => match name a with
    | Some s => forallb (fun b => negb (eq (name b) (Some s)) || bool_decide (b = a)) vals && eq (Some s) (Some s)
    | None => true
    end) vals.

Lemma names_ok_find {A} eq (name : A -> option string) vals `{EqDecision A} a s :
  names_ok eq name vals = true -> a ∈ vals -> name a = Some s -> table_find eq name vals s = Some a.
Proof.
  intros Hok Ha Hs. unfold names_ok in Hok. rewrite forallb_forall in Hok.
  pose proof (Hok a ltac:(by apply list_elem_of_In)) as Hall. rewrite Hs in Hall.
  apply andb_prop in Hall as [Hall He]. apply table_find_roundtrip; [done|by rewrite Hs|].
  intros b Hb Hbs. rewrite forallb_forall in Hall. specialize (Hall b ltac:(by apply list_elem_of_In)).
  rewrite Hbs in Hall. by apply bool_decide_eq_true in Hall.
Qed.

Lemma byte_in n : 0 <= n < 256 -> n ∈ byte_vals.
Proof. intros Hn. by apply elem_of_seqZ. Qed.

Ltac names_tac :=
  unfold bf_verdict_from_str, bf_hook_from_str, bf_pkthdr_from_str, bf_matcher_type_from_str,
    bf_matcher_op_from_str, bf_tcp_flag_from_str, bf_ipproto_from_str, bf_icmp_type_from_str, bf_icmpv6_type_from_str;
  erewrite names_ok_find; [reflexivity|by vm_compute| |eassumption].

(** A value that has a name is in the enumeration. *)
Ltac named_tac := match goal with H : _ ?v = Some _ |- ?v ∈ _ => destruct v; try discriminate H end;
  repeat first [by left | right].

(** every name the library prints is parsed back: verdicts, hooks, header
    types, types and operators of matchers, TCP flags, protocols, and the types
    of ICMP and ICMPv6 messages. *)
Theorem names_roundtrip :
  (forall v s, bf_verdict_to_str v = Some s -> bf_verdict_from_str s = Ok v) /\
  (forall h s, bf_hook_to_str h = Some s -> bf_hook_from_str s = h) /\
  (forall h s, bf_pkthdr_to_str h = Some s -> bf_pkthdr_from_str s = Ok h) /\
  (forall t s, bf_matcher_type_strs t = Some s -> bf_matcher_type_from_str s = Ok t) /\
  (forall o s, bf_matcher_op_to_str o = Some s -> bf_matcher_op_from_str s = Ok o) /\
  (forall f s, bf_tcp_flag_to_str f = Some s -> bf_tcp_flag_from_str s = Ok f) /\
  (forall e s, bf_ethertype_to_str e = Some s -> bf_ethertype_from_str s = Ok e) /\
  (forall n s, 0 <= n < 256 -> bf_ipproto_to_str n = Some s -> bf_ipproto_from_str s = Ok n) /\
  (forall n s, 0 <= n < 256 -> bf_icmp_type_to_str n = Some s -> bf_icmp_type_from_str s = Ok n) /\
  (forall n s, 0 <= n < 256 -> bf_icmpv6_type_to_str n = Some s -> bf_icmpv6_type_from_str s = Ok n).
Proof.
  split_and!.
  - intros v s H. names_tac. named_tac.
  - intros h s H. names_tac. named_tac.
  - intros h s H. names_tac. named_tac.
  - intros t s H. names_tac. named_tac.
  - intros o s H. names_tac. named_tac.
  - intros f s H. names_tac. named_tac.
  - intros e s. unfold bf_ethertype_to_str. destruct (Z.eqb_spec e ETH_P_IP) as [->|]; [by intros [= <-]|].
    destruct (Z.eqb_spec e ETH_P_IPV6) as [->|]; [by intros [= <-]|done].
  - intros n s Hn H. names_tac. by apply byte_in.
  - intros n s Hn H. names_tac. by apply byte_in.
  - intros n s Hn H. names_tac. by apply byte_in.
Qed.

(** The hypotheses of its parts hold of a name of each table. *)
Lemma names_roundtrip_witness :
  bf_matcher_type_from_str "ip4.snet" = Ok BF_MATCHER_IP4_SNET /\ bf_icmpv6_type_from_str "echo-reply" = Ok 129.
Proof.
  split.
  - exact (proj1 (proj2 (proj2 (proj2 names_roundtrip))) BF_MATCHER_IP4_SNET "ip4.snet"%string eq_refl).
  - exact (proj2 (proj2 (proj2 (proj2 (proj2 (proj2 (proj2 (proj2 (proj2 names_roundtrip)))))))) 129 "echo-reply"%string
      ltac:(lia) eq_refl).
Defined.

(** * Linked lists *)

(** C22: whatever is added at either end, deleted in the middle and cleaned, and
    whatever the rest of the memory holds, a linked list has the nodes of the
    list that the same operations make of their data: walking it from the head
    gives the elements in order, walking it from the tail gives them in the
    reverse order, each one is found at its index and the size is theirs; the
    data of what is deleted has gone to the callback once, in order; no node of
    others is changed and none is lost. *)
Theorem linked_lists {D : Type} ops (m : memory (D := D)) cmds :
  exists lst m', run_cmds cmds (bf_list_init ops, m) = (Ok tt, (lst, m')) /\
    let '(xs, freed) := spec_cmds (ops_free (default (bf_list_ops_default false) ops)) cmds ([], m_freed m) in
    contents (lst, m') = (Ok (inl xs), (lst, m')) /\ contents_rev (lst, m') = (Ok (inl (rev xs)), (lst, m')) /\
    (forall i, bf_list_get_at i (lst, m') = (Ok (mjoin (xs !! i)), (lst, m'))) /\
    bf_list_size lst = Z.of_nat (length xs) /\ m_freed m' = freed /\
    (forall a n, m_nodes m !! a = Some n -> m_nodes m' !! a = Some n) /\
    base.size (m_nodes m') = (base.size (m_nodes m) + length xs)%nat.
Proof.
  destruct (run_cmds_ok _ _ cmds _ _ _ (holds_init m ops)) as ([lst m'] & E & Hs). exists lst, m'. split; [exact E|].
  destruct (spec_cmds _ _ _) as [xs fr]. destruct Hs as (_ & Hfr & l & Hl & <-). cbn [fst snd] in *. split_and!.
  - by eapply contents_ok.
  - by eapply contents_rev_ok.
  - intros i. by eapply get_at_ok.
  - rewrite length_fmap. apply Hl.
  - done.
  - intros a n. by apply (list_at_others _ _ _ _ _ _ Hl).
  - rewrite length_fmap. exact (list_at_nodes _ _ _ _ Hl).
Qed.
