(* ===== verification/TextProps.v ===== *)
(** The claims about texts: matchers and sets as they are printed and parsed,
    and the command line of the tool. *)

From S2P Require Import Prelude Bytes Helper CString Printf Inet Pack Hook Hookopts Matcher Payload.
From S2P Require Import PayloadSpec BfSet Sys Rule Chain Serial Dump RawSetSpec Log ToolOpts.
From S2P Require Import Request Client Tool ToolSpec.
From Stdlib Require Import Ascii.

(** A system with two interfaces. *)
#[local] Instance demo_ifaces : Ifaces := {|
  if_nametoindex name := if String.eqb name "lo" then 1 else if String.eqb name "eth0" then 2 else 0;
  if_indextoname index := if index =? 1 then Some "lo"%string else if index =? 2 then Some "eth0"%string else None
|}.

(** The memory of the elements, before they are written. *)
Definition demo_heap (n i : nat) : Z := Z.of_nat ((n + i) mod 256).

(** * Matchers *)

(** C24: the type, the operator and the payload of a matcher, as they are
    printed in a chain, are parsed back into the matcher that was printed:
    addresses and networks of both families, ports and their ranges, protocols,
    ICMP types and codes, TCP flags, probabilities, marks and interfaces; only
    the bytes that a parser does not write are those of the memory the payload
    is allocated in. *)
Theorem matcher_text_roundtrip `{Ifaces} (m : bf_matcher) ops memory :
  matcher_text_ok m ops -> (Z.to_nat (ref_payload_size ops) <= length memory)%nat ->
  bf_matcher_type_from_str (bf_matcher_type_to_str (matcher_type m)) = Ok (matcher_type m) /\
  (exists op, bf_matcher_op_to_str (matcher_op m) = Some op /\ bf_matcher_op_from_str op = Ok (matcher_op m)) /\
  bf_matcher_new_from_raw memory (matcher_type m) (matcher_op m) (print_with (ops_parse ops) (matcher_payload m)) =
    Ok (mk_matcher (matcher_type m) (matcher_op m)
          (take (written (ops_parse ops)) (matcher_payload m) ++
           drop (written (ops_parse ops)) (take (Z.to_nat (ref_payload_size ops)) memory))).
Proof.
  intros Hok Hm. pose proof Hok as [Eo _ _ _ _]. split; [by destruct m as [[] op pl]|].
  split; [by destruct m as [[] [] pl]; try done; eexists|]. by apply matcher_read_back.
Qed.

Definition demo_port_range : bf_matcher := mk_matcher BF_MATCHER_TCP_SPORT BF_MATCHER_RANGE [80; 0; 144; 31].

Lemma matcher_text_roundtrip_witness :
  bf_matcher_type_from_str (bf_matcher_type_to_str BF_MATCHER_TCP_SPORT) = Ok BF_MATCHER_TCP_SPORT /\
  (exists op, bf_matcher_op_to_str BF_MATCHER_RANGE = Some op /\ bf_matcher_op_from_str op = Ok BF_MATCHER_RANGE) /\
  bf_matcher_new_from_raw [9; 9; 9; 9] BF_MATCHER_TCP_SPORT BF_MATCHER_RANGE "80-8080" = Ok demo_port_range.
Proof.
  refine (matcher_text_roundtrip demo_port_range (mk_ops 4 PARSE_l4_port_range) [9; 9; 9; 9] _ _).
  - constructor; [reflexivity|repeat constructor; lia|reflexivity|vm_compute; discriminate|exact I].
  - vm_compute. lia.
Defined.

(** * Sets *)

(** C23: a named set that has elements is printed in a chain as its name, its
    key and its elements between braces; the key and the elements that are
    printed are parsed back into the set, element by element and in order, but
    for the padding of IPv6 networks, which is that of the memory the elements
    are allocated in. *)
Theorem set_text_roundtrip `{Ifaces} heap (set : bf_set) name :
  set_wf set -> Forall (elem_of_key (set_key set)) (set_elems set) -> set_elems set <> [] -> set_name set = Some name ->
  exists raw_key raw_payload,
    print_named_set set = Ok ("    set " +s+ name +s+ " " +s+ raw_key +s+ " in " +s+ raw_payload +s+ nl) /\
    bf_set_new_from_raw heap (Some name) raw_key raw_payload =
      Ok (mk_set (Some name) (set_key set) (refilled heap (set_key set) 0 (set_elems set)) (set_elem_size set) (set_use_trie set)).
Proof.
  intros Hwf He Hn Hname. pose proof (wf_readable set Hwf) as [Ho _ _].
  destruct (print_lines_ok "        " set Hwf) as [texts Et].
  assert (print_elems "        " "    " set = Ok ("{" +s+ nl +s+ texts +s+ "    " +s+ "}")) as Ep by (unfold print_elems; by rewrite Et).
  exists ("(" +s+ print_key (set_key set) +s+ ")"), ("{" +s+ nl +s+ texts +s+ "    " +s+ "}"). split.
  - unfold print_named_set. rewrite Hname, Ep. cbn [rbind]. by rewrite !append_assoc.
  - rewrite <- Hname. by apply (set_read_back heap set "        " "    ").
Qed.

Definition demo_named_set : bf_set :=
  mk_set (Some "servers"%string) [BF_MATCHER_IP4_DADDR; BF_MATCHER_TCP_DPORT] [[10; 0; 0; 1; 0; 80]; [10; 0; 0; 2; 1; 187]] 6 false.

Lemma demo_named_set_wf : set_wf demo_named_set.
Proof. constructor; cbn; try lia; try done; repeat constructor; try done; by eexists. Qed.

Lemma set_text_roundtrip_witness : exists raw_key raw_payload,
  print_named_set demo_named_set = Ok ("    set " +s+ "servers" +s+ " " +s+ raw_key +s+ " in " +s+ raw_payload +s+ nl) /\
  bf_set_new_from_raw demo_heap (Some "servers"%string) raw_key raw_payload = Ok demo_named_set.
Proof.
  refine (set_text_roundtrip demo_heap demo_named_set "servers" demo_named_set_wf _ _ eq_refl); [|discriminate].
  repeat constructor; try (cbn; lia).
Defined.

(** C28: what is read from the text of a set is a set of the key that is
    written: one to eight components that can be looked up, a network being
    alone; every element has one payload for each component, of the size of the
    component and that the component's parser can make. *)
Theorem raw_set_ok `{Ifaces} heap name raw_key raw_payload set :
  (forall n i, is_byte (heap n i)) -> bf_set_new_from_raw heap name raw_key raw_payload = Ok set ->
  set_wf set /\ Forall (elem_of_key (set_key set)) (set_elems set) /\ set_name set = name /\
  _bf_set_parse_key raw_key = Ok (set_key set).
Proof. intros Hh Hs. destruct (new_from_raw_wf heap Hh name raw_key raw_payload set Hs) as ([? ?] & ? & ?). done. Qed.

Lemma demo_heap_bytes n i : is_byte (demo_heap n i).
Proof. unfold demo_heap, is_byte. pose proof (Nat.mod_upper_bound (n + i) 256). lia. Qed.

Definition demo_net_set : bf_set :=
  mk_set None [BF_MATCHER_IP4_SNET] [[24; 0; 0; 0; 10; 0; 0; 0]; [8; 0; 0; 0; 127; 0; 0; 0]] 8 true.

Lemma raw_set_ok_witness :
  set_wf demo_net_set /\ Forall (elem_of_key [BF_MATCHER_IP4_SNET]) (set_elems demo_net_set) /\ None = @None string /\
  _bf_set_parse_key "( ip4.snet )" = Ok [BF_MATCHER_IP4_SNET].
Proof.
  apply (raw_set_ok demo_heap None "( ip4.snet )" "{10.0.0.0/24; 127.0.0.0/8 }" demo_net_set demo_heap_bytes).
  vm_compute. reflexivity.
Defined.

(** C30: reading a set from its text comes to an end, with a set or with an
    error, unless the key is good and the first token of the elements is blank:
    the same token is then found for ever, whatever follows it and however long
    one waits; the fuel of the model is never missed otherwise. *)
Theorem raw_set_ends `{Ifaces} heap name raw_key raw_payload :
  (bf_set_new_from_raw heap name raw_key raw_payload = Err (- BF_CRASH) <->
   (exists key set, _bf_set_parse_key raw_key = Ok key /\ bf_set_new name key = Ok set) /\ blank_first raw_payload = true) /\
  (blank_first raw_payload = true -> forall fuel set, parse_elems heap fuel true raw_payload set = Err (- BF_CRASH)).
Proof.
  split; [|intros Hb fuel set; by apply blank_first_loops]. unfold bf_set_new_from_raw.
  destruct (_bf_set_parse_key raw_key) as [key|e] eqn:Ek; cbn [rbind].
  2: { split; [|by intros [(? & ? & [=] & _) _]]. intros [= ->]. by apply parse_key_error in Ek. }
  destruct (bf_set_new name key) as [set|e] eqn:Es; cbn [rbind].
  2: { split; [|intros [(? & ? & [= <-] & E) _]; congruence]. intros [= ->]. by apply set_new_error in Es. }
  split.
  - intros Hp. split; [by exists key, set|]. destruct (blank_first raw_payload) eqn:Hb; [done|].
    by apply not_blank_ends in Hp.
  - intros [_ Hb]. by apply blank_first_loops.
Qed.

(** The empty named set, as it is printed, is such a text. *)
Example printed_empty_set_loops `{Ifaces} heap name :
  print_elems "        " "    " (mk_set (Some name) [BF_MATCHER_IP4_SADDR] [] 4 false) = Ok ("{" +s+ nl +s+ "    }") /\
  bf_set_new_from_raw heap (Some name) "(ip4.saddr)" ("{" +s+ nl +s+ "    }") = Err (- BF_CRASH).
Proof. by split. Qed.

(** * The command line *)

(** A library that knows options by their letter, followed by their value. *)
Fixpoint demo_split (n : nat) (argv : list string) : list argp_key :=
  match argv with
  | String "-" (String c EmptyString) :: value :: argv => ARGP_KEY_OPT c value :: demo_split n argv
  | arg :: argv => ARGP_KEY_ARG n arg :: demo_split (S n) argv
  | [] => []
  end.

Lemma demo_split_numbered argv n m : (length argv <= m)%nat -> numbered n (demo_split n argv).
Proof.
  revert argv n. induction m as [|m IH]; intros [|arg argv] n Hl; cbn [length] in Hl; try lia; try exact I.
  assert (numbered n (ARGP_KEY_ARG n arg :: demo_split (S n) argv)) as Harg by (cbn [numbered]; split; [done|apply IH; lia]).
  destruct arg as [|c [|k [|]]]; try exact Harg; try (cbn [demo_split]; destruct c as [[] [] [] [] [] [] [] []]; exact Harg).
  destruct argv as [|value argv]; cbn [demo_split]; destruct c as [[] [] [] [] [] [] [] []]; try exact Harg.
  cbn [numbered]. apply IH. cbn [length] in Hl. lia.
Qed.

#[local] Instance demo_argp : Argp := {| argp_parse parser options argv opts := argp_calls parser (demo_split 0 argv) opts |}.

#[local] Instance demo_argp_spec : ArgpSpec.
Proof.
  split. intros parser options argv. exists (demo_split 0 argv). split; [|done]. by apply (demo_split_numbered argv 0 (length argv)).
Qed.

(** C18: a command line is accepted for one of the ten commands only, and the
    command's function is then given what it reads and nothing else: exactly one
    of the two sources where there is one to read, a name that is not empty
    where one is needed, options of hooks for the command that attaches; no
    function finds a null pointer where it reads a string. *)
Theorem command_options `{ArgpSpec} argv opts : bfc_opts_parse argv bfc_opts_default = Ok opts ->
  exists cmd, In cmd _bfc_opts_cmds /\ o_cmd opts = Some cmd /\
    o_object opts = Some (cmd_object cmd) /\ o_action opts = Some (cmd_action cmd) /\ cb_reads (cmd_cb cmd) opts.
Proof. apply command_ready. Qed.

Definition demo_argv : list string := ["bfcli"%string; "chain"%string; "attach"%string; "-n"%string; "web"%string; "-o"%string; "ifindex=2"%string].

Definition demo_opts : bfc_opts :=
  match bfc_opts_parse demo_argv bfc_opts_default with Ok opts => opts | Err _ => bfc_opts_default end.

Lemma command_options_witness : exists cmd, In cmd _bfc_opts_cmds /\ o_cmd demo_opts = Some cmd /\
  o_object demo_opts = Some (cmd_object cmd) /\ o_action demo_opts = Some (cmd_action cmd) /\ cb_reads (cmd_cb cmd) demo_opts.
Proof. apply (command_options demo_argv demo_opts). vm_compute. reflexivity. Defined.

(** What is refused: an option twice under its two sources, a source that is
    missing, an option of another command. *)
Example refused_conflict : bfc_opts_parse ["bfcli"; "chain"; "set"; "-s"; "x"; "-f"; "y"]%string bfc_opts_default = Err (- EINVAL).
Proof. vm_compute. reflexivity. Qed.
Example refused_missing : bfc_opts_parse ["bfcli"; "ruleset"; "set"]%string bfc_opts_default = Err (- EINVAL).
Proof. vm_compute. reflexivity. Qed.
Example refused_unknown : bfc_opts_parse ["bfcli"; "ruleset"; "get"; "-n"; "x"]%string bfc_opts_default = Err (- EINVAL).
Proof. vm_compute. reflexivity. Qed.
