(* ===== verification/DaemonProps.v ===== *)
(** The properties of the daemon and of its client: what a request does to the
    ruleset, and what travels between the two. *)

From S2P Require Import Prelude Bytes Bpf Helper Hook Hookopts Matcher BfSet Sys Io Map Rule.
From S2P Require Import Chain Printer Pack Serial Wire Btf Program Elf Block BlockExec Fixups Flavors Load Fds Generate Frame.
From S2P Require Import Account Cgen CgenSpec Request Client Ctx Save Cli Ipt IptSpec Ruleset CliSpec Daemon Traffic DaemonSpec SaveSpec LiveSpec ClientSpec Typed.
From S2P Require Import CString Printf Inet Payload Dump Log ToolOpts Tool ToolSpec.
From S2P Require Import Demo.

(** * Examples *)

Definition demo_daemon : bf_daemon :=
  mk_daemon false "/sys/fs/bpf" (mk_ns (mk_ns_info 0 10) (mk_ns_info 1 11)) (-1).

Definition no_request : bf_request := bf_request_new BF_FRONT_CLI BF_REQ_RULESET_FLUSH [].

Definition pack_request (cmd : bf_request_cmd) (pack : bf_wpack) : bf_request :=
  default no_request (match bf_request_new_from_pack BF_FRONT_CLI cmd pack with Ok r => Some r | Err _ => None end).

Definition set_demo : bf_request := pack_request BF_REQ_CHAIN_SET (chain_set_pack demo_chain (Some demo_hookopts) bf_wpack_new).

Definition daemon_start : list bf_cgen * fd_kernel := ([], [true; true; true]).
Definition demo_served : res (option bf_response) * (list bf_cgen * fd_kernel) := cli_command demo_daemon set_demo daemon_start.

Lemma demo_runs : cli_command demo_daemon set_demo daemon_start = (Ok None, (fst (snd demo_served), snd (snd demo_served))).
Proof. by vm_compute. Qed.

(** * Commands *)

(** C33: every command of the command line tool takes a context that represents
    a ruleset to one that represents a ruleset the specification allows for the
    result it has ([rs_step]): the error paths leave what they promise, names
    stay unique and every program is that of its chain; the descriptors that
    are open are then those of the context and those that were open before,
    and one more at most for each program that was loaded. *)
Theorem command_refines `{CgenEnv} `{Mpack} {K : Type} `{FdSys K} `{!CounterSys K} d request R G
    (ctx : list bf_cgen) (k : K) r (ctx' : list bf_cgen) k' :
  rep R ctx -> owns G (own_fds (O := list bf_cgen) ctx) (fd_open k) ->
  cli_command d request (ctx, k) = (r, (ctx', k')) ->
  exists R' G', rs_step request R r R' /\ rep R' ctx' /\
    leaks (programs_loaded request) G G' /\ owns G' (own_fds (O := list bf_cgen) ctx') (fd_open k').
Proof.
  intros HR HX E.
  pose proof (handled_command (K := K) d request R G (ctx, k) r (ctx', k') (conj HR HX) E) as Hh.
  destruct r as [a|e]; destruct Hh as [(R' & Hs & HR') (G' & Hl & HX')]; by exists R', G'.
Qed.

(** The chain that is set is there, attached; descriptor 6, which the BTF
    object got, is the one more. *)
Lemma command_refines_witness : exists R' G', rs_step set_demo [] (Ok None) R' /\ rep R' (fst (snd demo_served)) /\
  leaks 1 ({[0; 1; 2]} : gset Z) G' /\
  owns G' (own_fds (O := list bf_cgen) (fst (snd demo_served))) (fd_open (snd (snd demo_served))).
Proof.
  apply (command_refines demo_daemon set_demo [] ({[0; 1; 2]} : gset Z) [] [true; true; true] (Ok None) _ _).
  - split; constructor.
  - apply owns_nil. by vm_compute.
  - exact demo_runs.
Defined.

(** C34: a request or a response of half a gigabyte at most that is sent is
    received as it was, but for the namespaces of a request, which its sender
    cannot give; what follows it on the socket is left there.  The messages
    that carry it are not empty and fit the receiver's buffers. *)
Theorem transport_roundtrip request response later : request_sendable request -> response_sendable response ->
  bf_recv_request (bf_send_request request ++ later) = Ok (request_sent request, later) /\
  bf_recv_response (bf_send_response response ++ later) = Ok (response, later) /\
  Forall (fun msg => (8 < length msg <= 8 + BF_MSG_BUF_SIZE)%nat) (bf_send_request request ++ bf_send_response response).
Proof.
  intros Hq Hp. split_and!; [by apply recv_send_request|by apply recv_send_response|].
  apply Forall_app. split; apply sent_sizes.
Qed.

Lemma transport_roundtrip_witness :
  bf_recv_request (bf_send_request set_demo ++ [[1]]) = Ok (request_sent set_demo, [[1]]).
Proof.
  refine (proj1 (transport_roundtrip set_demo (mk_response (-2) [7; 8]) [[1]] _ _)).
  - split; vm_compute; (done || (split; done)).
  - split; vm_compute; (done || (split; done)).
Defined.

(** * Connections *)

(** The kernel of the examples, with a record of the messages; every client asks
    for the example chain, and there is no signal. *)
Abbreviation log_kernel := (fd_kernel * list message)%type.

Definition demo_message (c : syscall) : list message :=
  match c with
  | SysSend fd msg => [MsgOut fd msg]
  | SysSendFd sock_fd fd => [FdOut sock_fd fd]
  | SysRecv fd => [MsgIn fd (bf_send_request set_demo)]
  | _ => []
  end.

#[local] Instance log_sys : Sys log_kernel := {|
  sys_call c k := let '(r, k') := sys_call c (fst k) in (r, (k', snd k ++ demo_message c))
|}.
#[local] Instance log_counters : CounterSys log_kernel := {| sys_counter := fun _ _ _ => bf_counter_new 0 0 |}.
#[local] Instance log_files : FileSys log_kernel := {|
  sys_read := fun _ _ _ => []; sys_inode := fun fd _ => fd; sys_isdir := fun _ _ => true
|}.
#[local] Instance log_peers : PeerSys log_kernel := {|
  sys_received := fun _ _ => bf_send_request set_demo; sys_pid := fun _ _ => 7; sys_stop := fun _ => false
|}.

#[local] Instance log_record : RecordSys log_kernel.
Proof. refine {| traffic := snd |}. intros c [k l] Hc. destruct c; try discriminate Hc; apply app_nil_r. Defined.

#[local] Instance log_traffic : TrafficSys log_kernel.
Proof.
  split.
  - intros fd msg [k l]. cbn. rewrite (proj2 (Z.ltb_ge _ 0)) by lia. by rewrite Nat2Z.id, take_ge.
  - by intros sock_fd fd [k l].
  - by intros fd [k l].
Defined.

Lemma log_call c (k : log_kernel) : fst (sys_call c k) = fst (sys_call c (fst k)) /\
  fst (snd (sys_call c k)) = snd (sys_call c (fst k)).
Proof. unfold sys_call at 1 3, log_sys. by destruct (sys_call c (fst k)). Qed.

#[local] Instance log_fds : FdSys log_kernel.
Proof.
  refine {| fd_open k := fd_open (fst k) |}.
  - intros fd k. rewrite (proj2 (log_call _ k)). apply fd_close.
  - intros c k. rewrite (proj1 (log_call c k)), (proj2 (log_call c k)). apply fd_opens.
  - intros c k. rewrite (proj1 (log_call c k)), (proj2 (log_call c k)). apply fd_fails.
  - intros c k. rewrite (proj2 (log_call c k)). apply fd_same.
Defined.

#[local] Instance log_live : LiveSys log_kernel.
Proof.
  split.
  - by intros fd msg [k l].
  - intros c [k l] Hc. destruct c; cbn; try done; lia.
  - by intros fd [k l].
  - by intros fd data [k l].
Defined.

Definition log_start : list bf_cgen * log_kernel := ([], ([true; true; true], [])).

Definition no_ipt_opts : bf_options := without_front BF_FRONT_IPT _bf_opts.

Definition demo_run : res unit * (list bf_cgen * log_kernel) := _bf_run no_ipt_opts 1 demo_daemon log_start.

Lemma demo_run_pair : _bf_run no_ipt_opts 1 demo_daemon log_start = (fst demo_run, (fst (snd demo_run), snd (snd demo_run))).
Proof. unfold demo_run. by destruct (_bf_run _ _ _ _) as [? []]. Qed.

(** C35: a daemon that does not serve iptables, whatever its clients send and
    however often the kernel refuses, has at every turn of its loop a context
    that represents the ruleset which the requests received so far lead to, one
    after the other in the order they were received: those of its messages that
    can be read and are for the command line front, when it is enabled, and no
    others ([requests]).  It has no other open descriptors than those of that
    context and those it had, but for one at most for each program these
    requests ask for: the descriptors of clients, of their namespaces, of
    directories, of the saved file, of the lock and of the socket are closed
    again, and a request that asks for no program leaves none behind. *)
Theorem daemon_invariant `{CgenEnv} `{Mpack} {K : Type} `{FdSys K} `{!CounterSys K} `{!FileSys K} `{!PeerSys K}
    `{!RecordSys K} `{!TrafficSys K}
    opts d turns R G (ctx : list bf_cgen) (k : K) r (ctx' : list bf_cgen) k' :
  bf_opts_is_front_enabled opts BF_FRONT_IPT = false ->
  rep R ctx -> owns G (own_fds (O := list bf_cgen) ctx) (fd_open k) ->
  _bf_run opts turns d (ctx, k) = (r, (ctx', k')) ->
  exists l R' G', traffic k' = traffic k ++ l /\ served (requests opts l) R R' /\ rep R' ctx' /\
    leaks (programs_of (requests opts l)) G G' /\ owns G' (own_fds (O := list bf_cgen) ctx') (fd_open k').
Proof.
  intros Hi HR HX E.
  destruct (serves_run (Journal0 := traffic_journal K opts) opts Hi turns d R G ctx k r ctx' k' HR HX E)
    as (qs & R' & G' & (l & Ht & <-) & Hrest).
  by exists l, R', G'.
Qed.

Lemma daemon_invariant_witness : exists l R' G', traffic (snd (snd demo_run)) = [] ++ l /\
  served (requests no_ipt_opts l) [] R' /\ rep R' (fst (snd demo_run)) /\
  leaks (programs_of (requests no_ipt_opts l)) ({[0; 1; 2]} : gset Z) G' /\
  owns G' (own_fds (O := list bf_cgen) (fst (snd demo_run))) (fd_open (snd (snd demo_run))).
Proof.
  refine (daemon_invariant (K := log_kernel) no_ipt_opts demo_daemon 1 [] ({[0; 1; 2]} : gset Z) [] ([true; true; true], [])
    (fst demo_run) _ _ eq_refl _ _ demo_run_pair).
  - split; constructor.
  - apply owns_nil. by vm_compute.
Defined.

(** The chain is there after the turn; one request was received. *)
Example demo_run_set : cgen_name <$> fst (snd demo_run) = [chain_name demo_chain] /\
  request_cmd <$> requests no_ipt_opts (traffic (snd (snd demo_run))) = [BF_REQ_CHAIN_SET].
Proof. by vm_compute. Qed.

(** ** Answers *)

Definition demo_turn : res unit * (list bf_cgen * log_kernel) := serve no_ipt_opts demo_daemon 2 log_start.

Lemma demo_turn_pair : serve no_ipt_opts demo_daemon 2 log_start = (fst demo_turn, (fst (snd demo_turn), snd (snd demo_turn))).
Proof. unfold demo_turn. by destruct (serve _ _ _ _) as [? []]. Qed.

(** C36: where connections are accepted, and what is sent or written is as a
    whole, a client whose request fits a message buffer, whatever its front,
    its command and its contents, is answered: once its request is received the
    daemon sends it the one response that processing the request gave, and
    nothing else through any socket, before or after, unless it has ended.  The
    only exception is a successful request for the descriptor of a program or
    of the logs: that descriptor, of the chain that is named, is sent before the
    response, once.  So every error of a request is reported to the client that
    made it. *)
Theorem client_answered `{CgenEnv} `{Mpack} {K : Type} `{Sys K} `{!CounterSys K} `{!FileSys K} `{!PeerSys K} `{!LiveSys K}
    `{!RecordSys K} `{!TrafficSys K}
    opts d fd request later (ctx : list bf_cgen) (k : K) r (ctx' : list bf_cgen) k' :
  let client := fst (sys_call (SysAccept fd) k) in
  let msgs := bf_send_request request ++ later in
  (forall k1, sys_received client k1 = msgs) -> request_sendable request ->
  serve opts d fd (ctx, k) = (r, (ctx', k')) ->
  r = Err (- BF_CRASH) \/ r = Ok tt /\ exists ns response k1 k2 l,
    _bf_process_request opts d (bf_request_set_fd (bf_request_set_ns (request_sent request) ns) client) (ctx, k1) =
      (Ok response, (ctx', k2)) /\ traffic k1 = traffic k ++ [MsgIn client msgs] /\
    answers opts request client ctx response l /\ traffic k' = traffic k ++ MsgIn client msgs :: l.
Proof. exact (serve_answers opts d fd request later ctx k r ctx' k'). Qed.

Lemma client_answered_witness : fst demo_turn = Err (- BF_CRASH) \/ fst demo_turn = Ok tt /\
  exists ns response k1 k2 l,
    _bf_process_request no_ipt_opts demo_daemon (bf_request_set_fd (bf_request_set_ns (request_sent set_demo) ns) 3) ([], k1) =
      (Ok response, (fst (snd demo_turn), k2)) /\ traffic k1 = [MsgIn 3 (bf_send_request set_demo ++ [])] /\
    answers no_ipt_opts set_demo 3 [] response l /\
    traffic (snd (snd demo_turn)) = MsgIn 3 (bf_send_request set_demo ++ []) :: l.
Proof.
  refine (client_answered no_ipt_opts demo_daemon 2 set_demo [] [] ([true; true; true], []) _ _ _ _ _ demo_turn_pair).
  - intros k1. by rewrite app_nil_r.
  - split; vm_compute; (done || (split; done)).
Defined.

(** The response is sent: status 0, no data. *)
Example demo_turn_sent : snd (snd (snd demo_turn)) = [MsgIn 3 (bf_send_request set_demo); MsgOut 3 (replicate 24 0)].
Proof. by vm_compute. Qed.

(** * Restarting *)

Definition demo_kept : bf_program :=
  match bf_program_new demo_chain with
  | Ok p => with_fd (with_link (with_img p [mk_insn 0xb7 0 0 0 1; mk_insn 0x95 0 0 0 0] 64 [])
                       (mk_link "bf_link" (Some demo_hookopts) 9)) 8
  | Err _ => dummy_program
  end.

Definition demo_cgen : bf_cgen := mk_cgen BF_FRONT_CLI demo_chain (Some demo_kept).

#[local] Instance all_pinned : SavedSys (K := fd_kernel) (fun _ _ => True).
Proof.
  refine {| dir_at := fun _ _ _ => True |}; try done.
  - intros c k [(path & ->)|(fd & name & ->)]; cbn; lia.
  - intros fd name k. cbn. split; [lia|done].
  - intros dir chain name flags k _ _. cbn. lia.
Defined.

(** C37: what a daemon saves is what it reads when it starts again, provided
    its maps, its programs and the links of those that are attached are still
    pinned: the document can be written and read, and the contexts read from it
    have the same fronts, chains, options, maps, printers and bytecode and
    represent the same ruleset; the only descriptors opened are those the new
    contexts own and the daemon's namespaces. *)
Theorem restart_keeps_ruleset `{CgenEnv} `{Mpack} `{!MpackSpec} {K : Type} `{FdSys K} `{!CounterSys K} `{!FileSys K}
    present `{!SavedSys (K := K) present} opts malloc_fd raws stubs pid R (ctx : list bf_cgen) (k : K) :
  opt_with_bpf_token opts = false -> elfstubs_new raws bf_elfstub_ids = Ok stubs -> rep R ctx -> Forall cgen_packable ctx -> Forall (cgen_pinned present) ctx ->
  exists data ns ctx' k', save_pack (K := K) opts ctx = Ok data /\
    load_ctx raws malloc_fd opts pid data k = (Ok (ctx_with opts ns (-1), ctx'), k') /\
    cgen_saved <$> ctx' = cgen_saved <$> ctx /\ rep R ctx' /\
    owns (fd_open k) (own_fds (O := list bf_cgen) ctx' ++ [ns_fd (ns_net ns); ns_fd (ns_mnt ns)]) (fd_open k').
Proof. intros Ht Hst HR Hp Hpin. by eapply (load_saved present). Qed.

(** What can be saved is decided by evaluation. *)
Ltac evaluate := vm_compute; first [done | split; done | lia | intros; lia | by eexists].
Ltac packable := repeat lazymatch goal with
  | |- Forall ?P ?l => let l' := eval vm_compute in l in change (Forall P l'); first [apply Forall_nil_2 | apply Forall_cons_2]
  | |- from_option ?P ?d ?o => let o' := eval vm_compute in o in change (from_option P d o'); cbn [from_option]
  | |- chain_packable _ => split | |- set_packable _ => split | |- set_wf _ => split | |- rule_packable _ => split
  | |- matcher_packable _ => split | |- program_packable _ => split | |- map_packable _ => split | |- link_packable _ => split
  | |- hookopts_packable _ => split | |- insn_packable _ => split | |- cgen_packable _ => split
  | |- program_pinned _ _ _ => split
  | |- cgen_pinned _ _ => red
  | |- _ => first [evaluate | split; intros; evaluate]
  end.

Lemma restart_keeps_ruleset_witness : exists data ns ctx' k', save_pack (K := fd_kernel) _bf_opts [demo_cgen] = Ok data /\
  load_ctx (fun _ => demo_object) 0 _bf_opts 7 data [true; true; true] = (Ok (ctx_with _bf_opts ns (-1), ctx'), k') /\
  cgen_saved <$> ctx' = cgen_saved <$> [demo_cgen] /\ rep [mk_entry BF_FRONT_CLI demo_chain (Some demo_hookopts)] ctx' /\
  owns (fd_open [true; true; true]) (own_fds (O := list bf_cgen) ctx' ++ [ns_fd (ns_net ns); ns_fd (ns_mnt ns)]) (fd_open k').
Proof.
  eapply (restart_keeps_ruleset (fun _ _ => True) _bf_opts 0 (fun _ => demo_object) _ 7).
  - done.
  - vm_compute. reflexivity.
  - split; [apply NoDup_singleton|]. apply Forall2_cons_2; [|constructor].
    split_and!; [done|done|]. exists demo_kept. by split_and!.
  - packable.
  - packable.
Defined.

(** * The client and the daemon *)

#[local] Instance log_lookups : CounterLive log_kernel.
Proof. split. by intros fd key [k l]. Defined.

Definition demo_ns : bf_ns := mk_ns (mk_ns_info 7 10) (mk_ns_info 8 11).

Definition demo_set_run : res (option bf_response) * (list bf_cgen * log_kernel) :=
  cli_command demo_daemon (served_request demo_ns 3 (set_request demo_chain (Some demo_hookopts))) log_start.

Lemma demo_set_pair : cli_command demo_daemon (served_request demo_ns 3 (set_request demo_chain (Some demo_hookopts))) log_start =
  (Ok None, (fst (snd demo_set_run), snd (snd demo_set_run))).
Proof. by vm_compute. Qed.

Lemma demo_exchangeable : exchangeable (K := log_kernel) demo_chain (Some demo_hookopts).
Proof.
  split.
  - packable.
  - by vm_compute.
  - cbn [options_packable from_option]. packable.
  - split; evaluate.
  - split; evaluate.
  - intros cs Hcs Hl. assert (cs = replicate 5 (bf_counter_new 0 0)) as ->.
    { change 5%nat with (length (chain_rules demo_chain) + 2)%nat. rewrite <- Hl. clear Hl.
      induction Hcs as [|c cs (fd & idx & k & ->) _ IH]; [done|]. cbn [length replicate]. by rewrite <- IH. }
    split; [packable|split; evaluate].
Qed.

(** C38: a client that sets a chain, when the daemon's handler succeeds, is told
    so, and a client that then asks for the chain of that name is given the
    chain that was set, rule for rule and set for set, the options it was set
    with, and a counter for each rule, for the policy and for the errors, read
    from the kernel; through the documents, the bytes, the messages and the
    handlers of both sides. *)
Theorem chain_set_then_get `{CgenEnv} `{Mpack} `{!MpackSpec} {K : Type} `{FdSys K} `{!CounterSys K} `{!FileSys K} `{!LiveSys K}
    `{!CounterLive K} opts d ns client_fd G R c ho (ctx : list bf_cgen) (k : K) (ctx1 : list bf_cgen) k1 :
  bf_opts_is_front_enabled opts BF_FRONT_CLI = true ->
  rep R ctx -> owns G (own_fds (O := list bf_cgen) ctx) (fd_open k) -> exchangeable (K := K) c ho ->
  cli_command d (served_request ns client_fd (set_request c ho)) (ctx, k) = (Ok None, (ctx1, k1)) ->
  exists k2 k3 cs, bf_chain_set (daemon_peer opts d ns client_fd) c ho (ctx, k) = (Ok tt, (ctx1, k2)) /\
    bf_chain_get (daemon_peer opts d ns client_fd) (chain_name c) (ctx1, k2) = (Ok (c, ho, cs), (ctx1, k3)) /\
    length cs = (length (chain_rules c) + 2)%nat /\ Forall (kernel_counter (K := K)) cs.
Proof. intros Hcli HR HX Hex E. by eapply set_then_get. Qed.

Lemma chain_set_then_get_witness : exists k2 k3 cs,
  bf_chain_set (daemon_peer _bf_opts demo_daemon demo_ns 3) demo_chain (Some demo_hookopts) log_start =
    (Ok tt, (fst (snd demo_set_run), k2)) /\
  bf_chain_get (daemon_peer _bf_opts demo_daemon demo_ns 3) "demo" (fst (snd demo_set_run), k2) =
    (Ok (demo_chain, Some demo_hookopts, cs), (fst (snd demo_set_run), k3)) /\
  length cs = 5%nat /\ Forall (kernel_counter (K := log_kernel)) cs.
Proof.
  refine (chain_set_then_get _bf_opts demo_daemon demo_ns 3 ({[0; 1; 2]} : gset Z) [] demo_chain (Some demo_hookopts) [] _ _ _ eq_refl _ _ _ demo_set_pair).
  - split; constructor.
  - apply owns_nil. by vm_compute.
  - exact demo_exchangeable.
Defined.

(** * The tool *)

(** C27: a user who sets a chain with the tool, from a string or from a file
    that the parser reads it from, and then asks for the chain of that name, is
    shown that chain and no other, line by line: its name, its hook and its
    policy, the options it was set with (the priorities with the family), the
    counters of the policy and of the errors; its named sets, whose keys and
    elements read back; every rule in order, with its matchers, whose types,
    operators and payloads read back, the headers it logs, its mark, its own
    counters and its verdict.  The counters are those of the kernel.  The tool's
    commands, the client library, the messages and the handlers of the daemon are
    run; the command line is not. *)
Theorem tool_set_then_get `{CgenEnv} `{Mpack} `{!MpackSpec} {K : Type} `{FdSys K} `{!CounterSys K} `{!FileSys K} `{!LiveSys K}
    `{!CounterLive K} `{Parser} `{Source} `{Ifaces} opts d ns client_fd G R (set_opts get_opts : bfc_opts) c ho
    (ctx : list bf_cgen) (k : K) (ctx1 : list bf_cgen) k1 :
  bf_opts_is_front_enabled opts BF_FRONT_CLI = true ->
  rep R ctx -> owns G (own_fds (O := list bf_cgen) ctx) (fd_open k) -> exchangeable (K := K) c ho -> chain_printable c ->
  source_chain set_opts = Ok (c, ho) -> o_name get_opts = Some (chain_name c) ->
  cli_command d (served_request ns client_fd (set_request c ho)) (ctx, k) = (Ok None, (ctx1, k1)) ->
  exists k2 k3 cs text, bfc_chain_set (daemon_peer opts d ns client_fd) set_opts (ctx, k) = (Ok EmptyString, (ctx1, k2)) /\
    bfc_chain_get (daemon_peer opts d ns client_fd) get_opts (ctx1, k2) = (Ok text, (ctx1, k3)) /\
    chain_shown c ho cs text /\
    length cs = (length (chain_rules c) + 2)%nat /\ Forall (kernel_counter (K := K)) cs.
Proof.
  intros Hcli HR HX Hex Hp Hs Hn E.
  destruct (set_then_get opts d ns client_fd Hcli G R c ho ctx k ctx1 k1 HR HX Hex E) as (k2 & k3 & cs & E1 & E2 & Hl & Hk).
  destruct (dump_shown c ho cs Hp Hl) as (text & Et & Hshown). exists k2, k3, cs, text. split; [|split]; [| |by split_and!].
  - unfold bfc_chain_set. rewrite Hs. unfold mbind, st_bind, st_lift. cbn [fst snd]. by rewrite E1.
  - unfold bfc_chain_get. rewrite Hn. unfold mbind, st_bind, st_lift. cbn [deref of_option]. rewrite E2. cbn [fst snd]. by rewrite Et.
Qed.

(** A parser that reads the same chain from any text. *)
#[local] Instance demo_parser : Parser := {| yyparse _ _ _ := (0, mk_ruleset [demo_chain] [Some demo_hookopts] [demo_set]) |}.
#[local] Instance demo_source : Source := {| src_stat _ := Err ENOENT; src_fopen _ := Err ENOENT |}.
#[local] Instance demo_ifaces : Ifaces := {| if_nametoindex _ := 0; if_indextoname _ := None |}.

Definition demo_set_opts : bfc_opts := with_from_str "chain demo" bfc_opts_default.
Definition demo_get_opts : bfc_opts := with_opt_name "demo" bfc_opts_default.

Lemma tool_set_then_get_witness : exists k2 k3 cs text,
  bfc_chain_set (daemon_peer _bf_opts demo_daemon demo_ns 3) demo_set_opts log_start = (Ok EmptyString, (fst (snd demo_set_run), k2)) /\
  bfc_chain_get (daemon_peer _bf_opts demo_daemon demo_ns 3) demo_get_opts (fst (snd demo_set_run), k2) =
    (Ok text, (fst (snd demo_set_run), k3)) /\
  chain_shown demo_chain (Some demo_hookopts) cs text /\
  length cs = 5%nat /\ Forall (kernel_counter (K := log_kernel)) cs.
Proof.
  refine (tool_set_then_get _bf_opts demo_daemon demo_ns 3 ({[0; 1; 2]} : gset Z) [] demo_set_opts demo_get_opts demo_chain (Some demo_hookopts) []
    _ _ _ eq_refl _ _ _ _ eq_refl eq_refl demo_set_pair).
  - split; constructor.
  - apply owns_nil. by vm_compute.
  - exact demo_exchangeable.
  - split; [by eexists|by eexists|packable| |].
    + repeat constructor; cbn; try lia.
    + repeat (apply Forall_nil_2 || apply Forall_cons_2 || apply mk_rule_printable);
        lazymatch goal with
        | |- is_Some _ => by eexists
        | |- matcher_printable _ (bf_matcher_new BF_MATCHER_SET _ _) => split; [by vm_compute; lia|by eexists]
        | |- matcher_printable _ _ =>
            eexists; constructor; [reflexivity|repeat constructor; unfold is_byte; lia|reflexivity|by vm_compute|done]
        | |- _ => by vm_compute
        end.
Defined.

(** * Entries of iptables *)

(** C39: the loop that turns the entries of an iptables chain into rules ends,
    after as many turns at most as there are bytes between the first entry and
    the last, each of which adds one rule: at the last entry, at an entry that
    is refused or not in the request, or at an entry that says it is followed
    by itself, the only one the loop never leaves; the fuel of the model is
    never missed, and no run is longer. *)
Theorem entries_terminate data hook first last target_offset policy name :
  is_bytes data -> rd data (last + entry_target_offset) 2 = Ok target_offset ->
  _bf_ipt_target_to_verdict data (last + Z.to_nat target_offset) = Ok policy -> bf_nf_hook_to_str hook = Some name ->
  exists n s, nsteps (entry_step data last) n (first, bf_chain_new name (bf_hook_from_nf_hook hook) policy [] []) s /\
    entry_ends data last s (_bf_ipt_entries_to_chain data hook first last) /\
    (n <= last - first)%nat /\ length (chain_rules (snd s)) = n /\
    forall m u, nsteps (entry_step data last) m (first, bf_chain_new name (bf_hook_from_nf_hook hook) policy [] []) u ->
      (m <= n)%nat.
Proof.
  intros Hb Et Ev En. unfold _bf_ipt_entries_to_chain. rewrite Et. cbn [rbind]. rewrite Ev. cbn [rbind].
  rewrite En. cbn [of_option rbind].
  destruct (entries_run data last (last - first) first (bf_chain_new name (bf_hook_from_nf_hook hook) policy [] []) Hb (le_n _)) as (n & s & Hs & He).
  exists n, s. split; [exact Hs|]. split; [exact He|]. split; [exact (entry_steps_measure _ _ _ _ _ Hs)|].
  split; [exact (entry_steps_rules _ _ _ _ _ Hs)|]. intros m u. by eapply entry_steps_longest.
Qed.

(** Two entries, then the policy. *)
Definition demo_entry (addr : Z) (verdict : Z) : list Z :=
  entry_bytes (mk_ipt_entry addr 0 UINT32_MAX 0 6 0 (Z.of_nat rule_size) 0 0) ++ standard_target_bytes verdict.
Definition demo_entries : list Z := demo_entry 0x0100000a (-2) ++ demo_entry 0x0200000a (-1) ++ demo_entry 0 (-2).

Lemma entries_terminate_witness :
  exists n s, nsteps (entry_step demo_entries 304) n
      (0%nat, bf_chain_new "nf_input" BF_HOOK_NF_LOCAL_IN BF_VERDICT_ACCEPT [] []) s /\
    entry_ends demo_entries 304 s (_bf_ipt_entries_to_chain demo_entries BF_NF_INET_LOCAL_IN 0 304) /\
    (n <= 304)%nat /\ length (chain_rules (snd s)) = n /\
    forall m u, nsteps (entry_step demo_entries 304) m
      (0%nat, bf_chain_new "nf_input" BF_HOOK_NF_LOCAL_IN BF_VERDICT_ACCEPT [] []) u -> (m <= n)%nat.
Proof. apply (entries_terminate demo_entries BF_NF_INET_LOCAL_IN 0 304 112); [by apply (bool_decide_unpack _); vm_compute|by vm_compute..].
Defined.

(** * Types *)

(** C14: the structure that is generated for iptables is read as the ruleset it
    was generated of.  Without the counters the generation succeeds and changes
    nothing.  A request that holds a generated structure, with the counters or
    without, announces its own size; each hook gets from it the chain of the
    cgen that the request updates, its rules in order with their addresses,
    protocols and verdicts, and its policy; a hook that has no cgen gets no
    chain, or one that accepts everything.  The chains are those that such
    requests can set, but for the networks, whose masks do not come back. *)
Theorem ruleset_roundtrip `{CgenEnv} {K : Type} `{Sys K} `{!CounterSys K} (ctx : bf_ctx) (k : K) :
  Forall front_cgen ctx ->
  (exists r, _bf_ipt_gen_ipt_replace false (ctx, k) = (Ok r, (ctx, k))) /\
  forall counters r s num_counters ptr, _bf_ipt_gen_ipt_replace counters (ctx, k) = (Ok r, s) ->
    Z.of_nat (length (ir_entries r)) < 2 ^ 32 ->
    let data := replace_bytes num_counters ptr r in
    rd data replace_size 4 = Ok (Z.of_nat (length data - sizeof_ipt_replace)) /\
    exists chains, _bf_ipt_xlate_ruleset_set data = Ok chains /\
      forall cgens, current_cgens 0 ctx (replicate NF_INET_NUMHOOKS None) = Ok cgens ->
        Forall2 (hook_chain ctx) cgens chains.
Proof.
  intros Hc. split; [by apply gen_replace_plain|]. intros counters r s nc ptr E Hl. by eapply replace_read.
Qed.

Definition ipt_demo_rules : list ipt_rule :=
  [mk_ipt_rule (Some (BF_MATCHER_EQ, [192; 0; 2; 1])) None (Some IPPROTO_UDP) BF_VERDICT_DROP;
   mk_ipt_rule None (Some (BF_MATCHER_NE, [198; 51; 100; 7])) None BF_VERDICT_ACCEPT].

Definition ipt_demo_chain : bf_chain :=
  ipt_chain "nf_input" (bf_hook_from_nf_hook BF_NF_INET_LOCAL_IN) BF_VERDICT_DROP ipt_demo_rules.

Definition ipt_demo_ctx : bf_ctx := match bf_cgen_new BF_FRONT_IPT ipt_demo_chain with Ok cg => [cg] | Err _ => [] end.

Definition ipt_demo_replace : ipt_replace :=
  match _bf_ipt_gen_ipt_replace false (ipt_demo_ctx, ([true; true; true] : fd_kernel)) with
  | (Ok r, _) => r
  | _ => mk_ipt_replace 0 0 0 [] [] []
  end.

Lemma ruleset_roundtrip_witness :
  exists chains, _bf_ipt_xlate_ruleset_set (replace_bytes 0 0 ipt_demo_replace) = Ok chains /\
    Forall2 (hook_chain ipt_demo_ctx) [None; Some 0%nat; None; None; None] chains.
Proof.
  assert (Forall front_cgen ipt_demo_ctx) as Hc.
  { constructor; [|constructor]. intros _. exists BF_NF_INET_LOCAL_IN, ipt_demo_rules. split; [by vm_compute; repeat constructor|].
    constructor; [by exists "nf_input"%string|by right|].
    repeat constructor; vm_compute; intuition discriminate. }
  destruct (ruleset_roundtrip ipt_demo_ctx ([true; true; true] : fd_kernel) Hc) as [[r Er] Hr].
  destruct (Hr false ipt_demo_replace (ipt_demo_ctx, [true; true; true]) 0 0) as [_ (chains & E & Hh)].
  - by vm_compute.
  - by vm_compute.
  - exists chains. split; [exact E|]. apply Hh. by vm_compute.
Defined.

(** C40: a daemon that does not serve iptables and whose context is typed has a
    typed context at every turn of its loop, whatever its clients send: the
    numbers of its chains, rules, matchers and hook options have the width of
    their fields, its strings have no NUL character, its sets have the key and
    the element size [bf_set_new] allows and elements of that size, and the
    flags and the indices of a chain are those of its rules; so that every
    chain is read again, as it is, from the document it is written to. *)
Theorem daemon_typed `{CgenEnv} `{Mpack} {K : Type} `{FdSys K} `{!CounterSys K} `{!FileSys K} `{!PeerSys K}
    opts d turns R G (ctx : list bf_cgen) (k : K) r (ctx' : list bf_cgen) k' :
  bf_opts_is_front_enabled opts BF_FRONT_IPT = false ->
  rep R ctx -> owns G (own_fds (O := list bf_cgen) ctx) (fd_open k) -> Forall cgen_typed ctx ->
  _bf_run opts turns d (ctx, k) = (r, (ctx', k')) ->
  Forall cgen_typed ctx' /\
  forall cg, cg ∈ ctx' -> bf_chain_new_from_pack (obj (chain_kvs (cgen_chain cg))) = Ok (cgen_chain cg).
Proof.
  intros Hi HR HX Ht E.
  destruct (serves_run (RecordSys0 := no_record K) (Journal0 := no_journal K opts) opts Hi turns d R G ctx k r ctx' k' HR HX E)
    as (qs & R' & G' & _ & Hs & HR' & _).
  assert (Forall cgen_typed ctx') as Ht'.
  { apply (rep_typed R' ctx' HR'). apply (served_typed qs R R' Hs). by apply (rep_typed R ctx HR). }
  split; [done|]. intros cg Hcg. apply chain_typed_read. by destruct (proj1 (Forall_forall _ _) Ht' cg Hcg).
Qed.

Lemma daemon_typed_witness : Forall cgen_typed (fst (snd demo_run)) /\
  forall cg, cg ∈ fst (snd demo_run) -> bf_chain_new_from_pack (obj (chain_kvs (cgen_chain cg))) = Ok (cgen_chain cg).
Proof.
  apply (daemon_typed no_ipt_opts demo_daemon 1 [] ({[0; 1; 2]} : gset Z) [] ([true; true; true], []) (fst demo_run) _
    (snd (snd demo_run)) eq_refl).
  - split; constructor.
  - apply owns_nil. by vm_compute.
  - constructor.
  - exact demo_run_pair.
Defined.
